(* ===== verification/_CoqProject ===== *)
-Q . S2P
Prelude.v
PyDict.v
PyStr.v
Sha256.v
Json.v
DateTime.v
Enums.v
Models.v
Digests.v
DigestFacts.v
Utf8.v
Sexpr.v
SexprRead.v
Geometry.v
GeometryFacts.v
Board.v
OutlineFacts.v
Rule.v
Copper.v
GeoRules.v
RoutingRules.v
BoardFixtures.v
CopperFacts.v
ClearanceFacts.v
RoutingFacts.v
OverlapFacts.v
ElectricalRules.v
RuleFacts.v
Canonical.v
BoardValues.v
Policy.v
CanonicalFacts.v
ElectricalFacts.v
Engine.v
EngineFacts.v
EngineSafety.v
SilentRuns.v
SilentCopper.v
EngineGuarantees.v
ReportFacts.v
Effect.v
Codec.v
CodecFacts.v
Store.v
StoreFacts.v
StoreRuns.v
StoreLog.v
TaskGraph.v
Scheduler.v
Fixtures.v
StoreSafety.v
ModelFacts.v
StateMachine.v
StateMachineFacts.v
SchedInv.v
LeaseFacts.v
SchedSteps.v
SchedRun.v
SchedSafety.v
SchedLive.v
KernelText.v
KernelModel.v
KernelShape.v
KernelGraph.v
KernelCommand.v
KernelLaws.v
CommitAuthority.v
Kernel.v
AuthorityFacts.v
KernelSteps.v
KernelInv.v
KernelRuns.v
KernelLedger.v
KernelSafety.v
KernelPreview.v
KernelHistory.v
KernelLive.v
BoardAdapter.v
KernelVerified.v
