(* ===== verification/Prelude.v ===== *)
(** * EvlEDA: verification development (root file)

    EvlEDA coordinates AI agents that design circuit boards. Three packages say
    what must hold. backend/orchestrator coordinates the work: runs move through
    gated phases, tasks are dispatched under leases and budgets, results are
    bound by digests to their evidence, and everything is written to a durable
    store with a hash-chained log. backend/design_kernel holds the design: typed
    commands are staged in transactions on the design graph, and a verified
    transaction becomes the next revision under a single-use capability that a
    commit authority issued for an approval. backend/verification judges the
    boards that the kernel's adapter makes of revisions: a registry of rules
    over an exact geometry, run under a policy, whose report with its gates
    decides whether a board may be committed. This development models the three
    packages, file by file, and the reader and writer of KiCad S-expressions.

    ** Conventions

    A function that may raise is a function into [result]; an exception is its
    class and its message, and [is_a] is the subclass test of an [except]
    clause. Checks are performed in the order of the code ([raise_first],
    [;;;]). A [str] is a [string] whose characters are the code points below
    256, except in the components that read files, where it is a list of code
    points ([Utf8]). Tests of exact Python types ([type(x) is Run]) are the
    types of the model. A [datetime] is a wall clock in microseconds with an
    optional fixed offset ([DateTime]); [utc_now], generated ids and signing
    keys are arguments, and so are the readings of a clock, drawn nonces and the
    token object of an authority. A lock that a method holds makes the method
    one step. Integers are unbounded, as in Python, except where SQLite binds
    them to 64 bits. SHA-256 and HMAC are the functions themselves ([Sha256],
    with the published test vectors), so a statement never assumes that digests
    are injective: it exhibits the colliding texts instead. A [dict] keeps
    insertion order ([PyDict]); [sorted] is a stable sort by a key
    ([Prelude.sorted_on]). Floats, Python's recursion limit, the limit on the
    digits of an integer and non-local exits ([BaseException]) are not modelled.

    ** Files

    Shared: [Prelude] (results, lists, ordered keys, sorting), [PyDict],
    [PyStr], [Effect] (computations on a state that may raise: what a method
    changed before it raised stays changed), [Sha256], [Json] (json.dumps with
    sorted keys and compact separators, json.loads, their round trip),
    [DateTime] (with datetime.fromisoformat on what isoformat writes), [Utf8]
    (strict UTF-8 and str.isspace).

    models.py: [Enums], [Models] (every dataclass with its __post_init__ and the
    operations on it: Budget.reserve and settle, RetryPolicy.delay_seconds,
    Approval.is_valid_for, Evidence.capture), [Digests] (task, agent, inventory
    and result digests, OrchestrationEvent), [TaskGraph] (assert_acyclic).
    [ModelFacts] and [DigestFacts] prove what these promise: a reservation is
    granted exactly when it fits and a settlement gives back what it reserved,
    backoff is bounded and monotone, canonical JSON is read back, a digest
    commits to its contract, the search for cycles ends and decides. The fuel of
    the search is the number of tasks plus one, since the tasks being visited
    are distinct.

    state_machine.py: [StateMachine] (TransitionContext, RunStateMachine,
    CoordinationStageMachine, CoordinationService), [StateMachineFacts]: a
    completed run has every task succeeded, sealed and reviewed by independent
    critics; a released run passed its gates, along every sequence of calls;
    blocking questions stop a run; terminal runs are closed; and two places
    where the code lets a run around a gate.

    scheduler.py: [Scheduler] (DeterministicScheduler), over the invariant of
    [SchedInv] (tasks, agents, leases and the budget agree) and the steps of
    [SchedSteps]. [SchedRun]: every handler keeps the invariant and no task is
    dispatched more often than its retry policy allows. [SchedSafety]: what is
    dispatched was ready, suited and independent; reaping is exact; the evidence
    gate decides as its reference definition. [SchedLive]: the order of the
    input does not matter, and no slot is left free while an eligible task has a
    suitable agent and budget. [LeaseFacts]: a lease token binds its assignment
    and is retired by a heartbeat.

    store.py: [Codec] (_primitive, the decoders, _decode_record) with the class
    [Stored] that the store relies on, [CodecFacts] (its laws [StoredLaws]: a
    record that its constructor accepts is decoded from its body), [Store]
    (SQLiteOrchestratorStore: tables as lists of rows, statements with the
    errors of keys, foreign keys and 64-bit integers, operations as computations
    on the database and the transaction depth). [StoreFacts], [StoreRuns] and
    [StoreLog] give the effect of each operation; [StoreSafety] the guarantees
    along any sequence of calls: failures roll back, a sealed inventory stays,
    updates are not lost, the log of a run is exactly the events of the calls
    that returned, its last hash commits to it. Not modelled: locks, WAL, other
    processes on the file, and which of the messages of SnapshotIntegrityError a
    malformed body gives.

    kicad_io/sexpr.py: [Sexpr] (parse and render), [SexprRead] (the texts of an
    expression): what is written is read back, and reading is total and within
    its limits. The loop of parse runs on fuel, the length of the text, since
    every turn consumes a character.

    verification/geometry.py: [Geometry] (segments, distances, outlines, over
    integers and fractions, and the outlines of boards) and [GeometryFacts]:
    segments intersect exactly when they share a point, distances are the least
    distances between points, so the clearance comparison is exact, and an
    outline has no defect exactly when it is a simple polygon.

    verification/model.py and rule.py: [Board] (records and normal forms of
    boards, rules and evidence), [Rule] (validate_rule_definition,
    resolve_rule), [Policy] (gates, policies, findings, reports, the order of
    findings). [OutlineFacts]: two outlines have one normal form exactly when
    they are the same polygon. [RuleFacts]: a policy cannot weaken a rule, and
    every rule of the registry runs to its end.

    verification/geometric.py: [Copper] (copper primitives and their exact
    distances), [GeoRules] (the nine rules). [CopperFacts] reads a primitive as
    a region of the plane and a distance as the least one of two regions;
    [ClearanceFacts]: the clearance rule reports exactly what is too near.

    verification/algorithms.py: [RoutingRules] (disjoint sets and the four
    rules). [RoutingFacts]: find returns the root of a class and union merges
    two classes; the fuel of find is the item plus one, since a parent never
    exceeds its item; the connectivity rule decides connectivity.
    [OverlapFacts]: the overlap of two tracks is exact.

    verification/electrical.py: [ElectricalRules] and [ElectricalFacts]: the
    reference rule decides that the references of a board are sound.

    verification/canonical.py: [Canonical] (canonical_data, stable_hash, and the
    class of the types with a canonical value), [BoardValues] (the values of the
    records), [CanonicalFacts]: a value determines its record, so a hash commits
    to it and to its domain.

    verification/engine.py: [Engine] (boards, policies, runs, findings, gates,
    reports). [EngineFacts] says what a run records and what an accepted policy
    grants; [SilentRuns] what a rule that drafts nothing says of the board, and
    that a good board gets through; [SilentCopper] the same of the rules of
    clearance, rings and routing. [EngineSafety] and [EngineGuarantees]
    compose them: a gate that passes means a sound board, under the default
    policy a clear one, and a release always needs KiCad; [ReportFacts]: the
    form of reports, what their hashes commit to, and two boards that get no
    report. The identity of the running code, which _implementation_identity
    reads from live objects and source files, is an argument: what is observed
    of the kernel or a rule at a moment.

    design_kernel/model.py: [KernelText] (the checks of texts and integers, and
    the kernel's own hashes, which agree with those of [Canonical]),
    [KernelModel] (its geometry and the entities with their constructors and
    normal forms), [KernelGraph] (DesignGraph, validate_graph, the binding of a
    zone fill). [KernelShape]: its geometry agrees with that of
    verification/geometry.py; [KernelLaws]: a normal form is its own, and a hash
    commits to its record. DesignCommand and the _apply of engine.py are
    [KernelCommand], one definition per kind of command.

    design_kernel/commit_authority.py: [CommitAuthority] (the issuer and the
    verifier as computations on the state they share), [AuthorityFacts] (the
    effect of each method).

    design_kernel/engine.py: [Kernel] (transactions, revisions and every method
    of DesignKernel, over the states of the kernel and of its authority).
    [KernelSteps] names the five ways in which the kernel changes, and each
    method does one of them, several (a batch), or nothing. [KernelInv] is the
    invariant: one line of valid, hash-linked revisions, each the replay of one
    committed transaction. [KernelRuns] has the calls of clients in any order,
    whether they raise or not, and [KernelLedger] what every run keeps of
    approvals, capabilities and nonces. [KernelSafety]: the head is the replay
    of the commits; a commit was approved and its capability commits nothing
    else; a call that raises changes nothing; a revocation and a seen rollback
    of the clock are final. [KernelLive]: the capability of an approved,
    verified transaction does commit it. A batch is its commands one by one, or
    none of them, and a command is accepted once ([KernelSafety]).
    [KernelPreview]: locked geometry survives, and a preview is empty exactly
    when nothing changes. [KernelHistory]: the hash of the head commits to all
    that led to it.

    design_kernel/adapter.py: [BoardAdapter]: every valid graph has its board,
    which carries it one to one and names what it cannot represent. [KernelVerified] composes the
    kernel, the adapter and the engine: what a passed gate on the board of a
    published revision says of its graph.

    [Fixtures], [BoardFixtures] and the end of [KernelRuns] hold the concrete
    records of the witnesses.

    ** Not modelled

    In the modelled packages: locks and other processes on the database, and the
    reflection on live Python objects (byte code, closures, source files) that
    identifies the code of a rule; which of the messages an undecodable command
    payload gives. The rest of the repository: the importers, compilers and
    exporters of KiCad files, the approval and journal repositories, the MCP
    server and gateway, the reference design, scripts and prototypes. They are
    listed, each with its reason, in the manifest of the development. *)
From Stdlib Require Export ZArith Lia Ascii String.
From stdpp Require Export base tactics list gmap strings sorting.

#[export] Set Default Goal Selector "!".
#[export] Set Warnings "-clear-no-such-hyp,-register-all".

(** ** Exceptions and fallible computations

    A Python function that may raise is a function into [result].  An
    exception is its class and its message; [is_a] is the subclass test that
    an [except] clause performs. *)

Inductive exn_class :=
  | ValueError | TypeError | KeyError | IndexError | OverflowError
  | AssertionError | ZeroDivisionError | RecursionError
  | DomainError | BudgetExceeded | TransitionRejected
  | SchedulingError | LeaseRejected | EvidenceRejected
  | SQLIntegrityError | StoreError | NotFound | ConcurrencyConflict | EventChainError
  | SnapshotIntegrityError
  | RuleConfigurationError | VerificationInputError | VerificationExecutionError | CanonicalizationError
  | InvariantViolation | KernelError | StaleRevision | CommandConflict | ApprovalMismatch
  | TransactionNotCommittable | LockedObject
  | CommitAuthorizationError | InvalidCommitAuthorization | ExpiredCommitAuthorization
  | ReplayedCommitAuthorization | CommitAuthorityClockRollback
  | KiCadIOError | KiCadSyntaxError | UnicodeDecodeError | UnicodeEncodeError.

#[export] Instance exn_class_eq_dec : EqDecision exn_class.
Proof. solve_decision. Defined.

(** The direct base class, for the classes whose bases the modelled code
    relies on in an [except] clause. *)
Definition exn_base (c : exn_class) : option exn_class :=
  match c with
  | DomainError => Some ValueError
  | BudgetExceeded | TransitionRejected | SchedulingError => Some DomainError
  | LeaseRejected | EvidenceRejected => Some SchedulingError
  | NotFound | ConcurrencyConflict | EventChainError | SnapshotIntegrityError => Some StoreError
  | RuleConfigurationError | VerificationInputError | CanonicalizationError
  | InvariantViolation => Some ValueError
  | StaleRevision | CommandConflict | ApprovalMismatch | TransactionNotCommittable
  | LockedObject => Some KernelError
  | InvalidCommitAuthorization | ExpiredCommitAuthorization | ReplayedCommitAuthorization
  | CommitAuthorityClockRollback => Some CommitAuthorizationError
  | KiCadIOError | UnicodeDecodeError | UnicodeEncodeError => Some ValueError
  | KiCadSyntaxError => Some KiCadIOError
  | _ => None
  end.

Fixpoint is_a_fuel (n : nat) (c d : exn_class) : bool :=
  bool_decide (c = d) ||
  match n, exn_base c with
  | S n, Some b => is_a_fuel n b d
  | _, _ => false
  end.

(** The class hierarchy is at most four deep. *)
Definition is_a : exn_class -> exn_class -> bool := is_a_fuel 4.

Record exn := Exn { exn_cls : exn_class; exn_msg : string }.

Inductive result (A : Type) :=
  | Ok (a : A)
  | Err (e : exn).
Arguments Ok {A} a.
Arguments Err {A} e.

Definition bind {A B} (c : result A) (k : A -> result B) : result B :=
  match c with Ok a => k a | Err e => Err e end.

(** [if cond: raise e] *)
Definition raise_if (cond : bool) (e : exn) : result unit :=
  if cond then Err e else Ok tt.

(** A run of [if cond: raise e] statements: the first condition that holds raises. *)
Fixpoint raise_first (l : list (bool * exn)) : result unit :=
  match l with
  | [] => Ok tt
  | (cond, e) :: l => if cond then Err e else raise_first l
  end.

(** [try: c except cls: h] *)
Definition catch {A} (c : result A) (cls : exn_class) (h : exn -> result A) : result A :=
  match c with
  | Ok a => Ok a
  | Err e => if is_a (exn_cls e) cls then h e else Err e
  end.

Lemma catch_true (c : result bool) cls :
  catch c cls (fun _ => Ok false) = Ok true -> c = Ok true.
Proof. destruct c as [|e]; simpl; [done|]. by destruct (is_a _ _). Qed.

Declare Scope py_scope.
Delimit Scope py_scope with py.
Notation "'let*' x ':=' c 'in' k" := (bind c (fun x => k))
  (at level 10, x name, c at level 100, k at level 200,
   format "'[v' 'let*'  x  ':='  c  'in' '/' k ']'") : py_scope.
Notation "'let*' ' x ':=' c 'in' k" := (bind c (fun x => k))
  (at level 10, x strict pattern, c at level 100, k at level 200,
   format "'[v' 'let*'  ' x  ':='  c  'in' '/' k ']'") : py_scope.
Notation "c ';;;' k" := (bind c (fun _ => k))
  (at level 199, right associativity, format "'[v' c ';;;' '/' k ']'") : py_scope.
Open Scope py_scope.

Lemma bind_Ok {A B} (c : result A) (k : A -> result B) b :
  bind c k = Ok b <-> exists a, c = Ok a /\ k a = Ok b.
Proof. destruct c; simpl; split; [by eauto|by intros (? & [= ->] & ?)|done|by intros (? & ? & ?)]. Qed.

(** Sequencing after statements that only raise. *)
Lemma seq_Ok {B} (c : result unit) (k : result B) b : (c ;;; k) = Ok b <-> c = Ok tt /\ k = Ok b.
Proof. rewrite bind_Ok. split; [by intros ([] & ? & ?)|]. intros []; eauto. Qed.

Lemma bind_assoc {A B C} (c : result A) (k : A -> result B) (h : B -> result C) :
  bind (bind c k) h = bind c (fun a => bind (k a) h).
Proof. by destruct c. Qed.

Lemma Ok_inj {A} (a b : A) : Ok a = Ok b -> a = b.
Proof. by intros [=]. Qed.

Lemma raise_if_Ok b e u : raise_if b e = Ok u <-> b = false.
Proof. by destruct b, u. Qed.

Lemma raise_first_Ok l u : raise_first l = Ok u <-> Forall (fun ce => ce.1 = false) l.
Proof.
  destruct u. induction l as [|[[] e] l IH]; simpl; [done|..].
  - split; [done|]. by intros [? _]%Forall_cons.
  - rewrite IH, Forall_cons. naive_solver.
Qed.

Definition is_ok {A} (r : result A) : bool := match r with Ok _ => true | Err _ => false end.

(** Decompose every [bind]/[raise_if]/[if] equation ending in [Ok] in the context. *)
Ltac monad_step :=
  match goal with
  | H : Ok _ = Ok _ |- _ => injection H as H; try subst
  | H : Err _ = Ok _ |- _ => discriminate H
  | H : Ok _ = Err _ |- _ => discriminate H
  | H : bind _ _ = Ok _ |- _ =>
      let a := fresh "a" in let Ha := fresh "Heq" in
      apply bind_Ok in H as (a & Ha & H); cbn beta in H
  | H : raise_if _ _ = Ok _ |- _ => apply raise_if_Ok in H
  | u : unit |- _ => destruct u
  end.
Ltac monad_inv := repeat monad_step.

(** Loops: [for x in l: acc = f acc x], stopping at the first exception. *)
Fixpoint foldM {A S} (f : S -> A -> result S) (s : S) (l : list A) : result S :=
  match l with
  | [] => Ok s
  | x :: l => let* s' := f s x in foldM f s' l
  end.

(** [for x in l: f x] where the body only raises. *)
Definition forM_ {A} (f : A -> result unit) (l : list A) : result unit :=
  foldM (fun _ x => f x) tt l.

Fixpoint mapM {A B} (f : A -> result B) (l : list A) : result (list B) :=
  match l with
  | [] => Ok []
  | x :: l => let* y := f x in let* ys := mapM f l in Ok (y :: ys)
  end.

(** [any(f(x) for x in l)] and [all(f(x) for x in l)], with their early exit. *)
Fixpoint anyM {A} (f : A -> result bool) (l : list A) : result bool :=
  match l with
  | [] => Ok false
  | x :: l => let* b := f x in if b then Ok true else anyM f l
  end.
Fixpoint allM {A} (f : A -> result bool) (l : list A) : result bool :=
  match l with
  | [] => Ok true
  | x :: l => let* b := f x in if b then allM f l else Ok false
  end.

(** [a and b], where [b] may raise. *)
Definition andM (a : bool) (b : result bool) : result bool := if a then b else Ok false.

Lemma anyM_true {A} (f : A -> result bool) l :
  anyM f l = Ok true -> exists x, x ∈ l /\ f x = Ok true.
Proof.
  induction l as [|x l IH]; simpl; [done|]. intros (b & Hb & H)%bind_Ok.
  destruct b; [exists x; by split; [left|]|].
  destruct (IH H) as (y & ? & ?). exists y. by split; [right|].
Qed.

Lemma allM_true {A} (f : A -> result bool) l :
  allM f l = Ok true -> forall x, x ∈ l -> f x = Ok true.
Proof.
  induction l as [|x l IH]; simpl; intros H y Hy; [by inversion Hy|].
  apply bind_Ok in H as ([] & Hb & H); [|done].
  apply elem_of_cons in Hy as [->|Hy]; [done|by apply IH].
Qed.

Lemma andM_Ok b c : andM b (Ok c) = Ok (b && c).
Proof. by destruct b. Qed.

Lemma andM_true b r : andM b r = Ok true <-> b = true /\ r = Ok true.
Proof. destruct b; simpl; naive_solver. Qed.

(** Predicates that never raise on the list: the loops are [existsb] and [forallb]. *)
Lemma anyM_total {A} (f : A -> result bool) (p : A -> bool) l :
  (forall x, x ∈ l -> f x = Ok (p x)) -> anyM f l = Ok (existsb p l).
Proof.
  induction l as [|x l IH]; simpl; intros H; [done|].
  rewrite H by (by left). simpl. destruct (p x); [done|]. apply IH. intros. apply H. by right.
Qed.
Lemma existsb_elem {A} (p : A -> bool) l : existsb p l = true <-> exists x, x ∈ l /\ p x = true.
Proof. rewrite existsb_exists. by setoid_rewrite list_elem_of_In. Qed.
Lemma existsb_Forall {A} (p : A -> bool) l : existsb p l = false <-> Forall (fun x => p x = false) l.
Proof.
  induction l as [|x l IH]; simpl; [by split|]. rewrite Forall_cons, orb_false_iff. naive_solver.
Qed.
Lemma forallb_elem {A} (p : A -> bool) l : forallb p l = true <-> forall x, x ∈ l -> p x = true.
Proof. rewrite forallb_forall. by setoid_rewrite list_elem_of_In. Qed.

Lemma forM_Ok {A} (f : A -> result unit) l :
  forM_ f l = Ok tt <-> Forall (fun x => f x = Ok tt) l.
Proof.
  unfold forM_. induction l as [|x l IH]; simpl; [by split|].
  rewrite Forall_cons, <- IH, bind_Ok. split; [intros ([] & ? & ?)|intros []]; eauto.
Qed.

Lemma forM_Err {A} (f : A -> result unit) l e :
  forM_ f l = Err e -> exists x, x ∈ l /\ f x = Err e.
Proof.
  unfold forM_. induction l as [|x l IH]; simpl; [done|].
  destruct (f x) as [[]|e'] eqn:E; simpl.
  - intros (y & ? & ?)%IH. exists y. by split; [right|].
  - intros [= <-]. exists x. by split; [left|].
Qed.

(** An invariant of the accumulator carried through a loop. *)
Lemma foldM_invariant {A S} (P : S -> Prop) (f : S -> A -> result S) l s s' :
  (forall s x s', x ∈ l -> P s -> f s x = Ok s' -> P s') ->
  P s -> foldM f s l = Ok s' -> P s'.
Proof.
  revert s. induction l as [|x l IH]; simpl; intros s Hstep Hs H; monad_inv; [done|].
  eapply IH; [|eapply Hstep; [by left|done..]|done].
  intros ???? ??. eapply Hstep; [by right|done..].
Qed.

(** An invariant that also speaks of the elements still to come. *)
Lemma foldM_suffix {A S} (P : S -> list A -> Prop) (f : S -> A -> result S) s l s' :
  (forall s x l s', P s (x :: l) -> f s x = Ok s' -> P s' l) ->
  P s l -> foldM f s l = Ok s' -> P s' [].
Proof.
  intros Hstep. revert s. induction l as [|x l IH]; simpl; intros s Hs H; monad_inv; [done|].
  eapply IH; [|done]. by eapply Hstep.
Qed.

Lemma anyM_false {A} (f : A -> result bool) l :
  anyM f l = Ok false -> forall x, x ∈ l -> f x = Ok false.
Proof.
  induction l as [|x l IH]; simpl; intros H y Hy; [by inversion Hy|].
  apply bind_Ok in H as ([] & Hb & H); [done|].
  apply elem_of_cons in Hy as [->|Hy]; [done|by apply IH].
Qed.

Lemma foldM_suffix_in {A S} (P : S -> list A -> Prop) (f : S -> A -> result S) s l s' :
  (forall s x l' s', x ∈ l -> P s (x :: l') -> f s x = Ok s' -> P s' l') ->
  P s l -> foldM f s l = Ok s' -> P s' [].
Proof.
  intros Hstep Hs H.
  apply (foldM_suffix (fun s l' => P s l' /\ forall x, x ∈ l' -> x ∈ l) f s l s') in H; [by destruct H| |done].
  intros s1 x l' s2 [Hp Hin] Hf. split.
  - eapply Hstep; [|exact Hp|exact Hf]. apply Hin. by left.
  - intros y Hy. apply Hin. by right.
Qed.

Lemma foldM_equiv {A S} (R : S -> S -> Prop) (f : S -> A -> result S) l s1 s2 s1' :
  (forall s1 s2 x s1', R s1 s2 -> f s1 x = Ok s1' -> exists s2', f s2 x = Ok s2' /\ R s1' s2') ->
  R s1 s2 -> foldM f s1 l = Ok s1' -> exists s2', foldM f s2 l = Ok s2' /\ R s1' s2'.
Proof.
  intros Hf. revert s1 s2. induction l as [|x l IH]; intros s1 s2 HR H; simpl in *.
  - apply Ok_inj in H as ->. by exists s2.
  - apply bind_Ok in H as (s1x & Hx & H). destruct (Hf _ _ _ _ HR Hx) as (s2x & -> & HRx).
    cbn [bind]. by eapply IH.
Qed.

Lemma foldM_suffix_progress {A S} (P : S -> list A -> Prop) (f : S -> A -> result S) s l :
  (forall s x l, P s (x :: l) -> exists s', f s x = Ok s' /\ P s' l) ->
  P s l -> exists s', foldM f s l = Ok s' /\ P s' [].
Proof.
  intros Hstep. revert s. induction l as [|x l IH]; simpl; intros s Hs; [eauto|].
  destruct (Hstep s x l Hs) as (s1 & -> & Hs1). simpl. by apply IH.
Qed.

(** A loop whose body never raises under an invariant never raises. *)
Lemma foldM_progress {A S} (P : S -> Prop) (f : S -> A -> result S) l s :
  (forall s x, x ∈ l -> P s -> exists s', f s x = Ok s' /\ P s') ->
  P s -> exists s', foldM f s l = Ok s' /\ P s'.
Proof.
  revert s. induction l as [|x l IH]; simpl; intros s Hstep Hs; [eauto|].
  destruct (Hstep s x) as (s1 & -> & Hs1); [by left|done|]. simpl.
  apply IH; [|done]. intros ????. apply Hstep; [by right|done].
Qed.

Lemma mapM_Ok_Forall2 {A B} (f : A -> result B) l l' :
  mapM f l = Ok l' <-> Forall2 (fun x y => f x = Ok y) l l'.
Proof.
  revert l'. induction l as [|x l IH]; simpl; intros l'.
  - split; [by intros [= <-]|by inversion 1].
  - rewrite bind_Ok. split.
    + intros (y & Hy & H). apply bind_Ok in H as (ys & Hys & [= <-]).
      constructor; [done|by apply IH].
    + inversion 1 as [|? y ? ys Hy Hys]; subst. exists y; split; [done|].
      apply bind_Ok. exists ys. by rewrite IH.
Qed.

(** ** Record update: Python's [dataclasses.replace]

    [x <| f := v |>] is the copy of [x] with field [f] set to [v].  A record
    type provides an eta-expanded copy of itself ([Settable]); the setter of
    each projection is computed from it. *)

Class Settable (R : Type) := eta_copy : R -> R.
Class Setter {R E : Type} (proj : R -> E) := set_field : (E -> E) -> R -> R.

Ltac build_setter :=
  match goal with
  | |- @Setter ?R ?E ?proj =>
    let i := constr:(_ : Settable R) in
    let h := eval hnf in i in
    let f := fresh "f" in let r := fresh "r" in
    intros f r;
    let b := eval cbv beta in (h r) in
    match b with
    | context C [proj r] => let b' := context C [f (proj r)] in exact b'
    end
  end.
#[export] Hint Extern 1 (Setter _) => build_setter : typeclass_instances.

Notation "x <| proj := v |>" := (set_field (proj := proj) (fun _ => v) x)
  (at level 1, left associativity, proj constr at level 11,
   format "x  <|  proj  :=  v  |>").

(** ** Python's total order on keys, [sorted] and [min]

    [PyOrd] is the [<=] that [sorted], [min] and tuple comparison use; its laws
    are what makes a sort by a unique key independent of the input order. *)

Class PyOrd (K : Type) := py_le : K -> K -> bool.

Class PyOrdLaws (K : Type) `{PyOrd K} := {
  py_le_refl : forall x : K, py_le x x = true;
  py_le_trans : forall x y z : K, py_le x y = true -> py_le y z = true -> py_le x z = true;
  py_le_antisym : forall x y : K, py_le x y = true -> py_le y x = true -> x = y;
  py_le_total : forall x y : K, py_le x y = true \/ py_le y x = true;
}.

#[export] Instance py_ord_Z : PyOrd Z := Z.leb.
#[export] Instance py_ord_Z_laws : PyOrdLaws Z.
Proof. split; unfold py_le, py_ord_Z; intros; rewrite ?Z.leb_le in *; lia. Qed.

(** Strings compare by code point. *)
#[export] Instance py_ord_string : PyOrd string := String.leb.
#[export] Instance py_ord_string_laws : PyOrdLaws string.
Proof.
  split; unfold py_le, py_ord_string.
  - intros x. apply Is_true_true. apply (reflexivity (R := String.le)).
  - intros x y z ?%Is_true_true ?%Is_true_true. apply Is_true_true.
    by apply (transitivity (R := String.le) (y := y)).
  - apply String.leb_antisym.
  - apply String.leb_total.
Qed.

(** Tuples compare lexicographically. *)
#[export] Instance py_ord_prod {A B} `{PyOrd A, PyOrd B} : PyOrd (A * B) :=
  fun p q => py_le p.1 q.1 && (negb (py_le q.1 p.1) || py_le p.2 q.2).
Lemma py_le_pair {A B} `{PyOrd A, PyOrd B} (x1 y1 : A) (x2 y2 : B) :
  py_le (x1, x2) (y1, y2) = true <->
  py_le x1 y1 = true /\ (py_le y1 x1 = false \/ py_le x2 y2 = true).
Proof.
  unfold py_le at 1, py_ord_prod; simpl.
  by rewrite andb_true_iff, orb_true_iff, negb_true_iff.
Qed.

#[export] Instance py_ord_prod_laws {A B} `{PyOrdLaws A, PyOrdLaws B} : PyOrdLaws (A * B).
Proof.
  split.
  - intros [x1 x2]. apply py_le_pair. split; [|right]; apply py_le_refl.
  - intros [x1 x2] [y1 y2] [z1 z2]. rewrite !py_le_pair.
    intros [Hxy Hxy'] [Hyz Hyz']. split; [by eapply py_le_trans|].
    destruct (py_le z1 x1) eqn:Hzx; [right|by left].
    assert (py_le y1 x1 = true) as Hyx by (by eapply py_le_trans).
    assert (py_le z1 y1 = true) as Hzy by (by eapply py_le_trans).
    destruct Hxy' as [|Hxy'], Hyz' as [|Hyz']; try congruence.
    by eapply py_le_trans.
  - intros [x1 x2] [y1 y2]. rewrite !py_le_pair. intros [Hxy Hxy'] [Hyx Hyx'].
    destruct Hxy' as [|Hxy'], Hyx' as [|Hyx']; try congruence.
    f_equal; by apply py_le_antisym.
  - intros [x1 x2] [y1 y2]. rewrite !py_le_pair.
    destruct (py_le x1 y1) eqn:H1', (py_le y1 x1) eqn:H2';
      destruct (py_le_total x2 y2), (py_le_total x1 y1); try congruence; auto.
Qed.

Fixpoint py_le_list {A} `{PyOrd A} (l1 l2 : list A) : bool :=
  match l1, l2 with
  | [], _ => true
  | _ :: _, [] => false
  | a :: l1, b :: l2 => py_le a b && (negb (py_le b a) || py_le_list l1 l2)
  end.
#[export] Instance py_ord_list {A} `{PyOrd A} : PyOrd (list A) := py_le_list.
#[export] Instance py_ord_list_laws {A} `{PyOrdLaws A} : PyOrdLaws (list A).
Proof.
  split; change (@py_le (list A) _) with (@py_le_list A _).
  - intros x. induction x as [|a x IH]; simpl; [done|]. by rewrite py_le_refl, IH, orb_true_r.
  - intros x. induction x as [|a x IH]; intros [|b y] [|c z]; simpl; try done.
    rewrite !andb_true_iff, !orb_true_iff, !negb_true_iff. intros [Hab H1] [Hbc H2].
    split; [by eapply py_le_trans|]. destruct (py_le c a) eqn:Hca; [right|by left].
    assert (py_le b a = true) as Hba by (by eapply py_le_trans).
    assert (py_le c b = true) as Hcb by (by eapply py_le_trans).
    destruct H1 as [|H1], H2 as [|H2]; try congruence. by eapply IH.
  - intros x. induction x as [|a x IH]; intros [|b y]; simpl; try done.
    rewrite !andb_true_iff, !orb_true_iff, !negb_true_iff. intros [Hab H1] [Hba H2].
    destruct H1 as [|H1], H2 as [|H2]; try congruence. f_equal; [by apply py_le_antisym|by apply IH].
  - intros x. induction x as [|a x IH]; intros [|b y]; simpl; auto.
    rewrite !andb_true_iff, !orb_true_iff, !negb_true_iff.
    destruct (py_le a b) eqn:H1', (py_le b a) eqn:H2';
      destruct (IH y), (py_le_total a b); try congruence; auto.
Qed.

Section sorting.
Context {A K : Type} `{PyOrdLaws K} (key : A -> K).

Definition key_le (x y : A) : Prop := Is_true (py_le (key x) (key y)).
#[export] Instance key_le_dec x y : Decision (key_le x y) := Is_true_dec _.
#[export] Instance key_le_trans : Transitive key_le.
Proof. intros x y z. unfold key_le. rewrite !Is_true_true. apply py_le_trans. Qed.
#[export] Instance key_le_total : Total key_le.
Proof.
  intros x y. unfold key_le. rewrite !Is_true_true. apply py_le_total.
Qed.
End sorting.

(** [sorted(l, key=key)]: stable, like Python's. *)
Definition sorted_on {A K} `{PyOrd K} (key : A -> K) (l : list A) : list A :=
  merge_sort (key_le key) l.

(** [min(l, key=key)]: the first of the minimal elements; [None] for an empty [l]. *)
Fixpoint min_on_from {A K} `{PyOrd K} (key : A -> K) (best : A) (l : list A) : A :=
  match l with
  | [] => best
  | x :: l => min_on_from key (if py_le (key best) (key x) then best else x) l
  end.
Definition min_on {A K} `{PyOrd K} (key : A -> K) (l : list A) : option A :=
  match l with [] => None | x :: l => Some (min_on_from key x l) end.

Section sorted_facts.
Context {A K : Type} `{PyOrdLaws K} (key : A -> K).
Implicit Types l : list A.

Lemma sorted_on_Permutation l : sorted_on key l ≡ₚ l.
Proof. apply merge_sort_Permutation. Qed.

Lemma elem_of_sorted_on x l : x ∈ sorted_on key l <-> x ∈ l.
Proof. by rewrite sorted_on_Permutation. Qed.

Lemma sorted_on_StronglySorted l : StronglySorted (key_le key) (sorted_on key l).
Proof. apply StronglySorted_merge_sort; apply _. Qed.

Lemma length_sorted_on l : length (sorted_on key l) = length l.
Proof. by rewrite sorted_on_Permutation. Qed.

(** Sorting by a key that is unique in the list depends only on its elements. *)
Lemma sorted_on_perm l1 l2 :
  (forall x y, x ∈ l1 -> y ∈ l1 -> key x = key y -> x = y) ->
  l1 ≡ₚ l2 -> sorted_on key l1 = sorted_on key l2.
Proof.
  intros Hinj Hp. eapply (StronglySorted_unique_strong (key_le key)).
  - intros x1 x2 Hx1 Hx2. rewrite elem_of_sorted_on in Hx1.
    rewrite elem_of_sorted_on, <- Hp in Hx2. unfold key_le.
    rewrite !Is_true_true. intros. apply Hinj; [done..|]. by apply py_le_antisym.
  - apply sorted_on_StronglySorted.
  - apply sorted_on_StronglySorted.
  - by rewrite !sorted_on_Permutation.
Qed.

(** Sorting with a new element that is not below the others. *)
Lemma sorted_on_snoc l x :
  (forall y z, y ∈ l ++ [x] -> z ∈ l ++ [x] -> key y = key z -> y = z) ->
  (forall y, y ∈ l -> key_le key y x) ->
  sorted_on key (l ++ [x]) = sorted_on key l ++ [x].
Proof.
  intros Hinj Hle. eapply (StronglySorted_unique_strong (key_le key)).
  - intros x1 x2 Hx1 Hx2. rewrite elem_of_sorted_on in Hx1.
    rewrite sorted_on_Permutation in Hx2. unfold key_le.
    rewrite !Is_true_true. intros. apply Hinj; [done..|]. by apply py_le_antisym.
  - apply sorted_on_StronglySorted.
  - apply StronglySorted_app_2; [|apply sorted_on_StronglySorted|repeat constructor].
    intros x1 x2 Hx1 ->%list_elem_of_singleton. apply Hle. by rewrite elem_of_sorted_on in Hx1.
  - by rewrite !sorted_on_Permutation.
Qed.

Lemma min_on_from_spec best l :
  min_on_from key best l ∈ best :: l /\
  forall y, y ∈ best :: l -> py_le (key (min_on_from key best l)) (key y) = true.
Proof.
  revert best. induction l as [|x l IH]; simpl; intros best.
  - split; [by left|]. intros y ->%list_elem_of_singleton. apply py_le_refl.
  - destruct (py_le (key best) (key x)) eqn:E.
    + destruct (IH best) as [Hin Hle]. split; [set_solver|].
      intros y Hy. inversion Hy as [|? ? ? Hy']; subst; [apply Hle; by left|].
      inversion Hy' as [|? ? ? Hy'']; subst; [|apply Hle; by right].
      eapply py_le_trans; [apply Hle; by left|done].
    + destruct (IH x) as [Hin Hle]. split; [set_solver|].
      intros y Hy. inversion Hy as [|? ? ? Hy']; subst; [|by apply Hle].
      eapply py_le_trans; [apply Hle; by left|].
      destruct (py_le_total (key x) (key best)); congruence.
Qed.

Lemma min_on_Some l x :
  min_on key l = Some x -> x ∈ l /\ forall y, y ∈ l -> py_le (key x) (key y) = true.
Proof.
  destruct l as [|z l]; simpl; [done|]. intros [= <-]. apply min_on_from_spec.
Qed.

Lemma min_on_None l : min_on key l = None <-> l = [].
Proof. by destruct l. Qed.

Lemma min_on_perm l1 l2 :
  (forall x y, x ∈ l1 -> y ∈ l1 -> key x = key y -> x = y) ->
  l1 ≡ₚ l2 -> min_on key l1 = min_on key l2.
Proof.
  intros Hinj Hp.
  destruct (min_on key l1) as [x|] eqn:E1, (min_on key l2) as [y|] eqn:E2.
  - apply min_on_Some in E1 as [Hx Hxl], E2 as [Hy Hyl].
    rewrite <- Hp in Hy. f_equal. apply Hinj; [done..|].
    apply py_le_antisym; [by apply Hxl|]. apply Hyl. by rewrite <- Hp.
  - apply min_on_None in E2 as ->. apply Permutation_nil_r in Hp as ->. done.
  - apply min_on_None in E1 as ->. apply Permutation_nil in Hp as ->. done.
  - done.
Qed.
End sorted_facts.

(** ** Lists *)

Lemma fmap_eq_inj {A B} (f : A -> B) (l1 l2 : list A) :
  (forall x y, f x = f y -> x = y) -> f <$> l1 = f <$> l2 -> l1 = l2.
Proof.
  intros Hf. revert l2. induction l1 as [|x l1 IH]; intros [|y l2]; try done.
  rewrite !fmap_cons. intros [= Hxy Hl]. f_equal; [by apply Hf|by apply IH].
Qed.

(** Pigeonhole: a duplicate-free list inside a list that is no longer covers it. *)
Lemma submseteq_NoDup_length {A} (l1 l2 : list A) :
  NoDup l1 -> (forall x, x ∈ l1 -> x ∈ l2) -> length l2 = length l1 -> NoDup l2.
Proof.
  intros Hnd Hsub Hlen.
  assert (l1 ⊆+ l2) as Hs by (by apply NoDup_submseteq).
  apply submseteq_length_Permutation in Hs; [by rewrite <- Hs|lia].
Qed.

(** ** Lists *)

Lemma filter_nil_iff {A} (P : A -> Prop) `{forall x, Decision (P x)} l :
  filter P l = [] <-> forall x, x ∈ l -> ~ P x.
Proof.
  split.
  - intros Hf x Hx Hp. assert (x ∈ filter P l) as Hin by (by apply list_elem_of_filter).
    rewrite Hf in Hin. by apply elem_of_nil in Hin.
  - intros Hl. destruct (filter P l) as [|x l'] eqn:E; [done|].
    assert (x ∈ filter P l) as [Hp Hx]%list_elem_of_filter by (rewrite E; by left).
    by apply Hl in Hx.
Qed.

Lemma NoDup_fmap_snoc {A B} (f : A -> B) l x :
  NoDup (f <$> l) -> (forall y, y ∈ l -> f y <> f x) -> NoDup (f <$> (l ++ [x])%list).
Proof.
  intros Hl Hx. rewrite fmap_app. apply NoDup_app. split_and!; [exact Hl| |apply NoDup_singleton].
  intros k (y & -> & Hy)%list_elem_of_fmap Hk. simpl in Hk. apply list_elem_of_singleton in Hk.
  by eapply Hx.
Qed.

(** A unique key selects one element. *)
Lemma filter_unique {A} (key : A -> string) (k : string) l x :
  NoDup (key <$> l) -> x ∈ l -> key x = k -> filter (fun y => key y = k) l = [x].
Proof.
  intros Hnd Hx <-. induction l as [|y l IH]; [by inversion Hx|].
  rewrite fmap_cons, NoDup_cons in Hnd. destruct Hnd as [Hy Hnd]. rewrite filter_cons.
  apply elem_of_cons in Hx as [->|Hx].
  - rewrite decide_True by done. f_equal. apply filter_nil_iff.
    intros z Hz E. apply Hy. rewrite <- E. by apply list_elem_of_fmap_2.
  - rewrite decide_False; [by apply IH|]. intros E. apply Hy. rewrite E. by apply list_elem_of_fmap_2.
Qed.

(** Mapping a permuted list. *)
Lemma mapM_perm {A B} (f : A -> result B) l1 l2 ys :
  l1 ≡ₚ l2 -> mapM f l1 = Ok ys -> exists ys', mapM f l2 = Ok ys' /\ ys ≡ₚ ys'.
Proof.
  intros Hp. revert ys. induction Hp as [|x l1 l2 _ IH|x y l|l1 l2 l3 _ IH1 _ IH2]; intros ys H.
  - apply Ok_inj in H as <-. by exists [].
  - apply bind_Ok in H as (z & Hz & H). apply bind_Ok in H as (zs & Hzs & H).
    apply Ok_inj in H as <-. destruct (IH zs Hzs) as (zs' & Hzs' & Hp'). exists (z :: zs').
    simpl. rewrite Hz, Hzs'. split; [done|]. by constructor.
  - simpl in *. apply bind_Ok in H as (z & Hz & H). apply bind_Ok in H as (zs & Hzs & H).
    apply bind_Ok in Hzs as (w & Hw & Hzs). apply bind_Ok in Hzs as (ws & Hws & Hzs).
    apply Ok_inj in Hzs as <-. apply Ok_inj in H as <-. exists (w :: z :: ws).
    rewrite Hw. cbn [bind]. rewrite Hz. cbn [bind]. rewrite Hws. split; [done|]. constructor.
  - destruct (IH1 ys H) as (ys1 & H1 & Hp1). destruct (IH2 ys1 H1) as (ys2 & H2 & Hp2).
    exists ys2. split; [done|]. by etrans.
Qed.

(** What [mapM] gives, as a relation between elements. *)
Lemma mapM_elem {A B} (f : A -> result B) l ys y :
  mapM f l = Ok ys -> y ∈ ys <-> exists x, x ∈ l /\ f x = Ok y.
Proof.
  rewrite mapM_Ok_Forall2. induction 1 as [|x z l zs Hx _ IH].
  - split; [by intros ?%elem_of_nil|by intros (? & ?%elem_of_nil & _)].
  - rewrite elem_of_cons, IH. split.
    + intros [->|(x' & ? & ?)]; [exists x|exists x']; split; try done; [by left|by right].
    + intros (x' & [->|Hin]%elem_of_cons & Hx'); [left; congruence|right; eauto].
Qed.

Lemma mapM_total_elem {A B} (f : A -> result B) l ys x :
  mapM f l = Ok ys -> x ∈ l -> exists y, f x = Ok y /\ y ∈ ys.
Proof.
  rewrite mapM_Ok_Forall2. induction 1 as [|x' y l ys Hy _ IH]; [by intros ?%elem_of_nil|].
  intros [->|Hx]%elem_of_cons; [exists y; split; [done|by left]|].
  destruct (IH Hx) as (y' & ? & ?). exists y'. split; [done|by right].
Qed.
Lemma no_member {A} (l : list A) x : l = [] -> ~ x ∈ l.
Proof. intros ->. apply not_elem_of_nil. Qed.
Lemma bind_nil {A B} (f : A -> list B) l : l ≫= f = [] <-> forall x, x ∈ l -> f x = [].
Proof.
  induction l as [|x l IH].
  - split; [by intros _ x ?%not_elem_of_nil|done].
  - rewrite bind_cons, app_nil, IH. setoid_rewrite elem_of_cons. naive_solver.
Qed.
Lemma mapM_total {A B} (f : A -> result B) l :
  (forall x, x ∈ l -> exists y, f x = Ok y) -> exists ys, mapM f l = Ok ys.
Proof.
  induction l as [|x l IH]; intros H; [by exists []|]. destruct (H x) as [y Hy]; [by left|].
  destruct IH as [ys Hys]; [intros; apply H; by right|]. exists (y :: ys). simpl. by rewrite Hy, Hys.
Qed.

Lemma mapM_fails {A B} (f : A -> result B) l x e :
  x ∈ l -> f x = Err e -> exists e', mapM f l = Err e'.
Proof.
  intros Hx Hf. destruct (mapM f l) as [ys|e'] eqn:E; [|by exists e']. exfalso.
  apply mapM_Ok_Forall2 in E. apply list_elem_of_lookup in Hx as [i Hi].
  destruct (Forall2_lookup_l _ _ _ _ _ E Hi) as (y & _ & Hy). by rewrite Hf in Hy.
Qed.

(** ** Groups in the order of their first members

    [for x in l: groups.setdefault(key(x), []).append(x)] *)

Fixpoint group_add {K A} `{EqDecision K} (k : K) (x : A) (groups : list (K * list A)) : list (K * list A) :=
  match groups with
  | [] => [(k, [x])]
  | (k', xs) :: groups => if decide (k' = k) then (k', (xs ++ [x])%list) :: groups else (k', xs) :: group_add k x groups
  end.
Definition group_by {K A} `{EqDecision K} (key : A -> K) (l : list A) : list (K * list A) :=
  foldl (fun groups x => group_add (key x) x groups) [] l.

Lemma group_add_keys {K A} `{EqDecision K} (k : K) (x : A) groups :
  (group_add k x groups).*1 = if decide (k ∈ groups.*1) then groups.*1 else (groups.*1 ++ [k])%list.
Proof.
  induction groups as [|[k' xs] groups IH]; [by rewrite decide_False by apply not_elem_of_nil|]. cbn [group_add].
  rewrite (fmap_cons fst). destruct (decide (k' = k)) as [->|Hne].
  - by rewrite decide_True by by left.
  - rewrite fmap_cons, IH. cbn [fst]. destruct (decide (k ∈ groups.*1)).
    + by rewrite decide_True by by right.
    + rewrite decide_False; [done|]. intros [?|?]%elem_of_cons; congruence.
Qed.

Lemma elem_of_group_add {K A} `{EqDecision K} (k : K) (x : A) groups k' xs :
  NoDup groups.*1 ->
  (k', xs) ∈ group_add k x groups <->
  (k' <> k /\ (k', xs) ∈ groups) \/
  (k' = k /\ ((exists ys, (k, ys) ∈ groups /\ xs = (ys ++ [x])%list) \/ (~ (k ∈ groups.*1) /\ xs = [x]))).
Proof.
  induction groups as [|[k2 ys] groups IH]; intros Hnd.
  - simpl. rewrite list_elem_of_singleton. split; [intros [= -> ->]; right; split; [done|]; right; split; [by apply not_elem_of_nil|done]|].
    intros [[_ ?%elem_of_nil]|(-> & [(? & ?%elem_of_nil & _)|[_ ->]])]; done.
  - apply NoDup_cons in Hnd as [Hk Hnd]. simpl. destruct (decide (k2 = k)) as [->|Hne].
    + rewrite elem_of_cons. split.
      * intros [[= -> ->]|Hin]; [right; split; [done|]; left; exists ys; split; [by left|done]|].
        left. split; [intros ->; apply Hk; by apply (list_elem_of_fmap_2 fst) in Hin|by right].
      * intros [[Hne [[= -> ->]|Hin]%elem_of_cons]|(-> & [(zs & [[= ->]|Hin]%elem_of_cons & ->)|[Hn _]])]; [done|by right|by left| |].
        -- exfalso. apply Hk. by apply (list_elem_of_fmap_2 fst) in Hin.
        -- exfalso. apply Hn. by left.
    + rewrite elem_of_cons, (IH Hnd). simpl. setoid_rewrite elem_of_cons. split.
      * intros [[= -> ->]|[[? ?]|(-> & [(zs & ? & ->)|[? ->]])]].
        -- left. split; [done|by left].
        -- left. split; [done|by right].
        -- right. split; [done|]. left. exists zs. split; [by right|done].
        -- right. split; [done|]. right. split; [intros [->|?]; done|done].
      * intros [[? [[= -> ->]|?]]|(-> & [(zs & [[= ->]|?] & ->)|[Hn ->]])]; [by left| |done| |].
        -- right. left. by split.
        -- right. right. split; [done|]. left. by exists zs.
        -- right. right. split; [done|]. right. split; [|done]. intros ?. apply Hn. by right.
Qed.

Lemma group_by_snoc {K A} `{EqDecision K} (key : A -> K) l x :
  group_by key (l ++ [x]) = group_add (key x) x (group_by key l).
Proof. unfold group_by. by rewrite foldl_snoc. Qed.

Lemma group_by_spec {K A} `{EqDecision K} (key : A -> K) (l : list A) :
  NoDup (group_by key l).*1 /\
  (forall k xs, (k, xs) ∈ group_by key l <-> xs <> [] /\ xs = filter (fun x => key x = k) l).
Proof.
  induction l as [|x l [Hnd IH]] using rev_ind.
  - split; [constructor|]. intros k xs. split; [by intros ?%elem_of_nil|]. intros [? ->]. done.
  - rewrite group_by_snoc. split.
    + rewrite group_add_keys. case_decide; [done|]. apply NoDup_app. split_and!; [done| |by apply NoDup_singleton].
      intros k Hk ->%list_elem_of_singleton. done.
    + intros k xs. rewrite elem_of_group_add by done. rewrite filter_app, filter_cons, filter_nil.
      assert (forall k', k' ∈ (group_by key l).*1 <-> filter (fun x => key x = k') l <> []) as Hkeys.
      { intros k'. rewrite list_elem_of_fmap. split.
        - intros ([k2 ys] & -> & [Hne ->]%IH). done.
        - intros Hne. exists (k', filter (fun x => key x = k') l). split; [done|]. by apply IH. }
      destruct (decide (key x = k)) as [<-|Hne].
      * split.
        -- intros [[? _]|(_ & [(ys & [_ ->]%IH & ->)|[Hn ->]])]; [done|split; [by destruct (filter _ l)|done]|].
           split; [done|]. destruct (filter (fun y => key y = key x) l) eqn:E; [done|]. exfalso. apply Hn, Hkeys. by rewrite E.
        -- intros [_ ->]. right. split; [done|]. destruct (filter (fun y => key y = key x) l) eqn:E.
           ++ right. split; [|done]. rewrite Hkeys, E. by intros [].
           ++ left. eexists. split; [apply IH; split; [|by symmetry]|]; done.
      * rewrite app_nil_r, IH. naive_solver.
Qed.

(** ** Sorting related lists

    Lists that are related element by element, with the same keys, are sorted
    to related lists. *)

Section sorted_related.
Context {A B K : Type} `{PyOrd K} (kA : A -> K) (kB : B -> K) (R : A -> B -> Prop).
Context (Hkey : forall x y, R x y -> kA x = kB y).

Lemma list_merge_related l1 m1 l2 m2 :
  Forall2 R l1 m1 -> Forall2 R l2 m2 ->
  Forall2 R (list_merge (key_le kA) l1 l2) (list_merge (key_le kB) m1 m2).
Proof.
  intros H1. revert l2 m2. induction H1 as [|x y l1 m1 Hxy H1 IH1]; intros l2 m2 H2.
  { by rewrite !list_merge_nil_l. }
  induction H2 as [|x2 y2 l2 m2 Hxy2 H2 IH2]; [rewrite !list_merge_nil_r; by constructor|].
  rewrite !list_merge_cons. pose proof (Hkey _ _ Hxy) as E1. pose proof (Hkey _ _ Hxy2) as E2.
  destruct (decide (key_le kA x x2)) as [Hd|Hd]; unfold key_le in Hd; rewrite E1, E2 in Hd.
  - rewrite decide_True by done. constructor; [done|]. apply IH1. by constructor.
  - rewrite decide_False by done. by constructor.
Qed.

Lemma sorted_on_related l m : Forall2 R l m -> Forall2 R (sorted_on kA l) (sorted_on kB m).
Proof.
  unfold sorted_on, merge_sort.
  assert (forall st st', Forall2 (option_Forall2 (Forall2 R)) st st' ->
    Forall2 R (merge_stack (key_le kA) st) (merge_stack (key_le kB) st')) as Hstack.
  { induction 1 as [|o o' st st' [l1 m1 H1|] _ IH]; simpl; [constructor|by apply list_merge_related|done]. }
  assert (forall st st' l1 m1, Forall2 (option_Forall2 (Forall2 R)) st st' -> Forall2 R l1 m1 ->
    Forall2 (option_Forall2 (Forall2 R)) (merge_list_to_stack (key_le kA) st l1)
      (merge_list_to_stack (key_le kB) st' m1)) as Hpush.
  { intros st st' l1 m1 Hst. revert l1 m1. induction Hst as [|o o' st st' [l2 m2 H2|] Hst IH]; simpl; intros l1 m1 H1.
    - repeat constructor. done.
    - constructor; [constructor|]. apply IH. by apply list_merge_related.
    - constructor; [by constructor|done]. }
  intros Hl. enough (forall st st', Forall2 (option_Forall2 (Forall2 R)) st st' ->
    Forall2 R (merge_sort_aux (key_le kA) st l) (merge_sort_aux (key_le kB) st' m)) as H' by (apply H'; constructor).
  induction Hl as [|x y l m Hxy Hl IH]; simpl; intros st st' Hst; [by apply Hstack|].
  apply IH, Hpush; [done|]. by repeat constructor.
Qed.
End sorted_related.

(** Sorting commutes with a map that keeps the keys. *)
Lemma sorted_on_fmap {A B K} `{PyOrd K} (f : A -> B) (kA : A -> K) (kB : B -> K) l :
  (forall x, kB (f x) = kA x) -> sorted_on kB (f <$> l) = f <$> sorted_on kA l.
Proof.
  intros Hk. assert (Forall2 (fun x y => y = f x) (sorted_on kA l) (sorted_on kB (f <$> l))) as Hs.
  { apply sorted_on_related; [by intros x y ->|]. apply Forall2_fmap_r. by apply Forall_Forall2_diag, Forall_true. }
  induction Hs as [|x y l1 l2 -> _ IH]; [done|]. rewrite fmap_cons. by f_equal.
Qed.

(** A sorted list is left alone. *)
Lemma sorted_on_sorted {A K} `{PyOrdLaws K} (key : A -> K) l :
  (forall x y, x ∈ l -> y ∈ l -> key x = key y -> x = y) ->
  StronglySorted (key_le key) l -> sorted_on key l = l.
Proof.
  intros Hinj Hs. eapply (StronglySorted_unique_strong (key_le key)).
  - intros x1 x2 Hx1 Hx2. rewrite elem_of_sorted_on in Hx1. unfold key_le. rewrite !Is_true_true.
    intros. apply Hinj; [done..|]. by apply py_le_antisym.
  - apply sorted_on_StronglySorted.
  - done.
  - apply sorted_on_Permutation.
Qed.

(** [enumerate(l)] *)
Lemma elem_of_indexed {A} (l : list A) i x : (i, x) ∈ zip (seq 0 (length l)) l <-> l !! i = Some x.
Proof.
  rewrite list_elem_of_lookup. setoid_rewrite lookup_zip_with_Some. split.
  - intros (j & k & y & [= <- <-] & Hk & Hy). apply lookup_seq in Hk as [-> _]. done.
  - intros Hx. exists i, i, x. split_and!; [done| |done]. apply lookup_seq. split; [done|].
    by apply lookup_lt_Some in Hx.
Qed.

(** ** Exceptions

    [errs P r]: an exception of [r] satisfies [P]. *)

Definition errs {A} (P : exn -> Prop) (r : result A) : Prop := forall e, r = Err e -> P e.

Section errs.
Context (P : exn -> Prop).

Lemma errs_Ok {A} (a : A) : errs P (Ok a).
Proof. by intros e [=]. Qed.
Lemma errs_Err {A} e : P e -> errs P (Err (A := A) e).
Proof. by intros He e' [= <-]. Qed.
Lemma errs_bind {A B} (r : result A) (k : A -> result B) :
  errs P r -> (forall a, r = Ok a -> errs P (k a)) -> errs P (bind r k).
Proof. intros Hr Hk e H. destruct r as [a|e']; [by eapply Hk|]. apply Hr. simpl in H. congruence. Qed.
Lemma errs_raise_if b e : P e -> errs P (raise_if b e).
Proof. intros He. destruct b; [by apply errs_Err|apply errs_Ok]. Qed.
Lemma errs_raise_first l : Forall (fun ce => P ce.2) l -> errs P (raise_first l).
Proof. induction 1 as [|[[] e] l He _ IH]; [apply errs_Ok|by apply errs_Err|done]. Qed.
Lemma errs_foldM {A S} (f : S -> A -> result S) s l :
  (forall s x, x ∈ l -> errs P (f s x)) -> errs P (foldM f s l).
Proof.
  revert s. induction l as [|x l IH]; intros s H; [apply errs_Ok|]. apply errs_bind; [apply H; by left|].
  intros s' _. apply IH. intros ???. apply H. by right.
Qed.
Lemma errs_forM {A} (f : A -> result unit) l : (forall x, x ∈ l -> errs P (f x)) -> errs P (forM_ f l).
Proof. intros H. apply errs_foldM. intros _ x. apply H. Qed.
Lemma errs_mapM {A B} (f : A -> result B) l : (forall x, x ∈ l -> errs P (f x)) -> errs P (mapM f l).
Proof.
  induction l as [|x l IH]; intros H; [apply errs_Ok|]. apply errs_bind; [apply H; by left|]. intros y _.
  apply errs_bind; [apply IH; intros ??; apply H; by right|]. intros ys _. apply errs_Ok.
Qed.
Lemma errs_anyM {A} (f : A -> result bool) l : (forall x, x ∈ l -> errs P (f x)) -> errs P (anyM f l).
Proof.
  induction l as [|x l IH]; intros H; [apply errs_Ok|]. apply errs_bind; [apply H; by left|]. intros [] _; [apply errs_Ok|].
  apply IH. intros ??. apply H. by right.
Qed.
Lemma errs_if {A} (b : bool) (r s : result A) : errs P r -> errs P s -> errs P (if b then r else s).
Proof. by destruct b. Qed.
Lemma errs_andM b r : errs P r -> errs P (andM b r).
Proof. intros H. destruct b; [done|apply errs_Ok]. Qed.
End errs.
Create HintDb errs.
#[export] Hint Resolve errs_Ok errs_Err errs_raise_if errs_if errs_andM : errs.

(** One step through a computation whose exceptions are known. *)
Ltac errs_step :=
  match goal with
  | |- errs _ (bind _ _) => apply errs_bind; [|intros ? ?]
  | |- errs _ (forM_ _ _) => apply errs_forM; intros ? ?
  | |- errs _ (foldM _ _ _) => apply errs_foldM; intros ? ? ?
  | |- errs _ (mapM _ _) => apply errs_mapM; intros ? ?
  | |- errs _ (anyM _ _) => apply errs_anyM; intros ? ?
  | |- errs _ (raise_first _) => apply errs_raise_first; repeat constructor
  | |- errs _ (raise_if _ _) => apply errs_raise_if
  | |- errs _ (andM _ _) => apply errs_andM
  | |- errs _ (Ok _) => apply errs_Ok
  | |- errs _ (Err _) => apply errs_Err
  | |- errs _ (let '(_, _) := ?p in _) => destruct p
  | |- errs _ (if ?b then _ else _) => apply errs_if
  | |- errs _ (match ?x with _ => _ end) => destruct x
  end.
