(* ===== verification/PyDict.v ===== *)
(** * Insertion-ordered dictionaries

    Python's [dict] with string keys: an association list whose keys are
    unique and stay in insertion order.  Assigning to a key that is present
    keeps its position; a new key goes last. *)
From S2P Require Import Prelude.

(** ** The underlying association lists *)

Section assoc.
Context {V : Type}.
Implicit Types (l : list (string * V)) (k : string) (v : V).

Fixpoint assoc_get k l : option V :=
  match l with
  | [] => None
  | (k', v) :: l => if decide (k' = k) then Some v else assoc_get k l
  end.

Fixpoint assoc_set k v l : list (string * V) :=
  match l with
  | [] => [(k, v)]
  | (k', v') :: l => if decide (k' = k) then (k', v) :: l else (k', v') :: assoc_set k v l
  end.

(** [dict(pairs)]: a repeated key keeps its first position and its last value. *)
Definition assoc_of_pairs l : list (string * V) :=
  fold_left (fun acc kv => assoc_set kv.1 kv.2 acc) l [].

Lemma assoc_get_cons k k' v l :
  assoc_get k ((k', v) :: l) = if String.eqb k' k then Some v else assoc_get k l.
Proof. simpl. destruct (String.eqb_spec k' k); by case_decide. Qed.

Lemma assoc_get_set k v l k' :
  assoc_get k' (assoc_set k v l) = if decide (k = k') then Some v else assoc_get k' l.
Proof.
  induction l as [|[k0 v0] l IH]; simpl; [done|].
  repeat (case_decide; simplify_eq/=); try done; by rewrite IH, decide_False.
Qed.

Lemma assoc_set_keys k v l :
  (assoc_set k v l).*1 = if decide (k ∈ l.*1) then l.*1 else l.*1 ++ [k].
Proof.
  induction l as [|[k0 v0] l IH]; [done|].
  simpl assoc_set. rewrite fmap_cons. simpl fst.
  destruct (decide (k0 = k)) as [->|Hne]; rewrite fmap_cons; simpl fst.
  { by rewrite decide_True by left. }
  rewrite IH. destruct (decide (k ∈ l.*1)).
  - by rewrite decide_True by (by right).
  - rewrite decide_False; [done|]. by intros [|]%elem_of_cons.
Qed.

Lemma assoc_set_NoDup k v l : NoDup l.*1 -> NoDup (assoc_set k v l).*1.
Proof.
  rewrite assoc_set_keys. case_decide; [done|]. intros.
  apply NoDup_app. split_and!; [done|set_solver|apply NoDup_singleton].
Qed.

Lemma assoc_get_None k l : assoc_get k l = None <-> k ∉ l.*1.
Proof.
  induction l as [|[k0 v0] l IH]; simpl; [set_solver|].
  case_decide; simplify_eq/=; [set_solver|]. rewrite IH. set_solver.
Qed.

Lemma assoc_get_elem k v l : NoDup l.*1 -> assoc_get k l = Some v <-> (k, v) ∈ l.
Proof.
  induction l as [|[k0 v0] l IH]; simpl; [set_solver|].
  intros [Hk Hl]%NoDup_cons. rewrite elem_of_cons.
  case_decide as Hd; simplify_eq/=.
  - split; [intros [= ->]; by left|]. intros [[= ->]|Hin]; [done|].
    destruct Hk. apply list_elem_of_fmap. by exists (k, v).
  - rewrite IH by done. naive_solver.
Qed.

Lemma assoc_set_app k v l : k ∉ l.*1 -> assoc_set k v l = l ++ [(k, v)].
Proof.
  induction l as [|[k0 v0] l IH]; simpl; [done|]. intros Hk.
  rewrite decide_False by set_solver. rewrite IH; [done|set_solver].
Qed.

Lemma assoc_of_pairs_acc l acc :
  NoDup (acc ++ l).*1 -> fold_left (fun acc kv => assoc_set kv.1 kv.2 acc) l acc = acc ++ l.
Proof.
  revert acc. induction l as [|[k v] l IH]; simpl; intros acc Hnd.
  { by rewrite app_nil_r. }
  rewrite assoc_set_app.
  - rewrite IH; by rewrite <- app_assoc.
  - rewrite fmap_app in Hnd. apply NoDup_app in Hnd as (_ & Hd & _).
    intros Hin. apply (Hd k Hin). set_solver.
Qed.

Lemma assoc_of_pairs_id l : NoDup l.*1 -> assoc_of_pairs l = l.
Proof. intros. by apply (assoc_of_pairs_acc l []). Qed.

Lemma assoc_of_pairs_NoDup l : NoDup (assoc_of_pairs l).*1.
Proof.
  unfold assoc_of_pairs.
  enough (forall acc, NoDup acc.*1 ->
    NoDup (fold_left (fun acc kv => assoc_set kv.1 kv.2 acc) l acc).*1) as Hall
    by (apply Hall; constructor).
  induction l as [|kv l IH]; simpl; intros acc Hacc; [done|].
  by apply IH, assoc_set_NoDup.
Qed.
End assoc.

(** ** Dictionaries *)

Record dict (V : Type) := Dict { dict_items : list (string * V) }.
Arguments Dict {V} _.
Arguments dict_items {V} _.

Definition dict_wf {V} (d : dict V) : Prop := NoDup (dict_items d).*1.
Definition dict_values {V} (d : dict V) : list V := (dict_items d).*2.
Definition dict_keys {V} (d : dict V) : list string := (dict_items d).*1.
Definition dict_of_pairs {V} (l : list (string * V)) : dict V := Dict (assoc_of_pairs l).

#[export] Instance dict_lookup {V} : Lookup string V (dict V) :=
  fun k d => assoc_get k (dict_items d).
#[export] Instance dict_insert {V} : Insert string V (dict V) :=
  fun k v d => Dict (assoc_set k v (dict_items d)).
#[export] Instance dict_empty {V} : Empty (dict V) := Dict [].

(** [d[k]], which raises [KeyError] when [k] is absent. *)
Definition dict_getitem {V} (d : dict V) (k : string) : result V :=
  match d !! k with Some v => Ok v | None => Err (Exn KeyError k) end.

(** [{key(x): x for x in l}] *)
Definition dict_by {V} (key : V -> string) (l : list V) : dict V :=
  dict_of_pairs ((fun x => (key x, x)) <$> l).

Lemma dict_getitem_Ok {V} (d : dict V) k v : dict_getitem d k = Ok v <-> d !! k = Some v.
Proof. unfold dict_getitem. destruct (d !! k); naive_solver. Qed.

Section dict_facts.
Context {V : Type}.
Implicit Types (d : dict V) (k : string) (v : V).

Lemma dict_lookup_insert k v d k' :
  (<[k:=v]> d : dict V) !! k' = if decide (k = k') then Some v else d !! k'.
Proof. apply assoc_get_set. Qed.

Lemma dict_insert_wf k v d : dict_wf d -> dict_wf (<[k:=v]> d).
Proof. apply assoc_set_NoDup. Qed.

Lemma dict_of_pairs_wf (l : list (string * V)) : dict_wf (dict_of_pairs l).
Proof. apply assoc_of_pairs_NoDup. Qed.

Lemma dict_of_pairs_elem (l : list (string * V)) k v :
  (dict_of_pairs l : dict V) !! k = Some v -> (k, v) ∈ l.
Proof.
  unfold dict_of_pairs, assoc_of_pairs, lookup, dict_lookup. simpl.
  enough (forall acc, assoc_get k (fold_left (fun acc kv => assoc_set kv.1 kv.2 acc) l acc) = Some v ->
    (k, v) ∈ l \/ assoc_get k acc = Some v) as H by (by intros [|]%H).
  induction l as [|[k' v'] l IH]; simpl; intros acc; [by right|].
  intros [|Hacc]%IH; [left; by right|]. rewrite assoc_get_set in Hacc.
  case_decide; simplify_eq; [left; by left|by right].
Qed.

Lemma dict_of_pairs_total (l : list (string * V)) k :
  k ∈ l.*1 -> exists v, (dict_of_pairs l : dict V) !! k = Some v.
Proof.
  intros Hk. destruct ((dict_of_pairs l : dict V) !! k) as [v|] eqn:E; [eauto|].
  apply assoc_get_None in E. destruct E. unfold dict_of_pairs, assoc_of_pairs. simpl.
  assert (forall acc, k ∈ l.*1 \/ k ∈ acc.*1 ->
    k ∈ (fold_left (fun acc kv => assoc_set kv.1 kv.2 acc) l acc).*1) as H; [|by apply H; left].
  clear Hk. induction l as [|kv l IH]; simpl; intros acc [Hk|Hk]; [by apply not_elem_of_nil in Hk|done| |];
    apply IH; rewrite assoc_set_keys; [|by right; case_decide; [|apply elem_of_app; left]].
  apply elem_of_cons in Hk as [->|?]; [right|by left]. case_decide; [done|]. apply elem_of_app. right. by left.
Qed.

Lemma elem_of_dict_values d v : dict_wf d -> v ∈ dict_values d <-> exists k, d !! k = Some v.
Proof.
  intros Hwf. unfold dict_values, lookup, dict_lookup. rewrite list_elem_of_fmap. split.
  - intros ([k v'] & -> & Hin). exists k. by apply assoc_get_elem.
  - intros [k Hk]. apply assoc_get_elem in Hk; [|done]. by exists (k, v).
Qed.

Lemma dict_insert_keys k v d :
  is_Some (d !! k) -> dict_keys (<[k:=v]> d : dict V) = dict_keys d.
Proof.
  intros Hs. unfold dict_keys. simpl. rewrite assoc_set_keys, decide_True; [done|].
  destruct (decide (k ∈ (dict_items d).*1)) as [|Hn]; [done|].
  apply assoc_get_None in Hn. unfold lookup, dict_lookup in Hs.
  rewrite Hn in Hs. by destruct Hs.
Qed.

Lemma elem_of_dict_keys d k : k ∈ dict_keys d <-> is_Some (d !! k).
Proof.
  unfold dict_keys, lookup, dict_lookup.
  destruct (assoc_get k (dict_items d)) eqn:E.
  - split; [by eauto|]. intros _.
    destruct (decide (k ∈ (dict_items d).*1)) as [|Hn]; [done|].
    apply assoc_get_None in Hn. congruence.
  - apply assoc_get_None in E. split; [done|]. by intros [? [=]].
Qed.

(** Two dictionaries with the same lookups hold the same values. *)
Lemma dict_values_perm d1 d2 :
  dict_wf d1 -> dict_wf d2 -> (forall k, d1 !! k = d2 !! k) ->
  dict_items d1 ≡ₚ dict_items d2.
Proof.
  intros Hwf1 Hwf2 Heq. apply NoDup_Permutation.
  - by eapply NoDup_fmap_1.
  - by eapply NoDup_fmap_1.
  - intros [k v]. rewrite <- !assoc_get_elem by done.
    specialize (Heq k). unfold lookup, dict_lookup in Heq. by rewrite Heq.
Qed.
End dict_facts.

(** Dictionaries that index records by one of their own fields. *)
Section dict_by.
Context {V : Type} (key : V -> string).

Definition keyed (d : dict V) : Prop :=
  dict_wf d /\ forall k v, d !! k = Some v -> key v = k.

Lemma keyed_items d : keyed d -> dict_items d = (fun x => (key x, x)) <$> dict_values d.
Proof.
  intros [Hwf Hk]. unfold dict_values. rewrite <- list_fmap_compose.
  rewrite <- (list_fmap_id (dict_items d)) at 1.
  apply list_fmap_ext. intros i [k v] Hi. simpl. f_equal.
  symmetry. apply Hk. apply assoc_get_elem; [done|]. by eapply list_elem_of_lookup_2.
Qed.

Lemma keyed_insert d v : keyed d -> keyed (<[key v:=v]> d).
Proof.
  intros [Hwf Hk]. split; [by apply dict_insert_wf|].
  intros k v'. rewrite dict_lookup_insert. case_decide; naive_solver.
Qed.

Lemma dict_by_items l :
  NoDup (key <$> l) -> dict_items (dict_by key l) = (fun x => (key x, x)) <$> l.
Proof.
  intros Hnd. unfold dict_by, dict_of_pairs. simpl. apply assoc_of_pairs_id.
  rewrite <- list_fmap_compose. done.
Qed.

Lemma dict_by_values l : NoDup (key <$> l) -> dict_values (dict_by key l) = l.
Proof.
  intros. unfold dict_values. rewrite dict_by_items, <- list_fmap_compose by done.
  apply list_fmap_id.
Qed.

Lemma dict_by_lookup l k v :
  NoDup (key <$> l) -> dict_by key l !! k = Some v <-> v ∈ l /\ key v = k.
Proof.
  intros Hnd. unfold lookup, dict_lookup. rewrite assoc_get_elem.
  - rewrite dict_by_items by done. rewrite list_elem_of_fmap. naive_solver.
  - apply dict_of_pairs_wf.
Qed.

(** Without unique keys the values still come from the list. *)
Lemma dict_by_elem l k v : dict_by key l !! k = Some v -> v ∈ l /\ key v = k.
Proof.
  unfold dict_by, dict_of_pairs, assoc_of_pairs, lookup, dict_lookup. simpl.
  enough (forall acc, (forall k v, assoc_get k acc = Some v -> v ∈ l /\ key v = k) ->
    forall l', (forall x, x ∈ l' -> x ∈ l) ->
    assoc_get k (fold_left (fun acc kv => assoc_set kv.1 kv.2 acc)
      ((fun x => (key x, x)) <$> l') acc) = Some v -> v ∈ l /\ key v = k) as H
    by (by apply (H []); [done|]).
  intros acc Hacc l'. revert acc Hacc. induction l' as [|x l' IH]; simpl; intros acc Hacc Hl'.
  { apply Hacc. }
  apply IH; [|set_solver]. intros k' v'. rewrite assoc_get_set.
  case_decide; [|apply Hacc]. intros [= <-]. split; [set_solver|done].
Qed.

(** A key that is unique in a list identifies its element. *)
Lemma unique_by l x y : NoDup (key <$> l) -> x ∈ l -> y ∈ l -> key x = key y -> x = y.
Proof.
  intros Hnd Hx Hy E.
  pose proof (proj2 (dict_by_lookup l _ x Hnd) (conj Hx eq_refl)) as H1.
  pose proof (proj2 (dict_by_lookup l _ y Hnd) (conj Hy eq_refl)) as H2. congruence.
Qed.

Lemma dict_by_keyed l : NoDup (key <$> l) -> keyed (dict_by key l).
Proof.
  intros Hnd. split; [apply dict_of_pairs_wf|].
  intros k v Hkv. by apply dict_by_lookup in Hkv as [_ ?].
Qed.

Lemma keyed_values_elem d v : keyed d -> v ∈ dict_values d <-> d !! key v = Some v.
Proof.
  intros [Hwf Hk]. rewrite elem_of_dict_values by done. split; [|eauto].
  intros [k Hkv]. by rewrite (Hk _ _ Hkv).
Qed.

Lemma keyed_NoDup d : keyed d -> NoDup (key <$> dict_values d).
Proof.
  intros Hd. destruct (Hd) as [Hwf _]. unfold dict_wf in Hwf.
  rewrite keyed_items in Hwf by done. by rewrite <- list_fmap_compose in Hwf.
Qed.

Lemma keyed_NoDup_values d : keyed d -> NoDup (dict_values d).
Proof. intros Hd. eapply NoDup_fmap_1. by apply keyed_NoDup. Qed.

Lemma keyed_perm d1 d2 :
  keyed d1 -> keyed d2 -> (forall k, d1 !! k = d2 !! k) -> dict_values d1 ≡ₚ dict_values d2.
Proof.
  intros [] [] ?. unfold dict_values. apply fmap_Permutation. by apply dict_values_perm.
Qed.

Lemma keyed_lookup_values d1 d2 :
  keyed d1 -> keyed d2 -> dict_values d1 ≡ₚ dict_values d2 -> forall k, d1 !! k = d2 !! k.
Proof.
  intros Hd1 Hd2 Hp k. apply option_eq. intros v. destruct (Hd1) as [Hw1 Hk1], (Hd2) as [Hw2 Hk2].
  split; intros Hv.
  - assert (key v = k) as <- by eauto. apply keyed_values_elem; [done|].
    rewrite <- Hp. by apply keyed_values_elem.
  - assert (key v = k) as <- by eauto. apply keyed_values_elem; [done|].
    rewrite Hp. by apply keyed_values_elem.
Qed.
End dict_by.

(** ** Sums over the values *)

Definition total {V} (f : V -> Z) (l : list V) : Z := foldr (fun x acc => f x + acc)%Z 0%Z l.

Lemma total_cons {V} (f : V -> Z) x l : total f (x :: l) = (f x + total f l)%Z.
Proof. done. Qed.

Lemma total_perm {V} (f : V -> Z) l1 l2 : l1 ≡ₚ l2 -> total f l1 = total f l2.
Proof. unfold total. induction 1; simpl; lia. Qed.

Lemma total_ext {V} (f g : V -> Z) l : (forall x, x ∈ l -> f x = g x) -> total f l = total g l.
Proof.
  unfold total. induction l as [|x l IH]; simpl; intros Hfg; [done|].
  rewrite Hfg by (by left). f_equal. apply IH. intros. apply Hfg. by right.
Qed.

Lemma total_nonneg {V} (f : V -> Z) l : (forall x, 0 <= f x)%Z -> (0 <= total f l)%Z.
Proof.
  intros Hf. unfold total. induction l as [|x l IH]; simpl; [done|]. specialize (Hf x). lia.
Qed.

Lemma total_elem {V} (f : V -> Z) l x : (forall x, 0 <= f x)%Z -> x ∈ l -> (f x <= total f l)%Z.
Proof.
  intros Hf. unfold total. induction 1 as [x l|x y l Hx IH]; simpl.
  - pose proof (total_nonneg f l Hf). unfold total in *. lia.
  - specialize (Hf y). lia.
Qed.

Lemma assoc_set_total {V} (f : V -> Z) k v v' (l : list (string * V)) :
  assoc_get k l = Some v ->
  total f (assoc_set k v' l).*2 = (total f l.*2 + f v' - f v)%Z.
Proof.
  induction l as [|[k0 v0] l IH]; [done|]. cbn [assoc_get assoc_set]. case_decide; intros Hk.
  - injection Hk as ->. rewrite !fmap_cons, !total_cons. cbn [snd]. lia.
  - rewrite !fmap_cons, !total_cons. rewrite IH by done. cbn [snd]. lia.
Qed.

(** Replacing one value changes a sum by the difference. *)
Lemma dict_insert_total {V} (f : V -> Z) k v v' (d : dict V) :
  d !! k = Some v ->
  total f (dict_values (<[k:=v']> d : dict V)) = (total f (dict_values d) + f v' - f v)%Z.
Proof. apply assoc_set_total. Qed.

(** Sums over two lists with the same unique keys, compared element by element. *)
Lemma total_dominated {V} (key : V -> string) (f g : V -> Z) l1 l2 :
  NoDup (key <$> l1) -> NoDup (key <$> l2) ->
  (forall x, x ∈ l1 -> exists y, y ∈ l2 /\ key y = key x /\ (f x <= g y)%Z) ->
  (forall y, y ∈ l2 -> exists x, x ∈ l1 /\ key x = key y) ->
  (total f l1 <= total g l2)%Z.
Proof.
  revert l2. induction l1 as [|x l1 IH]; intros l2 Hn1 Hn2 H12 H21.
  - destruct l2 as [|y l2]; [done|]. destruct (H21 y) as (x & Hx & _); [by left|by inversion Hx].
  - destruct (H12 x) as (y & Hy & Hk & Hle); [by left|].
    apply elem_of_Permutation in Hy as [l2' Hp]. rewrite (total_perm _ _ _ Hp), !total_cons.
    rewrite fmap_cons, NoDup_cons in Hn1. destruct Hn1 as [Hx Hn1].
    rewrite Hp, fmap_cons, NoDup_cons in Hn2. destruct Hn2 as [Hy Hn2].
    apply Z.add_le_mono; [exact Hle|]. apply IH; [exact Hn1|exact Hn2| |].
    + intros x' Hx'. destruct (H12 x') as (y' & Hy' & Hk' & Hle'); [by right|].
      rewrite Hp in Hy'. apply elem_of_cons in Hy' as [->|Hy']; [|by eauto].
      destruct Hx. rewrite <- Hk, Hk'. by apply list_elem_of_fmap_2.
    + intros y' Hy'. destruct (H21 y') as (x' & Hx' & Hk'); [rewrite Hp; by right|].
      apply elem_of_cons in Hx' as [->|Hx']; [|by eauto].
      destruct Hy. rewrite Hk, Hk'. by apply list_elem_of_fmap_2.
Qed.

(** ** Dictionaries up to the order of insertion *)

#[export] Instance dict_equiv {V} : Equiv (dict V) := fun d1 d2 => forall k, d1 !! k = d2 !! k.

#[export] Instance dict_equivalence {V} : Equivalence (≡@{dict V}).
Proof.
  split; [by intros d k|by intros d1 d2 H k|]. intros d1 d2 d3 H12 H23 k. by rewrite (H12 k).
Qed.
#[export] Instance dict_insert_proper {V} k v : Proper ((≡) ==> (≡@{dict V})) (insert k v).
Proof. intros d1 d2 H k'. rewrite !dict_lookup_insert. by case_decide. Qed.
#[export] Instance dict_lookup_proper {V} k : Proper ((≡@{dict V}) ==> eq) (lookup k).
Proof. intros d1 d2 H. apply H. Qed.

(** Indexing a permuted list by unique keys. *)
Lemma dict_by_perm {V} (key : V -> string) (l1 l2 : list V) :
  NoDup (key <$> l1) -> l1 ≡ₚ l2 -> dict_by key l1 ≡ dict_by key l2.
Proof.
  intros Hnd Hp k. apply option_eq. intros v.
  rewrite !dict_by_lookup by (try done; by rewrite <- Hp). by rewrite Hp.
Qed.

(** The values of equivalent dictionaries, sorted by a key that tells them apart. *)
Lemma sorted_values_equiv {V K} `{PyOrdLaws K} (key : V -> string) (order : V -> K) (d1 d2 : dict V) :
  (forall x y, order x = order y -> key x = key y) ->
  keyed key d1 -> keyed key d2 -> d1 ≡ d2 ->
  sorted_on order (dict_values d1) = sorted_on order (dict_values d2).
Proof.
  intros Ho Hk1 Hk2 He. apply sorted_on_perm; [|by apply (keyed_perm key)].
  intros x y Hx Hy E. apply (unique_by key (dict_values d1)); [|done|done|by apply Ho].
  by apply (keyed_NoDup key).
Qed.
