(* ===== verification/PyStr.v ===== *)
(** * Python strings

    A [str] is modelled as a [string]: one [ascii] per code point, so the
    strings of code points up to U+00FF.  On these, comparison by code point,
    [len], [strip] and the UTF-8 encoding are exact. *)
From Stdlib Require Import DecimalString DecimalZ.
From S2P Require Import Prelude.

Definition chr (n : nat) : ascii := ascii_of_nat n.
Definition code (c : ascii) : Z := Z.of_N (N_of_ascii c).

(** The double quote and the backslash, written by code. *)
Definition dquote : ascii := "034"%char.
Definition backslash : ascii := "092"%char.

(** ["sep".join(l)] *)
Fixpoint str_join (sep : string) (l : list string) : string :=
  match l with
  | [] => ""
  | [x] => x
  | x :: l => x +:+ sep +:+ str_join sep l
  end.

(** [str.isspace] on one character: what [str.strip] removes. *)
Definition is_space (c : ascii) : bool :=
  let n := code c in
  ((9 <=? n) && (n <=? 13) || (28 <=? n) && (n <=? 32) || (n =? 133) || (n =? 160))%Z.

Fixpoint lstrip (s : string) : string :=
  match s with
  | String c s' => if is_space c then lstrip s' else s
  | EmptyString => ""
  end.
Definition str_rev (s : string) : string := String.rev s.
Definition py_strip (s : string) : string := str_rev (lstrip (str_rev (lstrip s))).

(** [not s] for a string. *)
Definition str_empty (s : string) : bool := bool_decide (s = "").
(** [not s.strip()] *)
Definition str_blank (s : string) : bool := str_empty (py_strip s).

Definition is_hex_char (c : ascii) : bool :=
  let n := code c in ((48 <=? n) && (n <=? 57) || (97 <=? n) && (n <=? 102))%Z.

Fixpoint str_forallb (p : ascii -> bool) (s : string) : bool :=
  match s with EmptyString => true | String c s => p c && str_forallb p s end.

(** The lowercase SHA-256 test the models repeat: 64 characters, each of
    ["0123456789abcdef"]. *)
Definition is_sha256_hex (s : string) : bool :=
  bool_decide (String.length s = 64) && str_forallb is_hex_char s.

(** [str(n)] *)
Definition str_of_int (z : Z) : string := NilZero.string_of_int (Z.to_int z).

(** [s.replace(old, new)] for a non-empty [old]: every occurrence from the
    left, without overlap; [skip] characters of the last one are still to drop. *)
Fixpoint replace_from (skip : nat) (old new s : string) : string :=
  match s with
  | EmptyString => EmptyString
  | String c s' =>
    match skip with
    | S skip => replace_from skip old new s'
    | O => if String.prefix old s then new +:+ replace_from (String.length old - 1) old new s'
           else String c (replace_from 0 old new s')
    end
  end.
Definition py_replace (old new s : string) : string := replace_from 0 old new s.

(** [s.isascii()] *)
Definition is_ascii_str : string -> bool := str_forallb (fun c => code c <? 128)%Z.

(** [s.encode("utf-8")] on code points up to U+00FF. *)
Fixpoint utf8 (s : string) : list N :=
  match s with
  | EmptyString => []
  | String c s =>
    let n := N_of_ascii c in
    if (n <? 128)%N then n :: utf8 s
    else N.lor 192 (N.shiftr n 6) :: N.lor 128 (N.land n 63) :: utf8 s
  end.

Lemma str_join_cons sep x y l :
  str_join sep (x :: y :: l) = x +:+ sep +:+ str_join sep (y :: l).
Proof. done. Qed.

Lemma str_app_cons c (s1 s2 : string) : String c s1 +:+ s2 = String c (s1 +:+ s2).
Proof. done. Qed.

Lemma str_app_assoc (s1 s2 s3 : string) : (s1 +:+ s2) +:+ s3 = s1 +:+ (s2 +:+ s3).
Proof. induction s1 as [|c s1 IH]; [done|]. rewrite !str_app_cons. by f_equal. Qed.

Lemma str_app_nil_r (s : string) : s +:+ "" = s.
Proof. induction s as [|c s IH]; [done|]. rewrite str_app_cons. by f_equal. Qed.

Lemma str_length_app (s1 s2 : string) :
  String.length (s1 +:+ s2) = String.length s1 + String.length s2.
Proof. induction s1 as [|c s1 IH]; [done|]. rewrite str_app_cons. simpl. by f_equal. Qed.

Lemma str_of_int_inj z1 z2 : str_of_int z1 = str_of_int z2 -> z1 = z2.
Proof.
  unfold str_of_int. intros H. apply DecimalZ.to_int_inj.
  assert (forall z, Z.to_int z <> Decimal.Pos Decimal.Nil /\ Z.to_int z <> Decimal.Neg Decimal.Nil)
    as Hnn.
  { intros z. pose proof (DecimalZ.of_to z) as Ho.
    split; intros E; rewrite E in Ho; simpl in Ho; subst z; discriminate. }
  apply (f_equal NilZero.int_of_string) in H.
  rewrite !NilZero.isi in H by apply Hnn. by injection H.
Qed.

(** Reading a two-byte sequence back. *)
Lemma utf8_two_bytes (c : ascii) :
  let n := N_of_ascii c in
  (n <? 128)%N = false ->
  (N.lor 192 (N.shiftr n 6) <? 128)%N = false /\
  N.lor (N.shiftl (N.land (N.lor 192 (N.shiftr n 6)) 3) 6)
        (N.land (N.lor 128 (N.land n 63)) 63) = n.
Proof. by destruct c as [[] [] [] [] [] [] [] []]. Qed.

Lemma N_of_ascii_inj c d : N_of_ascii c = N_of_ascii d -> c = d.
Proof. intros H. by rewrite <- (ascii_N_embedding c), H, ascii_N_embedding. Qed.

(** Distinct strings have distinct UTF-8 encodings. *)
Lemma utf8_inj s1 s2 : utf8 s1 = utf8 s2 -> s1 = s2.
Proof.
  revert s2. induction s1 as [|c s1 IH]; intros [|d s2] H; simpl in H; try done.
  - by destruct (_ <? _)%N.
  - by destruct (_ <? _)%N.
  - destruct (N_of_ascii c <? 128)%N eqn:Hc, (N_of_ascii d <? 128)%N eqn:Hd;
      try apply utf8_two_bytes in Hc as [Hc1 Hc2]; try apply utf8_two_bytes in Hd as [Hd1 Hd2].
    + injection H as H0 H. by rewrite (N_of_ascii_inj _ _ H0), (IH s2).
    + injection H as H0 H. congruence.
    + injection H as H0 H. congruence.
    + injection H as H1 H2 H. f_equal; [|by apply IH].
      apply N_of_ascii_inj. by rewrite <- Hc2, <- Hd2, H1, H2.
Qed.

(** ** Characters and replacement *)

Lemma str_forallb_app p s1 s2 : str_forallb p (s1 +:+ s2) = str_forallb p s1 && str_forallb p s2.
Proof.
  induction s1 as [|c s1 IH]; [done|]. rewrite str_app_cons. simpl. by rewrite IH, andb_assoc.
Qed.

Lemma str_forallb_impl (p q : ascii -> bool) s :
  (forall c, p c = true -> q c = true) -> str_forallb p s = true -> str_forallb q s = true.
Proof.
  intros Hpq. induction s as [|c s IH]; [done|]. simpl. rewrite !andb_true_iff. naive_solver.
Qed.

Lemma str_app_inj_r s1 s2 c : s1 +:+ String c "" = s2 +:+ String c "" -> s1 = s2.
Proof.
  revert s2. induction s1 as [|x s1 IH]; intros [|y s2]; rewrite ?str_app_cons; try done.
  - change ("" +:+ String c "") with (String c ""). intros [= _ H]. by destruct s2.
  - change ("" +:+ String c "") with (String c ""). intros [= _ H]. by destruct s1.
  - intros [= -> H]. f_equal. by apply IH.
Qed.

Definition not_plus (c : ascii) : bool := negb (Ascii.eqb c "+"%char).

(** The UTC designator at the end of a text without any other plus sign. *)
Lemma replace_utc_suffix s :
  str_forallb not_plus s = true -> py_replace "+00:00" "Z" (s +:+ "+00:00") = s +:+ "Z".
Proof.
  unfold py_replace. induction s as [|c s IH]; [done|]. rewrite !str_app_cons. simpl str_forallb.
  rewrite andb_true_iff. intros [Hc Hs]. rewrite <- IH by done. cbn [replace_from].
  assert (String.prefix "+00:00" (String c (s +:+ "+00:00")) = false) as ->; [|done].
  cbn [String.prefix]. destruct (ascii_dec _ _) as [<-|]; [|done]. by vm_compute in Hc.
Qed.

Lemma hex_not_special c : is_hex_char c = true -> (code c <? 128)%Z = true /\ not_plus c = true.
Proof.
  unfold is_hex_char. intros H. split; [lia|]. unfold not_plus. apply negb_true_iff.
  destruct (Ascii.eqb_spec c "+"%char) as [->|]; done.
Qed.

Lemma sha256_hex_ascii s : is_sha256_hex s = true -> is_ascii_str s = true.
Proof.
  unfold is_sha256_hex. rewrite andb_true_iff. intros [_ H].
  eapply str_forallb_impl; [|exact H]. intros c Hc. by apply hex_not_special.
Qed.

(** [hmac.compare_digest] on strings, which must be ASCII. *)
Definition compare_digest (a b : string) : result bool :=
  raise_if (negb (is_ascii_str a && is_ascii_str b))
    (Exn TypeError "comparing strings with non-ASCII characters is not supported") ;;;
  Ok (bool_decide (a = b)).

Lemma compare_digest_Ok s1 s2 b :
  compare_digest s1 s2 = Ok b <->
  is_ascii_str s1 = true /\ is_ascii_str s2 = true /\ b = bool_decide (s1 = s2).
Proof.
  unfold compare_digest. rewrite seq_Ok, raise_if_Ok, negb_false_iff, andb_true_iff. naive_solver.
Qed.
Lemma compare_digest_same s : is_ascii_str s = true -> compare_digest s s = Ok true.
Proof. intros H. apply compare_digest_Ok. by rewrite bool_decide_eq_true_2. Qed.
