(* ===== verification/Sha256.v ===== *)
(** * SHA-256 and HMAC-SHA-256

    The digests of [hashlib.sha256(..).hexdigest()] and
    [hmac.new(key, msg, hashlib.sha256).hexdigest()] that the modelled code
    takes: FIPS 180-4 and RFC 2104 over [bytes], on 32-bit words kept as [N]
    with the wrap-around written out. *)
From S2P Require Import Prelude PyStr.

Local Open Scope N_scope.

(** Python [bytes]: each element is below 256. *)
Abbreviation bytes := (list N).

Definition mask32 : N := 4294967295.
Definition add32 (x y : N) : N := N.land (x + y) mask32.
Definition rotr (n x : N) : N :=
  N.lor (N.shiftr x n) (N.land (N.shiftl x (32 - n)) mask32).
Definition not32 (x : N) : N := N.lxor x mask32.
Definition ch x y z := N.lxor (N.land x y) (N.land (not32 x) z).
Definition maj x y z := N.lxor (N.lxor (N.land x y) (N.land x z)) (N.land y z).
Definition bsig0 x := N.lxor (N.lxor (rotr 2 x) (rotr 13 x)) (rotr 22 x).
Definition bsig1 x := N.lxor (N.lxor (rotr 6 x) (rotr 11 x)) (rotr 25 x).
Definition ssig0 x := N.lxor (N.lxor (rotr 7 x) (rotr 18 x)) (N.shiftr x 3).
Definition ssig1 x := N.lxor (N.lxor (rotr 17 x) (rotr 19 x)) (N.shiftr x 10).

(** The constants are the first 32 bits of the fractional parts of the cube
    roots of the first 64 primes; the initial state, of the square roots of the
    first eight. *)
Definition is_prime (n : nat) : bool :=
  (2 <=? n)%nat && forallb (fun d => negb (n mod d =? 0)%nat) (seq 2 (n - 2)).
Definition first_primes : list N := N.of_nat <$> filter (fun n => is_prime n = true) (seq 0 312).

(** The integer cube root of a number below [2 ^ 108]. *)
Definition cube_root (n : N) : N :=
  fold_left (fun r i => let c := r + 2 ^ N.of_nat i in if c * c * c <=? n then c else r)
    (reverse (seq 0 36)) 0.

Definition round_constants : list N := Eval vm_compute in
  (fun p => N.land (cube_root (p * 2 ^ 96)) mask32) <$> first_primes.
Definition initial_words : list N := Eval vm_compute in
  (fun p => N.land (N.sqrt (p * 2 ^ 64)) mask32) <$> take 8 first_primes.

Record sha_state := Sha { sa : N; sb : N; sc : N; sd : N; se : N; sf : N; sg : N; sh : N }.

Definition initial_state : sha_state :=
  let w i := nth i initial_words 0 in
  Sha (w 0%nat) (w 1%nat) (w 2%nat) (w 3%nat) (w 4%nat) (w 5%nat) (w 6%nat) (w 7%nat).

Definition sha_round (s : sha_state) (k w : N) : sha_state :=
  let t1 := add32 (add32 (add32 (sh s) (bsig1 (se s))) (add32 (ch (se s) (sf s) (sg s)) k)) w in
  let t2 := add32 (bsig0 (sa s)) (maj (sa s) (sb s) (sc s)) in
  Sha (add32 t1 t2) (sa s) (sb s) (sc s) (add32 (sd s) t1) (se s) (sf s) (sg s).

(** The message schedule, as a sliding window of sixteen words. *)
Definition next_word (w : list N) : N :=
  add32 (add32 (ssig1 (nth 14 w 0)) (nth 9 w 0)) (add32 (ssig0 (nth 1 w 0)) (nth 0 w 0)).

Fixpoint rounds (ks w : list N) (s : sha_state) : sha_state :=
  match ks with
  | [] => s
  | k :: ks => rounds ks (tl w ++ [next_word w]) (sha_round s k (hd 0 w))
  end.

Definition compress (h : sha_state) (block : list N) : sha_state :=
  let s := rounds round_constants block h in
  Sha (add32 (sa h) (sa s)) (add32 (sb h) (sb s)) (add32 (sc h) (sc s)) (add32 (sd h) (sd s))
      (add32 (se h) (se s)) (add32 (sf h) (sf s)) (add32 (sg h) (sg s)) (add32 (sh h) (sh s)).

Definition be_bytes (n : nat) (x : N) : bytes :=
  (fun i => N.land (N.shiftr x (8 * N.of_nat i)) 255) <$> reverse (seq 0 n).

(** One [0x80] byte, zeros up to 56 modulo 64, then the bit length on 64 bits. *)
Definition pad (m : bytes) : bytes :=
  let len := Z.of_nat (length m) in
  m ++ [128] ++ replicate (Z.to_nat ((55 - len) mod 64)%Z) 0 ++ be_bytes 8 (8 * Z.to_N len).

Fixpoint words_of_bytes (m : bytes) : list N :=
  match m with
  | a :: b :: c :: d :: m =>
    N.lor (N.lor (N.shiftl a 24) (N.shiftl b 16)) (N.lor (N.shiftl c 8) d) :: words_of_bytes m
  | _ => []
  end.

(** [n] bounds the number of blocks. *)
Fixpoint process_blocks (n : nat) (h : sha_state) (ws : list N) : sha_state :=
  match n, ws with
  | S n, _ :: _ => process_blocks n (compress h (take 16 ws)) (drop 16 ws)
  | _, _ => h
  end.

Definition sha256_words (m : bytes) : list N :=
  let ws := words_of_bytes (pad m) in
  let h := process_blocks (length ws) initial_state ws in
  [sa h; sb h; sc h; sd h; se h; sf h; sg h; sh h].

(** [hashlib.sha256(m).digest()] *)
Definition sha256 (m : bytes) : bytes := sha256_words m ≫= be_bytes 4.

Definition hex_digit (x : N) : ascii :=
  ascii_of_N (if x <? 10 then 48 + x else 87 + x).

Fixpoint hex (m : bytes) : string :=
  match m with
  | [] => EmptyString
  | b :: m => String (hex_digit (N.land (N.shiftr b 4) 15)) (String (hex_digit (N.land b 15)) (hex m))
  end.

(** [hashlib.sha256(m).hexdigest()] *)
Definition sha256_hex (m : bytes) : string := hex (sha256 m).

(** [hmac.new(key, m, hashlib.sha256).hexdigest()] *)
Definition hmac_key (key : bytes) : bytes :=
  let k := if (64 <? length key)%nat then sha256 key else key in
  k ++ replicate (64 - length k) 0.
Definition hmac_sha256_hex (key m : bytes) : string :=
  let k := hmac_key key in
  sha256_hex ((N.lxor 92 <$> k) ++ sha256 ((N.lxor 54 <$> k) ++ m)).

(** ** Facts *)

Lemma length_be_bytes n x : length (be_bytes n x) = n.
Proof. unfold be_bytes. by rewrite length_fmap, length_reverse, length_seq. Qed.

Lemma length_sha256 m : length (sha256 m) = 32%nat.
Proof.
  unfold sha256, sha256_words. cbn -[be_bytes process_blocks].
  by rewrite !length_app, !length_be_bytes.
Qed.

Lemma hex_digit_is_hex x : x < 16 -> is_hex_char (hex_digit x) = true.
Proof.
  intros Hx. destruct x as [|p]; [done|].
  do 4 (destruct p as [p|p|]; try done; try lia).
Qed.

Lemma hex_spec m :
  String.length (hex m) = (2 * length m)%nat /\ str_forallb is_hex_char (hex m) = true.
Proof.
  induction m as [|b m [IHl IHh]]; simpl; [done|]. split; [rewrite IHl; lia|].
  rewrite IHh, !hex_digit_is_hex; [done|..];
    (change 15 with (N.ones 4); rewrite N.land_ones; apply N.mod_lt; done).
Qed.

(** Every digest is a lowercase SHA-256 digest in the sense of the models'
    record checks. *)
Lemma sha256_hex_is_digest m : is_sha256_hex (sha256_hex m) = true.
Proof.
  unfold is_sha256_hex, sha256_hex. destruct (hex_spec (sha256 m)) as [-> ->].
  by rewrite length_sha256.
Qed.

Lemma hmac_sha256_hex_is_digest key m : is_sha256_hex (hmac_sha256_hex key m) = true.
Proof. apply sha256_hex_is_digest. Qed.

(** Test vectors of FIPS 180-4 and RFC 4231. *)
Example sha256_empty : sha256_hex [] =
  "e3b0c44298fc1c149afbf4c8996fb92427ae41e4649b934ca495991b7852b855"%string.
Proof. vm_compute. reflexivity. Qed.
Example sha256_abc : sha256_hex (utf8 "abc") =
  "ba7816bf8f01cfea414140de5dae2223b00361a396177a9cb410ff61f20015ad"%string.
Proof. vm_compute. reflexivity. Qed.
Example hmac_rfc4231_2 : hmac_sha256_hex (utf8 "Jefe") (utf8 "what do ya want for nothing?") =
  "5bdcc146bf60754e6a042426089575c75a003f089d2739839dec58b964ec3843"%string.
Proof. vm_compute. reflexivity. Qed.
