(* ===== verification/Json.v ===== *)
(** * JSON: canonical encoding and strict decoding

    [canonical_json] of backend/orchestrator/models.py is
    [json.dumps(value, sort_keys=True, separators=(",", ":"),
    ensure_ascii=False, allow_nan=False)].  Values are null, booleans,
    integers, strings, lists and objects; floating-point numbers, which the
    orchestrator's payloads never contain, are outside the model, and [loads]
    refuses them.  [loads] follows the grammar of [json.loads] in its strict
    mode.  The main results are the round trip [loads_canonical] and the
    injectivity of the encoding that it gives. *)
From Stdlib Require Import DecimalString DecimalZ DecimalN DecimalFacts.
From S2P Require Import Prelude PyStr PyDict.

Inductive json :=
  | JNull
  | JBool (b : bool)
  | JInt (z : Z)
  | JStr (s : string)
  | JArr (l : list json)
  | JObj (kvs : list (string * json)).

Section json_ind'.
Variable P : json -> Prop.
Hypothesis Hnull : P JNull.
Hypothesis Hbool : forall b, P (JBool b).
Hypothesis Hint : forall z, P (JInt z).
Hypothesis Hstr : forall s, P (JStr s).
Hypothesis Harr : forall l, Forall P l -> P (JArr l).
Hypothesis Hobj : forall kvs, Forall (fun kv => P kv.2) kvs -> P (JObj kvs).

Fixpoint json_ind' (j : json) : P j :=
  match j with
  | JNull => Hnull
  | JBool b => Hbool b
  | JInt z => Hint z
  | JStr s => Hstr s
  | JArr l =>
    Harr l ((fix go l : Forall P l :=
      match l with [] => Forall_nil_2 _ | x :: l => Forall_cons_2 _ _ _ (json_ind' x) (go l) end) l)
  | JObj kvs =>
    Hobj kvs ((fix go l : Forall (fun kv => P kv.2) l :=
      match l with
      | [] => Forall_nil_2 _
      | kv :: l => Forall_cons_2 _ _ _ (json_ind' kv.2) (go l)
      end) kvs)
  end.
End json_ind'.

(** ** Encoding *)

(** [ESCAPE_DCT] of the encoder: the quote, the backslash and the controls. *)
Definition escape_char (c : ascii) : string :=
let n := code c in
if (n =? 34)%Z then String backslash (String dquote EmptyString)
else if (n =? 92)%Z then String backslash (String backslash EmptyString)
else if (n =? 10)%Z then String backslash "n"
else if (n =? 13)%Z then String backslash "r"
else if (n =? 9)%Z then String backslash "t"
else if (n =? 12)%Z then String backslash "f"
else if (n =? 8)%Z then String backslash "b"
else if (n <? 32)%Z then
  String backslash (String "u" (String "0" (String "0"
    (String (if (n <? 16)%Z then "0" else "1")%char
    (String (let d := (n mod 16)%Z in chr (Z.to_nat (if (d <? 10)%Z then 48 + d else 87 + d)))
    EmptyString)))))
else String c EmptyString.

Fixpoint escape (s : string) : string :=
match s with EmptyString => EmptyString | String c s => escape_char c +:+ escape s end.

Definition quote (s : string) : string :=
String dquote (escape s +:+ String dquote EmptyString).

Fixpoint print (j : json) : string :=
match j with
| JNull => "null"
| JBool true => "true"
| JBool false => "false"
| JInt z => str_of_int z
| JStr s => quote s
| JArr l => "[" +:+ str_join "," (print <$> l) +:+ "]"
| JObj kvs =>
  "{" +:+ str_join "," ((fun '(k, v) => quote k +:+ ":" +:+ print v) <$> kvs) +:+ "}"
end.

(** [sort_keys=True], at every level. *)
Fixpoint canon (j : json) : json :=
match j with
| JArr l => JArr (canon <$> l)
| JObj kvs => JObj (sorted_on fst ((fun '(k, v) => (k, canon v)) <$> kvs))
| j => j
end.

Definition canonical_json (j : json) : string := print (canon j).

(** A value a Python object can have: the keys of each dict are distinct. *)
Inductive json_wf : json -> Prop :=
| wf_null : json_wf JNull
| wf_bool b : json_wf (JBool b)
| wf_int z : json_wf (JInt z)
| wf_str s : json_wf (JStr s)
| wf_arr l : Forall json_wf l -> json_wf (JArr l)
| wf_obj kvs : NoDup kvs.*1 -> Forall (fun kv => json_wf kv.2) kvs -> json_wf (JObj kvs).

(** ** Decoding *)

Definition is_ws (c : ascii) : bool :=
let n := code c in ((n =? 32) || (n =? 9) || (n =? 10) || (n =? 13))%Z.

Fixpoint skip_ws (s : string) : string :=
match s with String c s' => if is_ws c then skip_ws s' else s | EmptyString => EmptyString end.

Definition hex_value (c : ascii) : option Z :=
let n := code c in
if ((48 <=? n) && (n <=? 57))%Z then Some (n - 48)%Z
else if ((97 <=? n) && (n <=? 102))%Z then Some (n - 87)%Z
else if ((65 <=? n) && (n <=? 70))%Z then Some (n - 55)%Z
else None.

(** The body of a string literal, after its opening quote.  A [\u] escape of a
  code point above U+00FF is outside the string model and is refused. *)
Fixpoint read_string (s : string) : option (string * string) :=
match s with
| EmptyString => None
| String c s =>
  let cons_to (x : ascii) (r : option (string * string)) :=
    '(t, rest) ← r; Some (String x t, rest) in
  let n := code c in
  if (n =? 34)%Z then Some (EmptyString, s)
  else if (n =? 92)%Z then
    match s with
    | EmptyString => None
    | String e s =>
      let m := code e in
      if (m =? 34)%Z then cons_to dquote (read_string s)
      else if (m =? 92)%Z then cons_to backslash (read_string s)
      else if (m =? 47)%Z then cons_to "/"%char (read_string s)
      else if (m =? 110)%Z then cons_to (chr 10) (read_string s)
      else if (m =? 114)%Z then cons_to (chr 13) (read_string s)
      else if (m =? 116)%Z then cons_to (chr 9) (read_string s)
      else if (m =? 102)%Z then cons_to (chr 12) (read_string s)
      else if (m =? 98)%Z then cons_to (chr 8) (read_string s)
      else if (m =? 117)%Z then
        match s with
        | String a (String b (String c (String d s))) =>
          match hex_value a, hex_value b, hex_value c, hex_value d with
          | Some 0%Z, Some 0%Z, Some x, Some y =>
            cons_to (chr (Z.to_nat (16 * x + y))) (read_string s)
          | _, _, _, _ => None
          end
        | _ => None
        end
      else None
    end
  else if (n <? 32)%Z then None
  else cons_to c (read_string s)
end.

Definition digit_cons (c : ascii) (d : Decimal.uint) : option Decimal.uint :=
uint_of_char c (Some d).

(** The longest run of decimal digits. *)
Fixpoint read_digits (s : string) : Decimal.uint * string :=
match s with
| EmptyString => (Decimal.Nil, EmptyString)
| String c s' =>
  let '(d, rest) := read_digits s' in
  match digit_cons c d with Some d' => (d', rest) | None => (Decimal.Nil, s) end
end.

Definition read_nat (s : string) : option (Decimal.uint * string) :=
match s with
| String "0" rest => Some (Decimal.D0 Decimal.Nil, rest)
| _ => match read_digits s with (Decimal.Nil, _) => None | r => Some r end
end.

(** A number that goes on with a fraction or an exponent is a float, or an error. *)
Definition int_stop (s : string) : bool :=
match s with
| String c _ => negb (bool_decide (c ∈ ["."; "e"; "E"]%char))
| EmptyString => true
end.

Definition read_int (s : string) : option (json * string) :=
let finish (sign : Decimal.uint -> Decimal.int) r :=
  '(d, rest) ← r;
  if int_stop rest then Some (JInt (Z.of_int (sign d)), rest) else None in
match s with
| String "-" s => finish Decimal.Neg (read_nat s)
| _ => finish Decimal.Pos (read_nat s)
end.

(** [n] bounds the number of values and separators still to be read. *)
Fixpoint read_value (n : nat) (s : string) {struct n} : option (json * string) :=
match n with
| O => None
| S n =>
  match s with
  | String "n" (String "u" (String "l" (String "l" rest))) => Some (JNull, rest)
  | String "t" (String "r" (String "u" (String "e" rest))) => Some (JBool true, rest)
  | String "f" (String "a" (String "l" (String "s" (String "e" rest)))) =>
    Some (JBool false, rest)
  | String "[" s =>
    match skip_ws s with
    | String "]" rest => Some (JArr [], rest)
    | s => '(l, rest) ← read_elements n s; Some (JArr l, rest)
    end
  | String "{" s =>
    match skip_ws s with
    | String "}" rest => Some (JObj [], rest)
    | s => '(kvs, rest) ← read_members n s; Some (JObj (assoc_of_pairs kvs), rest)
    end
  | String c s' =>
    if (code c =? 34)%Z then '(t, rest) ← read_string s'; Some (JStr t, rest)
    else read_int s
  | EmptyString => None
  end
end
with read_elements (n : nat) (s : string) {struct n} : option (list json * string) :=
match n with
| O => None
| S n =>
  '(v, s) ← read_value n s;
  match skip_ws s with
  | String "]" rest => Some ([v], rest)
  | String "," s => '(l, rest) ← read_elements n (skip_ws s); Some (v :: l, rest)
  | _ => None
  end
end
with read_members (n : nat) (s : string) {struct n} : option (list (string * json) * string) :=
match n with
| O => None
| S n =>
  match s with
  | String c s =>
    if (code c =? 34)%Z then
      '(k, s) ← read_string s;
      match skip_ws s with
      | String ":" s =>
        '(v, s) ← read_value n (skip_ws s);
        match skip_ws s with
        | String "}" rest => Some ([(k, v)], rest)
        | String "," s => '(l, rest) ← read_members n (skip_ws s); Some ((k, v) :: l, rest)
        | _ => None
        end
      | _ => None
      end
    else None
  | EmptyString => None
  end
end.

(** [json.loads(s)]; [None] is [JSONDecodeError].  Each value and separator
  takes at least one character, so the length bounds the recursion. *)
Definition loads (s : string) : option json :=
'(v, rest) ← read_value (S (String.length s)) (skip_ws s);
if str_empty (skip_ws rest) then Some v else None.

(** ** Reading back what was printed *)

Lemma read_string_escape s rest :
read_string (escape s +:+ String dquote rest) = Some (s, rest).
Proof.
induction s as [|c s IH]; [done|]. simpl escape. rewrite str_app_assoc.
assert (forall t, read_string (escape_char c +:+ t) =
  ('(u, rest) ← read_string t; Some (String c u, rest))) as ->.
{ intros t. destruct c as [[] [] [] [] [] [] [] []]; reflexivity. }
by rewrite IH.
Qed.

(** [stops s]: a number that is followed by [s] ends there. *)
Definition stops (s : string) : bool :=
match s with
| String c _ => negb (bool_decide (c ∈ ["."; "e"; "E"]%char)) &&
                (let n := code c in negb ((48 <=? n) && (n <=? 57)))%Z
| EmptyString => true
end.

Lemma read_digits_uint d rest :
stops rest = true -> read_digits (NilEmpty.string_of_uint d +:+ rest) = (d, rest).
Proof.
intros Hs. induction d as [|d IH|d IH|d IH|d IH|d IH|d IH|d IH|d IH|d IH|d IH];
  cbn [NilEmpty.string_of_uint]; rewrite ?str_app_cons; cbn [read_digits];
  rewrite ?IH; try reflexivity.
change (EmptyString +:+ rest) with rest.
destruct rest as [|c rest]; [done|]. simpl in *. destruct (read_digits rest) as [d' r'].
apply andb_true_iff in Hs as [_ Hs].
destruct c as [[] [] [] [] [] [] [] []]; (discriminate Hs || reflexivity).
Qed.

Lemma to_uint_shape n :
N.to_uint n = Decimal.D0 Decimal.Nil \/
(N.to_uint n <> Decimal.Nil /\ forall d, N.to_uint n <> Decimal.D0 d).
Proof.
pose proof (DecimalN.Unsigned.to_of (N.to_uint n)) as H.
rewrite DecimalN.Unsigned.of_to in H. unfold Decimal.unorm in H.
destruct (Decimal.nzhead (N.to_uint n)) eqn:E; [by left|right; rewrite H..]; try done.
exfalso. by eapply DecimalFacts.nzhead_nonzero.
Qed.

Lemma read_nat_uint n rest :
stops rest = true -> read_nat (NilZero.string_of_uint (N.to_uint n) +:+ rest) =
                     Some (N.to_uint n, rest).
Proof.
intros Hs. destruct (to_uint_shape n) as [->|[Hn H0]]; [done|].
pose proof (read_digits_uint (N.to_uint n) rest Hs) as Hr.
destruct (N.to_uint n) as [|d|d|d|d|d|d|d|d|d|d]; [done|by destruct (H0 d)|..];
  cbn -[read_digits] in *; rewrite str_app_cons in *; unfold read_nat; by rewrite Hr.
Qed.

Lemma to_int_N z : Z.to_int z =
if (z <? 0)%Z then Decimal.Neg (N.to_uint (Z.to_N (- z))) else Decimal.Pos (N.to_uint (Z.to_N z)).
Proof. by destruct z. Qed.

Lemma stops_int_stop s : stops s = true -> int_stop s = true.
Proof. destruct s; simpl; [done|]. by intros [? _]%andb_true_iff. Qed.

Lemma uint_head n : exists c s,
NilZero.string_of_uint (N.to_uint n) = String c s /\ (48 <=? code c)%Z && (code c <=? 57)%Z = true.
Proof.
destruct (to_uint_shape n) as [->|[Hn H0]]; [by eexists _, _|].
destruct (N.to_uint n) as [|d|d|d|d|d|d|d|d|d|d]; [done|..]; by eexists _, _.
Qed.

Lemma read_int_print z rest :
stops rest = true -> read_int (str_of_int z +:+ rest) = Some (JInt z, rest).
Proof.
intros Hs. pose proof (DecimalZ.of_to z) as Hz. unfold str_of_int. rewrite to_int_N in *.
destruct (z <? 0)%Z; simpl NilZero.string_of_int.
- rewrite str_app_cons. unfold read_int. rewrite read_nat_uint by done. simpl.
  rewrite stops_int_stop by done. by simpl in Hz |- *; rewrite Hz.
- pose proof (read_nat_uint (Z.to_N z) rest Hs) as Hr.
  destruct (uint_head (Z.to_N z)) as (c & s & E & Hc). rewrite E in *.
  rewrite str_app_cons in *. unfold read_int. rewrite Hr. simpl.
  rewrite stops_int_stop by done. simpl in Hz. rewrite Hz.
  by destruct c as [[] [] [] [] [] [] [] []].
Qed.

Lemma read_value_int n z rest :
stops rest = true -> read_value (S n) (str_of_int z +:+ rest) = Some (JInt z, rest).
Proof.
intros Hs. pose proof (read_int_print z rest Hs) as Hr.
assert (exists c s, str_of_int z = String c s /\
  ((48 <=? code c) && (code c <=? 57) || (code c =? 45))%Z = true) as (c & s & E & Hc).
{ unfold str_of_int. rewrite to_int_N. destruct (z <? 0)%Z; simpl; [by eexists _, _|].
  destruct (uint_head (Z.to_N z)) as (c & s & -> & Hc). eexists _, _. by rewrite Hc. }
rewrite E in *. rewrite str_app_cons in *. cbn [read_value].
destruct c as [[] [] [] [] [] [] [] []]; (discriminate Hc || exact Hr).
Qed.

(** The number of values and separators in a value: enough fuel to read it. *)
Fixpoint json_size (j : json) : nat :=
match j with
| JArr l => S (sum_list (S <$> (json_size <$> l)))
| JObj kvs => S (sum_list ((fun '(_, v) => S (json_size v)) <$> kvs))
| _ => 1
end.

(** What a printed value can start with. *)
Definition head_ok (c : ascii) : bool :=
bool_decide (c ∈ ["n"; "t"; "f"; "["; "{"; "-"; dquote]%char) ||
((48 <=? code c) && (code c <=? 57))%Z.

Lemma print_head j : exists c s, print j = String c s /\ head_ok c = true.
Proof.
destruct j as [|[]|z|s|l|kvs]; simpl; try by eexists _, _.
unfold str_of_int. rewrite to_int_N. destruct (z <? 0)%Z; simpl; [by eexists _, _|].
destruct (uint_head (Z.to_N z)) as (c & s & -> & Hc). eexists _, _. split; [done|].
unfold head_ok. by rewrite Hc, orb_true_r.
Qed.

Lemma head_ok_not_ws c : head_ok c = true -> is_ws c = false.
Proof. by destruct c as [[] [] [] [] [] [] [] []]. Qed.

Lemma skip_ws_print j rest : skip_ws (print j +:+ rest) = print j +:+ rest.
Proof.
destruct (print_head j) as (c & s & -> & Hc). rewrite str_app_cons. simpl.
by rewrite head_ok_not_ws.
Qed.

Lemma skip_ws_join (l : list json) j rest :
skip_ws (str_join "," (print <$> j :: l) +:+ rest) = str_join "," (print <$> j :: l) +:+ rest.
Proof.
destruct l as [|j' l]; rewrite !fmap_cons; [apply skip_ws_print|].
rewrite str_join_cons, str_app_assoc. apply skip_ws_print.
Qed.

Lemma read_value_arr n l rest s :
l <> [] -> s = str_join "," (print <$> l) +:+ String "]" rest ->
read_elements n s = Some (l, rest) ->
read_value (S n) (String "[" s) = Some (JArr l, rest).
Proof.
intros Hl Hs Hr. cbn [read_value]. destruct l as [|j l]; [done|].
rewrite Hs, skip_ws_join, <- Hs.
assert (exists c s', s = String c s' /\ head_ok c = true) as (c & s' & -> & Hc).
{ rewrite Hs. destruct (print_head j) as (c & s' & E & Hc).
  destruct l; rewrite !fmap_cons; [simpl|rewrite str_join_cons]; rewrite E, !str_app_cons;
    by eexists _, _. }
by destruct c as [[] [] [] [] [] [] [] []]; try discriminate Hc; rewrite Hr.
Qed.

Lemma read_elements_print l rest n :
l <> [] ->
Forall (fun j => forall n rest, json_size j <= n -> stops rest = true ->
          read_value n (print j +:+ rest) = Some (j, rest)) l ->
sum_list (S <$> (json_size <$> l)) <= n ->
read_elements n (str_join "," (print <$> l) +:+ String "]" rest) = Some (l, rest).
Proof.
intros Hl Hall. revert n. induction Hall as [|j l Hj Hall IH]; intros n Hn; [done|].
destruct n as [|n]; simpl in Hn; [lia|]. cbn [read_elements].
destruct l as [|j' l].
- cbn [fmap list_fmap str_join]. rewrite Hj; [done|simpl in Hn; lia|done].
- rewrite !fmap_cons, str_join_cons, !str_app_assoc. rewrite Hj; [|lia|done].
  change ("," +:+ str_join "," (print j' :: (print <$> l)) +:+ String "]" rest)
    with (String "," (str_join "," (print <$> j' :: l) +:+ String "]" rest)).
  cbn [mbind option_bind skip_ws]. change (is_ws ",") with false. cbn match.
  rewrite skip_ws_join, IH; [done|done|simpl in *; lia].
Qed.

Definition print_member (kv : string * json) : string := quote kv.1 +:+ ":" +:+ print kv.2.

Lemma read_member_key (k : string) s :
exists t, quote k +:+ s = String dquote t /\ read_string t = Some (k, s).
Proof.
unfold quote. rewrite str_app_cons. eexists; split; [done|].
rewrite str_app_assoc. apply read_string_escape.
Qed.

Lemma members_head kv kvs rest : exists t,
str_join "," (print_member <$> kv :: kvs) +:+ rest = String dquote t.
Proof.
assert (exists u, print_member kv = String dquote u) as [u Hu]
  by (unfold print_member, quote; rewrite str_app_cons; eauto).
destruct kvs; rewrite !fmap_cons; [simpl|rewrite str_join_cons];
  rewrite Hu, !str_app_cons; eauto.
Qed.

Lemma skip_ws_members kv kvs rest :
skip_ws (str_join "," (print_member <$> kv :: kvs) +:+ rest) =
str_join "," (print_member <$> kv :: kvs) +:+ rest.
Proof. by destruct (members_head kv kvs rest) as [t ->]. Qed.

Lemma read_members_print kvs rest n :
kvs <> [] ->
Forall (fun kv => forall n rest, json_size kv.2 <= n -> stops rest = true ->
          read_value n (print kv.2 +:+ rest) = Some (kv.2, rest)) kvs ->
sum_list ((fun '(_, v) => S (json_size v)) <$> kvs) <= n ->
read_members n (str_join "," (print_member <$> kvs) +:+ String "}" rest) = Some (kvs, rest).
Proof.
intros Hl Hall. revert n. induction Hall as [|[k j] l Hj Hall IH]; intros n Hn; [done|].
destruct n as [|n]; simpl in Hn; [lia|]. simpl in Hj.
assert (forall t, exists u, print_member (k, j) +:+ t = String dquote u /\
  read_string u = Some (k, String ":" (print j +:+ t))) as Hkey.
{ intros t. unfold print_member. simpl. rewrite !str_app_assoc.
  destruct (read_member_key k (":" +:+ (print j +:+ t))) as (u & -> & Hu). by exists u. }
destruct l as [|kv' l].
- cbn [fmap list_fmap str_join]. destruct (Hkey (String "}" rest)) as (u & -> & Hu).
  cbn [read_members]. change (code dquote =? 34)%Z with true. cbn match. rewrite Hu.
  cbn [mbind option_bind skip_ws]. change (is_ws ":") with false. cbn match.
  rewrite skip_ws_print, Hj; [done|simpl in Hn; lia|done].
- rewrite !fmap_cons, str_join_cons, !str_app_assoc.
  set (tl := "," +:+ _). destruct (Hkey tl) as (u & -> & Hu).
  cbn [read_members]. change (code dquote =? 34)%Z with true. cbn match. rewrite Hu.
  cbn [mbind option_bind skip_ws]. change (is_ws ":") with false. cbn match.
  rewrite skip_ws_print, Hj; [|lia|done]. subst tl.
  change ("," +:+ str_join "," (print_member kv' :: (print_member <$> l)) +:+ String "}" rest)
    with (String "," (str_join "," (print_member <$> kv' :: l) +:+ String "}" rest)).
  cbn [mbind option_bind skip_ws]. change (is_ws ",") with false. cbn match.
  rewrite skip_ws_members, IH; [done|done|simpl in *; lia].
Qed.

Lemma print_obj kvs :
print (JObj kvs) = "{" +:+ str_join "," (print_member <$> kvs) +:+ "}".
Proof. simpl. do 3 f_equal. by apply list_fmap_ext; intros ? []. Qed.

Lemma read_print j :
json_wf j -> forall n rest, json_size j <= n -> stops rest = true ->
read_value n (print j +:+ rest) = Some (j, rest).
Proof.
induction j as [|[]|z|s|l IH|kvs IH] using json_ind';
  intros Hwf [|n] rest Hn Hs; simpl json_size in Hn; try lia; try done.
- by apply read_value_int.
- simpl print. destruct (read_member_key s rest) as (u & -> & Hu).
  cbn [read_value]. change (code dquote =? 34)%Z with true. cbn match. by rewrite Hu.
- inversion Hwf as [| | | |? Hl|]; subst.
  destruct l as [|j l]; [done|].
  cbn [print]. rewrite !str_app_assoc.
  change (read_value (S n) (String "[" (str_join "," (print <$> j :: l) +:+ String "]" rest)) =
          Some (JArr (j :: l), rest)).
  eapply read_value_arr; [done|done|]. apply read_elements_print; [done| |lia].
  rewrite Forall_forall in IH, Hl |- *. intros; apply IH; auto.
- inversion Hwf as [| | | | |? Hnd Hl]; subst.
  destruct kvs as [|kv kvs]; [done|].
  rewrite print_obj, !str_app_assoc.
  change (read_value (S n) (String "{"
            (str_join "," (print_member <$> kv :: kvs) +:+ String "}" rest)) =
          Some (JObj (kv :: kvs), rest)).
  assert (read_members n (str_join "," (print_member <$> kv :: kvs) +:+ String "}" rest) =
    Some (kv :: kvs, rest)) as Hr.
  { apply read_members_print; [done| |lia].
    rewrite Forall_forall in IH, Hl |- *. intros; apply IH; auto. }
  cbn [read_value]. rewrite skip_ws_members.
  destruct (members_head kv kvs (String "}" rest)) as [t Ht].
  rewrite Ht in *. unfold dquote in *. cbv beta iota. rewrite Hr. cbn [mbind option_bind].
  by rewrite assoc_of_pairs_id.
Qed.

(** Every value has at least as many characters as values and separators. *)
Lemma json_size_length j : json_size j <= String.length (print j).
Proof.
assert (forall sep (l : list string), String.length sep = 1 ->
  sum_list (S <$> (String.length <$> l)) <= S (String.length (str_join sep l))) as Hjoin.
{ intros sep l Hsep. induction l as [|s [|s' l] IH]; [simpl; lia..|].
  rewrite str_join_cons, !str_length_app, Hsep. cbn in *. lia. }
induction j as [|[]|z|s|l IH|kvs IH] using json_ind'; simpl; try lia.
- destruct (print_head (JInt z)) as (c & s & E & _). simpl in E. rewrite E. simpl. lia.
- rewrite str_length_app, (str_length_app (str_join _ _)). simpl.
  specialize (Hjoin "," (print <$> l) eq_refl).
  enough (sum_list (S <$> (json_size <$> l)) <=
          sum_list (S <$> (String.length <$> (print <$> l)))) by lia.
  clear Hjoin. induction IH; csimpl in *; lia.
- change (S (sum_list ((fun '(_, v) => S (json_size v)) <$> kvs)) <=
          String.length (print (JObj kvs))).
  rewrite print_obj, str_length_app, (str_length_app (str_join _ _)). simpl.
  specialize (Hjoin "," (print_member <$> kvs) eq_refl).
  enough (sum_list ((fun '(_, v) => S (json_size v)) <$> kvs) <=
          sum_list (S <$> (String.length <$> (print_member <$> kvs)))) by lia.
  clear Hjoin. induction IH as [|[k v] kvs H IH' IH]; csimpl in *; [lia|].
  rewrite !str_length_app. lia.
Qed.

Lemma loads_print j : json_wf j -> loads (print j) = Some j.
Proof.
intros Hwf. unfold loads. rewrite <- (str_app_nil_r (print j)).
rewrite skip_ws_print, read_print; [done|done| |done].
rewrite str_app_nil_r. pose proof (json_size_length j). lia.
Qed.

(** ** Canonical order *)

Lemma canon_wf j : json_wf j -> json_wf (canon j).
Proof.
induction j as [|b|z|s|l IH|kvs IH] using json_ind'; intros Hwf; simpl; try by constructor.
- inversion Hwf as [| | | |? Hl|]; subst. constructor.
  rewrite Forall_fmap. rewrite Forall_forall in IH, Hl |- *. intros; apply IH; auto.
- inversion Hwf as [| | | | |? Hnd Hl]; subst. constructor.
  + rewrite sorted_on_Permutation, <- list_fmap_compose.
    erewrite list_fmap_ext; [exact Hnd|]. by intros ? [].
  + rewrite sorted_on_Permutation, Forall_fmap.
    rewrite Forall_forall in IH, Hl |- *. intros [k v] Hin. simpl.
    apply (IH _ Hin), (Hl _ Hin).
Qed.

Lemma keys_unique {V} (kvs : list (string * V)) :
NoDup kvs.*1 -> forall x y, x ∈ kvs -> y ∈ kvs -> x.1 = y.1 -> x = y.
Proof.
intros Hnd [k v] [k' v'] Hx Hy; simpl; intros <-.
apply assoc_get_elem in Hx, Hy; [|done..]. congruence.
Qed.

Lemma canon_idemp j : json_wf j -> canon (canon j) = canon j.
Proof.
induction j as [|b|z|s|l IH|kvs IH] using json_ind'; intros Hwf; try done.
- inversion Hwf as [| | | |? Hl|]; subst. simpl. f_equal. rewrite <- list_fmap_compose.
  rewrite Forall_forall in IH, Hl. apply list_fmap_ext. intros i x Hi. simpl.
  apply list_elem_of_lookup_2 in Hi. auto.
- inversion Hwf as [| | | | |? Hnd Hl]; subst. pose proof (canon_wf _ Hwf) as Hwf'.
  simpl in *. inversion Hwf' as [| | | | |? Hnd' Hl']; subst. f_equal.
  set (kvs' := sorted_on fst _) in *.
  assert ((fun '(k, v) => (k, canon v)) <$> kvs' = kvs') as ->.
  { rewrite <- (list_fmap_id kvs') at 2. apply list_fmap_ext. intros i [k v] Hi.
    simpl. f_equal. apply list_elem_of_lookup_2 in Hi. subst kvs'.
    rewrite elem_of_sorted_on in Hi. apply list_elem_of_fmap in Hi as ([k0 v0] & E & Hin).
    simplify_eq. rewrite Forall_forall in IH, Hl. apply (IH _ Hin), (Hl _ Hin). }
  apply (StronglySorted_unique_strong (key_le fst)).
  + intros x1 x2 Hx1 Hx2. rewrite elem_of_sorted_on in Hx1. unfold key_le.
    rewrite !Is_true_true. intros. eapply keys_unique; [done..|]. by apply py_le_antisym.
  + apply sorted_on_StronglySorted.
  + apply sorted_on_StronglySorted.
  + apply sorted_on_Permutation.
Qed.

(** Decoding the canonical encoding gives the value back, its keys sorted. *)
Lemma loads_canonical j : json_wf j -> loads (canonical_json j) = Some (canon j).
Proof. intros. by apply loads_print, canon_wf. Qed.

(** The canonical encoding determines the value up to the order of keys. *)
Lemma canonical_json_inj j1 j2 :
json_wf j1 -> json_wf j2 -> canonical_json j1 = canonical_json j2 -> canon j1 = canon j2.
Proof.
intros H1 H2 E. apply (f_equal loads) in E.
rewrite !loads_canonical in E by done. by injection E.
Qed.
