(* ===== verification/DateTime.v ===== *)
(** * Timestamps

    The part of Python's [datetime] that the orchestrator uses.  A value is
    its wall clock in microseconds since 0001-01-01T00:00:00 and its UTC
    offset in microseconds ([None] for a naive value); the zone of an aware
    value is a fixed offset.  At the end, the reading of what [isoformat] writes. *)
From S2P Require Import Prelude PyStr.

Local Open Scope Z_scope.
#[local] Ltac Zify.zify_post_hook ::= Z.div_mod_to_equations.

Record datetime := DT { dt_wall : Z; dt_offset : option Z }.

#[export] Instance datetime_eq_dec : EqDecision datetime.
Proof. solve_decision. Defined.

Definition us_second : Z := 1000000.
Definition us_day : Z := 86400 * us_second.
(** 9999-12-31 is the last day. *)
Definition max_ordinal : Z := 3652059.
Definition wall_in_range (w : Z) : bool := (0 <=? w) && (w <? max_ordinal * us_day).

Definition dt_aware (d : datetime) : bool := bool_decide (is_Some (dt_offset d)).

(** The instant of an aware value; aware values compare by it. *)
Definition instant (d : datetime) : Z := dt_wall d - default 0 (dt_offset d).
Definition dt_lt (a b : datetime) : bool := instant a <? instant b.
Definition dt_le (a b : datetime) : bool := instant a <=? instant b.

(** What the [datetime] constructor guarantees: the wall clock is in range and
    the offset is strictly between -24 and 24 hours. *)
Definition dt_wf (d : datetime) : Prop :=
  wall_in_range (dt_wall d) = true /\
  match dt_offset d with None => True | Some o => - us_day < o < us_day end.

(** [d + timedelta(seconds=s)] *)
Definition dt_add_seconds (d : datetime) (s : Z) : result datetime :=
  let w := dt_wall d + s * us_second in
  if wall_in_range w then Ok (DT w (dt_offset d))
  else Err (Exn OverflowError "date value out of range").

(** [d + delta], for a [timedelta] in microseconds *)
Definition dt_add_timedelta (d : datetime) (delta : Z) : result datetime :=
  let w := dt_wall d + delta in
  if wall_in_range w then Ok (DT w (dt_offset d))
  else Err (Exn OverflowError "date value out of range").

(** [d.replace(tzinfo=None) - d.utcoffset()], given the zone UTC; [None] is the
    [OverflowError] of a result outside the calendar. *)
Definition dt_to_utc (d : datetime) : option datetime :=
  if wall_in_range (instant d) then Some (DT (instant d) (Some 0)) else None.

(** ** The proleptic Gregorian calendar *)

Definition is_leap (y : Z) : bool :=
  (y mod 4 =? 0) && (negb (y mod 100 =? 0) || (y mod 400 =? 0)).

Definition days_in_month (leap : bool) (m : Z) : Z :=
  if (m =? 2) then (if leap then 29 else 28)
  else if (m =? 4) || (m =? 6) || (m =? 9) || (m =? 11) then 30 else 31.

Definition days_before_month_table : list Z :=
  [-1; 0; 31; 59; 90; 120; 151; 181; 212; 243; 273; 304; 334].
Definition days_before_month (leap : bool) (m : Z) : Z :=
  nth (Z.to_nat m) days_before_month_table 0 + (if (2 <? m) && leap then 1 else 0).
Definition days_before_year (y : Z) : Z :=
  let y := y - 1 in y * 365 + y / 4 - y / 100 + y / 400.

Definition ymd2ord (y m d : Z) : Z :=
  days_before_year y + days_before_month (is_leap y) m + d.

(** Month and day of the day number [n] (from 0) of a year. *)
Definition month_day (leap : bool) (n : Z) : Z * Z :=
  let month := Z.shiftr (n + 50) 5 in
  let preceding := days_before_month leap month in
  if preceding >? n then
    let month := month - 1 in (month, n - (preceding - days_in_month leap month) + 1)
  else (month, n - preceding + 1).

Definition ord2ymd (n : Z) : Z * Z * Z :=
  let n := n - 1 in
  let n400 := n / 146097 in let n := n mod 146097 in
  let n100 := n / 36524 in let n := n mod 36524 in
  let n4 := n / 1461 in let n := n mod 1461 in
  let n1 := n / 365 in let n := n mod 365 in
  let year := n400 * 400 + 1 + n100 * 100 + n4 * 4 + n1 in
  if (n1 =? 4) || (n100 =? 4) then (year - 1, 12, 31)
  else
    let leap := (n1 =? 3) && (negb (n4 =? 24) || (n100 =? 3)) in
    let '(m, d) := month_day leap n in (year, m, d).

(** ** ISO 8601 text *)

(** ["%0nd" % z] for [0 <= z < 10 ** n]. *)
Fixpoint fixed (n : nat) (z : Z) : string :=
  match n with
  | O => EmptyString
  | S n => String (chr (Z.to_nat (48 + (z / 10 ^ Z.of_nat n) mod 10))) (fixed n z)
  end.

Definition iso_date (w : Z) : string :=
  let '(y, m, d) := ord2ymd (w / us_day + 1) in
  fixed 4 y +:+ "-" +:+ fixed 2 m +:+ "-" +:+ fixed 2 d.

(** Hours, minutes and seconds of a duration below 100 hours. *)
Definition hms (us : Z) : string :=
  let s := us / us_second in
  fixed 2 (s / 3600) +:+ ":" +:+ fixed 2 (s / 60 mod 60) +:+ ":" +:+ fixed 2 (s mod 60).

Definition iso_offset (o : Z) : string :=
  let a := Z.abs o in
  let s := a / us_second in
  let sign := if o <? 0 then "-"%string else "+"%string in
  let micros := if a mod us_second =? 0 then EmptyString
                else "." +:+ fixed 6 (a mod us_second) in
  let seconds := if (s mod 60 =? 0) && (a mod us_second =? 0) then EmptyString
                 else ":" +:+ fixed 2 (s mod 60) +:+ micros in
  sign +:+ fixed 2 (s / 3600) +:+ ":" +:+ fixed 2 (s / 60 mod 60) +:+ seconds.

(** [d.isoformat()]; [micro] is [timespec="microseconds"]. *)
Definition isoformat (micro : bool) (d : datetime) : string :=
  let t := dt_wall d mod us_day in
  let us := t mod us_second in
  let fraction := if micro || negb (us =? 0) then "." +:+ fixed 6 us else EmptyString in
  let zone := match dt_offset d with None => EmptyString | Some o => iso_offset o end in
  iso_date (dt_wall d) +:+ "T" +:+ hms t +:+ fraction +:+ zone.

(** ** Facts *)

Lemma month_day_ok (leap : bool) (n : Z) :
  0 <= n <= (if leap then 365 else 364)%Z ->
  let '(m, d) := month_day leap n in
  days_before_month leap m + d = n + 1 /\ 1 <= m <= 12 /\ 1 <= d <= 31.
Proof.
  intros Hn.
  assert (forallb (fun i => let n := Z.of_nat i in
    let '(m, d) := month_day leap n in
    (days_before_month leap m + d =? n + 1) && ((1 <=? m) && (m <=? 12)) &&
    ((1 <=? d) && (d <=? 31))) (seq 0 (if leap then 366 else 365)) = true) as Hall
    by (destruct leap; vm_compute; reflexivity).
  rewrite forallb_forall in Hall. specialize (Hall (Z.to_nat n)).
  cbv beta zeta in Hall. rewrite in_seq, Z2Nat.id in Hall by lia.
  destruct (month_day leap n) as [m d].
  assert (0 <= Z.to_nat n < 0 + (if leap then 366 else 365))%nat as Hr by (destruct leap; lia).
  apply Hall in Hr. rewrite !andb_true_iff in Hr. lia.
Qed.

(** The start of a year given by its 400-, 100-, 4- and 1-year cycles. *)
Lemma days_before_year_cycles a b c d :
  0 <= b <= 3 -> 0 <= c <= 24 -> 0 <= d <= 3 ->
  days_before_year (a * 400 + 1 + b * 100 + c * 4 + d) =
    146097 * a + 36524 * b + 1461 * c + 365 * d.
Proof.
  intros. unfold days_before_year. cbv zeta.
  assert ((a * 400 + 1 + b * 100 + c * 4 + d - 1) / 4 = 100 * a + 25 * b + c) as -> by lia.
  assert ((a * 400 + 1 + b * 100 + c * 4 + d - 1) / 100 = 4 * a + b) as -> by lia.
  assert ((a * 400 + 1 + b * 100 + c * 4 + d - 1) / 400 = a) as -> by lia.
  lia.
Qed.

Lemma is_leap_cycles a b c d :
  0 <= b <= 3 -> 0 <= c <= 24 -> 0 <= d <= 3 ->
  is_leap (a * 400 + 1 + b * 100 + c * 4 + d) = ((d =? 3) && (negb (c =? 24) || (b =? 3))).
Proof.
  intros. unfold is_leap. apply eq_bool_prop_intro.
  rewrite !Is_true_true, !andb_true_iff, !orb_true_iff, !negb_true_iff, !Z.eqb_eq, !Z.eqb_neq.
  split; intros [Hd Hbc]; (split; [lia|]); destruct Hbc; lia.
Qed.

(** The calendar conversion is inverted by [ymd2ord]. *)
Lemma ymd2ord_ord2ymd n :
  1 <= n -> let '(y, m, d) := ord2ymd n in
    ymd2ord y m d = n /\ days_before_year y < n /\ 0 < y /\ 1 <= m <= 12 /\ 1 <= d <= 31.
Proof.
  intros Hn. unfold ord2ymd. cbv zeta.
  set (n0 := n - 1). set (a := n0 / 146097). set (r0 := n0 mod 146097).
  set (b := r0 / 36524). set (r1 := r0 mod 36524).
  set (c := r1 / 1461). set (r2 := r1 mod 1461).
  set (d := r2 / 365). set (r3 := r2 mod 365).
  assert (n0 = n - 1) as En by done.
  assert (n0 = 146097 * a + r0 /\ 0 <= r0 < 146097) as [E0 H0] by (subst a r0; lia).
  assert (r0 = 36524 * b + r1 /\ 0 <= r1 < 36524) as [E1 H1] by (subst b r1; lia).
  assert (r1 = 1461 * c + r2 /\ 0 <= r2 < 1461) as [E2 H2] by (subst c r2; lia).
  assert (r2 = 365 * d + r3 /\ 0 <= r3 < 365) as [E3 H3] by (subst d r3; lia).
  clearbody n0 a r0 b r1 c r2 d r3. unfold ymd2ord.
  destruct (d =? 4) eqn:Ed; simpl.
  { apply Z.eqb_eq in Ed as ->.
    replace (a * 400 + 1 + b * 100 + c * 4 + 4 - 1) with (a * 400 + 1 + b * 100 + c * 4 + 3) by lia.
    rewrite days_before_year_cycles, is_leap_cycles by lia. simpl.
    replace (c =? 24) with false by lia. simpl. change (days_before_month true 12) with 335. lia. }
  apply Z.eqb_neq in Ed. destruct (b =? 4) eqn:Eb; simpl.
  { apply Z.eqb_eq in Eb as ->. assert (c = 0 /\ d = 0) as [-> ->] by lia.
    replace (a * 400 + 1 + 4 * 100 + 0 * 4 + 0 - 1) with (a * 400 + 1 + 3 * 100 + 24 * 4 + 3) by lia.
    rewrite days_before_year_cycles, is_leap_cycles by lia. simpl.
    change (days_before_month true 12) with 335. lia. }
  apply Z.eqb_neq in Eb. rewrite <- (is_leap_cycles a b c d) by lia.
  pose proof (month_day_ok (is_leap (a * 400 + 1 + b * 100 + c * 4 + d)) r3) as Hm.
  destruct (month_day _ r3) as [m dd]. rewrite days_before_year_cycles by lia.
  destruct (is_leap _); destruct Hm as (Hm & ? & ?); lia.
Qed.

(** *** Texts determine values *)

Lemma fixed_app_inj n z1 z2 s1 s2 :
  0 <= z1 < 10 ^ Z.of_nat n -> 0 <= z2 < 10 ^ Z.of_nat n ->
  fixed n z1 +:+ s1 = fixed n z2 +:+ s2 -> z1 = z2 /\ s1 = s2.
Proof.
  intros Hz1 Hz2 H.
  enough (z1 mod 10 ^ Z.of_nat n = z2 mod 10 ^ Z.of_nat n /\ s1 = s2) as [E ->]
    by (rewrite !Z.mod_small in E by done; done).
  clear Hz1 Hz2. induction n as [|n IH]; [simpl in *; split; [lia|done]|].
  cbn [fixed] in H. rewrite !str_app_cons in H. injection H as H0 H.
  destruct (IH H) as [IHz ->]. split; [|done].
  set (p := 10 ^ Z.of_nat n) in *. assert (0 < p) by (subst p; lia).
  assert (forall d, 0 <= d < 10 -> code (chr (Z.to_nat (48 + d))) = 48 + d) as Hd.
  { intros d Hd. assert (Z.to_nat (48 + d) < 256)%nat by lia.
    pose proof (nat_ascii_embedding (Z.to_nat (48 + d))) as Hn.
    unfold nat_of_ascii in Hn. unfold code, chr. lia. }
  apply (f_equal code) in H0. rewrite !Hd in H0 by lia.
  rewrite Nat2Z.inj_succ, Z.pow_succ_r by lia. fold p. rewrite (Z.mul_comm 10).
  rewrite !Z.rem_mul_r by lia. lia.
Qed.

Lemma iso_date_inj w1 w2 s1 s2 :
  wall_in_range w1 = true -> wall_in_range w2 = true ->
  iso_date w1 +:+ s1 = iso_date w2 +:+ s2 -> w1 / us_day = w2 / us_day /\ s1 = s2.
Proof.
  unfold wall_in_range, max_ordinal, iso_date. change us_day with 86400000000.
  rewrite !andb_true_iff, !Z.leb_le, !Z.ltb_lt. intros Hw1 Hw2.
  set (n1 := w1 / _). set (n2 := w2 / _).
  assert (1 <= n1 + 1 <= 3652059 /\ 1 <= n2 + 1 <= 3652059) as [Hn1 Hn2] by (subst n1 n2; lia).
  pose proof (ymd2ord_ord2ymd (n1 + 1)) as H1. pose proof (ymd2ord_ord2ymd (n2 + 1)) as H2.
  destruct (ord2ymd (n1 + 1)) as [[y1 m1] d1], (ord2ymd (n2 + 1)) as [[y2 m2] d2].
  destruct H1 as (H1 & ? & ? & ? & ?); [lia|]. destruct H2 as (H2 & ? & ? & ? & ?); [lia|].
  assert (y1 < 10000 /\ y2 < 10000) by (unfold days_before_year in *; lia).
  rewrite !str_app_assoc. change (10 ^ Z.of_nat 2) with 100 in *. intros Heq.
  apply fixed_app_inj in Heq as [Ey Heq]; [|simpl; lia..]. apply (inj (String.append _)) in Heq.
  apply fixed_app_inj in Heq as [Em Heq]; [|simpl; lia..]. apply (inj (String.append _)) in Heq.
  apply fixed_app_inj in Heq as [Ed Heq]; [|simpl; lia..]. split; [|done]. subst y2 m2 d2. rewrite H1 in H2. lia.
Qed.

Lemma hms_inj t1 t2 s1 s2 :
  0 <= t1 < us_day -> 0 <= t2 < us_day ->
  hms t1 +:+ s1 = hms t2 +:+ s2 -> t1 / us_second = t2 / us_second /\ s1 = s2.
Proof.
  unfold hms. change us_day with 86400000000. change us_second with 1000000.
  intros Ht1 Ht2. cbv zeta. rewrite !str_app_assoc. intros H.
  apply fixed_app_inj in H as [Eh H]; [|simpl; lia..]. apply (inj (String.append _)) in H.
  apply fixed_app_inj in H as [Em H]; [|simpl; lia..]. apply (inj (String.append _)) in H.
  apply fixed_app_inj in H as [Es H]; [|simpl; lia..]. split; [|done]. lia.
Qed.

(** The microsecond ISO text of a UTC value determines it. *)
Lemma iso_utc_inj w1 w2 :
  wall_in_range w1 = true -> wall_in_range w2 = true ->
  isoformat true (DT w1 (Some 0)) = isoformat true (DT w2 (Some 0)) -> w1 = w2.
Proof.
  intros Hw1 Hw2. unfold isoformat. cbn [dt_wall dt_offset orb]. intros H.
  apply iso_date_inj in H as [Ed H]; [|done..]. apply (inj (String.append _)) in H.
  assert (0 < us_day) by done.
  apply hms_inj in H as [Es H]; [|apply Z.mod_pos_bound; lia..].
  rewrite !str_app_assoc in H. apply (inj (String.append _)) in H.
  apply fixed_app_inj in H as [Eu _]; [|apply Z.mod_pos_bound; done..].
  change us_day with 86400000000 in *. change us_second with 1000000 in *. lia.
Qed.

(** Everything before the zone of an ISO text of a UTC value is free of plus signs. *)
Lemma fixed_not_plus n z : str_forallb not_plus (fixed n z) = true.
Proof.
  induction n as [|n IH]; [done|]. cbn [fixed str_forallb]. rewrite IH, andb_true_r.
  assert (0 <= (z / 10 ^ Z.of_nat n) mod 10 < 10) as H by (apply Z.mod_pos_bound; lia).
  generalize dependent ((z / 10 ^ Z.of_nat n) mod 10). intros d Hd.
  assert (d = 0 \/ d = 1 \/ d = 2 \/ d = 3 \/ d = 4 \/ d = 5 \/ d = 6 \/ d = 7 \/ d = 8 \/ d = 9)
    as Hd' by lia. by repeat destruct Hd' as [->|Hd']; subst.
Qed.

(** The text of a UTC value with the zone written [Z]. *)
Definition iso_z (w : Z) : string :=
  let t := w mod us_day in
  iso_date w +:+ "T" +:+ hms t +:+ "." +:+ fixed 6 (t mod us_second) +:+ "Z".

Lemma iso_utc_replace w :
  py_replace "+00:00" "Z" (isoformat true (DT w (Some 0))) = iso_z w.
Proof.
  unfold isoformat, iso_z. cbn [dt_wall dt_offset orb].
  change (iso_offset 0) with "+00:00"%string.
  set (s := iso_date w +:+ "T" +:+ hms (w mod us_day) +:+ "." +:+ fixed 6 ((w mod us_day) mod us_second)).
  transitivity (py_replace "+00:00" "Z" (s +:+ "+00:00")).
  { unfold s. f_equal. by rewrite !str_app_assoc. }
  rewrite replace_utc_suffix.
  - unfold s. by rewrite !str_app_assoc.
  - unfold s, hms, iso_date. destruct (ord2ymd _) as [[y m] d].
    rewrite !str_forallb_app, !fixed_not_plus. done.
Qed.

Lemma iso_z_inj w1 w2 :
  wall_in_range w1 = true -> wall_in_range w2 = true -> iso_z w1 = iso_z w2 -> w1 = w2.
Proof.
  intros H1 H2 E. apply iso_utc_inj; [done|done|]. unfold isoformat. cbn [dt_wall dt_offset orb].
  unfold iso_z in E. change "Z"%string with (String "Z" "") in E.
  rewrite <- !str_app_assoc in E. apply str_app_inj_r in E. rewrite !str_app_assoc in E.
  change (iso_offset 0) with "+00:00"%string. rewrite <- !str_app_assoc.
  f_equal. by rewrite !str_app_assoc.
Qed.

Example iso_epoch : isoformat true (DT 62135596800000000 (Some 0)) =
  "1970-01-01T00:00:00.000000+00:00"%string.
Proof. vm_compute. reflexivity. Qed.
Example iso_offset_example : isoformat false (DT 63909684245000000 (Some (-19800000000))) =
  "2026-03-21T10:04:05-05:30"%string.
Proof. vm_compute. reflexivity. Qed.

(** * Reading timestamps back

    [datetime.fromisoformat] on the texts that [isoformat] writes.  Python also
    reads other ISO 8601 spellings; the store re-encodes every decoded record
    and compares it with the stored text, so those never survive there. *)

Definition digit_value (c : ascii) : option Z :=
  let n := code c in if (48 <=? n) && (n <=? 57) then Some (n - 48) else None.

(** Exactly [n] digits, after a number [acc]. *)
Fixpoint read_fixed (n : nat) (acc : Z) (s : string) : option (Z * string) :=
  match n, s with
  | O, _ => Some (acc, s)
  | S n, String c s => d ← digit_value c; read_fixed n (acc * 10 + d) s
  | S _, EmptyString => None
  end.

Definition expect (c : ascii) (s : string) : option string :=
  match s with
  | String c' s => if bool_decide (c' = c) then Some s else None
  | EmptyString => None
  end.

(** [.ffffff], when there is one. *)
Definition read_fraction (s : string) : option (Z * string) :=
  match expect "." s with Some s => read_fixed 6 0 s | None => Some (0, s) end.

(** [:SS[.ffffff]] of an offset, when there is one. *)
Definition read_offset_seconds (s : string) : option (Z * string) :=
  match expect ":" s with
  | Some s => '(sec, s) ← read_fixed 2 0 s; '(us, s) ← read_fraction s; Some (sec * us_second + us, s)
  | None => Some (0, s)
  end.

Definition read_offset (s : string) : option (option Z * string) :=
  match s with
  | EmptyString => Some (None, s)
  | String c s =>
    sign ← (if bool_decide (c = "+"%char) then Some 1
            else if bool_decide (c = "-"%char) then Some (-1) else None);
    '(h, s) ← read_fixed 2 0 s; s ← expect ":" s; '(m, s) ← read_fixed 2 0 s;
    '(us, s) ← read_offset_seconds s;
    Some (Some (sign * ((h * 60 + m) * 60 * us_second + us)), s)
  end.

Definition read_iso (s : string) : option datetime :=
  '(y, s) ← read_fixed 4 0 s; s ← expect "-" s; '(mo, s) ← read_fixed 2 0 s; s ← expect "-" s;
  '(d, s) ← read_fixed 2 0 s; s ← expect "T" s;
  '(h, s) ← read_fixed 2 0 s; s ← expect ":" s; '(mi, s) ← read_fixed 2 0 s; s ← expect ":" s;
  '(sec, s) ← read_fixed 2 0 s; '(us, s) ← read_fraction s; '(o, s) ← read_offset s;
  if str_empty s
  then Some (DT ((ymd2ord y mo d - 1) * us_day + ((h * 60 + mi) * 60 + sec) * us_second + us) o)
  else None.

Definition dt_wf_b (d : datetime) : bool :=
  wall_in_range (dt_wall d) &&
  match dt_offset d with None => true | Some o => (- us_day <? o) && (o <? us_day) end.

(** [datetime.fromisoformat(s)] *)
Definition fromisoformat (s : string) : result datetime :=
  match read_iso s with
  | Some d =>
    if dt_wf_b d && bool_decide (isoformat false d = s) then Ok d
    else Err (Exn ValueError "Invalid isoformat string")
  | None => Err (Exn ValueError "Invalid isoformat string")
  end.

(** ** The round trip *)

Lemma dt_wf_b_iff d : dt_wf_b d = true <-> dt_wf d.
Proof.
  unfold dt_wf_b, dt_wf. rewrite andb_true_iff. destruct (dt_offset d); [|naive_solver].
  by rewrite andb_true_iff, !Z.ltb_lt.
Qed.

Lemma fromisoformat_Ok s d : fromisoformat s = Ok d -> isoformat false d = s /\ dt_wf d.
Proof.
  unfold fromisoformat. destruct (read_iso s) as [d'|]; [|done].
  destruct (_ && _) eqn:E; [|done]. intros <-%Ok_inj.
  apply andb_true_iff in E as [Hw E]. apply bool_decide_eq_true in E. by apply dt_wf_b_iff in Hw.
Qed.

Lemma digit_value_fixed d : 0 <= d < 10 -> digit_value (chr (Z.to_nat (48 + d))) = Some d.
Proof.
  intros Hd.
  assert (d = 0 \/ d = 1 \/ d = 2 \/ d = 3 \/ d = 4 \/ d = 5 \/ d = 6 \/ d = 7 \/ d = 8 \/ d = 9)
    as Hd' by lia. by repeat destruct Hd' as [->|Hd']; subst.
Qed.

Lemma read_fixed_fixed n z acc rest :
  0 <= z < 10 ^ Z.of_nat n ->
  read_fixed n acc (fixed n z +:+ rest) = Some (acc * 10 ^ Z.of_nat n + z, rest).
Proof.
  intros Hz. rewrite <- (Z.mod_small z (10 ^ Z.of_nat n)) at 2 by done. clear Hz.
  revert acc. induction n as [|n IH]; intros acc.
  { cbn. by rewrite Z.mod_1_r, Z.add_0_r, Z.mul_1_r. }
  cbn [fixed]. rewrite str_app_cons. cbn [read_fixed].
  rewrite digit_value_fixed by (apply Z.mod_pos_bound; lia). cbn [mbind option_bind].
  rewrite IH. do 2 f_equal. rewrite Nat2Z.inj_succ, Z.pow_succ_r by lia.
  set (p := 10 ^ Z.of_nat n). assert (0 < p) by (subst p; lia).
  rewrite (Z.mul_comm 10 p), Z.rem_mul_r by lia. lia.
Qed.

Lemma expect_cons c s : expect c (String c s) = Some s.
Proof. simpl. by rewrite bool_decide_eq_true_2. Qed.

Lemma read_fraction_iso us rest :
  0 <= us < 1000000 -> expect "." rest = None ->
  read_fraction ((if negb (us =? 0) then "." +:+ fixed 6 us else EmptyString) +:+ rest) =
    Some (us, rest).
Proof.
  intros Hus Hr. destruct (us =? 0) eqn:E; cbn [negb].
  - apply Z.eqb_eq in E as ->. change (EmptyString +:+ rest) with rest.
    unfold read_fraction. by rewrite Hr.
  - change ("." +:+ fixed 6 us) with (String "." (fixed 6 us)). rewrite str_app_cons.
    unfold read_fraction. rewrite expect_cons. by rewrite read_fixed_fixed.
Qed.

Lemma read_offset_seconds_iso a :
  0 <= a < us_day ->
  read_offset_seconds
    (let s := a / us_second in
     let micros := if a mod us_second =? 0 then EmptyString else "." +:+ fixed 6 (a mod us_second) in
     if (s mod 60 =? 0) && (a mod us_second =? 0) then EmptyString
     else ":" +:+ fixed 2 (s mod 60) +:+ micros) = Some (a mod (60 * us_second), EmptyString).
Proof.
  change us_day with 86400000000. change us_second with 1000000. intros Ha. cbv zeta.
  set (s := a / 1000000). set (us := a mod 1000000).
  assert (0 <= us < 1000000) as Hus by (subst us; lia).
  assert (0 <= s mod 60 < 60) as Hs by lia.
  assert (a mod (60 * 1000000) = (s mod 60) * 1000000 + us) as ->
    by (subst s us; rewrite (Z.mul_comm 60), Z.rem_mul_r by lia; lia).
  destruct ((s mod 60 =? 0) && (us =? 0)) eqn:E.
  { apply andb_true_iff in E as [E1%Z.eqb_eq E2%Z.eqb_eq]. rewrite E1, E2. reflexivity. }
  change (":" +:+ ?x) with (String ":" x). unfold read_offset_seconds. rewrite expect_cons.
  rewrite read_fixed_fixed by (simpl; lia). cbn [mbind option_bind].
  pose proof (read_fraction_iso us EmptyString Hus eq_refl) as Hf.
  assert (forall x, x +:+ EmptyString = x) as Hnil
    by (intros x; induction x as [|c x IH]; [done|]; by rewrite str_app_cons, IH).
  rewrite Hnil in Hf. destruct (us =? 0); cbn [negb] in Hf; rewrite Hf;
    cbn [mbind option_bind]; do 2 f_equal; change us_second with 1000000; lia.
Qed.

Lemma read_offset_iso o :
  - us_day < o < us_day -> read_offset (iso_offset o) = Some (Some o, EmptyString).
Proof.
  intros Ho. unfold iso_offset. cbv zeta. set (a := Z.abs o).
  assert (0 <= a < us_day) as Ha by (subst a; lia).
  pose proof (read_offset_seconds_iso a Ha) as Hsec. cbv zeta in Hsec.
  set (tail := if _ && _ then _ else _) in *. clearbody tail.
  assert (0 <= a / us_second / 3600 < 24 /\ 0 <= a / us_second / 60 mod 60 < 60) as [Hh Hm]
    by (change us_day with 86400000000 in Ha; change us_second with 1000000; lia).
  assert ((a / us_second / 3600 * 60 + a / us_second / 60 mod 60) * 60 * us_second +
    a mod (60 * us_second) = a) as Hsum.
  { change us_second with 1000000. rewrite (Z.mul_comm 60), Z.rem_mul_r by lia. lia. }
  destruct (o <? 0) eqn:E; change (?x +:+ (?y +:+ ?z)) with (x +:+ y +:+ z).
  all: match goal with |- read_offset (String ?c "" +:+ ?x) = _ =>
         change (String c "" +:+ x) with (String c x) end.
  all: cbn [read_offset]; cbn [bool_decide decide]; cbn -[read_fixed fixed].
  all: rewrite read_fixed_fixed by (simpl; lia); cbn [mbind option_bind].
  all: change (":" +:+ ?x) with (String ":" x); rewrite expect_cons; cbn [mbind option_bind].
  all: rewrite read_fixed_fixed by (simpl; lia); cbn [mbind option_bind].
  all: rewrite Hsec; cbn [mbind option_bind].
  all: rewrite !Z.mul_0_l, !Z.add_0_l, Hsum.
  - change (Some (Some (-1 * a), "") = Some (Some o, "")). apply Z.ltb_lt in E.
    do 3 f_equal. subst a. lia.
  - change (Some (Some (1 * a), "") = Some (Some o, "")). apply Z.ltb_ge in E.
    do 3 f_equal. subst a. lia.
Qed.

Lemma iso_offset_head o : exists c s, iso_offset o = String c s /\ expect "." (String c s) = None.
Proof. unfold iso_offset. cbv zeta. destruct (o <? 0); by eexists _, _. Qed.

(** Reading an ISO text back gives the value it was written from. *)
Lemma fromisoformat_isoformat d : dt_wf d -> fromisoformat (isoformat false d) = Ok d.
Proof.
  intros Hwf. destruct d as [w o]. destruct Hwf as [Hw Ho]. cbn [dt_wall dt_offset] in Hw, Ho.
  assert (read_iso (isoformat false (DT w o)) = Some (DT w o)) as E.
  2:{ unfold fromisoformat. rewrite E, bool_decide_eq_true_2 by done.
      by rewrite (proj2 (dt_wf_b_iff (DT w o)) (conj Hw Ho)). }
  unfold wall_in_range, max_ordinal in Hw. change us_day with 86400000000 in Hw.
  rewrite andb_true_iff, Z.leb_le, Z.ltb_lt in Hw.
  unfold isoformat, iso_date. cbn [dt_wall dt_offset orb]. change us_day with 86400000000.
  pose proof (ymd2ord_ord2ymd (w / 86400000000 + 1)) as Hymd.
  destruct (ord2ymd _) as [[y mo] d]. destruct Hymd as (Hord & Hby & ? & ? & ?); [lia|].
  assert (y < 10000) by (unfold days_before_year in *; lia).
  set (t := w mod 86400000000). assert (0 <= t < 86400000000) as Ht by (subst t; lia).
  unfold hms. cbv zeta. change us_second with 1000000.
  set (us := t mod 1000000). assert (0 <= us < 1000000) as Hus by (subst us; lia).
  set (zone := match o with None => _ | Some _ => _ end).
  assert (read_offset zone = Some (o, EmptyString) /\ expect "." zone = None) as [Hz Hdot].
  { unfold zone. destruct o as [o|]; [|done]. split; [by apply read_offset_iso|].
    destruct (iso_offset_head o) as (c & s & -> & Hc). done. }
  assert (0 <= t / 1000000 < 86400) as Hsec by lia.
  rewrite !str_app_assoc. unfold read_iso. clearbody zone.
  repeat (rewrite read_fixed_fixed by (simpl; lia); cbn [mbind option_bind];
    try match goal with |- context [expect ?c (String ?c "" +:+ ?x)] =>
      change (String c "" +:+ x) with (String c x); rewrite expect_cons; cbn [mbind option_bind] end).
  rewrite read_fraction_iso by done. cbn [mbind option_bind]. rewrite Hz. cbn [mbind option_bind].
  change (str_empty "") with true. cbv iota. do 2 f_equal. rewrite !Z.mul_0_l, !Z.add_0_l, Hord.
  change us_day with 86400000000. change us_second with 1000000.
  subst us t. lia.
Qed.
