(* ===== verification/Enums.v ===== *)
(** * Orchestrator enumerations (backend/orchestrator/models.py)

  Each [class X(str, Enum)] is a module [X] with its members, its decidable
  equality and the [value] of each member, which messages and digests use. *)
From S2P Require Import Prelude.

Local Open Scope string_scope.

Module RunPhase.
Inductive t :=
  | DRAFT
  | CLARIFYING
  | AWAITING_PLAN_APPROVAL
  | READY
  | EXECUTING
  | AWAITING_CHANGE_APPROVAL
  | VERIFYING
  | COMPLETED
  | FAILED
  | CANCELLED.

#[global] Instance eq_dec : EqDecision t.
Proof. solve_decision. Defined.

Definition value (x : t) : string :=
  match x with
  | DRAFT => "draft"
  | CLARIFYING => "clarifying"
  | AWAITING_PLAN_APPROVAL => "awaiting_plan_approval"
  | READY => "ready"
  | EXECUTING => "executing"
  | AWAITING_CHANGE_APPROVAL => "awaiting_change_approval"
  | VERIFYING => "verifying"
  | COMPLETED => "completed"
  | FAILED => "failed"
  | CANCELLED => "cancelled"
  end.

Lemma RunPhase_value_inj x y : value x = value y -> x = y.
Proof. by destruct x, y. Qed.
End RunPhase.

Module CoordinationStage.
Inductive t :=
  | QUESTIONING
  | AWAITING_BRIEF_APPROVAL
  | RESEARCH
  | AWAITING_ARCHITECTURE_BOM_APPROVAL
  | SCHEMATIC_STAGE
  | AWAITING_SCHEMATIC_APPROVAL
  | AWAITING_LAYOUT_CONSTRAINT_APPROVAL
  | PLACEMENT_STAGE
  | AWAITING_PLACEMENT_APPROVAL
  | ROUTING_STAGE
  | AWAITING_ROUTING_APPROVAL
  | RELEASE_CHECK
  | AWAITING_RELEASE_APPROVAL
  | RELEASED.

#[global] Instance eq_dec : EqDecision t.
Proof. solve_decision. Defined.

Definition value (x : t) : string :=
  match x with
  | QUESTIONING => "questioning"
  | AWAITING_BRIEF_APPROVAL => "awaiting_brief_approval"
  | RESEARCH => "research"
  | AWAITING_ARCHITECTURE_BOM_APPROVAL => "awaiting_architecture_bom_approval"
  | SCHEMATIC_STAGE => "schematic_stage"
  | AWAITING_SCHEMATIC_APPROVAL => "awaiting_schematic_approval"
  | AWAITING_LAYOUT_CONSTRAINT_APPROVAL => "awaiting_layout_constraint_approval"
  | PLACEMENT_STAGE => "placement_stage"
  | AWAITING_PLACEMENT_APPROVAL => "awaiting_placement_approval"
  | ROUTING_STAGE => "routing_stage"
  | AWAITING_ROUTING_APPROVAL => "awaiting_routing_approval"
  | RELEASE_CHECK => "release_check"
  | AWAITING_RELEASE_APPROVAL => "awaiting_release_approval"
  | RELEASED => "released"
  end.

Lemma CoordinationStage_value_inj x y : value x = value y -> x = y.
Proof. by destruct x, y. Qed.
End CoordinationStage.

Module AgentState.
Inductive t :=
  | QUEUED
  | AVAILABLE
  | LEASED
  | RUNNING
  | OFFLINE
  | FAILED
  | RETIRED.

#[global] Instance eq_dec : EqDecision t.
Proof. solve_decision. Defined.

Definition value (x : t) : string :=
  match x with
  | QUEUED => "queued"
  | AVAILABLE => "available"
  | LEASED => "leased"
  | RUNNING => "running"
  | OFFLINE => "offline"
  | FAILED => "failed"
  | RETIRED => "retired"
  end.

Lemma AgentState_value_inj x y : value x = value y -> x = y.
Proof. by destruct x, y. Qed.
End AgentState.

Module AgentClass.
Inductive t :=
  | COORDINATOR
  | INTERVIEWER
  | RESEARCHER
  | DOMAIN_DESIGNER
  | CRITIC
  | DETERMINISTIC_EXECUTOR
  | VERIFICATION_WORKER
  | RELEASE_REVIEWER.

#[global] Instance eq_dec : EqDecision t.
Proof. solve_decision. Defined.

Definition value (x : t) : string :=
  match x with
  | COORDINATOR => "coordinator"
  | INTERVIEWER => "interviewer"
  | RESEARCHER => "researcher"
  | DOMAIN_DESIGNER => "domain_designer"
  | CRITIC => "critic"
  | DETERMINISTIC_EXECUTOR => "deterministic_executor"
  | VERIFICATION_WORKER => "verification_worker"
  | RELEASE_REVIEWER => "release_reviewer"
  end.

Lemma AgentClass_value_inj x y : value x = value y -> x = y.
Proof. by destruct x, y. Qed.
End AgentClass.

Module RiskClass.
Inductive t :=
  | LOW
  | MEDIUM
  | HIGH
  | CRITICAL.

#[global] Instance eq_dec : EqDecision t.
Proof. solve_decision. Defined.

Definition value (x : t) : string :=
  match x with
  | LOW => "low"
  | MEDIUM => "medium"
  | HIGH => "high"
  | CRITICAL => "critical"
  end.

Lemma RiskClass_value_inj x y : value x = value y -> x = y.
Proof. by destruct x, y. Qed.
End RiskClass.

Module TaskState.
Inductive t :=
  | QUEUED
  | BLOCKED
  | LEASED
  | RUNNING
  | RETRY_WAIT
  | SUCCEEDED
  | FAILED
  | CANCELLED.

#[global] Instance eq_dec : EqDecision t.
Proof. solve_decision. Defined.

Definition value (x : t) : string :=
  match x with
  | QUEUED => "queued"
  | BLOCKED => "blocked"
  | LEASED => "leased"
  | RUNNING => "running"
  | RETRY_WAIT => "retry_wait"
  | SUCCEEDED => "succeeded"
  | FAILED => "failed"
  | CANCELLED => "cancelled"
  end.

Lemma TaskState_value_inj x y : value x = value y -> x = y.
Proof. by destruct x, y. Qed.
End TaskState.

Module TaskKind.
Inductive t :=
  | RESEARCH
  | DESIGN
  | IMPLEMENT
  | VERIFY
  | REVIEW
  | SYNTHESIZE.

#[global] Instance eq_dec : EqDecision t.
Proof. solve_decision. Defined.

Definition value (x : t) : string :=
  match x with
  | RESEARCH => "research"
  | DESIGN => "design"
  | IMPLEMENT => "implement"
  | VERIFY => "verify"
  | REVIEW => "review"
  | SYNTHESIZE => "synthesize"
  end.

Lemma TaskKind_value_inj x y : value x = value y -> x = y.
Proof. by destruct x, y. Qed.
End TaskKind.

Module QuestionState.
Inductive t :=
  | OPEN
  | ANSWERED
  | WITHDRAWN.

#[global] Instance eq_dec : EqDecision t.
Proof. solve_decision. Defined.

Definition value (x : t) : string :=
  match x with
  | OPEN => "open"
  | ANSWERED => "answered"
  | WITHDRAWN => "withdrawn"
  end.

Lemma QuestionState_value_inj x y : value x = value y -> x = y.
Proof. by destruct x, y. Qed.
End QuestionState.

Module ApprovalKind.
Inductive t :=
  | BRIEF
  | ARCHITECTURE_BOM
  | SCHEMATIC
  | LAYOUT_CONSTRAINTS
  | PLACEMENT
  | ROUTING
  | RELEASE
  | PLAN
  | CHANGESET
  | EXCEPTION.

#[global] Instance eq_dec : EqDecision t.
Proof. solve_decision. Defined.

Definition value (x : t) : string :=
  match x with
  | BRIEF => "brief"
  | ARCHITECTURE_BOM => "architecture_bom"
  | SCHEMATIC => "schematic"
  | LAYOUT_CONSTRAINTS => "layout_constraints"
  | PLACEMENT => "placement"
  | ROUTING => "routing"
  | RELEASE => "release"
  | PLAN => "plan"
  | CHANGESET => "changeset"
  | EXCEPTION => "exception"
  end.

Lemma ApprovalKind_value_inj x y : value x = value y -> x = y.
Proof. by destruct x, y. Qed.
End ApprovalKind.

Module ApprovalState.
Inductive t :=
  | REQUESTED
  | APPROVED
  | REJECTED
  | EXPIRED
  | REVOKED.

#[global] Instance eq_dec : EqDecision t.
Proof. solve_decision. Defined.

Definition value (x : t) : string :=
  match x with
  | REQUESTED => "requested"
  | APPROVED => "approved"
  | REJECTED => "rejected"
  | EXPIRED => "expired"
  | REVOKED => "revoked"
  end.

Lemma ApprovalState_value_inj x y : value x = value y -> x = y.
Proof. by destruct x, y. Qed.
End ApprovalState.

Module EvidenceKind.
Inductive t :=
  | USER_RESPONSE
  | TOOL_OUTPUT
  | ARTIFACT
  | DESIGN_CHECK
  | TEST_RESULT
  | MODEL_TRACE
  | APPROVAL_RECEIPT.

#[global] Instance eq_dec : EqDecision t.
Proof. solve_decision. Defined.

Definition value (x : t) : string :=
  match x with
  | USER_RESPONSE => "user_response"
  | TOOL_OUTPUT => "tool_output"
  | ARTIFACT => "artifact"
  | DESIGN_CHECK => "design_check"
  | TEST_RESULT => "test_result"
  | MODEL_TRACE => "model_trace"
  | APPROVAL_RECEIPT => "approval_receipt"
  end.

Lemma EvidenceKind_value_inj x y : value x = value y -> x = y.
Proof. by destruct x, y. Qed.
End EvidenceKind.

Module EventType.
Inductive t :=
  | RUN_CREATED
  | RUN_PHASE_CHANGED
  | QUESTION_OPENED
  | QUESTION_ANSWERED
  | APPROVAL_REQUESTED
  | APPROVAL_DECIDED
  | TASK_QUEUED
  | TASK_LEASED
  | TASK_HEARTBEAT
  | TASK_RETRY_SCHEDULED
  | TASK_SUCCEEDED
  | TASK_FAILED
  | LEASE_EXPIRED
  | EVIDENCE_CAPTURED
  | BUDGET_CHANGED.

#[global] Instance eq_dec : EqDecision t.
Proof. solve_decision. Defined.

Definition value (x : t) : string :=
  match x with
  | RUN_CREATED => "run.created"
  | RUN_PHASE_CHANGED => "run.phase_changed"
  | QUESTION_OPENED => "question.opened"
  | QUESTION_ANSWERED => "question.answered"
  | APPROVAL_REQUESTED => "approval.requested"
  | APPROVAL_DECIDED => "approval.decided"
  | TASK_QUEUED => "task.queued"
  | TASK_LEASED => "task.leased"
  | TASK_HEARTBEAT => "task.heartbeat"
  | TASK_RETRY_SCHEDULED => "task.retry_scheduled"
  | TASK_SUCCEEDED => "task.succeeded"
  | TASK_FAILED => "task.failed"
  | LEASE_EXPIRED => "lease.expired"
  | EVIDENCE_CAPTURED => "evidence.captured"
  | BUDGET_CHANGED => "budget.changed"
  end.

Lemma EventType_value_inj x y : value x = value y -> x = y.
Proof. by destruct x, y. Qed.
End EventType.

(** [class Priority(IntEnum)]: the values a task's integer priority is given. *)
Module Priority.
Definition LOW : Z := 10.
Definition NORMAL : Z := 50.
Definition HIGH : Z := 80.
Definition CRITICAL : Z := 100.
End Priority.

Definition TERMINAL_RUN_PHASES : list RunPhase.t :=
[RunPhase.COMPLETED; RunPhase.FAILED; RunPhase.CANCELLED].
Definition TERMINAL_TASK_STATES : list TaskState.t :=
[TaskState.SUCCEEDED; TaskState.FAILED; TaskState.CANCELLED].
