(* ===== verification/Models.v ===== *)
(** * Orchestrator records (backend/orchestrator/models.py)

    One module per frozen dataclass: its fields, [post_init] (the checks of
    [__post_init__], in order) and [new], the constructor, which is also what
    [dataclasses.replace] runs on the updated copy.  The checks that a field
    has its declared type are the types of the fields here. *)
From S2P Require Import Prelude PyStr PyDict Json Sha256 DateTime Enums.

Local Open Scope Z_scope.
Local Open Scope string_scope.

Definition DomainErr (msg : string) : exn := Exn DomainError msg.

(** [require_aware(value, label)] *)
Definition naive (d : datetime) : bool := negb (dt_aware d).
Definition aware_err (label : string) : exn := DomainErr (label +:+ " must be timezone-aware").
Definition require_aware (value : datetime) (label : string) : result unit :=
  raise_if (naive value) (aware_err label).

Definition opt_bad {A} (p : A -> bool) (o : option A) : bool :=
  match o with Some x => p x | None => false end.

(** [len(l) != len(set(l))] *)
Definition has_duplicates {A} `{EqDecision A} (l : list A) : bool := bool_decide (~ NoDup l).

Lemma no_duplicates {A} `{EqDecision A} (l : list A) : has_duplicates l = false <-> NoDup l.
Proof.
  unfold has_duplicates. rewrite bool_decide_eq_false. split; [apply dec_stable|].
  intros H Hn. by apply Hn.
Qed.

Definition str_in (s : string) (l : list string) : bool := bool_decide (s ∈ l).
Definition str_subset (l1 l2 : list string) : bool := forallb (fun s => str_in s l2) l1.

(** [str.isalnum] on one character. *)
Definition is_alnum (c : ascii) : bool :=
  let n := code c in
  ((48 <=? n) && (n <=? 57) || (65 <=? n) && (n <=? 90) || (97 <=? n) && (n <=? 122) ||
   (n =? 170) || (n =? 178) || (n =? 179) || (n =? 181) || (n =? 185) || (n =? 186) ||
   (188 <=? n) && (n <=? 190) || (192 <=? n) && (n <=? 255) && negb (n =? 215) && negb (n =? 247))%Z.

(** [new_id(prefix)], given the hexadecimal text [uuid_hex] that [uuid4] draws. *)
Fixpoint drop_underscores (s : string) : string :=
  match s with
  | EmptyString => EmptyString
  | String c s => if (code c =? 95)%Z then drop_underscores s else String c (drop_underscores s)
  end.
Definition new_id (prefix uuid_hex : string) : result string :=
  let bare := drop_underscores prefix in
  if str_empty prefix || str_empty bare || negb (str_forallb is_alnum bare)
  then Err (DomainErr "ID prefixes must be non-empty alphanumeric labels")
  else Ok (prefix +:+ "_" +:+ uuid_hex).

(** [sha256_text(value)] *)
Definition sha256_text (value : string) : string := sha256_hex (utf8 value).

(** ** Budgets *)

Module Budget.
Record t := mk {
  token_limit : option Z;
  tool_call_limit : option Z;
  agent_dispatch_limit : option Z;
  tokens_used : Z;
  tokens_reserved : Z;
  tool_calls_used : Z;
  tool_calls_reserved : Z;
  agent_dispatches_used : Z;
  agent_dispatches_reserved : Z;
}.
#[global] Instance eta : Settable t := fun b =>
  mk (token_limit b) (tool_call_limit b) (agent_dispatch_limit b) (tokens_used b)
     (tokens_reserved b) (tool_calls_used b) (tool_calls_reserved b)
     (agent_dispatches_used b) (agent_dispatches_reserved b).
#[global] Instance eq_dec : EqDecision t.
Proof. solve_decision. Defined.

(** [Budget._check(limit, requested, label)] *)
Definition check (limit : option Z) (requested : Z) (label : string) : bool * exn :=
  (opt_bad (fun l => requested >? l)%Z limit,
   Exn BudgetExceeded (label +:+ " budget exceeded: " +:+ str_of_int requested +:+ " > " +:+
                       from_option str_of_int "" limit)).

Definition negative (z : Z) : bool := (z <? 0)%Z.

Definition post_init (b : t) : result unit :=
  raise_first [
    (opt_bad negative (token_limit b) || opt_bad negative (tool_call_limit b) ||
     opt_bad negative (agent_dispatch_limit b) || negative (tokens_used b) ||
     negative (tokens_reserved b) || negative (tool_calls_used b) ||
     negative (tool_calls_reserved b) || negative (agent_dispatches_used b) ||
     negative (agent_dispatches_reserved b),
     DomainErr "budget values cannot be negative");
    check (token_limit b) (tokens_used b + tokens_reserved b)%Z "tokens";
    check (tool_call_limit b) (tool_calls_used b + tool_calls_reserved b)%Z "tool calls";
    check (agent_dispatch_limit b) (agent_dispatches_used b + agent_dispatches_reserved b)%Z
      "agent dispatches" ].

Definition new (b : t) : result t := post_init b ;;; Ok b.

(** [Budget.unlimited()] *)
Definition unlimited : result t := new (mk None None None 0 0 0 0 0 0).

(** [b.reserve(tokens=.., tool_calls=.., agent_dispatches=..)] *)
Definition reserve (b : t) (tokens tool_calls agent_dispatches : Z) : result t :=
  raise_if (Z.min tokens (Z.min tool_calls agent_dispatches) <? 0)%Z
    (DomainErr "reservations cannot be negative") ;;;
  new (b <| tokens_reserved := (tokens_reserved b + tokens)%Z |>
         <| tool_calls_reserved := (tool_calls_reserved b + tool_calls)%Z |>
         <| agent_dispatches_reserved := (agent_dispatches_reserved b + agent_dispatches)%Z |>).

(** [b.settle(...)] *)
Definition settle (b : t) (reserved_tokens actual_tokens reserved_tool_calls actual_tool_calls
    reserved_agent_dispatches actual_agent_dispatches : Z) : result t :=
  raise_first [
    ((Z.min reserved_tokens (Z.min actual_tokens (Z.min reserved_tool_calls
       (Z.min actual_tool_calls (Z.min reserved_agent_dispatches actual_agent_dispatches)))) <? 0)%Z,
     DomainErr "settlement quantities cannot be negative");
    ((reserved_tokens >? tokens_reserved b)%Z,
     DomainErr "cannot settle more reserved tokens than held");
    ((reserved_tool_calls >? tool_calls_reserved b)%Z,
     DomainErr "cannot settle more reserved tool calls than held");
    ((reserved_agent_dispatches >? agent_dispatches_reserved b)%Z,
     DomainErr "cannot settle more agent dispatches than held") ] ;;;
  new (b <| tokens_reserved := (tokens_reserved b - reserved_tokens)%Z |>
         <| tokens_used := (tokens_used b + actual_tokens)%Z |>
         <| tool_calls_reserved := (tool_calls_reserved b - reserved_tool_calls)%Z |>
         <| tool_calls_used := (tool_calls_used b + actual_tool_calls)%Z |>
         <| agent_dispatches_reserved :=
              (agent_dispatches_reserved b - reserved_agent_dispatches)%Z |>
         <| agent_dispatches_used := (agent_dispatches_used b + actual_agent_dispatches)%Z |>).
End Budget.

(** ** Runs *)

Module Run.
Record t := mk {
  id : string;
  objective : string;
  created_at : datetime;
  phase : RunPhase.t;
  coordination_stage : CoordinationStage.t;
  checkpoint_digest : option string;
  coordination_revision : Z;
  strict_user_coordination : bool;
  require_plan_approval : bool;
  require_independent_critic : bool;
  task_inventory_digest : option string;
  plan_digest : option string;
  max_concurrency : Z;
  budget : Budget.t;
  revision : Z;
}.
#[global] Instance eta : Settable t := fun r =>
  mk (id r) (objective r) (created_at r) (phase r) (coordination_stage r)
     (checkpoint_digest r) (coordination_revision r) (strict_user_coordination r)
     (require_plan_approval r) (require_independent_critic r) (task_inventory_digest r)
     (plan_digest r) (max_concurrency r) (budget r) (revision r).
#[global] Instance eq_dec : EqDecision t.
Proof. solve_decision. Defined.

Definition post_init (r : t) : result unit :=
  raise_first [
    (opt_bad (fun d => negb (is_sha256_hex d)) (task_inventory_digest r),
     DomainErr "run task inventory must be a lowercase SHA-256 digest");
    (naive (created_at r), aware_err "run.created_at");
    (str_empty (id r) || str_blank (objective r), DomainErr "run ID and objective are required");
    ((max_concurrency r <? 1)%Z, DomainErr "max_concurrency must be at least one");
    ((revision r <? 0)%Z || (coordination_revision r <? 0)%Z,
     DomainErr "run revisions cannot be negative") ].

Definition new (r : t) : result t := post_init r ;;; Ok r.
End Run.

(** ** Retry policies, check requirements, leases, review bindings *)

Module RetryPolicy.
Record t := mk {
  max_attempts : Z;
  initial_backoff_seconds : Z;
  multiplier : Z;
  max_backoff_seconds : Z;
}.
#[global] Instance eq_dec : EqDecision t.
Proof. solve_decision. Defined.

Definition default : t := mk 3 5 2 300.

Definition post_init (p : t) : result unit :=
  raise_first [
    ((max_attempts p <? 1)%Z, DomainErr "max_attempts must be at least one");
    ((initial_backoff_seconds p <? 0)%Z || (max_backoff_seconds p <? 0)%Z,
     DomainErr "backoff cannot be negative");
    ((multiplier p <? 1)%Z, DomainErr "retry multiplier must be at least one") ].

Definition new (p : t) : result t := post_init p ;;; Ok p.

(** [p.delay_seconds(failed_attempt)] *)
Definition delay_seconds (p : t) (failed_attempt : Z) : result Z :=
  raise_if (failed_attempt <? 1)%Z (DomainErr "failed_attempt must be at least one") ;;;
  let delay := (initial_backoff_seconds p * multiplier p ^ (failed_attempt - 1))%Z in
  Ok (Z.min delay (max_backoff_seconds p)).
End RetryPolicy.

Module CheckRequirement.
Record t := mk { check_id : string; source : string; policy_digest : string }.
#[global] Instance eq_dec : EqDecision t.
Proof. solve_decision. Defined.

Definition post_init (c : t) : result unit :=
  raise_if (str_blank (check_id c) || str_blank (source c) || str_empty (policy_digest c))
    (DomainErr "check ID, trusted source, and immutable policy digest are required").

Definition new (c : t) : result t := post_init c ;;; Ok c.
End CheckRequirement.

Module Lease.
Record t := mk {
  token : string;
  task_id : string;
  agent_id : string;
  attempt : Z;
  acquired_at : datetime;
  expires_at : datetime;
  task_contract_digest : string;
  agent_contract_digest : string;
}.
#[global] Instance eta : Settable t := fun l =>
  mk (token l) (task_id l) (agent_id l) (attempt l) (acquired_at l) (expires_at l)
     (task_contract_digest l) (agent_contract_digest l).
#[global] Instance eq_dec : EqDecision t.
Proof. solve_decision. Defined.

Definition post_init (l : t) : result unit :=
  raise_first [
    (str_empty (task_id l) || str_empty (agent_id l),
     DomainErr "lease task and agent IDs are required");
    (naive (acquired_at l), aware_err "lease.acquired_at");
    (naive (expires_at l), aware_err "lease.expires_at");
    (negb (is_sha256_hex (token l)),
     DomainErr "lease token must be a lowercase SHA-256 digest");
    (negb (is_sha256_hex (task_contract_digest l)),
     DomainErr "lease task contract digest must be a lowercase SHA-256 digest");
    (negb (is_sha256_hex (agent_contract_digest l)),
     DomainErr "lease agent contract digest must be a lowercase SHA-256 digest");
    ((attempt l <? 1)%Z, DomainErr "lease attempt must be positive");
    (dt_le (expires_at l) (acquired_at l), DomainErr "lease expiry must follow acquisition") ].

Definition new (l : t) : result t := post_init l ;;; Ok l.
End Lease.

Module ReviewedTaskResultBinding.
Record t := mk { task_id : string; result_digest : string }.
#[global] Instance eq_dec : EqDecision t.
Proof. solve_decision. Defined.

Definition post_init (b : t) : result unit :=
  raise_first [
    (str_empty (task_id b), DomainErr "reviewed result task ID must be an exact string");
    (negb (is_sha256_hex (result_digest b)),
     DomainErr "reviewed result must be a lowercase SHA-256 digest") ].

Definition new (b : t) : result t := post_init b ;;; Ok b.
End ReviewedTaskResultBinding.

(** ** Tasks *)

Module Task.
Record t := mk {
  id : string;
  run_id : string;
  title : string;
  instructions : string;
  kind : TaskKind.t;
  created_seq : Z;
  priority : Z;
  wave : Z;
  dependencies : list string;
  required_capabilities : list string;
  required_agent_class : option AgentClass.t;
  excluded_agent_ids : list string;
  risk_class : RiskClass.t;
  input_revision : option string;
  output_schema_digest : option string;
  idempotency_key : option string;
  required_checks : list CheckRequirement.t;
  reviewed_task_ids : list string;
  reviewed_result_bindings : list ReviewedTaskResultBinding.t;
  estimated_tokens : Z;
  retry_policy : RetryPolicy.t;
  state : TaskState.t;
  attempt : Z;
  next_eligible_at : option datetime;
  lease : option Lease.t;
  result_evidence_ids : list string;
  completed_by_agent_id : option string;
  failure_code : option string;
  failure_message : option string;
}.
#[global] Instance eta : Settable t := fun x =>
  mk (id x) (run_id x) (title x) (instructions x) (kind x) (created_seq x) (priority x) (wave x)
     (dependencies x) (required_capabilities x) (required_agent_class x) (excluded_agent_ids x)
     (risk_class x) (input_revision x) (output_schema_digest x) (idempotency_key x)
     (required_checks x) (reviewed_task_ids x) (reviewed_result_bindings x) (estimated_tokens x)
     (retry_policy x) (state x) (attempt x) (next_eligible_at x) (lease x)
     (result_evidence_ids x) (completed_by_agent_id x) (failure_code x) (failure_message x).
#[global] Instance eq_dec : EqDecision t.
Proof. solve_decision. Defined.

(** [state in {LEASED, RUNNING}] *)
Definition active_state (s : TaskState.t) : bool :=
  bool_decide (s ∈ [TaskState.LEASED; TaskState.RUNNING]).

Definition binding_task_ids (x : t) : list string :=
  ReviewedTaskResultBinding.task_id <$> reviewed_result_bindings x.
Definition check_ids (x : t) : list string := CheckRequirement.check_id <$> required_checks x.

Definition post_init (x : t) : result unit :=
  raise_first [
    (existsb str_empty (dependencies x),
     DomainErr "task dependency IDs must be exact non-empty strings");
    (existsb str_empty (required_capabilities x),
     DomainErr "task required capabilities must be exact non-empty strings");
    (existsb str_empty (excluded_agent_ids x),
     DomainErr "task excluded agent IDs must be exact non-empty strings");
    (existsb str_empty (reviewed_task_ids x),
     DomainErr "task reviewed task IDs must be exact non-empty strings");
    (existsb str_empty (result_evidence_ids x),
     DomainErr "task result evidence IDs must be exact non-empty strings");
    (has_duplicates (binding_task_ids x),
     DomainErr "reviewed result binding task IDs must be unique");
    (existsb (fun i => negb (str_in i (reviewed_task_ids x))) (binding_task_ids x),
     DomainErr "result binding must name a declared reviewed task");
    (opt_bad str_empty (completed_by_agent_id x),
     DomainErr "task completing agent ID must be an exact string or null");
    (str_empty (id x) || str_empty (run_id x) || str_blank (title x),
     DomainErr "task ID, run ID, and title are required");
    ((created_seq x <? 0)%Z || (wave x <? 0)%Z || (attempt x <? 0)%Z,
     DomainErr "task sequence, wave, and attempt cannot be negative");
    ((estimated_tokens x <? 0)%Z, DomainErr "estimated_tokens cannot be negative");
    (str_in (id x) (dependencies x), DomainErr "a task cannot depend on itself");
    (has_duplicates (dependencies x), DomainErr "task dependencies must be unique");
    (has_duplicates (excluded_agent_ids x), DomainErr "excluded agent IDs must be unique");
    (has_duplicates (required_capabilities x), DomainErr "required capabilities must be unique");
    (has_duplicates (reviewed_task_ids x), DomainErr "reviewed task IDs must be unique");
    (str_in (id x) (reviewed_task_ids x), DomainErr "a review task cannot review itself");
    (negb (bool_decide (reviewed_task_ids x = [])) &&
     negb (bool_decide (kind x = TaskKind.REVIEW)),
     DomainErr "only review tasks may name reviewed tasks");
    (negb (bool_decide (reviewed_task_ids x = [])) &&
     negb (str_subset (reviewed_task_ids x) (dependencies x)),
     DomainErr "reviewed tasks must also be dependencies");
    (has_duplicates (check_ids x), DomainErr "required checks must be unique");
    (opt_bad naive (next_eligible_at x), aware_err "task.next_eligible_at");
    (active_state (state x) && bool_decide (lease x = None),
     DomainErr "leased/running tasks require an active lease");
    (negb (active_state (state x)) && negb (bool_decide (lease x = None)),
     DomainErr "only leased/running tasks may carry an active lease");
    (opt_bad (fun l => negb (bool_decide (Lease.task_id l = id x))) (lease x),
     DomainErr "task lease references a different task");
    (opt_bad (fun l => negb (Lease.attempt l =? attempt x)%Z) (lease x),
     DomainErr "task lease attempt must match the task attempt");
    (negb (bool_decide (completed_by_agent_id x = None)) &&
     negb (bool_decide (state x = TaskState.SUCCEEDED)),
     DomainErr "only succeeded tasks may name their completing agent") ].

Definition new (x : t) : result t := post_init x ;;; Ok x.
End Task.

(** ** Agents *)

Module Agent.
Record t := mk {
  id : string;
  run_id : string;
  name : string;
  created_seq : Z;
  agent_class : AgentClass.t;
  parent_agent_id : option string;
  capabilities : list string;
  state : AgentState.t;
  wave : Z;
  current_task_id : option string;
  last_heartbeat_at : option datetime;
}.
#[global] Instance eta : Settable t := fun x =>
  mk (id x) (run_id x) (name x) (created_seq x) (agent_class x) (parent_agent_id x)
     (capabilities x) (state x) (wave x) (current_task_id x) (last_heartbeat_at x).
#[global] Instance eq_dec : EqDecision t.
Proof. solve_decision. Defined.

(** [state in {LEASED, RUNNING}] *)
Definition active_state (s : AgentState.t) : bool :=
  bool_decide (s ∈ [AgentState.LEASED; AgentState.RUNNING]).

Definition post_init (x : t) : result unit :=
  raise_first [
    (opt_bad (fun p => bool_decide (p = id x)) (parent_agent_id x),
     DomainErr "an agent cannot be its own parent");
    (existsb str_empty (capabilities x),
     DomainErr "agent capabilities must be exact non-empty strings");
    (str_empty (id x) || str_empty (run_id x) || str_blank (name x),
     DomainErr "agent ID, run ID, and name are required");
    ((created_seq x <? 0)%Z || (wave x <? 0)%Z,
     DomainErr "agent sequence and wave cannot be negative");
    (has_duplicates (capabilities x), DomainErr "agent capabilities must be unique");
    (opt_bad naive (last_heartbeat_at x), aware_err "agent.last_heartbeat_at");
    (active_state (state x) && bool_decide (current_task_id x = None),
     DomainErr "leased/running agents require a current task");
    (negb (active_state (state x)) && negb (bool_decide (current_task_id x = None)),
     DomainErr "only leased/running agents may reference a current task") ].

Definition new (x : t) : result t := post_init x ;;; Ok x.
End Agent.

(** ** Questions and approvals *)

Module Question.
Record t := mk {
  id : string;
  run_id : string;
  prompt : string;
  rationale : string;
  asked_at : datetime;
  blocking : bool;
  options : list string;
  recommendation : option string;
  confidence_basis_points : option Z;
  allow_custom_answer : bool;
  bound_revision : option string;
  affected_artifact_ids : list string;
  dependent_decision_ids : list string;
  state : QuestionState.t;
  answer : option string;
  answered_by : option string;
  answered_at : option datetime;
}.
#[global] Instance eta : Settable t := fun x =>
  mk (id x) (run_id x) (prompt x) (rationale x) (asked_at x) (blocking x) (options x)
     (recommendation x) (confidence_basis_points x) (allow_custom_answer x) (bound_revision x)
     (affected_artifact_ids x) (dependent_decision_ids x) (state x) (answer x) (answered_by x)
     (answered_at x).
#[global] Instance eq_dec : EqDecision t.
Proof. solve_decision. Defined.

(** [not s] for [str | None]. *)
Definition falsy (o : option string) : bool :=
  match o with Some s => str_empty s | None => true end.

Definition post_init (x : t) : result unit :=
  raise_first [
    (existsb str_empty (options x), DomainErr "question options must be exact non-empty strings");
    (existsb str_empty (affected_artifact_ids x),
     DomainErr "question affected artifact IDs must be exact non-empty strings");
    (existsb str_empty (dependent_decision_ids x),
     DomainErr "question dependent decision IDs must be exact non-empty strings");
    (naive (asked_at x), aware_err "question.asked_at");
    (opt_bad naive (answered_at x), aware_err "question.answered_at");
    (str_empty (id x) || str_empty (run_id x) || str_blank (prompt x),
     DomainErr "question ID, run ID, and prompt are required");
    (blocking x && (length (options x) <? 2)%nat,
     DomainErr "blocking questions require at least two explicit options");
    (blocking x && negb (bool_decide (recommendation x ∈ Some <$> options x)),
     DomainErr "blocking questions require a recommended declared option");
    (blocking x && bool_decide (confidence_basis_points x = None),
     DomainErr "blocking questions require recommendation confidence");
    (blocking x && falsy (bound_revision x),
     DomainErr "blocking questions must bind to an exact revision");
    (opt_bad (fun c => negb ((0 <=? c) && (c <=? 10000)))%Z (confidence_basis_points x),
     DomainErr "question confidence must be from 0 to 10,000 basis points");
    (bool_decide (state x = QuestionState.ANSWERED) &&
     (falsy (answer x) || falsy (answered_by x)),
     DomainErr "answered questions require an answer and actor") ].

Definition new (x : t) : result t := post_init x ;;; Ok x.
End Question.

Module Approval.
Record t := mk {
  id : string;
  run_id : string;
  kind : ApprovalKind.t;
  subject_digest : string;
  summary : string;
  requested_at : datetime;
  expires_at : option datetime;
  state : ApprovalState.t;
  decided_by : option string;
  decided_at : option datetime;
  reason : option string;
}.
#[global] Instance eta : Settable t := fun x =>
  mk (id x) (run_id x) (kind x) (subject_digest x) (summary x) (requested_at x) (expires_at x)
     (state x) (decided_by x) (decided_at x) (reason x).
#[global] Instance eq_dec : EqDecision t.
Proof. solve_decision. Defined.

Definition post_init (x : t) : result unit :=
  raise_first [
    (naive (requested_at x), aware_err "approval.requested_at");
    (opt_bad naive (expires_at x), aware_err "approval.expires_at");
    (opt_bad naive (decided_at x), aware_err "approval.decided_at");
    (str_empty (id x) || str_empty (run_id x) || str_empty (subject_digest x),
     DomainErr "approval ID, run ID, and subject digest are required");
    (opt_bad (fun e => dt_le e (requested_at x)) (expires_at x),
     DomainErr "approval expiry must follow its request");
    (negb (bool_decide (state x = ApprovalState.REQUESTED)) && bool_decide (decided_at x = None),
     DomainErr "decided approvals require a decision timestamp") ].

Definition new (x : t) : result t := post_init x ;;; Ok x.

(** [a.is_valid_for(digest, at)] *)
Definition is_valid_for (x : t) (digest : string) (at_ : datetime) : result bool :=
  require_aware at_ "timestamp" ;;;
  Ok (bool_decide (state x = ApprovalState.APPROVED) &&
      bool_decide (subject_digest x = digest) &&
      match expires_at x with None => true | Some e => dt_lt at_ e end).
End Approval.

(** ** Evidence *)

Module Evidence.
Record t := mk {
  id : string;
  run_id : string;
  kind : EvidenceKind.t;
  source : string;
  content_digest : string;
  summary : string;
  captured_at : datetime;
  task_id : option string;
  check_id : option string;
  policy_digest : option string;
  passed : option bool;
  metadata_json : string;
}.
#[global] Instance eq_dec : EqDecision t.
Proof. solve_decision. Defined.

Definition post_init (x : t) : result unit :=
  raise_first [
    (naive (captured_at x), aware_err "evidence.captured_at");
    (str_empty (id x) || str_empty (run_id x) || str_empty (source x) ||
     str_empty (content_digest x),
     DomainErr "evidence ID, run ID, source, and digest are required");
    (bool_decide (kind x = EvidenceKind.DESIGN_CHECK) &&
     (Question.falsy (check_id x) || Question.falsy (policy_digest x) ||
      bool_decide (passed x = None)),
     DomainErr "design-check evidence requires check_id, policy_digest, and passed") ] ;;;
  match loads (metadata_json x) with
  | None => Err (DomainErr "evidence metadata_json must be valid JSON")
  | Some (JObj kvs) =>
    raise_if (negb (bool_decide (canonical_json (JObj kvs) = metadata_json x)))
      (DomainErr "evidence metadata_json must use canonical JSON")
  | Some _ => Err (DomainErr "evidence metadata_json must encode an object")
  end.

Definition new (x : t) : result t := post_init x ;;; Ok x.

(** [Evidence.capture(...)]; the content is [bytes] or a [str]. *)
Definition capture (evidence_id run_id : string) (kind : EvidenceKind.t) (source : string)
    (content : bytes + string) (summary : string) (captured_at : datetime)
    (task_id check_id policy_digest : option string) (passed : option bool)
    (metadata : option (list (string * json))) : result t :=
  let raw := match content with inl b => b | inr s => utf8 s end in
  new (mk evidence_id run_id kind source (sha256_hex raw) summary captured_at task_id check_id
         policy_digest passed (canonical_json (JObj (default [] metadata)))).
End Evidence.
