(* ===== verification/Digests.v ===== *)
(** * Digests and events (backend/orchestrator/models.py, scheduler.py)

    The payloads that are hashed, and the hash-chained event record.  A digest
    is [sha256_text (canonical_json payload)]; the payload is a definition of
    its own, so that theorems can speak of what a digest commits to. *)
From S2P Require Import Prelude PyStr PyDict Json Sha256 DateTime Enums.
From S2P Require Import Models.

Local Open Scope string_scope.

Definition jopt (o : option string) : json := from_option JStr JNull o.
Definition jstrs (l : list string) : json := JArr (JStr <$> l).
(** [sorted(l)] on strings. *)
Definition sorted_strs (l : list string) : list string := sorted_on (fun s : string => s) l.

(** ** Task contracts *)

Definition check_payload (c : CheckRequirement.t) : json :=
  JObj [("check_id", JStr (CheckRequirement.check_id c));
        ("source", JStr (CheckRequirement.source c));
        ("policy_digest", JStr (CheckRequirement.policy_digest c))].

Definition binding_payload (b : ReviewedTaskResultBinding.t) : json :=
  JObj [("task_id", JStr (ReviewedTaskResultBinding.task_id b));
        ("result_digest", JStr (ReviewedTaskResultBinding.result_digest b))].

Definition retry_payload (p : RetryPolicy.t) : json :=
  JObj [("max_attempts", JInt (RetryPolicy.max_attempts p));
        ("initial_backoff_seconds", JInt (RetryPolicy.initial_backoff_seconds p));
        ("multiplier", JInt (RetryPolicy.multiplier p));
        ("max_backoff_seconds", JInt (RetryPolicy.max_backoff_seconds p))].

(** The dictionary that [task_contract_digest] hashes. *)
Definition task_contract_payload (t : Task.t) : json :=
  JObj [
    ("scope", JStr "flux-clone-orchestrator-task-contract-v1");
    ("run_id", JStr (Task.run_id t));
    ("task_id", JStr (Task.id t));
    ("title", JStr (Task.title t));
    ("instructions", JStr (Task.instructions t));
    ("kind", JStr (TaskKind.value (Task.kind t)));
    ("created_seq", JInt (Task.created_seq t));
    ("priority", JInt (Task.priority t));
    ("wave", JInt (Task.wave t));
    ("dependencies", jstrs (sorted_strs (Task.dependencies t)));
    ("required_capabilities", jstrs (sorted_strs (Task.required_capabilities t)));
    ("required_agent_class", jopt (AgentClass.value <$> Task.required_agent_class t));
    ("excluded_agent_ids", jstrs (sorted_strs (Task.excluded_agent_ids t)));
    ("risk_class", JStr (RiskClass.value (Task.risk_class t)));
    ("input_revision", jopt (Task.input_revision t));
    ("output_schema_digest", jopt (Task.output_schema_digest t));
    ("idempotency_key", jopt (Task.idempotency_key t));
    ("required_checks",
      JArr (check_payload <$> sorted_on CheckRequirement.check_id (Task.required_checks t)));
    ("reviewed_task_ids", jstrs (sorted_strs (Task.reviewed_task_ids t)));
    ("reviewed_result_bindings",
      JArr (binding_payload <$>
        sorted_on ReviewedTaskResultBinding.task_id (Task.reviewed_result_bindings t)));
    ("estimated_tokens", JInt (Task.estimated_tokens t));
    ("retry_policy", retry_payload (Task.retry_policy t)) ].

Definition task_contract_digest (t : Task.t) : string :=
  sha256_text (canonical_json (task_contract_payload t)).

(** ** Task inventories *)

Definition task_inventory_payload (run_id : string) (tasks : list Task.t) : json :=
  JObj [
    ("scope", JStr "flux-clone-orchestrator-task-inventory-v1");
    ("run_id", JStr run_id);
    ("tasks", JArr ((fun t => JObj [("task_id", JStr (Task.id t));
                                    ("contract_digest", JStr (task_contract_digest t))])
                    <$> sorted_on Task.id tasks)) ].

Definition task_inventory_digest (run_id : string) (tasks : list Task.t) : result string :=
  raise_first [
    (str_empty run_id, DomainErr "task inventory requires an exact run ID");
    (existsb (fun t => negb (bool_decide (Task.run_id t = run_id))) tasks,
     DomainErr "task inventory contains a task from another run");
    (has_duplicates (Task.id <$> tasks), DomainErr "task inventory IDs must be unique") ] ;;;
  Ok (sha256_text (canonical_json (task_inventory_payload run_id tasks))).

(** ** Agent contracts (scheduler.py) *)

Definition agent_contract_payload (a : Agent.t) : json :=
  JObj [
    ("scope", JStr "flux-clone-orchestrator-agent-contract-v1");
    ("run_id", JStr (Agent.run_id a));
    ("agent_id", JStr (Agent.id a));
    ("name", JStr (Agent.name a));
    ("created_seq", JInt (Agent.created_seq a));
    ("agent_class", JStr (AgentClass.value (Agent.agent_class a)));
    ("parent_agent_id", jopt (Agent.parent_agent_id a));
    ("capabilities", jstrs (sorted_strs (Agent.capabilities a)));
    ("wave", JInt (Agent.wave a)) ].

Definition agent_contract_digest (a : Agent.t) : string :=
  sha256_text (canonical_json (agent_contract_payload a)).

(** ** Task results *)

Definition evidence_payload (captured : string) (e : Evidence.t) : json :=
  JObj [
    ("id", JStr (Evidence.id e));
    ("kind", JStr (EvidenceKind.value (Evidence.kind e)));
    ("source", JStr (Evidence.source e));
    ("content_digest", JStr (Evidence.content_digest e));
    ("summary", JStr (Evidence.summary e));
    ("captured_at", JStr captured);
    ("check_id", jopt (Evidence.check_id e));
    ("policy_digest", jopt (Evidence.policy_digest e));
    ("passed", from_option JBool JNull (Evidence.passed e));
    ("metadata_json", JStr (Evidence.metadata_json e)) ].

(** [captured_at.astimezone(utc).isoformat()] of each record. *)
Definition evidence_entry (e : Evidence.t) : result json :=
  match dt_to_utc (Evidence.captured_at e) with
  | Some d => Ok (evidence_payload (isoformat false d) e)
  | None => Err (Exn OverflowError "date value out of range")
  end.

(** [set(l1) == set(l2)] *)
Definition same_set (l1 l2 : list string) : bool := str_subset l1 l2 && str_subset l2 l1.

Definition task_result_digest (t : Task.t) (evidence : list Evidence.t) : result string :=
  raise_first [
    (negb (bool_decide (Task.state t = TaskState.SUCCEEDED)),
     DomainErr "task result hashing requires an exact succeeded Task");
    (bool_decide (Task.completed_by_agent_id t = None) ||
     bool_decide (Task.result_evidence_ids t = []),
     DomainErr "task result requires its completing agent and evidence IDs");
    (has_duplicates (Evidence.id <$> evidence) ||
     negb (same_set (Evidence.id <$> evidence) (Task.result_evidence_ids t)),
     DomainErr "task result evidence set does not match its declared IDs");
    (existsb (fun e => negb (bool_decide (Evidence.run_id e = Task.run_id t)) ||
                       negb (bool_decide (Evidence.task_id e = Some (Task.id t)))) evidence,
     DomainErr "task result evidence is bound to another run or task") ] ;;;
  let* entries := mapM evidence_entry (sorted_on Evidence.id evidence) in
  Ok (sha256_text (canonical_json (JObj [
    ("scope", JStr "flux-clone-orchestrator-task-result-v1");
    ("task_contract_digest", JStr (task_contract_digest t));
    ("completed_by_agent_id", jopt (Task.completed_by_agent_id t));
    ("evidence", JArr entries) ]))).

(** ** Events *)

Module OrchestrationEvent.
Record t := mk {
  id : string;
  run_id : string;
  sequence : Z;
  type : EventType.t;
  actor : string;
  occurred_at : datetime;
  aggregate_id : string;
  payload_json : string;
  evidence_ids : list string;
  previous_hash : string;
  event_hash : string;
}.

(** [OrchestrationEvent._hash_material]: every field but the hash itself. *)
Definition hash_payload (e : t) : json :=
  JObj [
    ("id", JStr (id e));
    ("run_id", JStr (run_id e));
    ("sequence", JInt (sequence e));
    ("type", JStr (EventType.value (type e)));
    ("actor", JStr (actor e));
    ("occurred_at", JStr (isoformat false (occurred_at e)));
    ("aggregate_id", JStr (aggregate_id e));
    ("payload_json", JStr (payload_json e));
    ("evidence_ids", jstrs (evidence_ids e));
    ("previous_hash", JStr (previous_hash e)) ].

Definition hash_material (e : t) : result string :=
  require_aware (occurred_at e) "timestamp" ;;;
  Ok (canonical_json (hash_payload e)).

Definition validate_hash (e : t) : result bool :=
  let* material := hash_material e in
  Ok (bool_decide (event_hash e = sha256_text material)).

Definition post_init (e : t) : result unit :=
  raise_first [
    (str_empty (id e) || str_empty (run_id e) || str_empty (actor e) || str_empty (aggregate_id e),
     DomainErr "event ID, run ID, actor, and aggregate ID are required");
    (existsb str_empty (evidence_ids e),
     DomainErr "event evidence IDs must be exact non-empty strings");
    (has_duplicates (evidence_ids e), DomainErr "event evidence IDs must be unique");
    (negb (str_empty (previous_hash e)) && negb (is_sha256_hex (previous_hash e)),
     DomainErr "event previous hash must be empty or a lowercase SHA-256 digest");
    (negb (is_sha256_hex (event_hash e)),
     DomainErr "event hash must be a lowercase SHA-256 digest");
    (naive (occurred_at e), aware_err "event.occurred_at");
    ((sequence e <? 1)%Z, DomainErr "event sequence must be positive") ] ;;;
  match loads (payload_json e) with
  | None => Err (DomainErr "event payload_json must be valid JSON")
  | Some (JObj kvs) =>
    raise_if (negb (bool_decide (canonical_json (JObj kvs) = payload_json e)))
      (DomainErr "event payload_json must be canonical JSON") ;;;
    let* valid := validate_hash e in
    raise_if (negb valid) (DomainErr "event hash does not match event contents")
  | Some _ => Err (DomainErr "event payload_json must encode an object")
  end.

Definition new (e : t) : result t := post_init e ;;; Ok e.

(** [OrchestrationEvent.create(...)] *)
Definition create (event_id run_id : string) (sequence : Z) (type : EventType.t) (actor : string)
    (occurred_at : datetime) (aggregate_id : string) (payload : option (list (string * json)))
    (evidence_ids : list string) (previous_hash : string) : result t :=
  require_aware occurred_at "event.occurred_at" ;;;
  raise_if (existsb str_empty evidence_ids)
    (DomainErr "event evidence IDs must be exact non-empty strings") ;;;
  let payload_json := canonical_json (JObj (default [] payload)) in
  let draft := mk event_id run_id sequence type actor occurred_at aggregate_id payload_json
                  evidence_ids previous_hash "" in
  let* material := hash_material draft in
  new (mk event_id run_id sequence type actor occurred_at aggregate_id payload_json
          evidence_ids previous_hash (sha256_text material)).
End OrchestrationEvent.
