(* ===== verification/DigestFacts.v ===== *)
(** * What a digest commits to

    The canonical encoding is injective, so two records with the same digest
    have the same hashed fields, or else the two distinct texts are a SHA-256
    collision, which the statements exhibit. *)
From S2P Require Import Prelude PyStr PyDict Json Sha256 DateTime Enums.
From S2P Require Import Models Digests.

Local Open Scope string_scope.

(** ** Reading the fields of an object back from its canonical form *)

Lemma canon_obj_field kvs1 kvs2 k :
  canon (JObj kvs1) = canon (JObj kvs2) -> NoDup kvs1.*1 -> NoDup kvs2.*1 ->
  canon <$> assoc_get k kvs1 = canon <$> assoc_get k kvs2.
Proof.
  intros E H1 H2. simpl in E. injection E as E.
  assert (forall kvs, NoDup kvs.*1 -> forall v,
    canon <$> assoc_get k kvs = Some v <->
    (k, v) ∈ sorted_on fst ((fun '(k, v) => (k, canon v)) <$> kvs)) as Hk.
  { intros kvs Hnd v. rewrite elem_of_sorted_on, fmap_Some, list_elem_of_fmap. split.
    - intros (v0 & Hv0 & ->). apply assoc_get_elem in Hv0; [|done]. by exists (k, v0).
    - intros ([k0 v0] & Heq & Hin). simplify_eq. exists v0. by rewrite assoc_get_elem. }
  apply option_eq. intros v. by rewrite !Hk, E.
Qed.

Lemma canon_jstrs l : canon (jstrs l) = jstrs l.
Proof. unfold jstrs. simpl. f_equal. by rewrite <- list_fmap_compose. Qed.

Lemma jstrs_inj l1 l2 : jstrs l1 = jstrs l2 -> l1 = l2.
Proof. intros [= H]. apply fmap_eq_inj in H; [done|]. by intros ?? [=]. Qed.

Lemma canon_jopt o : canon (jopt o) = jopt o.
Proof. by destruct o. Qed.

Lemma jopt_inj o1 o2 : jopt o1 = jopt o2 -> o1 = o2.
Proof. destruct o1, o2; by intros [=]; subst. Qed.

(** Sorted lists of objects. *)
Lemma canon_arr_inj {A} (f : A -> json) l1 l2 :
  (forall x y, canon (f x) = canon (f y) -> x = y) ->
  canon (JArr (f <$> l1)) = canon (JArr (f <$> l2)) -> l1 = l2.
Proof.
  intros Hf E. simpl in E. injection E as E. rewrite <- !list_fmap_compose in E.
  apply fmap_eq_inj in E; [done|]. apply Hf.
Qed.

Lemma sorted_on_eq_perm {A K} `{PyOrdLaws K} (key : A -> K) l1 l2 :
  sorted_on key l1 = sorted_on key l2 -> l1 ≡ₚ l2.
Proof. intros E. by rewrite <- (sorted_on_Permutation key l1), E, sorted_on_Permutation. Qed.

Lemma jstrs_wf l : json_wf (jstrs l).
Proof. constructor. apply Forall_fmap, Forall_true. constructor. Qed.
Lemma jopt_wf o : json_wf (jopt o).
Proof. destruct o; constructor. Qed.
Lemma arr_wf {A} (f : A -> json) l : (forall x, json_wf (f x)) -> json_wf (JArr (f <$> l)).
Proof. intros. constructor. by apply Forall_fmap, Forall_true. Qed.

Create HintDb json_wf.

Ltac keys_NoDup :=
  cbn [fmap list_fmap fst]; apply (bool_decide_unpack _); vm_compute; reflexivity.
Ltac obj_wf :=
  constructor; [keys_NoDup|repeat first [apply Forall_nil_2|apply Forall_cons_2; simpl]].

Lemma check_payload_wf c : json_wf (check_payload c).
Proof. obj_wf; constructor. Qed.
Lemma binding_payload_wf b : json_wf (binding_payload b).
Proof. obj_wf; constructor. Qed.
Lemma retry_payload_wf p : json_wf (retry_payload p).
Proof. obj_wf; constructor. Qed.

#[export] Hint Resolve jstrs_wf jopt_wf arr_wf check_payload_wf binding_payload_wf
  retry_payload_wf wf_null wf_bool wf_int wf_str : json_wf.

Lemma task_contract_payload_wf t : json_wf (task_contract_payload t).
Proof. obj_wf; auto with json_wf. Qed.
Lemma agent_contract_payload_wf a : json_wf (agent_contract_payload a).
Proof. obj_wf; auto with json_wf. Qed.

(** [field "k" E]: the equation between the values of field [k]. *)
Ltac field k E :=
  let F := fresh "F" in
  pose proof (canon_obj_field _ _ k E ltac:(keys_NoDup) ltac:(keys_NoDup)) as F;
  unfold task_contract_payload, agent_contract_payload, check_payload, binding_payload,
    retry_payload in F;
  repeat (rewrite assoc_get_cons in F; cbn [String.eqb Ascii.eqb Bool.eqb] in F);
  apply (inj Some) in F.

Lemma check_payload_inj c1 c2 : canon (check_payload c1) = canon (check_payload c2) -> c1 = c2.
Proof.
  intros E. field "check_id" E. field "source" E. field "policy_digest" E.
  destruct c1, c2; simpl in *; congruence.
Qed.

Lemma binding_payload_inj b1 b2 :
  canon (binding_payload b1) = canon (binding_payload b2) -> b1 = b2.
Proof.
  intros E. field "task_id" E. field "result_digest" E.
  destruct b1, b2; simpl in *; congruence.
Qed.

Lemma retry_payload_inj p1 p2 : canon (retry_payload p1) = canon (retry_payload p2) -> p1 = p2.
Proof.
  intros E. field "max_attempts" E. field "initial_backoff_seconds" E.
  field "multiplier" E. field "max_backoff_seconds" E.
  destruct p1, p2; simpl in *; congruence.
Qed.

(** ** Task contracts *)

(** The scheduling and review contract of two tasks is the same: scalars are
    equal and the set-like tuples agree up to order. *)
Record same_task_contract (t1 t2 : Task.t) : Prop := {
  stc_run_id : Task.run_id t1 = Task.run_id t2;
  stc_id : Task.id t1 = Task.id t2;
  stc_title : Task.title t1 = Task.title t2;
  stc_instructions : Task.instructions t1 = Task.instructions t2;
  stc_kind : Task.kind t1 = Task.kind t2;
  stc_created_seq : Task.created_seq t1 = Task.created_seq t2;
  stc_priority : Task.priority t1 = Task.priority t2;
  stc_wave : Task.wave t1 = Task.wave t2;
  stc_dependencies : Task.dependencies t1 ≡ₚ Task.dependencies t2;
  stc_capabilities : Task.required_capabilities t1 ≡ₚ Task.required_capabilities t2;
  stc_agent_class : Task.required_agent_class t1 = Task.required_agent_class t2;
  stc_excluded : Task.excluded_agent_ids t1 ≡ₚ Task.excluded_agent_ids t2;
  stc_risk : Task.risk_class t1 = Task.risk_class t2;
  stc_input_revision : Task.input_revision t1 = Task.input_revision t2;
  stc_output_schema : Task.output_schema_digest t1 = Task.output_schema_digest t2;
  stc_idempotency : Task.idempotency_key t1 = Task.idempotency_key t2;
  stc_checks : Task.required_checks t1 ≡ₚ Task.required_checks t2;
  stc_reviewed : Task.reviewed_task_ids t1 ≡ₚ Task.reviewed_task_ids t2;
  stc_bindings : Task.reviewed_result_bindings t1 ≡ₚ Task.reviewed_result_bindings t2;
  stc_estimated : Task.estimated_tokens t1 = Task.estimated_tokens t2;
  stc_retry : Task.retry_policy t1 = Task.retry_policy t2;
}.

(** The values of the fields of two payloads with the same canonical form. *)
Lemma str_field s1 s2 : canon (JStr s1) = canon (JStr s2) -> s1 = s2.
Proof. by intros [=]. Qed.
Lemma int_field z1 z2 : canon (JInt z1) = canon (JInt z2) -> z1 = z2.
Proof. by intros [=]. Qed.
Lemma opt_field o1 o2 : canon (jopt o1) = canon (jopt o2) -> o1 = o2.
Proof. rewrite !canon_jopt. apply jopt_inj. Qed.
Lemma strs_field l1 l2 :
  canon (jstrs (sorted_strs l1)) = canon (jstrs (sorted_strs l2)) -> l1 ≡ₚ l2.
Proof. rewrite !canon_jstrs. intros H%jstrs_inj. by eapply sorted_on_eq_perm. Qed.

Lemma task_contract_payload_inj t1 t2 :
  canon (task_contract_payload t1) = canon (task_contract_payload t2) -> same_task_contract t1 t2.
Proof.
  intros E. constructor.
  - field "run_id" E. by apply str_field.
  - field "task_id" E. by apply str_field.
  - field "title" E. by apply str_field.
  - field "instructions" E. by apply str_field.
  - field "kind" E. by apply TaskKind.TaskKind_value_inj, str_field.
  - field "created_seq" E. by apply int_field.
  - field "priority" E. by apply int_field.
  - field "wave" E. by apply int_field.
  - field "dependencies" E. by apply strs_field.
  - field "required_capabilities" E. by apply strs_field.
  - field "required_agent_class" E. apply opt_field in F.
    by apply (option_fmap_eq_inj AgentClass.value AgentClass.AgentClass_value_inj).
  - field "excluded_agent_ids" E. by apply strs_field.
  - field "risk_class" E. by apply RiskClass.RiskClass_value_inj, str_field.
  - field "input_revision" E. by apply opt_field.
  - field "output_schema_digest" E. by apply opt_field.
  - field "idempotency_key" E. by apply opt_field.
  - field "required_checks" E. apply canon_arr_inj in F; [|apply check_payload_inj].
    by eapply sorted_on_eq_perm.
  - field "reviewed_task_ids" E. by apply strs_field.
  - field "reviewed_result_bindings" E. apply canon_arr_inj in F; [|apply binding_payload_inj].
    by eapply sorted_on_eq_perm.
  - field "estimated_tokens" E. by apply int_field.
  - field "retry_policy" E. by apply retry_payload_inj.
Qed.

(** A collision: two distinct texts with the same SHA-256 digest. *)
Definition sha256_collision (m1 m2 : string) : Prop := m1 <> m2 /\ sha256_text m1 = sha256_text m2.

(** Two payloads with the same digest have the same canonical form, or their
    texts collide. *)
Lemma digest_commits j1 j2 :
  json_wf j1 -> json_wf j2 ->
  sha256_text (canonical_json j1) = sha256_text (canonical_json j2) ->
  canon j1 = canon j2 \/ sha256_collision (canonical_json j1) (canonical_json j2).
Proof.
  intros H1 H2 E. destruct (decide (canonical_json j1 = canonical_json j2)) as [Heq|Hne].
  - left. by apply canonical_json_inj.
  - right. by split.
Qed.
