(* ===== verification/Utf8.v ===== *)
(** * Texts as code points and their UTF-8 encoding

    Where the code reads files, a [str] is the list of its code points:
    [bytes.decode("utf-8", errors="strict")], [str.encode("utf-8")] and
    [str.isspace], over all of Unicode. *)
From S2P Require Import Prelude Sha256.

Local Open Scope N_scope.

(** Python [str]: each element is a code point. *)
Abbreviation text := (list N).

Definition text_of (s : string) : text := N_of_ascii <$> list_ascii_of_string s.

(** [c.isspace()] *)
Definition isspace (c : N) : bool :=
  ((9 <=? c) && (c <=? 13)) || ((28 <=? c) && (c <=? 32)) || (c =? 133) || (c =? 160) ||
  (c =? 5760) || ((8192 <=? c) && (c <=? 8202)) || (c =? 8232) || (c =? 8233) || (c =? 8239) ||
  (c =? 8287) || (c =? 12288).

(** The code points that UTF-8 encodes: no surrogates. *)
Definition scalar (c : N) : bool :=
  (c <? 55296) || ((57343 <? c) && (c <=? 1114111)).

Definition encode_char (c : N) : list N :=
  if c <? 128 then [c]
  else if c <? 2048 then [192 + c / 64; 128 + c mod 64]
  else if c <? 65536 then [224 + c / 4096; 128 + c / 64 mod 64; 128 + c mod 64]
  else [240 + c / 262144; 128 + c / 4096 mod 64; 128 + c / 64 mod 64; 128 + c mod 64].

(** [t.encode("utf-8")] *)
Fixpoint encode (t : text) : result bytes :=
  match t with
  | [] => Ok []
  | c :: t =>
    if scalar c then let* b := encode t in Ok (encode_char c ++ b)
    else Err (Exn UnicodeEncodeError "surrogates not allowed")
  end.

Definition decode_err : exn := Exn UnicodeDecodeError "invalid utf-8".

(** A continuation byte gives six bits. *)
Definition continuation (b : N) : option N :=
  if (128 <=? b) && (b <? 192) then Some (b - 128) else None.

(** [b.decode("utf-8", errors="strict")]: overlong forms, surrogates, values
    above the last code point and truncated sequences are errors. *)
Fixpoint decode (b : bytes) : result text :=
  match b with
  | [] => Ok []
  | b0 :: r =>
    if b0 <? 128 then let* t := decode r in Ok (b0 :: t)
    else if (194 <=? b0) && (b0 <? 224) then
      match r with
      | b1 :: r =>
        match continuation b1 with
        | Some x1 => let* t := decode r in Ok ((b0 - 192) * 64 + x1 :: t)
        | None => Err decode_err
        end
      | _ => Err decode_err
      end
    else if (224 <=? b0) && (b0 <? 240) then
      match r with
      | b1 :: b2 :: r =>
        match continuation b1, continuation b2 with
        | Some x1, Some x2 =>
          let c := (b0 - 224) * 4096 + x1 * 64 + x2 in
          if (2048 <=? c) && scalar c then let* t := decode r in Ok (c :: t) else Err decode_err
        | _, _ => Err decode_err
        end
      | _ => Err decode_err
      end
    else if (240 <=? b0) && (b0 <? 245) then
      match r with
      | b1 :: b2 :: b3 :: r =>
        match continuation b1, continuation b2, continuation b3 with
        | Some x1, Some x2, Some x3 =>
          let c := (b0 - 240) * 262144 + x1 * 4096 + x2 * 64 + x3 in
          if (65536 <=? c) && scalar c then let* t := decode r in Ok (c :: t) else Err decode_err
        | _, _, _ => Err decode_err
        end
      | _ => Err decode_err
      end
    else Err decode_err
  end.

(** ** Decoding what was encoded *)

Lemma continuation_spec x : x < 64 -> continuation (128 + x) = Some x.
Proof.
  intros Hx. unfold continuation. rewrite (proj2 (N.leb_le _ _)), (proj2 (N.ltb_lt _ _)) by lia.
  simpl. f_equal. lia.
Qed.

Lemma decode_char c b :
  scalar c = true -> decode (encode_char c ++ b) = (let* t := decode b in Ok (c :: t)).
Proof.
  intros Hs. unfold encode_char.
  assert (forall x, x = 64 * (x / 64) + x mod 64 /\ x mod 64 < 64) as Hdiv
    by (intros x; split; [by apply N.div_mod|by apply N.mod_upper_bound]).
  destruct (Hdiv c) as [D0 H0], (Hdiv (c / 64)) as [D1 H1], (Hdiv (c / 4096)) as [D2 H2].
  assert (c / 64 / 64 = c / 4096) as E1 by (rewrite N.Div0.div_div; reflexivity).
  assert (c / 4096 / 64 = c / 262144) as E2 by (rewrite N.Div0.div_div; reflexivity).
  assert (c <= 1114111) as Hc.
  { unfold scalar in Hs. rewrite orb_true_iff, andb_true_iff, !N.ltb_lt, N.leb_le in Hs. lia. }
  rewrite E1 in D1. rewrite E2 in D2. clear Hdiv E1 E2.
  set (x0 := c mod 64) in *. set (x1 := (c / 64) mod 64) in *. set (x2 := (c / 4096) mod 64) in *.
  set (q0 := c / 64) in *. set (q1 := c / 4096) in *. set (q2 := c / 262144) in *.
  clearbody x0 x1 x2 q0 q1 q2.
  destruct (N.ltb_spec c 128); [|destruct (N.ltb_spec c 2048); [|destruct (N.ltb_spec c 65536)]];
    cbn [app decode].
  - by rewrite (proj2 (N.ltb_lt _ _)).
  - rewrite (proj2 (N.ltb_ge (192 + q0) 128)), (proj2 (N.leb_le 194 _)), (proj2 (N.ltb_lt _ 224)) by lia.
    cbn [andb]. rewrite continuation_spec by lia.
    by replace ((192 + q0 - 192) * 64 + x0) with c by lia.
  - rewrite (proj2 (N.ltb_ge (224 + q1) 128)), (proj2 (N.ltb_ge (224 + q1) 224)), andb_false_r by lia.
    rewrite (proj2 (N.leb_le 224 _)), (proj2 (N.ltb_lt _ 240)) by lia. cbn [andb].
    rewrite !continuation_spec by lia. cbv zeta.
    replace ((224 + q1 - 224) * 4096 + x1 * 64 + x0) with c by lia.
    by rewrite (proj2 (N.leb_le _ _)), Hs by lia.
  - rewrite (proj2 (N.ltb_ge (240 + q2) 128)), (proj2 (N.ltb_ge (240 + q2) 224)), andb_false_r by lia.
    rewrite (proj2 (N.ltb_ge (240 + q2) 240)), andb_false_r by lia.
    rewrite (proj2 (N.leb_le 240 _)), (proj2 (N.ltb_lt _ 245)) by lia. cbn [andb].
    rewrite !continuation_spec by lia. cbv zeta.
    replace ((240 + q2 - 240) * 262144 + x2 * 4096 + x1 * 64 + x0) with c by lia.
    by rewrite (proj2 (N.leb_le _ _)), Hs by lia.
Qed.

Lemma decode_encode t b : encode t = Ok b -> decode b = Ok t.
Proof.
  revert b. induction t as [|c t IH]; intros b H; [by apply Ok_inj in H as <-|]. cbn [encode] in H.
  destruct (scalar c) eqn:Hs; [|done]. apply bind_Ok in H as (b' & Hb & H). apply Ok_inj in H as <-.
  by rewrite decode_char, (IH b').
Qed.

Lemma encode_total t : Forall (fun c => scalar c = true) t -> exists b, encode t = Ok b.
Proof.
  induction 1 as [|c t Hc _ [b Hb]]; [by exists []|]. exists (encode_char c ++ b).
  cbn [encode]. by rewrite Hc, Hb.
Qed.

(** [decode] fails with one error only. *)
Lemma decode_fails b e : decode b = Err e -> e = decode_err.
Proof.
  enough (forall n b, (length b <= n)%nat -> decode b = Err e -> e = decode_err) as H by (by apply (H (length b))).
  assert (forall (r : result text) c, (let* t := r in Ok (c :: t)) = Err e -> r = Err e) as Hb
    by (intros [?|?] c; [done|by intros [= ->]]).
  clear b. induction n as [|n IH]; intros [|b0 r] Hn; simpl in Hn; try done; [lia|]. cbn [decode].
  destruct (b0 <? 128); [intros H%Hb; by apply (IH r); [lia|]|].
  destruct (_ && _).
  { destruct r as [|b1 r]; [by intros [=]|]. simpl in Hn. destruct (continuation b1); [|by intros [=]].
    intros H%Hb. apply (IH r); [lia|done]. }
  destruct (_ && _).
  { destruct r as [|b1 [|b2 r]]; [by intros [=]..|]. simpl in Hn.
    destruct (continuation b1), (continuation b2); try by intros [=].
    destruct (_ && _); [|by intros [=]]. intros H%Hb. apply (IH r); [lia|done]. }
  destruct (_ && _); [|by intros [=]].
  destruct r as [|b1 [|b2 [|b3 r]]]; [by intros [=]..|]. simpl in Hn.
  destruct (continuation b1), (continuation b2), (continuation b3); try by intros [=].
  destruct (_ && _); [|by intros [=]]. intros H%Hb. apply (IH r); [lia|done].
Qed.
