(* ===== verification/Sexpr.v ===== *)
(** * KiCad S-expressions (backend/kicad_io/sexpr.py)

    The bounded reader and the deterministic writer.  A text is the list of
    its code points.  The loop of [parse] is a recursion on fuel that consumes
    at least one character a turn; the texts of errors leave the offending
    character out. *)
From S2P Require Import Prelude PyStr Sha256 Utf8.

Local Open Scope N_scope.

Definition SyntaxErr (msg : string) : exn := Exn KiCadSyntaxError msg.

Definition lparen : N := 40.
Definition rparen : N := 41.
Definition dquote : N := 34.
Definition backslash : N := 92.
Definition newline : N := 10.
Definition space : N := 32.

(** The characters that delimit atoms. *)
Definition reserved (c : N) : bool := (c =? lparen) || (c =? rparen) || (c =? dquote).

(** [Atom], [Quoted] and tuples. *)
Inductive sexpr :=
  | Atom (value : text)
  | Quoted (value : text)
  | Node (children : list sexpr).

(** [Atom.__post_init__] *)
Definition atom_post_init (value : text) : result unit :=
  raise_first [
    (bool_decide (value = []) || existsb isspace value,
     SyntaxErr "S-expression atoms must be non-empty and whitespace-free");
    (existsb reserved value, SyntaxErr "S-expression atom contains a reserved character") ].
Definition new_atom (value : text) : result sexpr := atom_post_init value ;;; Ok (Atom value).

Module ParseLimits.
Record t := mk {
  maximum_bytes : Z;
  maximum_tokens : Z;
  maximum_depth : Z;
  maximum_atom_characters : Z;
}.
Definition post_init (l : t) : result unit :=
  raise_if (Z.min (maximum_bytes l) (Z.min (maximum_tokens l)
              (Z.min (maximum_depth l) (maximum_atom_characters l))) <=? 0)%Z
    (Exn ValueError "all S-expression parse limits must be positive").

Definition new (l : t) : result t := post_init l ;;; Ok l.
(** [DEFAULT_LIMITS] *)
Definition default : t := mk (32 * 1024 * 1024) 2000000 128 1000000.
End ParseLimits.

(** [atom(value)], of a text or an integer, [quoted(value)] and [node(head, *children)] *)
Definition atom (value : text + Z) : result sexpr :=
  new_atom match value with inl t => t | inr z => text_of (str_of_int z) end.
Definition quoted (value : text) : sexpr := Quoted value.
Definition node (head : text) (children : list sexpr) : result sexpr :=
  let* head := new_atom head in Ok (Node (head :: children)).

(** [head(expression)] and [scalar_text(expression, label=label)] *)
Definition head (e : sexpr) : option text :=
  match e with Node (Atom value :: _) => Some value | _ => None end.
Definition scalar_text (e : sexpr) (label : string) : result text :=
  match e with
  | Atom value | Quoted value => Ok value
  | Node _ => Err (SyntaxErr (label +:+ " must be an atom or quoted string"))
  end.

(** ** Reading *)

(** What the loop of [parse] keeps: the roots, the open lists (innermost
    first) and the number of tokens. *)
Record parser := Parser {
  p_roots : list sexpr;
  p_stack : list (list sexpr);
  p_tokens : Z;
}.

Definition count_token (limits : ParseLimits.t) (n : Z) : result Z :=
  raise_if (ParseLimits.maximum_tokens limits <? n + 1)%Z
    (SyntaxErr "KiCad source exceeds the token parser limit") ;;;
  Ok (n + 1)%Z.

(** [append_token(token)] *)
Definition append_token (limits : ParseLimits.t) (p : parser) (token : sexpr) : result parser :=
  let* n := count_token limits (p_tokens p) in
  Ok match p_stack p with
     | top :: stack => Parser (p_roots p) ((top ++ [token]) :: stack) n
     | [] => Parser (p_roots p ++ [token]) [] n
     end.

Definition open_list (limits : ParseLimits.t) (p : parser) : result parser :=
  let* n := count_token limits (p_tokens p) in
  let stack := [] :: p_stack p in
  raise_if (ParseLimits.maximum_depth limits <? Z.of_nat (length stack))%Z
    (SyntaxErr "KiCad source exceeds the nesting limit") ;;;
  Ok (Parser (p_roots p) stack n).

Definition close_list (limits : ParseLimits.t) (p : parser) : result parser :=
  match p_stack p with
  | [] => Err (SyntaxErr "unexpected ')'")
  | top :: stack => append_token limits (Parser (p_roots p) stack (p_tokens p)) (Node top)
  end.

(** The translations of escaped characters. *)
Definition unescape (c : N) : option N :=
  if c =? 110 then Some 10 else if c =? 114 then Some 13 else if c =? 116 then Some 9
  else if c =? dquote then Some dquote else if c =? backslash then Some backslash else None.

(** The rest of a quoted string: its value after [value], and what follows it. *)
Fixpoint read_quoted (limits : ParseLimits.t) (value t : text) : result (text * text) :=
  match t with
  | [] => Err (SyntaxErr "unterminated quoted string")
  | current :: t =>
    if current =? dquote then Ok (value, t)
    else if current =? backslash then
      match t with
      | [] => Err (SyntaxErr "unterminated escape in quoted string")
      | escaped :: t =>
        match unescape escaped with
        | None => Err (SyntaxErr "unsupported quoted-string escape")
        | Some c => read_quoted limits (value ++ [c]) t
        end
      end
    else
      raise_if ((current <? 32) && negb (current =? 9))
        (SyntaxErr "quoted string contains an unescaped control character") ;;;
      let value := value ++ [current] in
      raise_if (ParseLimits.maximum_atom_characters limits <? Z.of_nat (length value))%Z
        (SyntaxErr "quoted string exceeds the parser character limit") ;;;
      read_quoted limits value t
  end.

(** The characters of an atom, and what follows them. *)
Fixpoint read_atom (t : text) : text * text :=
  match t with
  | [] => ([], [])
  | c :: r => if isspace c || reserved c then ([], t)
              else let '(value, rest) := read_atom r in (c :: value, rest)
  end.

(** [while index < len(text)] *)
Fixpoint parse_loop (fuel : nat) (limits : ParseLimits.t) (p : parser) (t : text) : result parser :=
  match t with
  | [] => Ok p
  | character :: r =>
    match fuel with
    | O => Err (Exn RecursionError "out of fuel")
    | S fuel =>
      if isspace character then parse_loop fuel limits p r
      else if character =? lparen then
        let* p := open_list limits p in parse_loop fuel limits p r
      else if character =? rparen then
        let* p := close_list limits p in parse_loop fuel limits p r
      else if character =? dquote then
        let* '(value, r) := read_quoted limits [] r in
        let* p := append_token limits p (Quoted value) in
        parse_loop fuel limits p r
      else
        let '(value, r) := read_atom t in
        raise_if (bool_decide (value = [])) (SyntaxErr "invalid character") ;;;
        raise_if (ParseLimits.maximum_atom_characters limits <? Z.of_nat (length value))%Z
          (SyntaxErr "atom exceeds the parser character limit") ;;;
        let* e := new_atom value in
        let* p := append_token limits p e in
        parse_loop fuel limits p r
    end
  end.

Definition starts_with_bom (source : bytes) : bool :=
  match source with 239 :: 187 :: 191 :: _ => true | _ => false end.

(** [parse(source, limits=limits)] *)
Definition parse (source : bytes) (limits : ParseLimits.t) : result sexpr :=
  raise_first [
    ((ParseLimits.maximum_bytes limits <? Z.of_nat (length source))%Z,
     SyntaxErr "KiCad source exceeds the byte parser limit");
    (starts_with_bom source,
     SyntaxErr "UTF-8 BOM is not accepted in KiCad project input") ] ;;;
  let* t :=
    match decode source with
    | Ok t => Ok t
    | Err e => if is_a (exn_cls e) UnicodeDecodeError
               then Err (SyntaxErr "KiCad project input must be valid UTF-8") else Err e
    end in
  let* p := parse_loop (length t) limits (Parser [] [] 0) t in
  raise_if (negb (bool_decide (p_stack p = []))) (SyntaxErr "unterminated S-expression list") ;;;
  match p_roots p with
  | [e] => Ok e
  | _ => Err (SyntaxErr "KiCad project input must contain exactly one root expression")
  end.

(** ** Writing *)

(** [t.replace(c, s)] for one character [c] *)
Definition replace_char (c : N) (s t : text) : text := t ≫= fun x => if x =? c then s else [x].

Definition escaped (c : N) : text := [backslash; c].

Definition quoted_text (value : text) : text :=
  let e := replace_char 9 (escaped 116) (replace_char 13 (escaped 114) (replace_char 10 (escaped 110)
    (replace_char dquote (escaped dquote) (replace_char backslash (escaped backslash) value)))) in
  dquote :: e ++ [dquote].

(** [sep.join(l)] *)
Fixpoint join (sep : text) (l : list text) : text :=
  match l with
  | [] => []
  | [x] => x
  | x :: l => x ++ sep ++ join sep l
  end.

(** [canonical_text(expression)] *)
Fixpoint canonical_text (e : sexpr) : text :=
  match e with
  | Atom value => value
  | Quoted value => quoted_text value
  | Node children => [lparen] ++ join [space] (canonical_text <$> children) ++ [rparen]
  end.

Definition is_node (e : sexpr) : bool := match e with Node _ => true | _ => false end.

(** ["  " * depth] *)
Definition indentation (depth : nat) : text := replicate (2 * depth) space.

(** [_pretty(expression, depth)] *)
Fixpoint pretty (e : sexpr) (depth : nat) : text :=
  match e with
  | Atom _ | Quoted _ => canonical_text e
  | Node [] => [lparen; rparen]
  | Node (first :: rest) =>
    let inline := canonical_text e in
    if (length inline <=? 100)%nat && negb (existsb is_node rest) then inline
    else
      let rendered := (fun child =>
        let child_text := pretty child (S depth) in
        if is_node child then indentation (S depth) ++ child_text else child_text) <$> rest in
      if forallb (fun child => negb (is_node child)) rest then inline
      else [lparen] ++ canonical_text first ++ [newline] ++ join [newline] rendered ++ [newline] ++
           indentation depth ++ [rparen]
  end.

(** [render(expression)] *)
Definition render (e : sexpr) : result bytes := encode (pretty e 0 ++ [newline]).
