(* ===== verification/SexprRead.v ===== *)
(** * Reading what was written

    The texts that stand for an expression, that the writer produces one and
    that the reader rebuilds the expression from any of them; the bounds of
    what the reader accepts. *)
From S2P Require Import Prelude Sha256 Utf8 Sexpr.

Local Open Scope N_scope.

(** ** Sizes *)

Fixpoint tokens (e : sexpr) : Z :=
  match e with
  | Node l => 2 + foldr Z.add 0 (tokens <$> l)
  | _ => 1
  end%Z.
Fixpoint depth (e : sexpr) : Z :=
  match e with
  | Node l => 1 + foldr Z.max 0 (depth <$> l)
  | _ => 0
  end%Z.
Definition tokens_of (l : list sexpr) : Z := foldr Z.add 0%Z (tokens <$> l).
Definition depth_of (l : list sexpr) : Z := foldr Z.max 0%Z (depth <$> l).

Lemma sexpr_ind_nested (P : sexpr -> Prop) :
  (forall v, P (Atom v)) -> (forall v, P (Quoted v)) ->
  (forall l, Forall P l -> P (Node l)) -> forall e, P e.
Proof.
  intros Ha Hq Hn. fix IH 1. intros [v|v|l]; [apply Ha|apply Hq|]. apply Hn.
  induction l as [|e l IHl]; constructor; [apply IH|exact IHl].
Qed.

Lemma tokens_of_cons e l : tokens_of (e :: l) = (tokens e + tokens_of l)%Z.
Proof. done. Qed.
Lemma depth_of_cons e l : depth_of (e :: l) = Z.max (depth e) (depth_of l).
Proof. done. Qed.
Lemma tokens_Node l : tokens (Node l) = (2 + tokens_of l)%Z.
Proof. done. Qed.
Lemma depth_Node l : depth (Node l) = (1 + depth_of l)%Z.
Proof. done. Qed.

Lemma tokens_of_app l1 l2 : tokens_of (l1 ++ l2) = (tokens_of l1 + tokens_of l2)%Z.
Proof.
  induction l1 as [|e l1 IH]; [done|]. rewrite <- app_comm_cons, !tokens_of_cons, IH. lia.
Qed.
Lemma depth_of_nonneg l : (0 <= depth_of l)%Z.
Proof. induction l as [|e l IH]; [done|]. rewrite depth_of_cons. lia. Qed.
Lemma depth_of_app l1 l2 : depth_of (l1 ++ l2) = Z.max (depth_of l1) (depth_of l2).
Proof.
  induction l1 as [|e l1 IH].
  { change (depth_of l2 = Z.max 0 (depth_of l2)). pose proof (depth_of_nonneg l2). lia. }
  rewrite <- app_comm_cons, !depth_of_cons, IH. lia.
Qed.
Lemma depth_nonneg e : (0 <= depth e)%Z.
Proof. destruct e as [| |l]; [done..|]. rewrite depth_Node. pose proof (depth_of_nonneg l). lia. Qed.
Lemma tokens_nonneg e : (1 <= tokens e)%Z.
Proof.
  induction e as [v|v|l IH] using sexpr_ind_nested; [done..|]. rewrite tokens_Node.
  enough (0 <= tokens_of l)%Z by lia.
  induction IH as [|e l He _ IHl]; [done|]. rewrite tokens_of_cons. lia.
Qed.
Lemma tokens_of_nonneg l : (0 <= tokens_of l)%Z.
Proof.
  induction l as [|e l IH]; [done|]. rewrite tokens_of_cons. pose proof (tokens_nonneg e). lia.
Qed.

Lemma tokens_of_snoc l e : tokens_of (l ++ [e]) = (tokens_of l + tokens e)%Z.
Proof. rewrite tokens_of_app, tokens_of_cons. change (tokens_of []) with 0%Z. lia. Qed.
Lemma depth_of_snoc l e : depth_of (l ++ [e]) = Z.max (depth_of l) (depth e).
Proof.
  rewrite depth_of_app, depth_of_cons. change (depth_of []) with 0%Z. pose proof (depth_nonneg e). lia.
Qed.

(** ** Expressions that can be written *)

Section limits.
Variable limits : ParseLimits.t.

Definition atom_ok (v : text) : Prop :=
  v <> [] /\ Forall (fun c => isspace c = false /\ reserved c = false) v /\
  (Z.of_nat (length v) <= ParseLimits.maximum_atom_characters limits)%Z.
(** Control characters can only be escaped as \n, \r and \t. *)
Definition quoted_ok (v : text) : Prop :=
  Forall (fun c => 32 <= c \/ c = 9 \/ c = 10 \/ c = 13) v /\
  (Z.of_nat (length v) <= ParseLimits.maximum_atom_characters limits)%Z.

Fixpoint writable (e : sexpr) : Prop :=
  match e with
  | Atom v => atom_ok v
  | Quoted v => quoted_ok v
  | Node l => foldr and True (writable <$> l)
  end.

Lemma writable_Node l : writable (Node l) <-> Forall writable l.
Proof.
  simpl. induction l as [|e l IH]; simpl; [split; [constructor|done]|]. by rewrite Forall_cons, IH.
Qed.

Lemma atom_post_init_Ok v :
  atom_post_init v = Ok tt <->
  v <> [] /\ Forall (fun c => isspace c = false /\ reserved c = false) v.
Proof.
  unfold atom_post_init. rewrite raise_first_Ok, !Forall_cons. cbn [fst].
  rewrite orb_false_iff, bool_decide_eq_false, !existsb_Forall, Forall_and. naive_solver.
Qed.

(** ** Texts of an expression *)

Definition blank (w : text) : Prop := Forall (fun c => isspace c = true) w.
(** What may follow an atom. *)
Definition delimited (t : text) : Prop :=
  match t with [] => True | c :: _ => isspace c || reserved c = true end.

(** [layout e t]: [t] is a text of [e]; [layouts l t]: of the elements [l] of a
    list, with its closing parenthesis. *)
Inductive layout : sexpr -> text -> Prop :=
  | layout_atom v : layout (Atom v) v
  | layout_quoted v : layout (Quoted v) (quoted_text v)
  | layout_node l t : layouts l t -> layout (Node l) (lparen :: t)
with layouts : list sexpr -> text -> Prop :=
  | layouts_nil w : blank w -> layouts [] (w ++ [rparen])
  | layouts_cons e l w t u :
    blank w -> layout e t -> delimited u -> layouts l u -> layouts (e :: l) (w ++ t ++ u).

Scheme layout_mut := Induction for layout Sort Prop
  with layouts_mut := Induction for layouts Sort Prop.
Combined Scheme layout_layouts_ind from layout_mut, layouts_mut.

Lemma layouts_blank w l t : blank w -> layouts l t -> layouts l (w ++ t).
Proof.
  intros Hw H. destruct H as [w' Hw'|e l w' t u Hw' Ht Hu Hl].
  - rewrite app_assoc. constructor. by apply Forall_app.
  - rewrite app_assoc. constructor; try done. by apply Forall_app.
Qed.

Lemma delimited_blank w t : w <> [] -> blank w -> delimited (w ++ t).
Proof. intros Hn Hw. destruct Hw as [|c w Hc Hw]; [done|]. simpl. by rewrite Hc. Qed.

(** Texts of the elements, blank characters before them, joined by [sep]. *)
Lemma join_layouts sep w l ts :
  sep <> [] -> blank sep -> blank w ->
  Forall2 (fun e t => exists w' t', blank w' /\ t = w' ++ t' /\ layout e t') l ts ->
  layouts l (join sep ts ++ w ++ [rparen]).
Proof.
  intros Hn Hs Hw. induction 1 as [|e t l ts (w' & t' & Hw' & -> & Ht) Hl IH].
  { simpl. by constructor. }
  destruct Hl as [|e2 t2 l2 ts2 H2 Hl2].
  - cbn [join]. rewrite <- app_assoc. apply layouts_cons; [done|done| |by constructor].
    destruct Hw as [|c w Hc Hw]; [done|]. simpl. by rewrite Hc.
  - replace (join sep ((w' ++ t') :: t2 :: ts2) ++ w ++ [rparen])
      with (w' ++ t' ++ (sep ++ (join sep (t2 :: ts2) ++ w ++ [rparen])))
      by (cbn [join]; by rewrite <- !app_assoc).
    apply layouts_cons; [done|done|by apply (delimited_blank sep)|by apply layouts_blank].
Qed.

Lemma canonical_layout e : layout e (canonical_text e).
Proof.
  induction e as [v|v|l IH] using sexpr_ind_nested; [constructor..|]. cbn [canonical_text].
  change ([lparen] ++ ?t) with (lparen :: t). constructor.
  change [rparen] with ([] ++ [rparen]). apply join_layouts; [done|by repeat constructor|constructor|].
  apply Forall2_fmap_r. induction IH as [|e l He _ IHl]; constructor; [|done].
  exists [], (canonical_text e). split_and!; [constructor|done|done].
Qed.

Lemma blank_indentation n : blank (indentation n).
Proof. unfold indentation. apply Forall_replicate. done. Qed.

Lemma pretty_layout e n : layout e (pretty e n).
Proof.
  revert n. induction e as [v|v|l IH] using sexpr_ind_nested; intros n; [apply canonical_layout..|].
  destruct l as [|first rest].
  { change (layout (Node []) (lparen :: [] ++ [rparen])). repeat constructor. }
  pose proof (canonical_layout (Node (first :: rest))) as Hinline. cbn [pretty].
  destruct (_ && _); [done|]. destruct (forallb _ rest); [done|].
  change ([lparen] ++ ?t) with (lparen :: t). constructor.
  apply (layouts_cons _ _ []); [constructor|apply canonical_layout|done|].
  apply (layouts_blank [newline]); [by repeat constructor|].
  rewrite (app_assoc [newline]).
  apply join_layouts; [done|by repeat constructor|by repeat constructor; apply blank_indentation|].
  apply Forall_inv_tail in IH. apply Forall2_fmap_r.
  induction IH as [|e l He _ IHl]; constructor; [|apply IHl, canonical_layout].
  unfold compose. destruct (is_node e); [exists (indentation (S n))|exists []];
    exists (pretty e (S n)); (split_and!; [|done|apply He]); [apply blank_indentation|constructor].
Qed.
End limits.

(** * What the S-expression reader accepts

    The reader rebuilds an expression from any of its texts, within the limits,
    and what it accepts is within the limits. *)

Section reader.
Variable limits : ParseLimits.t.

(** ** Tokens *)

(** The parser with [e] appended and [n] tokens counted. *)
Definition placed (p : parser) (e : sexpr) (n : Z) : parser :=
  match p_stack p with
  | top :: stack => Parser (p_roots p) ((top ++ [e]) :: stack) n
  | [] => Parser (p_roots p ++ [e]) [] n
  end.

Lemma count_token_Ok n m :
  count_token limits n = Ok m <-> (n + 1 <= ParseLimits.maximum_tokens limits)%Z /\ m = (n + 1)%Z.
Proof.
  unfold count_token. rewrite seq_Ok, raise_if_Ok, Z.ltb_ge. split.
  - by intros [H <-%Ok_inj].
  - by intros [H ->].
Qed.

Lemma append_token_Ok p e p' :
  append_token limits p e = Ok p' <->
  (p_tokens p + 1 <= ParseLimits.maximum_tokens limits)%Z /\ p' = placed p e (p_tokens p + 1).
Proof.
  unfold append_token. rewrite bind_Ok. split.
  - intros (n & [H ->]%count_token_Ok & <-%Ok_inj). split; [done|]. unfold placed. by destruct (p_stack p).
  - intros [H ->]. exists (p_tokens p + 1)%Z. split; [by apply count_token_Ok|].
    unfold placed. by destruct (p_stack p).
Qed.

(** ** One turn of the loop *)

Lemma loop_blank fuel p w rest :
  blank w -> (length (w ++ rest) <= fuel)%nat ->
  exists fuel', (length rest <= fuel')%nat /\
    parse_loop fuel limits p (w ++ rest) = parse_loop fuel' limits p rest.
Proof.
  revert fuel. induction w as [|c w IH]; intros fuel Hw Hf; [by exists fuel|].
  apply Forall_cons in Hw as [Hc Hw]. destruct fuel as [|fuel]; [simpl in Hf; lia|].
  destruct (IH fuel Hw) as (fuel' & Hf' & E); [simpl in Hf; lia|]. exists fuel'. split; [done|].
  rewrite <- E. simpl. by rewrite Hc.
Qed.

Lemma read_atom_app v rest :
  Forall (fun c => isspace c = false /\ reserved c = false) v -> delimited rest ->
  read_atom (v ++ rest) = (v, rest).
Proof.
  intros Hv Hr. induction Hv as [|c v [Hs Hc] _ IH].
  - destruct rest as [|c rest]; [done|]. simpl in *. by rewrite Hr.
  - simpl. by rewrite Hs, Hc, IH.
Qed.

Lemma loop_atom fuel p v rest :
  atom_ok limits v -> delimited rest ->
  (p_tokens p + 1 <= ParseLimits.maximum_tokens limits)%Z -> (length (v ++ rest) <= fuel)%nat ->
  exists fuel', (length rest <= fuel')%nat /\
    parse_loop fuel limits p (v ++ rest) =
      parse_loop fuel' limits (placed p (Atom v) (p_tokens p + 1)) rest.
Proof.
  intros (Hn & Hv & Hl) Hr Ht Hf. destruct v as [|c v]; [done|].
  destruct fuel as [|fuel]; [simpl in Hf; lia|]. exists fuel.
  split; [rewrite length_app in Hf; simpl in Hf; lia|].
  pose proof (read_atom_app (c :: v) rest Hv Hr) as Hread.
  pose proof (proj2 (atom_post_init_Ok (c :: v)) (conj Hn Hv)) as Hinit.
  apply Forall_cons in Hv as [[Hs Hc] _].
  unfold reserved in Hc. apply orb_false_iff in Hc as [[H1 H2]%orb_false_iff H3].
  rewrite <- app_comm_cons in *. cbn [parse_loop]. rewrite Hs, H1, H2, H3, Hread.
  rewrite bool_decide_eq_false_2 by done. cbn [raise_if seq].
  unfold new_atom. rewrite Hinit.
  rewrite (proj2 (Z.ltb_ge _ _)) by done. cbn [raise_if seq bind].
  by rewrite (proj2 (append_token_Ok p (Atom (c :: v)) _) (conj Ht eq_refl)).
Qed.

(** ** Quoted strings *)

(** How a character of a quoted string is written. *)
Definition escape (c : N) : text :=
  if c =? backslash then escaped backslash else if c =? dquote then escaped dquote
  else if c =? 10 then escaped 110 else if c =? 13 then escaped 114
  else if c =? 9 then escaped 116 else [c].

Lemma replace_char_app c s t1 t2 :
  replace_char c s (t1 ++ t2) = replace_char c s t1 ++ replace_char c s t2.
Proof. unfold replace_char. by rewrite bind_app. Qed.

Lemma quoted_text_escape v : quoted_text v = dquote :: (v ≫= escape) ++ [dquote].
Proof.
  unfold quoted_text. f_equal. f_equal. induction v as [|c v IH]; [done|].
  change (c :: v) with ([c] ++ v). rewrite !replace_char_app, IH, bind_app. f_equal.
  unfold escape, replace_char. cbn [mbind list_bind app].
  destruct (N.eqb_spec c backslash) as [->|H1]; [done|].
  destruct (N.eqb_spec c dquote) as [->|H2]; [done|].
  destruct (N.eqb_spec c 10) as [->|H3]; [done|]. destruct (N.eqb_spec c 13) as [->|H4]; [done|].
  destruct (N.eqb_spec c 9) as [->|H5]; [done|].
  cbn. rewrite (proj2 (N.eqb_neq c dquote)) by done. cbn. rewrite (proj2 (N.eqb_neq c 10)) by done.
  cbn. rewrite (proj2 (N.eqb_neq c 13)) by done. cbn. by rewrite (proj2 (N.eqb_neq c 9)).
Qed.

Lemma read_quoted_escape v acc rest :
  quoted_ok limits (acc ++ v) ->
  read_quoted limits acc ((v ≫= escape) ++ dquote :: rest) = Ok (acc ++ v, rest).
Proof.
  revert acc. induction v as [|c v IH]; intros acc [Hc Hl]; [by rewrite app_nil_r|].
  assert (quoted_ok limits ((acc ++ [c]) ++ v)) as Hok by (rewrite <- app_assoc; by split).
  specialize (IH _ Hok). rewrite <- (app_assoc acc [c] v) in IH. change ([c] ++ v) with (c :: v) in IH.
  change ((c :: v) ≫= escape) with (escape c ++ (v ≫= escape)). rewrite <- app_assoc.
  unfold escape at 1.
  destruct (N.eqb_spec c backslash) as [->|H1]; [exact IH|].
  destruct (N.eqb_spec c dquote) as [->|H2]; [exact IH|].
  destruct (N.eqb_spec c 10) as [->|H3]; [exact IH|]. destruct (N.eqb_spec c 13) as [->|H4]; [exact IH|].
  destruct (N.eqb_spec c 9) as [->|H5]; [exact IH|].
  cbn [app read_quoted]. rewrite (proj2 (N.eqb_neq c dquote)), (proj2 (N.eqb_neq c backslash)) by done.
  assert ((c <? 32) = false) as ->.
  { apply N.ltb_ge. apply Forall_app in Hc as [_ Hc]. apply Forall_cons in Hc as [Hc _].
    destruct Hc as [Hc|[Hc|[Hc|Hc]]]; done. }
  cbn [andb raise_if seq]. rewrite (proj2 (Z.ltb_ge _ _)); [exact IH|].
  rewrite length_app in Hl |- *. simpl in *. lia.
Qed.

Lemma loop_quoted fuel p v rest :
  quoted_ok limits v ->
  (p_tokens p + 1 <= ParseLimits.maximum_tokens limits)%Z ->
  (length (quoted_text v ++ rest) <= fuel)%nat ->
  exists fuel', (length rest <= fuel')%nat /\
    parse_loop fuel limits p (quoted_text v ++ rest) =
      parse_loop fuel' limits (placed p (Quoted v) (p_tokens p + 1)) rest.
Proof.
  rewrite quoted_text_escape. intros Hv Ht Hf. destruct fuel as [|fuel]; [simpl in Hf; lia|].
  exists fuel. split; [simpl in Hf; rewrite !length_app in Hf; lia|].
  rewrite <- app_comm_cons, <- app_assoc. cbn [parse_loop app].
  change (isspace dquote) with false. change (dquote =? lparen) with false.
  change (dquote =? rparen) with false. change (dquote =? dquote) with true. cbv iota.
  rewrite (read_quoted_escape v [] rest Hv). cbn [bind app].
  by rewrite (proj2 (append_token_Ok p (Quoted v) _) (conj Ht eq_refl)).
Qed.

(** ** Whole expressions *)

Lemma layouts_not_nil l u : layouts l u -> u <> [].
Proof.
  revert u. induction l as [|e l IH]; intros u H.
  - inversion H as [w _ E|]. by destruct w.
  - inversion H as [|e' l' w t u' _ _ _ Hl E']. subst. intros [_ [_ ->]%app_eq_nil]%app_eq_nil.
    by apply (IH []).
Qed.

Lemma delimited_app u rest : u <> [] -> delimited u -> delimited (u ++ rest).
Proof. by destruct u. Qed.

Let room (p : parser) (n d : Z) : Prop :=
  (p_tokens p + n <= ParseLimits.maximum_tokens limits)%Z /\
  (Z.of_nat (length (p_stack p)) + d <= ParseLimits.maximum_depth limits)%Z.

Definition reads (e : sexpr) (t : text) : Prop :=
  forall p rest fuel,
    writable limits e -> delimited rest -> room p (tokens e) (depth e) ->
    (length (t ++ rest) <= fuel)%nat ->
    exists fuel', (length rest <= fuel')%nat /\
      parse_loop fuel limits p (t ++ rest) =
        parse_loop fuel' limits (placed p e (p_tokens p + tokens e)) rest.

Definition reads_list (l : list sexpr) (u : text) : Prop :=
  forall p top stack rest fuel,
    p_stack p = top :: stack -> Forall (writable limits) l -> room p (tokens_of l + 1) (depth_of l) ->
    (length (u ++ rest) <= fuel)%nat ->
    exists fuel', (length rest <= fuel')%nat /\
      parse_loop fuel limits p (u ++ rest) =
        parse_loop fuel' limits
          (placed (Parser (p_roots p) stack (p_tokens p)) (Node (top ++ l))
             (p_tokens p + (tokens_of l + 1))) rest.

Lemma reads_node l t : reads_list l t -> reads (Node l) (lparen :: t).
Proof.
  intros IH p rest fuel Hw _ [Ht Hd] Hf. rewrite tokens_Node in *. rewrite depth_Node in Hd.
  pose proof (tokens_of_nonneg l) as Hn. pose proof (depth_of_nonneg l) as Hdn.
  destruct fuel as [|fuel]; [simpl in Hf; lia|].
  set (p1 := Parser (p_roots p) ([] :: p_stack p) (p_tokens p + 1)).
  assert (open_list limits p = Ok p1) as Hopen.
  { unfold open_list. rewrite (proj2 (count_token_Ok (p_tokens p) (p_tokens p + 1))) by (split; [lia|done]).
    cbn [bind]. rewrite (proj2 (Z.ltb_ge _ _)); [done|]. simpl length. lia. }
  destruct (IH p1 [] (p_stack p) rest fuel eq_refl) as (fuel' & Hf' & E).
  - by apply writable_Node.
  - split; [simpl; lia|]. simpl length. lia.
  - simpl in Hf. lia.
  - exists fuel'. split; [done|]. rewrite <- app_comm_cons. cbn [parse_loop].
    change (isspace lparen) with false. change (lparen =? lparen) with true. cbv iota.
    rewrite Hopen. cbn [bind]. rewrite E. f_equal. unfold placed. cbn [p_stack p_tokens p_roots p1 app].
    destruct (p_stack p); f_equal; lia.
Qed.

Lemma reads_end w : blank w -> reads_list [] (w ++ [rparen]).
Proof.
  intros Hw p top stack rest fuel Hs _ [Ht _] Hf. rewrite <- app_assoc in *.
  destruct (loop_blank fuel p w _ Hw Hf) as (fuel1 & Hf1 & ->).
  destruct fuel1 as [|fuel1]; [simpl in Hf1; lia|]. exists fuel1. split; [simpl in Hf1; lia|].
  cbn [app parse_loop]. change (isspace rparen) with false. change (rparen =? lparen) with false.
  change (rparen =? rparen) with true. cbv iota. unfold close_list. rewrite Hs, app_nil_r.
  change (tokens_of [] + 1)%Z with 1%Z in *.
  by rewrite (proj2 (append_token_Ok (Parser (p_roots p) stack (p_tokens p)) (Node top) _)
    (conj Ht eq_refl)).
Qed.

Lemma reads_cons e l w t u :
  blank w -> delimited u -> u <> [] -> reads e t -> reads_list l u -> reads_list (e :: l) (w ++ t ++ u).
Proof.
  intros Hw Hu Hne He Hl p top stack rest fuel Hs Hwr [Ht Hd] Hf.
  rewrite tokens_of_cons in *. rewrite depth_of_cons in Hd. apply Forall_cons in Hwr as [Hwe Hwl].
  pose proof (tokens_of_nonneg l). pose proof (tokens_nonneg e).
  rewrite <- !app_assoc in *. destruct (loop_blank fuel p w _ Hw Hf) as (fuel1 & Hf1 & ->).
  destruct (He p (u ++ rest) fuel1) as (fuel2 & Hf2 & ->);
    [done|by apply delimited_app|split; lia|done|].
  set (p1 := placed p e (p_tokens p + tokens e)).
  assert (p1 = Parser (p_roots p) ((top ++ [e]) :: stack) (p_tokens p + tokens e)) as Ep
    by (unfold p1, placed; by rewrite Hs).
  destruct (Hl p1 (top ++ [e]) stack rest fuel2) as (fuel3 & Hf3 & ->);
    [by rewrite Ep|done| |done|].
  - rewrite Ep. split; [simpl; lia|]. rewrite Hs in Hd. simpl in *. lia.
  - exists fuel3. split; [done|]. rewrite Ep. f_equal. unfold placed. cbn [p_stack p_roots p_tokens].
    rewrite <- app_assoc. destruct stack; f_equal; lia.
Qed.

Lemma layout_reads :
  (forall e t, layout e t -> reads e t) /\ (forall l u, layouts l u -> reads_list l u).
Proof.
  apply layout_layouts_ind.
  - intros v p rest fuel Hv Hr [Ht _] Hf. by apply loop_atom.
  - intros v p rest fuel Hv _ [Ht _] Hf. by apply loop_quoted.
  - intros l t _ IH. by apply reads_node.
  - intros w Hw. by apply reads_end.
  - intros e l w t u Hw _ He Hu Hl IHl. apply reads_cons; try done. by eapply layouts_not_nil.
Qed.

(** ** What is accepted *)

(** Atoms that the reader may build. *)
Fixpoint atoms_ok (e : sexpr) : Prop :=
  match e with
  | Atom v => atom_ok limits v
  | Quoted _ => True
  | Node l => foldr and True (atoms_ok <$> l)
  end.
Lemma atoms_ok_Node l : atoms_ok (Node l) <-> Forall atoms_ok l.
Proof.
  simpl. induction l as [|e l IH]; simpl; [split; [constructor|done]|]. by rewrite Forall_cons, IH.
Qed.

(** The open lists are within the limits: they are nested below each other. *)
Fixpoint stack_ok (stack : list (list sexpr)) : Prop :=
  match stack with
  | [] => True
  | top :: stack =>
    (Z.of_nat (length stack) + 1 + depth_of top <= ParseLimits.maximum_depth limits)%Z /\
    Forall atoms_ok top /\ stack_ok stack
  end.

Definition open_tokens (stack : list (list sexpr)) : Z :=
  foldr (fun l n => 1 + tokens_of l + n)%Z 0%Z stack.

Lemma open_tokens_cons top stack :
  open_tokens (top :: stack) = (1 + tokens_of top + open_tokens stack)%Z.
Proof. done. Qed.

Record within (p : parser) : Prop := {
  wi_tokens : p_tokens p = (tokens_of (p_roots p) + open_tokens (p_stack p))%Z;
  wi_limit : (p_tokens p <= Z.max 0 (ParseLimits.maximum_tokens limits))%Z;
  wi_roots : (depth_of (p_roots p) <= Z.max 0 (ParseLimits.maximum_depth limits))%Z;
  wi_atoms : Forall atoms_ok (p_roots p);
  wi_stack : stack_ok (p_stack p);
}.

(** A result within the bounds, or a syntax error. *)
Definition sound_result (r : result parser) : Prop :=
  match r with Ok p => within p | Err e => exn_cls e = KiCadSyntaxError end.

Lemma append_sound p e :
  (p_tokens p + 1 = tokens_of (p_roots p) + open_tokens (p_stack p) + tokens e)%Z ->
  (depth_of (p_roots p) <= Z.max 0 (ParseLimits.maximum_depth limits))%Z ->
  (Z.of_nat (length (p_stack p)) + depth e <= Z.max 0 (ParseLimits.maximum_depth limits))%Z ->
  Forall atoms_ok (p_roots p) -> stack_ok (p_stack p) -> atoms_ok e ->
  sound_result (append_token limits p e).
Proof.
  intros Ht Hd He Hr Hs Ha. destruct (append_token limits p e) as [p'|x] eqn:E; simpl.
  - apply append_token_Ok in E as [Hm ->]. unfold placed. destruct (p_stack p) as [|top stack].
    + constructor; cbn [p_roots p_stack p_tokens]; [..|done].
      * rewrite tokens_of_snoc. lia.
      * lia.
      * rewrite depth_of_snoc. simpl in He. lia.
      * apply Forall_app. split; [done|]. by constructor.
    + destruct Hs as (Hd1 & Ha1 & Hs). cbn [length] in He. pose proof (depth_of_nonneg top).
      constructor; cbn [p_roots p_stack p_tokens]; [..|split_and!]; try done.
      * rewrite open_tokens_cons in *. rewrite tokens_of_snoc. lia.
      * lia.
      * rewrite depth_of_snoc. lia.
      * apply Forall_app. split; [done|]. by constructor.
  - unfold append_token in E. destruct (count_token limits (p_tokens p)) as [n|y] eqn:Ec; [done|].
    unfold count_token in Ec. destruct (_ <? _)%Z; [|done]. simpl in *. by simplify_eq.
Qed.

Lemma open_sound p : within p -> sound_result (open_list limits p).
Proof.
  intros [Ht Hl Hr Ha Hs]. unfold open_list, count_token.
  destruct (Z.ltb_spec (ParseLimits.maximum_tokens limits) (p_tokens p + 1)) as [E1|E1]; [done|].
  cbn [raise_if seq bind].
  destruct (Z.ltb_spec (ParseLimits.maximum_depth limits) (Z.of_nat (length ([] :: p_stack p))))
    as [E2|E2]; [done|]. cbn [raise_if seq].
  constructor; cbn [p_roots p_stack p_tokens]; try done.
  - rewrite open_tokens_cons. change (tokens_of []) with 0%Z. lia.
  - lia.
  - cbn [length] in E2. simpl. change (depth_of []) with 0%Z. split_and!; [lia|constructor|done].
Qed.

Lemma close_sound p : within p -> sound_result (close_list limits p).
Proof.
  intros [Ht Hl Hr Ha Hs]. unfold close_list. destruct (p_stack p) as [|top stack]; [done|].
  destruct Hs as (Hd & Hat & Hs).
  apply append_sound; cbn [p_roots p_stack p_tokens]; try done.
  - rewrite tokens_Node. rewrite open_tokens_cons in Ht. lia.
  - rewrite depth_Node. lia.
  - by apply atoms_ok_Node.
Qed.

Lemma leaf_sound p e :
  within p -> tokens e = 1%Z -> depth e = 0%Z -> atoms_ok e -> sound_result (append_token limits p e).
Proof.
  intros [Ht Hl Hr Ha Hs] H1 H0 He. apply append_sound; try done; [lia|].
  destruct (p_stack p) as [|top stack]; [simpl; lia|]. destruct Hs as [Hd _].
  pose proof (depth_of_nonneg top). simpl length. lia.
Qed.

(** What is left after a quoted string or an atom is shorter. *)
Lemma read_quoted_sound acc t :
  match read_quoted limits acc t with
  | Ok (_, r) => (length r < length t)%nat
  | Err e => exn_cls e = KiCadSyntaxError
  end.
Proof.
  enough (forall n t acc, (length t <= n)%nat -> match read_quoted limits acc t with
    | Ok (_, r) => (length r < length t)%nat | Err e => exn_cls e = KiCadSyntaxError end) as H
    by (by apply (H (length t))).
  clear. induction n as [|n IH]; intros [|c t] acc Hn; simpl in Hn; try done; [lia|]. cbn [read_quoted].
  destruct (c =? dquote); [simpl; lia|]. destruct (c =? backslash).
  - destruct t as [|c2 t]; [done|]. destruct (unescape c2) as [c3|]; [|done].
    specialize (IH t (acc ++ [c3])). simpl in Hn.
    destruct (read_quoted limits (acc ++ [c3]) t) as [[v r]|e]; [|apply IH; lia].
    simpl. specialize (IH ltac:(lia)). lia.
  - destruct (_ && _); [done|]. cbn [raise_if seq].
    destruct (_ <? _)%Z; [done|]. cbn [raise_if seq]. specialize (IH t (acc ++ [c])).
    destruct (read_quoted limits (acc ++ [c]) t) as [[v r]|e]; [|apply IH; lia].
    simpl. specialize (IH ltac:(lia)). lia.
Qed.

Lemma read_atom_spec t v r :
  read_atom t = (v, r) ->
  t = v ++ r /\ Forall (fun c => isspace c = false /\ reserved c = false) v.
Proof.
  revert v r. induction t as [|c t IH]; intros v r H; simpl in H; [by simplify_eq|].
  destruct (isspace c || reserved c) eqn:Ec; [by simplify_eq|].
  destruct (read_atom t) as [v' r'] eqn:Er. simplify_eq. destruct (IH _ _ eq_refl) as [-> Hv].
  apply orb_false_iff in Ec. split; [done|]. by constructor.
Qed.

Lemma loop_sound fuel t p :
  within p -> (length t <= fuel)%nat -> sound_result (parse_loop fuel limits p t).
Proof.
  revert t p. induction fuel as [|fuel IH]; intros [|c t] p Hp Hf; simpl in Hf; try done; [lia|].
  assert (forall r rest, sound_result r -> (length rest <= fuel)%nat ->
    sound_result (let* p := r in parse_loop fuel limits p rest)) as Hnext.
  { intros [p'|e] rest Hr Hl; [|done]. by apply IH. }
  cbn [parse_loop]. destruct (isspace c) eqn:Es; [apply IH; [done|lia]|].
  destruct (c =? lparen) eqn:E1; [apply Hnext; [by apply open_sound|lia]|].
  destruct (c =? rparen) eqn:E2; [apply Hnext; [by apply close_sound|lia]|].
  destruct (c =? dquote) eqn:E3.
  - pose proof (read_quoted_sound [] t) as Hq. destruct (read_quoted limits [] t) as [[v r]|e]; [|done].
    cbn [bind]. apply Hnext; [by apply leaf_sound|lia].
  - destruct (read_atom (c :: t)) as [v r] eqn:Er. pose proof (read_atom_spec _ _ _ Er) as [Et Hv].
    destruct (bool_decide (v = [])) eqn:Ev.
    { apply bool_decide_eq_true in Ev as ->. simpl in Er. unfold reserved in Er.
      rewrite Es, E1, E2, E3 in Er. simpl in Er. by destruct (read_atom t). }
    apply bool_decide_eq_false in Ev. cbn [raise_if seq]. destruct (_ <? _)%Z eqn:El; [done|].
    cbn [raise_if seq]. apply Z.ltb_ge in El. unfold new_atom.
    rewrite (proj2 (atom_post_init_Ok v)) by done. cbn [seq bind].
    apply Hnext; [apply leaf_sound; done|].
    destruct v as [|c' v]; [done|]. apply (f_equal length) in Et. simpl in Et.
    rewrite length_app in Et. lia.
Qed.
End reader.

(** ** The guarantees *)

Lemma parse_text source limits t :
  (Z.of_nat (length source) <= ParseLimits.maximum_bytes limits)%Z ->
  starts_with_bom source = false -> decode source = Ok t ->
  parse source limits =
    (let* p := parse_loop (length t) limits (Parser [] [] 0) t in
     raise_if (negb (bool_decide (p_stack p = []))) (SyntaxErr "unterminated S-expression list") ;;;
     match p_roots p with
     | [e] => Ok e
     | _ => Err (SyntaxErr "KiCad project input must contain exactly one root expression")
     end).
Proof.
  intros Hl Hb Hd. unfold parse. rewrite (proj2 (Z.ltb_ge _ _)) by done. rewrite Hb, Hd. done.
Qed.

(** C35. Reading what was written: a list that can be written is rebuilt exactly by
    [parse] from the bytes that [render] gives, whatever the line breaks and
    indentation it chose, when its tokens, its depth and the bytes are
    within the limits. *)
Theorem sexpr_roundtrip limits e b :
  is_node e = true -> writable limits e ->
  (tokens e <= ParseLimits.maximum_tokens limits)%Z ->
  (depth e <= ParseLimits.maximum_depth limits)%Z ->
  render e = Ok b -> (Z.of_nat (length b) <= ParseLimits.maximum_bytes limits)%Z ->
  parse b limits = Ok e.
Proof.
  intros Hn Hw Ht Hd Hr Hb. unfold render in Hr.
  assert (exists t, pretty e 0 = lparen :: t) as [t Ep].
  { pose proof (pretty_layout e 0) as H. destruct e; [done..|]. inversion H. by eexists. }
  assert (starts_with_bom b = false) as Hbom.
  { rewrite Ep in Hr. cbn [app encode] in Hr. change (scalar lparen) with true in Hr.
    apply bind_Ok in Hr as (b' & _ & Hr). by apply Ok_inj in Hr as <-. }
  rewrite (parse_text _ _ _ Hb Hbom (decode_encode _ _ Hr)).
  destruct (proj1 (layout_reads limits) e _ (pretty_layout e 0) (Parser [] [] 0) [newline]
    (length (pretty e 0 ++ [newline]))) as (fuel & Hf & ->);
    [done|done|by split|done|].
  destruct (loop_blank limits fuel
    (placed (Parser [] [] 0) e (p_tokens (Parser [] [] 0) + tokens e)) [newline] []) as (fuel' & _ & E); [by repeat constructor|done|].
  rewrite app_nil_r in E. rewrite E. by destruct fuel'.
Qed.

(** C36. Reading is total and bounded: for any bytes and any limits, [parse] gives an
    expression whose tokens, nesting and atoms are within the limits, from an
    input within the byte limit, or it raises a syntax error and no other
    exception. *)
Theorem parse_is_total_and_bounded source limits :
  match parse source limits with
  | Ok e =>
    (Z.of_nat (length source) <= ParseLimits.maximum_bytes limits)%Z /\
    (tokens e <= ParseLimits.maximum_tokens limits)%Z /\
    (depth e <= Z.max 0 (ParseLimits.maximum_depth limits))%Z /\ atoms_ok limits e
  | Err x => exn_cls x = KiCadSyntaxError
  end.
Proof.
  destruct (Z.ltb_spec (ParseLimits.maximum_bytes limits) (Z.of_nat (length source))) as [Hl|Hl].
  { unfold parse. by rewrite (proj2 (Z.ltb_lt _ _)). }
  destruct (starts_with_bom source) eqn:Hb.
  { unfold parse. by rewrite (proj2 (Z.ltb_ge _ _)), Hb. }
  destruct (decode source) as [t|x] eqn:Hd.
  2:{ unfold parse. rewrite (proj2 (Z.ltb_ge _ _)), Hb, Hd by done. by apply decode_fails in Hd as ->. }
  rewrite (parse_text _ _ _ Hl Hb Hd).
  assert (sound_result limits (parse_loop (length t) limits (Parser [] [] 0) t)) as Hs.
  { apply loop_sound; [|done]. constructor; cbn [p_tokens p_roots p_stack];
      [done|lia|change (depth_of []) with 0%Z; lia|constructor|done]. }
  destruct (parse_loop (length t) limits (Parser [] [] 0) t) as [p|x]; [|done]. cbn [bind].
  destruct Hs as [Htok Hlim Hdep Hat Hstack]. destruct (bool_decide (p_stack p = [])) eqn:E; [|done].
  apply bool_decide_eq_true in E. cbn [negb raise_if seq]. rewrite E in Htok.
  destruct (p_roots p) as [|e [|]]; [done| |done].
  rewrite tokens_of_cons in Htok. rewrite depth_of_cons in Hdep. pose proof (tokens_nonneg e).
  change (tokens_of []) with 0%Z in Htok. change (depth_of []) with 0%Z in Hdep.
  change (open_tokens []) with 0%Z in Htok. apply Forall_cons in Hat as [Hat _].
  split_and!; [done|lia|lia|done].
Qed.

(** The character limit is not tested after an escape: a quoted string of
    escapes is accepted at any length. *)
Lemma read_escapes limits n acc :
  read_quoted limits acc (mjoin (replicate n (escaped 110)) ++ [dquote]) =
    Ok (acc ++ replicate n newline, []).
Proof.
  revert acc. induction n as [|n IH]; intros acc; [by rewrite app_nil_r|].
  change (read_quoted limits (acc ++ [newline]) (mjoin (replicate n (escaped 110)) ++ [dquote]) =
    Ok (acc ++ newline :: replicate n newline, [])).
  by rewrite IH, <- app_assoc.
Qed.

Lemma decode_ascii t : Forall (fun c => c < 128) t -> decode t = Ok t.
Proof.
  induction 1 as [|c t Hc _ IH]; [done|]. cbn [decode]. by rewrite (proj2 (N.ltb_lt _ _)), IH.
Qed.

Theorem escapes_pass_the_character_limit limits n :
  let source := dquote :: mjoin (replicate n (escaped 110)) ++ [dquote] in
  (1 <= ParseLimits.maximum_tokens limits)%Z ->
  (Z.of_nat (length source) <= ParseLimits.maximum_bytes limits)%Z ->
  parse source limits = Ok (Quoted (replicate n newline)).
Proof.
  intros source Ht Hl. assert (decode source = Ok source) as Hd.
  { apply decode_ascii. constructor; [done|]. apply Forall_app. split; [|by repeat constructor].
    clear. induction n; [constructor|]. repeat constructor; done. }
  rewrite (parse_text _ _ _ Hl eq_refl Hd).
  change (length source) with (S (length (mjoin (replicate n (escaped 110)) ++ [dquote]))).
  unfold source. cbn [parse_loop]. change (isspace dquote) with false.
  change (dquote =? lparen) with false. change (dquote =? rparen) with false.
  change (dquote =? dquote) with true. cbv iota. rewrite read_escapes. cbn [bind app].
  rewrite (proj2 (append_token_Ok limits (Parser [] [] 0) (Quoted (replicate n newline)) _)
    (conj Ht eq_refl)). cbn [bind]. by destruct (length (_ ++ [dquote])).
Qed.

(** ** At a concrete input *)

(** [(net 1 "GND\n" (layers F.Cu))] *)
Definition demo_sexpr : sexpr :=
  Node [Atom (text_of "net"); Atom (text_of "1"); Quoted (text_of "GND" ++ [newline]);
        Node [Atom (text_of "layers"); Atom (text_of "F.Cu")]].
Definition demo_source : bytes := match render demo_sexpr with Ok b => b | Err _ => [] end.

Lemma demo_sexpr_writable : writable ParseLimits.default demo_sexpr.
Proof.
  assert (forall v, bool_decide (v <> []) && forallb (fun c => negb (isspace c) && negb (reserved c)) v &&
    (length v <=? 1000)%nat = true -> atom_ok ParseLimits.default v) as Ha.
  { intros v [[Hn Hv]%andb_true_iff Hl]%andb_true_iff. apply bool_decide_eq_true in Hn.
    apply Nat.leb_le in Hl. split_and!; [done| |simpl; lia].
    apply Forall_forall. intros c Hc. rewrite forallb_elem in Hv. specialize (Hv c Hc).
    by rewrite andb_true_iff, !negb_true_iff in Hv. }
  cbn [writable demo_sexpr foldr fmap list_fmap]. split_and!; try done; try (apply Ha; reflexivity).
  split; [|vm_compute; discriminate].
  repeat (constructor; [by (left; vm_compute; discriminate) || (right; right; left; reflexivity)|]).
  constructor.
Qed.

Lemma sexpr_roundtrip_witness : parse demo_source ParseLimits.default = Ok demo_sexpr.
Proof.
  apply sexpr_roundtrip;
    [reflexivity|exact demo_sexpr_writable|vm_compute; discriminate..|vm_compute; reflexivity|
     vm_compute; discriminate].
Defined.
