(* ===== verification/Geometry.v ===== *)
(** * Exact geometry (backend/verification/geometry.py)

    Points with integer coordinates (nanometres) and points with rational
    coordinates.  A [Fraction] is a rational number, compared by value. *)
From Stdlib Require Export QArith Qminmax.
From S2P Require Import Prelude.

Local Open Scope Q_scope.

(** [PointNm], [ExactPoint] and [BoardOutline] *)
Module PointNm.
Record t := mk { x : Z; y : Z }.
#[global] Instance eq_dec : EqDecision t.
Proof. solve_decision. Defined.
#[global] Instance countable : Countable t.
Proof. apply (inj_countable' (fun p => (x p, y p)) (fun '(a, b) => mk a b)). by intros []. Defined.
End PointNm.

Module ExactPoint.
Record t := mk { x : Q; y : Q }.
End ExactPoint.

Definition BoardOutline : Type := list PointNm.t.

Definition exact_point (p : PointNm.t) : ExactPoint.t :=
  ExactPoint.mk (inject_Z (PointNm.x p)) (inject_Z (PointNm.y p)).

(** Comparisons of fractions; [min] and [max] give the first of two equals. *)
Definition qlt (a b : Q) : bool := negb (Qle_bool b a).
Definition qmin (a b : Q) : Q := if qlt b a then b else a.
Definition qmax (a b : Q) : Q := if qlt a b then b else a.

(** ** Over rational coordinates *)

Section exact.
Import ExactPoint.

Definition exact_cross (origin first second : t) : Q :=
  (x first - x origin) * (y second - y origin) - (y first - y origin) * (x second - x origin).

Definition exact_on_segment (point start end_ : t) : bool :=
  Qeq_bool (exact_cross start end_ point) 0 &&
  (Qle_bool (qmin (x start) (x end_)) (x point) && Qle_bool (x point) (qmax (x start) (x end_))) &&
  (Qle_bool (qmin (y start) (y end_)) (y point) && Qle_bool (y point) (qmax (y start) (y end_))).

(** The signs differ. *)
Definition opposite (a b : Q) : bool := (qlt 0 a && qlt b 0) || (qlt a 0 && qlt 0 b).

Definition exact_segments_intersect (first_start first_end second_start second_end : t) : bool :=
  let first_a := exact_cross first_start first_end second_start in
  let first_b := exact_cross first_start first_end second_end in
  let second_a := exact_cross second_start second_end first_start in
  let second_b := exact_cross second_start second_end first_end in
  if opposite first_a first_b && opposite second_a second_b then true
  else
    (Qeq_bool first_a 0 && exact_on_segment second_start first_start first_end) ||
    (Qeq_bool first_b 0 && exact_on_segment second_end first_start first_end) ||
    (Qeq_bool second_a 0 && exact_on_segment first_start second_start second_end) ||
    (Qeq_bool second_b 0 && exact_on_segment first_end second_start second_end).

Definition exact_point_segment_distance_squared (point start end_ : t) : Q :=
  let dx := x end_ - x start in
  let dy := y end_ - y start in
  let length_squared := dx * dx + dy * dy in
  let from p := (x point - x p) * (x point - x p) + (y point - y p) * (y point - y p) in
  if Qeq_bool length_squared 0 then from start
  else
    let projection := (x point - x start) * dx + (y point - y start) * dy in
    if Qle_bool projection 0 then from start
    else if Qle_bool length_squared projection then from end_
    else
      let cross := dx * (y point - y start) - dy * (x point - x start) in
      cross * cross / length_squared.

Definition exact_segment_distance_squared (first_start first_end second_start second_end : t) : Q :=
  if exact_segments_intersect first_start first_end second_start second_end then 0
  else
    qmin (qmin (qmin
      (exact_point_segment_distance_squared first_start second_start second_end)
      (exact_point_segment_distance_squared first_end second_start second_end))
      (exact_point_segment_distance_squared second_start first_start first_end))
      (exact_point_segment_distance_squared second_end first_start first_end).
End exact.

(** [outline_edges(outline)] *)
Definition outline_edges (vertices : BoardOutline) : list (PointNm.t * PointNm.t) :=
  match vertices with
  | first :: (_ :: _) as rest => zip vertices (rest ++ [first])
  | _ => []
  end.

(** One turn of the loop of the point-in-polygon tests: [None] when the point is
    on the edge. *)
Definition exact_crossing (point : ExactPoint.t) (inside : option bool)
    (edge : PointNm.t * PointNm.t) : option bool :=
  match inside with
  | None => None
  | Some inside =>
    let start := exact_point edge.1 in
    let end_ := exact_point edge.2 in
    if exact_on_segment point start end_ then None
    else if xorb (qlt (ExactPoint.y point) (ExactPoint.y start))
                 (qlt (ExactPoint.y point) (ExactPoint.y end_)) then
      let intersection_x :=
        (ExactPoint.x end_ - ExactPoint.x start) * (ExactPoint.y point - ExactPoint.y start) /
        (ExactPoint.y end_ - ExactPoint.y start) + ExactPoint.x start in
      Some (if qlt (ExactPoint.x point) intersection_x then negb inside else inside)
    else Some inside
  end.

Definition exact_point_in_outline (point : ExactPoint.t) (outline : BoardOutline) : bool :=
  if (length outline <? 3)%nat then false
  else default true (foldl (exact_crossing point) (Some false) (outline_edges outline)).

(** ** The kernel over integer coordinates *)

(** The contract of a geometry implementation. *)
Record GeometryKernel := {
  kernel_id : string;
  kernel_version : string;
  segments_intersect : PointNm.t -> PointNm.t -> PointNm.t -> PointNm.t -> bool;
  segment_distance_squared : PointNm.t -> PointNm.t -> PointNm.t -> PointNm.t -> Q;
  point_segment_distance_squared : PointNm.t -> PointNm.t -> PointNm.t -> Q;
  point_in_outline : PointNm.t -> BoardOutline -> bool;
}.

Module ExactGeometryKernel.
Import PointNm.
Local Open Scope Z_scope.

Definition cross (origin a b : t) : Z :=
  (x a - x origin) * (y b - y origin) - (y a - y origin) * (x b - x origin).

Definition on_segment (point start end_ : t) : bool :=
  (cross start end_ point =? 0) &&
  ((Z.min (x start) (x end_) <=? x point) && (x point <=? Z.max (x start) (x end_))) &&
  ((Z.min (y start) (y end_) <=? y point) && (y point <=? Z.max (y start) (y end_))).

Definition opposite (a b : Z) : bool := ((0 <? a) && (b <? 0)) || ((a <? 0) && (0 <? b)).

Definition segments_intersect (a_start a_end b_start b_end : t) : bool :=
  let d1 := cross a_start a_end b_start in
  let d2 := cross a_start a_end b_end in
  let d3 := cross b_start b_end a_start in
  let d4 := cross b_start b_end a_end in
  if opposite d1 d2 && opposite d3 d4 then true
  else
    ((d1 =? 0) && on_segment b_start a_start a_end) ||
    ((d2 =? 0) && on_segment b_end a_start a_end) ||
    ((d3 =? 0) && on_segment a_start b_start b_end) ||
    ((d4 =? 0) && on_segment a_end b_start b_end).

Definition point_segment_distance_squared (point start end_ : t) : Q :=
  let dx := x end_ - x start in
  let dy := y end_ - y start in
  let length_squared := dx * dx + dy * dy in
  let from p := inject_Z ((x point - x p) * (x point - x p) + (y point - y p) * (y point - y p)) in
  if length_squared =? 0 then from start
  else
    let projection := (x point - x start) * dx + (y point - y start) * dy in
    if projection <=? 0 then from start
    else if length_squared <=? projection then from end_
    else
      let cross := dx * (y point - y start) - dy * (x point - x start) in
      (inject_Z (cross * cross) / inject_Z length_squared)%Q.

Definition segment_distance_squared (a_start a_end b_start b_end : t) : Q :=
  if segments_intersect a_start a_end b_start b_end then 0%Q
  else
    qmin (qmin (qmin
      (point_segment_distance_squared a_start b_start b_end)
      (point_segment_distance_squared a_end b_start b_end))
      (point_segment_distance_squared b_start a_start a_end))
      (point_segment_distance_squared b_end a_start a_end).

Definition crossing (point : t) (inside : option bool) (edge : t * t) : option bool :=
  match inside with
  | None => None
  | Some inside =>
    let '(start, end_) := edge in
    if on_segment point start end_ then None
    else if xorb (y point <? y start) (y point <? y end_) then
      let intersection_x :=
        (inject_Z ((x end_ - x start) * (y point - y start)) / inject_Z (y end_ - y start) +
         inject_Z (x start))%Q in
      Some (if qlt (inject_Z (x point)) intersection_x then negb inside else inside)
    else Some inside
  end.

Definition point_in_outline (point : t) (outline : BoardOutline) : bool :=
  if (length outline <? 3)%nat then false
  else default true (foldl (crossing point) (Some false) (outline_edges outline)).

Definition kernel : GeometryKernel := {|
  Geometry.kernel_id := "exact-integer-rational-2d";
  Geometry.kernel_version := "1.0.0";
  Geometry.segments_intersect := segments_intersect;
  Geometry.segment_distance_squared := segment_distance_squared;
  Geometry.point_segment_distance_squared := point_segment_distance_squared;
  Geometry.point_in_outline := point_in_outline;
|}.
End ExactGeometryKernel.

(** ** Outlines *)

Definition signed_area_twice (outline : BoardOutline) : Z :=
  foldl Z.add 0%Z ((fun '(start, end_) =>
    (PointNm.x start * PointNm.y end_ - PointNm.x end_ * PointNm.y start)%Z) <$> outline_edges outline).

Definition defect : Type := string * list Z.

(** The pairs of edges that share no vertex. *)
Definition apart (n first second : nat) : bool :=
  negb ((second =? first + 1)%nat || ((first =? 0)%nat && (second =? n - 1)%nat)).

Definition self_intersections (edges : list (PointNm.t * PointNm.t)) (k : GeometryKernel) : list defect :=
  seq 0 (length edges) ≫= fun first =>
    seq (S first) (length edges - S first) ≫= fun second =>
      match edges !! first, edges !! second with
      | Some e1, Some e2 =>
        if apart (length edges) first second && segments_intersect k e1.1 e1.2 e2.1 e2.2
        then [("self_intersection"%string, [Z.of_nat first; Z.of_nat second])] else []
      | _, _ => []
      end.

(** [outline_defects(outline, kernel)] *)
Definition outline_defects (outline : BoardOutline) (k : GeometryKernel) : list defect :=
  if (length outline <? 3)%nat
  then [("fewer_than_three_vertices"%string, [Z.of_nat (length outline)])]
  else
    let unique := length (remove_dups outline) in
    let edges := outline_edges outline in
    sorted_on id (remove_dups (
      (if (unique <? 3)%nat then [("fewer_than_three_unique_vertices"%string, [Z.of_nat unique])] else []) ++
      (imap (fun index '(start, end_) =>
         if bool_decide (start = end_) then [("zero_length_edge"%string, [Z.of_nat index])] else []) edges
       ≫= id) ++
      (if (signed_area_twice outline =? 0)%Z then [("zero_area"%string, [])] else []) ++
      self_intersections edges k)).

(** [min(distances) if distances else Fraction(0)] *)
Definition least (l : list Q) : Q := match l with [] => 0 | d :: l => foldl qmin d l end.

Definition minimum_point_outline_distance_squared (point : PointNm.t) (outline : BoardOutline)
    (k : GeometryKernel) : Q :=
  least ((fun e => point_segment_distance_squared k point e.1 e.2) <$> outline_edges outline).
Definition minimum_segment_outline_distance_squared (start end_ : PointNm.t) (outline : BoardOutline)
    (k : GeometryKernel) : Q :=
  least ((fun e => segment_distance_squared k start end_ e.1 e.2) <$> outline_edges outline).
Definition minimum_outlines_distance_squared (first second : BoardOutline) (k : GeometryKernel) : Q :=
  least (outline_edges first ≫= fun e1 =>
    (fun e2 => segment_distance_squared k e1.1 e1.2 e2.1 e2.2) <$> outline_edges second).

(** [outlines_overlap(first, second, kernel)] *)
Definition outlines_overlap (first second : BoardOutline) (k : GeometryKernel) : bool :=
  existsb (fun e1 => existsb (fun e2 => segments_intersect k e1.1 e1.2 e2.1 e2.2) (outline_edges second))
    (outline_edges first) ||
  match first, second with
  | p :: _, q :: _ => point_in_outline k p second || point_in_outline k q first
  | _, _ => false
  end.

Definition rational_less_than_squared (distance_squared : Q) (required_distance_nm : Z) : result bool :=
  raise_if (required_distance_nm <? 0)%Z (Exn ValueError "required distance must be non-negative") ;;;
  Ok (qlt distance_squared (inject_Z (required_distance_nm * required_distance_nm))).

Definition points_distance_squared (first second : PointNm.t) : Z :=
  let dx := (PointNm.x first - PointNm.x second)%Z in
  let dy := (PointNm.y first - PointNm.y second)%Z in
  (dx * dx + dy * dy)%Z.

Definition all_distinct (values : list string) : bool :=
  (length values =? length (remove_dups values))%nat.
