(* ===== verification/GeometryFacts.v ===== *)
(** * What the geometry decides

    Segments as the sets of their points: the intersection test finds a common
    point, and the distances are the least distances between points. *)
From Stdlib Require Import QArith Qfield Lqa.
From S2P Require Import Prelude Geometry.

Local Open Scope Q_scope.

(** [lia] is kept for integers and naturals, [lra] and [nra] are the ones of [Q]. *)

Lemma qlt_iff a b : qlt a b = true <-> a < b.
Proof.
  unfold qlt. rewrite negb_true_iff. split.
  - intros H. apply Qnot_le_lt. intros Hle. apply Qle_bool_iff in Hle. congruence.
  - intros H. destruct (Qle_bool b a) eqn:E; [|done]. apply Qle_bool_iff in E. lra.
Qed.
Lemma qmin_spec a b : (qmin a b = a /\ a <= b) \/ (qmin a b = b /\ b < a).
Proof.
  unfold qmin. destruct (qlt b a) eqn:E; [right|left]; (split; [done|]); [by apply qlt_iff|].
  apply Qnot_lt_le. intros H. apply qlt_iff in H. congruence.
Qed.
Lemma qmax_spec a b : (qmax a b = a /\ b <= a) \/ (qmax a b = b /\ a < b).
Proof.
  unfold qmax. destruct (qlt a b) eqn:E; [right|left]; (split; [done|]); [by apply qlt_iff|].
  apply Qnot_lt_le. intros H. apply qlt_iff in H. congruence.
Qed.

Lemma qmin_le a b : qmin a b <= a /\ qmin a b <= b.
Proof. destruct (qmin_spec a b) as [[-> ?]|[-> ?]]; lra. Qed.
Lemma qmin_in a b : qmin a b = a \/ qmin a b = b.
Proof. destruct (qmin_spec a b) as [[-> _]|[-> _]]; tauto. Qed.

Lemma qmin4_le a b c d :
  let m := qmin (qmin (qmin a b) c) d in m <= a /\ m <= b /\ m <= c /\ m <= d.
Proof.
  simpl. pose proof (qmin_le a b). pose proof (qmin_le (qmin a b) c).
  pose proof (qmin_le (qmin (qmin a b) c) d). split_and!; lra.
Qed.
Lemma qmin4_in a b c d :
  let m := qmin (qmin (qmin a b) c) d in m = a \/ m = b \/ m = c \/ m = d.
Proof.
  simpl. destruct (qmin_in (qmin (qmin a b) c) d) as [->| ->]; [|tauto].
  destruct (qmin_in (qmin a b) c) as [->| ->]; [|tauto]. destruct (qmin_in a b) as [->| ->]; tauto.
Qed.

(** A product is zero when a factor is. *)
Lemma cancel k z : ~ k == 0 -> k * z == 0 -> z == 0.
Proof. intros Hk H. destruct (Qmult_integral _ _ H); [done|done]. Qed.

(** A quotient in the unit interval. *)
Lemma ratio n d :
  ~ d == 0 -> (0 <= n /\ n <= d) \/ (d <= n /\ n <= 0) ->
  exists t, 0 <= t /\ t <= 1 /\ n == t * d.
Proof.
  intros Hd H. exists (n / d). assert (n == n / d * d) as E by (field; done).
  set (t := n / d) in *. clearbody t.
  destruct (Qlt_le_dec 0 d) as [Hp|Hp]; [|assert (d < 0) by (destruct (Qle_lt_or_eq d 0 Hp); done)];
    (split_and!; [| |exact E]); apply Qnot_lt_le; intros Ht; nra.
Qed.

Lemma quotient n d : ~ d == 0 -> exists t, t * d == n.
Proof. intros Hd. exists (n / d). by field. Qed.

Lemma square_nonneg a : 0 <= a * a.
Proof. nra. Qed.

Lemma sum_squares a b : a * a + b * b == 0 -> a == 0 /\ b == 0.
Proof.
  intros H. assert (0 <= a * a) by nra. assert (0 <= b * b) by nra.
  assert (a * a == 0) as Ha by lra. assert (b * b == 0) as Hb by lra.
  by destruct (Qmult_integral _ _ Ha), (Qmult_integral _ _ Hb).
Qed.

Lemma between_iff a b p :
  Qle_bool (qmin a b) p && Qle_bool p (qmax a b) = true <-> (a <= p /\ p <= b) \/ (b <= p /\ p <= a).
Proof.
  rewrite andb_true_iff, !Qle_bool_iff.
  destruct (qmin_spec a b) as [[-> H1]|[-> H1]], (qmax_spec a b) as [[-> H2]|[-> H2]];
    split; intros H; try (destruct H as [[]|[]]; lra); destruct H; try (left; lra); try (right; lra).
Qed.

(** A mean of two negative numbers is negative. *)
Lemma mean_negative p q t : 0 <= t -> t <= 1 -> p < 0 -> q < 0 -> (1 - t) * p + t * q < 0.
Proof. intros H0 H1 Hp Hq. destruct (Qlt_le_dec p q); nra. Qed.

(** Moving from [s] in an interval towards [e], one stays in the interval until
    an end of it, or arrives. *)
Lemma exit_interval lo hi s e :
  lo <= s -> s <= hi ->
  exists r, 0 <= r /\ r <= 1 /\
    (forall r', 0 <= r' -> r' <= r -> lo <= s + r' * (e - s) /\ s + r' * (e - s) <= hi) /\
    (s + r * (e - s) == lo \/ s + r * (e - s) == hi \/ (r == 1 /\ lo <= e /\ e <= hi)).
Proof.
  intros H0 H1. destruct (Qlt_le_dec e lo) as [He|He]; [|destruct (Qlt_le_dec hi e) as [He'|He']].
  - destruct (ratio (s - lo) (s - e)) as (r & Hr0 & Hr1 & Er); [lra|left; lra|].
    exists r. split_and!; [done..| |left; lra]. intros r' Hr0' Hr'. split; nra.
  - destruct (ratio (hi - s) (e - s)) as (r & Hr0 & Hr1 & Er); [lra|left; lra|].
    exists r. split_and!; [done..| |right; left; lra]. intros r' Hr0' Hr'. split; nra.
  - exists 1. split_and!; [lra|lra| |right; right; split_and!; lra].
    intros r' Hr0' Hr'. split; nra.
Qed.

(** The same for a rectangle, towards a point outside it. *)
Lemma exit_rectangle lo1 hi1 lo2 hi2 s t e1 e2 :
  lo1 <= s -> s <= hi1 -> lo2 <= t -> t <= hi2 -> ~ (lo1 <= e1 /\ e1 <= hi1 /\ lo2 <= e2 /\ e2 <= hi2) ->
  exists r, 0 <= r /\ r <= 1 /\
    (lo1 <= s + r * (e1 - s) /\ s + r * (e1 - s) <= hi1) /\ (lo2 <= t + r * (e2 - t) /\ t + r * (e2 - t) <= hi2) /\
    (s + r * (e1 - s) == lo1 \/ s + r * (e1 - s) == hi1 \/ t + r * (e2 - t) == lo2 \/ t + r * (e2 - t) == hi2).
Proof.
  intros Hs0 Hs1 Ht0 Ht1 Ho.
  destruct (exit_interval lo1 hi1 s e1) as (r1 & L1 & U1 & I1 & X1); [done..|].
  destruct (exit_interval lo2 hi2 t e2) as (r2 & L2 & U2 & I2 & X2); [done..|].
  destruct (Qlt_le_dec r1 r2) as [Hr|Hr].
  - exists r1. split_and!; [done..|apply I1; lra|apply I1; lra|apply I2; lra|apply I2; lra|].
    destruct X1 as [?|[?|(? & ? & ?)]]; [tauto|tauto|lra].
  - exists r2. split_and!; [done..|apply I1; lra|apply I1; lra|apply I2; lra|apply I2; lra|].
    destruct X2 as [?|[?|(E & ? & ?)]]; [tauto|tauto|].
    assert (r2 == r1) as E' by lra. destruct X1 as [X|[X|(? & ? & ?)]]; [| |tauto]; rewrite E'; tauto.
Qed.

(** ** Points of a segment *)

Section points.
Import ExactPoint.
Implicit Types a b c d p q : t.

Definition same p q : Prop := x p == x q /\ y p == y q.
(** The point at [s] of the way from [a] to [b]. *)
Definition along a b (s : Q) : t := mk (x a + s * (x b - x a)) (y a + s * (y b - y a)).
(** The closed segment from [a] to [b]. *)
Definition on_segment p a b : Prop := exists s, 0 <= s /\ s <= 1 /\ same p (along a b s).
Definition distance_squared p q : Q := (x p - x q) * (x p - x q) + (y p - y q) * (y p - y q).

Lemma exact_on_segment_iff p a b : exact_on_segment p a b = true <-> on_segment p a b.
Proof.
  unfold exact_on_segment, exact_cross. rewrite andb_true_iff, between_iff, andb_true_iff, between_iff, Qeq_bool_iff.
  unfold on_segment, same, along. destruct a as [ax ay], b as [bx by_], p as [px py]. simpl. split.
  - intros [[Hc Hx] Hy]. destruct (Qeq_dec (bx - ax) 0) as [Ex|Ex].
    + destruct (Qeq_dec (by_ - ay) 0) as [Ey|Ey].
      * exists 0. split_and!; [lra|lra| |]; destruct Hx, Hy; lra.
      * destruct (ratio (py - ay) (by_ - ay) Ey) as (s & Hs0 & Hs1 & Es); [destruct Hy; [left|right]; lra|].
        exists s. split_and!; [done|done| |lra].
        assert (px - ax == 0) by (destruct Hx; lra). rewrite Ex. lra.
    + destruct (ratio (px - ax) (bx - ax) Ex) as (s & Hs0 & Hs1 & Es); [destruct Hx; [left|right]; lra|].
      exists s. split_and!; [done|done|lra|].
      assert ((bx - ax) * (py - ay - s * (by_ - ay)) == 0) as H.
      { transitivity ((bx - ax) * (py - ay) - (by_ - ay) * (s * (bx - ax))); [ring|]. by rewrite <- Es. }
      apply cancel in H; [lra|done].
  - intros (s & Hs0 & Hs1 & Ex & Ey). split; [split|].
    + rewrite Ex, Ey. ring.
    + rewrite Ex. destruct (Qlt_le_dec ax bx); [left|right]; nra.
    + rewrite Ey. destruct (Qlt_le_dec ay by_); [left|right]; nra.
Qed.

(** ** Intersection *)

(** The two segments share a point. *)
Definition meet a b c d : Prop := exists p, on_segment p a b /\ on_segment p c d.

Lemma meet_iff a b c d :
  meet a b c d <->
  exists s t, 0 <= s /\ s <= 1 /\ 0 <= t /\ t <= 1 /\ same (along a b s) (along c d t).
Proof.
  split.
  - intros (p & (s & Hs0 & Hs1 & Hx & Hy) & (t & Ht0 & Ht1 & Hx' & Hy')).
    exists s, t. split_and!; [done..|split; lra].
  - intros (s & t & Hs0 & Hs1 & Ht0 & Ht1 & Hx & Hy).
    exists (along a b s). split; [by exists s|by exists t].
Qed.

Lemma on_segment_start a b : on_segment a a b.
Proof. exists 0. unfold same, along. simpl. split_and!; lra. Qed.
Lemma on_segment_end a b : on_segment b a b.
Proof. exists 1. unfold same, along. simpl. split_and!; lra. Qed.

Lemma opposite_iff k l : opposite k l = true <-> (l < 0 /\ 0 < k) \/ (k < 0 /\ 0 < l).
Proof. unfold opposite. rewrite orb_true_iff, !andb_true_iff, !qlt_iff. tauto. Qed.

Lemma collinear_on_segment p a b :
  Qeq_bool (exact_cross a b p) 0 && exact_on_segment p a b = true <-> on_segment p a b.
Proof.
  rewrite <- exact_on_segment_iff. unfold exact_on_segment.
  destruct (Qeq_bool (exact_cross a b p) 0); naive_solver.
Qed.

(** The cross products at two segments whose lines share the points at [s] and [t]. *)
Lemma crosses a b c d s t :
  same (along a b s) (along c d t) ->
  let k := (x b - x a) * (y d - y c) - (y b - y a) * (x d - x c) in
  exact_cross a b c == - (t * k) /\ exact_cross a b d == (1 - t) * k /\
  exact_cross c d a == s * k /\ exact_cross c d b == - ((1 - s) * k).
Proof.
  unfold same, along, exact_cross. simpl. intros [Ex Ey].
  assert (x c == x a + s * (x b - x a) - t * (x d - x c)) as Hx by lra.
  assert (y c == y a + s * (y b - y a) - t * (y d - y c)) as Hy by lra.
  set (u1 := x b - x a) in *. set (u2 := y b - y a) in *.
  set (v1 := x d - x c) in *. set (v2 := y d - y c) in *.
  assert (x d == x c + v1) as Hd1 by (unfold v1; ring). assert (y d == y c + v2) as Hd2 by (unfold v2; ring).
  assert (x b == x a + u1) as Hb1 by (unfold u1; ring). assert (y b == y a + u2) as Hb2 by (unfold u2; ring).
  split_and!; rewrite ?Hd1, ?Hd2, ?Hb1, ?Hb2; rewrite Hx, Hy; ring.
Qed.

(** Two segments that cross. *)
Lemma proper_crossing a b c d :
  opposite (exact_cross a b c) (exact_cross a b d) = true ->
  opposite (exact_cross c d a) (exact_cross c d b) = true -> meet a b c d.
Proof.
  rewrite !opposite_iff, meet_iff. intros H1 H2.
  destruct (ratio (exact_cross a b c) (exact_cross a b c - exact_cross a b d)) as (t & Ht0 & Ht1 & Et);
    [lra|lra|].
  destruct (ratio (exact_cross c d a) (exact_cross c d a - exact_cross c d b)) as (s & Hs0 & Hs1 & Es);
    [lra|lra|].
  exists s, t. split_and!; [done..|].
  set (k := exact_cross c d a - exact_cross c d b) in *.
  assert (~ k == 0) as Hk by (unfold k; lra).
  assert (s * k == exact_cross c d a) as Hs by lra.
  assert (t * k == - exact_cross a b c) as Ht.
  { rewrite Et. unfold k, exact_cross. ring. }
  unfold same, along. simpl. split.
  - assert (k * (x a + s * (x b - x a) - (x c + t * (x d - x c))) == 0) as H; [|apply cancel in H; [lra|done]].
    transitivity (k * (x a - x c) + s * k * (x b - x a) - t * k * (x d - x c)); [ring|].
    rewrite Hs, Ht. unfold k, exact_cross. ring.
  - assert (k * (y a + s * (y b - y a) - (y c + t * (y d - y c))) == 0) as H; [|apply cancel in H; [lra|done]].
    transitivity (k * (y a - y c) + s * k * (y b - y a) - t * k * (y d - y c)); [ring|].
    rewrite Hs, Ht. unfold k, exact_cross. ring.
Qed.

(** Parallel directions: one is a multiple of the other. *)
Lemma parallel u1 u2 v1 v2 :
  u1 * v2 - u2 * v1 == 0 -> (u1 == 0 /\ u2 == 0) \/ exists m, v1 == m * u1 /\ v2 == m * u2.
Proof.
  intros H. destruct (Qeq_dec u1 0) as [E1|E1].
  - destruct (Qeq_dec u2 0) as [E2|E2]; [by left|right].
    destruct (quotient v2 u2 E2) as [m Hm]. exists m. split; [|by symmetry].
    assert (u2 * (v1 - m * u1) == 0) as H'; [|apply cancel in H'; [lra|done]].
    transitivity (u1 * (v2 - m * u2) - (u1 * v2 - u2 * v1)); [ring|]. rewrite H, E1. ring.
  - right. destruct (quotient v1 u1 E1) as [m Hm]. exists m. split; [by symmetry|].
    assert (u1 * (v2 - m * u2) == 0) as H'; [|apply cancel in H'; [lra|done]].
    transitivity (u1 * v2 - u2 * v1 + u2 * (v1 - m * u1)); [ring|]. rewrite H, <- Hm. ring.
Qed.

(** Parallel segments that meet: an end of one is a point of the other. *)
Lemma parallel_end a b c d s t m :
  0 <= s -> s <= 1 -> 0 <= t -> t <= 1 -> same (along a b s) (along c d t) ->
  x d - x c == m * (x b - x a) -> y d - y c == m * (y b - y a) ->
  on_segment c a b \/ on_segment d a b \/ on_segment a c d.
Proof.
  unfold on_segment, same, along. simpl. intros Hs0 Hs1 Ht0 Ht1 [Ex Ey] Vx Vy.
  set (u1 := x b - x a) in *. set (u2 := y b - y a) in *.
  rewrite Vx in Ex. rewrite Vy in Ey.
  set (p := s - t * m). assert (x c == x a + p * u1) as Px by (unfold p; lra).
  assert (y c == y a + p * u2) as Py by (unfold p; lra).
  assert (s == (1 - t) * p + t * (p + m)) as Hs by (unfold p; ring). clearbody p. clear Ex Ey.
  destruct (Qlt_le_dec p 0) as [Hp|Hp], (Qlt_le_dec 1 p) as [Hp'|Hp']; [lra| | |left; exists p; split_and!; lra].
  - destruct (Qlt_le_dec 1 (p + m)) as [Hm|Hm].
    + right; right. destruct (ratio (- p) m) as (r & Hr0 & Hr1 & Er); [lra|left; lra|].
      exists r. rewrite Vx, Vy. split_and!; [done|done| |].
      * rewrite Px. transitivity (x a + p * u1 + (r * m) * u1); [|ring]. rewrite <- Er. ring.
      * rewrite Py. transitivity (y a + p * u2 + (r * m) * u2); [|ring]. rewrite <- Er. ring.
    + right; left. exists (p + m). split_and!; [|done|lra|lra].
      apply Qnot_lt_le. intros Hn. pose proof (mean_negative p (p + m) t). lra.
  - destruct (Qlt_le_dec (p + m) 0) as [Hm|Hm].
    + right; right. destruct (ratio (- p) m) as (r & Hr0 & Hr1 & Er); [lra|right; lra|].
      exists r. rewrite Vx, Vy. split_and!; [done|done| |].
      * rewrite Px. transitivity (x a + p * u1 + (r * m) * u1); [|ring]. rewrite <- Er. ring.
      * rewrite Py. transitivity (y a + p * u2 + (r * m) * u2); [|ring]. rewrite <- Er. ring.
    + right; left. exists (p + m). split_and!; [done| |lra|lra].
      apply Qnot_lt_le. intros Hn. pose proof (mean_negative (1 - p) (1 - (p + m)) t). lra.
Qed.

(** The cases of [exact_segments_intersect], as points. *)
Lemma exact_segments_intersect_cases a b c d :
  exact_segments_intersect a b c d = true <->
  (opposite (exact_cross a b c) (exact_cross a b d) = true /\
   opposite (exact_cross c d a) (exact_cross c d b) = true) \/
  on_segment c a b \/ on_segment d a b \/ on_segment a c d \/ on_segment b c d.
Proof.
  unfold exact_segments_intersect.
  rewrite <- (collinear_on_segment c a b), <- (collinear_on_segment d a b),
    <- (collinear_on_segment a c d), <- (collinear_on_segment b c d).
  destruct (opposite _ _) eqn:E1; [destruct (opposite (exact_cross c d a) _) eqn:E2|]; simpl;
    rewrite ?orb_true_iff; naive_solver.
Qed.

Lemma exact_segments_intersect_iff a b c d : exact_segments_intersect a b c d = true <-> meet a b c d.
Proof.
  rewrite exact_segments_intersect_cases. split.
  - intros [[H1 H2]|[H|[H|[H|H]]]].
    + by apply proper_crossing.
    + exists c. split; [done|apply on_segment_start].
    + exists d. split; [done|apply on_segment_end].
    + exists a. split; [apply on_segment_start|done].
    + exists b. split; [apply on_segment_end|done].
  - rewrite meet_iff. intros (s & t & Hs0 & Hs1 & Ht0 & Ht1 & Hst).
    destruct (crosses a b c d s t Hst) as (C1 & C2 & C3 & C4).
    set (k := (x b - x a) * (y d - y c) - (y b - y a) * (x d - x c)) in *.
    destruct (Qeq_dec k 0) as [Hk|Hk].
    + right. destruct (parallel _ _ _ _ Hk) as [[Hu1 Hu2]|(m & Hm1 & Hm2)].
      * right; right; left. exists t. split_and!; [done..|].
        destruct Hst as [Ex Ey]. unfold same, along in *. simpl in *.
        rewrite Hu1 in Ex. rewrite Hu2 in Ey. split; lra.
      * destruct (parallel_end a b c d s t m) as [|[|]]; auto.
    + destruct (Qeq_dec s 0) as [S0|S0]; [|destruct (Qeq_dec s 1) as [S1|S1];
        [|destruct (Qeq_dec t 0) as [T0|T0]; [|destruct (Qeq_dec t 1) as [T1|T1]]]].
      * right; right; right; left. exists t. split_and!; [done..|].
        destruct Hst as [Ex Ey]. unfold same, along in *. simpl in *. rewrite S0 in *. split; lra.
      * right; right; right; right. exists t. split_and!; [done..|].
        destruct Hst as [Ex Ey]. unfold same, along in *. simpl in *. rewrite S1 in *. split; lra.
      * right; left. exists s. split_and!; [done..|].
        destruct Hst as [Ex Ey]. unfold same, along in *. simpl in *. rewrite T0 in *. split; lra.
      * right; right; left. exists s. split_and!; [done..|].
        destruct Hst as [Ex Ey]. unfold same, along in *. simpl in *. rewrite T1 in *. split; lra.
      * left. rewrite !opposite_iff, C1, C2, C3, C4.
        destruct (Qlt_le_dec 0 k) as [Hp|Hp]; [split; [right|left]|split; [left|right]]; split; nra.
Qed.

(** ** Distances *)

(** [d] is the least squared distance from [p] to the points of the segment. *)
Definition least_to_segment (d : Q) p a b : Prop :=
  (forall q, on_segment q a b -> d <= distance_squared p q) /\
  exists q, on_segment q a b /\ d == distance_squared p q.

(** [d] is the least squared distance between points of the two segments. *)
Definition least_between (d : Q) a b c d' : Prop :=
  (forall p q, on_segment p a b -> on_segment q c d' -> d <= distance_squared p q) /\
  exists p q, on_segment p a b /\ on_segment q c d' /\ d == distance_squared p q.

Lemma distance_same p p' q q' :
  same p p' -> same q q' -> distance_squared p q == distance_squared p' q'.
Proof. unfold same, distance_squared. intros [-> ->] [-> ->]. done. Qed.
Lemma distance_comm p q : distance_squared p q == distance_squared q p.
Proof. unfold distance_squared. ring. Qed.
Lemma distance_nonneg p q : 0 <= distance_squared p q.
Proof.
  unfold distance_squared.
  pose proof (square_nonneg (x p - x q)). pose proof (square_nonneg (y p - y q)). lra.
Qed.
Lemma same_refl p : same p p.
Proof. done. Qed.

(** The squared distance along a segment: [W - 2 s P + s s L]. *)
Lemma distance_along p a b s :
  distance_squared p (along a b s) ==
  distance_squared p a
  - 2 * s * ((x p - x a) * (x b - x a) + (y p - y a) * (y b - y a))
  + s * s * ((x b - x a) * (x b - x a) + (y b - y a) * (y b - y a)).
Proof. unfold distance_squared, along. simpl. ring. Qed.

Lemma to_segment_along (d : Q) p a b :
  (forall s, 0 <= s -> s <= 1 -> d <= distance_squared p (along a b s)) ->
  forall q, on_segment q a b -> d <= distance_squared p q.
Proof. intros H q (s & H0 & H1 & Hs). rewrite (distance_same p p q _ (same_refl p) Hs). by apply H. Qed.

Lemma exact_point_segment_least p a b :
  least_to_segment (exact_point_segment_distance_squared p a b) p a b.
Proof.
  unfold exact_point_segment_distance_squared.
  set (u := x b - x a). set (v := y b - y a). set (L := u * u + v * v).
  set (P := (x p - x a) * u + (y p - y a) * v).
  assert (forall s, distance_squared p (along a b s) == distance_squared p a - 2 * s * P + s * s * L) as D
    by apply distance_along.
  assert (0 <= L) as HL by (pose proof (square_nonneg u); pose proof (square_nonneg v); unfold L; lra).
  destruct (Qeq_bool L 0) eqn:EL; [|destruct (Qle_bool P 0) eqn:E0; [|destruct (Qle_bool L P) eqn:E1]].
  - apply Qeq_bool_iff in EL. destruct (sum_squares u v EL) as [Eu Ev].
    assert (P == 0) as EP by (unfold P; rewrite Eu, Ev; ring). split.
    + apply to_segment_along. intros s _ _. rewrite D, EP, EL. unfold distance_squared. lra.
    + exists a. split; [apply on_segment_start|done].
  - apply Qle_bool_iff in E0. split.
    + apply to_segment_along. intros s Hs0 Hs1. rewrite D.
      assert (0 <= s * s * L) by (apply Qmult_le_0_compat; [apply square_nonneg|done]).
      assert (0 <= s * - P) by (apply Qmult_le_0_compat; lra).
      fold (distance_squared p a). lra.
    + exists a. split; [apply on_segment_start|done].
  - apply Qle_bool_iff in E1. split.
    + apply to_segment_along. intros s Hs0 Hs1. rewrite D. fold (distance_squared p b).
      assert (distance_squared p b == distance_squared p a - 2 * P + L) as ->
        by (unfold distance_squared, P, L, u, v; ring).
      assert (0 <= (1 - s) * (2 * P - L * (1 + s))); [|lra].
      apply Qmult_le_0_compat; nra.
    + exists b. split; [apply on_segment_end|done].
  - assert (0 < P) as HP by (apply Qnot_le_lt; intros H; apply Qle_bool_iff in H; congruence).
    assert (P < L) as HPL by (apply Qnot_le_lt; intros H; apply Qle_bool_iff in H; congruence).
    assert (~ L == 0) as HL0 by lra.
    set (c := u * (y p - y a) - v * (x p - x a)).
    assert (c * c == L * distance_squared p a - P * P) as Hc
      by (unfold c, distance_squared, P, L; ring).
    split.
    + apply to_segment_along. intros s Hs0 Hs1. rewrite D, Hc.
      apply Qle_shift_div_r; [lra|].
      pose proof (square_nonneg (P - s * L)). lra.
    + destruct (ratio P L HL0) as (s & Hs0 & Hs1 & Es); [left; lra|].
      exists (along a b s). split; [by exists s|]. rewrite D, Hc, Es. field. done.
Qed.

(** Both points moved the share [r] of the way to the parameters [e1], [e2]. *)
Definition moved (s e r : Q) : Q := s + r * (e - s).

Lemma distance_towards_meeting a b c d s t e1 e2 r :
  same (along a b e1) (along c d e2) ->
  distance_squared (along a b (moved s e1 r)) (along c d (moved t e2 r)) ==
  (1 - r) * (1 - r) * distance_squared (along a b s) (along c d t).
Proof.
  unfold same, distance_squared, along, moved. simpl. intros [Ex Ey].
  assert (x c == x a + e1 * (x b - x a) - e2 * (x d - x c)) as Hx by lra.
  assert (y c == y a + e1 * (y b - y a) - e2 * (y d - y c)) as Hy by lra.
  set (u1 := x b - x a) in *. set (u2 := y b - y a) in *.
  set (v1 := x d - x c) in *. set (v2 := y d - y c) in *. rewrite Hx, Hy. ring.
Qed.

Lemma distance_parallel a b c d s t e1 e2 r :
  (e1 - s) * (x b - x a) == (e2 - t) * (x d - x c) ->
  (e1 - s) * (y b - y a) == (e2 - t) * (y d - y c) ->
  distance_squared (along a b (moved s e1 r)) (along c d (moved t e2 r)) ==
  distance_squared (along a b s) (along c d t).
Proof.
  unfold distance_squared, along, moved. simpl. intros Ex Ey.
  assert (x a + (s + r * (e1 - s)) * (x b - x a) - (x c + (t + r * (e2 - t)) * (x d - x c)) ==
          x a + s * (x b - x a) - (x c + t * (x d - x c))) as ->.
  { transitivity (x a + s * (x b - x a) - (x c + t * (x d - x c)) +
      r * ((e1 - s) * (x b - x a)) - r * ((e2 - t) * (x d - x c))); [ring|rewrite Ex; ring]. }
  assert (y a + (s + r * (e1 - s)) * (y b - y a) - (y c + (t + r * (e2 - t)) * (y d - y c)) ==
          y a + s * (y b - y a) - (y c + t * (y d - y c))) as ->.
  { transitivity (y a + s * (y b - y a) - (y c + t * (y d - y c)) +
      r * ((e1 - s) * (y b - y a)) - r * ((e2 - t) * (y d - y c))); [ring|rewrite Ey; ring]. }
  done.
Qed.

(** Points of two lines that do not meet within the segments can be moved out of
    the segments without going further apart. *)
Lemma way_out a b c d s t :
  0 <= t -> t <= 1 -> 0 <= s -> s <= 1 -> ~ meet a b c d ->
  exists e1 e2, ~ (0 <= e1 /\ e1 <= 1 /\ 0 <= e2 /\ e2 <= 1) /\
    forall r, 0 <= r -> r <= 1 ->
      distance_squared (along a b (moved s e1 r)) (along c d (moved t e2 r)) <=
      distance_squared (along a b s) (along c d t).
Proof.
  intros Ht0 Ht1 Hs0 Hs1 Hm.
  set (k := (x b - x a) * (y d - y c) - (y b - y a) * (x d - x c)).
  destruct (Qeq_dec k 0) as [Hk|Hk].
  - destruct (parallel _ _ _ _ Hk) as [[Hu1 Hu2]|(m & Hm1 & Hm2)].
    + exists 2, t. split; [lra|]. intros r _ _. rewrite distance_parallel; [lra|rewrite Hu1; ring|rewrite Hu2; ring].
    + exists (s + 2 * m), (t + 2). split; [lra|]. intros r _ _.
      rewrite distance_parallel; [lra|rewrite Hm1; ring|rewrite Hm2; ring].
  - destruct (quotient ((x c - x a) * (y d - y c) - (y c - y a) * (x d - x c)) k Hk) as [e1 E1].
    destruct (quotient ((x c - x a) * (y b - y a) - (y c - y a) * (x b - x a)) k Hk) as [e2 E2].
    assert (same (along a b e1) (along c d e2)) as He.
    { unfold same, along. simpl. split.
      - assert (k * (x a + e1 * (x b - x a) - (x c + e2 * (x d - x c))) == 0) as H; [|apply cancel in H; [lra|done]].
        transitivity (k * (x a - x c) + e1 * k * (x b - x a) - e2 * k * (x d - x c)); [ring|].
        rewrite E1, E2. unfold k. ring.
      - assert (k * (y a + e1 * (y b - y a) - (y c + e2 * (y d - y c))) == 0) as H; [|apply cancel in H; [lra|done]].
        transitivity (k * (y a - y c) + e1 * k * (y b - y a) - e2 * k * (y d - y c)); [ring|].
        rewrite E1, E2. unfold k. ring. }
    exists e1, e2. split.
    + intros (? & ? & ? & ?). apply Hm, meet_iff. by exists e1, e2.
    + intros r Hr0 Hr1. rewrite distance_towards_meeting by done.
      pose proof (distance_nonneg (along a b s) (along c d t)).
      assert ((1 - r) * (1 - r) <= 1) by nra. nra.
Qed.

Lemma along_start a b s : s == 0 -> same (along a b s) a.
Proof. intros E. unfold same, along. simpl. rewrite E. split; ring. Qed.
Lemma along_end a b s : s == 1 -> same (along a b s) b.
Proof. intros E. unfold same, along. simpl. rewrite E. split; ring. Qed.
Lemma along_on a b s : 0 <= s -> s <= 1 -> on_segment (along a b s) a b.
Proof. by exists s. Qed.

(** A bound for the ends bounds the distances with an end. *)
Lemma at_an_end (D : Q) a b c d s t :
  D <= exact_point_segment_distance_squared a c d -> D <= exact_point_segment_distance_squared b c d ->
  D <= exact_point_segment_distance_squared c a b -> D <= exact_point_segment_distance_squared d a b ->
  0 <= s /\ s <= 1 -> 0 <= t /\ t <= 1 -> s == 0 \/ s == 1 \/ t == 0 \/ t == 1 ->
  D <= distance_squared (along a b s) (along c d t).
Proof.
  intros Ha Hb Hc Hd [Hs0 Hs1] [Ht0 Ht1] HE.
  pose proof (along_on a b s Hs0 Hs1) as Os. pose proof (along_on c d t Ht0 Ht1) as Ot.
  destruct HE as [E|[E|[E|E]]].
  - rewrite (distance_same _ _ _ _ (along_start a b s E) (same_refl _)).
    apply Qle_trans with (1 := Ha). by apply exact_point_segment_least.
  - rewrite (distance_same _ _ _ _ (along_end a b s E) (same_refl _)).
    apply Qle_trans with (1 := Hb). by apply exact_point_segment_least.
  - rewrite distance_comm, (distance_same _ _ _ _ (along_start c d t E) (same_refl _)).
    apply Qle_trans with (1 := Hc). by apply exact_point_segment_least.
  - rewrite distance_comm, (distance_same _ _ _ _ (along_end c d t E) (same_refl _)).
    apply Qle_trans with (1 := Hd). by apply exact_point_segment_least.
Qed.

Lemma exact_segment_least a b c d : least_between (exact_segment_distance_squared a b c d) a b c d.
Proof.
  unfold exact_segment_distance_squared.
  destruct (exact_segments_intersect a b c d) eqn:EI.
  - apply exact_segments_intersect_iff in EI as (p & Hp & Hq). split; [intros; apply distance_nonneg|].
    exists p, p. split_and!; [done..|]. unfold distance_squared. ring.
  - assert (~ meet a b c d) as Hm by (rewrite <- exact_segments_intersect_iff; congruence).
    destruct (qmin4_le (exact_point_segment_distance_squared a c d) (exact_point_segment_distance_squared b c d)
      (exact_point_segment_distance_squared c a b) (exact_point_segment_distance_squared d a b))
      as (L1 & L2 & L3 & L4). split.
    + intros p q (s & Hs0 & Hs1 & Hs) (t & Ht0 & Ht1 & Ht). rewrite (distance_same _ _ _ _ Hs Ht).
      destruct (way_out a b c d s t) as (e1 & e2 & Ho & Hd); [done..|].
      destruct (exit_rectangle 0 1 0 1 s t e1 e2) as (r & Hr0 & Hr1 & I1 & I2 & X); [done..|].
      apply Qle_trans with (2 := Hd r Hr0 Hr1). by apply at_an_end.
    + destruct (qmin4_in (exact_point_segment_distance_squared a c d) (exact_point_segment_distance_squared b c d)
        (exact_point_segment_distance_squared c a b) (exact_point_segment_distance_squared d a b))
        as [->|[->|[->| ->]]].
      * destruct (exact_point_segment_least a c d) as [_ (q & Hq & E)].
        exists a, q. split_and!; [apply on_segment_start|done..].
      * destruct (exact_point_segment_least b c d) as [_ (q & Hq & E)].
        exists b, q. split_and!; [apply on_segment_end|done..].
      * destruct (exact_point_segment_least c a b) as [_ (q & Hq & E)].
        exists q, c. split_and!; [done|apply on_segment_start|by rewrite distance_comm].
      * destruct (exact_point_segment_least d a b) as [_ (q & Hq & E)].
        exists q, d. split_and!; [done|apply on_segment_end|by rewrite distance_comm].
Qed.
End points.

(** ** The kernel over integers *)

(** The integer operations are the rational ones at integer points. *)

Lemma qeq_inject a b : Qeq_bool (inject_Z a) (inject_Z b) = (a =? b)%Z.
Proof. apply eq_iff_eq_true. rewrite Qeq_bool_iff, Z.eqb_eq. apply inject_Z_injective. Qed.
Lemma qle_inject a b : Qle_bool (inject_Z a) (inject_Z b) = (a <=? b)%Z.
Proof. apply eq_iff_eq_true. rewrite Qle_bool_iff, Z.leb_le. by rewrite Zle_Qle. Qed.
Lemma qlt_inject a b : qlt (inject_Z a) (inject_Z b) = (a <? b)%Z.
Proof. unfold qlt. rewrite qle_inject. lia. Qed.
Lemma qmin_inject a b : qmin (inject_Z a) (inject_Z b) = inject_Z (Z.min a b).
Proof. unfold qmin. rewrite qlt_inject. destruct (b <? a)%Z eqn:E; f_equal; lia. Qed.
Lemma qmax_inject a b : qmax (inject_Z a) (inject_Z b) = inject_Z (Z.max a b).
Proof. unfold qmax. rewrite qlt_inject. destruct (a <? b)%Z eqn:E; f_equal; lia. Qed.

#[export] Instance qlt_proper : Proper (Qeq ==> Qeq ==> eq) qlt.
Proof. intros a a' Ha b b' Hb. unfold qlt. by rewrite Ha, Hb. Qed.
#[export] Instance opposite_proper : Proper (Qeq ==> Qeq ==> eq) opposite.
Proof. intros a a' Ha b b' Hb. unfold opposite. by rewrite Ha, Hb. Qed.
#[export] Instance qmin_proper : Proper (Qeq ==> Qeq ==> Qeq) qmin.
Proof. intros a a' Ha b b' Hb. unfold qmin. rewrite Ha, Hb. by destruct (qlt b' a'). Qed.

Module Kernel := ExactGeometryKernel.

Lemma inject_Z_sub a b : inject_Z (a - b) = inject_Z a - inject_Z b.
Proof. unfold Z.sub, Qminus. by rewrite inject_Z_plus, inject_Z_opp. Qed.

Create Rewrite HintDb inject.
#[export] Hint Rewrite inject_Z_plus inject_Z_sub inject_Z_mult : inject.

Section kernel.
Local Notation "# p" := (exact_point p) (at level 5, format "# p").
Implicit Types a b c d p o : PointNm.t.

Lemma cross_exact o a b : exact_cross #o #a #b = inject_Z (Kernel.cross o a b).
Proof. unfold Kernel.cross. autorewrite with inject. done. Qed.

Lemma on_segment_exact p a b : exact_on_segment #p #a #b = Kernel.on_segment p a b.
Proof.
  unfold exact_on_segment, Kernel.on_segment. rewrite cross_exact. unfold exact_point. simpl.
  by rewrite !qmin_inject, !qmax_inject, !qle_inject, (qeq_inject _ 0).
Qed.

Lemma opposite_exact k l : opposite (inject_Z k) (inject_Z l) = Kernel.opposite k l.
Proof. unfold opposite, Kernel.opposite. by rewrite !(qlt_inject 0), !(qlt_inject _ 0). Qed.

Lemma segments_intersect_exact a b c d :
  exact_segments_intersect #a #b #c #d = Kernel.segments_intersect a b c d.
Proof.
  unfold exact_segments_intersect, Kernel.segments_intersect.
  by rewrite !cross_exact, !opposite_exact, !on_segment_exact, !(qeq_inject _ 0).
Qed.

Lemma point_segment_exact p a b :
  exact_point_segment_distance_squared #p #a #b = Kernel.point_segment_distance_squared p a b.
Proof.
  unfold exact_point_segment_distance_squared, Kernel.point_segment_distance_squared.
  unfold exact_point. simpl. rewrite <- !inject_Z_sub, <- !inject_Z_mult, <- !inject_Z_plus.
  by rewrite (qeq_inject _ 0), (qle_inject _ 0), qle_inject, <- inject_Z_sub, <- inject_Z_mult.
Qed.

Lemma segment_exact a b c d :
  exact_segment_distance_squared #a #b #c #d = Kernel.segment_distance_squared a b c d.
Proof.
  unfold exact_segment_distance_squared, Kernel.segment_distance_squared.
  by rewrite segments_intersect_exact, !point_segment_exact.
Qed.

(** The two point-in-polygon tests agree. *)
Lemma point_in_outline_exact p outline :
  exact_point_in_outline #p outline = Kernel.point_in_outline p outline.
Proof.
  unfold exact_point_in_outline, Kernel.point_in_outline. destruct (_ <? _)%nat; [done|]. f_equal.
  generalize (Some false). induction (outline_edges outline) as [|[a b] es IH]; intros i; [done|].
  simpl. rewrite IH. f_equal. destruct i as [i|]; [|done]. simpl.
  rewrite on_segment_exact. destruct (Kernel.on_segment p a b); [done|].
  unfold exact_point. simpl. by rewrite !qlt_inject, <- !inject_Z_sub, <- inject_Z_mult.
Qed.
End kernel.

(** ** What the users of the kernel rely on *)

(** Two edges of boards that share a point. *)
Definition edges_meet (e1 e2 : PointNm.t * PointNm.t) : Prop :=
  meet (exact_point e1.1) (exact_point e1.2) (exact_point e2.1) (exact_point e2.2).

Lemma segments_intersect_iff e1 e2 :
  segments_intersect Kernel.kernel e1.1 e1.2 e2.1 e2.2 = true <-> edges_meet e1 e2.
Proof.
  change (segments_intersect Kernel.kernel) with Kernel.segments_intersect.
  by rewrite <- segments_intersect_exact, exact_segments_intersect_iff.
Qed.

Lemma self_intersections_nil edges :
  self_intersections edges Kernel.kernel = [] <->
  forall i j e1 e2, edges !! i = Some e1 -> edges !! j = Some e2 -> (i < j)%nat ->
    apart (length edges) i j = true -> ~ edges_meet e1 e2.
Proof.
  unfold self_intersections. split.
  - intros H i j e1 e2 H1 H2 Hij Ha Hm.
    apply no_member with (x := ("self_intersection"%string, [Z.of_nat i; Z.of_nat j])) in H. apply H. clear H.
    apply list_elem_of_bind. exists i. apply lookup_lt_Some in H1 as Hi, H2 as Hj. split; [|apply elem_of_seq; lia].
    apply list_elem_of_bind. exists j. split; [|apply elem_of_seq; lia].
    rewrite H1, H2, Ha. apply segments_intersect_iff in Hm. rewrite Hm. simpl. set_solver.
  - intros H. apply elem_of_nil_inv. intros d (i & (j & Hd & Hj)%list_elem_of_bind & Hi)%list_elem_of_bind.
    destruct (edges !! i) as [e1|] eqn:H1; [|by apply not_elem_of_nil in Hd].
    destruct (edges !! j) as [e2|] eqn:H2; [|by apply not_elem_of_nil in Hd].
    destruct (apart _ i j && _) eqn:Ha; [|by apply not_elem_of_nil in Hd].
    apply andb_true_iff in Ha as [Ha Hm]. apply segments_intersect_iff in Hm. apply elem_of_seq in Hj. by apply (H i j e1 e2); [..|lia| |].
Qed.

Lemma distinct_defects (defects : list defect) : sorted_on id (remove_dups defects) = [] <-> defects = [].
Proof.
  split; [|by intros ->]. intros H. apply elem_of_nil_inv. intros d Hd.
  apply no_member with (x := d) in H. apply H. clear H. by apply elem_of_sorted_on, elem_of_remove_dups.
Qed.

Lemma zero_length_edges (edges : list (PointNm.t * PointNm.t)) :
  imap (fun index '(start, end_) =>
    if bool_decide (start = end_) then [("zero_length_edge"%string, [Z.of_nat index])] else []) edges ≫= id = [] <->
  forall e, e ∈ edges -> e.1 <> e.2.
Proof.
  split.
  - intros H [a b] He Hab. simpl in Hab. apply list_elem_of_lookup in He as [i Hi].
    apply no_member with (x := ("zero_length_edge"%string, [Z.of_nat i])) in H. apply H. clear H.
    apply list_elem_of_bind. eexists. split; [|apply elem_of_lookup_imap; exists i, (a, b); by split].
    simpl. rewrite bool_decide_true by done. set_solver.
  - intros H. apply elem_of_nil_inv.
    intros d (l & Hd & (i & [a b] & -> & Hi)%elem_of_lookup_imap)%list_elem_of_bind.
    apply list_elem_of_lookup_2, H in Hi. simpl in *. rewrite bool_decide_false in Hd by done. set_solver.
Qed.

(** A simple polygon: at least three different vertices, no edge of length
    zero, an area that is not zero, and no point common to two edges that are
    not neighbours. *)
Definition simple_polygon (outline : BoardOutline) : Prop :=
  (3 <= length (remove_dups outline))%nat /\
  (forall e, e ∈ outline_edges outline -> e.1 <> e.2) /\
  signed_area_twice outline <> 0%Z /\
  (forall i j e1 e2, outline_edges outline !! i = Some e1 -> outline_edges outline !! j = Some e2 ->
    (i < j)%nat -> apart (length (outline_edges outline)) i j = true -> ~ edges_meet e1 e2).

Lemma outline_defects_nil outline : outline_defects outline Kernel.kernel = [] <-> simple_polygon outline.
Proof.
  unfold simple_polygon. rewrite <- self_intersections_nil, <- zero_length_edges. unfold outline_defects.
  assert (length (remove_dups outline) <= length outline)%nat as Hle.
  { apply submseteq_length, NoDup_submseteq; [apply NoDup_remove_dups|]. intros p. by rewrite elem_of_remove_dups. }
  destruct (length outline <? 3)%nat eqn:E1; [split; [done|]; intros (? & _); apply Nat.ltb_lt in E1; lia|].
  rewrite distinct_defects, !app_nil.
  destruct (length (remove_dups outline) <? 3)%nat eqn:E2, (signed_area_twice outline =? 0)%Z eqn:E3;
    rewrite ?Nat.ltb_lt, ?Nat.ltb_ge, ?Z.eqb_eq, ?Z.eqb_neq in *; intuition (done || lia).
Qed.

(** C39. An outline has no defect exactly when it is a simple polygon: at least
    three different vertices, no edge of length zero, an area that is not zero,
    and no point common to two edges that are not neighbours. *)
Theorem outline_without_defects outline :
  outline_defects outline Kernel.kernel = [] <->
  (3 <= length (remove_dups outline))%nat /\
  (forall e, e ∈ outline_edges outline -> e.1 <> e.2) /\
  signed_area_twice outline <> 0%Z /\
  (forall i j e1 e2, outline_edges outline !! i = Some e1 -> outline_edges outline !! j = Some e2 ->
    (i < j)%nat -> apart (length (outline_edges outline)) i j = true -> ~ edges_meet e1 e2).
Proof. apply outline_defects_nil. Qed.

(** C37. The clearance rule is exact: the distance between two segments is the
    least distance of two points of them, and it is below a required distance
    exactly when two points are closer than that; a negative requirement is
    refused. *)
Theorem clearance_is_exact a b c d required :
  let D := segment_distance_squared Kernel.kernel a b c d in
  least_between D (exact_point a) (exact_point b) (exact_point c) (exact_point d) /\
  match rational_less_than_squared D required with
  | Ok closer =>
    (0 <= required)%Z /\
    (closer = true <->
     exists p q, on_segment p (exact_point a) (exact_point b) /\ on_segment q (exact_point c) (exact_point d) /\
       distance_squared p q < inject_Z required * inject_Z required)
  | Err e => (required < 0)%Z /\ e = Exn ValueError "required distance must be non-negative"
  end.
Proof.
  intros D. pose proof (exact_segment_least (exact_point a) (exact_point b) (exact_point c) (exact_point d)) as HD.
  rewrite segment_exact in HD. fold D in HD. split; [done|]. destruct HD as [Hle (p & q & Hp & Hq & HE)].
  unfold rational_less_than_squared. destruct (required <? 0)%Z eqn:Er; simpl; [split; [lia|done]|].
  split; [lia|]. rewrite inject_Z_mult, qlt_iff. split.
  - intros H. exists p, q. split_and!; [done..|]. by rewrite <- HE.
  - intros (p' & q' & Hp' & Hq' & H). apply Qle_lt_trans with (2 := H). by apply Hle.
Qed.
