(* ===== verification/Board.v ===== *)
(** * Boards (backend/verification/model.py, rule.py)

    The typed board graph that the rules read, its normal form, what a rule
    reports and the parameters it is given. *)
From S2P Require Import Prelude PyDict PyStr Geometry.

Local Open Scope string_scope.

(** ** Enumerations *)

Module Severity.
Inductive t := INFO | WARNING | ERROR | FATAL.
#[global] Instance eq_dec : EqDecision t.
Proof. solve_decision. Defined.
Definition value (x : t) : string :=
  match x with INFO => "info" | WARNING => "warning" | ERROR => "error" | FATAL => "fatal" end.
Definition rank (x : t) : Z := match x with INFO => 0 | WARNING => 1 | ERROR => 2 | FATAL => 3 end.
End Severity.

Module RuleDomain.
Inductive t := SYSTEM | ELECTRICAL | GEOMETRY | ALGORITHM.
#[global] Instance eq_dec : EqDecision t.
Proof. solve_decision. Defined.
Definition value (x : t) : string :=
  match x with
  | SYSTEM => "system" | ELECTRICAL => "electrical" | GEOMETRY => "geometry" | ALGORITHM => "algorithm"
  end.
End RuleDomain.

Module ParameterType.
Inductive t := INTEGER | BOOLEAN | STRING.
#[global] Instance eq_dec : EqDecision t.
Proof. solve_decision. Defined.
Definition value (x : t) : string :=
  match x with INTEGER => "integer" | BOOLEAN => "boolean" | STRING => "string" end.
End ParameterType.

Module PinElectricalType.
Inductive t :=
  | INPUT | OUTPUT | BIDIRECTIONAL | PASSIVE | POWER_IN | POWER_OUT | OPEN_COLLECTOR | NO_CONNECT
  | UNSPECIFIED.
#[global] Instance eq_dec : EqDecision t.
Proof. solve_decision. Defined.
Definition value (x : t) : string :=
  match x with
  | INPUT => "input" | OUTPUT => "output" | BIDIRECTIONAL => "bidirectional" | PASSIVE => "passive"
  | POWER_IN => "power_in" | POWER_OUT => "power_out" | OPEN_COLLECTOR => "open_collector"
  | NO_CONNECT => "no_connect" | UNSPECIFIED => "unspecified"
  end.
End PinElectricalType.

Module PadShape.
Inductive t := CIRCLE | OVAL | RECT | ROUNDRECT.
#[global] Instance eq_dec : EqDecision t.
Proof. solve_decision. Defined.
Definition value (x : t) : string :=
  match x with CIRCLE => "circle" | OVAL => "oval" | RECT => "rect" | ROUNDRECT => "roundrect" end.
End PadShape.

Module ZoneFillState.
Inductive t := UNFILLED_INTENT | VERIFIED_FILLED.
#[global] Instance eq_dec : EqDecision t.
Proof. solve_decision. Defined.
Definition value (x : t) : string :=
  match x with UNFILLED_INTENT => "unfilled-intent" | VERIFIED_FILLED => "verified-filled" end.
End ZoneFillState.

(** ** The graph

    [dataclass(order=True)] compares the tuples of the fields; [tuple(sorted(set(l)))] is
    [sorted_set]. *)

#[export] Instance py_ord_point : PyOrd PointNm.t :=
  fun p q => py_le (PointNm.x p, PointNm.y p) (PointNm.x q, PointNm.y q).
#[export] Instance py_ord_point_laws : PyOrdLaws PointNm.t.
Proof.
  split; unfold py_le, py_ord_point.
  - intros x. apply py_le_refl.
  - intros x y z. apply py_le_trans.
  - intros [x1 x2] [y1 y2] H1 H2. by injection (py_le_antisym _ _ H1 H2) as -> ->.
  - intros x y. apply py_le_total.
Qed.
(** [p < q] *)
Definition py_lt {K} `{PyOrd K} (a b : K) : bool := negb (py_le b a).

Definition sorted_set {K} `{EqDecision K, PyOrd K} (l : list K) : list K := sorted_on id (remove_dups l).
Lemma sorted_set_nil {K} `{EqDecision K, PyOrd K} (l : list K) : sorted_set l = [] <-> l = [].
Proof.
  unfold sorted_set. split; [|by intros ->]. intros E. destruct l as [|x l]; [done|exfalso].
  assert (x ∈ sorted_on id (remove_dups (x :: l))) as Hx by (apply elem_of_sorted_on, elem_of_remove_dups; by left).
  rewrite E in Hx. by apply elem_of_nil in Hx.
Qed.

Module EntityRef.
Record t := mk { kind : string; entity_id : string }.
#[global] Instance eq_dec : EqDecision t.
Proof. solve_decision. Defined.
End EntityRef.

Module Pin.
Record t := mk {
  number : string;
  name : string;
  electrical_type : PinElectricalType.t;
  required : bool;
  pad_center : option PointNm.t;
  pad_diameter_nm : Z;
  layers : list string;
  pad_drill_nm : Z;
  pad_number : string;
}.
#[global] Instance settable : Settable t := fun x =>
  mk (number x) (name x) (electrical_type x) (required x) (pad_center x) (pad_diameter_nm x) (layers x)
    (pad_drill_nm x) (pad_number x).
Definition normalized (p : t) : t := p <| layers := sorted_set (layers p) |>.
(** [pin.pad_number or pin.number] *)
Definition logical_number (p : t) : string := if str_empty (pad_number p) then number p else pad_number p.
End Pin.

Module Component.
Record t := mk {
  component_id : string;
  reference : string;
  value : string;
  footprint : string;
  manufacturer_part_number : string;
  datasheet_sha256 : string;
  pin_map_sha256 : string;
  pins : list Pin.t;
}.
#[global] Instance settable : Settable t := fun x =>
  mk (component_id x) (reference x) (value x) (footprint x) (manufacturer_part_number x)
    (datasheet_sha256 x) (pin_map_sha256 x) (pins x).
Definition normalized (c : t) : t := c <| pins := sorted_on Pin.number (Pin.normalized <$> pins c) |>.
End Component.

Module NetConnection.
Record t := mk { component_id : string; pin_number : string }.
Definition key (c : t) : string * string := (component_id c, pin_number c).
End NetConnection.

Module Net.
Record t := mk {
  net_id : string;
  name : string;
  connections : list NetConnection.t;
  external_source : bool;
}.
#[global] Instance settable : Settable t := fun x => mk (net_id x) (name x) (connections x) (external_source x).
Definition normalized (n : t) : t := n <| connections := sorted_on NetConnection.key (connections n) |>.
End Net.

Module Track.
Record t := mk {
  track_id : string;
  net_id : string;
  layer : string;
  start : PointNm.t;
  end_ : PointNm.t;
  width_nm : Z;
}.
#[global] Instance settable : Settable t := fun x =>
  mk (track_id x) (net_id x) (layer x) (start x) (end_ x) (width_nm x).
Definition normalized (x : t) : t :=
  if py_lt (end_ x) (start x) then (x <| start := end_ x |>) <| end_ := start x |> else x.
End Track.

Module Via.
Record t := mk {
  via_id : string;
  net_id : string;
  center : PointNm.t;
  diameter_nm : Z;
  drill_nm : Z;
  layers : list string;
}.
#[global] Instance settable : Settable t := fun x =>
  mk (via_id x) (net_id x) (center x) (diameter_nm x) (drill_nm x) (layers x).
Definition normalized (v : t) : t := v <| layers := sorted_set (layers v) |>.
End Via.

Module PhysicalPad.
Record t := mk {
  pad_id : string;
  component_id : string;
  pad_number : string;
  net_id : option string;
  center : PointNm.t;
  size_x_nm : Z;
  size_y_nm : Z;
  shape : PadShape.t;
  rotation_udeg : Z;
  layers : list string;
  drill_nm : Z;
  drill_x_nm : Z;
  drill_y_nm : Z;
  drill_rotation_udeg : Z;
  shared_land_group_id : option string;
}.
#[global] Instance settable : Settable t := fun x =>
  mk (pad_id x) (component_id x) (pad_number x) (net_id x) (center x) (size_x_nm x) (size_y_nm x) (shape x)
    (rotation_udeg x) (layers x) (drill_nm x) (drill_x_nm x) (drill_y_nm x) (drill_rotation_udeg x)
    (shared_land_group_id x).
#[global] Instance eq_dec : EqDecision t.
Proof. solve_decision. Defined.
Definition normalized (p : t) : t := p <| layers := sorted_set (layers p) |>.
End PhysicalPad.

Module Hole.
Record t := mk {
  hole_id : string;
  component_id : string;
  center : PointNm.t;
  diameter_nm : Z;
  plated : bool;
  pad_id : option string;
  drill_x_nm : Z;
  drill_y_nm : Z;
  drill_rotation_udeg : Z;
}.
End Hole.

(** [BoardOutline.normalized]: the closing vertex is dropped, then the least of
    the rotations in both directions is taken. *)
Module Outline.
Definition opened (vertices : BoardOutline) : BoardOutline :=
  if (1 <? length vertices)%nat && bool_decide (head vertices = last vertices)
  then take (length vertices - 1) vertices else vertices.

Definition rotations (points : BoardOutline) : list BoardOutline :=
  (fun index => drop index points ++ take index points)%list <$> seq 0 (length points).

Definition normalized (outline : BoardOutline) : BoardOutline :=
  let vertices := opened outline in
  match min_on id (rotations vertices), min_on id (rotations (reverse vertices)) with
  | Some forward, Some backward => min_on_from id forward [backward]
  | _, _ => []
  end.
End Outline.

Module ZoneFillEvidence.
Record t := mk {
  source_graph_hash : string;
  source_revision : string;
  fill_engine_id : string;
  fill_engine_revision : string;
  filled_geometry_hash : string;
  evidence_hash : string;
}.
End ZoneFillEvidence.

Module Zone.
Record t := mk {
  zone_id : string;
  net_id : string;
  layer : string;
  outline : BoardOutline;
  clearance_nm : Z;
  fill_state : ZoneFillState.t;
  fill_evidence : option ZoneFillEvidence.t;
}.
#[global] Instance settable : Settable t := fun x =>
  mk (zone_id x) (net_id x) (layer x) (outline x) (clearance_nm x) (fill_state x)
    (fill_evidence x).
Definition normalized (z : t) : t := z <| outline := Outline.normalized (outline z) |>.
End Zone.

Module BoardGraph.
Record t := mk {
  schema_version : Z;
  design_id : string;
  revision : string;
  layers : list string;
  outline : BoardOutline;
  components : list Component.t;
  nets : list Net.t;
  tracks : list Track.t;
  vias : list Via.t;
  unsupported_features : list string;
  zones : list Zone.t;
  holes : list Hole.t;
  pads : list PhysicalPad.t;
}.
Definition normalized (b : t) : t :=
  mk (schema_version b) (design_id b) (revision b)
    (sorted_set (layers b))
    (Outline.normalized (outline b))
    (sorted_on Component.component_id (Component.normalized <$> components b))
    (sorted_on Net.net_id (Net.normalized <$> nets b))
    (sorted_on Track.track_id (Track.normalized <$> tracks b))
    (sorted_on Via.via_id (Via.normalized <$> vias b))
    (sorted_set (unsupported_features b))
    (sorted_on Zone.zone_id (Zone.normalized <$> zones b))
    (sorted_on Hole.hole_id (holes b))
    (sorted_on PhysicalPad.pad_id (PhysicalPad.normalized <$> pads b)).
End BoardGraph.

(** ** Rules: definitions, parameters and findings *)

Inductive scalar := SStr (s : string) | SInt (z : Z) | SBool (b : bool).
#[export] Instance scalar_eq_dec : EqDecision scalar.
Proof. solve_decision. Defined.

Module ParameterSpec.
Record t := mk {
  name : string;
  parameter_type : ParameterType.t;
  default : scalar;
  minimum : option Z;
  maximum : option Z;
}.
End ParameterSpec.

Module RuleDefinition.
Record t := mk {
  rule_id : string;
  version : string;
  domain : RuleDomain.t;
  title : string;
  description : string;
  default_severity : Severity.t;
  parameters : list ParameterSpec.t;
  mandatory : bool;
}.
End RuleDefinition.

Module ParameterValue.
Record t := mk { name : string; value : scalar }.
#[global] Instance eq_dec : EqDecision t.
Proof. solve_decision. Defined.
End ParameterValue.

Module RuleOverride.
Record t := mk {
  rule_id : string;
  enabled : bool;
  severity : option Severity.t;
  parameters : list ParameterValue.t;
}.
End RuleOverride.

(** The value of an [EvidenceItem]: a scalar or a tuple of scalars. *)
Inductive evidence := Scalar (s : scalar) | Tuple (l : list scalar).
#[export] Instance evidence_eq_dec : EqDecision evidence.
Proof. solve_decision. Defined.

Module EvidenceItem.
Record t := mk { name : string; value : evidence }.
#[global] Instance eq_dec : EqDecision t.
Proof. solve_decision. Defined.
End EvidenceItem.
Definition ev_str (name s : string) : EvidenceItem.t := EvidenceItem.mk name (Scalar (SStr s)).
Definition ev_int (name : string) (z : Z) : EvidenceItem.t := EvidenceItem.mk name (Scalar (SInt z)).
Definition ev_bool (name : string) (b : bool) : EvidenceItem.t := EvidenceItem.mk name (Scalar (SBool b)).
Definition ev_strs (name : string) (l : list string) : EvidenceItem.t := EvidenceItem.mk name (Tuple (SStr <$> l)).
Definition ev_ints (name : string) (l : list Z) : EvidenceItem.t := EvidenceItem.mk name (Tuple (SInt <$> l)).
(** [value.numerator] and [value.denominator] of a fraction in lowest terms. *)
Definition numerator (q : Q) : Z := Qnum (Qred q).
Definition denominator (q : Q) : Z := Zpos (Qden (Qred q)).

Module FindingDraft.
Record t := mk {
  message : string;
  entities : list EntityRef.t;
  items : list EvidenceItem.t;
}.
#[global] Instance eq_dec : EqDecision t.
Proof. solve_decision. Defined.
End FindingDraft.

Module RuleContext.
Record t := mk {
  severity : Severity.t;
  parameters : list ParameterValue.t;
  geometry : GeometryKernel;
}.

Definition parameter (c : t) (name : string) : result scalar :=
  match list_find (fun item => ParameterValue.name item = name) (parameters c) with
  | Some (_, item) => Ok (ParameterValue.value item)
  | None => Err (Exn KeyError ("resolved rule parameter not found: " +:+ name))
  end.

(** The names of parameters are identifiers, so that their [repr] only adds
    quotation marks. *)
Definition integer (c : t) (name : string) : result Z :=
  let* value := parameter c name in
  match value with
  | SInt z => Ok z
  | _ => Err (Exn TypeError ("rule parameter '" +:+ name +:+ "' is not an integer"))
  end.
Definition boolean (c : t) (name : string) : result bool :=
  let* value := parameter c name in
  match value with
  | SBool b => Ok b
  | _ => Err (Exn TypeError ("rule parameter '" +:+ name +:+ "' is not a boolean"))
  end.
Definition string (c : t) (name : string) : result string :=
  let* value := parameter c name in
  match value with
  | SStr s => Ok s
  | _ => Err (Exn TypeError ("rule parameter '" +:+ name +:+ "' is not a string"))
  end.
End RuleContext.

(** A rule: its definition and [evaluate(board, context)]. *)
Record RuleEvaluator := {
  definition : RuleDefinition.t;
  evaluate : BoardGraph.t -> RuleContext.t -> result (list FindingDraft.t);
}.
