(* ===== verification/OutlineFacts.v ===== *)
(** * The normal form of an outline

    [BoardOutline.normalized] is the least of the ways to write the polygon
    down, so it identifies the polygon. *)
From S2P Require Import Prelude Geometry Board.

Import Outline.

(** [w] is [v] written from another vertex on. *)
Definition turned {A} (v w : list A) : Prop := exists a b, v = a ++ b /\ w = b ++ a.

Section turns.
Context {A : Type}.
Implicit Types u v w : list A.

#[local] Instance turned_refl : Reflexive (@turned A).
Proof. intros v. exists [], v. by rewrite app_nil_r. Qed.
#[local] Instance turned_sym : Symmetric (@turned A).
Proof. intros v w (a & b & -> & ->). by exists b, a. Qed.
#[local] Instance turned_trans : Transitive (@turned A).
Proof.
  intros u v w (a & b & -> & ->) (c & d & H & ->).
  apply app_eq_app in H as (e & [[-> ->]|[-> ->]]).
  - exists (a ++ c), e. by rewrite !app_assoc.
  - exists e, (d ++ b). by rewrite !app_assoc.
Qed.

Lemma turned_reverse v w : turned v w -> turned (reverse v) (reverse w).
Proof. intros (a & b & -> & ->). exists (reverse b), (reverse a). by rewrite !reverse_app. Qed.

(** The same closed polygon: another first vertex, or the other direction. *)
Definition same_polygon v w : Prop := turned v w \/ turned (reverse v) w.

#[local] Instance same_polygon_refl : Reflexive same_polygon.
Proof. intros v. by left. Qed.
#[local] Instance same_polygon_sym : Symmetric same_polygon.
Proof.
  intros v w [H|H]; [left; by symmetry|right]. symmetry in H. apply turned_reverse in H.
  by rewrite reverse_involutive in H.
Qed.
#[local] Instance same_polygon_trans : Transitive same_polygon.
Proof.
  intros u v w [H1|H1] [H2|H2].
  - left. by transitivity v.
  - right. transitivity (reverse v); [by apply turned_reverse|done].
  - right. by transitivity v.
  - left. transitivity (reverse v); [|done]. apply turned_reverse in H1. by rewrite reverse_involutive in H1.
Qed.
End turns.

(** ** The least way to write the polygon *)

Lemma elem_of_rotations (v w : BoardOutline) : v <> [] -> w ∈ rotations v <-> turned v w.
Proof.
  intros Hv. unfold rotations. rewrite list_elem_of_fmap. split.
  - intros (i & -> & _). exists (take i v), (drop i v). by rewrite take_drop.
  - intros (a & b & -> & ->). destruct b as [|p b].
    + rewrite app_nil_r in *. exists 0%nat. simpl. rewrite app_nil_r. split; [done|]. apply elem_of_seq.
      destruct a; [done|simpl; lia].
    + exists (length a). rewrite drop_app_length, take_app_length. split; [done|].
      apply elem_of_seq. rewrite length_app. simpl. lia.
Qed.

(** Nothing before the opening changes an empty outline. *)
Lemma normalized_nil outline : normalized outline = [] <-> opened outline = [].
Proof.
  unfold normalized. destruct (opened outline) as [|p v] eqn:E; [done|]. split; [|done].
  destruct (min_on id (rotations (p :: v))) as [f|] eqn:Ef; [|by apply min_on_None in Ef].
  apply min_on_Some in Ef as [(a & b & Hab & ->)%elem_of_rotations _]; [|done].
  assert (reverse (p :: v) <> []) as Hr.
  { intros H. apply (f_equal length) in H. rewrite length_reverse in H. done. }
  destruct (min_on id (rotations (reverse (p :: v)))) as [b'|] eqn:Eb.
  - apply min_on_Some in Eb as [(c & d & Hcd & ->)%elem_of_rotations _]; [|done].
    simpl. destruct (py_le _ _); intros H; apply app_eq_nil in H as [-> ->]; [done|by rewrite Hcd in Hr].
  - apply min_on_None in Eb. unfold rotations in Eb. apply fmap_nil_inv in Eb.
    apply (f_equal length) in Eb. rewrite length_seq in Eb. by apply nil_length_inv in Eb.
Qed.

Lemma normalized_least outline :
  opened outline <> [] ->
  same_polygon (opened outline) (normalized outline) /\
  forall w, same_polygon (opened outline) w -> py_le (normalized outline) w = true.
Proof.
  intros Hne. assert (reverse (opened outline) <> []) as Hr.
  { intros H. apply (f_equal length) in H. rewrite length_reverse in H. by apply nil_length_inv in H. }
  unfold normalized.
  assert (forall v : BoardOutline, v <> [] -> exists f, min_on id (rotations v) = Some f /\ turned v f /\
    forall w, turned v w -> py_le f w = true) as Hmin.
  { intros v Hv. destruct (min_on id (rotations v)) as [f|] eqn:Ef.
    - apply min_on_Some in Ef as [Hin Hle]. exists f. rewrite elem_of_rotations in Hin by done. split_and!; [done..|].
      intros w Hw. apply Hle. by apply elem_of_rotations.
    - apply min_on_None in Ef. destruct (not_elem_of_nil v). rewrite <- Ef. apply elem_of_rotations; [done|].
      apply turned_refl. }
  destruct (Hmin _ Hne) as (f & -> & Hf & Lf). destruct (Hmin _ Hr) as (b & -> & Hb & Lb).
  simpl. destruct (py_le f b) eqn:E.
  - split; [by left|]. intros w [Hw|Hw]; [by apply Lf|]. by eapply py_le_trans, Lb.
  - split; [by right|]. assert (py_le b f = true) as Hbf by (destruct (py_le_total f b); [congruence|done]).
    intros w [Hw|Hw]; [by eapply py_le_trans, Lf|by apply Lb].
Qed.

(** The normal form of an outline identifies the polygon: two outlines have
    the same normal form exactly when, a closing vertex aside, one lists the
    vertices of the other from another vertex on or in the other direction. *)
Theorem normal_form_iff first second :
  normalized first = normalized second <-> same_polygon (opened first) (opened second).
Proof.
  destruct (decide (opened first = [])) as [E1|N1]; [|destruct (decide (opened second = [])) as [E2|N2]].
  - rewrite E1, (proj2 (normalized_nil first) E1). split.
    + intros H. symmetry in H. apply normalized_nil in H as ->. left. apply turned_refl.
    + intros H. symmetry. apply normalized_nil.
      destruct H as [(a & b & H & ->)|(a & b & H & ->)]; symmetry in H; by apply app_eq_nil in H as [-> ->].
  - rewrite E2, (proj2 (normalized_nil second) E2), normalized_nil. split; [by intros ->; left; apply turned_refl|].
    intros H. apply same_polygon_sym in H.
    destruct H as [(a & b & H & ->)|(a & b & H & ->)]; symmetry in H; by apply app_eq_nil in H as [-> ->].
  - destruct (normalized_least first N1) as [S1 L1], (normalized_least second N2) as [S2 L2]. split.
    + intros H. rewrite H in S1. by eapply same_polygon_trans, same_polygon_sym.
    + intros H. apply py_le_antisym; [apply L1|apply L2].
      * by eapply same_polygon_trans.
      * by eapply same_polygon_trans; [apply same_polygon_sym|].
Qed.
