(* ===== verification/Rule.v ===== *)
(** * Resolving a rule against a policy (backend/verification/rule.py)

    Tests of exact Python types are the types of the model.  The patterns of
    ids and versions are written out as the automata of their regular
    expressions. *)
From S2P Require Import Prelude PyDict PyStr Board.

Local Open Scope string_scope.

Definition cfg_err (msg : string) : exn := Exn RuleConfigurationError msg.

Definition is_upper (c : ascii) : bool := ((65 <=? code c) && (code c <=? 90))%Z.
Definition is_digit (c : ascii) : bool := ((48 <=? code c) && (code c <=? 57))%Z.
Definition is_word (c : ascii) : bool := is_upper c || is_digit c || bool_decide (code c = 95%Z).

(** ["...".split(".")] *)
Fixpoint split_dots (s : string) : list string :=
  match s with
  | EmptyString => [""]
  | String c s =>
    match split_dots s with
    | part :: rest => if bool_decide (code c = 46%Z) then "" :: part :: rest else String c part :: rest
    | [] => []
    end
  end.

(** [A-Z][A-Z0-9_]* *)
Definition id_part (s : string) : bool :=
  match s with EmptyString => false | String c s => is_upper c && str_forallb is_word s end.
(** [RULE_ID_PATTERN]: at least two parts, joined by dots. *)
Definition rule_id_pattern (s : string) : bool :=
  (2 <=? length (split_dots s))%nat && forallb id_part (split_dots s).

(** 0|[1-9][0-9]* *)
Definition number_part (s : string) : bool :=
  match s with
  | EmptyString => false
  | String c s' => if bool_decide (code c = 48%Z) then str_empty s' else is_digit c && str_forallb is_digit s'
  end.
(** [SEMVER_PATTERN] *)
Definition semver_pattern (s : string) : bool :=
  (length (split_dots s) =? 3)%nat && forallb number_part (split_dots s).

(** [validate_parameter(spec, value, rule_id)] *)
Definition validate_parameter (spec : ParameterSpec.t) (value : scalar) (rule_id : string) : result unit :=
  let valid :=
    match ParameterSpec.parameter_type spec, value with
    | ParameterType.INTEGER, SInt _ | ParameterType.BOOLEAN, SBool _ | ParameterType.STRING, SStr _ => true
    | _, _ => false
    end in
  raise_if (negb valid)
    (cfg_err ("parameter " +:+ rule_id +:+ "." +:+ ParameterSpec.name spec +:+ " must be " +:+
              ParameterType.value (ParameterSpec.parameter_type spec))) ;;;
  match value with
  | SInt z =>
    raise_first [
      (match ParameterSpec.minimum spec with Some m => (z <? m)%Z | None => false end,
       cfg_err ("parameter " +:+ rule_id +:+ "." +:+ ParameterSpec.name spec +:+ " is below " +:+
                str_of_int (default 0%Z (ParameterSpec.minimum spec))));
      (match ParameterSpec.maximum spec with Some m => (m <? z)%Z | None => false end,
       cfg_err ("parameter " +:+ rule_id +:+ "." +:+ ParameterSpec.name spec +:+ " is above " +:+
                str_of_int (default 0%Z (ParameterSpec.maximum spec))))]
  | _ => Ok tt
  end.

(** The body of the loop of [validate_rule_definition] over the parameters. *)
Definition validate_spec (rule_id : string) (parameter : ParameterSpec.t) : result unit :=
  raise_first [
    (str_blank (ParameterSpec.name parameter),
     cfg_err ("rule " +:+ rule_id +:+ " parameter name must be a non-empty string"));
    (match ParameterSpec.minimum parameter, ParameterSpec.maximum parameter with
     | Some lo, Some hi => (hi <? lo)%Z
     | _, _ => false
     end,
     cfg_err ("parameter " +:+ rule_id +:+ "." +:+ ParameterSpec.name parameter +:+ " minimum exceeds maximum"))] ;;;
  validate_parameter parameter (ParameterSpec.default parameter) rule_id.

(** [validate_rule_definition(definition)]; the message of the first check shows
    the id by [repr], which is the id between quotation marks up to escapes. *)
Definition validate_rule_definition (d : RuleDefinition.t) : result unit :=
  let rule_id := RuleDefinition.rule_id d in
  let parameter_names := ParameterSpec.name <$> RuleDefinition.parameters d in
  raise_first [
    (negb (rule_id_pattern rule_id), cfg_err ("invalid stable rule id: '" +:+ rule_id +:+ "'"));
    (negb (semver_pattern (RuleDefinition.version d)),
     cfg_err ("rule " +:+ rule_id +:+ " must use a numeric semantic version"));
    (negb (length parameter_names =? length (remove_dups parameter_names))%nat,
     cfg_err ("duplicate parameter in " +:+ rule_id))] ;;;
  forM_ (validate_spec rule_id) (RuleDefinition.parameters d).

Module ResolvedRule.
Record t := mk {
  evaluator : RuleEvaluator;
  enabled : bool;
  severity : Severity.t;
  parameters : list ParameterValue.t;
}.
End ResolvedRule.

(** The values an override gives, the last for each name. *)
Definition provided_values (values : list ParameterValue.t) : dict scalar :=
  dict_of_pairs ((fun v => (ParameterValue.name v, ParameterValue.value v)) <$> values).

(** One turn of the last loop of [resolve_rule]; [name] is a key of [specs]. *)
Definition resolve_parameter (rule_id : string) (specs : dict ParameterSpec.t) (provided : dict scalar)
    (name : string) : result ParameterValue.t :=
  let* spec := dict_getitem specs name in
  let value := default (ParameterSpec.default spec) (provided !! name) in
  validate_parameter spec value rule_id ;;;
  Ok (ParameterValue.mk name value).

(** [resolve_rule(evaluator, override)] *)
Definition resolve_rule (evaluator : RuleEvaluator) (override : option RuleOverride.t) : result ResolvedRule.t :=
  let d := definition evaluator in
  let rule_id := RuleDefinition.rule_id d in
  validate_rule_definition d ;;;
  let enabled := match override with None => true | Some o => RuleOverride.enabled o end in
  raise_if (RuleDefinition.mandatory d && negb enabled)
    (cfg_err ("mandatory rule cannot be disabled: " +:+ rule_id)) ;;;
  let severity := default (RuleDefinition.default_severity d) (override ≫= RuleOverride.severity) in
  raise_if (RuleDefinition.mandatory d && bool_decide (RuleDefinition.default_severity d = Severity.FATAL) &&
            negb (bool_decide (severity = Severity.FATAL)))
    (cfg_err ("mandatory fatal rule cannot be severity-downgraded: " +:+ rule_id)) ;;;
  let values := match override with None => [] | Some o => RuleOverride.parameters o end in
  let provided := provided_values values in
  raise_if (negb (length (dict_items provided) =? length values)%nat)
    (cfg_err ("duplicate override parameter for " +:+ rule_id)) ;;;
  let specs := dict_by ParameterSpec.name (RuleDefinition.parameters d) in
  let unknown := sorted_on id (filter (fun name => name ∉ dict_keys specs) (dict_keys provided)) in
  raise_if (negb (bool_decide (unknown = [])))
    (cfg_err ("unknown parameters for " +:+ rule_id +:+ ": " +:+ str_join ", " unknown)) ;;;
  let* resolved := mapM (resolve_parameter rule_id specs provided) (sorted_on id (dict_keys specs)) in
  Ok (ResolvedRule.mk evaluator enabled severity resolved).
