(* ===== verification/Copper.v ===== *)
(** * Copper as geometry (backend/verification/geometric.py)

    Pads, tracks, vias and holes as cores (a point, a segment or a box) with
    the diameter of a disk around every point of the core, and the exact
    distances between cores. *)
From S2P Require Import Prelude PyDict PyStr Geometry Board.

Local Open Scope string_scope.

Definition drill_dimensions (legacy_minor_nm drill_x_nm drill_y_nm : Z) : Z * Z :=
  if ((drill_x_nm =? 0) && (drill_y_nm =? 0))%Z then (legacy_minor_nm, legacy_minor_nm)
  else (drill_x_nm, drill_y_nm).

Definition quadrant_dimensions (size_x_nm size_y_nm rotation_udeg : Z) : Z * Z :=
  if negb ((rotation_udeg / 90000000) mod 2 =? 0)%Z then (size_y_nm, size_x_nm) else (size_x_nm, size_y_nm).

(** ** Cores *)

Module CoreBox.
Record t := mk { minimum_x : Q; minimum_y : Q; maximum_x : Q; maximum_y : Q }.

Definition corners (b : t) : list ExactPoint.t := [
  ExactPoint.mk (minimum_x b) (minimum_y b);
  ExactPoint.mk (maximum_x b) (minimum_y b);
  ExactPoint.mk (maximum_x b) (maximum_y b);
  ExactPoint.mk (minimum_x b) (maximum_y b)].

Definition edges (b : t) : list (ExactPoint.t * ExactPoint.t) :=
  zip (corners b) (drop 1 (corners b) ++ take 1 (corners b))%list.
End CoreBox.

Module CopperPrimitive.
Record t := mk {
  primitive_id : string;
  entity : EntityRef.t;
  net_id : string;
  layers : list string;
  center : option ExactPoint.t;
  start : option ExactPoint.t;
  end_ : option ExactPoint.t;
  box : option CoreBox.t;
  width_nm : Z;
}.

(** [is_segment], with the two points that the assertions then find. *)
Definition ends (p : t) : option (ExactPoint.t * ExactPoint.t) :=
  match start p, end_ p with Some a, Some b => Some (a, b) | _, _ => None end.
Definition is_segment (p : t) : bool := bool_decide (is_Some (ends p)).
Definition is_box (p : t) : bool := bool_decide (is_Some (box p)).

(** [assert primitive.center is not None], and its value. *)
Definition the_center (p : t) : result ExactPoint.t :=
  match center p with Some c => Ok c | None => Err (Exn AssertionError "") end.
End CopperPrimitive.

(** What [_pad_core] returns: center, start, end, box and width. *)
Definition pad_core_result : Type :=
  option ExactPoint.t * option ExactPoint.t * option ExactPoint.t * option CoreBox.t * Z.

Definition halved (z : Z) : Q := z # 2.

(** The two ends of a slot of length [major_delta] on each side of [center]. *)
Definition slot_ends (center : ExactPoint.t) (horizontal : bool) (major_delta : Q) : ExactPoint.t * ExactPoint.t :=
  let '(ExactPoint.mk x y) := center in
  if horizontal then (ExactPoint.mk (x - major_delta) y, ExactPoint.mk (x + major_delta) y)
  else (ExactPoint.mk x (y - major_delta), ExactPoint.mk x (y + major_delta)).

Definition pad_core (pad : PhysicalPad.t) : option pad_core_result :=
  if ((PhysicalPad.size_x_nm pad <=? 0) || (PhysicalPad.size_y_nm pad <=? 0) ||
      negb (PhysicalPad.rotation_udeg pad mod 90000000 =? 0))%Z then None
  else
    let '(size_x_nm, size_y_nm) :=
      quadrant_dimensions (PhysicalPad.size_x_nm pad) (PhysicalPad.size_y_nm pad) (PhysicalPad.rotation_udeg pad) in
    let center := exact_point (PhysicalPad.center pad) in
    let minor := Z.min size_x_nm size_y_nm in
    match PhysicalPad.shape pad with
    | PadShape.CIRCLE =>
      if negb (size_x_nm =? size_y_nm)%Z then None else Some (Some center, None, None, None, size_x_nm)
    | PadShape.OVAL =>
      let major_delta := halved (Z.abs (size_x_nm - size_y_nm)) in
      if Qeq_bool major_delta 0 then Some (Some center, None, None, None, minor)
      else
        let '(start, end_) := slot_ends center (size_y_nm <? size_x_nm)%Z major_delta in
        Some (None, Some start, Some end_, None, minor)
    | shape =>
      let half_x := halved size_x_nm in
      let half_y := halved size_y_nm in
      let radius := if bool_decide (shape = PadShape.RECT) then 0%Z else (minor / 4)%Z in
      let box := CoreBox.mk
        (ExactPoint.x center - half_x + inject_Z radius)
        (ExactPoint.y center - half_y + inject_Z radius)
        (ExactPoint.x center + half_x - inject_Z radius)
        (ExactPoint.y center + half_y - inject_Z radius) in
      Some (None, None, None, Some box, (2 * radius)%Z)
    end.

(** ** The copper of a board *)

(** A [dict] with tuples as keys, of which only lookups are used: the last value of a key. *)
Definition last_by_key {V} (l : list ((string * string) * V)) : gmap (string * string) V :=
  foldl (fun m kv => <[kv.1 := kv.2]> m) ∅ l.

Definition component_pins (board : BoardGraph.t) : list (Component.t * Pin.t) :=
  BoardGraph.components board ≫= fun component => (fun pin => (component, pin)) <$> Component.pins component.
Definition net_connections (board : BoardGraph.t) : list (Net.t * NetConnection.t) :=
  BoardGraph.nets board ≫= fun net => (fun connection => (net, connection)) <$> Net.connections net.

(** [{(component.component_id, pin.number): pin ...}] *)
Definition pin_by_number (board : BoardGraph.t) : gmap (string * string) Pin.t :=
  last_by_key ((fun cp => ((Component.component_id cp.1, Pin.number cp.2), cp.2)) <$> component_pins board).

Definition physical_pad_nets (board : BoardGraph.t) : gmap (string * string) string :=
  last_by_key (omap (fun '(net, connection) =>
    pin ← pin_by_number board !! NetConnection.key connection;
    Some ((NetConnection.component_id connection, Pin.logical_number pin), Net.net_id net))
    (net_connections board)).

(** [pad.net_id or pad_nets.get((pad.component_id, pad.pad_number), "")] *)
Definition pad_net (pad_nets : gmap (string * string) string) (pad : PhysicalPad.t) : string :=
  match PhysicalPad.net_id pad with
  | Some (String _ _ as net_id) => net_id
  | _ => default "" (pad_nets !! (PhysicalPad.component_id pad, PhysicalPad.pad_number pad))
  end.

Definition pad_primitive (pad_nets : gmap (string * string) string) (pad : PhysicalPad.t) :
    option CopperPrimitive.t :=
  match pad_core pad with
  | Some (center, start, end_, box, width_nm) =>
    if bool_decide (PhysicalPad.layers pad = []) then None
    else Some (CopperPrimitive.mk ("pad:" +:+ PhysicalPad.pad_id pad) (EntityRef.mk "pad" (PhysicalPad.pad_id pad))
                 (pad_net pad_nets pad) (PhysicalPad.layers pad) center start end_ box width_nm)
  | None => None
  end.

(** The loop over the pads: a shared land is represented by its first pad. *)
Fixpoint pad_primitives (pad_nets : gmap (string * string) string) (represented : gset string)
    (pads : list PhysicalPad.t) : list CopperPrimitive.t :=
  match pads with
  | [] => []
  | pad :: pads =>
    match PhysicalPad.shared_land_group_id pad with
    | Some group =>
      if decide (group ∈ represented) then pad_primitives pad_nets represented pads
      else option_list (pad_primitive pad_nets pad) ++ pad_primitives pad_nets ({[group]} ∪ represented) pads
    | None => option_list (pad_primitive pad_nets pad) ++ pad_primitives pad_nets represented pads
    end%list
  end.

(** The pads of pins, of a board without physical pads. *)
Definition pin_primitive (pin_nets : gmap (string * string) string) (component : Component.t) (pin : Pin.t) :
    option CopperPrimitive.t :=
  match pin_nets !! (Component.component_id component, Pin.number pin), Pin.pad_center pin with
  | Some net_id, Some center =>
    if negb (str_empty net_id) && (0 <? Pin.pad_diameter_nm pin)%Z && negb (bool_decide (Pin.layers pin = [])) then
      let pin_id := Component.component_id component +:+ ":" +:+ Pin.number pin in
      Some (CopperPrimitive.mk ("pad:" +:+ pin_id) (EntityRef.mk "pin" pin_id) net_id (Pin.layers pin)
              (Some (exact_point center)) None None None (Pin.pad_diameter_nm pin))
    else None
  | _, _ => None
  end.

Definition track_primitive (track : Track.t) : CopperPrimitive.t :=
  CopperPrimitive.mk ("track:" +:+ Track.track_id track) (EntityRef.mk "track" (Track.track_id track))
    (Track.net_id track) [Track.layer track] None
    (Some (exact_point (Track.start track))) (Some (exact_point (Track.end_ track))) None (Track.width_nm track).

Definition via_primitive (via : Via.t) : CopperPrimitive.t :=
  CopperPrimitive.mk ("via:" +:+ Via.via_id via) (EntityRef.mk "via" (Via.via_id via))
    (Via.net_id via) (Via.layers via) (Some (exact_point (Via.center via))) None None None (Via.diameter_nm via).

Definition pad_or_pin_primitives (board : BoardGraph.t) : list CopperPrimitive.t :=
  match BoardGraph.pads board with
  | [] =>
    let pin_nets := last_by_key ((fun nc => (NetConnection.key nc.2, Net.net_id nc.1)) <$> net_connections board) in
    omap (fun '(component, pin) => pin_primitive pin_nets component pin) (component_pins board)
  | pads => pad_primitives (physical_pad_nets board) ∅ pads
  end.

(** [_copper_primitives(board)] *)
Definition copper_primitives (board : BoardGraph.t) : list CopperPrimitive.t :=
  sorted_on CopperPrimitive.primitive_id
    (pad_or_pin_primitives board ++
     (track_primitive <$> filter (fun track => 0 < Track.width_nm track)%Z (BoardGraph.tracks board)) ++
     (via_primitive <$> filter (fun via => 0 < Via.diameter_nm via)%Z (BoardGraph.vias board)))%list.

(** ** Distances *)

Section distances.
Import ExactPoint CoreBox.
Local Open Scope Q_scope.

Definition point_distance_squared (first second : ExactPoint.t) : Q :=
  (x first - x second) ^ 2 + (y first - y second) ^ 2.

Definition point_in_box (point : ExactPoint.t) (box : CoreBox.t) : bool :=
  (Qle_bool (minimum_x box) (x point) && Qle_bool (x point) (maximum_x box)) &&
  (Qle_bool (minimum_y box) (y point) && Qle_bool (y point) (maximum_y box)).

Definition point_box_distance_squared (point : ExactPoint.t) (box : CoreBox.t) : Q :=
  let dx := qmax (qmax (minimum_x box - x point) 0) (x point - maximum_x box) in
  let dy := qmax (qmax (minimum_y box - y point) 0) (y point - maximum_y box) in
  dx * dx + dy * dy.

Definition segment_box_distance_squared (start end_ : ExactPoint.t) (box : CoreBox.t) : Q :=
  if point_in_box start box || point_in_box end_ box ||
     existsb (fun e => exact_segments_intersect start end_ e.1 e.2) (edges box)
  then 0
  else
    least (point_box_distance_squared start box :: point_box_distance_squared end_ box ::
      ((fun corner => exact_point_segment_distance_squared corner start end_) <$> corners box)).

Definition box_distance_squared (first second : CoreBox.t) : Q :=
  let dx := qmax (qmax (minimum_x first - maximum_x second) 0) (minimum_x second - maximum_x first) in
  let dy := qmax (qmax (minimum_y first - maximum_y second) 0) (minimum_y second - maximum_y first) in
  dx * dx + dy * dy.
End distances.

Definition hole_primitive (hole : Hole.t) (layers : list string) : result CopperPrimitive.t :=
  let '(drill_x_nm, drill_y_nm) :=
    drill_dimensions (Hole.diameter_nm hole) (Hole.drill_x_nm hole) (Hole.drill_y_nm hole) in
  raise_if (negb (Hole.drill_rotation_udeg hole mod 90000000 =? 0)%Z)
    (Exn ValueError ("unsupported non-quadrant hole rotation: " +:+ Hole.hole_id hole)) ;;;
  let '(drill_x_nm, drill_y_nm) := quadrant_dimensions drill_x_nm drill_y_nm (Hole.drill_rotation_udeg hole) in
  let center := exact_point (Hole.center hole) in
  let minor := Z.min drill_x_nm drill_y_nm in
  let major_delta := halved (Z.abs (drill_x_nm - drill_y_nm)) in
  let '(point_center, start, end_) :=
    if Qeq_bool major_delta 0 then (Some center, None, None)
    else
      let '(start, end_) := slot_ends center (drill_y_nm <? drill_x_nm)%Z major_delta in
      (None, Some start, Some end_) in
  Ok (CopperPrimitive.mk ("hole:" +:+ Hole.hole_id hole) (EntityRef.mk "hole" (Hole.hole_id hole)) "" layers
        point_center start end_ None minor).

(** [_distance_squared(first, second, context)] *)
Definition distance_squared (first second : CopperPrimitive.t) : result Q :=
  match CopperPrimitive.box first, CopperPrimitive.box second with
  | Some first_box, Some second_box => Ok (box_distance_squared first_box second_box)
  | Some first_box, None =>
    match CopperPrimitive.ends second with
    | Some (start, end_) => Ok (segment_box_distance_squared start end_ first_box)
    | None => let* center := CopperPrimitive.the_center second in Ok (point_box_distance_squared center first_box)
    end
  | None, Some second_box =>
    match CopperPrimitive.ends first with
    | Some (start, end_) => Ok (segment_box_distance_squared start end_ second_box)
    | None => let* center := CopperPrimitive.the_center first in Ok (point_box_distance_squared center second_box)
    end
  | None, None =>
    match CopperPrimitive.ends first, CopperPrimitive.ends second with
    | Some (first_start, first_end), Some (second_start, second_end) =>
      Ok (exact_segment_distance_squared first_start first_end second_start second_end)
    | Some (start, end_), None =>
      let* center := CopperPrimitive.the_center second in
      Ok (exact_point_segment_distance_squared center start end_)
    | None, Some (start, end_) =>
      let* center := CopperPrimitive.the_center first in
      Ok (exact_point_segment_distance_squared center start end_)
    | None, None =>
      let* first_center := CopperPrimitive.the_center first in
      let* second_center := CopperPrimitive.the_center second in
      Ok (point_distance_squared first_center second_center)
    end
  end.

(** ** Cores and outlines *)

Definition exact_outline_edges (vertices : BoardOutline) : list (ExactPoint.t * ExactPoint.t) :=
  zip (exact_point <$> vertices) (exact_point <$> (drop 1 vertices ++ take 1 vertices)%list).

Definition core_outline_distance_squared (primitive : CopperPrimitive.t) (outline : BoardOutline) : result Q :=
  let edges := exact_outline_edges outline in
  match edges with
  | [] => Ok 0%Q
  | _ =>
    match CopperPrimitive.box primitive, CopperPrimitive.ends primitive with
    | Some box, _ => Ok (least ((fun e => segment_box_distance_squared e.1 e.2 box) <$> edges))
    | None, Some (start, end_) =>
      Ok (least ((fun e => exact_segment_distance_squared start end_ e.1 e.2) <$> edges))
    | None, None =>
      let* center := CopperPrimitive.the_center primitive in
      Ok (least ((fun e => exact_point_segment_distance_squared center e.1 e.2) <$> edges))
    end
  end.

Definition core_overlaps_outline (primitive : CopperPrimitive.t) (outline : BoardOutline) : result bool :=
  let edges := exact_outline_edges outline in
  match CopperPrimitive.box primitive, CopperPrimitive.ends primitive with
  | Some box, _ =>
    Ok (existsb (fun corner => exact_point_in_outline corner outline) (CoreBox.corners box) ||
        existsb (fun e => point_in_box e.1 box) edges ||
        existsb (fun b => existsb (fun e => exact_segments_intersect b.1 b.2 e.1 e.2) edges) (CoreBox.edges box))
  | None, Some (start, end_) =>
    Ok (exact_point_in_outline start outline || exact_point_in_outline end_ outline ||
        existsb (fun e => exact_segments_intersect start end_ e.1 e.2) edges)
  | None, None =>
    let* center := CopperPrimitive.the_center primitive in
    Ok (exact_point_in_outline center outline)
  end.

Definition core_inside_outline (primitive : CopperPrimitive.t) (outline : BoardOutline) : result bool :=
  let edges := exact_outline_edges outline in
  match CopperPrimitive.box primitive, CopperPrimitive.ends primitive with
  | Some box, _ =>
    Ok (forallb (fun corner => exact_point_in_outline corner outline) (CoreBox.corners box) &&
        negb (existsb (fun b => existsb (fun e => exact_segments_intersect b.1 b.2 e.1 e.2) edges)
                (CoreBox.edges box)))
  | None, Some (start, end_) =>
    Ok (exact_point_in_outline start outline && exact_point_in_outline end_ outline &&
        negb (existsb (fun e => exact_segments_intersect start end_ e.1 e.2) edges))
  | None, None =>
    let* center := CopperPrimitive.the_center primitive in
    Ok (exact_point_in_outline center outline)
  end.

(** The boundary distance, and whether copper enters the filled zone. *)
Definition primitive_zone_distance_squared (primitive : CopperPrimitive.t) (zone : Zone.t) : result (Q * bool) :=
  let* distance := core_outline_distance_squared primitive (Zone.outline zone) in
  let* overlaps := core_overlaps_outline primitive (Zone.outline zone) in
  Ok (distance, overlaps).

Definition valid_zones (board : BoardGraph.t) (context : RuleContext.t) : list Zone.t :=
  filter (fun zone => Zone.fill_state zone = ZoneFillState.VERIFIED_FILLED /\
                      outline_defects (Zone.outline zone) (RuleContext.geometry context) = [])
    (BoardGraph.zones board).
