(* ===== verification/GeoRules.v ===== *)
(** * Geometric design rules (backend/verification/geometric.py)

    One module per rule class: its definition and its [evaluate].  The two
    clearance rules are last. *)
From S2P Require Import Prelude PyDict PyStr Geometry Board Copper.

Local Open Scope string_scope.

(** [if ...: issues.append(...)] for each of a run of tests. *)
Definition issues_of (tests : list (bool * string)) : list string :=
  (filter (fun test => test.1 = true) tests).*2.

Definition report (message : string) (entities : list EntityRef.t) (items : list EvidenceItem.t) : FindingDraft.t :=
  FindingDraft.mk message entities items.

Definition minimum_parameter (name : string) (value lo : Z) : list ParameterSpec.t :=
  [ParameterSpec.mk name ParameterType.INTEGER (SInt value) (Some lo) None].

Definition defect_items (d : defect) : list EvidenceItem.t :=
  [ev_str "defect" d.1; ev_ints "edge_indices" d.2].

Definition count_of (l : list string) (x : string) : nat := length (filter (fun y => y = x) l).
(** [x in {y for y in l if l.count(y) > 1}] *)
Definition repeated (l : list string) (x : string) : bool := (1 <? count_of l x)%nat.

Module OutlineValidityRule.
Definition definition : RuleDefinition.t :=
  RuleDefinition.mk "GEO.OUTLINE.VALID" "1.0.0" RuleDomain.GEOMETRY "Closed simple board outline"
    "The board outline must be a non-zero-area simple polygon." Severity.FATAL [] true.

Definition evaluate (board : BoardGraph.t) (context : RuleContext.t) : result (list FindingDraft.t) :=
  Ok ((fun d => report ("Invalid board outline: " +:+ d.1) [EntityRef.mk "outline" (BoardGraph.design_id board)]
                  (defect_items d)) <$>
      outline_defects (BoardGraph.outline board) (RuleContext.geometry context)).
End OutlineValidityRule.

Module CopperTopologyRule.
Definition definition : RuleDefinition.t :=
  RuleDefinition.mk "ALG.ROUTING.TOPOLOGY" "1.0.0" RuleDomain.ALGORITHM "Copper topology references are legal"
    "Pads, tracks, vias, and zones must use valid copper geometry and references." Severity.FATAL [] true.

Definition unknown_layer (board : BoardGraph.t) (layers : list string) : bool :=
  existsb (fun layer => negb (bool_decide (layer ∈ BoardGraph.layers board))) layers.
Definition known_net (board : BoardGraph.t) (net_id : string) : bool :=
  bool_decide (net_id ∈ Net.net_id <$> BoardGraph.nets board).

Definition pin_issues (board : BoardGraph.t) (pin : Pin.t) : list string :=
  issues_of [
    (bool_decide (Pin.pad_center pin = None), "missing_center");
    ((Pin.pad_diameter_nm pin <=? 0)%Z, "non_positive_copper_diameter");
    (bool_decide (Pin.layers pin = []), "no_copper_layers");
    (unknown_layer board (Pin.layers pin), "unknown_layer");
    ((Pin.pad_drill_nm pin <? 0)%Z, "negative_drill");
    ((0 <? Pin.pad_drill_nm pin)%Z && (Pin.pad_diameter_nm pin <=? Pin.pad_drill_nm pin)%Z,
     "drill_not_smaller_than_copper")].

Definition has_geometry (pin : Pin.t) : bool :=
  negb (bool_decide (Pin.pad_center pin = None)) || negb (Pin.pad_diameter_nm pin =? 0)%Z ||
  negb (Pin.pad_drill_nm pin =? 0)%Z || negb (bool_decide (Pin.layers pin = [])).

Definition pin_findings (board : BoardGraph.t) (component : Component.t) (pin : Pin.t) : list FindingDraft.t :=
  if negb (has_geometry pin) then []
  else
    match pin_issues board pin with
    | [] => []
    | issues =>
      let pin_id := Component.component_id component +:+ ":" +:+ Pin.number pin in
      [report ("Pad " +:+ Component.reference component +:+ "." +:+ Pin.number pin +:+
               " has invalid copper/drill topology")
         [EntityRef.mk "pin" pin_id]
         [ev_strs "issues" issues; ev_int "copper_diameter_nm" (Pin.pad_diameter_nm pin);
          ev_int "drill_nm" (Pin.pad_drill_nm pin); ev_strs "layers" (Pin.layers pin)]]
    end.

Definition component_pin_numbers (board : BoardGraph.t) : dict (list string) :=
  dict_of_pairs ((fun component =>
    (Component.component_id component, Pin.logical_number <$> Component.pins component)) <$>
    BoardGraph.components board).

Definition pad_reference_issues (board : BoardGraph.t) (pad : PhysicalPad.t) : list string :=
  let pad_ids := PhysicalPad.pad_id <$> BoardGraph.pads board in
  let numbers := component_pin_numbers board !! PhysicalPad.component_id pad in
  let derived := physical_pad_nets board !! (PhysicalPad.component_id pad, PhysicalPad.pad_number pad) in
  issues_of [
    (repeated pad_ids (PhysicalPad.pad_id pad), "duplicate_pad_id");
    (str_empty (PhysicalPad.pad_id pad), "missing_pad_id");
    (bool_decide (numbers = None), "unknown_component");
    (match numbers with
     | Some numbers => negb (bool_decide (PhysicalPad.pad_number pad ∈ numbers))
     | None => false
     end, "unknown_logical_pad_number");
    (match PhysicalPad.net_id pad with Some n => negb (known_net board n) | None => false end, "unknown_net");
    (match PhysicalPad.net_id pad, derived with
     | Some n, Some m => negb (bool_decide (n = m))
     | _, _ => false
     end, "logical_net_mismatch")].

Definition pad_shape_issues (board : BoardGraph.t) (pad : PhysicalPad.t) : list string :=
  let '(drill_x_nm, drill_y_nm) :=
    drill_dimensions (PhysicalPad.drill_nm pad) (PhysicalPad.drill_x_nm pad) (PhysicalPad.drill_y_nm pad) in
  let '(copper_x_nm, copper_y_nm) :=
    quadrant_dimensions (PhysicalPad.size_x_nm pad) (PhysicalPad.size_y_nm pad) (PhysicalPad.rotation_udeg pad) in
  let '(board_drill_x_nm, board_drill_y_nm) :=
    quadrant_dimensions drill_x_nm drill_y_nm (PhysicalPad.drill_rotation_udeg pad) in
  issues_of [
    ((PhysicalPad.size_x_nm pad <=? 0) || (PhysicalPad.size_y_nm pad <=? 0), "non_positive_copper_size");
    (bool_decide (PhysicalPad.shape pad = PadShape.CIRCLE) &&
     negb (PhysicalPad.size_x_nm pad =? PhysicalPad.size_y_nm pad), "circle_requires_equal_dimensions");
    (negb ((0 <=? PhysicalPad.rotation_udeg pad) && (PhysicalPad.rotation_udeg pad <? 360000000)),
     "rotation_out_of_range");
    (bool_decide (PhysicalPad.layers pad = []), "no_copper_layers");
    (unknown_layer board (PhysicalPad.layers pad), "unknown_layer");
    ((PhysicalPad.drill_nm pad <? 0) || (drill_x_nm <? 0) || (drill_y_nm <? 0), "negative_drill");
    (xorb (drill_x_nm =? 0) (drill_y_nm =? 0), "partial_drill_dimensions");
    ((0 <? drill_x_nm) && ((copper_x_nm <=? board_drill_x_nm) || (copper_y_nm <=? board_drill_y_nm)),
     "drill_not_smaller_than_copper")]%Z.

Definition pad_findings (board : BoardGraph.t) (pad : PhysicalPad.t) : list FindingDraft.t :=
  match (pad_reference_issues board pad ++ pad_shape_issues board pad)%list with
  | [] => []
  | issues =>
    let shown := if str_empty (PhysicalPad.pad_id pad) then "<missing>" else PhysicalPad.pad_id pad in
    [report ("Physical pad " +:+ shown +:+ " has invalid copper/drill topology") [EntityRef.mk "pad" shown]
       [ev_strs "issues" issues; ev_str "component_id" (PhysicalPad.component_id pad);
        ev_str "pad_number" (PhysicalPad.pad_number pad); ev_str "shape" (PadShape.value (PhysicalPad.shape pad));
        ev_int "size_x_nm" (PhysicalPad.size_x_nm pad); ev_int "size_y_nm" (PhysicalPad.size_y_nm pad);
        ev_int "rotation_udeg" (PhysicalPad.rotation_udeg pad); ev_int "drill_nm" (PhysicalPad.drill_nm pad);
        ev_int "drill_x_nm" (PhysicalPad.drill_x_nm pad); ev_int "drill_y_nm" (PhysicalPad.drill_y_nm pad);
        ev_int "drill_rotation_udeg" (PhysicalPad.drill_rotation_udeg pad);
        ev_strs "layers" (PhysicalPad.layers pad)]]
  end.

Definition shared_groups (pads : list PhysicalPad.t) : dict (list PhysicalPad.t) :=
  foldl (fun groups pad =>
    match PhysicalPad.shared_land_group_id pad with
    | Some group => <[group := (default [] (groups !! group) ++ [pad])%list]> groups
    | None => groups
    end) ∅ pads.

Definition signature (pad_nets : gmap (string * string) string) (pad : PhysicalPad.t) :=
  (PhysicalPad.component_id pad, pad_net pad_nets pad, PhysicalPad.center pad, PhysicalPad.size_x_nm pad,
   PhysicalPad.size_y_nm pad, PhysicalPad.shape pad, PhysicalPad.rotation_udeg pad, PhysicalPad.layers pad,
   PhysicalPad.drill_nm pad, PhysicalPad.drill_x_nm pad, PhysicalPad.drill_y_nm pad,
   PhysicalPad.drill_rotation_udeg pad).

Definition group_findings (board : BoardGraph.t) (group : string * list PhysicalPad.t) : list FindingDraft.t :=
  let '(group_id, pads) := group in
  let signatures := remove_dups (signature (physical_pad_nets board) <$> pads) in
  let logical_numbers := remove_dups (PhysicalPad.pad_number <$> pads) in
  if (2 <=? length pads)%nat && (length logical_numbers =? length pads)%nat && (length signatures =? 1)%nat then []
  else
    [report ("Shared land group " +:+ group_id +:+ " does not describe one exact copper land")
       ((fun pad => EntityRef.mk "pad" (PhysicalPad.pad_id pad)) <$> pads)
       [ev_str "shared_land_group_id" group_id;
        ev_strs "pad_ids" (sorted_on id (PhysicalPad.pad_id <$> pads));
        ev_int "distinct_geometry_net_signatures" (Z.of_nat (length signatures))]].

(** [pad_index]: the pads with an id of their own. *)
Definition pad_index (board : BoardGraph.t) : dict PhysicalPad.t :=
  let pad_ids := PhysicalPad.pad_id <$> BoardGraph.pads board in
  dict_by PhysicalPad.pad_id
    (filter (fun pad => repeated pad_ids (PhysicalPad.pad_id pad) = false /\ PhysicalPad.pad_id pad <> "")
      (BoardGraph.pads board)).

Definition hole_drill (hole : Hole.t) : Z * Z :=
  drill_dimensions (Hole.diameter_nm hole) (Hole.drill_x_nm hole) (Hole.drill_y_nm hole).

Definition associated_issues (hole : Hole.t) (associated : PhysicalPad.t) : list string :=
  let pad_drill := drill_dimensions (PhysicalPad.drill_nm associated) (PhysicalPad.drill_x_nm associated)
                     (PhysicalPad.drill_y_nm associated) in
  issues_of [
    (negb (bool_decide (PhysicalPad.component_id associated = Hole.component_id hole)), "pad_component_mismatch");
    (negb (bool_decide (PhysicalPad.center associated = Hole.center hole)), "pad_center_mismatch");
    (negb (bool_decide (pad_drill = hole_drill hole)) ||
     negb (PhysicalPad.drill_rotation_udeg associated mod 180000000 =? Hole.drill_rotation_udeg hole mod 180000000)%Z,
     "pad_drill_mismatch")].

Definition hole_issues (board : BoardGraph.t) (hole : Hole.t) : list string :=
  let hole_ids := Hole.hole_id <$> BoardGraph.holes board in
  let '(drill_x_nm, drill_y_nm) := hole_drill hole in
  let associated := pad_index board !! default "" (Hole.pad_id hole) in
  (issues_of [
     (repeated hole_ids (Hole.hole_id hole), "duplicate_hole_id");
     (negb (bool_decide (Hole.component_id hole ∈ Component.component_id <$> BoardGraph.components board)),
      "unknown_component");
     ((Hole.diameter_nm hole <=? 0)%Z, "non_positive_diameter");
     (((drill_x_nm <=? 0) || (drill_y_nm <=? 0))%Z, "non_positive_drill_dimensions");
     (negb (Bool.eqb (Hole.plated hole) (bool_decide (is_Some (Hole.pad_id hole)))),
      "plating_pad_association_mismatch");
     (Hole.plated hole && bool_decide (associated = None), "unknown_pad")] ++
   match associated with
   | Some associated => if Hole.plated hole then associated_issues hole associated else []
   | None => []
   end)%list.

Definition hole_findings (board : BoardGraph.t) (hole : Hole.t) : list FindingDraft.t :=
  match hole_issues board hole with
  | [] => []
  | issues =>
    [report ("Footprint hole " +:+ Hole.hole_id hole +:+ " has invalid drill topology")
       [EntityRef.mk "hole" (Hole.hole_id hole)]
       [ev_strs "issues" issues; ev_str "component_id" (Hole.component_id hole);
        ev_int "diameter_nm" (Hole.diameter_nm hole); ev_bool "plated" (Hole.plated hole);
        ev_str "pad_id" (default "" (Hole.pad_id hole)); ev_int "drill_x_nm" (Hole.drill_x_nm hole);
        ev_int "drill_y_nm" (Hole.drill_y_nm hole);
        ev_int "drill_rotation_udeg" (Hole.drill_rotation_udeg hole)]]
  end.

Definition track_findings (board : BoardGraph.t) (track : Track.t) : list FindingDraft.t :=
  match issues_of [
    (negb (known_net board (Track.net_id track)), "unknown_net");
    (unknown_layer board [Track.layer track], "unknown_layer");
    (bool_decide (Track.start track = Track.end_ track), "zero_length");
    ((Track.width_nm track <=? 0)%Z, "non_positive_width")] with
  | [] => []
  | issues =>
    [report ("Track " +:+ Track.track_id track +:+ " has invalid topology")
       [EntityRef.mk "track" (Track.track_id track)]
       [ev_strs "issues" issues; ev_str "layer" (Track.layer track); ev_str "net_id" (Track.net_id track)]]
  end.

Definition via_findings (board : BoardGraph.t) (via : Via.t) : list FindingDraft.t :=
  match issues_of [
    (negb (known_net board (Via.net_id via)), "unknown_net");
    ((length (Via.layers via) <? 2)%nat, "fewer_than_two_layers");
    (unknown_layer board (Via.layers via), "unknown_layer");
    ((Via.diameter_nm via <=? 0)%Z, "non_positive_diameter");
    ((Via.drill_nm via <=? 0)%Z, "non_positive_drill");
    ((Via.diameter_nm via <=? Via.drill_nm via)%Z, "drill_not_smaller_than_diameter")] with
  | [] => []
  | issues =>
    [report ("Via " +:+ Via.via_id via +:+ " has invalid topology") [EntityRef.mk "via" (Via.via_id via)]
       [ev_strs "issues" issues; ev_strs "layers" (Via.layers via); ev_str "net_id" (Via.net_id via)]]
  end.

Definition zone_findings (board : BoardGraph.t) (zone : Zone.t) : list FindingDraft.t :=
  match issues_of [
    (negb (known_net board (Zone.net_id zone)), "unknown_net");
    (unknown_layer board [Zone.layer zone], "unknown_layer");
    ((Zone.clearance_nm zone <? 0)%Z, "negative_clearance")] with
  | [] => []
  | issues =>
    [report ("Zone " +:+ Zone.zone_id zone +:+ " has invalid topology") [EntityRef.mk "zone" (Zone.zone_id zone)]
       [ev_strs "issues" issues; ev_str "layer" (Zone.layer zone); ev_str "net_id" (Zone.net_id zone);
        ev_int "clearance_nm" (Zone.clearance_nm zone)]]
  end.

Definition evaluate (board : BoardGraph.t) (_ : RuleContext.t) : result (list FindingDraft.t) :=
  Ok ((component_pins board ≫= fun cp => pin_findings board cp.1 cp.2) ++
      (BoardGraph.pads board ≫= pad_findings board) ++
      (sorted_on fst (dict_items (shared_groups (BoardGraph.pads board))) ≫= group_findings board) ++
      (BoardGraph.holes board ≫= hole_findings board) ++
      (BoardGraph.tracks board ≫= track_findings board) ++
      (BoardGraph.vias board ≫= via_findings board) ++
      (BoardGraph.zones board ≫= zone_findings board))%list.
End CopperTopologyRule.

Module MinimumTrackWidthRule.
Definition definition : RuleDefinition.t :=
  RuleDefinition.mk "GEO.TRACK.MIN_WIDTH" "1.0.0" RuleDomain.GEOMETRY "Minimum track width"
    "Every copper track must meet the configured fabrication width." Severity.ERROR
    (minimum_parameter "minimum_width_nm" 150000 1) false.

Definition evaluate (board : BoardGraph.t) (context : RuleContext.t) : result (list FindingDraft.t) :=
  let* minimum := RuleContext.integer context "minimum_width_nm" in
  Ok ((fun track =>
        report ("Track " +:+ Track.track_id track +:+ " width is below " +:+ str_of_int minimum +:+ " nm")
          [EntityRef.mk "track" (Track.track_id track)]
          [ev_int "actual_width_nm" (Track.width_nm track); ev_int "minimum_width_nm" minimum]) <$>
      filter (fun track => Track.width_nm track < minimum)%Z (BoardGraph.tracks board)).
End MinimumTrackWidthRule.

Module MinimumViaAnnularRingRule.
Definition definition : RuleDefinition.t :=
  RuleDefinition.mk "GEO.VIA.MIN_ANNULAR_RING" "1.1.0" RuleDomain.GEOMETRY "Minimum via annular ring"
    "Via diameter minus drill must provide the configured radial annular ring." Severity.ERROR
    (minimum_parameter "minimum_annular_ring_nm" 100000 1) false.

Definition evaluate (board : BoardGraph.t) (context : RuleContext.t) : result (list FindingDraft.t) :=
  let* minimum := RuleContext.integer context "minimum_annular_ring_nm" in
  let difference via := (Via.diameter_nm via - Via.drill_nm via)%Z in
  Ok ((fun via =>
        report ("Via " +:+ Via.via_id via +:+ " annular ring is below " +:+ str_of_int minimum +:+ " nm")
          [EntityRef.mk "via" (Via.via_id via)]
          [ev_int "diameter_minus_drill_nm" (difference via);
           ev_int "actual_annular_ring_numerator_nm" (difference via);
           ev_int "actual_annular_ring_denominator" 2;
           ev_int "required_diameter_minus_drill_nm" (2 * minimum)]) <$>
      filter (fun via => difference via < 2 * minimum)%Z (BoardGraph.vias board)).
End MinimumViaAnnularRingRule.

Module MinimumPadAnnularRingRule.
Definition definition : RuleDefinition.t :=
  RuleDefinition.mk "GEO.PAD.MIN_ANNULAR_RING" "2.0.0" RuleDomain.GEOMETRY "Minimum drilled-pad annular ring"
    "Every centered circular pad drill must retain copper in both pad axes." Severity.ERROR
    (minimum_parameter "minimum_annular_ring_nm" 100000 1) false.

Definition pad_findings (minimum : Z) (pad : PhysicalPad.t) : list FindingDraft.t :=
  let '(drill_x_nm, drill_y_nm) :=
    drill_dimensions (PhysicalPad.drill_nm pad) (PhysicalPad.drill_x_nm pad) (PhysicalPad.drill_y_nm pad) in
  if ((drill_x_nm <=? 0) || (drill_y_nm <=? 0))%Z then []
  else
    let '(copper_x_nm, copper_y_nm) :=
      quadrant_dimensions (PhysicalPad.size_x_nm pad) (PhysicalPad.size_y_nm pad) (PhysicalPad.rotation_udeg pad) in
    let '(board_drill_x_nm, board_drill_y_nm) :=
      quadrant_dimensions drill_x_nm drill_y_nm (PhysicalPad.drill_rotation_udeg pad) in
    let limiting_difference := Z.min (copper_x_nm - board_drill_x_nm) (copper_y_nm - board_drill_y_nm) in
    if ((limiting_difference <=? 0) || (2 * minimum <=? limiting_difference))%Z then []
    else
      [report ("Pad " +:+ PhysicalPad.pad_id pad +:+ " annular ring is below " +:+ str_of_int minimum +:+ " nm")
         [EntityRef.mk "pad" (PhysicalPad.pad_id pad)]
         [ev_int "actual_annular_ring_numerator_nm" limiting_difference;
          ev_int "actual_annular_ring_denominator" 2; ev_int "required_annular_ring_nm" minimum;
          ev_int "copper_span_x_nm" copper_x_nm; ev_int "copper_span_y_nm" copper_y_nm;
          ev_int "drill_span_x_nm" board_drill_x_nm; ev_int "drill_span_y_nm" board_drill_y_nm]].

Definition pin_findings (minimum : Z) (component : Component.t) (pin : Pin.t) : list FindingDraft.t :=
  let minimum_copper_span := Pin.pad_diameter_nm pin in
  if ((Pin.pad_drill_nm pin <=? 0) || (minimum_copper_span <=? Pin.pad_drill_nm pin) ||
      (2 * minimum <=? minimum_copper_span - Pin.pad_drill_nm pin))%Z then []
  else
    [report ("Pad " +:+ Component.reference component +:+ "." +:+ Pin.number pin +:+ " annular ring is below " +:+
             str_of_int minimum +:+ " nm")
       [EntityRef.mk "pin" (Component.component_id component +:+ ":" +:+ Pin.number pin)]
       [ev_int "actual_annular_ring_numerator_nm" (minimum_copper_span - Pin.pad_drill_nm pin);
        ev_int "actual_annular_ring_denominator" 2; ev_int "required_annular_ring_nm" minimum;
        ev_int "limiting_pad_axis_nm" minimum_copper_span]].

Definition evaluate (board : BoardGraph.t) (context : RuleContext.t) : result (list FindingDraft.t) :=
  let* minimum := RuleContext.integer context "minimum_annular_ring_nm" in
  Ok (match BoardGraph.pads board with
      | [] => component_pins board ≫= fun cp => pin_findings minimum cp.1 cp.2
      | pads => pads ≫= pad_findings minimum
      end).
End MinimumPadAnnularRingRule.

Module ZoneOutlineValidityRule.
Definition definition : RuleDefinition.t :=
  RuleDefinition.mk "GEO.ZONE.OUTLINE_VALID" "1.0.0" RuleDomain.GEOMETRY "Simple filled-zone outlines"
    "Every modeled filled copper zone must be a non-zero-area simple polygon." Severity.FATAL [] true.

Definition evaluate (board : BoardGraph.t) (context : RuleContext.t) : result (list FindingDraft.t) :=
  Ok (BoardGraph.zones board ≫= fun zone =>
        (fun d => report ("Zone " +:+ Zone.zone_id zone +:+ " has invalid outline: " +:+ d.1)
                    [EntityRef.mk "zone" (Zone.zone_id zone)] (defect_items d)) <$>
        outline_defects (Zone.outline zone) (RuleContext.geometry context)).
End ZoneOutlineValidityRule.

Module ZoneFillVerificationRule.
Definition definition : RuleDefinition.t :=
  RuleDefinition.mk "GEO.ZONE.FILL_UNVERIFIED" "1.0.0" RuleDomain.GEOMETRY "Zone fill must be independently verified"
    ("An unfilled zone remains design intent and is not authoritative copper until a " +:+
     "source-bound fill-engine result is recorded.") Severity.WARNING [] true.

Definition evaluate (board : BoardGraph.t) (_ : RuleContext.t) : result (list FindingDraft.t) :=
  Ok ((fun zone =>
        report ("Zone " +:+ Zone.zone_id zone +:+ " is unfilled intent; copper fill is not verified")
          [EntityRef.mk "zone" (Zone.zone_id zone)]
          [ev_str "fill_state" (ZoneFillState.value (Zone.fill_state zone)); ev_str "layer" (Zone.layer zone);
           ev_str "net_id" (Zone.net_id zone)]) <$>
      filter (fun zone => Zone.fill_state zone = ZoneFillState.UNFILLED_INTENT) (BoardGraph.zones board)).
End ZoneFillVerificationRule.

(** * Clearance rules (backend/verification/geometric.py)

    [MinimumCopperClearanceRule] and [BoardEdgeClearanceRule]: every pair that
    is nearer than it may be is reported. *)

(** [for i, first in enumerate(l): for second in l[i + 1:]] *)
Fixpoint pairs {A} (l : list A) : list (A * A) :=
  match l with
  | [] => []
  | x :: l => (pair x <$> l) ++ pairs l
  end%list.

Definition concatM {A B} (f : A -> result (list B)) (l : list A) : result (list B) :=
  let* ls := mapM f l in Ok (concat ls).

Definition shared_layers (first second : list string) : list string := filter (fun layer => layer ∈ second) first.

(** [4 * distance_squared < required_doubled * required_doubled] *)
Definition too_near (distance_squared : Q) (required_doubled : Z) : bool :=
  qlt (4 * distance_squared) (inject_Z (required_doubled * required_doubled)).

(** Holes without plating that are modelled. *)
Definition npth_holes (board : BoardGraph.t) : list Hole.t :=
  filter (fun hole => Hole.plated hole = false /\ (0 < Hole.diameter_nm hole)%Z) (BoardGraph.holes board).

Definition outline_entity (board : BoardGraph.t) : EntityRef.t := EntityRef.mk "outline" (BoardGraph.design_id board).

Module MinimumCopperClearanceRule.
Definition definition : RuleDefinition.t :=
  RuleDefinition.mk "GEO.COPPER.MIN_CLEARANCE" "2.0.0" RuleDomain.GEOMETRY "Minimum inter-net copper clearance"
    "Pads, tracks, vias, and filled zones on different nets must meet clearance." Severity.ERROR
    (minimum_parameter "minimum_clearance_nm" 150000 0) false.

Definition violation (first second : string) : string :=
  "Copper clearance violation between " +:+ first +:+ " and " +:+ second.

(** Two primitives that are not of one net and share a layer. *)
Definition pair_findings (clearance : Z) (pair : CopperPrimitive.t * CopperPrimitive.t) :
    result (list FindingDraft.t) :=
  let '(first, second) := pair in
  let shared := shared_layers (CopperPrimitive.layers first) (CopperPrimitive.layers second) in
  if bool_decide (CopperPrimitive.net_id first = CopperPrimitive.net_id second) || bool_decide (shared = []) then Ok []
  else
    let* distance_squared := distance_squared first second in
    let required_doubled := (CopperPrimitive.width_nm first + CopperPrimitive.width_nm second + 2 * clearance)%Z in
    Ok (if too_near distance_squared required_doubled then
      [report (violation (CopperPrimitive.primitive_id first) (CopperPrimitive.primitive_id second))
         [CopperPrimitive.entity first; CopperPrimitive.entity second]
         [ev_str "first_net_id" (CopperPrimitive.net_id first);
          ev_str "second_net_id" (CopperPrimitive.net_id second);
          ev_strs "shared_layers" (sorted_set shared);
          ev_int "center_distance_squared_numerator" (numerator distance_squared);
          ev_int "center_distance_squared_denominator" (denominator distance_squared);
          ev_int "required_center_distance_doubled_nm" required_doubled]]
      else []).

(** A hole without plating against the copper of every net and layer. *)
Definition hole_pair_findings (clearance : Z) (hole : Hole.t) (hole_primitive primitive : CopperPrimitive.t) :
    result (list FindingDraft.t) :=
  let* distance_squared := distance_squared hole_primitive primitive in
  let required_doubled :=
    (CopperPrimitive.width_nm hole_primitive + CopperPrimitive.width_nm primitive + 2 * clearance)%Z in
  Ok (if too_near distance_squared required_doubled then
    [report (violation (CopperPrimitive.primitive_id primitive) ("NPTH " +:+ Hole.hole_id hole))
       [CopperPrimitive.entity primitive; CopperPrimitive.entity hole_primitive]
       [ev_str "hole_id" (Hole.hole_id hole); ev_int "hole_diameter_nm" (Hole.diameter_nm hole);
        ev_str "copper_net_id" (CopperPrimitive.net_id primitive);
        ev_int "core_distance_squared_numerator" (numerator distance_squared);
        ev_int "core_distance_squared_denominator" (denominator distance_squared);
        ev_int "required_core_distance_doubled_nm" required_doubled]]
    else []).

Definition hole_findings (clearance : Z) (board : BoardGraph.t) (primitives : list CopperPrimitive.t)
    (hole : Hole.t) : result (list FindingDraft.t) :=
  let* primitive := hole_primitive hole (BoardGraph.layers board) in
  concatM (hole_pair_findings clearance hole primitive) primitives.

(** A filled zone against a primitive. *)
Definition zone_primitive_findings (clearance : Z) (zone : Zone.t) (primitive : CopperPrimitive.t) :
    result (list FindingDraft.t) :=
  if bool_decide (CopperPrimitive.net_id primitive = Zone.net_id zone) ||
     negb (bool_decide (Zone.layer zone ∈ CopperPrimitive.layers primitive)) then Ok []
  else
    let* '(distance_squared, overlaps) := primitive_zone_distance_squared primitive zone in
    let required_clearance := Z.max clearance (Zone.clearance_nm zone) in
    let required_doubled := (CopperPrimitive.width_nm primitive + 2 * required_clearance)%Z in
    Ok (if overlaps || too_near distance_squared required_doubled then
      [report (violation (CopperPrimitive.primitive_id primitive) ("zone:" +:+ Zone.zone_id zone))
         [CopperPrimitive.entity primitive; EntityRef.mk "zone" (Zone.zone_id zone)]
         [ev_str "first_net_id" (CopperPrimitive.net_id primitive); ev_str "second_net_id" (Zone.net_id zone);
          ev_strs "shared_layers" [Zone.layer zone];
          ev_int "boundary_distance_squared_numerator" (numerator distance_squared);
          ev_int "boundary_distance_squared_denominator" (denominator distance_squared);
          ev_int "required_center_distance_doubled_nm" required_doubled;
          ev_bool "copper_overlaps_zone" overlaps]]
      else []).

(** Two filled zones. *)
Definition zone_pair_findings (clearance : Z) (geometry : GeometryKernel) (zones : Zone.t * Zone.t) :
    list FindingDraft.t :=
  let '(first, second) := zones in
  if bool_decide (Zone.net_id first = Zone.net_id second) || negb (bool_decide (Zone.layer first = Zone.layer second))
  then []
  else
    let distance_squared := minimum_outlines_distance_squared (Zone.outline first) (Zone.outline second) geometry in
    let overlaps := outlines_overlap (Zone.outline first) (Zone.outline second) geometry in
    let required_clearance := Z.max (Z.max clearance (Zone.clearance_nm first)) (Zone.clearance_nm second) in
    if overlaps || qlt distance_squared (inject_Z (required_clearance * required_clearance)) then
      [report (violation ("zone:" +:+ Zone.zone_id first) ("zone:" +:+ Zone.zone_id second))
         [EntityRef.mk "zone" (Zone.zone_id first); EntityRef.mk "zone" (Zone.zone_id second)]
         [ev_str "first_net_id" (Zone.net_id first); ev_str "second_net_id" (Zone.net_id second);
          ev_strs "shared_layers" [Zone.layer first];
          ev_int "boundary_distance_squared_numerator" (numerator distance_squared);
          ev_int "boundary_distance_squared_denominator" (denominator distance_squared);
          ev_int "required_clearance_nm" required_clearance;
          ev_bool "zones_overlap" overlaps]]
    else [].

Definition evaluate (board : BoardGraph.t) (context : RuleContext.t) : result (list FindingDraft.t) :=
  let* clearance := RuleContext.integer context "minimum_clearance_nm" in
  let primitives := copper_primitives board in
  let zones := valid_zones board context in
  let* of_pairs := concatM (pair_findings clearance) (pairs primitives) in
  let* of_holes := concatM (hole_findings clearance board primitives) (npth_holes board) in
  let* of_zones := concatM (fun zone => concatM (zone_primitive_findings clearance zone) primitives) zones in
  Ok (of_pairs ++ of_holes ++ of_zones ++
      (pairs zones ≫= zone_pair_findings clearance (RuleContext.geometry context)))%list.
End MinimumCopperClearanceRule.

Module BoardEdgeClearanceRule.
Definition definition : RuleDefinition.t :=
  RuleDefinition.mk "GEO.COPPER.BOARD_EDGE_CLEARANCE" "2.0.0" RuleDomain.GEOMETRY "Copper to board-edge clearance"
    "All modeled copper must be inside the outline and clear of its boundary." Severity.ERROR
    (minimum_parameter "minimum_edge_clearance_nm" 250000 0) false.

(** The evidence of a finding against the outline of the board. *)
Definition edge_items (inside : bool) (distance_squared : Q) (required : EvidenceItem.t) : list EvidenceItem.t :=
  [ev_bool "inside_outline" inside;
   ev_int "boundary_distance_squared_numerator" (numerator distance_squared);
   ev_int "boundary_distance_squared_denominator" (denominator distance_squared); required].

Definition core_findings (board : BoardGraph.t) (message : string) (entity : EntityRef.t)
    (primitive : CopperPrimitive.t) (required_doubled : Z) : result (list FindingDraft.t) :=
  let* inside := core_inside_outline primitive (BoardGraph.outline board) in
  let* distance_squared := core_outline_distance_squared primitive (BoardGraph.outline board) in
  Ok (if negb inside || too_near distance_squared required_doubled then
    [report message [entity; outline_entity board]
       (edge_items inside distance_squared (ev_int "required_center_distance_doubled_nm" required_doubled))]
    else []).

Definition primitive_findings (clearance : Z) (board : BoardGraph.t) (primitive : CopperPrimitive.t) :
    result (list FindingDraft.t) :=
  core_findings board (CopperPrimitive.primitive_id primitive +:+ " violates board-edge clearance")
    (CopperPrimitive.entity primitive) primitive (CopperPrimitive.width_nm primitive + 2 * clearance).

Definition hole_findings (clearance : Z) (board : BoardGraph.t) (hole : Hole.t) : result (list FindingDraft.t) :=
  let* primitive := hole_primitive hole (BoardGraph.layers board) in
  core_findings board ("NPTH " +:+ Hole.hole_id hole +:+ " violates board-edge clearance")
    (EntityRef.mk "hole" (Hole.hole_id hole)) primitive (Hole.diameter_nm hole + 2 * clearance).

Definition zone_findings (clearance : Z) (board : BoardGraph.t) (geometry : GeometryKernel) (zone : Zone.t) :
    list FindingDraft.t :=
  let inside := forallb (fun vertex => point_in_outline geometry vertex (BoardGraph.outline board)) (Zone.outline zone) in
  let distance_squared := minimum_outlines_distance_squared (Zone.outline zone) (BoardGraph.outline board) geometry in
  if negb inside || qlt distance_squared (inject_Z (clearance * clearance)) then
    [report ("zone:" +:+ Zone.zone_id zone +:+ " violates board-edge clearance")
       [EntityRef.mk "zone" (Zone.zone_id zone); outline_entity board]
       (edge_items inside distance_squared (ev_int "required_boundary_clearance_nm" clearance))]
  else [].

Definition evaluate (board : BoardGraph.t) (context : RuleContext.t) : result (list FindingDraft.t) :=
  if negb (bool_decide (outline_defects (BoardGraph.outline board) (RuleContext.geometry context) = [])) then Ok []
  else
    let* clearance := RuleContext.integer context "minimum_edge_clearance_nm" in
    let* of_primitives := concatM (primitive_findings clearance board) (copper_primitives board) in
    let* of_holes := concatM (hole_findings clearance board) (npth_holes board) in
    Ok (of_primitives ++ of_holes ++
        (valid_zones board context ≫= zone_findings clearance board (RuleContext.geometry context)))%list.
End BoardEdgeClearanceRule.

(** [geometric_rules()] *)
Definition geometric_rules : list RuleEvaluator := [
  Build_RuleEvaluator OutlineValidityRule.definition OutlineValidityRule.evaluate;
  Build_RuleEvaluator CopperTopologyRule.definition CopperTopologyRule.evaluate;
  Build_RuleEvaluator MinimumTrackWidthRule.definition MinimumTrackWidthRule.evaluate;
  Build_RuleEvaluator MinimumViaAnnularRingRule.definition MinimumViaAnnularRingRule.evaluate;
  Build_RuleEvaluator MinimumPadAnnularRingRule.definition MinimumPadAnnularRingRule.evaluate;
  Build_RuleEvaluator ZoneOutlineValidityRule.definition ZoneOutlineValidityRule.evaluate;
  Build_RuleEvaluator ZoneFillVerificationRule.definition ZoneFillVerificationRule.evaluate;
  Build_RuleEvaluator MinimumCopperClearanceRule.definition MinimumCopperClearanceRule.evaluate;
  Build_RuleEvaluator BoardEdgeClearanceRule.definition BoardEdgeClearanceRule.evaluate].
