(* ===== verification/RoutingRules.v ===== *)
(** * Algorithm validators (backend/verification/algorithms.py)

    Connectivity of the copper of a net by a disjoint-set forest, redundant
    copper, and vias that attach to nothing. *)
From S2P Require Import Prelude PyDict PyStr Geometry Board Copper GeoRules.

Local Open Scope string_scope.

(** ** [_DisjointSet]: the parent of every item *)

Module DisjointSet.

Definition index_err : exn := Exn IndexError "list index out of range".
Definition getitem (parent : list nat) (item : nat) : result nat :=
  match parent !! item with Some p => Ok p | None => Err index_err end.

Definition init (size : nat) : list nat := seq 0 size.

(** [find(item)]: the root, and the forest with the halved path.  A parent is
    never greater than its item, so the loop turns at most [item] times. *)
Fixpoint find_loop (fuel : nat) (parent : list nat) (item : nat) : result (nat * list nat) :=
  match fuel with
  | O => Err (Exn RecursionError "the loop of find does not end")
  | S fuel =>
    let* p := getitem parent item in
    if (p =? item)%nat then Ok (item, parent)
    else
      let* g := getitem parent p in
      find_loop fuel (<[item := g]> parent) g
  end.
Definition find (parent : list nat) (item : nat) : result (nat * list nat) := find_loop (S item) parent item.

Definition union (parent : list nat) (first second : nat) : result (list nat) :=
  let* '(first_root, parent) := find parent first in
  let* '(second_root, parent) := find parent second in
  if (first_root =? second_root)%nat then Ok parent
  else Ok (<[Nat.max first_root second_root := Nat.min first_root second_root]> parent).
End DisjointSet.

(** [_touches(first, second, context)] *)
Definition touches (first second : CopperPrimitive.t) : result bool :=
  if bool_decide (shared_layers (CopperPrimitive.layers first) (CopperPrimitive.layers second) = []) then Ok false
  else
    let* distance_squared := distance_squared first second in
    let combined_width := (CopperPrimitive.width_nm first + CopperPrimitive.width_nm second)%Z in
    Ok (Qle_bool (4 * distance_squared) (inject_Z (combined_width * combined_width))).

Module RoutingConnectivityValidator.

(** The loop over the pairs of primitives, that are numbered. *)
Definition join_pair (parent : list nat) (pair : (nat * CopperPrimitive.t) * (nat * CopperPrimitive.t)) :
    result (list nat) :=
  let '((first_index, first), (second_index, second)) := pair in
  let* touching := touches first second in
  if touching then DisjointSet.union parent first_index second_index else Ok parent.

Definition join_touching (primitives : list CopperPrimitive.t) : result (list nat) :=
  foldM join_pair (DisjointSet.init (length primitives)) (pairs (imap pair primitives)).

(** [groups.setdefault(root, []).append(id)] *)
Fixpoint add_member (root : nat) (id : string) (groups : list (nat * list string)) : list (nat * list string) :=
  match groups with
  | [] => [(root, [id])]
  | (r, ids) :: groups =>
    if (r =? root)%nat then (r, ids ++ [id])%list :: groups else (r, ids) :: add_member root id groups
  end.

Definition is_pad (primitive : CopperPrimitive.t) : bool :=
  String.prefix "pad:" (CopperPrimitive.primitive_id primitive).

(** One turn of the loop that collects the groups and the roots of the pads. *)
Definition collect (st : list nat * list (nat * list string) * gset nat) (item : nat * CopperPrimitive.t) :
    result (list nat * list (nat * list string) * gset nat) :=
  let '(parent, groups, pad_roots) := st in
  let '(index, primitive) := item in
  let* '(root, parent) := DisjointSet.find parent index in
  Ok (parent, add_member root (CopperPrimitive.primitive_id primitive) groups,
      if is_pad primitive then {[root]} ∪ pad_roots else pad_roots).

Definition joined (ids : list string) : string := str_join "|" (sorted_on id ids).

(** The groups, the roots of the pads and the groups without a pad. *)
Definition connected_groups (primitives : list CopperPrimitive.t) :
    result (list string * gset nat * list string) :=
  let* parent := join_touching primitives in
  let* '(_, groups, pad_roots) := foldM collect (parent, [], ∅) (imap pair primitives) in
  let normalized_groups := sorted_on id ((fun group => joined group.2) <$> groups) in
  let orphan_groups :=
    (filter (fun group => group.1 ∉ pad_roots)
      (sorted_on snd ((fun group => (group.1, joined group.2)) <$> groups))).*2 in
  Ok (normalized_groups, pad_roots, orphan_groups).

(** The body of the loop over the nets. *)
Definition net_findings (all_primitives : list CopperPrimitive.t) (net : Net.t) : result (list FindingDraft.t) :=
  let primitives := filter (fun item => CopperPrimitive.net_id item = Net.net_id net) all_primitives in
  match primitives with
  | [] =>
    Ok (match Net.connections net with
        | [] => []
        | connections =>
          [report ("Net " +:+ Net.name net +:+ " has no modeled copper") [EntityRef.mk "net" (Net.net_id net)]
             [ev_int "connection_count" (Z.of_nat (length connections))]]
        end)
  | _ =>
    let* '(normalized_groups, pad_roots, orphan_groups) := connected_groups primitives in
    Ok (if (1 <? size pad_roots)%nat || negb (bool_decide (orphan_groups = [])) then
          [report ("Net " +:+ Net.name net +:+ " is not one connected copper component")
             [EntityRef.mk "net" (Net.net_id net)]
             [ev_strs "connected_groups" normalized_groups;
              ev_int "pad_group_count" (Z.of_nat (size pad_roots));
              ev_strs "orphan_groups" orphan_groups]]
        else [])
  end.

Definition validate (board : BoardGraph.t) (_ : RuleContext.t) : result (list FindingDraft.t) :=
  concatM (net_findings (copper_primitives board)) (BoardGraph.nets board).
End RoutingConnectivityValidator.

Module RoutingModelCompletenessRule.
Definition definition : RuleDefinition.t :=
  RuleDefinition.mk "ALG.ROUTING.MODEL_COMPLETENESS" "1.0.0" RuleDomain.ALGORITHM
    "Routing model contains pad geometry" "Every connected pin must expose pad center, size, and copper layers."
    Severity.FATAL [] true.

Definition missing_fields (pin : Pin.t) : list string :=
  issues_of [(bool_decide (Pin.pad_center pin = None), "pad_center");
             ((Pin.pad_diameter_nm pin <=? 0)%Z, "pad_diameter_nm");
             (bool_decide (Pin.layers pin = []), "layers")].

Definition connection_findings (components : dict Component.t) (net : Net.t) (connection : NetConnection.t) :
    list FindingDraft.t :=
  match components !! NetConnection.component_id connection with
  | None => []
  | Some component =>
    match list_find (fun item => Pin.number item = NetConnection.pin_number connection) (Component.pins component) with
    | None => []
    | Some (_, pin) =>
      match missing_fields pin with
      | [] => []
      | missing =>
        [report ("Connected pin " +:+ Component.reference component +:+ "." +:+ Pin.number pin +:+
                 " lacks routing geometry")
           [EntityRef.mk "net" (Net.net_id net);
            EntityRef.mk "pin" (Component.component_id component +:+ ":" +:+ Pin.number pin)]
           [ev_strs "missing_fields" missing]]
      end
    end
  end.

Definition evaluate (board : BoardGraph.t) (_ : RuleContext.t) : result (list FindingDraft.t) :=
  let components := dict_by Component.component_id (BoardGraph.components board) in
  Ok (net_connections board ≫= fun nc => connection_findings components nc.1 nc.2).
End RoutingModelCompletenessRule.

Module RoutingConnectivityRule.
Definition definition : RuleDefinition.t :=
  RuleDefinition.mk "ALG.ROUTING.CONNECTIVITY" "1.0.0" RuleDomain.ALGORITHM "Routed copper connectivity"
    "Exact copper contact graph must connect all pads and contain no orphan islands." Severity.ERROR [] false.
Definition evaluate := RoutingConnectivityValidator.validate.
End RoutingConnectivityRule.

(** [_cross(first, second, third)] is [Geometry]'s cross product of the three points. *)
Definition cross (first second third : PointNm.t) : Z :=
  ((PointNm.x second - PointNm.x first) * (PointNm.y third - PointNm.y first) -
   (PointNm.y second - PointNm.y first) * (PointNm.x third - PointNm.x first))%Z.

Definition py_max {K} `{PyOrd K} (a b : K) : K := if py_lt a b then b else a.
Definition py_min {K} `{PyOrd K} (a b : K) : K := if py_lt b a then b else a.

(** [_positive_collinear_overlap(first, second)] *)
Definition positive_collinear_overlap (first second : Track.t) : option (PointNm.t * PointNm.t * string) :=
  let '(a, b) := (Track.start first, Track.end_ first) in
  let '(c, d) := (Track.start second, Track.end_ second) in
  if negb (bool_decide (Track.layer first = Track.layer second)) ||
     negb (bool_decide (Track.net_id first = Track.net_id second)) then None
  else if bool_decide (a = b) || bool_decide (c = d) then None
  else if negb (cross a b c =? 0)%Z then None
  else if negb (cross a b d =? 0)%Z then None
  else
    let overlap_start := py_max a c in
    let overlap_end := py_min b d in
    if py_le overlap_end overlap_start then None
    else
      let overlap_kind :=
        if bool_decide (a = c) && bool_decide (b = d) then "identical"
        else if (py_le a c && py_le d b) || (py_le c a && py_le b d) then "contained"
        else "partial" in
      Some (overlap_start, overlap_end, overlap_kind).

Module RedundantRouteCopperRule.
Definition definition : RuleDefinition.t :=
  RuleDefinition.mk "ALG.ROUTING.REDUNDANT_COPPER" "1.0.0" RuleDomain.ALGORITHM "No redundant routed copper"
    ("Same-net tracks may meet at endpoints but may not share a positive-length " +:+
     "collinear interval, and vias may not duplicate a center and layer span.") Severity.ERROR [] false.

Definition track_findings (tracks : Track.t * Track.t) : list FindingDraft.t :=
  let '(first, second) := tracks in
  match positive_collinear_overlap first second with
  | None => []
  | Some (overlap_start, overlap_end, overlap_kind) =>
    [report ("Tracks " +:+ Track.track_id first +:+ " and " +:+ Track.track_id second +:+ " share routed copper")
       [EntityRef.mk "track" (Track.track_id first); EntityRef.mk "track" (Track.track_id second);
        EntityRef.mk "net" (Track.net_id first)]
       [ev_strs "entity_ids" [Track.track_id first; Track.track_id second];
        ev_str "layer" (Track.layer first); ev_str "net_id" (Track.net_id first);
        ev_int "overlap_end_x_nm" (PointNm.x overlap_end); ev_int "overlap_end_y_nm" (PointNm.y overlap_end);
        ev_str "overlap_kind" overlap_kind;
        ev_int "overlap_start_x_nm" (PointNm.x overlap_start);
        ev_int "overlap_start_y_nm" (PointNm.y overlap_start)]]
  end.

Definition via_findings (vias : Via.t * Via.t) : list FindingDraft.t :=
  let '(first, second) := vias in
  if negb (bool_decide (Via.net_id first = Via.net_id second)) ||
     negb (bool_decide (Via.center first = Via.center second)) ||
     negb (bool_decide (Via.layers first = Via.layers second)) then []
  else
    [report ("Vias " +:+ Via.via_id first +:+ " and " +:+ Via.via_id second +:+ " duplicate routed copper")
       [EntityRef.mk "via" (Via.via_id first); EntityRef.mk "via" (Via.via_id second);
        EntityRef.mk "net" (Via.net_id first)]
       [ev_int "center_x_nm" (PointNm.x (Via.center first)); ev_int "center_y_nm" (PointNm.y (Via.center first));
        ev_strs "entity_ids" [Via.via_id first; Via.via_id second]; ev_strs "layers" (Via.layers first);
        ev_str "net_id" (Via.net_id first)]].

Definition evaluate (board : BoardGraph.t) (_ : RuleContext.t) : result (list FindingDraft.t) :=
  Ok ((pairs (sorted_on Track.track_id (BoardGraph.tracks board)) ≫= track_findings) ++
      (pairs (sorted_on Via.via_id (BoardGraph.vias board)) ≫= via_findings))%list.
End RedundantRouteCopperRule.

Module ViaNetConnectivityRule.
Definition definition : RuleDefinition.t :=
  RuleDefinition.mk "ALG.VIA.NET_CONNECTIVITY" "1.0.0" RuleDomain.ALGORITHM "Vias attach to declared-net copper"
    "Every via must make exact geometric contact with copper on its declared net." Severity.ERROR [] false.

(** [primitive_by_id.get(id)]: the last primitive with the id, and its place in
    the list, which is its identity. *)
Fixpoint last_with_id (id : string) (primitives : list (nat * CopperPrimitive.t)) : option (nat * CopperPrimitive.t) :=
  match primitives with
  | [] => None
  | item :: primitives =>
    match last_with_id id primitives with
    | Some found => Some found
    | None => if bool_decide (CopperPrimitive.primitive_id item.2 = id) then Some item else None
    end
  end.

(** The attachments and the touched layers so far. *)
Definition attach_primitive (via : Via.t) (via_primitive : nat * CopperPrimitive.t)
    (st : list string * list string) (item : nat * CopperPrimitive.t) : result (list string * list string) :=
  let '(index, primitive) := item in
  if (index =? via_primitive.1)%nat || negb (bool_decide (CopperPrimitive.net_id primitive = Via.net_id via))
  then Ok st
  else
    let* touching := touches via_primitive.2 primitive in
    Ok (if touching then
          (st.1 ++ [CopperPrimitive.primitive_id primitive],
           st.2 ++ shared_layers (Via.layers via) (CopperPrimitive.layers primitive))%list
        else st).

Definition attach_zone (via : Via.t) (via_primitive : nat * CopperPrimitive.t)
    (st : list string * list string) (zone : Zone.t) : result (list string * list string) :=
  if negb (bool_decide (Zone.net_id zone = Via.net_id via)) || negb (bool_decide (Zone.layer zone ∈ Via.layers via))
  then Ok st
  else
    let* '(distance_squared, overlaps) := primitive_zone_distance_squared via_primitive.2 zone in
    Ok (if overlaps ||
           Qle_bool (4 * distance_squared) (inject_Z (Via.diameter_nm via * Via.diameter_nm via)) then
          (st.1 ++ ["zone:" +:+ Zone.zone_id zone], st.2 ++ [Zone.layer zone])%list
        else st).

Definition via_findings (board : BoardGraph.t) (primitives : list (nat * CopperPrimitive.t)) (zones : list Zone.t)
    (via : Via.t) : result (list FindingDraft.t) :=
  if negb (bool_decide (Via.net_id via ∈ Net.net_id <$> BoardGraph.nets board)) then Ok []
  else
    match last_with_id ("via:" +:+ Via.via_id via) primitives with
    | None => Ok []
    | Some via_primitive =>
      let* st := foldM (attach_primitive via via_primitive) ([], []) primitives in
      let* '(attachments, touched_layers) := foldM (attach_zone via via_primitive) st zones in
      Ok (match attachments with
          | [] =>
            [report ("Via " +:+ Via.via_id via +:+ " is not attached to copper on net " +:+ Via.net_id via)
               [EntityRef.mk "via" (Via.via_id via); EntityRef.mk "net" (Via.net_id via)]
               [ev_strs "declared_layers" (Via.layers via); ev_str "net_id" (Via.net_id via);
                ev_strs "attached_primitives" []; ev_strs "touched_layers" (sorted_set touched_layers)]]
          | _ => []
          end)
    end.

Definition evaluate (board : BoardGraph.t) (context : RuleContext.t) : result (list FindingDraft.t) :=
  concatM (via_findings board (imap pair (copper_primitives board)) (valid_zones board context))
    (BoardGraph.vias board).
End ViaNetConnectivityRule.

(** [algorithm_rules()] *)
Definition algorithm_rules : list RuleEvaluator := [
  Build_RuleEvaluator RoutingModelCompletenessRule.definition RoutingModelCompletenessRule.evaluate;
  Build_RuleEvaluator RoutingConnectivityRule.definition RoutingConnectivityRule.evaluate;
  Build_RuleEvaluator RedundantRouteCopperRule.definition RedundantRouteCopperRule.evaluate;
  Build_RuleEvaluator ViaNetConnectivityRule.definition ViaNetConnectivityRule.evaluate].
