(* ===== verification/BoardFixtures.v ===== *)
(** * A small board for the witnesses

    Two resistors' pads, a track of each net on one layer, half a millimetre
    apart, and a zone across a notch of the outline. *)
From S2P Require Import Prelude Geometry Board Rule Copper GeoRules RoutingRules.

Local Open Scope string_scope.
Local Open Scope Z_scope.

Definition demo_pin (number : string) (x y : Z) : Pin.t :=
  Pin.mk number "" PinElectricalType.PASSIVE true (Some (PointNm.mk x y)) 600000 ["F.Cu"] 0 "".
Definition demo_component (id reference : string) (y : Z) : Component.t :=
  Component.mk id reference "10k" "R_0603" "" "" "" [demo_pin "1" 0 y; demo_pin "2" 5000000 y].
Definition demo_net (id name component : string) : Net.t :=
  Net.mk id name [NetConnection.mk component "1"; NetConnection.mk component "2"] false.
Definition demo_track (id net : string) (y : Z) : Track.t :=
  Track.mk id net "F.Cu" (PointNm.mk 0 y) (PointNm.mk 5000000 y) 400000.
Definition demo_outline : BoardOutline :=
  [PointNm.mk (-2000000) (-2000000); PointNm.mk 8000000 (-2000000); PointNm.mk 8000000 6000000;
   PointNm.mk (-2000000) 6000000].

Definition demo_board : BoardGraph.t :=
  BoardGraph.mk 3 "demo" "1" ["F.Cu"; "B.Cu"] demo_outline
    [demo_component "c1" "R1" 0; demo_component "c2" "R2" 500000]
    [demo_net "n1" "IN" "c1"; demo_net "n2" "OUT" "c2"]
    [demo_track "t1" "n1" 0; demo_track "t2" "n2" 500000] [] [] [] [] [].

Definition demo_clearance : RuleEvaluator :=
  Build_RuleEvaluator MinimumCopperClearanceRule.definition MinimumCopperClearanceRule.evaluate.
Definition demo_override : RuleOverride.t :=
  RuleOverride.mk "GEO.COPPER.MIN_CLEARANCE" true None [ParameterValue.mk "minimum_clearance_nm" (SInt 200000)].
Definition demo_resolved : ResolvedRule.t :=
  ResolvedRule.mk demo_clearance true Severity.ERROR [ParameterValue.mk "minimum_clearance_nm" (SInt 200000)].
Definition demo_context : RuleContext.t :=
  RuleContext.mk Severity.ERROR [ParameterValue.mk "minimum_clearance_nm" (SInt 200000)] ExactGeometryKernel.kernel.

(** A board with a notch, and a filled zone that bridges the notch. *)
Definition notched_board : BoardGraph.t :=
  let p x y := PointNm.mk (x * 1000000) (y * 1000000) in
  BoardGraph.mk 3 "notched" "1" ["F.Cu"; "B.Cu"]
    [p 0 0; p 30 0; p 30 30; p 20 30; p 20 10; p 10 10; p 10 30; p 0 30] [] [Net.mk "n1" "GND" [] false] [] [] []
    [Zone.mk "z1" "n1" "F.Cu" [p 2 15; p 28 15; p 28 25; p 2 25] 0 ZoneFillState.VERIFIED_FILLED None] [] [].
Definition edge_context : RuleContext.t :=
  RuleContext.mk Severity.ERROR [ParameterValue.mk "minimum_edge_clearance_nm" (SInt 0)] ExactGeometryKernel.kernel.

(** A board that every rule of the default registry passes: two parts with
    evidence, two nets, one track each. *)
Definition demo_digest : string := "0123456789abcdef0123456789abcdef0123456789abcdef0123456789abcdef".
Definition clean_component (id reference : string) (x : Z) : Component.t :=
  Component.mk id reference "10k" "R_0603" "RC0603-10K" demo_digest demo_digest [demo_pin "1" x 0; demo_pin "2" x 2000000].
Definition clean_net (id name pin : string) : Net.t :=
  Net.mk id name [NetConnection.mk "c1" pin; NetConnection.mk "c2" pin] false.
Definition clean_board : BoardGraph.t :=
  BoardGraph.mk 3 "clean" "1" ["F.Cu"; "B.Cu"] demo_outline
    [clean_component "c1" "R1" 0; clean_component "c2" "R2" 5000000]
    [clean_net "n1" "IN" "1"; clean_net "n2" "OUT" "2"]
    [demo_track "t1" "n1" 0; demo_track "t2" "n2" 2000000] [] [] [] [] [].

(** The clean board with a connection to a pin that does not exist, twice. *)
Definition repeated_board : BoardGraph.t :=
  BoardGraph.mk 3 "repeated" "1" ["F.Cu"; "B.Cu"] demo_outline
    [clean_component "c1" "R1" 0; clean_component "c2" "R2" 5000000]
    [Net.mk "n1" "IN" [NetConnection.mk "c1" "9"; NetConnection.mk "c1" "9"] false] [] [] [] [] [] [].

(** The clean board with a round hole without plating that is turned by one degree. *)
Definition turned_hole_board : BoardGraph.t :=
  BoardGraph.mk 3 "turned" "1" ["F.Cu"; "B.Cu"] demo_outline
    [clean_component "c1" "R1" 0; clean_component "c2" "R2" 5000000]
    [clean_net "n1" "IN" "1"; clean_net "n2" "OUT" "2"]
    [demo_track "t1" "n1" 0; demo_track "t2" "n2" 2000000] [] [] []
    [Hole.mk "h1" "c1" (PointNm.mk 2000000 4000000) 1000000 false None 1000000 1000000 1000000] [].
