(* ===== verification/CopperFacts.v ===== *)
(** * Copper and its distances

    The distance of two primitives is the least distance of their cores, so
    contact and clearance decide what they mean for the copper itself: the
    points within half the width of the core. *)
From Stdlib Require Import QArith Qfield Lqa.
From S2P Require Import Prelude Geometry GeometryFacts Board Copper.

Local Open Scope Q_scope.

(** ** Least distances between sets of points *)

Definition region : Type := ExactPoint.t -> Prop.

(** [d] is the least squared distance between points of [P] and [R]. *)
Definition least_distance (d : Q) (P R : region) : Prop :=
  (forall p q, P p -> R q -> d <= GeometryFacts.distance_squared p q) /\
  exists p q, P p /\ R q /\ d == GeometryFacts.distance_squared p q.

Lemma least_distance_comm d P R : least_distance d P R -> least_distance d R P.
Proof.
  intros [Hle (p & q & Hp & Hq & HE)]. split.
  - intros q' p' Hq' Hp'. rewrite distance_comm. by apply Hle.
  - exists q, p. by rewrite distance_comm.
Qed.

(** ** Boxes *)

Section boxes.
Import ExactPoint CoreBox.

Definition in_box (b : CoreBox.t) : region := fun p =>
  (minimum_x b <= x p /\ x p <= maximum_x b) /\ (minimum_y b <= y p /\ y p <= maximum_y b).
Definition proper_box (b : CoreBox.t) : Prop := minimum_x b <= maximum_x b /\ minimum_y b <= maximum_y b.

(** The distance of two intervals, as the code writes it. *)
Lemma gap_least lo1 hi1 lo2 hi2 :
  lo1 <= hi1 -> lo2 <= hi2 ->
  let g := qmax (qmax (lo1 - hi2) 0) (lo2 - hi1) in
  (forall a b, lo1 <= a -> a <= hi1 -> lo2 <= b -> b <= hi2 -> g * g <= (a - b) * (a - b)) /\
  exists a b, (lo1 <= a /\ a <= hi1) /\ (lo2 <= b /\ b <= hi2) /\ g * g == (a - b) * (a - b).
Proof.
  intros H1 H2 g. subst g.
  destruct (qmax_spec (lo1 - hi2) 0) as [[-> E1]|[-> E1]];
    [destruct (qmax_spec (lo1 - hi2) (lo2 - hi1)) as [[-> E2]|[-> E2]]
    |destruct (qmax_spec 0 (lo2 - hi1)) as [[-> E2]|[-> E2]]].
  - split; [intros; nra|]. exists lo1, hi2. split_and!; lra.
  - lra.
  - split; [intros a b; pose proof (square_nonneg (a - b)); lra|].
    destruct (Qlt_le_dec lo1 lo2); [exists lo2, lo2|exists lo1, lo1]; split_and!; lra.
  - split; [intros; nra|]. exists hi1, lo2. split_and!; [lra..|]. ring.
Qed.

Lemma box_distance_least b1 b2 :
  proper_box b1 -> proper_box b2 -> least_distance (box_distance_squared b1 b2) (in_box b1) (in_box b2).
Proof.
  intros [X1 Y1] [X2 Y2]. unfold box_distance_squared.
  destruct (gap_least _ _ _ _ X1 X2) as [Lx (ax & bx & Ax & Bx & Ex)].
  destruct (gap_least _ _ _ _ Y1 Y2) as [Ly (ay & by_ & Ay & By & Ey)].
  cbv zeta. split.
  - intros p q [[? ?] [? ?]] [[? ?] [? ?]]. unfold GeometryFacts.distance_squared.
    apply Qplus_le_compat; [by apply Lx|by apply Ly].
  - exists (ExactPoint.mk ax ay), (ExactPoint.mk bx by_). split_and!; [done..|].
    unfold GeometryFacts.distance_squared. simpl. by rewrite Ex, Ey.
Qed.

(** A point is a box of no extent. *)
Lemma point_box_distance_least c b :
  proper_box b -> least_distance (point_box_distance_squared c b) (fun p => same p c) (in_box b).
Proof.
  intros [X Y]. unfold point_box_distance_squared.
  destruct (gap_least (minimum_x b) (maximum_x b) (x c) (x c) X) as [Lx (ax & bx & Ax & Bx & Ex)]; [lra|].
  destruct (gap_least (minimum_y b) (maximum_y b) (y c) (y c) Y) as [Ly (ay & by_ & Ay & By & Ey)]; [lra|].
  cbv zeta. apply least_distance_comm. split.
  - intros p q [[? ?] [? ?]] [Hx Hy]. unfold GeometryFacts.distance_squared. rewrite Hx, Hy.
    apply Qplus_le_compat; [apply Lx|apply Ly]; lra.
  - exists (ExactPoint.mk ax ay), c. split_and!; [done..|].
    unfold GeometryFacts.distance_squared. simpl. rewrite Ex, Ey.
    assert (bx == x c) as -> by lra. assert (by_ == y c) as -> by lra. done.
Qed.

(** The boundary *)

Lemma corner_in_box b c : proper_box b -> c ∈ corners b -> in_box b c.
Proof.
  intros [X Y] Hc. unfold corners in Hc. rewrite !elem_of_cons in Hc.
  destruct Hc as [->|[->|[->|[->|Hc]]]]; [..|by apply not_elem_of_nil in Hc];
    unfold in_box; simpl; split_and!; lra.
Qed.

Lemma edge_corners b e : e ∈ edges b -> e.1 ∈ corners b /\ e.2 ∈ corners b.
Proof.
  unfold edges. simpl. intros He. unfold corners.
  rewrite !elem_of_cons in He.
  destruct He as [->|[->|[->|[->|He]]]]; [..|by apply not_elem_of_nil in He]; simpl; set_solver.
Qed.

Lemma on_edge_in_box b e p : proper_box b -> e ∈ edges b -> on_segment p e.1 e.2 -> in_box b p.
Proof.
  intros Hb He (s & Hs0 & Hs1 & Hx & Hy). apply edge_corners in He as [H1 H2].
  apply corner_in_box in H1 as [[? ?] [? ?]], H2 as [[? ?] [? ?]]; [|done..].
  unfold along in *. simpl in *. unfold in_box. rewrite Hx, Hy. split_and!; nra.
Qed.

Lemma in_bounding_box a b p :
  exact_cross a b p == 0 -> (x a <= x p /\ x p <= x b) \/ (x b <= x p /\ x p <= x a) ->
  (y a <= y p /\ y p <= y b) \/ (y b <= y p /\ y p <= y a) -> on_segment p a b.
Proof.
  intros Hc Hx Hy. apply exact_on_segment_iff. unfold exact_on_segment.
  by rewrite andb_true_iff, between_iff, andb_true_iff, between_iff, Qeq_bool_iff.
Qed.

(** A point of the box on its boundary is on an edge. *)
Lemma boundary_on_edge b p :
  in_box b p -> x p == minimum_x b \/ x p == maximum_x b \/ y p == minimum_y b \/ y p == maximum_y b ->
  exists e, e ∈ edges b /\ on_segment p e.1 e.2.
Proof.
  intros [Hx Hy] H.
  assert (exists i, (i < 4)%nat /\ forall e, edges b !! i = Some e -> on_segment p e.1 e.2) as (i & Hi & He).
  { destruct H as [E|[E|[E|E]]]; [exists 3%nat|exists 1%nat|exists 0%nat|exists 2%nat];
      (split; [lia|]; intros e [= <-]; apply in_bounding_box; simpl; [unfold exact_cross; simpl; rewrite E; ring|lra|lra]). }
  destruct (lookup_lt_is_Some_2 (edges b) i) as [e Ee]; [done|].
  exists e. split; [by eapply list_elem_of_lookup_2|by apply He].
Qed.

Lemma point_in_box_iff p b : point_in_box p b = true <-> in_box b p.
Proof. unfold point_in_box, in_box. rewrite !andb_true_iff, !Qle_bool_iff. done. Qed.

Lemma in_box_same b p p' : same p p' -> in_box b p -> in_box b p'.
Proof. intros [Hx Hy]. unfold in_box. by rewrite Hx, Hy. Qed.

(** A way out of the box crosses an edge. *)
Lemma leave_box b q p :
  in_box b q -> ~ in_box b p ->
  exists z r e, 0 <= r /\ r <= 1 /\ same z (along q p r) /\ in_box b z /\ e ∈ edges b /\ on_segment z e.1 e.2.
Proof.
  intros [[? ?] [? ?]] Hp.
  destruct (exit_rectangle (minimum_x b) (maximum_x b) (minimum_y b) (maximum_y b) (x q) (y q) (x p) (y p))
    as (r & Hr0 & Hr1 & Ix & Iy & X); [done..|unfold in_box in Hp; tauto|].
  assert (in_box b (along q p r)) as Hz by (by split).
  destruct (boundary_on_edge b (along q p r) Hz X) as (e & He & Hon).
  exists (along q p r), r, e. by split_and!.
Qed.

(** The way from a point of a segment to its start stays on the segment. *)
Lemma towards_start a b p r z :
  on_segment p a b -> 0 <= r -> r <= 1 -> same z (along p a r) -> on_segment z a b.
Proof.
  intros (s & Hs0 & Hs1 & Hx & Hy) Hr0 Hr1 [Zx Zy]. exists (s * (1 - r)).
  split_and!; [nra|nra|]. unfold same, along in *. simpl in *.
  rewrite Zx, Zy, Hx, Hy. split; ring.
Qed.

(** The distance to a point on the way is no greater. *)
Lemma nearer_on_the_way p q r z :
  0 <= r -> r <= 1 -> same z (along q p r) ->
  GeometryFacts.distance_squared p z <= GeometryFacts.distance_squared p q.
Proof.
  intros Hr0 Hr1 Hz. rewrite (distance_same p p z _ (same_refl p) Hz).
  assert (GeometryFacts.distance_squared p (along q p r) ==
    (1 - r) * (1 - r) * GeometryFacts.distance_squared p q) as ->.
  { unfold GeometryFacts.distance_squared, along. simpl. ring. }
  pose proof (distance_nonneg p q). assert ((1 - r) * (1 - r) <= 1) by nra. nra.
Qed.

Lemma foldl_qmin_le l d0 : foldl qmin d0 l <= d0 /\ forall d, d ∈ l -> foldl qmin d0 l <= d.
Proof.
  revert d0. induction l as [|d' l IH]; intros d0; simpl; [split; [lra|by intros d ?%not_elem_of_nil]|].
  destruct (IH (qmin d0 d')) as [H1 H2], (qmin_le d0 d') as [H3 H4]. split; [lra|].
  intros d [->|Hd]%elem_of_cons; [lra|by apply H2].
Qed.
Lemma foldl_qmin_in l d0 : foldl qmin d0 l = d0 \/ foldl qmin d0 l ∈ l.
Proof.
  revert d0. induction l as [|d' l IH]; intros d0; simpl; [by left|].
  destruct (IH (qmin d0 d')) as [->|H]; [|right; by right].
  destruct (qmin_in d0 d') as [->| ->]; [by left|right; by left].
Qed.
Lemma least_le l d : d ∈ l -> least l <= d.
Proof.
  destruct l as [|d0 l]; [by intros ?%not_elem_of_nil|]. destruct (foldl_qmin_le l d0) as [H1 H2].
  intros [->|Hd]%elem_of_cons; simpl; [done|by apply H2].
Qed.
Lemma least_in l : l <> [] -> least l ∈ l.
Proof.
  destruct l as [|d0 l]; [done|]. intros _. simpl.
  destruct (foldl_qmin_in l d0) as [->|H]; [by left|by right].
Qed.

(** Distances to a box bound the distances to its edges from below. *)
Lemma point_edge_bound p b e :
  proper_box b -> e ∈ edges b ->
  point_box_distance_squared p b <= exact_point_segment_distance_squared p e.1 e.2.
Proof.
  intros Hb He. destruct (exact_point_segment_least p e.1 e.2) as [_ (q & Hq & ->)].
  apply (point_box_distance_least p b Hb); [apply same_refl|by apply (on_edge_in_box b e)].
Qed.

Lemma segment_clear_of_box a b box :
  ~ in_box box a -> existsb (fun e => exact_segments_intersect a b e.1 e.2) (edges box) = false ->
  forall p, on_segment p a b -> ~ in_box box p.
Proof.
  intros Ha Hno p Hp Hin. destruct (leave_box box p a Hin Ha) as (z & r & e & Hr0 & Hr1 & Hz & _ & He & Hon).
  assert (exact_segments_intersect a b e.1 e.2 = true) as Hx.
  { apply exact_segments_intersect_iff. exists z. split; [by apply (towards_start a b p r)|done]. }
  apply existsb_Forall in Hno. rewrite Forall_forall in Hno.
  rewrite (Hno e He) in Hx. done.
Qed.

Definition segment (a b : ExactPoint.t) : region := fun p => on_segment p a b.

Lemma segment_box_distance_least a b box :
  proper_box box -> least_distance (segment_box_distance_squared a b box) (segment a b) (in_box box).
Proof.
  intros Hb. unfold segment_box_distance_squared.
  destruct (point_in_box a box || point_in_box b box ||
            existsb (fun e => exact_segments_intersect a b e.1 e.2) (edges box)) eqn:E.
  - assert (exists p, on_segment p a b /\ in_box box p) as (p & Hp & Hin).
    { apply orb_true_iff in E as [[E|E]%orb_true_iff|E].
      - apply point_in_box_iff in E. exists a. split; [apply on_segment_start|done].
      - apply point_in_box_iff in E. exists b. split; [apply on_segment_end|done].
      - apply existsb_elem in E as (e & He & (p & Hp & Hon)%exact_segments_intersect_iff).
        exists p. split; [done|by apply (on_edge_in_box box e)]. }
    split; [intros; apply distance_nonneg|]. exists p, p. split_and!; [done..|].
    unfold GeometryFacts.distance_squared. ring.
  - apply orb_false_iff in E as [[Ea Eb]%orb_false_iff Ee].
    assert (~ in_box box a) as Ha by (rewrite <- point_in_box_iff; congruence).
    set (l := point_box_distance_squared a box :: _). split.
    + intros p q Hp Hq. pose proof (segment_clear_of_box a b box Ha Ee p Hp) as Hout.
      destruct (leave_box box q p Hq Hout) as (z & r & e & Hr0 & Hr1 & Hz & _ & He & Hon).
      apply Qle_trans with (2 := nearer_on_the_way p q r z Hr0 Hr1 Hz).
      destruct (exact_segment_least a b e.1 e.2) as [Hle _].
      apply Qle_trans with (2 := Hle p z Hp Hon). unfold exact_segment_distance_squared.
      assert (exact_segments_intersect a b e.1 e.2 = false) as ->.
      { apply existsb_Forall in Ee. rewrite Forall_forall in Ee. by apply (Ee e). }
      destruct (edge_corners box e He) as [C1 C2].
      destruct (qmin4_in (exact_point_segment_distance_squared a e.1 e.2)
        (exact_point_segment_distance_squared b e.1 e.2) (exact_point_segment_distance_squared e.1 a b)
        (exact_point_segment_distance_squared e.2 a b)) as [->|[->|[->| ->]]].
      * apply Qle_trans with (2 := point_edge_bound a box e Hb He). apply least_le. left.
      * apply Qle_trans with (2 := point_edge_bound b box e Hb He). apply least_le. right. left.
      * apply least_le. right. right. apply list_elem_of_fmap. eauto.
      * apply least_le. right. right. apply list_elem_of_fmap. eauto.
    + assert (least l ∈ l) as Hl by (by apply least_in).
      unfold l in Hl at 2. apply elem_of_cons in Hl as [->|[->|(c & -> & Hc)%list_elem_of_fmap]%elem_of_cons].
      * destruct (point_box_distance_least a box Hb) as [_ (p & q & Hp & Hq & HE)].
        exists a, q. split_and!; [apply on_segment_start|done|].
        by rewrite HE, (distance_same p a q q Hp (same_refl q)).
      * destruct (point_box_distance_least b box Hb) as [_ (p & q & Hp & Hq & HE)].
        exists b, q. split_and!; [apply on_segment_end|done|].
        by rewrite HE, (distance_same p b q q Hp (same_refl q)).
      * destruct (exact_point_segment_least c a b) as [_ (p & Hp & HE)].
        exists p, c. split_and!; [done|by apply corner_in_box|by rewrite distance_comm].
Qed.
End boxes.

(** ** Primitives *)

Section primitives.
Import CopperPrimitive.
Implicit Types p q : CopperPrimitive.t.

(** The points of the core. *)
Definition core p : region := fun z =>
  match box p, ends p, center p with
  | Some b, _, _ => in_box b z
  | None, Some (s, e), _ => on_segment z s e
  | None, None, Some c => same z c
  | None, None, None => False
  end.

(** The copper: the points within half the width of the core. *)
Definition copper p : region := fun z =>
  exists a, core p a /\ 4 * GeometryFacts.distance_squared z a <= inject_Z (width_nm p * width_nm p).

(** A core as the code builds them, and with it a width. *)
Definition shaped p : Prop :=
  match box p, ends p, center p with
  | Some b, _, _ => proper_box b
  | None, None, None => False
  | _, _, _ => True
  end.
Definition well_shaped p : Prop := shaped p /\ (0 <= width_nm p)%Z.

Lemma point_segment_regions d c a b (P : region) :
  (forall z, P z <-> same z c) -> least_to_segment d c a b -> least_distance d P (segment a b).
Proof.
  intros HP [Hle (q & Hq & HE)]. split.
  - intros p q' Hp%HP Hq'. rewrite (distance_same p c q' q' Hp (same_refl q')). by apply Hle.
  - exists c, q. split_and!; [by apply HP, same_refl|done..].
Qed.

Lemma point_point_least a b (P R : region) :
  (forall z, P z <-> same z a) -> (forall z, R z <-> same z b) -> least_distance (point_distance_squared a b) P R.
Proof.
  intros HP HR. assert (point_distance_squared a b == GeometryFacts.distance_squared a b) as E.
  { unfold point_distance_squared, GeometryFacts.distance_squared. ring. }
  split.
  - intros p q Hp%HP Hq%HR. by rewrite E, (distance_same p a q b Hp Hq), Qle_lteq; right.
  - exists a, b. split_and!; [by apply HP, same_refl|by apply HR, same_refl|done].
Qed.

(** [_distance_squared] never fails, and it is the least distance of the cores. *)
Lemma distance_squared_least p q :
  shaped p -> shaped q ->
  exists d, distance_squared p q = Ok d /\ least_distance d (core p) (core q).
Proof.
  unfold shaped, distance_squared, the_center, core. intros Sp Sq.
  destruct (box p) as [b1|].
  - destruct (box q) as [b2|]; [by eexists; split; [done|apply box_distance_least]|].
    destruct (ends q) as [[s e]|].
    + eexists; split; [done|]. by apply least_distance_comm, segment_box_distance_least.
    + destruct (center q) as [c|]; [|done]. eexists; split; [done|].
      by apply least_distance_comm, point_box_distance_least.
  - destruct (box q) as [b2|].
    + destruct (ends p) as [[s e]|].
      * eexists; split; [done|]. by apply segment_box_distance_least.
      * destruct (center p) as [c|]; [|done]. eexists; split; [done|]. by apply point_box_distance_least.
    + destruct (ends p) as [[s1 e1]|].
      * destruct (ends q) as [[s2 e2]|].
        -- eexists; split; [done|]. apply exact_segment_least.
        -- destruct (center q) as [c|]; [|done]. eexists; split; [done|].
           apply least_distance_comm, (point_segment_regions _ c); [done|apply exact_point_segment_least].
      * destruct (center p) as [c|]; [|done]. destruct (ends q) as [[s2 e2]|].
        -- eexists; split; [done|]. apply (point_segment_regions _ c); [done|apply exact_point_segment_least].
        -- destruct (center q) as [c'|]; [|done]. eexists; split; [done|]. by apply point_point_least.
Qed.

(** *** Copper that touches *)

(** The triangle inequality for squared distances. *)
Lemma triangle_squared a b z m n :
  0 <= m -> 0 <= n ->
  4 * GeometryFacts.distance_squared z a <= m * m -> 4 * GeometryFacts.distance_squared z b <= n * n ->
  4 * GeometryFacts.distance_squared a b <= (m + n) * (m + n).
Proof.
  unfold GeometryFacts.distance_squared. intros Hm Hn.
  set (u1 := ExactPoint.x z - ExactPoint.x a). set (u2 := ExactPoint.y z - ExactPoint.y a).
  set (v1 := ExactPoint.x z - ExactPoint.x b). set (v2 := ExactPoint.y z - ExactPoint.y b). intros Ha Hb.
  assert (ExactPoint.x a - ExactPoint.x b == v1 - u1) as -> by (unfold u1, v1; ring).
  assert (ExactPoint.y a - ExactPoint.y b == v2 - u2) as -> by (unfold u2, v2; ring).
  assert (- (2 * (2 * (u1 * v1 + u2 * v2))) <= m * n) as Hd; [|lra].
  set (dot := u1 * v1 + u2 * v2).
  assert (dot * dot <= (u1 * u1 + u2 * u2) * (v1 * v1 + v2 * v2)) as Hcs.
  { pose proof (square_nonneg (u1 * v2 - u2 * v1)). unfold dot. lra. }
  assert (16 * (dot * dot) <= (m * m) * (n * n)) as Hsq.
  { pose proof (square_nonneg u1). pose proof (square_nonneg u2). pose proof (square_nonneg v1).
    pose proof (square_nonneg v2).
    apply Qle_trans with ((4 * (u1 * u1 + u2 * u2)) * (4 * (v1 * v1 + v2 * v2))); [lra|].
    apply Qmult_le_compat_nonneg; split; lra. }
  pose proof (Qmult_le_0_compat m n Hm Hn). apply Qnot_lt_le. intros Hlt.
  set (k := m * n) in *. assert (k * k == m * m * (n * n)) as Hk by (unfold k; ring). nra.
Qed.

(** Disks around points nearer than the sum of their radii share a point. *)
Lemma disks_meet a b m n :
  0 <= m -> 0 <= n -> 4 * GeometryFacts.distance_squared a b <= (m + n) * (m + n) ->
  exists z, 4 * GeometryFacts.distance_squared z a <= m * m /\ 4 * GeometryFacts.distance_squared z b <= n * n.
Proof.
  intros Hm Hn H. pose proof (distance_nonneg a b) as HD.
  destruct (Qeq_dec (m + n) 0) as [E|E].
  - exists a. assert (GeometryFacts.distance_squared a b == 0) as E0 by (rewrite E in H; lra).
    pose proof (square_nonneg m). pose proof (square_nonneg n).
    split; [|lra]. assert (GeometryFacts.distance_squared a a == 0) as ->; [|lra].
    unfold GeometryFacts.distance_squared. ring.
  - destruct (ratio m (m + n) E) as (t & Ht0 & Ht1 & Et); [left; lra|].
    exists (along a b t). set (w := m + n) in *. assert (n == (1 - t) * w) as En by (unfold w in *; lra).
    set (D := GeometryFacts.distance_squared a b) in *.
    assert (GeometryFacts.distance_squared (along a b t) a == t * t * D) as ->.
    { unfold D, GeometryFacts.distance_squared, along. simpl. ring. }
    assert (GeometryFacts.distance_squared (along a b t) b == (1 - t) * (1 - t) * D) as ->.
    { unfold D, GeometryFacts.distance_squared, along. simpl. ring. }
    pose proof (square_nonneg t). pose proof (square_nonneg (1 - t)). rewrite En. split.
    + assert (m * m == t * t * (w * w)) as -> by (rewrite Et; ring). clearbody w D. nra.
    + assert ((1 - t) * w * ((1 - t) * w) == (1 - t) * (1 - t) * (w * w)) as -> by ring. clearbody w D. nra.
Qed.

Lemma copper_meets d p q :
  well_shaped p -> well_shaped q -> least_distance d (core p) (core q) ->
  (exists z, copper p z /\ copper q z) <->
  4 * d <= inject_Z ((width_nm p + width_nm q) * (width_nm p + width_nm q)).
Proof.
  intros [_ Wp] [_ Wq] [Hle (a & b & Ha & Hb & HE)]. unfold copper.
  rewrite Zle_Qle in Wp, Wq. autorewrite with inject. split.
  - intros (z & (a' & Ha' & Hza) & (b' & Hb' & Hzb)).
    pose proof (triangle_squared a' b' z _ _ Wp Wq Hza Hzb). pose proof (Hle a' b' Ha' Hb'). lra.
  - intros H. destruct (disks_meet a b _ _ Wp Wq) as (z & Hza & Hzb); [by rewrite <- HE|].
    exists z. split; [by exists a|by exists b].
Qed.

(** ** Every primitive of a board is well shaped *)

Lemma proper_pad_box (cx cy sx sy r : Z) :
  (0 < sx)%Z -> (0 < sy)%Z -> (0 <= r)%Z -> (2 * r <= Z.min sx sy)%Z ->
  proper_box (CoreBox.mk (inject_Z cx - halved sx + inject_Z r) (inject_Z cy - halved sy + inject_Z r)
                (inject_Z cx + halved sx - inject_Z r) (inject_Z cy + halved sy - inject_Z r)).
Proof.
  intros Hx Hy Hr Hm.
  assert (forall s, (0 < s)%Z -> (2 * r <= s)%Z -> inject_Z r <= halved s) as H.
  { intros s Hs Hrs. unfold halved, Qle, inject_Z. simpl. lia. }
  pose proof (H sx Hx). pose proof (H sy Hy).
  split; simpl; assert ((2 * r <= sx)%Z /\ (2 * r <= sy)%Z) as [] by lia; intuition lra.
Qed.

Lemma pad_core_well_shaped pad ce st en bx w :
  pad_core pad = Some (ce, st, en, bx, w) ->
  forall id e n l, well_shaped (mk id e n l ce st en bx w).
Proof.
  intros H id e n l. unfold pad_core in H.
  destruct (_ || _) eqn:G; [done|]. apply orb_false_iff in G as [[Gx Gy]%orb_false_iff _].
  apply Z.leb_gt in Gx, Gy. unfold quadrant_dimensions in H.
  set (rotated := negb _) in H.
  assert (exists sx sy, (if rotated then (PhysicalPad.size_y_nm pad, PhysicalPad.size_x_nm pad)
    else (PhysicalPad.size_x_nm pad, PhysicalPad.size_y_nm pad)) = (sx, sy) /\ (0 < sx)%Z /\ (0 < sy)%Z)
    as (sx & sy & E & Hx & Hy) by (destruct rotated; eauto).
  rewrite E in H. clear E. clearbody rotated. cbv zeta in H. unfold well_shaped, shaped. simpl.
  assert (0 <= Z.min sx sy / 4)%Z by (apply Z.div_pos; lia).
  assert (2 * (Z.min sx sy / 4) <= Z.min sx sy)%Z by (pose proof (Z.mul_div_le (Z.min sx sy) 4); lia).
  destruct (PhysicalPad.shape pad).
  - destruct (negb _); [done|]. injection H as <- <- <- <- <-. split; [done|lia].
  - destruct (Qeq_bool _ _); [injection H as <- <- <- <- <-; split; [done|lia]|].
    destruct (slot_ends _ _ _) as [s t]. injection H as <- <- <- <- <-. split; [done|lia].
  - rewrite bool_decide_true in H by done. injection H as <- <- <- <- <-.
    split; [apply proper_pad_box; lia|lia].
  - rewrite bool_decide_false in H by done. injection H as <- <- <- <- <-.
    split; [apply proper_pad_box; lia|lia].
Qed.

Lemma pad_primitive_well_shaped nets pad p : pad_primitive nets pad = Some p -> well_shaped p.
Proof.
  unfold pad_primitive. destruct (pad_core pad) as [[[[[ce st] en] bx] w]|] eqn:E; [|done].
  destruct (bool_decide _); [done|]. intros [= <-]. by apply (pad_core_well_shaped pad).
Qed.

Lemma pad_primitives_well_shaped nets seen pads p : p ∈ pad_primitives nets seen pads -> well_shaped p.
Proof.
  revert seen. induction pads as [|pad pads IH]; intros seen; simpl; [by intros ?%not_elem_of_nil|].
  assert (p ∈ option_list (pad_primitive nets pad) -> well_shaped p) as Hp.
  { destruct (pad_primitive nets pad) as [p'|] eqn:E; simpl; [|by intros ?%not_elem_of_nil].
    intros ->%list_elem_of_singleton. by apply (pad_primitive_well_shaped nets pad). }
  destruct (PhysicalPad.shared_land_group_id pad) as [g|]; [destruct (decide _)|];
    rewrite ?elem_of_app; naive_solver.
Qed.

Lemma copper_primitives_well_shaped board p : p ∈ copper_primitives board -> well_shaped p.
Proof.
  unfold copper_primitives. rewrite elem_of_sorted_on, !elem_of_app. intros [H|[H|H]].
  - unfold pad_or_pin_primitives in H. destruct (BoardGraph.pads board) as [|pad pads].
    + apply list_elem_of_omap in H as ([c pin] & _ & H). unfold pin_primitive in H.
      destruct (_ !! _), (Pin.pad_center pin); try done.
      destruct (negb _ && _ && _) eqn:G; [|done]. injection H as <-.
      apply andb_true_iff in G as [[_ G]%andb_true_iff _]. split; simpl; [done|lia].
    + by apply pad_primitives_well_shaped in H.
  - apply list_elem_of_fmap in H as (t & -> & [Ht _]%list_elem_of_filter). split; simpl; [done|lia].
  - apply list_elem_of_fmap in H as (v & -> & [Hv _]%list_elem_of_filter). split; simpl; [done|lia].
Qed.
End primitives.
