(* ===== verification/ClearanceFacts.v ===== *)
(** * What the clearance rules report

    One finding for each two things that are nearer than they may be, and no
    other finding. *)
From Stdlib Require Import QArith Lqa.
From S2P Require Import Prelude PyDict Geometry GeometryFacts Board Copper GeoRules RoutingRules BoardFixtures.
From S2P Require Import CopperFacts.

Import MinimumCopperClearanceRule.
Local Open Scope nat_scope.

(** ** Loops over pairs and findings *)

Lemma elem_of_pairs {A} (l : list A) x y :
  (x, y) ∈ pairs l <-> exists i j, i < j /\ l !! i = Some x /\ l !! j = Some y.
Proof.
  induction l as [|z l IH]; simpl.
  { split; [by intros ?%not_elem_of_nil|by intros (? & ? & ? & ? & ?)]. }
  rewrite elem_of_app, IH, list_elem_of_fmap. split.
  - intros [(w & [= <- <-] & [j Hj]%list_elem_of_lookup)|(i & j & ? & ? & ?)].
    + exists 0, (S j). split_and!; [lia|done..].
    + exists (S i), (S j). split_and!; [lia|done..].
  - intros ([|i] & [|j] & Hij & Hi & Hj); simpl in *; [lia| |lia|].
    + left. exists y. injection Hi as ->. split; [done|by eapply list_elem_of_lookup_2].
    + right. exists i, j. split_and!; [lia|done..].
Qed.

(** A loop that collects findings: it returns, and finds nothing exactly when no turn does. *)
Lemma concatM_spec {A B} (f : A -> result (list B)) l :
  (forall x, x ∈ l -> exists ys, f x = Ok ys) ->
  exists ys, concatM f l = Ok ys /\ (ys = [] <-> forall x, x ∈ l -> f x = Ok []).
Proof.
  unfold concatM. induction l as [|x l IH]; intros H; simpl.
  { exists []. split; [done|]. split; [|done]. by intros _ ? ?%not_elem_of_nil. }
  destruct (H x) as [ys Hys]; [by left|]. destruct IH as (zs & Hzs & Hnil); [intros; apply H; by right|].
  rewrite Hys. simpl. destruct (mapM f l) as [ls|e]; [|done]. simpl in *. injection Hzs as <-.
  eexists. split; [done|]. rewrite app_nil, Hnil. setoid_rewrite elem_of_cons. split.
  - intros [-> Hl] y [->|Hy]; [done|by apply Hl].
  - intros Hl. split; [|auto]. specialize (Hl x (or_introl eq_refl)). congruence.
Qed.

(** ** Loops that report *)

(** [sel] is the elements of [l] of which [P] holds, in their order. *)
Inductive selects {A} (P : A -> Prop) : list A -> list A -> Prop :=
  | selects_nil : selects P [] []
  | selects_keep x l sel : P x -> selects P l sel -> selects P (x :: l) (x :: sel)
  | selects_skip x l sel : ~ P x -> selects P l sel -> selects P (x :: l) sel.

Lemma selects_app {A} (P : A -> Prop) l l' sel sel' :
  selects P l sel -> selects P l' sel' -> selects P (l ++ l') (sel ++ sel').
Proof. induction 1; simpl; [done|constructor; auto..]. Qed.

Lemma selects_fmap {A B} (P : B -> Prop) (f : A -> B) l sel :
  selects (fun x => P (f x)) l sel -> selects P (f <$> l) (f <$> sel).
Proof. induction 1; simpl; constructor; auto. Qed.

Lemma selects_iff {A} (P Q : A -> Prop) l sel :
  (forall x, x ∈ l -> P x <-> Q x) -> selects P l sel -> selects Q l sel.
Proof.
  intros H Hs. induction Hs as [|x l sel Hx _ IH|x l sel Hx _ IH]; constructor;
    try (apply IH; intros y Hy; apply H; by right); rewrite <- (H x) by (by left); done.
Qed.

Lemma elem_of_selects {A} (P : A -> Prop) l sel x : selects P l sel -> x ∈ sel <-> x ∈ l /\ P x.
Proof.
  induction 1 as [|y l sel Hy _ IH|y l sel Hy _ IH]; [set_solver|..]; rewrite !elem_of_cons, IH.
  - naive_solver.
  - naive_solver.
Qed.

Lemma selects_none {A} (P : A -> Prop) l : selects P l [] -> forall x, x ∈ l -> ~ P x.
Proof. intros H x Hx HP. apply (not_elem_of_nil x), (elem_of_selects _ _ _ x H). done. Qed.

(** A turn of a loop: one draft on these entities when [P] holds, else none. *)
Definition reports_when (P : Prop) (entities : list EntityRef.t) (r : result (list FindingDraft.t)) : Prop :=
  P /\ (exists d, r = Ok [d] /\ FindingDraft.entities d = entities) \/ ~ P /\ r = Ok [].

Lemma reports_test (b : bool) (P : Prop) message entities items :
  b = true <-> P -> reports_when P entities (Ok (if b then [report message entities items] else [])).
Proof.
  intros H. destruct b; [left; split; [by apply H|by eexists]|right]. split; [|done]. intros HP%H. done.
Qed.

Lemma reports_iff (P Q : Prop) entities r : P <-> Q -> reports_when P entities r -> reports_when Q entities r.
Proof. unfold reports_when. by intros ->. Qed.

(** The loop reports exactly the elements of which [P] holds. *)
Definition reports_all {A} (P : A -> Prop) (entities : A -> list EntityRef.t) (l : list A)
    (r : result (list FindingDraft.t)) : Prop :=
  exists ys sel, r = Ok ys /\ selects P l sel /\ FindingDraft.entities <$> ys = entities <$> sel.

Lemma concatM_cons {A B} (f : A -> result (list B)) x l :
  concatM f (x :: l) = let* ys := f x in let* zs := concatM f l in Ok (ys ++ zs)%list.
Proof. unfold concatM. simpl. destruct (f x) as [ys|e]; [|done]. simpl. by destruct (mapM f l). Qed.

Lemma concatM_reports_all {A} (f : A -> result (list FindingDraft.t)) P entities l :
  (forall x, x ∈ l -> reports_when (P x) (entities x) (f x)) -> reports_all P entities l (concatM f l).
Proof.
  induction l as [|x l IH]; intros H.
  { exists [], []. split_and!; [done|constructor|done]. }
  destruct IH as (zs & sel & Hzs & Hsel & Hent); [intros; apply H; by right|]. rewrite concatM_cons, Hzs.
  destruct (H x) as [[HP (d & -> & Hd)]|[HP ->]]; [by left|..]; cbn [bind].
  - exists (d :: zs), (x :: sel). split_and!; [done|by constructor|]. by rewrite !fmap_cons, Hd, Hent.
  - exists zs, sel. split_and!; [done|by constructor|done].
Qed.

Lemma concatM_nested {A B} (f : A -> result (list FindingDraft.t)) (P : A * B -> Prop) entities l (m : list B) :
  (forall x, x ∈ l -> reports_all (fun y => P (x, y)) (fun y => entities (x, y)) m (f x)) ->
  reports_all P entities (cprod l m) (concatM f l).
Proof.
  induction l as [|x l IH]; intros H.
  { exists [], []. split_and!; [done|constructor|done]. }
  destruct IH as (zs & sel & Hzs & Hsel & Hent); [intros; apply H; by right|]. rewrite concatM_cons, Hzs.
  destruct (H x) as (ys & sel' & -> & Hsel' & Hent'); [by left|]. cbn [bind].
  exists (ys ++ zs)%list, ((pair x <$> sel') ++ sel)%list. split; [done|]. split.
  - change (cprod (x :: l) m) with ((pair x <$> m) ++ cprod l m)%list. by apply selects_app; [apply selects_fmap|].
  - by rewrite !fmap_app, Hent', Hent, <- list_fmap_compose.
Qed.

Lemma concatM_pure {A B} (f : A -> list B) l : concatM (fun x => Ok (f x)) l = Ok (l ≫= f).
Proof. induction l as [|x l IH]; [done|]. by rewrite concatM_cons, IH. Qed.

(** Findings one loop after the other. *)
Lemma reports_all_nil {A} P entities (l : list A) r :
  reports_all P entities l r -> r = Ok [] -> forall x, x ∈ l -> ~ P x.
Proof.
  intros (ys & sel & -> & Hs & He) [= ->]. symmetry in He. apply fmap_nil_inv in He as ->. by apply selects_none.
Qed.

(** ** Layers *)

Definition share_layer (p q : CopperPrimitive.t) : Prop :=
  exists layer, layer ∈ CopperPrimitive.layers p /\ layer ∈ CopperPrimitive.layers q.

Lemma shared_layers_nil p q :
  shared_layers (CopperPrimitive.layers p) (CopperPrimitive.layers q) = [] <-> ~ share_layer p q.
Proof.
  unfold shared_layers, share_layer. rewrite filter_nil_iff. split.
  - intros H (l & Hp & Hq). by apply (H l).
  - intros H l Hp Hq. apply H. by exists l.
Qed.

Lemma shared_layers_some p q :
  shared_layers (CopperPrimitive.layers p) (CopperPrimitive.layers q) <> [] -> share_layer p q.
Proof.
  intros E. destruct (decide (Exists (fun l => l ∈ CopperPrimitive.layers q) (CopperPrimitive.layers p))) as [H|H].
  - apply Exists_exists in H as (l & ? & ?). by exists l.
  - destruct E. apply shared_layers_nil. intros (l & ? & ?). apply H, Exists_exists. by exists l.
Qed.

(** ** Nearness *)

(** Points of two regions are nearer than half of [required]. *)
Definition nearer (required : Z) (P R : region) : Prop :=
  exists a b, P a /\ R b /\
    (4 * GeometryFacts.distance_squared a b < inject_Z required * inject_Z required)%Q.

Lemma too_near_iff d required P R :
  least_distance d P R -> too_near d required = true <-> nearer required P R.
Proof.
  intros [Hle (a & b & Ha & Hb & HE)]. unfold too_near. rewrite qlt_iff, inject_Z_mult. split.
  - intros H. exists a, b. split_and!; [done..|]. by rewrite <- HE.
  - intros (a' & b' & Ha' & Hb' & H). specialize (Hle a' b' Ha' Hb'). lra.
Qed.

(** The boundary of an outline. *)
Definition boundary (outline : BoardOutline) : region := fun z =>
  exists e, e ∈ exact_outline_edges outline /\ on_segment z e.1 e.2.

(** A least distance over the edges is the least distance to the boundary. *)
Lemma least_over_edges (f : ExactPoint.t * ExactPoint.t -> Q) (P : region) outline :
  exact_outline_edges outline <> [] ->
  (forall e, e ∈ exact_outline_edges outline -> least_distance (f e) P (segment e.1 e.2)) ->
  least_distance (least (f <$> exact_outline_edges outline)) P (boundary outline).
Proof.
  intros Hne Hf. split.
  - intros p z Hp (e & He & Hz). destruct (Hf e He) as [Hle _].
    apply Qle_trans with (2 := Hle p z Hp Hz). apply least_le, list_elem_of_fmap. by exists e.
  - assert (least (f <$> exact_outline_edges outline) ∈ f <$> exact_outline_edges outline) as Hin.
    { apply least_in. by destruct (exact_outline_edges outline). }
    apply list_elem_of_fmap in Hin as (e & -> & He). destruct (Hf e He) as [_ (p & z & Hp & Hz & HE)].
    exists p, z. split_and!; [done|by exists e|done].
Qed.

Lemma core_outline_least p outline :
  shaped p -> exact_outline_edges outline <> [] ->
  exists d, core_outline_distance_squared p outline = Ok d /\ least_distance d (core p) (boundary outline).
Proof.
  intros Sp Hne. assert (forall A (x y : A), match exact_outline_edges outline with [] => x | _ => y end = y) as Hm.
  { intros. by destruct (exact_outline_edges outline). }
  unfold core_outline_distance_squared, core, shaped, CopperPrimitive.the_center in *. cbv zeta. rewrite Hm.
  destruct (CopperPrimitive.box p) as [b|]; [|destruct (CopperPrimitive.ends p) as [[s t]|]].
  - eexists. split; [done|]. apply (least_over_edges _ (in_box b)); [done|]. intros e _.
    by apply least_distance_comm, segment_box_distance_least.
  - eexists. split; [done|]. apply (least_over_edges _ (segment s t)); [done|]. intros e _. apply exact_segment_least.
  - destruct (CopperPrimitive.center p) as [c|]; [|done]. eexists. split; [done|].
    apply (least_over_edges _ (fun z => same z c)); [done|]. intros e _.
    apply (point_segment_regions _ c); [done|apply exact_point_segment_least].
Qed.

Lemma core_overlaps_total p outline : shaped p -> exists b, core_overlaps_outline p outline = Ok b.
Proof.
  unfold shaped, core_overlaps_outline, CopperPrimitive.the_center.
  destruct (CopperPrimitive.box p), (CopperPrimitive.ends p) as [[]|], (CopperPrimitive.center p); simpl; eauto; done.
Qed.

(** A zone whose outline is valid has edges. *)
Lemma valid_zone_edges board context zone :
  zone ∈ valid_zones board context -> exact_outline_edges (Zone.outline zone) <> [].
Proof.
  intros [[_ H] _]%list_elem_of_filter. unfold outline_defects in H.
  destruct (length (Zone.outline zone) <? 3) eqn:E; [done|]. apply Nat.ltb_ge in E.
  unfold exact_outline_edges. destruct (Zone.outline zone) as [|a [|b l]]; simpl in *; [lia|lia|done].
Qed.

Lemma valid_zone_length board context zone : zone ∈ valid_zones board context -> 2 <= length (Zone.outline zone).
Proof.
  intros [[_ H] _]%list_elem_of_filter. unfold outline_defects in H.
  destruct (length (Zone.outline zone) <? 3) eqn:E; [done|]. apply Nat.ltb_ge in E. lia.
Qed.

Lemma hole_primitive_shaped hole layers :
  (Hole.drill_rotation_udeg hole mod 90000000 = 0)%Z ->
  exists p, hole_primitive hole layers = Ok p /\ shaped p.
Proof.
  intros H. unfold hole_primitive. destruct (drill_dimensions _ _ _) as [dx dy]. rewrite H.
  cbn [negb Z.eqb raise_if bind]. destruct (quadrant_dimensions _ _ _) as [qx qy]. cbv zeta.
  destruct (Qeq_bool _ _); [by eexists; split|]. destruct (slot_ends _ _ _) as [s t]. by eexists; split.
Qed.

(** ** The parts of the rule *)

(** Twice the distance that two cores must keep. *)
Definition required (clearance : Z) (p q : CopperPrimitive.t) : Z :=
  (CopperPrimitive.width_nm p + CopperPrimitive.width_nm q + 2 * clearance)%Z.

(** Two pieces of copper of different nets that share a layer and are too near. *)
Definition clash (clearance : Z) (p q : CopperPrimitive.t) : Prop :=
  CopperPrimitive.net_id p <> CopperPrimitive.net_id q /\ share_layer p q /\
  nearer (required clearance p q) (core p) (core q).

(** Copper too near a hole without plating. *)
Definition hole_clash (clearance : Z) (board : BoardGraph.t) (hole : Hole.t) (p : CopperPrimitive.t) : Prop :=
  exists h, hole_primitive hole (BoardGraph.layers board) = Ok h /\ nearer (required clearance h p) (core h) (core p).

(** Copper that enters a filled zone of another net, or is too near its boundary. *)
Definition zone_required (clearance : Z) (zone : Zone.t) (p : CopperPrimitive.t) : Z :=
  (CopperPrimitive.width_nm p + 2 * Z.max clearance (Zone.clearance_nm zone))%Z.
Definition zone_clash (clearance : Z) (zone : Zone.t) (p : CopperPrimitive.t) : Prop :=
  CopperPrimitive.net_id p <> Zone.net_id zone /\ Zone.layer zone ∈ CopperPrimitive.layers p /\
  (core_overlaps_outline p (Zone.outline zone) = Ok true \/
   nearer (zone_required clearance zone p) (core p) (boundary (Zone.outline zone))).

(** Two filled zones of different nets on one layer that overlap or are too near. *)
Definition zones_required (clearance : Z) (z1 z2 : Zone.t) : Z :=
  Z.max (Z.max clearance (Zone.clearance_nm z1)) (Zone.clearance_nm z2).
Definition zones_clash (clearance : Z) (z1 z2 : Zone.t) : Prop :=
  Zone.net_id z1 <> Zone.net_id z2 /\ Zone.layer z1 = Zone.layer z2 /\
  (outlines_overlap (Zone.outline z1) (Zone.outline z2) ExactGeometryKernel.kernel = true \/
   nearer (2 * zones_required clearance z1 z2) (boundary (Zone.outline z1)) (boundary (Zone.outline z2))).

Definition zone_entity (zone : Zone.t) : EntityRef.t := EntityRef.mk "zone" (Zone.zone_id zone).

Lemma pair_reports clearance p q :
  shaped p -> shaped q ->
  reports_when (clash clearance p q) [CopperPrimitive.entity p; CopperPrimitive.entity q] (pair_findings clearance (p, q)).
Proof.
  intros Sp Sq. unfold pair_findings, clash. destruct (bool_decide _ || bool_decide _) eqn:E.
  { right. split; [|done]. intros (Hn & Hs & _).
    apply orb_true_iff in E as [E%bool_decide_eq_true|E%bool_decide_eq_true]; [done|]. by apply shared_layers_nil in E. }
  apply orb_false_iff in E as [E1%bool_decide_eq_false E2%bool_decide_eq_false%shared_layers_some].
  destruct (distance_squared_least p q Sp Sq) as (d & -> & Hd). cbn [bind]. apply reports_test.
  rewrite (too_near_iff _ _ _ _ Hd). unfold required. tauto.
Qed.

Lemma hole_pair_reports clearance hole h p :
  shaped h -> shaped p ->
  reports_when (nearer (required clearance h p) (core h) (core p)) [CopperPrimitive.entity p; CopperPrimitive.entity h]
    (hole_pair_findings clearance hole h p).
Proof.
  intros Sh Sp. unfold hole_pair_findings. destruct (distance_squared_least h p Sh Sp) as (d & -> & Hd). cbn [bind].
  apply reports_test, (too_near_iff _ _ _ _ Hd).
Qed.

Lemma zone_primitive_reports clearance zone p :
  exact_outline_edges (Zone.outline zone) <> [] -> shaped p ->
  reports_when (zone_clash clearance zone p) [CopperPrimitive.entity p; zone_entity zone]
    (zone_primitive_findings clearance zone p).
Proof.
  intros Hz Sp. unfold zone_primitive_findings, zone_clash. destruct (bool_decide _ || negb _) eqn:E.
  { right. split; [|done]. intros (Hn & Hl & _).
    rewrite orb_true_iff, negb_true_iff, bool_decide_eq_true, bool_decide_eq_false in E. tauto. }
  apply orb_false_iff in E as [E1%bool_decide_eq_false E2%negb_false_iff%bool_decide_eq_true].
  destruct (core_outline_least p (Zone.outline zone) Sp Hz) as (d & Hd & Hleast).
  destruct (core_overlaps_total p (Zone.outline zone) Sp) as (o & Ho).
  unfold primitive_zone_distance_squared. rewrite Hd, Ho. cbn [bind]. apply reports_test.
  rewrite orb_true_iff, (too_near_iff _ _ _ _ Hleast). unfold zone_required. destruct o; naive_solver.
Qed.

(** The edges of an outline, with their ends as exact points. *)
Lemma exact_edges outline : 2 <= length outline ->
  exact_outline_edges outline = (fun e => (exact_point e.1, exact_point e.2)) <$> outline_edges outline.
Proof.
  assert (forall v w, zip (exact_point <$> v) (exact_point <$> w) = (fun e => (exact_point e.1, exact_point e.2)) <$> zip v w) as H.
  { intros v. induction v as [|x v IH]; intros [|y w]; [done..|]. cbn. f_equal. apply IH. }
  intros Hl. unfold exact_outline_edges. rewrite H. by destruct outline as [|a [|b l]]; [simpl in Hl; lia..|].
Qed.

(** The least distance of the edges is that of the boundaries. *)
Lemma outlines_least first second :
  2 <= length first -> 2 <= length second ->
  least_distance (minimum_outlines_distance_squared first second ExactGeometryKernel.kernel) (boundary first) (boundary second).
Proof.
  intros L1 L2. unfold minimum_outlines_distance_squared, boundary. rewrite !exact_edges by done.
  set (ds := _ ≫= _). assert (forall e1 e2, e1 ∈ outline_edges first -> e2 ∈ outline_edges second ->
    ExactGeometryKernel.segment_distance_squared e1.1 e1.2 e2.1 e2.2 ∈ ds) as Hds.
  { intros e1 e2 H1 H2. apply list_elem_of_bind. exists e1. split; [|done]. apply list_elem_of_fmap. by exists e2. }
  split.
  - intros p q (e1' & (e1 & -> & H1)%list_elem_of_fmap & Hp) (e2' & (e2 & -> & H2)%list_elem_of_fmap & Hq).
    apply Qle_trans with (1 := least_le _ _ (Hds e1 e2 H1 H2)). rewrite <- segment_exact.
    by apply (exact_segment_least (exact_point e1.1) (exact_point e1.2) (exact_point e2.1) (exact_point e2.2)).
  - assert (least ds ∈ ds) as Hin.
    { apply least_in. intros E. destruct first as [|a1 [|b1 l1]], second as [|a2 [|b2 l2]]; simpl in L1, L2; try lia.
      simpl in ds. unfold ds in E. discriminate E. }
    unfold ds in Hin at 2. apply list_elem_of_bind in Hin as (e1 & (e2 & E & H2)%list_elem_of_fmap & H1).
    change (least ds = ExactGeometryKernel.segment_distance_squared e1.1 e1.2 e2.1 e2.2) in E. rewrite <- segment_exact in E.
    destruct (exact_segment_least (exact_point e1.1) (exact_point e1.2) (exact_point e2.1) (exact_point e2.2))
      as [_ (p & q & Hp & Hq & HE)].
    exists p, q. split_and!; [| |by rewrite E].
    + eexists. split; [apply list_elem_of_fmap; by exists e1|done].
    + eexists. split; [apply list_elem_of_fmap; by exists e2|done].
Qed.

(** The comparison with a whole distance. *)
Lemma nearer_whole d distance P R :
  least_distance distance P R -> qlt distance (inject_Z (d * d)) = true <-> nearer (2 * d) P R.
Proof.
  intros [Hle (a & b & Ha & Hb & HE)]. rewrite qlt_iff, inject_Z_mult. unfold nearer. rewrite inject_Z_mult. split.
  - intros H. exists a, b. split_and!; [done..|]. rewrite <- HE. change (inject_Z 2) with (2 # 1)%Q. lra.
  - intros (a' & b' & Ha' & Hb' & H). specialize (Hle a' b' Ha' Hb'). change (inject_Z 2) with (2 # 1)%Q in H. lra.
Qed.

Lemma zone_pair_reports clearance z1 z2 :
  2 <= length (Zone.outline z1) -> 2 <= length (Zone.outline z2) ->
  reports_when (zones_clash clearance z1 z2) [zone_entity z1; zone_entity z2]
    (Ok (zone_pair_findings clearance ExactGeometryKernel.kernel (z1, z2))).
Proof.
  intros H1 H2. unfold zone_pair_findings, zones_clash. destruct (bool_decide _ || negb _) eqn:E.
  { right. split; [|done]. intros (Hn & Hl & _).
    rewrite orb_true_iff, negb_true_iff, bool_decide_eq_true, bool_decide_eq_false in E. tauto. }
  apply orb_false_iff in E as [E1%bool_decide_eq_false E2%negb_false_iff%bool_decide_eq_true].
  apply reports_test. rewrite orb_true_iff. fold (zones_required clearance z1 z2).
  rewrite (nearer_whole (zones_required clearance z1 z2) _ _ _ (outlines_least _ _ H1 H2)). tauto.
Qed.

(** ** The rule *)

Lemma concatM_total {A B} (f : A -> result (list B)) l :
  (forall x, x ∈ l -> exists ys, f x = Ok ys) -> exists ys, concatM f l = Ok ys.
Proof. intros H. destruct (concatM_spec f l H) as (ys & Hys & _). by exists ys. Qed.

Lemma pairs_shaped board p q : (p, q) ∈ pairs (copper_primitives board) -> shaped p /\ shaped q.
Proof.
  intros (i & j & _ & Hp & Hq)%elem_of_pairs. apply list_elem_of_lookup_2, copper_primitives_well_shaped in Hp, Hq.
  split; [apply Hp|apply Hq].
Qed.

Lemma primitive_shaped board p : p ∈ copper_primitives board -> shaped p.
Proof. intros Hp. by apply (copper_primitives_well_shaped board). Qed.

(** Holes whose drills are turned by quadrants, which the rule requires. *)
Definition quadrant_holes (board : BoardGraph.t) : Prop :=
  forall hole, hole ∈ npth_holes board -> (Hole.drill_rotation_udeg hole mod 90000000 = 0)%Z.

Definition hole_entity (hole : Hole.t) : EntityRef.t := EntityRef.mk "hole" (Hole.hole_id hole).
Lemma hole_primitive_entity hole layers h :
  hole_primitive hole layers = Ok h ->
  CopperPrimitive.entity h = hole_entity hole /\ (Hole.drill_rotation_udeg hole mod 90000000 = 0)%Z.
Proof.
  unfold hole_primitive. destruct (drill_dimensions _ _ _) as [dx dy].
  intros [Hq%raise_if_Ok%negb_false_iff%Z.eqb_eq H]%seq_Ok. split; [|done]. revert H.
  destruct (quadrant_dimensions _ _ _) as [qx qy]. cbv zeta.
  destruct (Qeq_bool _ _); [by intros <-%Ok_inj|]. destruct (slot_ends _ _ _). by intros <-%Ok_inj.
Qed.

Section rule.
Variables (board : BoardGraph.t) (context : RuleContext.t) (clearance : Z).
Let copper := copper_primitives board.
Let zones := valid_zones board context.

Lemma copper_reports :
  reports_all (fun pq => clash clearance pq.1 pq.2) (fun pq => [CopperPrimitive.entity pq.1; CopperPrimitive.entity pq.2])
    (pairs copper) (concatM (pair_findings clearance) (pairs copper)).
Proof. apply concatM_reports_all. intros [p q] [Sp Sq]%pairs_shaped. by apply pair_reports. Qed.

Lemma hole_reports hole :
  (Hole.drill_rotation_udeg hole mod 90000000 = 0)%Z ->
  reports_all (hole_clash clearance board hole) (fun p => [CopperPrimitive.entity p; hole_entity hole]) copper
    (hole_findings clearance board copper hole).
Proof.
  intros Hq. destruct (hole_primitive_shaped hole (BoardGraph.layers board) Hq) as (h & Hh & Sh).
  unfold hole_findings. rewrite Hh. cbn [bind]. apply concatM_reports_all. intros p Hp%primitive_shaped.
  rewrite <- (proj1 (hole_primitive_entity _ _ _ Hh)). eapply reports_iff; [|by apply hole_pair_reports].
  unfold hole_clash. rewrite Hh. split; [by intros; exists h|]. by intros (? & [= <-] & ?).
Qed.

Lemma holes_report :
  quadrant_holes board ->
  reports_all (fun hp => hole_clash clearance board hp.1 hp.2) (fun hp => [CopperPrimitive.entity hp.2; hole_entity hp.1])
    (cprod (npth_holes board) copper) (concatM (hole_findings clearance board copper) (npth_holes board)).
Proof. intros Hq. apply concatM_nested. intros hole Hh%Hq. by apply hole_reports. Qed.

Lemma zones_report :
  reports_all (fun zp => zone_clash clearance zp.1 zp.2) (fun zp => [CopperPrimitive.entity zp.2; zone_entity zp.1])
    (cprod zones copper) (concatM (fun zone => concatM (zone_primitive_findings clearance zone) copper) zones).
Proof.
  apply concatM_nested. intros zone Hz. apply concatM_reports_all. intros p Hp%primitive_shaped.
  apply zone_primitive_reports; [by eapply valid_zone_edges|done].
Qed.

Lemma zone_pairs_report :
  RuleContext.geometry context = ExactGeometryKernel.kernel ->
  reports_all (fun zz => zones_clash clearance zz.1 zz.2) (fun zz => [zone_entity zz.1; zone_entity zz.2])
    (pairs zones) (Ok (pairs zones ≫= zone_pair_findings clearance (RuleContext.geometry context))).
Proof.
  intros ->. rewrite <- concatM_pure. apply concatM_reports_all. intros [z1 z2] (i & j & _ & H1 & H2)%elem_of_pairs.
  apply zone_pair_reports; eapply valid_zone_length, list_elem_of_lookup_2; done.
Qed.
End rule.

(** C7. The clearance rule reports what is too near, and nothing else: when the
    drills are turned by quadrants it returns, and its findings are, in this
    order, one for each two pieces of copper of different nets on a common layer
    that are nearer than the clearance; one for each hole without plating and
    piece of copper too near it; one for each filled zone and piece of copper of
    another net on its layer that enters the zone or is too near its boundary;
    and one for each two filled zones of different nets on one layer that
    overlap or whose boundaries are too near. *)
Theorem clearance_rule_reports board context clearance :
  RuleContext.integer context "minimum_clearance_nm" = Ok clearance ->
  RuleContext.geometry context = ExactGeometryKernel.kernel -> quadrant_holes board ->
  let copper := copper_primitives board in
  let zones := valid_zones board context in
  exists findings near_copper near_holes near_zones near_zone_pairs, evaluate board context = Ok findings /\
    selects (fun pq => clash clearance pq.1 pq.2) (pairs copper) near_copper /\
    selects (fun hp => hole_clash clearance board hp.1 hp.2) (cprod (npth_holes board) copper) near_holes /\
    selects (fun zp => zone_clash clearance zp.1 zp.2) (cprod zones copper) near_zones /\
    selects (fun zz => zones_clash clearance zz.1 zz.2) (pairs zones) near_zone_pairs /\
    FindingDraft.entities <$> findings =
      (((fun pq => [CopperPrimitive.entity pq.1; CopperPrimitive.entity pq.2]) <$> near_copper) ++
       ((fun hp => [CopperPrimitive.entity hp.2; hole_entity hp.1]) <$> near_holes) ++
       ((fun zp => [CopperPrimitive.entity zp.2; zone_entity zp.1]) <$> near_zones) ++
       ((fun zz => [zone_entity zz.1; zone_entity zz.2]) <$> near_zone_pairs))%list.
Proof.
  intros Hc Hk Hq copper zones. unfold evaluate. rewrite Hc. cbn [bind]. fold copper. fold zones.
  destruct (copper_reports board clearance) as (l1 & s1 & H1 & S1 & E1), (holes_report board clearance Hq) as (l2 & s2 & H2 & S2 & E2),
    (zones_report board context clearance) as (l3 & s3 & H3 & S3 & E3),
    (zone_pairs_report board context clearance Hk) as (l4 & s4 & H4 & S4 & E4).
  fold copper in H1, H2, H3. fold zones in H3, H4. rewrite H1, H2, H3. apply Ok_inj in H4. cbn [bind]. rewrite H4.
  eexists _, s1, s2, s3, s4. split; [done|]. split_and!; [done..|]. by rewrite !fmap_app, E1, E2, E3, E4.
Qed.

Lemma clearance_rule_reports_witness :
  exists findings, evaluate demo_board demo_context = Ok findings /\
    (findings = [] <-> forall p q, (p, q) ∈ pairs (copper_primitives demo_board) -> ~ clash 200000 p q).
Proof.
  destruct (clearance_rule_reports demo_board demo_context 200000) as (l & s1 & s2 & s3 & s4 & Hl & S1 & S2 & S3 & S4 & E).
  - reflexivity.
  - reflexivity.
  - intros hole H. by apply not_elem_of_nil in H.
  - exists l. split; [exact Hl|]. assert (s2 = [] /\ s3 = [] /\ s4 = []) as (-> & -> & ->).
    { split_and!; [inversion S2|inversion S3|inversion S4]; reflexivity. }
    simpl in E. rewrite app_nil_r in E. split.
    + intros -> p q Hpq. symmetry in E. apply fmap_nil_inv in E as ->. exact (selects_none _ _ S1 _ Hpq).
    + intros H. destruct s1 as [|[p q] s1]; [by apply fmap_nil_inv in E|]. exfalso.
      destruct (proj1 (elem_of_selects _ _ _ (p, q) S1)) as [Hpq Hc]; [by left|]. exact (H p q Hpq Hc).
Defined.
