(* ===== verification/RoutingFacts.v ===== *)
(** * What the routing rules decide

    First the disjoint-set forest: [find] ends and returns the root, halving
    paths does not change any root, and [union] merges two classes and no
    others.  Then the rules: the connectivity rule decides connectivity. *)
From S2P Require Import Prelude PyDict Geometry GeometryFacts Board Copper GeoRules RoutingRules CopperFacts.
From S2P Require Import ClearanceFacts.
From Stdlib Require Import QArith Lqa.
From stdpp Require Import relations.

Import DisjointSet.

Local Open Scope nat_scope.

(** [r] is the root of [i]. *)
Inductive rooted (parent : list nat) : nat -> nat -> Prop :=
  | rooted_root i : parent !! i = Some i -> rooted parent i i
  | rooted_step i p r : parent !! i = Some p -> p <> i -> rooted parent p r -> rooted parent i r.

(** No parent is greater than its item. *)
Definition forest (parent : list nat) : Prop := forall i p, parent !! i = Some p -> p <= i.

Lemma forest_init n : forest (init n).
Proof. intros i p H. apply lookup_seq in H as [-> _]. done. Qed.

Section forests.
Implicit Types parent : list nat.

Lemma rooted_lt parent i r : rooted parent i r -> i < length parent /\ parent !! r = Some r.
Proof.
  induction 1 as [i H|i p r H Hne _ [_ IH]]; [by split; [eapply lookup_lt_Some|]|].
  split; [by eapply lookup_lt_Some|done].
Qed.

Lemma rooted_le parent i r : forest parent -> rooted parent i r -> r <= i.
Proof. intros F. induction 1 as [|i p r H Hne _ IH]; [done|]. specialize (F _ _ H). lia. Qed.

Lemma rooted_det parent i r r' : rooted parent i r -> rooted parent i r' -> r = r'.
Proof.
  intros H. revert r'. induction H as [i H|i p r H Hne _ IH]; intros r' H'; inversion H'; simplify_eq; auto.
Qed.

Lemma rooted_total parent i : forest parent -> i < length parent -> exists r, rooted parent i r.
Proof.
  intros F. induction (lt_wf i) as [i _ IH]. intros Hi.
  destruct (lookup_lt_is_Some_2 parent i Hi) as [p Hp]. destruct (decide (p = i)) as [->|Hne].
  - exists i. by constructor.
  - pose proof (F _ _ Hp). destruct (IH p) as [r Hr]; [lia|lia|]. exists r. by eapply rooted_step.
Qed.

(** A change of the forest that keeps the roots in one direction keeps them in both. *)
Lemma roots_eq parent parent' :
  forest parent -> length parent' = length parent ->
  (forall i r, rooted parent i r -> rooted parent' i r) ->
  forall i r, rooted parent' i r <-> rooted parent i r.
Proof.
  intros F L H i r. split; [|apply H]. intros Hr. destruct (rooted_lt _ _ _ Hr) as [Hi _].
  destruct (rooted_total parent i F) as [r' Hr']; [lia|]. by rewrite (rooted_det _ _ _ _ Hr (H _ _ Hr')).
Qed.

Lemma forest_insert parent i g : forest parent -> g <= i -> forest (<[i:=g]> parent).
Proof.
  intros F Hg j p. rewrite list_lookup_insert_Some. intros [(-> & -> & _)|[_ H]]; [done|by apply F].
Qed.

(** One step of path halving. *)
Lemma halve_roots parent i p g :
  forest parent -> parent !! i = Some p -> p <> i -> parent !! p = Some g ->
  forall j r, rooted parent j r -> rooted (<[i:=g]> parent) j r.
Proof.
  intros F Hi Hne Hp. pose proof (F _ _ Hi). pose proof (F _ _ Hp). pose proof (lookup_lt_Some _ _ _ Hi).
  induction 1 as [j Hj|j q r Hj Hjq Hq IH].
  - constructor. by rewrite list_lookup_insert_ne by congruence.
  - destruct (decide (j = i)) as [->|Hji]; [|eapply rooted_step; [by rewrite list_lookup_insert_ne|done..]].
    assert (q = p) as -> by congruence.
    apply (rooted_step _ i g); [by apply list_lookup_insert_eq|lia|].
    inversion IH as [? Hpp|? q' ? Hpq Hne' IH']; subst; rewrite list_lookup_insert_ne in * by lia; simplify_eq; [done|done].
Qed.

Lemma find_loop_spec fuel parent i :
  forest parent -> i < length parent -> i < fuel ->
  exists r parent', find_loop fuel parent i = Ok (r, parent') /\ forest parent' /\
    length parent' = length parent /\ rooted parent i r /\
    forall j r, rooted parent' j r <-> rooted parent j r.
Proof.
  revert parent i. induction fuel as [|fuel IH]; intros parent i F Hi Hf; [lia|].
  destruct (lookup_lt_is_Some_2 parent i Hi) as [p Hp]. simpl. unfold getitem at 1. rewrite Hp. simpl.
  destruct (p =? i) eqn:E; [apply Nat.eqb_eq in E as ->|apply Nat.eqb_neq in E].
  { exists i, parent. split_and!; [done..|by constructor|done]. }
  pose proof (F _ _ Hp). destruct (lookup_lt_is_Some_2 parent p) as [g Hg]; [lia|].
  unfold getitem. rewrite Hg. simpl. pose proof (F _ _ Hg).
  assert (forall j r, rooted (<[i:=g]> parent) j r <-> rooted parent j r) as Hroots.
  { apply roots_eq; [done|by rewrite length_insert|by apply (halve_roots parent i p g)]. }
  destruct (IH (<[i:=g]> parent) g) as (r & parent' & Hfind & F' & L & Hr & Hr'); [|rewrite length_insert; lia|lia|].
  { apply forest_insert; [done|lia]. }
  exists r, parent'. rewrite length_insert in L. split_and!; [done..| |intros; by rewrite Hr'].
  apply Hroots in Hr. apply (rooted_step _ i p); [done..|].
  destruct (decide (g = p)) as [->|Hgp]; [done|]. by apply (rooted_step _ p g).
Qed.

Lemma find_spec parent i :
  forest parent -> i < length parent ->
  exists r parent', find parent i = Ok (r, parent') /\ forest parent' /\ length parent' = length parent /\
    rooted parent i r /\ forall j r, rooted parent' j r <-> rooted parent j r.
Proof. intros F Hi. apply find_loop_spec; [done..|lia]. Qed.

(** ** Classes *)

Definition linked parent (i j : nat) : Prop := exists r, rooted parent i r /\ rooted parent j r.

Lemma linked_refl parent i : forest parent -> i < length parent -> linked parent i i.
Proof. intros F Hi. destruct (rooted_total parent i F Hi) as [r Hr]. by exists r. Qed.
Lemma linked_sym parent i j : linked parent i j -> linked parent j i.
Proof. intros (r & ? & ?). by exists r. Qed.
Lemma linked_trans parent i j k : linked parent i j -> linked parent j k -> linked parent i k.
Proof. intros (r & Hi & Hj) (r' & Hj' & Hk). exists r. by rewrite (rooted_det _ _ _ _ Hj Hj') in *. Qed.

(** Hanging the root [hi] below the root [lo]. *)
Lemma hang_roots parent hi lo :
  parent !! hi = Some hi -> parent !! lo = Some lo -> lo < hi ->
  forall i r, rooted parent i r -> rooted (<[hi:=lo]> parent) i (if decide (r = hi) then lo else r).
Proof.
  intros Hh Hl Hlt. pose proof (lookup_lt_Some _ _ _ Hh).
  induction 1 as [i Hi|i p r Hi Hne Hp IH].
  - case_decide as Hd.
    + subst. apply (rooted_step _ hi lo); [by apply list_lookup_insert_eq|lia|].
      constructor. by rewrite list_lookup_insert_ne by lia.
    + constructor. by rewrite list_lookup_insert_ne by done.
  - apply (rooted_step _ i p); [|done..]. rewrite list_lookup_insert_ne; [done|]. congruence.
Qed.

Lemma union_spec parent i j :
  forest parent -> i < length parent -> j < length parent ->
  exists parent', union parent i j = Ok parent' /\ forest parent' /\ length parent' = length parent /\
    forall a b, linked parent' a b <->
      linked parent a b \/ (linked parent a i /\ linked parent j b) \/ (linked parent a j /\ linked parent i b).
Proof.
  intros F Hi Hj. unfold union.
  destruct (find_spec parent i F Hi) as (ri & p1 & -> & F1 & L1 & Hri & H1). simpl.
  destruct (find_spec p1 j F1) as (rj & p2 & -> & F2 & L2 & Hrj & H2); [lia|]. simpl. apply H1 in Hrj.
  assert (forall a r, rooted p2 a r <-> rooted parent a r) as H12 by (intros; by rewrite H2, H1).
  assert (forall a b, linked p2 a b <-> linked parent a b) as L12.
  { intros a b. unfold linked. by setoid_rewrite H12. }
  assert (linked parent i i) as Lii by (by exists ri). assert (linked parent j j) as Ljj by (by exists rj).
  destruct (ri =? rj) eqn:E; [apply Nat.eqb_eq in E as <-|apply Nat.eqb_neq in E].
  { exists p2. split_and!; [done..|lia|]. intros a b. rewrite L12. split; [by left|].
    assert (linked parent i j) as Hij by (by exists ri).
    intros [?|[[Ha Hb]|[Ha Hb]]]; [done| |].
    - by apply linked_trans with i, linked_trans with j.
    - by apply linked_trans with j, linked_trans with i; [|apply linked_sym|]. }
  set (hi := ri `max` rj). set (lo := ri `min` rj).
  assert (p2 !! hi = Some hi /\ p2 !! lo = Some lo) as [Hhi Hlo].
  { destruct (rooted_lt p2 i ri) as [_ R1], (rooted_lt p2 j rj) as [_ R2]; [by apply H12..|].
    unfold hi, lo. destruct (Nat.max_spec ri rj) as [[_ ->]|[_ ->]], (Nat.min_spec ri rj) as [[_ ->]|[_ ->]]; done. }
  assert (lo < hi) as Hlt by lia. exists (<[hi:=lo]> p2). split_and!; [done|apply forest_insert; [done|lia]| |].
  { rewrite length_insert. lia. }
  set (f r := if decide (r = hi) then lo else r).
  assert (forall a r, rooted p2 a r -> rooted (<[hi:=lo]> p2) a (f r)) as Hf by (by apply hang_roots).
  assert (forall r r', f r = f r' <-> r = r' \/ (r = ri /\ r' = rj) \/ (r = rj /\ r' = ri)) as Hff.
  { intros r r'. unfold f. repeat case_decide; lia. }
  intros a b. split.
  - intros (r & Ha & Hb). destruct (rooted_lt _ _ _ Ha) as [Ia _], (rooted_lt _ _ _ Hb) as [Ib _].
    rewrite length_insert in Ia, Ib.
    destruct (rooted_total p2 a F2 Ia) as [ra Hra], (rooted_total p2 b F2 Ib) as [rb Hrb].
    pose proof (rooted_det _ _ _ _ Ha (Hf _ _ Hra)). pose proof (rooted_det _ _ _ _ Hb (Hf _ _ Hrb)).
    assert (f ra = f rb) as Hab by congruence. apply H12 in Hra, Hrb.
    apply Hff in Hab as [->|[[-> ->]|[-> ->]]]; [left; by exists rb|right; left|right; right].
    + split; [by exists ri|by exists rj].
    + split; [by exists rj|by exists ri].
  - assert (forall a b ra rb, rooted parent a ra -> rooted parent b rb -> f ra = f rb -> linked (<[hi:=lo]> p2) a b)
      as Hl.
    { intros a' b' ra rb Ha%H12%Hf Hb%H12%Hf Eab. exists (f ra). split; [done|by rewrite Eab]. }
    intros [(r & Ha & Hb)|[[(r & Ha & Hi') (r' & Hj' & Hb)]|[(r & Ha & Hj') (r' & Hi' & Hb)]]].
    + by apply (Hl a b r r).
    + apply (Hl a b r r'); [done..|]. apply Hff. right; left.
      split; [exact (rooted_det _ _ _ _ Hi' Hri)|exact (rooted_det _ _ _ _ Hj' Hrj)].
    + apply (Hl a b r r'); [done..|]. apply Hff. right; right.
      split; [exact (rooted_det _ _ _ _ Hj' Hrj)|exact (rooted_det _ _ _ _ Hi' Hri)].
Qed.
End forests.

(** * What the routing rules decide

    The connectivity of the copper of a net against chains of touching copper,
    and the redundant copper of two tracks against their common points. *)

Import RoutingConnectivityValidator.
(** ** Contact *)

(** Two primitives have copper in common. *)
Definition contact (p q : CopperPrimitive.t) : Prop :=
  share_layer p q /\ exists z, copper p z /\ copper q z.

Lemma touches_spec p q :
  well_shaped p -> well_shaped q -> exists b, touches p q = Ok b /\ (b = true <-> contact p q).
Proof.
  intros Wp Wq. unfold touches, contact.
  destruct (bool_decide _) eqn:E.
  { exists false. split; [done|]. apply bool_decide_eq_true, shared_layers_nil in E. split; [done|tauto]. }
  apply bool_decide_eq_false, shared_layers_some in E.
  destruct (distance_squared_least p q (proj1 Wp) (proj1 Wq)) as (d & -> & Hd). simpl.
  eexists. split; [done|]. rewrite Qle_bool_iff, <- (copper_meets d p q Wp Wq Hd). tauto.
Qed.

(** ** Joining *)

Lemma lookup_numbered {A} (l : list A) k ix :
  imap pair l !! k = Some ix <-> ix.1 = k /\ l !! k = Some ix.2.
Proof.
  rewrite list_lookup_imap. destruct ix as [i x], (l !! k) as [y|]; simpl; [|naive_solver].
  split; [by intros [= -> ->]|by intros [-> [= ->]]].
Qed.

Section joining.
Variable ps : list CopperPrimitive.t.
Hypothesis ps_shaped : forall p, p ∈ ps -> well_shaped p.

(** The primitives with these places in the list touch. *)
Definition touching (i j : nat) : Prop := exists p q, ps !! i = Some p /\ ps !! j = Some q /\ contact p q.

(** Pairs of numbered primitives of the list. *)
Definition numbered (ip : nat * CopperPrimitive.t) : Prop := ps !! ip.1 = Some ip.2.

Lemma numbered_shaped i p : numbered (i, p) -> i < length ps /\ well_shaped p.
Proof.
  unfold numbered. simpl. intros H. split; [by eapply lookup_lt_Some|].
  eapply ps_shaped, list_elem_of_lookup_2, H.
Qed.

Lemma join_fold l parent :
  (forall x y, (x, y) ∈ l -> numbered x /\ numbered y) -> forest parent -> length parent = length ps ->
  exists parent', foldM join_pair parent l = Ok parent' /\ forest parent' /\ length parent' = length ps /\
    (forall a b, linked parent a b -> linked parent' a b) /\
    (forall i p j q, ((i, p), (j, q)) ∈ l -> contact p q -> linked parent' i j) /\
    (forall R : relation nat, Equivalence R -> (forall a b, linked parent a b -> R a b) ->
      (forall i p j q, ((i, p), (j, q)) ∈ l -> contact p q -> R i j) ->
      forall a b, linked parent' a b -> R a b).
Proof.
  revert parent. induction l as [|[[i p] [j q]] l IH]; intros parent Hl F L.
  { exists parent. simpl. split_and!; [done..| |auto]. by intros ????? %not_elem_of_nil. }
  destruct (Hl (i, p) (j, q)) as [[Hi Wp]%numbered_shaped [Hj Wq]%numbered_shaped]; [by left|].
  simpl. destruct (touches_spec p q Wp Wq) as (b & -> & Hb). simpl.
  assert (exists parent1, (if b then DisjointSet.union parent i j else Ok parent) = Ok parent1 /\
    forest parent1 /\ length parent1 = length ps /\ (forall a b, linked parent a b -> linked parent1 a b) /\
    (contact p q -> linked parent1 i j) /\
    (forall R : relation nat, Equivalence R -> (forall a b, linked parent a b -> R a b) ->
      (contact p q -> R i j) -> forall a b, linked parent1 a b -> R a b))
    as (parent1 & -> & F1 & L1 & M1 & C1 & R1).
  { destruct b.
    - destruct (union_spec parent i j F) as (parent1 & -> & F1 & L1 & U); [lia|lia|].
      exists parent1. split_and!; [done|done|lia|intros; apply U; tauto| |].
      + intros _. apply U. right; left. split; apply linked_refl; done || lia.
      + intros R HR Hlinked Hij a b' [H|[[Ha Hb']|[Ha Hb']]]%U; [by apply Hlinked| |].
        * transitivity i; [by apply Hlinked|]. transitivity j; [|by apply Hlinked]. by apply Hij, Hb.
        * transitivity j; [by apply Hlinked|]. transitivity i; [|by apply Hlinked]. symmetry. by apply Hij, Hb.
    - exists parent. split_and!; [done..| |auto]. intros ?%Hb. done. }
  simpl. destruct (IH parent1) as (parent' & Hfold & F' & L' & M' & C' & R'); [|done..|].
  { intros x y Hxy. apply Hl. by right. }
  exists parent'. split_and!; [done..|auto| |].
  - intros i' p' j' q' [[= -> -> -> ->]|Hin]%elem_of_cons Hc; [by apply M', C1|by eapply C'].
  - intros R HR Hlinked Hc. apply R'; [done| |].
    + apply R1; [done..|]. intros ?. eapply Hc; [by left|done].
    + intros i' p' j' q' Hin. apply Hc. by right.
Qed.

Lemma linked_init n a b : linked (DisjointSet.init n) a b -> a = b.
Proof.
  assert (forall i r, rooted (DisjointSet.init n) i r -> i = r) as H.
  { induction 1 as [|i p r H Hne]; [done|]. apply lookup_seq in H. lia. }
  intros (r & <-%H & <-%H). done.
Qed.

Lemma join_touching_spec :
  exists parent, join_touching ps = Ok parent /\ forest parent /\ length parent = length ps /\
    forall i j, linked parent i j <-> i < length ps /\ j < length ps /\ rtsc touching i j.
Proof.
  unfold join_touching.
  destruct (join_fold (pairs (imap pair ps)) (DisjointSet.init (length ps)))
    as (parent & -> & F & L & _ & Hc & HR).
  { intros x y (i & j & _ & [<- ?]%lookup_numbered & [<- ?]%lookup_numbered)%elem_of_pairs. done. }
  { apply forest_init. }
  { apply length_seq. }
  exists parent. split_and!; [done..|]. intros i j. split.
  - intros H. split_and!.
    + destruct H as (r & H & _). apply rooted_lt in H. lia.
    + destruct H as (r & _ & H). apply rooted_lt in H. lia.
    + apply (HR (rtsc touching)); [apply _|intros a b H'; by rewrite (linked_init _ a b H')| |done].
      intros i' p j' q (k & m & _ & [? ?]%lookup_numbered & [? ?]%lookup_numbered)%elem_of_pairs Hpq.
      simpl in *. subst. apply rtsc_lr. by exists p, q.
  - intros (Hi & Hj & H). clear Hj. assert (linked parent i i) as Hii by (apply linked_refl; [done|lia]).
    induction H as [|i k j Hik _ IH]; [done|].
    assert (forall a b, a < b -> touching a b -> linked parent a b) as Hlt.
    { intros a b Hab (p & q & Hp & Hq & Hpq). eapply Hc; [|done]. apply elem_of_pairs.
      exists a, b. split_and!; [done|by apply lookup_numbered..]. }
    assert (forall a b, a < length ps -> touching a b -> linked parent a b /\ b < length ps) as Hall.
    { intros a b Ha Hab. assert (b < length ps) as Hb by (destruct Hab as (? & ? & _ & ? & _); by eapply lookup_lt_Some).
      split; [|done]. destruct (Nat.lt_trichotomy a b) as [?|[->|?]]; [by apply Hlt|apply linked_refl; [done|lia]|].
      apply linked_sym, Hlt; [done|]. destruct Hab as (p & q & ? & ? & [(l & ? & ?) (z & ? & ?)]).
      exists q, p. split_and!; [done..|]. split; [by exists l|by exists z]. }
    assert (linked parent i k /\ k < length ps) as [Hl Hk].
    { destruct Hik as [Hik|Hik]; [by apply Hall|]. assert (k < length ps) as Hk.
      { destruct Hik as (? & ? & ? & _). by eapply lookup_lt_Some. }
      split; [|done]. by apply linked_sym, Hall. }
    apply linked_trans with k; [done|]. apply IH; [done|]. apply linked_refl; [done|lia].
Qed.

(** ** The groups *)

Lemma add_member_keys root id groups r : r ∈ (add_member root id groups).*1 <-> r = root \/ r ∈ groups.*1.
Proof.
  induction groups as [|[r' ids] groups IH]; simpl; [set_solver|].
  destruct (Nat.eqb_spec r' root) as [->|]; simpl; [set_solver|]. rewrite elem_of_cons, IH. set_solver.
Qed.

Lemma collect_fold (l : list (nat * CopperPrimitive.t)) parent groups pads :
  (forall x, x ∈ l -> x.1 < length parent) -> forest parent ->
  exists parent' groups' pads', foldM collect (parent, groups, pads) l = Ok (parent', groups', pads') /\
    (forall r, r ∈ groups'.*1 <-> r ∈ groups.*1 \/ exists x, x ∈ l /\ rooted parent x.1 r) /\
    (forall r, r ∈ pads' <-> r ∈ pads \/ exists x, x ∈ l /\ is_pad x.2 = true /\ rooted parent x.1 r).
Proof.
  revert parent groups pads. induction l as [|[i p] l IH]; intros parent groups pads Hl F.
  { exists parent, groups, pads. simpl. split_and!; [done|..]; intros r; split; [by left| |by left|];
      (intros [?|(x & Hx & _)]; [done|by apply not_elem_of_nil in Hx]). }
  simpl. destruct (find_spec parent i F) as (root & parent1 & -> & F1 & L1 & Hr & Hroots).
  { apply (Hl (i, p)). by left. }
  simpl. destruct (IH parent1 (add_member root (CopperPrimitive.primitive_id p) groups)
    (if is_pad p then {[root]} ∪ pads else pads)) as (parent' & groups' & pads' & -> & HG & HP); [|done|].
  { intros x Hx. rewrite L1. apply Hl. by right. }
  exists parent', groups', pads'.
  assert (forall r, rooted parent i r <-> r = root) as Hi.
  { intros r. split; [intros H; by eapply rooted_det|by intros ->]. }
  split_and!; [done|..]; intros r; [rewrite HG, add_member_keys|rewrite HP];
    setoid_rewrite elem_of_cons; setoid_rewrite Hroots.
  - split.
    + intros [[->|?]|(x & ? & ?)]; [right; exists (i, p); auto|by left|right; exists x; auto].
    + intros [?|(x & [->|?] & Hx)]; [auto|apply Hi in Hx; auto|right; exists x; auto].
  - split.
    + intros [Hin|(x & ? & ?)]; [|right; exists x; tauto]. destruct (is_pad p) eqn:Ep; [|by left].
      apply elem_of_union in Hin as [->%elem_of_singleton|?]; [|by left]. right. exists (i, p). auto.
    + intros [?|(x & [->|?] & Hpad & Hx)]; [left; destruct (is_pad p); set_solver| |right; exists x; auto].
      simpl in Hpad. rewrite Hpad. apply Hi in Hx as ->. left. set_solver.
Qed.

(** The copper is one component with a pad. *)
Definition one_component : Prop :=
  (exists p, p ∈ ps /\ is_pad p = true) /\
  forall i j, i < length ps -> j < length ps -> rtsc touching i j.

Lemma orphans_nil (groups : list (nat * list string)) (pads : gset nat) :
  (filter (fun group : nat * string => group.1 ∉ pads)
    (sorted_on snd ((fun group => (group.1, joined group.2)) <$> groups))).*2 = [] <->
  forall r, r ∈ groups.*1 -> r ∈ pads.
Proof.
  match goal with |- ?l.*2 = [] <-> _ => assert (l.*2 = [] <-> l = []) as -> by (by destruct l) end.
  rewrite filter_nil_iff. setoid_rewrite elem_of_sorted_on. split.
  - intros H r (g & -> & Hg)%list_elem_of_fmap. apply dec_stable.
    apply (H (g.1, joined g.2)), list_elem_of_fmap. by exists g.
  - intros H x (g & -> & Hg)%list_elem_of_fmap Hn. apply Hn, H, list_elem_of_fmap. by exists g.
Qed.

Lemma connected_groups_spec :
  ps <> [] ->
  exists normalized pads orphans, connected_groups ps = Ok (normalized, pads, orphans) /\
    ((size pads <= 1 /\ orphans = []) <-> one_component).
Proof.
  intros Hne. unfold connected_groups.
  destruct join_touching_spec as (parent & -> & F & L & Hlinked). simpl.
  destruct (collect_fold (imap pair ps) parent [] ∅) as (parent' & groups & pads & -> & HG & HP); [|done|].
  { intros x [k [<- Hx]%lookup_numbered]%list_elem_of_lookup. rewrite L. by eapply lookup_lt_Some. }
  simpl. eexists _, _, _. split; [done|]. rewrite orphans_nil.
  assert (forall r, r ∈ groups.*1 <-> exists i, i < length ps /\ rooted parent i r) as HG'.
  { intros r. rewrite HG. split.
    - intros [?%not_elem_of_nil|(x & [k [Hk Hx]%lookup_numbered]%list_elem_of_lookup & Hr)]; [done|].
      exists k. subst k. split; [by eapply lookup_lt_Some|done].
    - intros (i & [p Hp]%lookup_lt_is_Some_2 & Hr). right. exists (i, p). split; [|done].
      apply (list_elem_of_lookup_2 _ i). by apply lookup_numbered. }
  assert (forall r, r ∈ pads <-> exists i p, ps !! i = Some p /\ is_pad p = true /\ rooted parent i r) as HP'.
  { intros r. rewrite HP. split.
    - intros [?%not_elem_of_empty|(x & [k [Hk Hx]%lookup_numbered]%list_elem_of_lookup & Hpad & Hr)]; [done|].
      exists k, x.2. by subst k.
    - intros (i & p & Hp & Hpad & Hr). right. exists (i, p). split; [|done].
      apply (list_elem_of_lookup_2 _ i). by apply lookup_numbered. }
  assert (0 < length ps) as Hlen by (destruct ps; [done|simpl; lia]). split.
  - intros [Hsize Horph].
    destruct (rooted_total parent 0 F) as [r0 Hr0]; [lia|].
    assert (r0 ∈ pads) as Hin by (apply Horph, HG'; by exists 0).
    assert (forall r, r ∈ pads -> r = r0) as Huniq.
    { intros r Hr. apply (size_singleton_inv pads); [|done..].
      assert (size pads <> 0) by (intros H0%size_empty_inv; set_solver). lia. }
    split.
    + apply HP' in Hin as (i & p & Hp & Hpad & _). exists p. split; [by eapply list_elem_of_lookup_2|done].
    + intros i j Hi Hj. apply Hlinked.
      destruct (rooted_total parent i F) as [ri Hri]; [lia|]. destruct (rooted_total parent j F) as [rj Hrj]; [lia|].
      assert (ri = r0) as -> by (apply Huniq, Horph, HG'; by exists i).
      assert (rj = r0) as -> by (apply Huniq, Horph, HG'; by exists j). by exists r0.
  - intros [(p & [k Hk]%list_elem_of_lookup & Hpad) Hall].
    assert (forall i j ri rj, i < length ps -> j < length ps -> rooted parent i ri -> rooted parent j rj -> ri = rj)
      as Hsame.
    { intros i j ri rj Hi Hj Hri Hrj. destruct (proj2 (Hlinked i j)) as (r & H1 & H2); [by auto|].
      by rewrite (rooted_det _ _ _ _ Hri H1), (rooted_det _ _ _ _ Hrj H2). }
    assert (k < length ps) as Hk' by (by eapply lookup_lt_Some).
    destruct (rooted_total parent k F) as [rk Hrk]; [lia|]. split.
    + transitivity (size ({[rk]} : gset nat)); [|by rewrite size_singleton]. apply subseteq_size.
      intros r (i & q & Hq & _ & Hr)%HP'. apply elem_of_singleton.
      apply (Hsame i k); [by eapply lookup_lt_Some|done..].
    + intros r (i & Hi & Hr)%HG'. apply HP'. exists k, p. split_and!; [done..|].
      by rewrite (Hsame i k r rk).
Qed.
End joining.

(** The copper of a net. *)
Definition net_copper (board : BoardGraph.t) (net : Net.t) : list CopperPrimitive.t :=
  filter (fun item => CopperPrimitive.net_id item = Net.net_id net) (copper_primitives board).

Lemma net_copper_shaped board net p : p ∈ net_copper board net -> well_shaped p.
Proof. intros [_ Hp]%list_elem_of_filter. by apply (copper_primitives_well_shaped board). Qed.

Lemma net_findings_spec board net :
  exists l, net_findings (copper_primitives board) net = Ok l /\
    (l = [] <-> (net_copper board net = [] /\ Net.connections net = []) \/
                (net_copper board net <> [] /\ one_component (net_copper board net))).
Proof.
  unfold net_findings. fold (net_copper board net).
  destruct (decide (net_copper board net = [])) as [E|Hne].
  - rewrite E. eexists. split; [done|]. destruct (Net.connections net); naive_solver.
  - destruct (connected_groups_spec (net_copper board net) (net_copper_shaped board net) Hne)
      as (normalized & pads & orphans & Hc & Hspec).
    assert (exists l, (let* '(normalized_groups, pad_roots, orphan_groups) := connected_groups (net_copper board net) in
      Ok (if (1 <? size pad_roots) || negb (bool_decide (orphan_groups = [])) then
            [report ("Net " +:+ Net.name net +:+ " is not one connected copper component")
               [EntityRef.mk "net" (Net.net_id net)]
               [ev_strs "connected_groups" normalized_groups;
                ev_int "pad_group_count" (Z.of_nat (size pad_roots));
                ev_strs "orphan_groups" orphan_groups]]
          else [])) = Ok l /\ (l = [] <-> one_component (net_copper board net))) as (l & Hl & Hiff).
    { rewrite Hc. simpl. eexists. split; [done|]. rewrite <- Hspec.
      destruct (1 <? size pads) eqn:E1; simpl; [apply Nat.ltb_lt in E1; split; [done|lia]|].
      apply Nat.ltb_ge in E1. case_bool_decide; simpl; [by split|]. split; [done|by intros [_ ?]]. }
    exists l. split; [|rewrite Hiff; tauto]. rewrite <- Hl. by destruct (net_copper board net).
Qed.

(** C6. The connectivity rule decides connectivity: it always returns, and it
    reports nothing exactly when each net either has neither copper nor
    connections, or has a pad and any two of its pieces of copper are joined
    by a chain of pieces, each sharing a layer and a point of copper with the
    next. *)
Theorem connectivity_rule_decides board context :
  exists l, RoutingConnectivityRule.evaluate board context = Ok l /\
    (l = [] <-> forall net, net ∈ BoardGraph.nets board ->
      (net_copper board net = [] /\ Net.connections net = []) \/
      (net_copper board net <> [] /\ one_component (net_copper board net))).
Proof.
  destruct (concatM_spec (net_findings (copper_primitives board)) (BoardGraph.nets board)) as (l & Hl & Hnil).
  { intros net _. destruct (net_findings_spec board net) as (l & Hl & _). by exists l. }
  exists l. split; [exact Hl|]. rewrite Hnil. split; intros H net Hnet; specialize (H net Hnet);
    destruct (net_findings_spec board net) as (l' & Hl' & Hiff).
  - apply Hiff. congruence.
  - rewrite Hl'. f_equal. by apply Hiff.
Qed.
