(* ===== verification/OverlapFacts.v ===== *)
(** * Redundant copper of two tracks

    On a line the order of points is the order of their parameters, so the
    overlap that the code computes from end points is the set of common
    points. *)
From Stdlib Require Import QArith Qfield Lqa.
From S2P Require Import Prelude Geometry GeometryFacts Board RoutingRules.

Local Open Scope Q_scope.

(** ** The lexicographic order on a line *)

Section lines.
Import ExactPoint.
Implicit Types a b c d p q : t.

Definition lex_le p q : Prop := x p < x q \/ (x p == x q /\ y p <= y q).

(** [a] comes strictly before [b]. *)
Definition before a b : Prop := x a < x b \/ (x a == x b /\ y a < y b).

Lemma before_along a b s t : before a b -> lex_le (along a b s) (along a b t) <-> s <= t.
Proof.
  unfold before, lex_le, along. simpl. intros [H|[E H]].
  - split; [|intros; destruct (Qle_lt_or_eq s t) as [Hlt|Heq]; [done|left; nra|right; rewrite Heq; split; lra]].
    intros [Hlt|[Heq _]]; apply Qnot_lt_le; intros Hts; nra.
  - rewrite E. split; [|intros; right; split; [ring|nra]].
    intros [Hlt|[_ Hle]]; [nra|]. apply Qnot_lt_le. intros Hts. nra.
Qed.

Lemma along_inj a b s t : before a b -> same (along a b s) (along a b t) -> s == t.
Proof.
  unfold before, same, along. simpl. intros [H|[_ H]] [Hx Hy].
  - assert ((x b - x a) * (s - t) == 0) as E%cancel by lra; lra.
  - assert ((y b - y a) * (s - t) == 0) as E%cancel by lra; lra.
Qed.

Lemma same_sym p q : same p q -> same q p.
Proof. by intros [Hx Hy]; split; symmetry. Qed.
Lemma same_trans p q r : same p q -> same q r -> same p r.
Proof. intros [Hx Hy] [Hx' Hy']. split; lra. Qed.

Lemma along_same a a' b b' s : same a a' -> same b b' -> same (along a b s) (along a' b' s).
Proof. unfold same, along. simpl. intros [Hx Hy] [Hx' Hy'].
  by rewrite Hx, Hy, Hx', Hy'.
Qed.

Lemma on_segment_ends p a a' b b' : same a a' -> same b b' -> on_segment p a b -> on_segment p a' b'.
Proof.
  intros Ha Hb (s & ? & ? & Hs). exists s. split_and!; [done..|].
  by apply (same_trans _ _ _ Hs), along_same.
Qed.

(** A part of a segment. *)
Lemma on_part p a b g h :
  g <= h -> on_segment p (along a b g) (along a b h) <-> exists s, g <= s /\ s <= h /\ same p (along a b s).
Proof.
  intros Hgh. split.
  - intros (r & Hr0 & Hr1 & Hx & Hy). exists (g + r * (h - g)). split_and!; [nra|nra|].
    unfold same, along in *. simpl in *. rewrite Hx, Hy. split; ring.
  - intros (s & Hg & Hh & Hs). destruct (Qeq_dec (h - g) 0) as [E|E].
    + exists 0. split_and!; [lra|lra|]. apply (same_trans _ _ _ Hs). assert (s == g) as Es by lra.
      unfold same, along. simpl. rewrite Es. split; ring.
    + destruct (ratio (s - g) (h - g) E) as (r & Hr0 & Hr1 & Er); [left; lra|].
      exists r. split_and!; [done..|]. apply (same_trans _ _ _ Hs). assert (s == g + r * (h - g)) as Es by lra.
      unfold same, along. simpl. rewrite Es. split; ring.
Qed.

(** A point on the line has a parameter. *)
Lemma on_line a b c : before a b -> exact_cross a b c == 0 -> exists g, same c (along a b g).
Proof.
  unfold exact_cross. intros Hab Hc.
  destruct (parallel (x b - x a) (y b - y a) (x c - x a) (y c - y a)) as [[H1 H2]|(m & H1 & H2)]; [lra| |].
  - destruct Hab; lra.
  - exists m. unfold same, along. simpl. split; lra.
Qed.

(** Segments that are not on one line have at most one common point. *)
Lemma crossing_unique a b c d p q :
  ~ (exact_cross a b c == 0 /\ exact_cross a b d == 0) ->
  on_segment p a b -> on_segment p c d -> on_segment q a b -> on_segment q c d -> same p q.
Proof.
  intros Hne (s1 & _ & _ & Hs1) (t1 & _ & _ & Ht1) (s2 & _ & _ & Hs2) (t2 & _ & _ & Ht2).
  pose proof (same_trans _ _ _ (same_sym _ _ Hs1) Ht1) as H1.
  pose proof (same_trans _ _ _ (same_sym _ _ Hs2) Ht2) as H2.
  destruct (crosses a b c d s1 t1 H1) as (C1 & D1 & _). destruct (crosses a b c d s2 t2 H2) as (C2 & _ & _).
  set (k := (x b - x a) * (y d - y c) - (y b - y a) * (x d - x c)) in *.
  destruct (Qeq_dec k 0) as [E|E].
  - destruct Hne. rewrite C1, D1, E. split; ring.
  - assert (k * (t1 - t2) == 0) as Et%cancel by lra; [|done].
    apply (same_trans _ _ _ Ht1), same_sym, (same_trans _ _ _ Ht2).
    unfold same, along. simpl. assert (t1 == t2) as -> by lra. done.
Qed.

(** The common points of two parts of a line. *)
Lemma common_part a b p g h :
  before a b -> g <= h ->
  (on_segment p a b /\ on_segment p (along a b g) (along a b h)) <->
  exists s, qmax 0 g <= s /\ s <= qmin 1 h /\ same p (along a b s).
Proof.
  intros Hab Hgh. rewrite on_part by done. split.
  - intros [(s & Hs0 & Hs1 & Hs) (s' & Hg & Hh & Hs')].
    assert (s == s') as E by (apply (along_inj a b); [done|]; by apply (same_trans _ _ _ (same_sym _ _ Hs))).
    exists s. split_and!; [| |done].
    + destruct (qmax_spec 0 g) as [[-> _]|[-> _]]; lra.
    + destruct (qmin_spec 1 h) as [[-> _]|[-> _]]; lra.
  - intros (s & Hlo & Hhi & Hs).
    assert (0 <= s /\ g <= s) as [] by (destruct (qmax_spec 0 g) as [[E ?]|[E ?]]; rewrite E in Hlo; lra).
    destruct (qmin_le 1 h). split; exists s; split_and!; done || lra.
Qed.
End lines.

(** ** Points of the board *)

Lemma py_le_exact (a b : PointNm.t) : py_le a b = true <-> lex_le (exact_point a) (exact_point b).
Proof.
  unfold py_le at 1, py_ord_point. rewrite py_le_pair. unfold py_le, py_ord_Z, lex_le, exact_point. simpl.
  rewrite <- Zlt_Qlt, <- Zle_Qle, inject_Z_injective. lia.
Qed.
Lemma py_lt_exact (a b : PointNm.t) : py_lt a b = true <-> before (exact_point a) (exact_point b).
Proof.
  unfold py_lt. rewrite negb_true_iff. unfold py_le, py_ord_point. unfold before, exact_point. simpl.
  rewrite <- !Zlt_Qlt, inject_Z_injective.
  unfold py_le, py_ord_prod, py_le, py_ord_Z. simpl. lia.
Qed.
Lemma cross_exact' a b c : exact_cross (exact_point a) (exact_point b) (exact_point c) = inject_Z (cross a b c).
Proof. apply cross_exact. Qed.

Lemma lex_le_same p p' q q' : same p p' -> same q q' -> lex_le p q -> lex_le p' q'.
Proof. unfold same, lex_le. intros [H1 H2] [H3 H4]. by rewrite H1, H2, H3, H4. Qed.

(** Points of the board with the parameters [s] and [t] on a line are ordered as these. *)
Lemma py_le_params a b p q s t :
  before a b -> same (exact_point p) (along a b s) -> same (exact_point q) (along a b t) ->
  py_le p q = true <-> s <= t.
Proof.
  intros Hab Hp Hq. rewrite py_le_exact, <- (before_along a b s t Hab).
  split; apply lex_le_same; done || by apply same_sym.
Qed.

Lemma py_max_param a b p q s t :
  before a b -> same (exact_point p) (along a b s) -> same (exact_point q) (along a b t) ->
  same (exact_point (py_max p q)) (along a b (qmax s t)).
Proof.
  intros Hab Hp Hq. unfold py_max, qmax, py_lt, qlt.
  assert (py_le q p = Qle_bool t s) as ->; [|by destruct (Qle_bool t s)].
  apply eq_iff_eq_true. by rewrite (py_le_params a b q p t s), Qle_bool_iff.
Qed.

Lemma py_min_param a b p q s t :
  before a b -> same (exact_point p) (along a b s) -> same (exact_point q) (along a b t) ->
  same (exact_point (py_min p q)) (along a b (qmin s t)).
Proof.
  intros Hab Hp Hq. unfold py_min, qmin, py_lt, qlt.
  assert (py_le p q = Qle_bool s t) as ->; [|by destruct (Qle_bool s t)].
  apply eq_iff_eq_true. by rewrite (py_le_params a b p q s t), Qle_bool_iff.
Qed.

Lemma along_0 a b : same a (along a b 0).
Proof. unfold same, along. simpl. split; ring. Qed.
Lemma along_1 a b : same b (along a b 1).
Proof. unfold same, along. simpl. split; ring. Qed.

Lemma degenerate p q a : on_segment p a a -> on_segment q a a -> same p q.
Proof.
  intros (s & _ & _ & Hs) (t & _ & _ & Ht). apply (same_trans _ _ _ Hs), same_sym, (same_trans _ _ _ Ht).
  unfold same, along. simpl. split; ring.
Qed.

Lemma normalized_le t : py_le (Track.start (Track.normalized t)) (Track.end_ (Track.normalized t)) = true.
Proof.
  unfold Track.normalized, py_lt. destruct (py_le (Track.start t) (Track.end_ t)) eqn:E; simpl; [done|].
  by destruct (py_le_total (Track.start t) (Track.end_ t)); [congruence|].
Qed.

Lemma le_ne_lt (a b : PointNm.t) : py_le a b = true -> a <> b -> py_lt a b = true.
Proof.
  intros H Hne. unfold py_lt. apply negb_true_iff. destruct (py_le b a) eqn:E; [|done].
  destruct Hne. by apply py_le_antisym.
Qed.

(** The points of a track. *)
Definition centre_line (t : Track.t) (p : ExactPoint.t) : Prop :=
  on_segment p (exact_point (Track.start t)) (exact_point (Track.end_ t)).

(** The overlap of two collinear segments of the board. *)
Lemma collinear_overlap (a b c d : PointNm.t) :
  py_lt a b = true -> py_lt c d = true -> cross a b c = 0%Z -> cross a b d = 0%Z ->
  let s := py_max a c in
  let e := py_min b d in
  (py_le e s = true -> forall p q, on_segment p (exact_point a) (exact_point b) ->
    on_segment p (exact_point c) (exact_point d) -> on_segment q (exact_point a) (exact_point b) ->
    on_segment q (exact_point c) (exact_point d) -> same p q) /\
  (py_le e s = false -> forall p,
    (on_segment p (exact_point a) (exact_point b) /\ on_segment p (exact_point c) (exact_point d)) <->
    on_segment p (exact_point s) (exact_point e)).
Proof.
  intros Hab Hcd Hc Hd s e. apply py_lt_exact in Hab.
  destruct (on_line (exact_point a) (exact_point b) (exact_point c) Hab) as [g Hg]; [by rewrite cross_exact', Hc|].
  destruct (on_line (exact_point a) (exact_point b) (exact_point d) Hab) as [h Hh]; [by rewrite cross_exact', Hd|].
  set (A := exact_point a) in *. set (B := exact_point b) in *.
  assert (g <= h) as Hgh.
  { apply (py_le_params A B c d); [done..|]. apply negb_true_iff in Hcd.
    destruct (py_le_total c d) as [|H]; [done|congruence]. }
  assert (same (exact_point s) (along A B (qmax 0 g))) as Hs by (apply py_max_param; [done|apply along_0|done]).
  assert (same (exact_point e) (along A B (qmin 1 h))) as He by (apply py_min_param; [done|apply along_1|done]).
  assert (forall p, (on_segment p A B /\ on_segment p (exact_point c) (exact_point d)) <->
    exists r, qmax 0 g <= r /\ r <= qmin 1 h /\ same p (along A B r)) as Hcommon.
  { intros p. rewrite <- (common_part A B p g h Hab Hgh).
    split; (intros [? H]; split; [done|]); revert H; apply on_segment_ends; done || by apply same_sym. }
  split.
  - intros Hle p q Hp1 Hp2 Hq1 Hq2. apply (py_le_params A B _ _ _ _ Hab He Hs) in Hle.
    destruct (proj1 (Hcommon p)) as (r & ? & ? & Hr); [done|]. destruct (proj1 (Hcommon q)) as (r' & ? & ? & Hr'); [done|].
    apply (same_trans _ _ _ Hr), same_sym, (same_trans _ _ _ Hr').
    assert (r' == r) as E by lra. unfold same, along. simpl. by rewrite E.
  - intros Hlt p. rewrite Hcommon.
    assert (qmax 0 g <= qmin 1 h) as Hle.
    { apply Qnot_lt_le. intros H. apply Qlt_le_weak, (py_le_params A B _ _ _ _ Hab He Hs) in H. congruence. }
    rewrite <- (on_part p A B _ _ Hle). split; apply on_segment_ends; done || by apply same_sym.
Qed.

(** Redundant copper is measured exactly: for two normalised tracks the
    overlap that is reported is the set of their common points, and it is
    reported exactly when the tracks are of one layer and one net and have
    more than one point in common. *)
Theorem overlap_is_exact first second :
  let t1 := Track.normalized first in
  let t2 := Track.normalized second in
  match positive_collinear_overlap t1 t2 with
  | Some (s, e, _) =>
    Track.layer t1 = Track.layer t2 /\ Track.net_id t1 = Track.net_id t2 /\ s <> e /\
    forall p, (centre_line t1 p /\ centre_line t2 p) <-> on_segment p (exact_point s) (exact_point e)
  | None =>
    Track.layer t1 <> Track.layer t2 \/ Track.net_id t1 <> Track.net_id t2 \/
    forall p q, centre_line t1 p -> centre_line t2 p -> centre_line t1 q -> centre_line t2 q -> same p q
  end.
Proof.
  intros t1 t2. unfold positive_collinear_overlap, centre_line.
  pose proof (normalized_le first) as L1. pose proof (normalized_le second) as L2. fold t1 in L1. fold t2 in L2.
  set (a := Track.start t1) in *. set (b := Track.end_ t1) in *.
  set (c := Track.start t2) in *. set (d := Track.end_ t2) in *.
  case_bool_decide as E1; simpl; [|by left]. case_bool_decide as E2; simpl; [|right; by left].
  destruct (bool_decide (a = b)) eqn:Eab; simpl.
  { apply bool_decide_eq_true in Eab as ->. right; right. intros p q Hp _ Hq _. by eapply degenerate. }
  destruct (bool_decide (c = d)) eqn:Ecd; simpl.
  { apply bool_decide_eq_true in Ecd as ->. right; right. intros p q _ Hp _ Hq. by eapply degenerate. }
  apply bool_decide_eq_false in Eab, Ecd.
  pose proof (le_ne_lt _ _ L1 Eab) as Hab. pose proof (le_ne_lt _ _ L2 Ecd) as Hcd.
  assert (forall p q, (cross a b c <> 0 \/ cross a b d <> 0)%Z -> on_segment p (exact_point a) (exact_point b) ->
    on_segment p (exact_point c) (exact_point d) -> on_segment q (exact_point a) (exact_point b) ->
    on_segment q (exact_point c) (exact_point d) -> same p q) as Hx.
  { intros p q Hne Hp1 Hp2 Hq1 Hq2. apply (crossing_unique _ _ _ _ p q) with (2 := Hp1) (3 := Hp2); [|done..].
    rewrite !cross_exact', !(inject_Z_injective _ 0). lia. }
  destruct (cross a b c =? 0)%Z eqn:Ec; simpl; [apply Z.eqb_eq in Ec|apply Z.eqb_neq in Ec; right; right; eauto].
  destruct (cross a b d =? 0)%Z eqn:Ed; simpl; [apply Z.eqb_eq in Ed|apply Z.eqb_neq in Ed; right; right; eauto].
  destruct (collinear_overlap a b c d Hab Hcd Ec Ed) as [Hnone Hsome].
  destruct (py_le (py_min b d) (py_max a c)) eqn:E; [right; right; eauto|].
  split_and!; [done..| |by apply Hsome].
  intros Hse. rewrite Hse in E. rewrite py_le_refl in E. done.
Qed.
