(* ===== verification/ElectricalRules.v ===== *)
(** * Electrical rules (backend/verification/electrical.py)

    One module per rule class: references of the graph, provenance of the
    parts, and the drivers of the nets. *)
From S2P Require Import Prelude PyDict PyStr Board Copper GeoRules.

Local Open Scope string_scope.

(** [_component_pin_index(board)] is [pin_by_number] of [Copper], which
    _physical_pad_nets writes out again. *)
Definition component_pin_index : BoardGraph.t -> gmap (string * string) Pin.t := pin_by_number.

(** [f"{component_id}:{pin_number}"] *)
Definition pin_ref (key : string * string) : string := key.1 +:+ ":" +:+ key.2.

(** [groups.setdefault(key, []).append(value)] *)
Fixpoint append_to {K V} `{EqDecision K} (key : K) (value : V) (groups : list (K * list V)) : list (K * list V) :=
  match groups with
  | [] => [(key, [value])]
  | (k, values) :: groups =>
    if decide (k = key) then (k, values ++ [value])%list :: groups else (k, values) :: append_to key value groups
  end.

Module GraphReferenceIntegrityRule.
Definition definition : RuleDefinition.t :=
  RuleDefinition.mk "SYS.GRAPH.REFERENCE_INTEGRITY" "1.0.0" RuleDomain.SYSTEM "Graph reference integrity"
    "All graph IDs and net-to-pin references must be unique and resolvable." Severity.FATAL [] true.

(** The values that occur more than once. *)
Definition duplicates (values : list string) : list string :=
  sorted_set (filter (fun value => repeated values value = true) values).

Definition collections (board : BoardGraph.t) : list (string * list string) := [
  ("component", Component.component_id <$> BoardGraph.components board);
  ("reference", Component.reference <$> BoardGraph.components board);
  ("net", Net.net_id <$> BoardGraph.nets board);
  ("track", Track.track_id <$> BoardGraph.tracks board);
  ("via", Via.via_id <$> BoardGraph.vias board);
  ("zone", Zone.zone_id <$> BoardGraph.zones board)].

Definition id_findings (board : BoardGraph.t) : list FindingDraft.t :=
  collections board ≫= fun '(kind, values) =>
    (fun duplicate =>
       report ("Duplicate " +:+ kind +:+ " identifier: " +:+ duplicate) [EntityRef.mk kind duplicate]
         [ev_str "duplicate_id" duplicate; ev_str "kind" kind]) <$> duplicates values.

Definition pin_findings (component : Component.t) : list FindingDraft.t :=
  (fun duplicate =>
     report ("Duplicate pin " +:+ duplicate +:+ " on " +:+ Component.reference component)
       [EntityRef.mk "component" (Component.component_id component); EntityRef.mk "pin" duplicate]
       [ev_str "duplicate_pin" duplicate]) <$> duplicates (Pin.number <$> Component.pins component).

(** A connection to a missing component or else to a missing pin. *)
Definition missing_findings (board : BoardGraph.t) (net : Net.t) (connection : NetConnection.t) :
    list FindingDraft.t :=
  let key := NetConnection.key connection in
  if negb (bool_decide (NetConnection.component_id connection ∈ Component.component_id <$> BoardGraph.components board))
  then
    [report ("Net " +:+ Net.name net +:+ " references missing component " +:+ NetConnection.component_id connection)
       [EntityRef.mk "net" (Net.net_id net); EntityRef.mk "component" (NetConnection.component_id connection)]
       [ev_str "connection" (pin_ref key)]]
  else
    match component_pin_index board !! key with
    | Some _ => []
    | None =>
      [report ("Net " +:+ Net.name net +:+ " references missing pin " +:+ pin_ref key)
         [EntityRef.mk "net" (Net.net_id net); EntityRef.mk "pin" (pin_ref key)]
         [ev_str "connection" (pin_ref key)]]
    end.

Definition repeated_findings (net : Net.t) (seen : list (string * string)) (connection : NetConnection.t) :
    list FindingDraft.t :=
  let key := NetConnection.key connection in
  if decide (key ∈ seen) then
    [report ("Net " +:+ Net.name net +:+ " repeats connection " +:+ pin_ref key)
       [EntityRef.mk "net" (Net.net_id net); EntityRef.mk "pin" (pin_ref key)]
       [ev_str "connection" (pin_ref key)]]
  else [].

(** The loop over the connections of a net, with the keys that were seen. *)
Fixpoint connection_findings (board : BoardGraph.t) (net : Net.t) (seen : list (string * string))
    (connections : list NetConnection.t) : list FindingDraft.t :=
  match connections with
  | [] => []
  | connection :: connections =>
    missing_findings board net connection ++ repeated_findings net seen connection ++
    connection_findings board net (NetConnection.key connection :: seen) connections
  end%list.

(** [pin_nets]: the nets of each connected pin. *)
Definition pin_nets (board : BoardGraph.t) : list ((string * string) * list string) :=
  foldl (fun groups '(net, connection) => append_to (NetConnection.key connection) (Net.net_id net) groups) []
    (net_connections board).

Definition shared_pin_findings (group : (string * string) * list string) : list FindingDraft.t :=
  let '(key, net_ids) := group in
  let unique_net_ids := sorted_set net_ids in
  if (1 <? length unique_net_ids)%nat then
    [report ("Pin " +:+ pin_ref key +:+ " belongs to multiple nets") [EntityRef.mk "pin" (pin_ref key)]
       [ev_strs "net_ids" unique_net_ids]]
  else [].

Definition evaluate (board : BoardGraph.t) (_ : RuleContext.t) : result (list FindingDraft.t) :=
  Ok (id_findings board ++
      (BoardGraph.components board ≫= pin_findings) ++
      (BoardGraph.nets board ≫= fun net => connection_findings board net [] (Net.connections net)) ++
      (sorted_on fst (pin_nets board) ≫= shared_pin_findings))%list.
End GraphReferenceIntegrityRule.

Module UnsupportedFeatureRule.
Definition definition : RuleDefinition.t :=
  RuleDefinition.mk "SYS.COVERAGE.UNSUPPORTED_FEATURE" "1.0.0" RuleDomain.SYSTEM "Unsupported board feature"
    "Unmodeled features prevent a complete authoritative verification claim." Severity.FATAL [] true.

Definition evaluate (board : BoardGraph.t) (_ : RuleContext.t) : result (list FindingDraft.t) :=
  Ok ((fun feature =>
        report ("Unsupported feature is present: " +:+ feature) [EntityRef.mk "unsupported_feature" feature]
          [ev_str "feature" feature]) <$> BoardGraph.unsupported_features board).
End UnsupportedFeatureRule.

Module FootprintRequiredRule.
Definition definition : RuleDefinition.t :=
  RuleDefinition.mk "ELEC.COMPONENT.FOOTPRINT_REQUIRED" "1.0.0" RuleDomain.ELECTRICAL "Footprint assignment required"
    "Every component must resolve to an explicit footprint." Severity.ERROR [] false.

Definition evaluate (board : BoardGraph.t) (_ : RuleContext.t) : result (list FindingDraft.t) :=
  Ok ((fun component =>
        report (Component.reference component +:+ " has no footprint assignment")
          [EntityRef.mk "component" (Component.component_id component)]
          [ev_str "footprint" (Component.footprint component)]) <$>
      filter (fun component => str_blank (Component.footprint component) = true) (BoardGraph.components board)).
End FootprintRequiredRule.

Module PartProvenanceRequiredRule.
Definition definition : RuleDefinition.t :=
  RuleDefinition.mk "ELEC.COMPONENT.PART_PROVENANCE_REQUIRED" "1.0.0" RuleDomain.ELECTRICAL
    "Exact part provenance required"
    "MPN, datasheet hash, and reviewed pin-map hash are hard evidence inputs." Severity.ERROR [] false.

Definition missing_evidence (component : Component.t) : list string :=
  issues_of [
    (str_blank (Component.manufacturer_part_number component), "manufacturer_part_number");
    (negb (is_sha256_hex (Component.datasheet_sha256 component)), "datasheet_sha256");
    (negb (is_sha256_hex (Component.pin_map_sha256 component)), "pin_map_sha256")].

Definition evaluate (board : BoardGraph.t) (_ : RuleContext.t) : result (list FindingDraft.t) :=
  Ok (BoardGraph.components board ≫= fun component =>
        match missing_evidence component with
        | [] => []
        | missing =>
          [report (Component.reference component +:+ " lacks verified exact-part evidence")
             [EntityRef.mk "component" (Component.component_id component)]
             [ev_strs "invalid_or_missing_fields" missing]]
        end).
End PartProvenanceRequiredRule.

Module UnconnectedRequiredPinRule.
Definition definition : RuleDefinition.t :=
  RuleDefinition.mk "ELEC.PIN.UNCONNECTED_REQUIRED" "1.0.0" RuleDomain.ELECTRICAL "Required pin connected"
    "Required pins must be assigned to exactly one net unless marked no-connect." Severity.ERROR [] false.

Definition is_no_connect (pin : Pin.t) : bool :=
  bool_decide (Pin.electrical_type pin = PinElectricalType.NO_CONNECT).

Definition pin_findings (connected : list (string * string)) (component : Component.t) (pin : Pin.t) :
    list FindingDraft.t :=
  let key := (Component.component_id component, Pin.number pin) in
  let is_connected := bool_decide (key ∈ connected) in
  let name := Component.reference component +:+ "." +:+ Pin.number pin in
  let finding message :=
    report message [EntityRef.mk "component" (Component.component_id component); EntityRef.mk "pin" (pin_ref key)]
      [ev_str "electrical_type" (PinElectricalType.value (Pin.electrical_type pin))] in
  ((if Pin.required pin && negb (is_no_connect pin) && negb is_connected
    then [finding ("Required pin " +:+ name +:+ " is unconnected")] else []) ++
   (if is_no_connect pin && is_connected
    then [finding ("No-connect pin " +:+ name +:+ " is assigned to a net")] else []))%list.

Definition evaluate (board : BoardGraph.t) (_ : RuleContext.t) : result (list FindingDraft.t) :=
  let connected := (fun nc => NetConnection.key nc.2) <$> net_connections board in
  Ok (component_pins board ≫= fun cp => pin_findings connected cp.1 cp.2).
End UnconnectedRequiredPinRule.

Module SingleConnectionNetRule.
Definition definition : RuleDefinition.t :=
  RuleDefinition.mk "ELEC.NET.SINGLE_CONNECTION" "1.0.0" RuleDomain.ELECTRICAL "Net has at least two endpoints"
    "Internal nets with fewer than two unique endpoints are dangling." Severity.ERROR [] false.

Definition endpoints (net : Net.t) : list (string * string) := sorted_set (NetConnection.key <$> Net.connections net).

Definition evaluate (board : BoardGraph.t) (_ : RuleContext.t) : result (list FindingDraft.t) :=
  Ok (BoardGraph.nets board ≫= fun net =>
        let count := length (endpoints net) in
        if negb (Net.external_source net) && (count <? 2)%nat then
          [report ("Internal net " +:+ Net.name net +:+ " has only " +:+ str_of_int (Z.of_nat count) +:+
                   " unique endpoint(s)")
             [EntityRef.mk "net" (Net.net_id net)] [ev_int "endpoint_count" (Z.of_nat count)]]
        else []).
End SingleConnectionNetRule.

(** The pins of the connections of a net that resolve. *)
Definition connected_pins (board : BoardGraph.t) (net : Net.t) : list (NetConnection.t * Pin.t) :=
  omap (fun item => pin ← component_pin_index board !! NetConnection.key item; Some (item, pin)) (Net.connections net).

Definition has_type (types : list PinElectricalType.t) (pin : Pin.t) : bool :=
  bool_decide (Pin.electrical_type pin ∈ types).

Module OutputContentionRule.
Definition definition : RuleDefinition.t :=
  RuleDefinition.mk "ELEC.NET.OUTPUT_CONTENTION" "1.0.0" RuleDomain.ELECTRICAL "No strong-output contention"
    "A net may not contain multiple strong output or power-output drivers." Severity.ERROR [] false.

Definition strong_types : list PinElectricalType.t := [PinElectricalType.OUTPUT; PinElectricalType.POWER_OUT].

Definition net_drivers (board : BoardGraph.t) (net : Net.t) : list string :=
  sorted_on id ((fun ip => pin_ref (NetConnection.key ip.1)) <$>
    filter (fun ip => has_type strong_types ip.2 = true) (connected_pins board net)).

Definition evaluate (board : BoardGraph.t) (_ : RuleContext.t) : result (list FindingDraft.t) :=
  Ok (BoardGraph.nets board ≫= fun net =>
        let drivers := net_drivers board net in
        let count := Z.of_nat (length drivers) in
        if (1 <? count)%Z then
          [report ("Net " +:+ Net.name net +:+ " has " +:+ str_of_int count +:+ " strong drivers")
             (EntityRef.mk "net" (Net.net_id net) :: (EntityRef.mk "pin" <$> drivers))
             [ev_strs "drivers" drivers; ev_int "driver_count" count]]
        else []).
End OutputContentionRule.

Module InputDrivenRule.
Definition definition : RuleDefinition.t :=
  RuleDefinition.mk "ELEC.NET.INPUT_DRIVEN" "1.0.0" RuleDomain.ELECTRICAL "Input nets have a driver"
    "Internal nets containing required inputs must have a recognized source." Severity.ERROR
    [ParameterSpec.mk "bidirectional_is_driver" ParameterType.BOOLEAN (SBool true) None None;
     ParameterSpec.mk "open_collector_is_driver" ParameterType.BOOLEAN (SBool true) None None] false.

Definition sink_types : list PinElectricalType.t := [PinElectricalType.INPUT; PinElectricalType.POWER_IN].
Definition driver_types (bidirectional open_collector : bool) : list PinElectricalType.t :=
  (OutputContentionRule.strong_types ++
   (if bidirectional then [PinElectricalType.BIDIRECTIONAL] else []) ++
   (if open_collector then [PinElectricalType.OPEN_COLLECTOR] else []))%list.

(** [sum(pin.electrical_type in types for pin in connected_pins)] *)
Definition count_types (types : list PinElectricalType.t) (pins : list Pin.t) : Z :=
  Z.of_nat (length (filter (fun pin => has_type types pin = true) pins)).

Definition net_findings (board : BoardGraph.t) (drivers : list PinElectricalType.t) (net : Net.t) : list FindingDraft.t :=
  if Net.external_source net then []
  else
    let pins := (connected_pins board net).*2 in
    let sinks := count_types sink_types pins in
    let driver_count := count_types drivers pins in
    if negb (sinks =? 0)%Z && (driver_count =? 0)%Z then
      [report ("Net " +:+ Net.name net +:+ " contains input pins but no recognized driver")
         [EntityRef.mk "net" (Net.net_id net)] [ev_int "driver_count" driver_count; ev_int "sink_count" sinks]]
    else [].

Definition evaluate (board : BoardGraph.t) (context : RuleContext.t) : result (list FindingDraft.t) :=
  let* bidirectional := RuleContext.boolean context "bidirectional_is_driver" in
  let* open_collector := RuleContext.boolean context "open_collector_is_driver" in
  Ok (BoardGraph.nets board ≫= net_findings board (driver_types bidirectional open_collector)).
End InputDrivenRule.

(** [electrical_rules()] *)
Definition electrical_rules : list RuleEvaluator := [
  {| definition := GraphReferenceIntegrityRule.definition; evaluate := GraphReferenceIntegrityRule.evaluate |};
  {| definition := UnsupportedFeatureRule.definition; evaluate := UnsupportedFeatureRule.evaluate |};
  {| definition := FootprintRequiredRule.definition; evaluate := FootprintRequiredRule.evaluate |};
  {| definition := PartProvenanceRequiredRule.definition; evaluate := PartProvenanceRequiredRule.evaluate |};
  {| definition := UnconnectedRequiredPinRule.definition; evaluate := UnconnectedRequiredPinRule.evaluate |};
  {| definition := SingleConnectionNetRule.definition; evaluate := SingleConnectionNetRule.evaluate |};
  {| definition := OutputContentionRule.definition; evaluate := OutputContentionRule.evaluate |};
  {| definition := InputDrivenRule.definition; evaluate := InputDrivenRule.evaluate |}].
