(* ===== verification/RuleFacts.v ===== *)
(** * Resolved rules

    A policy cannot weaken a mandatory rule, the parameters of a resolved rule
    are those of its definition within their bounds, and with them every
    registered rule runs to its end. *)
From S2P Require Import Prelude PyDict PyStr Geometry Board Rule Copper GeoRules RoutingRules BoardFixtures.
From S2P Require Import CopperFacts ClearanceFacts RoutingFacts ElectricalRules.

Local Open Scope string_scope.

(** ** Parameters *)

(** The value has the type of the parameter and is within its bounds. *)
Definition within (spec : ParameterSpec.t) (value : scalar) : Prop :=
  match ParameterSpec.parameter_type spec, value with
  | ParameterType.INTEGER, SInt z =>
    (forall m, ParameterSpec.minimum spec = Some m -> (m <= z)%Z) /\
    (forall m, ParameterSpec.maximum spec = Some m -> (z <= m)%Z)
  | ParameterType.BOOLEAN, SBool _ | ParameterType.STRING, SStr _ => True
  | _, _ => False
  end.

Lemma validate_parameter_Ok spec value rule_id :
  validate_parameter spec value rule_id = Ok tt <-> within spec value.
Proof.
  unfold validate_parameter, within.
  destruct (ParameterSpec.parameter_type spec), value as [|z|]; simpl; try done.
  set (below := match ParameterSpec.minimum spec with Some m => (z <? m)%Z | None => false end).
  set (above := match ParameterSpec.maximum spec with Some m => (m <? z)%Z | None => false end).
  assert (below = false <-> forall m, ParameterSpec.minimum spec = Some m -> (m <= z)%Z) as <-.
  { unfold below. destruct (ParameterSpec.minimum spec); [rewrite Z.ltb_ge; naive_solver|naive_solver]. }
  assert (above = false <-> forall m, ParameterSpec.maximum spec = Some m -> (z <= m)%Z) as <-.
  { unfold above. destruct (ParameterSpec.maximum spec); [rewrite Z.ltb_ge; naive_solver|naive_solver]. }
  clearbody below above. destruct below, above; simpl; by split; [|intros [? ?]].
Qed.

Lemma NoDup_by_count (names : list string) :
  length names = length (remove_dups names) -> NoDup names.
Proof.
  intros H. apply (submseteq_NoDup_length (remove_dups names)); [apply NoDup_remove_dups| |done].
  intros x. by rewrite elem_of_remove_dups.
Qed.

Lemma provided_NoDup values :
  length (dict_items (provided_values values)) = length values -> NoDup (ParameterValue.name <$> values).
Proof.
  intros H. apply (submseteq_NoDup_length (dict_keys (provided_values values))).
  - apply dict_of_pairs_wf.
  - intros k [v Hv]%elem_of_dict_keys. apply dict_of_pairs_elem, list_elem_of_fmap in Hv as (x & [= -> ->] & Hx).
    apply list_elem_of_fmap. eauto.
  - unfold dict_keys. by rewrite !length_fmap.
Qed.

Lemma provided_lookup values v :
  NoDup (ParameterValue.name <$> values) -> v ∈ values ->
  provided_values values !! ParameterValue.name v = Some (ParameterValue.value v).
Proof.
  intros Hnd Hv. unfold provided_values, dict_of_pairs, lookup, dict_lookup. simpl.
  assert (NoDup ((fun v => (ParameterValue.name v, ParameterValue.value v)) <$> values).*1) as Hnd'.
  { by rewrite <- list_fmap_compose. }
  rewrite assoc_of_pairs_id by done. apply assoc_get_elem; [done|]. apply list_elem_of_fmap. eauto.
Qed.

(** ** Resolution *)

(** The values that an override gives, and what becomes of a parameter. *)
Definition override_values (override : option RuleOverride.t) : list ParameterValue.t :=
  match override with None => [] | Some o => RuleOverride.parameters o end.
Definition resolved_value (override : option RuleOverride.t) (spec : ParameterSpec.t) (value : scalar) : Prop :=
  ParameterValue.mk (ParameterSpec.name spec) value ∈ override_values override \/
  (~ ParameterSpec.name spec ∈ (ParameterValue.name <$> override_values override) /\ value = ParameterSpec.default spec).

Lemma resolve_parameter_Ok rule_id specs provided name p :
  resolve_parameter rule_id specs provided name = Ok p ->
  exists spec, specs !! name = Some spec /\
    p = ParameterValue.mk name (default (ParameterSpec.default spec) (provided !! name)) /\
    within spec (ParameterValue.value p).
Proof.
  unfold resolve_parameter. intros (spec & Hspec%dict_getitem_Ok & H)%bind_Ok.
  apply seq_Ok in H as [Hv%validate_parameter_Ok [= <-]]. eauto.
Qed.

Lemma resolve_parameters_names rule_id specs provided names l :
  mapM (resolve_parameter rule_id specs provided) names = Ok l -> ParameterValue.name <$> l = names.
Proof.
  rewrite mapM_Ok_Forall2. induction 1 as [|name p names l Hp _ IH]; [done|].
  apply resolve_parameter_Ok in Hp as (spec & _ & -> & _). by rewrite fmap_cons, IH.
Qed.

(** The parameters of a resolved rule. *)
Lemma resolved_parameters evaluator override r :
  resolve_rule evaluator override = Ok r ->
  NoDup (ParameterValue.name <$> ResolvedRule.parameters r) /\
  (forall spec, spec ∈ RuleDefinition.parameters (definition evaluator) -> exists value,
    ParameterValue.mk (ParameterSpec.name spec) value ∈ ResolvedRule.parameters r /\
    within spec value /\ resolved_value override spec value) /\
  (forall v, v ∈ override_values override ->
    ParameterValue.name v ∈ (ParameterSpec.name <$> RuleDefinition.parameters (definition evaluator))).
Proof.
  intros H. set (d := definition evaluator).
  unfold resolve_rule in H. fold d in H. fold (override_values override) in H.
  apply seq_Ok in H as [Hd H]. apply seq_Ok in H as [_ H]. apply seq_Ok in H as [_ H].
  apply seq_Ok in H as [Hdup%raise_if_Ok H]. apply seq_Ok in H as [Hunk%raise_if_Ok H].
  apply bind_Ok in H as (resolved & Hres & [= <-]). simpl.
  apply seq_Ok in Hd as [Hd _]. apply raise_first_Ok in Hd.
  apply Forall_cons in Hd as [_ Hd]. apply Forall_cons in Hd as [_ Hd]. apply Forall_cons in Hd as [Hnames _].
  apply negb_false_iff, Nat.eqb_eq, NoDup_by_count in Hnames.
  apply negb_false_iff, Nat.eqb_eq, provided_NoDup in Hdup.
  set (values := override_values override) in *. set (specs := dict_by ParameterSpec.name (RuleDefinition.parameters d)) in *.
  assert (forall k, k ∈ dict_keys specs <-> k ∈ (ParameterSpec.name <$> RuleDefinition.parameters d)) as Hkeys.
  { intros k. rewrite elem_of_dict_keys, list_elem_of_fmap. split.
    - intros [spec [? <-]%(dict_by_lookup _ _ _ _ Hnames)]. eauto.
    - intros (spec & -> & Hs). exists spec. by apply dict_by_lookup. }
  split_and!.
  - rewrite (resolve_parameters_names _ _ _ _ _ Hres), sorted_on_Permutation. apply dict_of_pairs_wf.
  - intros spec Hspec. assert (ParameterSpec.name spec ∈ sorted_on id (dict_keys specs)) as Hin.
    { apply elem_of_sorted_on, Hkeys, list_elem_of_fmap. eauto. }
    destruct (mapM_total_elem _ _ _ _ Hres Hin) as (p & Hp & Hpin).
    apply resolve_parameter_Ok in Hp as (spec' & Hlookup & -> & Hw). simpl in Hw.
    apply dict_by_lookup in Hlookup as [Hs' Hname]; [|done].
    assert (spec' = spec) as -> by (by apply (unique_by ParameterSpec.name (RuleDefinition.parameters d))).
    eexists. split_and!; [exact Hpin|done|]. unfold resolved_value. fold values.
    destruct (decide (ParameterSpec.name spec ∈ (ParameterValue.name <$> values))) as [Hv|Hv].
    + left. apply list_elem_of_fmap in Hv as (v & Hn & Hv). rewrite Hn, (provided_lookup values v Hdup Hv).
      by destruct v.
    + right. split; [done|]. destruct (provided_values values !! ParameterSpec.name spec) as [v|] eqn:E; [|done].
      apply dict_of_pairs_elem, list_elem_of_fmap in E as (x & [= Hx _] & Hin'). destruct Hv.
      apply list_elem_of_fmap. eauto.
  - intros v Hv. apply Hkeys, dec_stable. intros Hn.
    apply negb_false_iff, bool_decide_eq_true in Hunk.
    apply (no_member _ (ParameterValue.name v)) in Hunk. apply Hunk, elem_of_sorted_on, list_elem_of_filter.
    split; [done|]. apply elem_of_dict_keys. rewrite (provided_lookup values v Hdup Hv). eauto.
Qed.

(** A policy cannot weaken a rule: when a rule resolves, a mandatory rule
    is enabled, a mandatory fatal rule stays fatal, every parameter of the
    definition has one value, of its type and within its bounds, which the
    override gives or else the default, and the override names no other. *)
Theorem policy_cannot_weaken evaluator override r :
  resolve_rule evaluator override = Ok r ->
  let d := definition evaluator in
  ResolvedRule.evaluator r = evaluator /\
  (RuleDefinition.mandatory d = true -> ResolvedRule.enabled r = true) /\
  (RuleDefinition.mandatory d = true -> RuleDefinition.default_severity d = Severity.FATAL ->
    ResolvedRule.severity r = Severity.FATAL) /\
  NoDup (ParameterValue.name <$> ResolvedRule.parameters r) /\
  (forall spec, spec ∈ RuleDefinition.parameters d -> exists value,
    ParameterValue.mk (ParameterSpec.name spec) value ∈ ResolvedRule.parameters r /\
    within spec value /\ resolved_value override spec value) /\
  (forall v, v ∈ override_values override -> ParameterValue.name v ∈ (ParameterSpec.name <$> RuleDefinition.parameters d)).
Proof.
  intros H d. destruct (resolved_parameters evaluator override r H) as (Hnd & Hspecs & Hnames).
  unfold resolve_rule in H. fold d in H.
  apply seq_Ok in H as [_ H]. apply seq_Ok in H as [Hen%raise_if_Ok H]. apply seq_Ok in H as [Hsev%raise_if_Ok H].
  apply seq_Ok in H as [_ H]. apply seq_Ok in H as [_ H]. apply bind_Ok in H as (resolved & _ & [= <-]).
  split_and!; [done| | |done..].
  - intros Hm. rewrite Hm in Hen. by apply negb_false_iff in Hen.
  - intros Hm Hf. rewrite Hm, bool_decide_true in Hsev by done. by apply negb_false_iff, bool_decide_eq_true in Hsev.
Qed.

(** ** Running *)

(** The context of a resolved rule. *)
Definition resolved_context (r : ResolvedRule.t) (kernel : GeometryKernel) : RuleContext.t :=
  RuleContext.mk (ResolvedRule.severity r) (ResolvedRule.parameters r) kernel.

Lemma parameter_elem (c : RuleContext.t) v :
  NoDup (ParameterValue.name <$> RuleContext.parameters c) -> v ∈ RuleContext.parameters c ->
  RuleContext.parameter c (ParameterValue.name v) = Ok (ParameterValue.value v).
Proof.
  intros Hnd Hv. unfold RuleContext.parameter.
  destruct (list_find _ _) as [[i item]|] eqn:E.
  - apply list_find_Some in E as (Hi & Hname & _). apply list_elem_of_lookup_2 in Hi.
    by rewrite (unique_by ParameterValue.name (RuleContext.parameters c) item v Hnd Hi Hv Hname).
  - apply list_find_None in E. rewrite Forall_forall in E. by destruct (E v Hv).
Qed.

(** The integer parameter of a rule that has one. *)
Lemma resolved_integer evaluator override r kernel name value lo :
  resolve_rule evaluator override = Ok r ->
  RuleDefinition.parameters (definition evaluator) = minimum_parameter name value lo ->
  exists z, (lo <= z)%Z /\ RuleContext.integer (resolved_context r kernel) name = Ok z.
Proof.
  intros H Hp. destruct (resolved_parameters evaluator override r H) as (Hnd & Hspecs & _). rewrite Hp in Hspecs.
  destruct (Hspecs (ParameterSpec.mk name ParameterType.INTEGER (SInt value) (Some lo) None)) as (v & Hv & Hw & _);
    [by left|]. destruct v as [|z|]; [done| |done]. exists z. split; [by apply Hw|].
  unfold RuleContext.integer.
  pose proof (parameter_elem (resolved_context r kernel) _ Hnd Hv) as E. simpl in E. by rewrite E.
Qed.

(** The boolean parameter of a rule that has one. *)
Lemma resolved_boolean evaluator override r kernel name value :
  resolve_rule evaluator override = Ok r ->
  ParameterSpec.mk name ParameterType.BOOLEAN (SBool value) None None ∈ RuleDefinition.parameters (definition evaluator) ->
  exists b, RuleContext.boolean (resolved_context r kernel) name = Ok b.
Proof.
  intros H Hp. destruct (resolved_parameters evaluator override r H) as (Hnd & Hspecs & _).
  destruct (Hspecs _ Hp) as (v & Hv & Hw & _). destruct v as [| |b]; [done|done|]. exists b.
  unfold RuleContext.boolean.
  pose proof (parameter_elem (resolved_context r kernel) _ Hnd Hv) as E. simpl in E. by rewrite E.
Qed.

Lemma foldM_total {A S} (P : A -> Prop) (f : S -> A -> result S) l s :
  (forall s x, P x -> exists s', f s x = Ok s') -> (forall x, x ∈ l -> P x) -> exists s', foldM f s l = Ok s'.
Proof.
  intros Hf. revert s. induction l as [|x l IH]; intros s Hl; simpl; [by exists s|].
  destruct (Hf s x) as [s' ->]; [apply Hl; by left|]. simpl. apply IH. intros y Hy. apply Hl. by right.
Qed.

Lemma core_outline_total p outline : shaped p -> exists d, core_outline_distance_squared p outline = Ok d.
Proof.
  intros Sp. destruct (exact_outline_edges outline) eqn:E.
  - exists 0%Q. unfold core_outline_distance_squared. by rewrite E.
  - destruct (core_outline_least p outline Sp) as (d & ? & _); [by rewrite E|]. eauto.
Qed.

Lemma core_inside_total p outline : shaped p -> exists b, core_inside_outline p outline = Ok b.
Proof.
  unfold shaped, core_inside_outline, CopperPrimitive.the_center.
  destruct (CopperPrimitive.box p), (CopperPrimitive.ends p) as [[]|], (CopperPrimitive.center p); simpl; eauto; done.
Qed.

Lemma last_with_id_elem id l x : ViaNetConnectivityRule.last_with_id id l = Some x -> x ∈ l.
Proof.
  induction l as [|y l IH]; simpl; [done|]. destruct (ViaNetConnectivityRule.last_with_id id l).
  - intros [= ->]. right. by apply IH.
  - case_bool_decide; [|done]. intros [= ->]. by left.
Qed.

Section running.
Variables (board : BoardGraph.t) (context : RuleContext.t).

Lemma numbered_copper_shaped x : x ∈ imap pair (copper_primitives board) -> well_shaped x.2.
Proof.
  intros [k [_ Hx]%lookup_numbered]%list_elem_of_lookup.
  by eapply copper_primitives_well_shaped, list_elem_of_lookup_2.
Qed.

Lemma via_rule_runs : exists l, ViaNetConnectivityRule.evaluate board context = Ok l.
Proof.
  apply concatM_total. intros via _. unfold ViaNetConnectivityRule.via_findings.
  destruct (negb _); [eauto|].
  destruct (ViaNetConnectivityRule.last_with_id _ _) as [v|] eqn:E; [|eauto].
  apply last_with_id_elem, numbered_copper_shaped in E.
  destruct (foldM_total (fun x => well_shaped x.2) (ViaNetConnectivityRule.attach_primitive via v)
    (imap pair (copper_primitives board)) ([], [])) as [st ->]; [|apply numbered_copper_shaped|].
  { intros s [i p] Hp. unfold ViaNetConnectivityRule.attach_primitive. destruct (_ || _); [eauto|].
    destruct (touches_spec v.2 p E Hp) as (b & -> & _). simpl. eauto. }
  simpl. destruct (foldM_total (fun _ => True) (ViaNetConnectivityRule.attach_zone via v)
    (valid_zones board context) st) as [[a t] ->]; [|done|simpl; eauto].
  intros s zone _. unfold ViaNetConnectivityRule.attach_zone, primitive_zone_distance_squared.
  destruct (_ || _); [eauto|]. destruct (core_outline_total v.2 (Zone.outline zone) (proj1 E)) as [d ->].
  destruct (core_overlaps_total v.2 (Zone.outline zone) (proj1 E)) as [o ->]. simpl. eauto.
Qed.

Hypothesis quadrants : quadrant_holes board.

Lemma edge_core_runs message entity p w :
  shaped p -> exists l, BoardEdgeClearanceRule.core_findings board message entity p w = Ok l.
Proof.
  intros Sp. unfold BoardEdgeClearanceRule.core_findings.
  destruct (core_inside_total p (BoardGraph.outline board) Sp) as [i ->].
  destruct (core_outline_total p (BoardGraph.outline board) Sp) as [d ->]. simpl. eauto.
Qed.

Lemma edge_rule_runs c :
  RuleContext.integer context "minimum_edge_clearance_nm" = Ok c ->
  exists l, BoardEdgeClearanceRule.evaluate board context = Ok l.
Proof.
  intros Hc. unfold BoardEdgeClearanceRule.evaluate. destruct (negb _); [eauto|]. rewrite Hc. simpl.
  destruct (concatM_total (BoardEdgeClearanceRule.primitive_findings c board) (copper_primitives board)) as [l1 ->].
  { intros p Hp. by apply edge_core_runs, (primitive_shaped board). }
  simpl. destruct (concatM_total (BoardEdgeClearanceRule.hole_findings c board) (npth_holes board)) as [l2 ->]; [|eauto].
  intros hole Hh. unfold BoardEdgeClearanceRule.hole_findings.
  destruct (hole_primitive_shaped hole (BoardGraph.layers board) (quadrants hole Hh)) as (p & -> & Sp). simpl.
  by apply edge_core_runs.
Qed.

Lemma clearance_rule_runs c :
  RuleContext.integer context "minimum_clearance_nm" = Ok c ->
  exists l, MinimumCopperClearanceRule.evaluate board context = Ok l.
Proof.
  intros Hc. unfold MinimumCopperClearanceRule.evaluate. rewrite Hc. simpl.
  destruct (copper_reports board c) as (l1 & ? & -> & _), (holes_report board c quadrants) as (l2 & ? & -> & _),
    (zones_report board context c) as (l3 & ? & -> & _). simpl. eauto.
Qed.

Lemma connectivity_rule_runs : exists l, RoutingConnectivityRule.evaluate board context = Ok l.
Proof.
  apply concatM_total. intros net _. destruct (net_findings_spec board net) as (l & ? & _). eauto.
Qed.
End running.

(** C40. Every registered rule runs to its end: resolved against any policy and
    with any geometry kernel, no electrical, geometric or routing rule raises on
    a board whose drills are turned by quadrants. *)
Theorem resolved_rules_run evaluator override r board kernel :
  evaluator ∈ (electrical_rules ++ geometric_rules ++ algorithm_rules)%list -> resolve_rule evaluator override = Ok r ->
  quadrant_holes board ->
  exists l, evaluate evaluator board (resolved_context r kernel) = Ok l.
Proof.
  intros Hin Hr Hq. unfold electrical_rules, geometric_rules, algorithm_rules in Hin. cbn [app] in Hin.
  repeat (apply elem_of_cons in Hin as [->|Hin]); [..|by apply not_elem_of_nil in Hin].
  all: try (cbn [evaluate]; eexists; reflexivity).
  - cbn [evaluate]. unfold InputDrivenRule.evaluate.
    destruct (resolved_boolean _ _ _ kernel "bidirectional_is_driver" true Hr) as [b1 ->]; [left|].
    destruct (resolved_boolean _ _ _ kernel "open_collector_is_driver" true Hr) as [b2 ->]; [right; left|]. simpl. eauto.
  - destruct (resolved_integer _ _ _ kernel _ _ _ Hr eq_refl) as (z & _ & Hz).
    cbn [evaluate]. unfold MinimumTrackWidthRule.evaluate. rewrite Hz. eauto.
  - destruct (resolved_integer _ _ _ kernel _ _ _ Hr eq_refl) as (z & _ & Hz).
    cbn [evaluate]. unfold MinimumViaAnnularRingRule.evaluate. rewrite Hz. eauto.
  - destruct (resolved_integer _ _ _ kernel _ _ _ Hr eq_refl) as (z & _ & Hz).
    cbn [evaluate]. unfold MinimumPadAnnularRingRule.evaluate. rewrite Hz. eauto.
  - destruct (resolved_integer _ _ _ kernel _ _ _ Hr eq_refl) as (z & _ & Hz). by apply (clearance_rule_runs _ _ Hq z).
  - destruct (resolved_integer _ _ _ kernel _ _ _ Hr eq_refl) as (z & _ & Hz). by apply (edge_rule_runs _ _ Hq z).
  - apply connectivity_rule_runs.
  - apply via_rule_runs.
Qed.

Lemma policy_cannot_weaken_witness :
  resolve_rule demo_clearance (Some demo_override) = Ok demo_resolved /\
  NoDup (ParameterValue.name <$> ResolvedRule.parameters demo_resolved).
Proof.
  assert (resolve_rule demo_clearance (Some demo_override) = Ok demo_resolved) as H by reflexivity.
  split; [exact H|]. apply (policy_cannot_weaken demo_clearance (Some demo_override) demo_resolved H).
Defined.

Lemma resolved_rules_run_witness :
  exists l, evaluate demo_clearance demo_board (resolved_context demo_resolved ExactGeometryKernel.kernel) = Ok l.
Proof.
  apply (resolved_rules_run demo_clearance (Some demo_override) demo_resolved).
  - unfold electrical_rules, geometric_rules. cbn [app]. do 15 right. left.
  - reflexivity.
  - intros hole H. by apply not_elem_of_nil in H.
Defined.

(** A filled zone that bridges a notch of the outline is not reported when the
    clearance to the edge is zero: only the vertices of a zone are tested for
    being inside, and a boundary that crosses the outline is at distance zero,
    which is not below zero. *)
Example zone_bridges_notch :
  let outside := exact_point (PointNm.mk 15000000 20000000) in
  BoardEdgeClearanceRule.evaluate notched_board edge_context = Ok [] /\
  outline_defects (BoardGraph.outline notched_board) ExactGeometryKernel.kernel = [] /\
  valid_zones notched_board edge_context = BoardGraph.zones notched_board /\
  exact_point_in_outline outside (BoardGraph.outline notched_board) = false /\
  forallb (fun zone => exact_point_in_outline outside (Zone.outline zone)) (BoardGraph.zones notched_board) = true.
Proof. by vm_compute. Qed.
