(* ===== verification/Canonical.v ===== *)
(** * Canonical data (backend/verification/canonical.py)

    The Python values that the hashes are taken of, their canonical JSON, and
    hashes separated by domains.  [Canonical] gives the value of a typed
    record; its laws, that the value is canonical and determines the record,
    are what the reports rely on. *)
From S2P Require Import Prelude PyStr PyDict Json Sha256.

Local Open Scope string_scope.

(** A key of a mapping: a string, or an integer that is none. *)
Inductive pykey := KStr (s : string) | KInt (z : Z).

(** A Python value.  An [Enum] that is a [str] is its string. *)
Inductive pyval :=
  | PNone
  | PStr (s : string)
  | PBool (b : bool)
  | PInt (z : Z)
  | PFloat
  | PEnum (v : pyval)
  | PData (fields : list (string * pyval))
  | PMap (entries : list (pykey * pyval))
  | PSeq (l : list pyval)
  | PSet
  | POther (type_name : string).

Definition canonical_err (msg : string) : exn := Exn CanonicalizationError msg.

(** [(k, f(v))] for each pair, in order. *)
Definition sequence_pairs {K} (l : list (K * result json)) : result (list (K * json)) :=
  mapM (fun '(k, r) => let* j := r in Ok (k, j)) l.

(** [sorted(value)] on the keys, and the test that each is a string. *)
Definition is_str_key (k : pykey) : bool := match k with KStr _ => true | KInt _ => false end.
Definition key_text (k : pykey) : string := match k with KStr s => s | KInt _ => "" end.
Definition sorted_entries (entries : list (pykey * result json)) : result (list (string * result json)) :=
  if forallb (fun kv => is_str_key kv.1) entries
  then Ok (sorted_on fst ((fun kv => (key_text kv.1, kv.2)) <$> entries))
  else if existsb (fun kv => is_str_key kv.1) entries
  then Err (Exn TypeError "'<' not supported between instances of 'int' and 'str'")
  else Err (canonical_err "canonical mapping keys must be strings").

Fixpoint canonical_data (value : pyval) : result json :=
  match value with
  | PNone => Ok JNull
  | PStr s => Ok (JStr s)
  | PBool b => Ok (JBool b)
  | PInt z => Ok (JInt z)
  | PFloat => Err (canonical_err "floating-point values are not canonical")
  | PEnum v => canonical_data v
  | PData fields =>
    let* l := sequence_pairs ((fun '(k, v) => (k, canonical_data v)) <$> fields) in Ok (JObj l)
  | PMap entries =>
    let* sorted := sorted_entries ((fun '(k, v) => (k, canonical_data v)) <$> entries) in
    let* l := sequence_pairs sorted in Ok (JObj l)
  | PSeq l => let* l := mapM id (canonical_data <$> l) in Ok (JArr l)
  | PSet => Err (canonical_err "sets are not canonical; sort into a tuple first")
  | POther type_name => Err (canonical_err ("unsupported canonical value: " +:+ type_name))
  end.

(** [json.dumps(..., ensure_ascii=False, separators=(",", ":"), sort_keys=True).encode("utf-8")] *)
Definition canonical_json_bytes (value : pyval) : result bytes :=
  let* j := canonical_data value in Ok (utf8 (canonical_json j)).

(** The NUL that separates a domain from the data. *)
Definition nul : ascii := "000"%char.
Definition nul_free (domain : string) : bool := str_forallb (fun c => negb (Ascii.eqb c nul)) domain.

Definition stable_hash (value : pyval) (domain : string) : result string :=
  raise_if (str_empty domain || negb (nul_free domain))
    (Exn ValueError "hash domain must be a non-empty NUL-free string") ;;;
  let* data := canonical_json_bytes value in
  Ok (sha256_hex (utf8 domain ++ utf8 (String nul "") ++ data)%list).

(** ** Values of records *)

Class Canonical (A : Type) := py : A -> pyval.

#[export] Instance py_str : Canonical string := PStr.
#[export] Instance py_int : Canonical Z := PInt.
#[export] Instance py_bool : Canonical bool := PBool.
#[export] Instance py_option {A} `{Canonical A} : Canonical (option A) := fun o => from_option py PNone o.
#[export] Instance py_list {A} `{Canonical A} : Canonical (list A) := fun l => PSeq (py <$> l).

(** The value is canonical. *)
Definition canonical_value (v : pyval) : Prop := exists j, canonical_data v = Ok j /\ json_wf j.
(** Two values with the same canonical JSON. *)
Definition same_data (v w : pyval) : Prop :=
  exists j k, canonical_data v = Ok j /\ canonical_data w = Ok k /\ canon j = canon k.

Class CanonicalLaws (A : Type) `{Canonical A} : Prop := {
  py_canonical (x : A) : canonical_value (py x);
  py_inj (x y : A) : same_data (py x) (py y) -> x = y;
}.
(** The value is not [None], so that an optional one can be told apart. *)
Class NotNone (A : Type) `{Canonical A} : Prop := py_not_none (x : A) : ~ same_data (py x) PNone.

(** ** Objects and lists *)

Lemma sequence_pairs_Ok {K} (l : list (K * result json)) (m : list (K * json)) :
  sequence_pairs l = Ok m <-> Forall2 (fun kr kj => kr.1 = kj.1 /\ kr.2 = Ok kj.2) l m.
Proof.
  unfold sequence_pairs. rewrite mapM_Ok_Forall2. split; induction 1 as [|[k r] [k' j] l m H _ IH];
    constructor; try done; simpl in *.
  - apply bind_Ok in H as (? & -> & [= -> ->]). done.
  - destruct H as [-> ->]. done.
Qed.

Lemma canonical_obj fields j :
  canonical_data (PData fields) = Ok j <->
  exists l, j = JObj l /\ Forall2 (fun kv kj => kv.1 = kj.1 /\ canonical_data kv.2 = Ok kj.2) fields l.
Proof.
  simpl. rewrite bind_Ok. split.
  - intros (l & H%sequence_pairs_Ok & [= <-]). exists l. split; [done|].
    apply Forall2_fmap_l in H. eapply Forall2_impl; [exact H|]. by intros [k v] [k' j].
  - intros (l & -> & H). exists l. split; [|done]. apply sequence_pairs_Ok, Forall2_fmap_l.
    eapply Forall2_impl; [exact H|]. by intros [k v] [k' j].
Qed.

Lemma canonical_seq l j :
  canonical_data (PSeq l) = Ok j <-> exists js, j = JArr js /\ Forall2 (fun v j => canonical_data v = Ok j) l js.
Proof.
  simpl. rewrite bind_Ok. split.
  - intros (js & H%mapM_Ok_Forall2 & [= <-]). exists js. split; [done|]. by apply Forall2_fmap_l in H.
  - intros (js & -> & H). exists js. split; [|done]. by apply mapM_Ok_Forall2, Forall2_fmap_l.
Qed.
