(* ===== verification/BoardValues.v ===== *)
(** * Values of the board records (backend/verification/model.py)

    What [canonical_data] makes of the dataclasses of the board model: an
    object with the fields in their order; an enumeration is its string.  The
    two hashes that bind the fill of a zone are taken of such values. *)
From S2P Require Import Prelude PyStr Json Geometry Board Canonical.

Local Open Scope string_scope.

#[export] Instance py_severity : Canonical Severity.t := fun x => PStr (Severity.value x).
#[export] Instance py_domain : Canonical RuleDomain.t := fun x => PStr (RuleDomain.value x).
#[export] Instance py_parameter_type : Canonical ParameterType.t := fun x => PStr (ParameterType.value x).
#[export] Instance py_electrical_type : Canonical PinElectricalType.t := fun x => PStr (PinElectricalType.value x).
#[export] Instance py_shape : Canonical PadShape.t := fun x => PStr (PadShape.value x).
#[export] Instance py_fill_state : Canonical ZoneFillState.t := fun x => PStr (ZoneFillState.value x).

#[export] Instance py_point : Canonical PointNm.t := fun p =>
  PData [("x", py (PointNm.x p)); ("y", py (PointNm.y p))].
(** [BoardOutline] has the one field [vertices]. *)
Definition outline_value (vertices : BoardOutline) : pyval := PData [("vertices", py vertices)].

#[export] Instance py_entity : Canonical EntityRef.t := fun x =>
  PData [("kind", py (EntityRef.kind x)); ("entity_id", py (EntityRef.entity_id x))].
#[export] Instance py_pin : Canonical Pin.t := fun x =>
  PData [("number", py (Pin.number x)); ("name", py (Pin.name x));
    ("electrical_type", py (Pin.electrical_type x)); ("required", py (Pin.required x));
    ("pad_center", py (Pin.pad_center x)); ("pad_diameter_nm", py (Pin.pad_diameter_nm x));
    ("layers", py (Pin.layers x)); ("pad_drill_nm", py (Pin.pad_drill_nm x));
    ("pad_number", py (Pin.pad_number x))].
#[export] Instance py_component : Canonical Component.t := fun x =>
  PData [("component_id", py (Component.component_id x)); ("reference", py (Component.reference x));
    ("value", py (Component.value x)); ("footprint", py (Component.footprint x));
    ("manufacturer_part_number", py (Component.manufacturer_part_number x));
    ("datasheet_sha256", py (Component.datasheet_sha256 x));
    ("pin_map_sha256", py (Component.pin_map_sha256 x)); ("pins", py (Component.pins x))].
#[export] Instance py_connection : Canonical NetConnection.t := fun x =>
  PData [("component_id", py (NetConnection.component_id x)); ("pin_number", py (NetConnection.pin_number x))].
#[export] Instance py_net : Canonical Net.t := fun x =>
  PData [("net_id", py (Net.net_id x)); ("name", py (Net.name x)); ("connections", py (Net.connections x));
    ("external_source", py (Net.external_source x))].
#[export] Instance py_track : Canonical Track.t := fun x =>
  PData [("track_id", py (Track.track_id x)); ("net_id", py (Track.net_id x)); ("layer", py (Track.layer x));
    ("start", py (Track.start x)); ("end", py (Track.end_ x)); ("width_nm", py (Track.width_nm x))].
#[export] Instance py_via : Canonical Via.t := fun x =>
  PData [("via_id", py (Via.via_id x)); ("net_id", py (Via.net_id x)); ("center", py (Via.center x));
    ("diameter_nm", py (Via.diameter_nm x)); ("drill_nm", py (Via.drill_nm x)); ("layers", py (Via.layers x))].
#[export] Instance py_pad : Canonical PhysicalPad.t := fun x =>
  PData [("pad_id", py (PhysicalPad.pad_id x)); ("component_id", py (PhysicalPad.component_id x));
    ("pad_number", py (PhysicalPad.pad_number x)); ("net_id", py (PhysicalPad.net_id x));
    ("center", py (PhysicalPad.center x)); ("size_x_nm", py (PhysicalPad.size_x_nm x));
    ("size_y_nm", py (PhysicalPad.size_y_nm x)); ("shape", py (PhysicalPad.shape x));
    ("rotation_udeg", py (PhysicalPad.rotation_udeg x)); ("layers", py (PhysicalPad.layers x));
    ("drill_nm", py (PhysicalPad.drill_nm x)); ("drill_x_nm", py (PhysicalPad.drill_x_nm x));
    ("drill_y_nm", py (PhysicalPad.drill_y_nm x));
    ("drill_rotation_udeg", py (PhysicalPad.drill_rotation_udeg x));
    ("shared_land_group_id", py (PhysicalPad.shared_land_group_id x))].
#[export] Instance py_hole : Canonical Hole.t := fun x =>
  PData [("hole_id", py (Hole.hole_id x)); ("component_id", py (Hole.component_id x));
    ("center", py (Hole.center x)); ("diameter_nm", py (Hole.diameter_nm x)); ("plated", py (Hole.plated x));
    ("pad_id", py (Hole.pad_id x)); ("drill_x_nm", py (Hole.drill_x_nm x));
    ("drill_y_nm", py (Hole.drill_y_nm x)); ("drill_rotation_udeg", py (Hole.drill_rotation_udeg x))].
#[export] Instance py_fill_evidence : Canonical ZoneFillEvidence.t := fun x =>
  PData [("source_graph_hash", py (ZoneFillEvidence.source_graph_hash x));
    ("source_revision", py (ZoneFillEvidence.source_revision x));
    ("fill_engine_id", py (ZoneFillEvidence.fill_engine_id x));
    ("fill_engine_revision", py (ZoneFillEvidence.fill_engine_revision x));
    ("filled_geometry_hash", py (ZoneFillEvidence.filled_geometry_hash x));
    ("evidence_hash", py (ZoneFillEvidence.evidence_hash x))].
#[export] Instance py_zone : Canonical Zone.t := fun x =>
  PData [("zone_id", py (Zone.zone_id x)); ("net_id", py (Zone.net_id x)); ("layer", py (Zone.layer x));
    ("outline", outline_value (Zone.outline x)); ("clearance_nm", py (Zone.clearance_nm x));
    ("fill_state", py (Zone.fill_state x)); ("fill_evidence", py (Zone.fill_evidence x))].
#[export] Instance py_board : Canonical BoardGraph.t := fun x =>
  PData [("schema_version", py (BoardGraph.schema_version x)); ("design_id", py (BoardGraph.design_id x));
    ("revision", py (BoardGraph.revision x)); ("layers", py (BoardGraph.layers x));
    ("outline", outline_value (BoardGraph.outline x)); ("components", py (BoardGraph.components x));
    ("nets", py (BoardGraph.nets x)); ("tracks", py (BoardGraph.tracks x)); ("vias", py (BoardGraph.vias x));
    ("unsupported_features", py (BoardGraph.unsupported_features x)); ("zones", py (BoardGraph.zones x));
    ("holes", py (BoardGraph.holes x)); ("pads", py (BoardGraph.pads x))].

(** ** Rules and evidence *)

#[export] Instance py_scalar : Canonical scalar := fun s =>
  match s with SStr s => PStr s | SInt z => PInt z | SBool b => PBool b end.
#[export] Instance py_evidence : Canonical evidence := fun e =>
  match e with Scalar s => py s | Tuple l => py l end.
#[export] Instance py_item : Canonical EvidenceItem.t := fun x =>
  PData [("name", py (EvidenceItem.name x)); ("value", py (EvidenceItem.value x))].
#[export] Instance py_parameter_value : Canonical ParameterValue.t := fun x =>
  PData [("name", py (ParameterValue.name x)); ("value", py (ParameterValue.value x))].
#[export] Instance py_parameter_spec : Canonical ParameterSpec.t := fun x =>
  PData [("name", py (ParameterSpec.name x)); ("parameter_type", py (ParameterSpec.parameter_type x));
    ("default", py (ParameterSpec.default x)); ("minimum", py (ParameterSpec.minimum x));
    ("maximum", py (ParameterSpec.maximum x))].
#[export] Instance py_rule_definition : Canonical RuleDefinition.t := fun x =>
  PData [("rule_id", py (RuleDefinition.rule_id x)); ("version", py (RuleDefinition.version x));
    ("domain", py (RuleDefinition.domain x)); ("title", py (RuleDefinition.title x));
    ("description", py (RuleDefinition.description x));
    ("default_severity", py (RuleDefinition.default_severity x));
    ("parameters", py (RuleDefinition.parameters x)); ("mandatory", py (RuleDefinition.mandatory x))].

(** ** The fill of a zone *)

(** [zone_filled_geometry_hash(zone)] *)
Definition zone_filled_geometry_hash (zone : Zone.t) : result string :=
  stable_hash (PMap [
    (KStr "zone_id", py (Zone.zone_id zone)); (KStr "net_id", py (Zone.net_id zone));
    (KStr "layer", py (Zone.layer zone)); (KStr "outline", outline_value (Outline.normalized (Zone.outline zone)));
    (KStr "clearance_nm", py (Zone.clearance_nm zone))]) "pcb-zone-filled-geometry-v1".

(** [zone_fill_evidence_hash(evidence)] *)
Definition zone_fill_evidence_hash (evidence : ZoneFillEvidence.t) : result string :=
  stable_hash (PMap [
    (KStr "source_graph_hash", py (ZoneFillEvidence.source_graph_hash evidence));
    (KStr "source_revision", py (ZoneFillEvidence.source_revision evidence));
    (KStr "fill_engine_id", py (ZoneFillEvidence.fill_engine_id evidence));
    (KStr "fill_engine_revision", py (ZoneFillEvidence.fill_engine_revision evidence));
    (KStr "filled_geometry_hash", py (ZoneFillEvidence.filled_geometry_hash evidence))]) "pcb-zone-fill-evidence-v1".
