(* ===== verification/Policy.v ===== *)
(** * Policies, findings and reports (backend/verification/model.py, rule.py, engine.py)

    The records that the engine reads and writes, with their normal forms, the
    order of the findings and the default policy. *)
From S2P Require Import Prelude PyDict PyStr Geometry Board Canonical BoardValues.

Local Open Scope string_scope.

Module RuleExecutionOutcome.
Inductive t := PASS | FAIL | NOT_RUN.
#[global] Instance eq_dec : EqDecision t.
Proof. solve_decision. Defined.
Definition value (x : t) : string := match x with PASS => "pass" | FAIL => "fail" | NOT_RUN => "not_run" end.
End RuleExecutionOutcome.

(** ** Comparison of the values of evidence and parameters

    Python compares numbers and booleans by their value, texts by their
    characters and tuples from the left; other pairs raise TypeError. *)

Definition scalar_key (s : scalar) : Z * (Z * string) :=
  match s with
  | SInt z => (0, (z, ""))
  | SBool b => (0, (if b then 1 else 0, ""))
  | SStr s => (1, (0, s))
  end%Z.
Definition evidence_key (e : evidence) : Z * list (Z * (Z * string)) :=
  match e with Scalar s => (0%Z, [scalar_key s]) | Tuple l => (1%Z, scalar_key <$> l) end.
Definition item_key (i : EvidenceItem.t) : string * (Z * list (Z * (Z * string))) :=
  (EvidenceItem.name i, evidence_key (EvidenceItem.value i)).
Definition parameter_key (p : ParameterValue.t) : string * (Z * (Z * string)) :=
  (ParameterValue.name p, scalar_key (ParameterValue.value p)).

(** [a < b] raises: the first difference is between a text and a number. *)
Definition scalars_clash (a b : Z * (Z * string)) : bool := negb (bool_decide (a.1 = b.1)).
Fixpoint tuples_clash (l1 l2 : list (Z * (Z * string))) : bool :=
  match l1, l2 with
  | a :: l1, b :: l2 => if bool_decide (a = b) then tuples_clash l1 l2 else scalars_clash a b
  | _, _ => false
  end.
Definition items_clash (a b : EvidenceItem.t) : bool :=
  let '(name1, (kind1, l1)) := item_key a in
  let '(name2, (kind2, l2)) := item_key b in
  bool_decide (name1 = name2) && (negb (bool_decide (kind1 = kind2)) || tuples_clash l1 l2).
Definition parameters_clash (a b : ParameterValue.t) : bool :=
  bool_decide (ParameterValue.name a = ParameterValue.name b) &&
  scalars_clash (scalar_key (ParameterValue.value a)) (scalar_key (ParameterValue.value b)).

(** [sorted(l)]: a sort compares the neighbours of its result, so it raises as
    soon as two elements cannot be compared. *)
Definition sorted_or_raise {A K} `{PyOrd K} (clash : A -> A -> bool) (key : A -> K) (l : list A) : result (list A) :=
  raise_if (existsb (fun a => existsb (clash a) l) l) (Exn TypeError "'<' not supported between instances") ;;;
  Ok (sorted_on key l).

(** [RuleOverride.normalized] *)
Definition override_normalized (o : RuleOverride.t) : result RuleOverride.t :=
  let* parameters := sorted_or_raise parameters_clash parameter_key (RuleOverride.parameters o) in
  Ok (RuleOverride.mk (RuleOverride.rule_id o) (RuleOverride.enabled o) (RuleOverride.severity o) parameters).

Definition entity_key (e : EntityRef.t) : string * string := (EntityRef.kind e, EntityRef.entity_id e).

(** [FindingDraft.normalized] *)
Definition draft_normalized (d : FindingDraft.t) : result FindingDraft.t :=
  let* items := sorted_or_raise items_clash item_key (FindingDraft.items d) in
  Ok (FindingDraft.mk (FindingDraft.message d) (sorted_on entity_key (remove_dups (FindingDraft.entities d))) items).

(** ** Policies *)

Module GateDefinition.
Record t := mk {
  gate_id : string;
  title : string;
  block_at_or_above : Severity.t;
  domains : list RuleDomain.t;
  rule_ids : list string;
  exempt_rule_ids : list string;
  required_external_evidence_ids : list string;
}.

Definition normalized (g : t) : t :=
  mk (gate_id g) (title g) (block_at_or_above g) (sorted_on RuleDomain.value (remove_dups (domains g)))
    (sorted_set (rule_ids g)) (sorted_set (exempt_rule_ids g)) (sorted_set (required_external_evidence_ids g)).
End GateDefinition.

Module VerificationPolicy.
Record t := mk { overrides : list RuleOverride.t; gates : list GateDefinition.t }.

Definition normalized (p : t) : result t :=
  let* overrides := mapM override_normalized (overrides p) in
  Ok (mk (sorted_on RuleOverride.rule_id overrides)
        (sorted_on GateDefinition.gate_id (GateDefinition.normalized <$> gates p))).
End VerificationPolicy.

(** ** Findings and reports *)

Module Finding.
Record t := mk {
  finding_id : string;
  rule_id : string;
  rule_version : string;
  domain : RuleDomain.t;
  severity : Severity.t;
  message : string;
  entities : list EntityRef.t;
  items : list EvidenceItem.t;
  evidence_hash : string;
}.
(** Python's equality: booleans equal the numbers 0 and 1. *)
Definition eq_key (f : t) :=
  (finding_id f, rule_id f, rule_version f, domain f, severity f, message f, entities f, item_key <$> items f,
   evidence_hash f).
End Finding.

Module RuleExecution.
Record t := mk {
  rule_id : string;
  rule_version : string;
  enabled : bool;
  severity : Severity.t;
  parameters : list ParameterValue.t;
  finding_ids : list string;
  outcome : RuleExecutionOutcome.t;
  blocker_ids : list string;
}.
End RuleExecution.

Module GateDecision.
Record t := mk {
  gate_id : string;
  passed : bool;
  blocking_finding_ids : list string;
  blocking_rule_ids : list string;
  unavailable_evidence_ids : list string;
  evidence_hash : string;
}.
End GateDecision.

Module VerificationReport.
Record t := mk {
  schema_version : Z;
  engine_version : string;
  run_id : string;
  input_hash : string;
  rule_set_hash : string;
  findings : list Finding.t;
  executions : list RuleExecution.t;
  gates : list GateDecision.t;
  report_hash : string;
}.
End VerificationReport.

(** [finding_order_key(finding)] *)
Definition finding_order_key (f : Finding.t) : Z * (string * (list (string * string) * string)) :=
  ((- Severity.rank (Finding.severity f))%Z,
   (Finding.rule_id f, (entity_key <$> Finding.entities f, Finding.finding_id f))).

#[export] Instance py_outcome : Canonical RuleExecutionOutcome.t := fun x => PStr (RuleExecutionOutcome.value x).
#[export] Instance py_gate : Canonical GateDefinition.t := fun x =>
  PData [("gate_id", py (GateDefinition.gate_id x)); ("title", py (GateDefinition.title x));
    ("block_at_or_above", py (GateDefinition.block_at_or_above x)); ("domains", py (GateDefinition.domains x));
    ("rule_ids", py (GateDefinition.rule_ids x)); ("exempt_rule_ids", py (GateDefinition.exempt_rule_ids x));
    ("required_external_evidence_ids", py (GateDefinition.required_external_evidence_ids x))].
#[export] Instance py_finding : Canonical Finding.t := fun x =>
  PData [("finding_id", py (Finding.finding_id x)); ("rule_id", py (Finding.rule_id x));
    ("rule_version", py (Finding.rule_version x)); ("domain", py (Finding.domain x));
    ("severity", py (Finding.severity x)); ("message", py (Finding.message x));
    ("entities", py (Finding.entities x)); ("evidence", py (Finding.items x));
    ("evidence_hash", py (Finding.evidence_hash x))].
#[export] Instance py_execution : Canonical RuleExecution.t := fun x =>
  PData [("rule_id", py (RuleExecution.rule_id x)); ("rule_version", py (RuleExecution.rule_version x));
    ("enabled", py (RuleExecution.enabled x)); ("severity", py (RuleExecution.severity x));
    ("parameters", py (RuleExecution.parameters x)); ("finding_ids", py (RuleExecution.finding_ids x));
    ("outcome", py (RuleExecution.outcome x)); ("blocker_ids", py (RuleExecution.blocker_ids x))].
#[export] Instance py_decision : Canonical GateDecision.t := fun x =>
  PData [("gate_id", py (GateDecision.gate_id x)); ("passed", py (GateDecision.passed x));
    ("blocking_finding_ids", py (GateDecision.blocking_finding_ids x));
    ("blocking_rule_ids", py (GateDecision.blocking_rule_ids x));
    ("unavailable_evidence_ids", py (GateDecision.unavailable_evidence_ids x));
    ("evidence_hash", py (GateDecision.evidence_hash x))].
