(* ===== verification/CanonicalFacts.v ===== *)
(** * What canonical hashes commit to

    The laws of [Canonical] for the basic types and for records, and the
    separation of the domains of [stable_hash]; then the records of a board, of
    a policy and of a report. *)
From S2P Require Import Prelude PyDict PyStr Sha256 Json Models DigestFacts Geometry Board Canonical BoardValues.
From S2P Require Import Policy.

Local Open Scope string_scope.

(** ** Records *)

Lemma Forall_Forall2_ex {A B} (R : A -> B -> Prop) (l : list A) :
  Forall (fun x => exists y, R x y) l -> exists l', Forall2 R l l'.
Proof.
  induction 1 as [|x l (y & Hy) _ (l' & IH)]; [exists []; constructor|]. exists (y :: l'). by constructor.
Qed.

Lemma record_canonical fields :
  NoDup fields.*1 -> Forall (fun kv => canonical_value kv.2) fields -> canonical_value (PData fields).
Proof.
  intros Hnd H.
  destruct (Forall_Forall2_ex (fun kv (kj : string * json) => kv.1 = kj.1 /\ canonical_data kv.2 = Ok kj.2 /\ json_wf kj.2)
    fields) as (l & Hl).
  { eapply Forall_impl; [exact H|]. intros [k v] (j & Hj & Hw). by exists (k, j). }
  exists (JObj l). split.
  - apply canonical_obj. exists l. split; [done|]. eapply Forall2_impl; [exact Hl|]. naive_solver.
  - assert (l.*1 = fields.*1) as Hk.
    { clear Hnd H. induction Hl as [|? ? ? ? (E & _) _ IH]; [done|]. cbn. by rewrite E, IH. }
    constructor; [by rewrite Hk|]. clear -Hl. induction Hl; constructor; naive_solver.
Qed.

Definition same_field (kv : string * pyval) (kj : string * json) : Prop :=
  kv.1 = kj.1 /\ canonical_data kv.2 = Ok kj.2.

Lemma same_field_keys fields l : Forall2 same_field fields l -> l.*1 = fields.*1.
Proof. induction 1 as [|? ? ? ? (E & _) _ IH]; [done|]. cbn. by rewrite E, IH. Qed.

(** The fields of two objects with the same canonical JSON, in any order. *)
Lemma fields_same fields1 fields2 l1 l1' l2 l2' :
  NoDup fields1.*1 -> fields1.*1 = fields2.*1 -> l1' ≡ₚ l1 -> l2' ≡ₚ l2 ->
  Forall2 same_field fields1 l1 -> Forall2 same_field fields2 l2 -> canon (JObj l1') = canon (JObj l2') ->
  Forall2 (fun kv1 kv2 => same_data kv1.2 kv2.2) fields1 fields2.
Proof.
  intros Hnd Hk P1 P2 H1 H2 E.
  assert (NoDup l1.*1) as N1 by (by rewrite (same_field_keys _ _ H1)).
  assert (NoDup l2.*1) as N2 by (by rewrite (same_field_keys _ _ H2), <- Hk).
  apply Forall2_same_length_lookup. split.
  { rewrite <- (length_fmap fst fields1), Hk, length_fmap. done. }
  intros i [k1 v1] [k2 v2] L1 L2. simpl.
  destruct (Forall2_lookup_l _ _ _ _ _ H1 L1) as ([k1' j1] & M1 & E1 & D1).
  destruct (Forall2_lookup_l _ _ _ _ _ H2 L2) as ([k2' j2] & M2 & E2 & D2). simpl in *. subst k1' k2'.
  assert (k1 = k2) as <-.
  { apply (f_equal (fun l => l !! i)) in Hk. rewrite !list_lookup_fmap, L1, L2 in Hk. by injection Hk. }
  exists j1, j2. split_and!; [done..|].
  assert (NoDup l1'.*1) as N1' by (by rewrite P1). assert (NoDup l2'.*1) as N2' by (by rewrite P2).
  pose proof (canon_obj_field l1' l2' k1 E N1' N2') as F.
  rewrite (proj2 (assoc_get_elem k1 j1 l1' N1')), (proj2 (assoc_get_elem k1 j2 l2' N2')) in F
    by (rewrite ?P1, ?P2; by eapply list_elem_of_lookup_2).
  by injection F.
Qed.

(** The fields of two records with the same data have the same data. *)
Lemma record_same fields1 fields2 :
  NoDup fields1.*1 -> fields1.*1 = fields2.*1 -> same_data (PData fields1) (PData fields2) ->
  Forall2 (fun kv1 kv2 => same_data kv1.2 kv2.2) fields1 fields2.
Proof.
  intros Hnd Hk (j & k & (l1 & -> & H1)%canonical_obj & (l2 & -> & H2)%canonical_obj & E). by eapply fields_same.
Qed.

(** A mapping is an object with the fields in another order. *)
Definition mapping (fields : list (string * pyval)) : pyval := PMap ((fun kv => (KStr kv.1, kv.2)) <$> fields).

Lemma mapping_data fields :
  canonical_data (mapping fields) =
  (let* l := sequence_pairs (sorted_on fst ((fun kv => (kv.1, canonical_data kv.2)) <$> fields)) in Ok (JObj l)).
Proof.
  unfold mapping. cbn [canonical_data].
  set (entries := (fun '(k, v) => (k, canonical_data v)) <$> ((fun kv => (KStr kv.1, kv.2)) <$> fields)).
  assert (forallb (fun kv : pykey * result json => is_str_key kv.1) entries = true) as E.
  { apply forallb_forall. intros kv Hin%list_elem_of_In. unfold entries in Hin. rewrite <- list_fmap_compose in Hin.
    by apply list_elem_of_fmap in Hin as ([k v] & -> & _). }
  unfold sorted_entries. rewrite E. cbn [bind]. unfold entries. rewrite <- !list_fmap_compose.
  done.
Qed.

Lemma mapping_obj fields j :
  canonical_data (mapping fields) = Ok j -> exists l l', j = JObj l' /\ l' ≡ₚ l /\ Forall2 same_field fields l.
Proof.
  rewrite mapping_data. intros (l' & Hl%sequence_pairs_Ok & [= <-])%bind_Ok.
  destruct (Permutation_Forall2 (sorted_on_Permutation fst _) Hl) as (l & Hp & Hl').
  exists l, l'. by apply Forall2_fmap_l in Hl'.
Qed.

Lemma mapping_canonical fields :
  NoDup fields.*1 -> Forall (fun kv => canonical_value kv.2) fields -> canonical_value (mapping fields).
Proof.
  intros Hnd H. destruct (record_canonical fields Hnd H) as (j & (l & -> & Hl)%canonical_obj & Hw).
  change (Forall2 same_field fields l) in Hl.
  assert (Forall2 (fun (kr : string * result json) (kj : string * json) => kr.1 = kj.1 /\ kr.2 = Ok kj.2)
    ((fun kv => (kv.1, canonical_data kv.2)) <$> fields) l) as Hl2 by (by apply Forall2_fmap_l).
  destruct (Permutation_Forall2 (symmetry (sorted_on_Permutation fst _)) Hl2) as (l' & Hp & Hl').
  exists (JObj l'). split.
  - rewrite mapping_data. apply sequence_pairs_Ok in Hl'. by rewrite Hl'.
  - inversion Hw; subst. constructor; by rewrite <- Hp.
Qed.

Lemma mapping_same fields1 fields2 :
  NoDup fields1.*1 -> fields1.*1 = fields2.*1 -> same_data (mapping fields1) (mapping fields2) ->
  Forall2 (fun kv1 kv2 => same_data kv1.2 kv2.2) fields1 fields2.
Proof.
  intros Hnd Hk (j & k & (l1 & l1' & -> & P1 & H1)%mapping_obj & (l2 & l2' & -> & P2 & H2)%mapping_obj & E).
  refine (fields_same _ _ _ _ _ _ Hnd Hk P1 P2 H1 H2 E).
Qed.

(** The fields of a literal mapping. *)
Ltac fields_of entries :=
  lazymatch entries with
  | nil => constr:(@nil (string * pyval))
  | cons (KStr ?k, ?v) ?rest => let fields := fields_of rest in constr:(cons (k, v) fields)
  end.

(** A literal mapping is canonical when its fields are. *)
Ltac canonical_fields :=
  lazymatch goal with
  | |- canonical_value (PMap ?entries) =>
    let fields := fields_of entries in change (canonical_value (mapping fields));
    apply mapping_canonical; [apply (bool_decide_unpack _); vm_compute; reflexivity|];
    repeat (first [apply Forall_nil_2|apply Forall_cons_2; [cbn [snd]|]])
  end.

Lemma record_not_none fields : ~ same_data (PData fields) PNone.
Proof. intros (j & k & (l & -> & _)%canonical_obj & [= <-] & E). discriminate. Qed.

(** ** Basic types, options and lists *)

#[export] Instance str_laws : CanonicalLaws string.
Proof.
  split; [intros x; exists (JStr x); split; [done|constructor]|].
  intros x y (j & k & [= <-] & [= <-] & [= E]). done.
Qed.
#[export] Instance int_laws : CanonicalLaws Z.
Proof.
  split; [intros x; exists (JInt x); split; [done|constructor]|].
  intros x y (j & k & [= <-] & [= <-] & [= E]). done.
Qed.
#[export] Instance bool_laws : CanonicalLaws bool.
Proof.
  split; [intros x; exists (JBool x); split; [done|constructor]|].
  intros x y (j & k & [= <-] & [= <-] & [= E]). done.
Qed.
#[export] Instance str_not_none : NotNone string.
Proof. by intros x (j & k & [= <-] & [= <-] & ?). Qed.
#[export] Instance int_not_none : NotNone Z.
Proof. by intros x (j & k & [= <-] & [= <-] & ?). Qed.

Lemma same_data_sym v w : same_data v w -> same_data w v.
Proof. intros (j & k & ? & ? & ?). by exists k, j. Qed.

#[export] Instance option_laws {A} `{CanonicalLaws A, !NotNone A} : CanonicalLaws (option A).
Proof.
  split.
  - intros [x|]; [apply (py_canonical x)|]. exists JNull. split; [done|constructor].
  - intros [x|] [y|] E; [f_equal; by apply (py_inj x y)| | |done].
    + by apply (py_not_none x) in E.
    + by apply same_data_sym, (py_not_none y) in E.
Qed.

#[export] Instance list_laws {A} `{CanonicalLaws A} : CanonicalLaws (list A).
Proof.
  split.
  - intros l. destruct (Forall_Forall2_ex (fun v j => canonical_data v = Ok j /\ json_wf j) (py <$> l)) as (js & Hjs).
    { apply Forall_fmap, Forall_true. intros x. apply py_canonical. }
    exists (JArr js). split.
    + apply canonical_seq. exists js. split; [done|]. eapply Forall2_impl; [exact Hjs|]. naive_solver.
    + constructor. clear -Hjs. induction Hjs; constructor; naive_solver.
  - intros l1 l2 (j & k & (js & -> & H1)%canonical_seq & (ks & -> & H2)%canonical_seq & E).
    cbn in E. injection E as E. apply Forall2_fmap_l in H1, H2.
    revert js ks H1 H2 E. revert l2. induction l1 as [|x l1 IH]; intros [|y l2] js ks H1 H2 E.
    + done.
    + inversion H1; inversion H2; subst. discriminate.
    + inversion H1; inversion H2; subst. discriminate.
    + inversion H1; inversion H2; subst. cbn in E. injection E as E1 E2. f_equal.
      * apply py_inj. eexists _, _. eauto.
      * by eapply IH.
Qed.

(** An enumeration is its string. *)
Lemma enum_laws {A} (f : A -> string) `{!Inj (=) (=) f} : @CanonicalLaws A (fun x => PStr (f x)).
Proof.
  split; [intros x; exists (JStr (f x)); split; [done|constructor]|].
  intros x y (j & k & [= <-] & [= <-] & [= E]). by apply (inj f).
Qed.
Lemma enum_not_none {A} (f : A -> string) : @NotNone A (fun x => PStr (f x)).
Proof. by intros x (j & k & [= <-] & [= <-] & ?). Qed.

(** The laws of the fields that are not values of [py]. *)
Create HintDb canonical.

(** The laws of a record, whose fields are listed by [py]. *)
Ltac record_laws :=
  split;
  [ intros x; apply record_canonical;
    [apply (bool_decide_unpack _); vm_compute; reflexivity
    |repeat (first [apply Forall_nil_2|apply Forall_cons_2; [cbn [snd]; first [apply py_canonical|auto with canonical]|]])]
  | intros x y E; apply record_same in E;
    [|apply (bool_decide_unpack _); vm_compute; reflexivity|reflexivity];
    repeat match goal with H : Forall2 _ (_ :: _) _ |- _ => apply Forall2_cons in H as [? H]; cbn [snd] in * end;
    destruct x, y; simpl in *; f_equal; first [by apply py_inj|auto with canonical] ].

(** ** Domains *)

Lemma nul_free_split d1 d2 t1 t2 :
  nul_free d1 = true -> nul_free d2 = true -> d1 +:+ String nul t1 = d2 +:+ String nul t2 -> d1 = d2 /\ t1 = t2.
Proof.
  revert d2. induction d1 as [|c d1 IH]; intros [|c2 d2] H1 H2 E.
  - by injection E.
  - injection E as <- _. discriminate H2.
  - injection E as -> _. discriminate H1.
  - injection E as -> E. simpl in H1, H2. apply andb_true_iff in H1 as [_ H1], H2 as [_ H2].
    destruct (IH d2 H1 H2 E) as [-> ->]. done.
Qed.

Lemma utf8_app s1 s2 : utf8 (s1 +:+ s2) = (utf8 s1 ++ utf8 s2)%list.
Proof.
  induction s1 as [|c s1 IH]; [done|]. simpl. case_match; simpl; by rewrite IH.
Qed.

(** The text that a hash is taken of. *)
Definition hashed_text (domain : string) (j : json) : string := domain +:+ String nul (canonical_json j).

Lemma stable_hash_Ok v domain h :
  stable_hash v domain = Ok h <->
  domain <> "" /\ nul_free domain = true /\
  exists j, canonical_data v = Ok j /\ h = sha256_text (hashed_text domain j).
Proof.
  unfold stable_hash. rewrite seq_Ok, raise_if_Ok, bind_Ok. unfold canonical_json_bytes.
  assert (forall j, sha256_hex (utf8 domain ++ utf8 (String nul "") ++ utf8 (canonical_json j))%list =
    sha256_text (hashed_text domain j)) as Ht.
  { intros j. unfold sha256_text, hashed_text. by rewrite <- !utf8_app. }
  rewrite orb_false_iff, negb_false_iff. unfold str_empty. rewrite bool_decide_eq_false. split.
  - intros ([? ?] & b & (j & Hj & [= <-])%bind_Ok & [= <-]). split_and!; [done..|]. exists j. split; [done|apply Ht].
  - intros (? & ? & j & Hj & ->). split; [done|]. exists (utf8 (canonical_json j)). rewrite Hj. split; [done|]. f_equal. apply Ht.
Qed.

(** The two hashed texts are a collision of SHA-256. *)
Definition hash_collision (v1 : pyval) (d1 : string) (v2 : pyval) (d2 : string) : Prop :=
  exists j1 j2, canonical_data v1 = Ok j1 /\ canonical_data v2 = Ok j2 /\
    sha256_collision (hashed_text d1 j1) (hashed_text d2 j2).

(** A hash of a record of a literal domain is always there. *)
Lemma stable_hash_py {A} `{CanonicalLaws A} (x : A) domain :
  domain <> "" -> nul_free domain = true -> exists h, stable_hash (py x) domain = Ok h.
Proof.
  intros Hd Hn. destruct (py_canonical x) as (j & Hj & _). eexists. apply stable_hash_Ok. eauto.
Qed.

Lemma same_hash_same_data v1 v2 d1 d2 h :
  canonical_value v1 -> canonical_value v2 -> stable_hash v1 d1 = Ok h -> stable_hash v2 d2 = Ok h ->
  (d1 = d2 /\ same_data v1 v2) \/ hash_collision v1 d1 v2 d2.
Proof.
  intros (j1 & D1 & W1) (j2 & D2 & W2) (_ & N1 & j1' & E1 & H1)%stable_hash_Ok (_ & N2 & j2' & E2 & H2)%stable_hash_Ok.
  assert (j1' = j1) as -> by congruence. assert (j2' = j2) as -> by congruence.
  destruct (decide (hashed_text d1 j1 = hashed_text d2 j2)) as [E|Hne].
  - left. apply nul_free_split in E as [-> E]; [|done..]. split; [done|].
    exists j1, j2. split_and!; [done..|]. by apply canonical_json_inj.
  - right. exists j1, j2. split_and!; [done..|]. split; [done|]. congruence.
Qed.

(** * What the values of the board records determine

    The laws of [Canonical] for the records of a board, of a policy and of a
    report: each is canonical data, and the data determine the record. *)

(** ** Enumerations *)

#[export] Instance severity_value_inj : Inj (=) (=) Severity.value.
Proof. by intros [] []. Qed.
#[export] Instance domain_value_inj : Inj (=) (=) RuleDomain.value.
Proof. by intros [] []. Qed.
#[export] Instance parameter_type_value_inj : Inj (=) (=) ParameterType.value.
Proof. by intros [] []. Qed.
#[export] Instance electrical_type_value_inj : Inj (=) (=) PinElectricalType.value.
Proof. by intros [] []. Qed.
#[export] Instance shape_value_inj : Inj (=) (=) PadShape.value.
Proof. by intros [] []. Qed.
#[export] Instance fill_state_value_inj : Inj (=) (=) ZoneFillState.value.
Proof. by intros [] []. Qed.
#[export] Instance outcome_value_inj : Inj (=) (=) RuleExecutionOutcome.value.
Proof. by intros [] []. Qed.

#[export] Instance severity_laws : CanonicalLaws Severity.t := enum_laws _.
#[export] Instance domain_laws : CanonicalLaws RuleDomain.t := enum_laws _.
#[export] Instance parameter_type_laws : CanonicalLaws ParameterType.t := enum_laws _.
#[export] Instance electrical_type_laws : CanonicalLaws PinElectricalType.t := enum_laws _.
#[export] Instance shape_laws : CanonicalLaws PadShape.t := enum_laws _.
#[export] Instance fill_state_laws : CanonicalLaws ZoneFillState.t := enum_laws _.
#[export] Instance outcome_laws : CanonicalLaws RuleExecutionOutcome.t := enum_laws _.

(** ** The board *)

#[export] Instance point_laws : CanonicalLaws PointNm.t.
Proof. record_laws. Qed.
#[export] Instance point_not_none : NotNone PointNm.t.
Proof. intros x. apply record_not_none. Qed.

Lemma outline_canonical vertices : canonical_value (outline_value vertices).
Proof.
  apply record_canonical; [apply NoDup_singleton|]. apply Forall_singleton, py_canonical.
Qed.
Lemma outline_inj v w : same_data (outline_value v) (outline_value w) -> v = w.
Proof.
  intros E. apply record_same in E; [|apply NoDup_singleton|done].
  apply Forall2_cons in E as [E _]. cbn [snd] in E. by apply py_inj in E.
Qed.
#[export] Hint Resolve outline_canonical outline_inj : canonical.

#[export] Instance entity_laws : CanonicalLaws EntityRef.t.
Proof. record_laws. Qed.
#[export] Instance pin_laws : CanonicalLaws Pin.t.
Proof. record_laws. Qed.
#[export] Instance component_laws : CanonicalLaws Component.t.
Proof. record_laws. Qed.
#[export] Instance connection_laws : CanonicalLaws NetConnection.t.
Proof. record_laws. Qed.
#[export] Instance net_laws : CanonicalLaws Net.t.
Proof. record_laws. Qed.
#[export] Instance track_laws : CanonicalLaws Track.t.
Proof. record_laws. Qed.
#[export] Instance via_laws : CanonicalLaws Via.t.
Proof. record_laws. Qed.
#[export] Instance pad_laws : CanonicalLaws PhysicalPad.t.
Proof. record_laws. Qed.
#[export] Instance hole_laws : CanonicalLaws Hole.t.
Proof. record_laws. Qed.
#[export] Instance fill_evidence_laws : CanonicalLaws ZoneFillEvidence.t.
Proof. record_laws. Qed.
#[export] Instance fill_evidence_not_none : NotNone ZoneFillEvidence.t.
Proof. intros x. apply record_not_none. Qed.
#[export] Instance zone_laws : CanonicalLaws Zone.t.
Proof. record_laws. Qed.
#[export] Instance board_laws : CanonicalLaws BoardGraph.t.
Proof. record_laws. Qed.

(** ** Rules, findings and gates *)

#[export] Instance scalar_laws : CanonicalLaws scalar.
Proof.
  split.
  - intros []; [eexists (JStr _)|eexists (JInt _)|eexists (JBool _)]; (split; [reflexivity|constructor]).
  - intros [] [] (j & k & [= <-] & [= <-] & E); try discriminate; injection E as E; by rewrite E.
Qed.
#[export] Instance evidence_laws : CanonicalLaws evidence.
Proof.
  split.
  - intros [s|l]; [apply (py_canonical s)|apply (py_canonical l)].
  - intros [s|l] [s'|l'] E.
    + f_equal. by apply py_inj.
    + destruct E as (j & k & Hj & (ks & -> & _)%canonical_seq & E). destruct s; injection Hj as <-; discriminate.
    + destruct E as (j & k & (ks & -> & _)%canonical_seq & Hk & E). destruct s'; injection Hk as <-; discriminate.
    + f_equal. by apply (py_inj l l').
Qed.
#[export] Instance item_laws : CanonicalLaws EvidenceItem.t.
Proof. record_laws. Qed.
#[export] Instance parameter_value_laws : CanonicalLaws ParameterValue.t.
Proof. record_laws. Qed.
#[export] Instance parameter_spec_laws : CanonicalLaws ParameterSpec.t.
Proof. record_laws. Qed.
#[export] Instance rule_definition_laws : CanonicalLaws RuleDefinition.t.
Proof. record_laws. Qed.
#[export] Instance gate_laws : CanonicalLaws GateDefinition.t.
Proof. record_laws. Qed.
#[export] Instance finding_laws : CanonicalLaws Finding.t.
Proof. record_laws. Qed.
#[export] Instance execution_laws : CanonicalLaws RuleExecution.t.
Proof. record_laws. Qed.
#[export] Instance decision_laws : CanonicalLaws GateDecision.t.
Proof. record_laws. Qed.
