(* ===== verification/ElectricalFacts.v ===== *)
(** * What the reference rule decides

    The rule for graph references is silent exactly when ids are unique and
    every connection of a net names one pin, that is in no other net. *)
From S2P Require Import Prelude PyDict PyStr Board Copper GeoRules ElectricalRules.
Import GraphReferenceIntegrityRule.

Local Open Scope string_scope.

(** ** Repetitions *)

Lemma count_of_cons l x y : count_of (y :: l) x = if decide (y = x) then S (count_of l x) else count_of l x.
Proof. unfold count_of. rewrite filter_cons. by case_decide. Qed.

Lemma count_of_pos l x : x ∈ l <-> (0 < count_of l x)%nat.
Proof.
  induction l as [|y l IH].
  - split; [by intros ?%not_elem_of_nil|cbn; lia].
  - rewrite count_of_cons, elem_of_cons, IH. case_decide; naive_solver lia.
Qed.

Lemma none_repeated l : (forall x, x ∈ l -> repeated l x = false) <-> NoDup l.
Proof.
  unfold repeated. setoid_rewrite Nat.ltb_ge. induction l as [|y l IH].
  - split; [constructor|by intros _ x ?%not_elem_of_nil].
  - rewrite NoDup_cons, <- IH. setoid_rewrite count_of_cons. split.
    + intros H. assert (~ y ∈ l) as Hy.
      { intros Hy%count_of_pos. specialize (H y ltac:(by left)). rewrite decide_True in H by done. lia. }
      split; [done|]. intros x Hx. specialize (H x ltac:(by right)). case_decide; [by subst|done].
    + intros [Hy H] x Hx. case_decide as E.
      * subst x. assert (~ (0 < count_of l y)%nat) by (by rewrite <- count_of_pos). lia.
      * apply H. apply elem_of_cons in Hx as [->|?]; [done|done].
Qed.

Lemma duplicates_nil l : duplicates l = [] <-> NoDup l.
Proof.
  rewrite <- none_repeated. unfold duplicates, sorted_set. split.
  - intros H x Hx. apply not_true_iff_false. intros E. apply (no_member _ x) in H. apply H.
    by apply elem_of_sorted_on, elem_of_remove_dups, list_elem_of_filter.
  - intros H. apply elem_of_nil_inv. intros x Hx%elem_of_sorted_on.
    apply elem_of_remove_dups, list_elem_of_filter in Hx as [E Hx]. by rewrite (H x Hx) in E.
Qed.

(** ** Connections *)

Definition resolves (board : BoardGraph.t) (c : NetConnection.t) : Prop :=
  NetConnection.component_id c ∈ Component.component_id <$> BoardGraph.components board /\
  is_Some (component_pin_index board !! NetConnection.key c).

Lemma missing_nil board net c : missing_findings board net c = [] <-> resolves board c.
Proof.
  unfold missing_findings, resolves. case_bool_decide as E; simpl; [|by split; [|intros []]].
  destruct (component_pin_index board !! _) eqn:El; [by split; eauto|]. split; [done|]. by intros [_ [? [=]]].
Qed.

Lemma repeated_nil net seen c : repeated_findings net seen c = [] <-> ~ NetConnection.key c ∈ seen.
Proof.
  unfold repeated_findings. destruct (decide (NetConnection.key c ∈ seen)) as [Hs|Hs].
  - split; [intros H; discriminate H|intros H; destruct (H Hs)].
  - split; [intros _; exact Hs|reflexivity].
Qed.

Lemma connections_nil board net seen l :
  connection_findings board net seen l = [] <->
  (forall c, c ∈ l -> resolves board c /\ ~ NetConnection.key c ∈ seen) /\ NoDup (NetConnection.key <$> l).
Proof.
  revert seen. induction l as [|c l IH]; intros seen; simpl.
  - split; [|done]. intros _. split; [by intros c ?%not_elem_of_nil|constructor].
  - rewrite !app_nil, missing_nil, repeated_nil, IH, NoDup_cons.
    setoid_rewrite elem_of_cons. rewrite list_elem_of_fmap. split.
    + intros (Hc & Hs & Hl & Hnd). split_and!; [| |done].
      * intros c' [->|Hc']; [done|]. destruct (Hl c' Hc') as [? Hn]. split; [done|tauto].
      * intros (x & E & Hx). destruct (Hl x Hx) as [_ []]. by left.
    + intros (Hl & Hn & Hnd). split_and!; [apply Hl; by left|apply Hl; by left| |done].
      intros c' Hc'. split; [apply Hl; by right|]. intros [E|Hs]; [|by apply (Hl c'); [right|]].
      apply Hn. by exists c'.
Qed.

(** ** Groups *)

Section groups.
Context {K V : Type} `{EqDecision K}.
Implicit Types (groups : list (K * list V)) (k : K) (v : V).

Definition in_group groups k v : Prop := exists l, (k, l) ∈ groups /\ v ∈ l.

Lemma append_to_keys k v groups k' : k' ∈ (append_to k v groups).*1 <-> k' = k \/ k' ∈ groups.*1.
Proof.
  induction groups as [|[k1 l] groups IH]; simpl; [by rewrite !elem_of_cons|].
  case_decide as E; simpl; rewrite !elem_of_cons, ?IH; [subst; tauto|tauto].
Qed.

Lemma append_to_NoDup k v groups : NoDup groups.*1 -> NoDup (append_to k v groups).*1.
Proof.
  induction groups as [|[k1 l] groups IH]; simpl; [by intros; apply NoDup_singleton|].
  intros [Hn Hnd]%NoDup_cons. case_decide as E; simpl; apply NoDup_cons; [done|]. split; [|by apply IH].
  rewrite append_to_keys. intros [?|?]; [congruence|done].
Qed.

Lemma in_group_append k v groups k' v' :
  in_group (append_to k v groups) k' v' <-> in_group groups k' v' \/ (k' = k /\ v' = v).
Proof.
  unfold in_group. induction groups as [|[k1 l] groups IH]; simpl.
  - setoid_rewrite list_elem_of_singleton. split.
    + intros (l & [= -> ->] & ->%list_elem_of_singleton). by right.
    + intros [(l & Hl & _)|[-> ->]]; [by apply not_elem_of_nil in Hl|]. exists [v]. by rewrite !list_elem_of_singleton.
  - case_decide as E; setoid_rewrite elem_of_cons.
    + subst k1. split.
      * intros (l' & [E|Hl'] & Hv); [|left; eauto]. injection E as -> ->.
        apply elem_of_app in Hv as [Hv|Hv%list_elem_of_singleton]; [left; eauto|by right].
      * intros [(l' & [E|Hl'] & Hv)|[-> ->]]; [injection E as -> ->| |].
        -- exists (l ++ [v])%list. split; [by left|]. apply elem_of_app; by left.
        -- eauto.
        -- exists (l ++ [v])%list. split; [by left|]. apply elem_of_app; right. by apply list_elem_of_singleton.
    + split.
      * intros (l' & [E'|Hl'] & Hv); [left; eauto|].
        destruct (proj1 IH) as [(l2 & ? & ?)|?]; eauto.
      * intros [(l' & [E'|Hl'] & Hv)|H]; [eauto| |].
        -- destruct (proj2 IH) as (l2 & ? & ?); eauto.
        -- destruct (proj2 IH) as (l2 & ? & ?); eauto.
Qed.
End groups.

Lemma pin_nets_spec board :
  NoDup (pin_nets board).*1 /\
  forall k id, in_group (pin_nets board) k id <->
    exists net c, (net, c) ∈ net_connections board /\ k = NetConnection.key c /\ id = Net.net_id net.
Proof.
  unfold pin_nets. set (step := fun groups '(net, connection) => append_to (NetConnection.key connection) (Net.net_id net) groups).
  assert (forall l groups, NoDup groups.*1 -> NoDup (foldl step groups l).*1 /\
    forall k id, in_group (foldl step groups l) k id <-> in_group groups k id \/
      exists net c, (net, c) ∈ l /\ k = NetConnection.key c /\ id = Net.net_id net) as H.
  { induction l as [|[net c] l IH]; intros groups Hnd; simpl.
    - split; [done|]. intros k id. split; [by left|]. intros [?|(? & ? & Hl & _)]; [done|by apply not_elem_of_nil in Hl].
    - destruct (IH (append_to (NetConnection.key c) (Net.net_id net) groups)) as [Hnd' Hin]; [by apply append_to_NoDup|].
      split; [done|]. intros k id. rewrite Hin, in_group_append. setoid_rewrite elem_of_cons. split.
      + intros [[?|[-> ->]]|(n & c' & ? & ? & ?)]; [by left| |]; right; [exists net, c; auto|exists n, c'; auto].
      + intros [?|(n & c' & [E|?] & ? & ?)]; [by left; left| |right; exists n, c'; auto].
        injection E as -> ->. by left; right. }
  destruct (H (net_connections board) []) as [Hnd Hin]; [constructor|]. split; [done|].
  intros k id. rewrite Hin. split; [|by right]. intros [(l & Hl & _)|?]; [by apply not_elem_of_nil in Hl|done].
Qed.

Lemma elem_of_net_connections board net c :
  (net, c) ∈ net_connections board <-> net ∈ BoardGraph.nets board /\ c ∈ Net.connections net.
Proof.
  unfold net_connections. rewrite list_elem_of_bind. split.
  - intros (n & (c' & [= -> ->] & Hc)%list_elem_of_fmap & Hn). done.
  - intros [Hn Hc]. exists net. split; [|done]. apply list_elem_of_fmap. eauto.
Qed.

Lemma unique_nil (l : list string) : (1 <? length (sorted_set l))%nat = false <-> forall x y, x ∈ l -> y ∈ l -> x = y.
Proof.
  unfold sorted_set. rewrite length_sorted_on, Nat.ltb_ge.
  setoid_rewrite <- (elem_of_remove_dups l). pose proof (NoDup_remove_dups l) as Hnd.
  destruct (remove_dups l) as [|a [|b m]]; simpl.
  - split; [|lia]. by intros _ x y ?%not_elem_of_nil.
  - split; [|lia]. by intros _ x y ->%list_elem_of_singleton ->%list_elem_of_singleton.
  - split; [lia|]. intros H. apply NoDup_cons in Hnd as [Hn _]. destruct Hn.
    rewrite (H a b) by set_solver. by left.
Qed.

(** ** The rule *)

(** The references of a board are sound. *)
Record references_sound (board : BoardGraph.t) : Prop := {
  unique_ids : forall kind values, (kind, values) ∈ collections board -> NoDup values;
  unique_pins : forall c, c ∈ BoardGraph.components board -> NoDup (Pin.number <$> Component.pins c);
  resolved_connections : forall net c, net ∈ BoardGraph.nets board -> c ∈ Net.connections net -> resolves board c;
  unique_connections : forall net, net ∈ BoardGraph.nets board -> NoDup (NetConnection.key <$> Net.connections net);
  one_net_per_pin : forall n1 n2 c1 c2, n1 ∈ BoardGraph.nets board -> n2 ∈ BoardGraph.nets board ->
    c1 ∈ Net.connections n1 -> c2 ∈ Net.connections n2 -> NetConnection.key c1 = NetConnection.key c2 ->
    Net.net_id n1 = Net.net_id n2;
}.

Lemma id_findings_nil board :
  id_findings board = [] <-> forall kind values, (kind, values) ∈ collections board -> NoDup values.
Proof.
  unfold id_findings. rewrite bind_nil. split.
  - intros H kind values Hin%H. simpl in Hin. apply duplicates_nil. by destruct (duplicates values).
  - intros H [kind values] Hin%H. by rewrite (proj2 (duplicates_nil _) Hin).
Qed.

Lemma shared_pins_nil board :
  sorted_on fst (pin_nets board) ≫= shared_pin_findings = [] <->
  forall n1 n2 c1 c2, n1 ∈ BoardGraph.nets board -> n2 ∈ BoardGraph.nets board ->
    c1 ∈ Net.connections n1 -> c2 ∈ Net.connections n2 -> NetConnection.key c1 = NetConnection.key c2 ->
    Net.net_id n1 = Net.net_id n2.
Proof.
  destruct (pin_nets_spec board) as [Hnd Hin]. rewrite bind_nil. setoid_rewrite elem_of_sorted_on. split.
  - intros H n1 n2 c1 c2 Hn1 Hn2 Hc1 Hc2 E.
    destruct (proj2 (Hin (NetConnection.key c1) (Net.net_id n1))) as (l1 & Hl1 & Hv1).
    { exists n1, c1. by rewrite elem_of_net_connections. }
    destruct (proj2 (Hin (NetConnection.key c1) (Net.net_id n2))) as (l2 & Hl2 & Hv2).
    { exists n2, c2. by rewrite elem_of_net_connections. }
    assert (l1 = l2) as <-.
    { apply list_elem_of_lookup in Hl1 as [i Hi], Hl2 as [j Hj].
      assert (i = j) as <-; [|congruence]. apply (NoDup_lookup _ _ _ (NetConnection.key c1) Hnd); by rewrite list_lookup_fmap, ?Hi, ?Hj. }
    specialize (H _ Hl1). unfold shared_pin_findings in H.
    destruct (1 <? length (sorted_set l1))%nat eqn:E1; [done|]. by apply (proj1 (unique_nil l1) E1).
  - intros H [k l] Hl. unfold shared_pin_findings.
    assert ((1 <? length (sorted_set l))%nat = false) as ->; [|done]. apply unique_nil. intros x y Hx Hy.
    destruct (proj1 (Hin k x)) as (n1 & c1 & [? ?]%elem_of_net_connections & -> & ->); [by exists l|].
    destruct (proj1 (Hin (NetConnection.key c1) y)) as (n2 & c2 & [? ?]%elem_of_net_connections & ? & ->); [by exists l|].
    by eapply H.
Qed.

Lemma reference_rule_silent board context :
  evaluate board context = Ok [] <-> references_sound board.
Proof.
  unfold evaluate. transitivity ((id_findings board ++
      (BoardGraph.components board ≫= pin_findings) ++
      (BoardGraph.nets board ≫= fun net => connection_findings board net [] (Net.connections net)) ++
      (sorted_on fst (pin_nets board) ≫= shared_pin_findings))%list = []); [split; congruence|].
  rewrite !app_nil, id_findings_nil, shared_pins_nil, !bind_nil. setoid_rewrite connections_nil.
  assert (forall c, pin_findings c = [] <-> NoDup (Pin.number <$> Component.pins c)) as Hpins.
  { intros c. rewrite <- duplicates_nil. unfold pin_findings. by destruct (duplicates _). }
  setoid_rewrite Hpins. split.
  - intros (H1 & H2 & H3 & H4). split; try done.
    + intros net c Hn Hc. by apply (H3 net).
    + intros net Hn. by apply H3.
  - intros [H1 H2 H3 H4 H5]. split_and!; try done. intros net Hn. split; [|by apply H4].
    intros c Hc. split; [by eapply H3|]. by intros ?%not_elem_of_nil.
Qed.

(** The reference rule decides its contract: it reports nothing exactly when
    the ids of each kind and the references of the components are unique, the
    pins of a component have different numbers, every connection names a pin of
    a component, no net repeats a connection and no pin is in two nets. *)
Theorem reference_rule_decides board context :
  exists l, GraphReferenceIntegrityRule.evaluate board context = Ok l /\
    (l = [] <->
      (forall kind values, (kind, values) ∈ collections board -> NoDup values) /\
      (forall c, c ∈ BoardGraph.components board -> NoDup (Pin.number <$> Component.pins c)) /\
      (forall net c, net ∈ BoardGraph.nets board -> c ∈ Net.connections net -> resolves board c) /\
      (forall net, net ∈ BoardGraph.nets board -> NoDup (NetConnection.key <$> Net.connections net)) /\
      (forall n1 n2 c1 c2, n1 ∈ BoardGraph.nets board -> n2 ∈ BoardGraph.nets board ->
        c1 ∈ Net.connections n1 -> c2 ∈ Net.connections n2 -> NetConnection.key c1 = NetConnection.key c2 ->
        Net.net_id n1 = Net.net_id n2)).
Proof.
  eexists. split; [reflexivity|]. pose proof (reference_rule_silent board context) as H. unfold evaluate in H.
  transitivity (references_sound board); [rewrite <- H; split; [by intros ->|by intros [= ->]]|].
  split; [by intros []|]. intros (H1 & H2 & H3 & H4 & H5). by split.
Qed.
