(* ===== verification/Engine.v ===== *)
(** * The verification engine (backend/verification/engine.py)

    Validation of boards and policies, resolution and execution of the rules,
    identities and order of the findings, and the gates.

    The identity of the code of a rule or of the geometry kernel, which
    [_implementation_identity] reads from live Python objects and source
    files, is an argument: what is observed of a subject at each of the moments
    at which it is read.  The hash of the files of the package is an argument
    too. *)
From S2P Require Import Prelude PyDict PyStr Geometry Board Rule Copper GeoRules RoutingRules ElectricalRules.
From S2P Require Import Canonical BoardValues Policy.

Local Open Scope string_scope.

Definition ENGINE_VERSION : string := "2.1.0".
Definition REPORT_SCHEMA_VERSION : Z := 3.
Definition BOARD_SCHEMA_VERSION : Z := 3.
Definition REQUIRED_GATE_IDS : list string := ["preview"; "commit"; "manufacturing-release"].
Definition KICAD_EVIDENCE_ID : string := "trusted-kicad-drc-v1".
Definition MAXIMUM_REQUIRED_GATE_THRESHOLDS : dict Severity.t := dict_of_pairs [
  ("preview", Severity.FATAL); ("commit", Severity.ERROR); ("manufacturing-release", Severity.WARNING)].
Definition MINIMUM_RULE_SEVERITIES : dict Severity.t := dict_of_pairs [
  ("GEO.ZONE.FILL_UNVERIFIED", Severity.WARNING)].
Definition SHAPE_DEPENDENT_RULE_IDS : list string := [
  "ALG.ROUTING.CONNECTIVITY"; "ALG.VIA.NET_CONNECTIVITY"; "GEO.COPPER.MIN_CLEARANCE";
  "GEO.COPPER.BOARD_EDGE_CLEARANCE"; "GEO.PAD.MIN_ANNULAR_RING"].
Definition GEOMETRY_BLOCKER_PREFIXES : list string := [
  "exact-pad-rotation-not-supported:"; "exact-pad-circle-nonsquare-not-supported:";
  "exact-pad-roundrect-radius-not-represented:"; "exact-hole-slot-not-supported:";
  "exact-drill-rotation-not-supported:"].

Definition input_err (msg : string) : exn := Exn VerificationInputError msg.
Definition execution_err (msg : string) : exn := Exn VerificationExecutionError msg.

(** [strict_policy()], normalized. *)
Definition strict_policy : result VerificationPolicy.t :=
  VerificationPolicy.normalized (VerificationPolicy.mk [] [
    GateDefinition.mk "preview" "Preview may not contain fatal verification failures" Severity.FATAL [] [] [] [];
    GateDefinition.mk "commit" "Project commit requires zero error-or-higher findings" Severity.ERROR [] [] [] [];
    GateDefinition.mk "manufacturing-release" "Manufacturing release requires zero warning-or-higher findings"
      Severity.WARNING [] [] [] [KICAD_EVIDENCE_ID]]).

Definition rule_id_of (evaluator : RuleEvaluator) : string := RuleDefinition.rule_id (definition evaluator).

(** [default_evaluators()] *)
Definition default_evaluators : list RuleEvaluator :=
  sorted_on rule_id_of (electrical_rules ++ geometric_rules ++ algorithm_rules)%list.

(** ** The board envelope *)

(** [string(value, location, nonempty=True)] on a string. *)
Definition nonempty (value location : string) : result unit :=
  raise_if (str_blank value) (input_err (location +:+ " must be non-empty")).
Definition nonempty_option (value : option string) (location : string) : result unit :=
  match value with Some value => nonempty value location | None => Ok tt end.

(** The fields of a fill evidence by name, the digests among them last. *)
Definition evidence_fields (evidence : ZoneFillEvidence.t) : list (string * string) := [
  ("source_graph_hash", ZoneFillEvidence.source_graph_hash evidence);
  ("source_revision", ZoneFillEvidence.source_revision evidence);
  ("fill_engine_id", ZoneFillEvidence.fill_engine_id evidence);
  ("fill_engine_revision", ZoneFillEvidence.fill_engine_revision evidence);
  ("filled_geometry_hash", ZoneFillEvidence.filled_geometry_hash evidence);
  ("evidence_hash", ZoneFillEvidence.evidence_hash evidence)].
Definition evidence_digests (evidence : ZoneFillEvidence.t) : list (string * string) := [
  ("source_graph_hash", ZoneFillEvidence.source_graph_hash evidence);
  ("source_revision", ZoneFillEvidence.source_revision evidence);
  ("filled_geometry_hash", ZoneFillEvidence.filled_geometry_hash evidence);
  ("evidence_hash", ZoneFillEvidence.evidence_hash evidence)].

Definition validate_fill_evidence (location : string) (zone : Zone.t) (evidence : ZoneFillEvidence.t) : result unit :=
  forM_ (fun '(name, value) => nonempty value (location +:+ ".fill_evidence." +:+ name)) (evidence_fields evidence) ;;;
  forM_ (fun '(name, digest) =>
    raise_if (negb (is_sha256_hex digest))
      (input_err (location +:+ ".fill_evidence." +:+ name +:+ " must be a lowercase SHA-256 digest")))
    (evidence_digests evidence) ;;;
  let* geometry_hash := zone_filled_geometry_hash zone in
  raise_if (negb (bool_decide (ZoneFillEvidence.filled_geometry_hash evidence = geometry_hash)))
    (input_err (location +:+ " fill evidence does not bind its exact modeled geometry")) ;;;
  let* evidence_hash := zone_fill_evidence_hash evidence in
  raise_if (negb (bool_decide (ZoneFillEvidence.evidence_hash evidence = evidence_hash)))
    (input_err (location +:+ " fill evidence hash does not bind its provenance")).

Definition indexed (name : string) (index : nat) : string :=
  "board." +:+ name +:+ "[" +:+ str_of_int (Z.of_nat index) +:+ "]".

Definition validate_zone (item : nat * Zone.t) : result unit :=
  let '(index, zone) := item in
  let location := indexed "zones" index in
  match Zone.fill_state zone, Zone.fill_evidence zone with
  | ZoneFillState.UNFILLED_INTENT, Some _ =>
    Err (input_err (location +:+ " unfilled intent cannot carry fill evidence"))
  | ZoneFillState.UNFILLED_INTENT, None => Ok tt
  | ZoneFillState.VERIFIED_FILLED, None =>
    Err (input_err (location +:+ ".fill_evidence must be exact ZoneFillEvidence"))
  | ZoneFillState.VERIFIED_FILLED, Some evidence => validate_fill_evidence location zone evidence
  end.

Definition validate_hole (item : nat * Hole.t) : result unit :=
  let '(index, hole) := item in
  let location := indexed "holes" index in
  nonempty (Hole.hole_id hole) (location +:+ ".hole_id") ;;;
  nonempty (Hole.component_id hole) (location +:+ ".component_id") ;;;
  nonempty_option (Hole.pad_id hole) (location +:+ ".pad_id").

Definition validate_pad (item : nat * PhysicalPad.t) : result unit :=
  let '(index, pad) := item in
  let location := indexed "pads" index in
  nonempty (PhysicalPad.pad_id pad) (location +:+ ".pad_id") ;;;
  nonempty (PhysicalPad.component_id pad) (location +:+ ".component_id") ;;;
  nonempty (PhysicalPad.pad_number pad) (location +:+ ".pad_number") ;;;
  nonempty_option (PhysicalPad.net_id pad) (location +:+ ".net_id") ;;;
  nonempty_option (PhysicalPad.shared_land_group_id pad) (location +:+ ".shared_land_group_id").

(** [_validate_board_graph(board)]; the exact types are the types of the model. *)
Definition validate_board_graph (board : BoardGraph.t) : result unit :=
  nonempty (BoardGraph.design_id board) "board.design_id" ;;;
  nonempty (BoardGraph.revision board) "board.revision" ;;;
  forM_ validate_zone (imap pair (BoardGraph.zones board)) ;;;
  forM_ validate_hole (imap pair (BoardGraph.holes board)) ;;;
  forM_ validate_pad (imap pair (BoardGraph.pads board)).

(** ** Blockers and gates *)

Definition turned_drill (drill_x_nm drill_y_nm drill_rotation_udeg : Z) : bool :=
  negb (drill_x_nm =? drill_y_nm)%Z && negb (drill_rotation_udeg mod 90000000 =? 0)%Z.

Definition pad_blockers (pad : PhysicalPad.t) : list string :=
  let pad_id := PhysicalPad.pad_id pad in
  issues_of [
    (negb (PhysicalPad.rotation_udeg pad mod 90000000 =? 0)%Z,
     "exact-pad-rotation-not-supported:" +:+ pad_id +:+ ":" +:+ str_of_int (PhysicalPad.rotation_udeg pad));
    (bool_decide (PhysicalPad.shape pad = PadShape.CIRCLE) &&
     negb (PhysicalPad.size_x_nm pad =? PhysicalPad.size_y_nm pad)%Z,
     "exact-pad-circle-nonsquare-not-supported:" +:+ pad_id);
    (bool_decide (PhysicalPad.shape pad = PadShape.ROUNDRECT), "exact-pad-roundrect-radius-not-represented:" +:+ pad_id);
    (turned_drill (PhysicalPad.drill_x_nm pad) (PhysicalPad.drill_y_nm pad) (PhysicalPad.drill_rotation_udeg pad),
     "exact-drill-rotation-not-supported:pad:" +:+ pad_id +:+ ":" +:+ str_of_int (PhysicalPad.drill_rotation_udeg pad))].

Definition hole_blockers (hole : Hole.t) : list string :=
  issues_of [
    (turned_drill (Hole.drill_x_nm hole) (Hole.drill_y_nm hole) (Hole.drill_rotation_udeg hole),
     "exact-drill-rotation-not-supported:hole:" +:+ Hole.hole_id hole +:+ ":" +:+
     str_of_int (Hole.drill_rotation_udeg hole))].

(** A shared land whose pads do not agree. *)
Definition group_blockers (board : BoardGraph.t) (group : string * list PhysicalPad.t) : list string :=
  let '(group_id, pads) := group in
  let signatures := remove_dups (CopperTopologyRule.signature (physical_pad_nets board) <$> pads) in
  let logical_numbers := remove_dups (PhysicalPad.pad_number <$> pads) in
  if (length pads <? 2)%nat || negb (length logical_numbers =? length pads)%nat || negb (length signatures =? 1)%nat
  then ["shared-land-group-mismatch:" +:+ group_id] else [].

Definition has_blocker_prefix (feature : string) : bool :=
  existsb (fun prefix => String.prefix prefix feature) GEOMETRY_BLOCKER_PREFIXES.

(** [_geometry_blockers(board)] *)
Definition geometry_blockers (board : BoardGraph.t) : list string :=
  let pad_ids := PhysicalPad.pad_id <$> BoardGraph.pads board in
  let hole_ids := Hole.hole_id <$> BoardGraph.holes board in
  sorted_set (
    filter (fun feature => has_blocker_prefix feature = true) (BoardGraph.unsupported_features board) ++
    ((fun pad_id => "duplicate-physical-pad-id:" +:+ pad_id) <$>
     filter (fun pad_id => repeated pad_ids pad_id = true) pad_ids) ++
    ((fun hole_id => "duplicate-hole-id:" +:+ hole_id) <$>
     filter (fun hole_id => repeated hole_ids hole_id = true) hole_ids) ++
    (BoardGraph.pads board ≫= pad_blockers) ++
    (BoardGraph.holes board ≫= hole_blockers) ++
    (dict_items (CopperTopologyRule.shared_groups (BoardGraph.pads board)) ≫= group_blockers board))%list.

(** [_gate_selects(gate, definition)] *)
Definition gate_selects (gate : GateDefinition.t) (d : RuleDefinition.t) : bool :=
  negb (bool_decide (RuleDefinition.rule_id d ∈ GateDefinition.exempt_rule_ids gate)) &&
  (bool_decide (GateDefinition.domains gate = []) ||
   bool_decide (RuleDefinition.domain d ∈ GateDefinition.domains gate)) &&
  (bool_decide (GateDefinition.rule_ids gate = []) ||
   bool_decide (RuleDefinition.rule_id d ∈ GateDefinition.rule_ids gate)).

(** ** Policies *)

(** [raise] with the joined names unless there are none. *)
Definition reject_any (names : list string) (msg : string) : result unit :=
  raise_if (negb (bool_decide (names = []))) (cfg_err (msg +:+ str_join ", " names)).
Definition has_duplicates {A} `{EqDecision A} (l : list A) : bool := negb (length l =? length (remove_dups l))%nat.

(** What [_validate_policy_shape] tests of a gate beyond its types. *)
Definition validate_gate_shape (gate : GateDefinition.t) : result unit :=
  let duplicates field := cfg_err ("gate " +:+ GateDefinition.gate_id gate +:+ " " +:+ field +:+ " contains duplicates") in
  raise_first [
    (has_duplicates (GateDefinition.domains gate), duplicates "domains");
    (has_duplicates (GateDefinition.rule_ids gate), duplicates "rule_ids");
    (has_duplicates (GateDefinition.exempt_rule_ids gate), duplicates "exempt_rule_ids");
    (has_duplicates (GateDefinition.required_external_evidence_ids gate), duplicates "required_external_evidence_ids");
    (existsb str_blank (GateDefinition.required_external_evidence_ids gate),
     cfg_err ("gate " +:+ GateDefinition.gate_id gate +:+ " external evidence ids must be non-empty"))].

Definition validate_policy_shape (policy : VerificationPolicy.t) : result unit :=
  forM_ validate_gate_shape (VerificationPolicy.gates policy).

(** The tests of one gate in [_validate_policy]. *)
Definition validate_gate (known mandatory_fatal : list string) (gate : GateDefinition.t) : result unit :=
  let gate_id := GateDefinition.gate_id gate in
  let required := bool_decide (gate_id ∈ REQUIRED_GATE_IDS) in
  raise_if (str_blank gate_id) (cfg_err "gate id must be non-empty") ;;;
  reject_any
    (sorted_set (filter (fun id => id ∉ known) (GateDefinition.rule_ids gate ++ GateDefinition.exempt_rule_ids gate)%list))
    ("gate " +:+ gate_id +:+ " references unknown rules: ") ;;;
  reject_any (sorted_set (filter (fun id => id ∈ mandatory_fatal) (GateDefinition.exempt_rule_ids gate)))
    ("gate " +:+ gate_id +:+ " cannot exempt mandatory fatal rules: ") ;;;
  raise_if (required &&
            (negb (bool_decide (GateDefinition.domains gate = [])) ||
             negb (bool_decide (GateDefinition.rule_ids gate = [])) ||
             negb (bool_decide (GateDefinition.exempt_rule_ids gate = []))))
    (cfg_err ("required gate " +:+ gate_id +:+ " cannot scope or exempt verification rules")) ;;;
  match MAXIMUM_REQUIRED_GATE_THRESHOLDS !! gate_id with
  | Some maximum =>
    raise_if (Severity.rank maximum <? Severity.rank (GateDefinition.block_at_or_above gate))%Z
      (cfg_err ("required gate " +:+ gate_id +:+ " threshold cannot be weaker than " +:+ Severity.value maximum))
  | None => Ok tt
  end ;;;
  raise_if (bool_decide (gate_id = "manufacturing-release") &&
            negb (bool_decide (KICAD_EVIDENCE_ID ∈ GateDefinition.required_external_evidence_ids gate)))
    (cfg_err "manufacturing-release requires trusted KiCad DRC evidence").

(** The test of one override in [_validate_policy]. *)
Definition validate_override (override : RuleOverride.t) : result unit :=
  match MINIMUM_RULE_SEVERITIES !! RuleOverride.rule_id override, RuleOverride.severity override with
  | Some minimum, Some severity =>
    raise_if (Severity.rank severity <? Severity.rank minimum)%Z
      (cfg_err ("rule " +:+ RuleOverride.rule_id override +:+ " severity cannot be weaker than " +:+
                Severity.value minimum))
  | _, _ => Ok tt
  end.

Definition mandatory_fatal_rules (evaluators : list RuleEvaluator) : list string :=
  rule_id_of <$> filter (fun evaluator =>
    RuleDefinition.mandatory (definition evaluator) = true /\
    RuleDefinition.default_severity (definition evaluator) = Severity.FATAL) evaluators.

(** [_validate_policy(policy)]: the overrides by rule. *)
Definition validate_policy (evaluators : list RuleEvaluator) (policy : VerificationPolicy.t) :
    result (dict RuleOverride.t) :=
  let known := rule_id_of <$> evaluators in
  let override_ids := RuleOverride.rule_id <$> VerificationPolicy.overrides policy in
  let gate_ids := GateDefinition.gate_id <$> VerificationPolicy.gates policy in
  raise_if (has_duplicates override_ids) (cfg_err "policy contains duplicate rule overrides") ;;;
  reject_any (sorted_set (filter (fun id => id ∉ known) override_ids)) "policy overrides unknown rules: " ;;;
  raise_if (has_duplicates gate_ids) (cfg_err "policy contains duplicate gate ids") ;;;
  reject_any (sorted_on id (filter (fun id => id ∉ gate_ids) REQUIRED_GATE_IDS)) "policy is missing required gates: " ;;;
  forM_ (validate_gate known (mandatory_fatal_rules evaluators)) (VerificationPolicy.gates policy) ;;;
  forM_ validate_override (VerificationPolicy.overrides policy) ;;;
  Ok (dict_by RuleOverride.rule_id (VerificationPolicy.overrides policy)).

(** ** Findings *)

Definition prefix24 (s : string) : string := String.substring 0 24 s.

(** [_materialize_finding(resolved, draft)] *)
Definition materialize_finding (resolved : ResolvedRule.t) (draft : FindingDraft.t) : result Finding.t :=
  raise_if (str_blank (FindingDraft.message draft)) (execution_err "evaluator finding message must be non-empty") ;;;
  let d := definition (ResolvedRule.evaluator resolved) in
  let* normalized := draft_normalized draft in
  let* evidence_hash := stable_hash (PMap [
    (KStr "rule_id", py (RuleDefinition.rule_id d)); (KStr "rule_version", py (RuleDefinition.version d));
    (KStr "entities", py (FindingDraft.entities normalized)); (KStr "evidence", py (FindingDraft.items normalized))])
    "pcb-finding-evidence-v1" in
  let* identity := stable_hash (PMap [
    (KStr "rule_id", py (RuleDefinition.rule_id d)); (KStr "rule_version", py (RuleDefinition.version d));
    (KStr "entities", py (FindingDraft.entities normalized)); (KStr "evidence_hash", py evidence_hash)])
    "pcb-finding-identity-v1" in
  Ok (Finding.mk ("FND-" +:+ prefix24 identity) (RuleDefinition.rule_id d) (RuleDefinition.version d)
        (RuleDefinition.domain d) (ResolvedRule.severity resolved) (FindingDraft.message normalized)
        (FindingDraft.entities normalized) (FindingDraft.items normalized) evidence_hash).

(** One turn of the loop over the drafts of a rule: all findings by id, and
    the findings of the rule. *)
Definition add_draft (resolved : ResolvedRule.t) (st : dict Finding.t * list Finding.t) (draft : FindingDraft.t) :
    result (dict Finding.t * list Finding.t) :=
  let '(findings, rule_findings) := st in
  let* finding := materialize_finding resolved draft in
  match findings !! Finding.finding_id finding with
  | Some previous =>
    raise_if (negb (bool_decide (Finding.eq_key previous = Finding.eq_key finding)))
      (execution_err ("finding identity collision in " +:+ rule_id_of (ResolvedRule.evaluator resolved)))
  | None => Ok tt
  end ;;;
  Ok (<[Finding.finding_id finding := finding]> findings, (rule_findings ++ [finding])%list).

(** ** Gates *)

(** The selection that [_evaluate_gates] makes of the findings and rules of a gate. *)
Definition selects_rule (gate : GateDefinition.t) (definitions : dict RuleDefinition.t) (rule_id : string) : result bool :=
  let* d := dict_getitem definitions rule_id in Ok (gate_selects gate d).

(** [(x for x in l if await_test(x))] with a test that may raise. *)
Fixpoint filterM {A} (f : A -> result bool) (l : list A) : result (list A) :=
  match l with
  | [] => Ok []
  | x :: l => let* keep := f x in let* rest := filterM f l in Ok (if keep then x :: rest else rest)
  end.

Definition evaluate_gate (findings : list Finding.t) (executions : list RuleExecution.t)
    (definitions : dict RuleDefinition.t) (input_hash rule_set_hash : string) (gate : GateDefinition.t) :
    result GateDecision.t :=
  let* blocking := filterM (fun finding =>
    andM (Severity.rank (GateDefinition.block_at_or_above gate) <=? Severity.rank (Finding.severity finding))%Z
      (selects_rule gate definitions (Finding.rule_id finding))) findings in
  let blocking_ids := sorted_on id (Finding.finding_id <$> blocking) in
  let* not_run := filterM (fun execution =>
    andM (bool_decide (RuleExecution.outcome execution = RuleExecutionOutcome.NOT_RUN))
      (selects_rule gate definitions (RuleExecution.rule_id execution))) executions in
  let blocking_rule_ids := sorted_on id (RuleExecution.rule_id <$> not_run) in
  let unavailable_evidence_ids := GateDefinition.required_external_evidence_ids gate in
  let* evidence_hash := stable_hash (PMap [
    (KStr "gate", py gate); (KStr "input_hash", py input_hash); (KStr "rule_set_hash", py rule_set_hash);
    (KStr "blocking_findings",
     PSeq ((fun item => PSeq [py (Finding.finding_id item); py (Finding.evidence_hash item)]) <$> blocking));
    (KStr "blocking_not_run_rule_ids", py blocking_rule_ids);
    (KStr "unavailable_external_evidence_ids", py unavailable_evidence_ids)]) "pcb-policy-gate-v1" in
  Ok (GateDecision.mk (GateDefinition.gate_id gate)
        (bool_decide (blocking_ids = []) && bool_decide (blocking_rule_ids = []) &&
         bool_decide (unavailable_evidence_ids = []))
        blocking_ids blocking_rule_ids unavailable_evidence_ids evidence_hash).

(** [_evaluate_gates(...)] *)
Definition evaluate_gates (gates : list GateDefinition.t) (findings : list Finding.t)
    (executions : list RuleExecution.t) (definitions : dict RuleDefinition.t) (input_hash rule_set_hash : string) :
    result (list GateDecision.t) :=
  let* decisions := mapM (evaluate_gate findings executions definitions input_hash rule_set_hash) gates in
  Ok (sorted_on GateDecision.gate_id decisions).

(** ** Runs *)

(** A subject of [_implementation_identity]. *)
Inductive subject := Kernel | Rule (rule_id : string).

(** [type(exc).__name__] and [str(exc)] of an exception of a rule. *)
Definition class_name (c : exn_class) : string :=
  match c with
  | ValueError => "ValueError" | TypeError => "TypeError" | KeyError => "KeyError" | IndexError => "IndexError"
  | OverflowError => "OverflowError" | AssertionError => "AssertionError"
  | ZeroDivisionError => "ZeroDivisionError" | RecursionError => "RecursionError"
  | _ => "Exception"
  end.
Definition exn_text (e : exn) : string :=
  if bool_decide (exn_cls e = KeyError) then "'" +:+ exn_msg e +:+ "'" else exn_msg e.

Module VerificationEngine.
Record t := mk { evaluators : list RuleEvaluator; geometry : GeometryKernel }.

Section observed.
(** What [_implementation_identity] gives for a subject at a moment, and the
    hash of the files of the package. *)
Variable identity : nat -> subject -> result pyval.
Variable code_bundle_hash : result string.

(** [VerificationEngine(evaluators, geometry)]; [now] is the moment of the call. *)
Definition init (now : nat) (evaluators : option (list RuleEvaluator)) (geometry : option GeometryKernel) : result t :=
  let evaluators := sorted_on rule_id_of (default default_evaluators evaluators) in
  let geometry := default ExactGeometryKernel.kernel geometry in
  raise_first [
    (str_blank (kernel_id geometry), cfg_err "geometry kernel_id must be a non-empty string");
    (str_blank (kernel_version geometry), cfg_err "geometry version must be a non-empty string")] ;;;
  let* _ := identity now Kernel in
  let rule_ids := rule_id_of <$> evaluators in
  raise_if (has_duplicates rule_ids)
    (cfg_err ("duplicate rule ids: " +:+
              str_join ", " (sorted_set (filter (fun item => repeated rule_ids item = true) rule_ids)))) ;;;
  forM_ (fun '(i, evaluator) =>
    validate_rule_definition (definition evaluator) ;;;
    let* _ := identity (now + 1 + i)%nat (Rule (rule_id_of evaluator)) in Ok tt) (imap pair evaluators) ;;;
  Ok (mk evaluators geometry).

Definition definitions (engine : t) : list RuleDefinition.t := definition <$> evaluators engine.

(** [_assert_implementation_identity(subject, expected, label)] *)
Definition assert_identity (now : nat) (s : subject) (expected : pyval) (label : string) : result unit :=
  let* current := identity now s in
  let* expected_hash := stable_hash expected "pcb-live-implementation-identity-v1" in
  let* current_hash := stable_hash current "pcb-live-implementation-identity-v1" in
  raise_if (negb (bool_decide (current_hash = expected_hash)))
    (execution_err (label +:+ " implementation identity drifted during run")).

(** The two assertions around a rule; the later one is a moment later. *)
Definition assert_kernel_and_rule (now : nat) (kernel : pyval) (rules : dict pyval) (rule_id : string) : result unit :=
  assert_identity now Kernel kernel "geometry kernel" ;;;
  let* expected := dict_getitem rules rule_id in
  assert_identity (now + 1)%nat (Rule rule_id) expected ("rule " +:+ rule_id).

Record run_state := RunState {
  clock : nat;
  findings : dict Finding.t;
  executions : list RuleExecution.t;
}.

(** [resolved.evaluator.evaluate(board, context)]; an exception is wrapped. *)
Definition evaluate_closed (resolved : ResolvedRule.t) (board : BoardGraph.t) (kernel : GeometryKernel) :
    result (list FindingDraft.t) :=
  let context := RuleContext.mk (ResolvedRule.severity resolved) (ResolvedRule.parameters resolved) kernel in
  match evaluate (ResolvedRule.evaluator resolved) board context with
  | Ok drafts => Ok drafts
  | Err e =>
    Err (execution_err ("rule " +:+ rule_id_of (ResolvedRule.evaluator resolved) +:+ " failed closed: " +:+
                        class_name (exn_cls e) +:+ ": " +:+ exn_text e))
  end.

Definition blockers_of (board : BoardGraph.t) (rule_id : string) : list string :=
  if decide (rule_id ∈ SHAPE_DEPENDENT_RULE_IDS) then geometry_blockers board else [].

(** The body of the loop over the resolved rules. *)
Definition run_rule (board : BoardGraph.t) (geometry : GeometryKernel) (kernel : pyval) (rules : dict pyval)
    (st : run_state) (resolved : ResolvedRule.t) : result run_state :=
  let d := definition (ResolvedRule.evaluator resolved) in
  let rule_id := RuleDefinition.rule_id d in
  let blocker_ids := blockers_of board rule_id in
  let runs := ResolvedRule.enabled resolved && bool_decide (blocker_ids = []) in
  assert_kernel_and_rule (clock st) kernel rules rule_id ;;;
  let* '(all, rule_findings) :=
    if runs then
      let* drafts := evaluate_closed resolved board geometry in
      let* found := foldM (add_draft resolved) (findings st, []) drafts in
      assert_kernel_and_rule (clock st + 2)%nat kernel rules rule_id ;;;
      Ok found
    else Ok (findings st, []) in
  let outcome :=
    if negb runs then RuleExecutionOutcome.NOT_RUN
    else if bool_decide (rule_findings = []) then RuleExecutionOutcome.PASS else RuleExecutionOutcome.FAIL in
  let execution := RuleExecution.mk rule_id (RuleDefinition.version d) (ResolvedRule.enabled resolved)
    (ResolvedRule.severity resolved) (ResolvedRule.parameters resolved)
    (sorted_set (Finding.finding_id <$> rule_findings)) outcome blocker_ids in
  Ok (RunState (clock st + 4) all (executions st ++ [execution])%list).

Definition rule_payload (rules : dict pyval) (resolved : ResolvedRule.t) : result pyval :=
  let d := definition (ResolvedRule.evaluator resolved) in
  let* implementation := dict_getitem rules (RuleDefinition.rule_id d) in
  Ok (PMap [(KStr "definition", py d); (KStr "implementation", implementation);
            (KStr "enabled", py (ResolvedRule.enabled resolved)); (KStr "severity", py (ResolvedRule.severity resolved));
            (KStr "parameters", py (ResolvedRule.parameters resolved))]).

(** The hash of the rule set: code, kernel, resolved rules and gates. *)
Definition rule_set_hash (engine : t) (kernel : pyval) (rules : dict pyval) (resolved_rules : list ResolvedRule.t)
    (gates : list GateDefinition.t) : result string :=
  let* code_bundle := code_bundle_hash in
  let* payloads := mapM (rule_payload rules) resolved_rules in
  stable_hash (PMap [
    (KStr "engine_version", py ENGINE_VERSION); (KStr "verification_code_bundle_hash", py code_bundle);
    (KStr "geometry_kernel", PMap [
       (KStr "kernel_id", py (kernel_id (geometry engine))); (KStr "version", py (kernel_version (geometry engine)));
       (KStr "implementation", kernel)]);
    (KStr "rules", PSeq payloads); (KStr "gates", py gates)]) "pcb-rule-set-v2".

(** The identities that a run starts from: of the kernel and of each rule. *)
Definition observe_rules (now : nat) (resolved_rules : list ResolvedRule.t) : result (dict pyval) :=
  let* observed := mapM (fun '(i, resolved) =>
    let rule_id := rule_id_of (ResolvedRule.evaluator resolved) in
    let* v := identity (now + i)%nat (Rule rule_id) in Ok (rule_id, v)) (imap pair resolved_rules) in
  Ok (dict_of_pairs observed).

(** The assertions after the last rule. *)
Definition assert_all (now : nat) (kernel : pyval) (rules : dict pyval) (resolved_rules : list ResolvedRule.t) :
    result unit :=
  assert_identity now Kernel kernel "geometry kernel" ;;;
  forM_ (fun '(i, resolved) =>
    let rule_id := rule_id_of (ResolvedRule.evaluator resolved) in
    let* expected := dict_getitem rules rule_id in
    assert_identity (now + 1 + i)%nat (Rule rule_id) expected ("rule " +:+ rule_id)) (imap pair resolved_rules).

Definition report_value (run_id input_hash rule_set_hash : string) (findings : list Finding.t)
    (executions : list RuleExecution.t) (gates : list GateDecision.t) : pyval :=
  PMap [(KStr "schema_version", py REPORT_SCHEMA_VERSION); (KStr "engine_version", py ENGINE_VERSION);
    (KStr "run_id", py run_id); (KStr "input_hash", py input_hash); (KStr "rule_set_hash", py rule_set_hash);
    (KStr "findings", py findings); (KStr "executions", py executions); (KStr "gates", py gates)].

(** The rules of a policy, resolved. *)
Definition resolve_rules (engine : t) (overrides : dict RuleOverride.t) : result (list ResolvedRule.t) :=
  mapM (fun evaluator => resolve_rule evaluator (overrides !! rule_id_of evaluator)) (evaluators engine).

(** The part of [verify] that resolves the policy. *)
Definition accept_policy (engine : t) (policy : option VerificationPolicy.t) :
    result (VerificationPolicy.t * list ResolvedRule.t) :=
  let* source_policy := match policy with None => strict_policy | Some policy => Ok policy end in
  validate_policy_shape source_policy ;;;
  let* normalized_policy := VerificationPolicy.normalized source_policy in
  let* overrides := validate_policy (evaluators engine) normalized_policy in
  let* resolved_rules := resolve_rules engine overrides in
  Ok (normalized_policy, resolved_rules).

(** [verify(board, policy)] at the moment [now]. *)
Definition verify (now : nat) (engine : t) (board : BoardGraph.t) (policy : option VerificationPolicy.t) :
    result VerificationReport.t :=
  validate_board_graph board ;;;
  raise_if (negb (BoardGraph.schema_version board =? BOARD_SCHEMA_VERSION)%Z)
    (input_err ("unsupported board schema " +:+ str_of_int (BoardGraph.schema_version board) +:+ "; expected " +:+
                str_of_int BOARD_SCHEMA_VERSION)) ;;;
  let normalized_board := BoardGraph.normalized board in
  let* '(normalized_policy, resolved_rules) := accept_policy engine policy in
  let gates := VerificationPolicy.gates normalized_policy in
  let* input_hash := stable_hash (py normalized_board) "pcb-board-graph-v2" in
  let* kernel := identity now Kernel in
  let* rules := observe_rules (now + 1)%nat resolved_rules in
  let* rule_set_hash := rule_set_hash engine kernel rules resolved_rules gates in
  let* run_hash := stable_hash (PMap [(KStr "input_hash", py input_hash); (KStr "rule_set_hash", py rule_set_hash)])
    "pcb-verification-run-v2" in
  let run_id := "RUN-" +:+ prefix24 run_hash in
  let start := RunState (now + 1 + length resolved_rules) ∅ [] in
  let* st := foldM (run_rule normalized_board (geometry engine) kernel rules) start resolved_rules in
  assert_all (clock st) kernel rules resolved_rules ;;;
  let ordered_findings := sorted_on finding_order_key (dict_values (findings st)) in
  let by_id := dict_by RuleDefinition.rule_id (definitions engine) in
  let* decisions := evaluate_gates gates ordered_findings (executions st) by_id input_hash rule_set_hash in
  let* report_hash := stable_hash
    (report_value run_id input_hash rule_set_hash ordered_findings (executions st) decisions)
    "pcb-verification-report-v3" in
  Ok (VerificationReport.mk REPORT_SCHEMA_VERSION ENGINE_VERSION run_id input_hash rule_set_hash
        ordered_findings (executions st) decisions report_hash).
End observed.
End VerificationEngine.
