(* ===== verification/EngineFacts.v ===== *)
(** * What a run of the engine records

    One execution for each rule, with every finding of its drafts, and what a
    gate that passes says about them; what an accepted policy grants. *)
From S2P Require Import Prelude PyDict PyStr Geometry Board Rule Copper GeoRules RoutingRules ElectricalRules.
From S2P Require Import Canonical BoardValues Policy Engine.

Import VerificationEngine.

Local Open Scope string_scope.

Lemma filterM_spec {A} (f : A -> result bool) l l' :
  filterM f l = Ok l' -> forall x, x ∈ l' <-> x ∈ l /\ f x = Ok true.
Proof.
  revert l'. induction l as [|y l IH]; simpl; intros l'.
  - intros [= <-] x. split; [by intros ?%not_elem_of_nil|by intros [?%not_elem_of_nil _]].
  - intros (keep & Hk & (rest & Hr & [= <-])%bind_Ok)%bind_Ok x. specialize (IH rest Hr x).
    destruct keep; rewrite ?elem_of_cons, IH; [naive_solver|]. split; [naive_solver|].
    intros [[->|?] ?]; [congruence|done].
Qed.

(** ** The findings *)

(** The table has the finding, up to Python's equality. *)
Definition found (all : dict Finding.t) (f : Finding.t) : Prop :=
  exists f', all !! Finding.finding_id f = Some f' /\ Finding.eq_key f' = Finding.eq_key f.
Definition grows (d d' : dict Finding.t) : Prop := forall f, found d f -> found d' f.

Lemma eq_key_id f f' : Finding.eq_key f = Finding.eq_key f' -> Finding.finding_id f = Finding.finding_id f'.
Proof. by intros [=]. Qed.
Lemma eq_key_rule f f' : Finding.eq_key f = Finding.eq_key f' -> Finding.rule_id f = Finding.rule_id f'.
Proof. by intros [=]. Qed.
Lemma eq_key_severity f f' : Finding.eq_key f = Finding.eq_key f' -> Finding.severity f = Finding.severity f'.
Proof. by intros [=]. Qed.
Lemma eq_key_message f f' : Finding.eq_key f = Finding.eq_key f' -> Finding.message f = Finding.message f'.
Proof. by intros [=]. Qed.

Lemma insert_found d f :
  (forall p, d !! Finding.finding_id f = Some p -> Finding.eq_key p = Finding.eq_key f) ->
  grows d (<[Finding.finding_id f := f]> d) /\ found (<[Finding.finding_id f := f]> d) f.
Proof.
  intros Hp. split.
  - intros g (g' & Hg & E). unfold found. rewrite dict_lookup_insert. case_decide as Hd; [|eauto].
    exists f. split; [done|]. rewrite <- E. symmetry. apply Hp. by rewrite Hd.
  - exists f. by rewrite dict_lookup_insert, decide_True.
Qed.

Lemma add_draft_spec r d fs draft d' fs' :
  add_draft r (d, fs) draft = Ok (d', fs') ->
  exists f, materialize_finding r draft = Ok f /\ fs' = (fs ++ [f])%list /\ d' = <[Finding.finding_id f := f]> d /\
    grows d d' /\ found d' f.
Proof.
  unfold add_draft. intros (f & Hf & H)%bind_Ok. apply seq_Ok in H as [Hc [= <- <-]].
  exists f. split_and!; [done..| |]; apply insert_found; intros p Hp; rewrite Hp in Hc;
    apply raise_if_Ok, negb_false_iff, bool_decide_eq_true in Hc; done.
Qed.

(** All drafts of a rule. *)
Lemma add_drafts_spec r drafts d fs d' fs' :
  foldM (add_draft r) (d, fs) drafts = Ok (d', fs') ->
  exists new, fs' = (fs ++ new)%list /\ Forall2 (fun draft f => materialize_finding r draft = Ok f) drafts new /\
    grows d d' /\ (forall f, f ∈ new -> found d' f) /\
    (keyed Finding.finding_id d -> keyed Finding.finding_id d') /\
    (forall id f, d' !! id = Some f -> d !! id = Some f \/ f ∈ new).
Proof.
  revert d fs. induction drafts as [|draft drafts IH]; simpl; intros d fs H.
  - injection H as <- <-. exists []. rewrite app_nil_r.
    split_and!; [done|constructor|by intros f|by intros f ?%not_elem_of_nil|done|by left].
  - apply bind_Ok in H as ([d1 fs1] & H1 & H). apply add_draft_spec in H1 as (f & Hf & -> & -> & Hg & Hin).
    destruct (IH _ _ H) as (new & -> & Hnew & Hg' & Hin' & Hk & Hfrom).
    exists (f :: new). rewrite <- app_assoc. split_and!; [done|by constructor| | | |].
    + intros g Hgd. by apply Hg', Hg.
    + intros g [->|Hgn]%elem_of_cons; [by apply Hg'|by apply Hin'].
    + intros Hkd. by apply Hk, keyed_insert.
    + intros id g Hid%Hfrom. destruct Hid as [Hid|?]; [|right; by right].
      rewrite dict_lookup_insert in Hid. case_decide; [|by left]. injection Hid as <-. right; by left.
Qed.

(** ** Executions *)

Section run.
Variable identity : nat -> subject -> result pyval.
Variables (board : BoardGraph.t) (geometry : GeometryKernel).

Definition rule_blockers (r : ResolvedRule.t) : list string :=
  blockers_of board (rule_id_of (ResolvedRule.evaluator r)).
Definition runs (r : ResolvedRule.t) : Prop := ResolvedRule.enabled r = true /\ rule_blockers r = [].
#[export] Instance runs_decision r : Decision (runs r).
Proof. unfold runs. apply _. Defined.
Definition drafts_of (r : ResolvedRule.t) : result (list FindingDraft.t) :=
  evaluate (ResolvedRule.evaluator r) board (RuleContext.mk (ResolvedRule.severity r) (ResolvedRule.parameters r) geometry).

(** The execution [e] records the rule [r], whose findings are in [all]. *)
Record executed (all : dict Finding.t) (r : ResolvedRule.t) (e : RuleExecution.t) : Prop := {
  ex_rule : RuleExecution.rule_id e = rule_id_of (ResolvedRule.evaluator r);
  ex_enabled : RuleExecution.enabled e = ResolvedRule.enabled r;
  ex_severity : RuleExecution.severity e = ResolvedRule.severity r;
  ex_blockers : RuleExecution.blocker_ids e = rule_blockers r;
  ex_not_run : RuleExecution.outcome e = RuleExecutionOutcome.NOT_RUN <-> ~ runs r;
  ex_findings : ~ runs r -> RuleExecution.finding_ids e = [];
  ex_run : runs r -> exists drafts fs, drafts_of r = Ok drafts /\
    Forall2 (fun draft f => materialize_finding r draft = Ok f) drafts fs /\
    RuleExecution.finding_ids e = sorted_set (Finding.finding_id <$> fs) /\
    (RuleExecution.outcome e = RuleExecutionOutcome.PASS <-> fs = []) /\
    forall f, f ∈ fs -> found all f;
}.

Lemma executed_grows all all' r e : grows all all' -> executed all r e -> executed all' r e.
Proof.
  intros Hg [? ? ? ? ? ? Hrun]. split; try done.
  intros Hr. destruct (Hrun Hr) as (drafts & fs & ? & ? & ? & ? & Hf). exists drafts, fs. split_and!; auto.
Qed.

Variables (kernel : pyval) (rules : dict pyval).

(** The finding was made of a draft of [r], which ran. *)
Definition made_by (r : ResolvedRule.t) (f : Finding.t) : Prop :=
  runs r /\ exists drafts draft, drafts_of r = Ok drafts /\ draft ∈ drafts /\ materialize_finding r draft = Ok f.

Lemma runs_decided r :
  (ResolvedRule.enabled r && bool_decide (rule_blockers r = [])) = true <-> runs r.
Proof. unfold runs. by rewrite andb_true_iff, bool_decide_eq_true. Qed.

Lemma run_rule_spec st r st' :
  run_rule identity board geometry kernel rules st r = Ok st' ->
  exists e, executions st' = (executions st ++ [e])%list /\ executed (findings st') r e /\
    grows (findings st) (findings st') /\
    (keyed Finding.finding_id (findings st) -> keyed Finding.finding_id (findings st')) /\
    (forall id f, findings st' !! id = Some f -> findings st !! id = Some f \/ made_by r f).
Proof.
  unfold run_rule. intros [_ H]%seq_Ok. apply bind_Ok in H as ([all fs] & Hrun & [= <-]). simpl.
  eexists. split; [done|].
  fold (rule_id_of (ResolvedRule.evaluator r)) in *. fold (rule_blockers r) in *.
  destruct (ResolvedRule.enabled r && bool_decide (rule_blockers r = [])) eqn:E.
  - apply runs_decided in E as Hr. apply bind_Ok in Hrun as (drafts & Hd & Hrun).
    apply bind_Ok in Hrun as ([all' fs'] & Hfold & Hrun). apply seq_Ok in Hrun as [_ [= -> ->]].
    assert (drafts_of r = Ok drafts) as Hdrafts.
    { unfold evaluate_closed in Hd. unfold drafts_of. by destruct (evaluate _ _ _). }
    destruct (add_drafts_spec _ _ _ _ _ _ Hfold) as (new & Hfs & Hnew & Hg & Hin & Hk & Hfrom).
    simpl in Hfs. subst fs. split_and!; [|done..|].
    + split; simpl; try done.
      * destruct (bool_decide (new = [])); split; [discriminate|by intros []|discriminate|by intros []].
      * intros _. exists drafts, new. split_and!; try done. destruct (decide (new = [])) as [->|Hne].
        { by rewrite bool_decide_true. }
        rewrite bool_decide_false by done. by split.
    + intros id f [?|Hf]%Hfrom; [by left|right]. split; [done|].
      apply list_elem_of_lookup in Hf as [i Hi]. destruct (Forall2_lookup_r _ _ _ _ _ Hnew Hi) as (draft & Hx & Hm).
      exists drafts, draft. split_and!; [done| |done]. by eapply list_elem_of_lookup_2.
  - injection Hrun as <- <-. assert (~ runs r) as Hr by (rewrite <- runs_decided; congruence).
    split_and!; [|by intros f|done|by left]. by split.
Qed.

Lemma run_rules_spec l st st' :
  foldM (run_rule identity board geometry kernel rules) st l = Ok st' ->
  exists es, executions st' = (executions st ++ es)%list /\ Forall2 (executed (findings st')) l es /\
    grows (findings st) (findings st') /\
    (keyed Finding.finding_id (findings st) -> keyed Finding.finding_id (findings st')) /\
    (forall id f, findings st' !! id = Some f -> findings st !! id = Some f \/ exists r, r ∈ l /\ made_by r f).
Proof.
  revert st. induction l as [|r l IH]; simpl; intros st H.
  - injection H as <-. exists []. rewrite app_nil_r. split_and!; [done|constructor|by intros f|done|by left].
  - apply bind_Ok in H as (st1 & H1 & H).
    destruct (run_rule_spec _ _ _ H1) as (e & He & Hex & Hg & Hk & Hfrom).
    destruct (IH _ H) as (es & -> & Hes & Hg' & Hk' & Hfrom'). rewrite He, <- app_assoc.
    exists (e :: es). split_and!; [done| | |by auto|].
    + constructor; [|done]. by eapply executed_grows.
    + intros f Hf. by apply Hg', Hg.
    + intros id f [Hf|(r' & ? & ?)]%Hfrom'; [|right; exists r'; by split; [right|]].
      apply Hfrom in Hf as [?|?]; [by left|right; exists r; by split; [left|]].
Qed.
End run.

(** ** Gates *)

(** The gate selects every rule. *)
Definition unscoped (gate : GateDefinition.t) : Prop :=
  GateDefinition.domains gate = [] /\ GateDefinition.rule_ids gate = [] /\ GateDefinition.exempt_rule_ids gate = [].

Lemma unscoped_selects gate d : unscoped gate -> gate_selects gate d = true.
Proof.
  intros (Hd & Hr & He). unfold gate_selects. rewrite Hd, Hr, He.
  by rewrite (bool_decide_false (_ ∈ [])) by apply not_elem_of_nil.
Qed.

Lemma unscoped_selects_rule gate ds id b :
  unscoped gate -> selects_rule gate ds id = Ok b -> b = true.
Proof. intros Hu (d & _ & [= <-])%bind_Ok. by apply unscoped_selects. Qed.

Lemma filterM_total {A} (f : A -> result bool) l l' x :
  filterM f l = Ok l' -> x ∈ l -> exists b, f x = Ok b.
Proof.
  revert l'. induction l as [|y l IH]; simpl; intros l'; [by intros _ ?%not_elem_of_nil|].
  intros (keep & Hk & (rest & Hr & _)%bind_Ok)%bind_Ok [->|Hx]%elem_of_cons; [eauto|by eapply IH].
Qed.

Lemma sorted_ids_nil {A} (f : A -> string) (l : list A) : sorted_on id (f <$> l) = [] <-> l = [].
Proof.
  split; [|by intros ->]. intros H. apply length_zero_iff_nil.
  by rewrite <- (length_fmap f), <- (length_sorted_on id), H.
Qed.

(** A gate without a scope passes exactly when every finding is below its
    threshold, every rule ran and no external evidence is required. *)
Lemma gate_passes findings executions ds ih rh gate d :
  unscoped gate -> evaluate_gate findings executions ds ih rh gate = Ok d ->
  GateDecision.gate_id d = GateDefinition.gate_id gate /\
  GateDecision.unavailable_evidence_ids d = GateDefinition.required_external_evidence_ids gate /\
  (GateDecision.passed d = true <->
    (forall f, f ∈ findings -> (Severity.rank (Finding.severity f) < Severity.rank (GateDefinition.block_at_or_above gate))%Z) /\
    (forall e, e ∈ executions -> RuleExecution.outcome e <> RuleExecutionOutcome.NOT_RUN) /\
    GateDefinition.required_external_evidence_ids gate = []).
Proof.
  intros Hu (blocking & Hb & H)%bind_Ok. apply bind_Ok in H as (not_run & Hn & H).
  apply bind_Ok in H as (h & _ & [= <-]). simpl. split_and!; [done..|].
  rewrite !andb_true_iff, !bool_decide_eq_true, !sorted_ids_nil.
  pose proof (filterM_spec _ _ _ Hb) as Sb. pose proof (filterM_spec _ _ _ Hn) as Sn.
  assert (blocking = [] <-> forall f, f ∈ findings ->
    (Severity.rank (Finding.severity f) < Severity.rank (GateDefinition.block_at_or_above gate))%Z) as ->.
  { split.
    - intros -> f Hf. apply Z.nle_gt. intros Hle. destruct (filterM_total _ _ _ f Hb Hf) as [b Hfb].
      specialize (Sb f). rewrite (proj2 (Z.leb_le _ _) Hle) in Hfb. simpl in Hfb.
      apply (unscoped_selects_rule _ _ _ _ Hu) in Hfb as Hb'. subst b.
      apply (not_elem_of_nil f). apply Sb. split; [done|]. by rewrite (proj2 (Z.leb_le _ _) Hle).
    - intros Hall. apply elem_of_nil_inv. intros f [Hf Ht]%Sb. apply andM_true in Ht as [Hle%Z.leb_le _].
      specialize (Hall f Hf). lia. }
  assert (not_run = [] <-> forall e, e ∈ executions -> RuleExecution.outcome e <> RuleExecutionOutcome.NOT_RUN) as ->; [|naive_solver].
  split.
  - intros -> e He Ho. destruct (filterM_total _ _ _ e Hn He) as [b Hfb].
    specialize (Sn e). rewrite (bool_decide_true _ Ho) in Hfb. simpl in Hfb.
    apply (unscoped_selects_rule _ _ _ _ Hu) in Hfb as Hb'. subst b.
    apply (not_elem_of_nil e). apply Sn. split; [done|]. by rewrite (bool_decide_true _ Ho).
  - intros Hall. apply elem_of_nil_inv. intros e [He Ht]%Sn. apply andM_true in Ht as [Ho%bool_decide_eq_true _].
    by apply (Hall e He).
Qed.

(** * What an accepted policy and a returned report say *)

Import VerificationEngine.

Lemma rejected_none names msg : reject_any names msg = Ok tt <-> names = [].
Proof. unfold reject_any. by rewrite raise_if_Ok, negb_false_iff, bool_decide_eq_true. Qed.

Lemma has_duplicates_false {A} `{EqDecision A} (l : list A) : has_duplicates l = false -> NoDup l.
Proof.
  unfold has_duplicates. rewrite negb_false_iff, Nat.eqb_eq. intros H.
  apply (submseteq_NoDup_length (remove_dups l)); [apply NoDup_remove_dups| |done].
  intros x. by rewrite elem_of_remove_dups.
Qed.

(** ** Policies *)

(** What an accepted policy grants a required gate: the gate selects every
    rule, its threshold is not above the greatest one that is allowed, and the
    release gate asks for the KiCad evidence. *)
Record strict_gate (gate : GateDefinition.t) : Prop := {
  sg_unscoped : unscoped gate;
  sg_threshold : forall maximum, MAXIMUM_REQUIRED_GATE_THRESHOLDS !! GateDefinition.gate_id gate = Some maximum ->
    (Severity.rank (GateDefinition.block_at_or_above gate) <= Severity.rank maximum)%Z;
  sg_evidence : GateDefinition.gate_id gate = "manufacturing-release" ->
    KICAD_EVIDENCE_ID ∈ GateDefinition.required_external_evidence_ids gate;
}.

Lemma validated_gate known fatal gate :
  validate_gate known fatal gate = Ok tt -> GateDefinition.gate_id gate ∈ REQUIRED_GATE_IDS -> strict_gate gate.
Proof.
  unfold validate_gate. intros H Hreq. apply seq_Ok in H as [_ H]. apply seq_Ok in H as [_ H].
  apply seq_Ok in H as [_ H]. apply seq_Ok in H as [Hs H]. apply seq_Ok in H as [Ht He].
  rewrite raise_if_Ok, (bool_decide_true _ Hreq) in Hs. simpl in Hs.
  rewrite !orb_false_iff, !negb_false_iff, !bool_decide_eq_true in Hs. destruct Hs as [[Hs1 Hs2] Hs3].
  split; [done| |].
  - intros maximum Hm. rewrite Hm, raise_if_Ok in Ht. apply Z.ltb_ge in Ht. done.
  - intros Hid. rewrite raise_if_Ok, (bool_decide_true _ Hid) in He. simpl in He.
    by apply negb_false_iff, bool_decide_eq_true in He.
Qed.

(** An accepted policy: one resolved rule for each evaluator, in order, and
    the required gates. *)
Record accepted (engine : t) (policy : option VerificationPolicy.t) (p : VerificationPolicy.t)
    (resolved : list ResolvedRule.t) : Prop := {
  ac_rules : Forall2 (fun evaluator r => exists override, resolve_rule evaluator override = Ok r /\
    (policy = None -> override = None)) (evaluators engine) resolved;
  ac_strict : forall gate, gate ∈ VerificationPolicy.gates p -> GateDefinition.gate_id gate ∈ REQUIRED_GATE_IDS ->
    strict_gate gate;
  ac_required : forall id, id ∈ REQUIRED_GATE_IDS ->
    exists gate, gate ∈ VerificationPolicy.gates p /\ GateDefinition.gate_id gate = id;
  ac_gates : NoDup (GateDefinition.gate_id <$> VerificationPolicy.gates p);
}.

Lemma strict_policy_overrides p q :
  strict_policy = Ok p -> VerificationPolicy.normalized p = Ok q -> VerificationPolicy.overrides q = [].
Proof. intros [= <-] [= <-]. done. Qed.

Lemma accept_policy_spec engine policy p resolved :
  accept_policy engine policy = Ok (p, resolved) -> accepted engine policy p resolved.
Proof.
  unfold accept_policy. intros (source & Hsource & H)%bind_Ok. apply seq_Ok in H as [_ H].
  apply bind_Ok in H as (q & Hq & H). apply bind_Ok in H as (overrides & Ho & H).
  apply bind_Ok in H as (rs & Hrs & [= <- <-]).
  unfold validate_policy in Ho. apply seq_Ok in Ho as [_ Ho]. apply seq_Ok in Ho as [_ Ho].
  apply seq_Ok in Ho as [Hdup%raise_if_Ok%has_duplicates_false Ho].
  apply seq_Ok in Ho as [Hmiss%rejected_none Ho]. apply seq_Ok in Ho as [Hgates%forM_Ok Ho].
  apply seq_Ok in Ho as [_ [= <-]]. rewrite Forall_forall in Hgates. split.
  - apply mapM_Ok_Forall2 in Hrs. eapply Forall2_impl; [exact Hrs|]. intros evaluator r Hr. eexists. split; [exact Hr|].
    intros ->. by rewrite (strict_policy_overrides source q Hsource Hq).
  - intros gate Hin. by eapply validated_gate, Hgates.
  - intros id Hid. destruct (decide (id ∈ GateDefinition.gate_id <$> VerificationPolicy.gates q)) as [Hin|Hn].
    + apply list_elem_of_fmap in Hin as (gate & -> & ?). eauto.
    + destruct (no_member _ id Hmiss). by apply elem_of_sorted_on, list_elem_of_filter.
  - done.
Qed.

(** ** Reports *)

Section verify.
Variable identity : nat -> subject -> result pyval.
Variable code_bundle_hash : result string.

(** What is known of a report. *)
Record reported (engine : t) (board : BoardGraph.t) (policy : option VerificationPolicy.t)
    (p : VerificationPolicy.t) (resolved : list ResolvedRule.t) (all : dict Finding.t)
    (report : VerificationReport.t) : Prop := {
  re_board : validate_board_graph board = Ok tt /\ BoardGraph.schema_version board = BOARD_SCHEMA_VERSION;
  re_policy : accepted engine policy p resolved;
  re_constants : VerificationReport.schema_version report = REPORT_SCHEMA_VERSION /\
    VerificationReport.engine_version report = ENGINE_VERSION;
  re_findings : VerificationReport.findings report = sorted_on finding_order_key (dict_values all);
  re_keyed : keyed Finding.finding_id all;
  re_executions : Forall2 (executed (BoardGraph.normalized board) (geometry engine) all) resolved
    (VerificationReport.executions report);
  re_made : forall id f, all !! id = Some f ->
    exists r, r ∈ resolved /\ made_by (BoardGraph.normalized board) (geometry engine) r f;
  re_gates : exists decisions ds, VerificationReport.gates report = sorted_on GateDecision.gate_id decisions /\
    Forall2 (fun gate d => evaluate_gate (VerificationReport.findings report) (VerificationReport.executions report)
      ds (VerificationReport.input_hash report) (VerificationReport.rule_set_hash report) gate = Ok d)
      (VerificationPolicy.gates p) decisions;
  re_input_hash : stable_hash (py (BoardGraph.normalized board)) "pcb-board-graph-v2" =
    Ok (VerificationReport.input_hash report);
  re_report_hash : stable_hash (report_value (VerificationReport.run_id report) (VerificationReport.input_hash report)
      (VerificationReport.rule_set_hash report) (VerificationReport.findings report)
      (VerificationReport.executions report) (VerificationReport.gates report)) "pcb-verification-report-v3" =
    Ok (VerificationReport.report_hash report);
}.

Lemma verify_reports now engine board policy report :
  verify identity code_bundle_hash now engine board policy = Ok report ->
  exists p resolved all, reported engine board policy p resolved all report.
Proof.
  unfold verify. intros [Hv H]%seq_Ok. apply seq_Ok in H as [Hs H].
  apply raise_if_Ok, negb_false_iff, Z.eqb_eq in Hs.
  apply bind_Ok in H as ([p resolved] & Hp & H). apply bind_Ok in H as (ih & Hih & H).
  apply bind_Ok in H as (kernel & _ & H). apply bind_Ok in H as (rules & _ & H).
  apply bind_Ok in H as (rh & _ & H). apply bind_Ok in H as (run & _ & H).
  apply bind_Ok in H as (st & Hst & H). apply seq_Ok in H as [_ H].
  apply bind_Ok in H as (decisions & Hd & H). apply bind_Ok in H as (report_hash & Hrep & H).
  apply Ok_inj in H as <-. apply bind_Ok in Hd as (ds & Hds%mapM_Ok_Forall2 & Hd). apply Ok_inj in Hd as <-.
  destruct (run_rules_spec _ _ _ _ _ _ _ _ Hst) as (es & He & Hex & _ & Hk & Hfrom). simpl in He.
  exists p, resolved, (findings st). split; simpl; rewrite ?He; try done.
  - by eapply accept_policy_spec.
  - apply Hk. split; [constructor|]. by intros ? ? [=].
  - intros id f Hf. destruct (Hfrom id f Hf) as [?|?]; [done|done].
  - eexists _, _. split; [done|]. rewrite He in Hds. exact Hds.
  - by rewrite He in Hrep.
Qed.
End verify.
