(* ===== verification/EngineSafety.v ===== *)
(** * What a gate that passes guarantees

    The rules ran and found nothing at the threshold of the gate or above it,
    so that the board has what the rules decide. *)
From S2P Require Import Prelude PyDict PyStr Geometry GeometryFacts Board Rule Copper GeoRules RoutingRules.
From S2P Require Import CopperFacts ClearanceFacts RoutingFacts ElectricalRules RuleFacts Canonical BoardValues Policy.
From S2P Require Import Engine EngineFacts.
Import VerificationEngine.

Local Open Scope string_scope.

(** ** From a passed gate to the drafts of the rules *)

(** [evaluator] ran on the board, resolved, and a severity at or above the
    threshold of the gate means that it drafted nothing. *)
Definition cleared (gate_id : string) (policy : option VerificationPolicy.t) (board : BoardGraph.t)
    (kernel : GeometryKernel) (evaluator : RuleEvaluator) : Prop :=
  exists override r drafts, resolve_rule evaluator override = Ok r /\ (policy = None -> override = None) /\
    rule_blockers board r = [] /\ evaluate evaluator board (resolved_context r kernel) = Ok drafts /\
    forall maximum, MAXIMUM_REQUIRED_GATE_THRESHOLDS !! gate_id = Some maximum ->
      (Severity.rank maximum <= Severity.rank (ResolvedRule.severity r))%Z -> drafts = [].

Lemma resolved_evaluator evaluator override r :
  resolve_rule evaluator override = Ok r -> ResolvedRule.evaluator r = evaluator.
Proof.
  unfold resolve_rule. intros H. repeat apply seq_Ok in H as [_ H]. by apply bind_Ok in H as (? & _ & [= <-]).
Qed.

Lemma materialized_severity r draft f :
  materialize_finding r draft = Ok f -> Finding.severity f = ResolvedRule.severity r.
Proof.
  unfold materialize_finding. intros [_ H]%seq_Ok. apply bind_Ok in H as (? & _ & H).
  apply bind_Ok in H as (? & _ & H). by apply bind_Ok in H as (? & _ & [= <-]).
Qed.

Lemma found_value all f :
  keyed Finding.finding_id all -> found all f ->
  exists f', f' ∈ dict_values all /\ Finding.eq_key f' = Finding.eq_key f.
Proof.
  intros Hk (f' & Hf & E). exists f'. split; [|done]. apply (keyed_values_elem Finding.finding_id); [done|].
  by rewrite (eq_key_id _ _ E).
Qed.

Lemma evaluated_gate_id findings executions ds ih rh gate d :
  evaluate_gate findings executions ds ih rh gate = Ok d -> GateDecision.gate_id d = GateDefinition.gate_id gate.
Proof.
  unfold evaluate_gate. intros (? & _ & H)%bind_Ok. apply bind_Ok in H as (? & _ & H).
  by apply bind_Ok in H as (? & _ & [= <-]).
Qed.

Section passed.
Variable identity : nat -> subject -> result pyval.
Variable code_bundle_hash : result string.

Lemma required_decision engine board policy p resolved all report id :
  reported engine board policy p resolved all report -> id ∈ REQUIRED_GATE_IDS ->
  exists gate d, d ∈ VerificationReport.gates report /\ GateDecision.gate_id d = id /\
    GateDefinition.gate_id gate = id /\ strict_gate gate /\
    GateDecision.unavailable_evidence_ids d = GateDefinition.required_external_evidence_ids gate.
Proof.
  intros R Hid. destruct (re_gates _ _ _ _ _ _ _ R) as (decisions & ds & Hg & Hds).
  destruct (ac_required _ _ _ _ (re_policy _ _ _ _ _ _ _ R) id Hid) as (gate & Hin & E).
  apply list_elem_of_lookup in Hin as [i Hi]. destruct (Forall2_lookup_l _ _ _ _ _ Hds Hi) as (d & Hd & Hev).
  apply list_elem_of_lookup_2 in Hi, Hd.
  assert (strict_gate gate) as S by (apply (ac_strict _ _ _ _ (re_policy _ _ _ _ _ _ _ R)); [done|by rewrite E]).
  destruct (gate_passes _ _ _ _ _ _ _ (sg_unscoped _ S) Hev) as (E1 & E2 & _).
  exists gate, d. split_and!; [|congruence|done..]. rewrite Hg. by apply elem_of_sorted_on.
Qed.

(** A required gate that passes clears every rule of the registry. *)
Lemma passed_clears now engine board policy report d :
  verify identity code_bundle_hash now engine board policy = Ok report ->
  d ∈ VerificationReport.gates report -> GateDecision.gate_id d ∈ REQUIRED_GATE_IDS -> GateDecision.passed d = true ->
  forall evaluator, evaluator ∈ evaluators engine ->
    cleared (GateDecision.gate_id d) policy (BoardGraph.normalized board) (geometry engine) evaluator.
Proof.
  intros Hv Hd Hreq Hpass evaluator Hev.
  destruct (verify_reports _ _ _ _ _ _ _ Hv) as (p & resolved & all & R).
  destruct (re_gates _ _ _ _ _ _ _ R) as (decisions & ds & Hg & Hds).
  rewrite Hg in Hd. apply elem_of_sorted_on, list_elem_of_lookup in Hd as [i Hi].
  destruct (Forall2_lookup_r _ _ _ _ _ Hds Hi) as (gate & Hgate & Heval).
  pose proof (re_policy _ _ _ _ _ _ _ R) as A.
  pose proof (evaluated_gate_id _ _ _ _ _ _ _ Heval) as Eid.
  apply list_elem_of_lookup_2 in Hgate.
  assert (strict_gate gate) as S by (apply (ac_strict _ _ _ _ A); [done|by rewrite <- Eid]).
  destruct (gate_passes _ _ _ _ _ _ _ (sg_unscoped _ S) Heval) as (_ & _ & Hiff).
  apply Hiff in Hpass as (Hbelow & Hran & _).
  apply list_elem_of_lookup in Hev as [k Hk].
  destruct (Forall2_lookup_l _ _ _ _ _ (ac_rules _ _ _ _ A) Hk) as (r & Hr & override & Hres & Hnone).
  destruct (Forall2_lookup_l _ _ _ _ _ (re_executions _ _ _ _ _ _ _ R) Hr) as (e & He & X).
  apply list_elem_of_lookup_2 in He. specialize (Hran e He).
  assert (runs (BoardGraph.normalized board) r) as Hruns.
  { apply dec_stable. intros Hn. by apply Hran, (ex_not_run _ _ _ _ _ X). }
  destruct (ex_run _ _ _ _ _ X Hruns) as (drafts & fs & Hdrafts & Hfs & _ & _ & Hfound).
  exists override, r, drafts. unfold drafts_of in Hdrafts. rewrite (resolved_evaluator _ _ _ Hres) in Hdrafts.
  split_and!; [done|done|apply Hruns|done|]. intros maximum Hmax Hle. rewrite Eid in Hmax.
  apply (sg_threshold _ S) in Hmax. destruct drafts as [|draft drafts]; [done|].
  apply Forall2_cons_inv_l in Hfs as (f & fs' & Hf & _ & ->). apply materialized_severity in Hf.
  destruct (found_value all f (re_keyed _ _ _ _ _ _ _ R)) as (f' & Hin & E); [apply Hfound; by left|].
  apply eq_key_severity in E. specialize (Hbelow f'). rewrite (re_findings _ _ _ _ _ _ _ R), E, Hf in Hbelow.
  assert (f' ∈ sorted_on finding_order_key (dict_values all)) as Hin' by (by apply elem_of_sorted_on).
  specialize (Hbelow Hin'). lia.
Qed.
End passed.

(** A rule that is mandatory and fatal has drafted nothing, under any policy. *)
Lemma cleared_fatal id policy board kernel evaluator :
  cleared id policy board kernel evaluator -> id ∈ REQUIRED_GATE_IDS ->
  RuleDefinition.mandatory (definition evaluator) = true ->
  RuleDefinition.default_severity (definition evaluator) = Severity.FATAL ->
  exists override r, resolve_rule evaluator override = Ok r /\
    evaluate evaluator board (resolved_context r kernel) = Ok [].
Proof.
  intros (override & r & drafts & Hres & _ & _ & Hd & Hmax) Hid Hm Hf. exists override, r. split; [done|].
  assert (ResolvedRule.severity r = Severity.FATAL) as Hs.
  { clear -Hres Hm Hf. unfold resolve_rule in Hres. apply seq_Ok in Hres as [_ H]. apply seq_Ok in H as [_ H].
    apply seq_Ok in H as [Hsev%raise_if_Ok H]. apply seq_Ok in H as [_ H]. apply seq_Ok in H as [_ H].
    apply bind_Ok in H as (? & _ & [= <-]). rewrite Hm, bool_decide_true in Hsev by done.
    by apply negb_false_iff, bool_decide_eq_true in Hsev. }
  rewrite Hs in Hmax. assert (exists maximum, MAXIMUM_REQUIRED_GATE_THRESHOLDS !! id = Some maximum) as [maximum E].
  { repeat (apply elem_of_cons in Hid as [->|Hid]; [by eexists|]). by apply not_elem_of_nil in Hid. }
  rewrite (Hmax maximum E) in Hd; [done|]. by destruct maximum.
Qed.

(** Under the default policy a rule has its default severity. *)
Lemma cleared_default id board kernel evaluator maximum :
  cleared id None board kernel evaluator -> MAXIMUM_REQUIRED_GATE_THRESHOLDS !! id = Some maximum ->
  (Severity.rank maximum <= Severity.rank (RuleDefinition.default_severity (definition evaluator)))%Z ->
  exists r, resolve_rule evaluator None = Ok r /\ evaluate evaluator board (resolved_context r kernel) = Ok [].
Proof.
  intros (override & r & drafts & Hres & Hn & _ & Hd & Hmax) E Hle. rewrite (Hn eq_refl) in Hres.
  exists r. split; [done|].
  assert (ResolvedRule.severity r = RuleDefinition.default_severity (definition evaluator)) as Hs.
  { clear -Hres. unfold resolve_rule in Hres. repeat apply seq_Ok in Hres as [_ Hres].
    by apply bind_Ok in Hres as (? & _ & [= <-]). }
  rewrite (Hmax maximum E) in Hd; [done|]. by rewrite Hs.
Qed.
