(* ===== verification/SilentRuns.v ===== *)
(** * Rules that report nothing

    What a board has when a rule drafts no finding: the contract of each rule
    in the terms of the board, and the report of a board on which all are silent. *)
From S2P Require Import Prelude PyDict PyStr Json Geometry Board Rule Copper GeoRules RoutingRules CopperFacts.
From S2P Require Import ClearanceFacts RoutingFacts ElectricalRules RuleFacts Canonical BoardValues Policy.
From S2P Require Import CanonicalFacts ElectricalFacts Engine EngineFacts.

Local Open Scope string_scope.

(** ** Drafts that are not made *)

Lemma issues_nil tests : issues_of tests = [] <-> Forall (fun t => t.1 = false) tests.
Proof.
  unfold issues_of. rewrite Forall_forall. split.
  - intros H t Ht. apply not_true_iff_false. intros E. apply (no_member _ t.2) in H. apply H.
    apply list_elem_of_fmap. exists t. split; [done|]. by apply list_elem_of_filter.
  - intros H. assert (filter (fun t => t.1 = true) tests = []) as ->; [|done].
    apply filter_nil_iff. intros t Ht. by rewrite (H t Ht).
Qed.

Lemma issues_report {A} (issues : list string) (f : string -> list string -> A) :
  match issues with [] => [] | issue :: rest => [f issue rest] end = [] <-> issues = [].
Proof. by destruct issues. Qed.

Lemma fmap_nil {A B} (f : A -> B) l : f <$> l = [] <-> l = [].
Proof. by destruct l. Qed.

(** [any] over a condition of each element, and the opposite. *)
Lemma if_nil {A} (b : bool) (x : A) : (if b then [x] else []) = [] <-> b = false.
Proof. by destruct b. Qed.

Section silent.
Variables (board : BoardGraph.t) (context : RuleContext.t).

(** ** Topology *)

Definition on_board (layers : list string) : Prop := forall layer, layer ∈ layers -> layer ∈ BoardGraph.layers board.
Definition of_board (net_id : string) : Prop := net_id ∈ Net.net_id <$> BoardGraph.nets board.

Lemma known_layers layers : CopperTopologyRule.unknown_layer board layers = false <-> on_board layers.
Proof.
  unfold CopperTopologyRule.unknown_layer, on_board. rewrite existsb_Forall, Forall_forall.
  by setoid_rewrite negb_false_iff; setoid_rewrite bool_decide_eq_true.
Qed.
Lemma known_nets net_id : negb (CopperTopologyRule.known_net board net_id) = false <-> of_board net_id.
Proof. unfold CopperTopologyRule.known_net. by rewrite negb_false_iff, bool_decide_eq_true. Qed.

(** Tracks, vias and zones with valid references and dimensions. *)
Record topology_sound : Prop := {
  track_topology : forall t, t ∈ BoardGraph.tracks board ->
    of_board (Track.net_id t) /\ on_board [Track.layer t] /\ Track.start t <> Track.end_ t /\ (0 < Track.width_nm t)%Z;
  via_topology : forall v, v ∈ BoardGraph.vias board ->
    of_board (Via.net_id v) /\ (2 <= length (Via.layers v))%nat /\ on_board (Via.layers v) /\
    (0 < Via.drill_nm v < Via.diameter_nm v)%Z;
  zone_topology : forall z, z ∈ BoardGraph.zones board ->
    of_board (Zone.net_id z) /\ on_board [Zone.layer z] /\ (0 <= Zone.clearance_nm z)%Z;
}.

Lemma topology_rule_silent : CopperTopologyRule.evaluate board context = Ok [] -> topology_sound.
Proof.
  intros H. apply Ok_inj in H. rewrite !app_nil, !bind_nil in H. destruct H as (_ & _ & _ & _ & Ht & Hv & Hz). split.
  - intros t Hin%Ht. unfold CopperTopologyRule.track_findings in Hin. apply issues_report, issues_nil in Hin.
    rewrite !Forall_cons in Hin. cbn [fst] in Hin. destruct Hin as (H1 & H2 & H3 & H4 & _).
    rewrite known_nets in H1. rewrite known_layers in H2. apply bool_decide_eq_false in H3. apply Z.leb_gt in H4. done.
  - intros v Hin%Hv. unfold CopperTopologyRule.via_findings in Hin. apply issues_report, issues_nil in Hin.
    rewrite !Forall_cons in Hin. cbn [fst] in Hin. destruct Hin as (H1 & H2 & H3 & H4 & H5 & H6 & _).
    rewrite known_nets in H1. rewrite known_layers in H3. apply Nat.ltb_ge in H2. apply Z.leb_gt in H4, H5, H6. done.
  - intros z Hin%Hz. unfold CopperTopologyRule.zone_findings in Hin. apply issues_report, issues_nil in Hin.
    rewrite !Forall_cons in Hin. cbn [fst] in Hin. destruct Hin as (H1 & H2 & H3 & _).
    rewrite known_nets in H1. rewrite known_layers in H2. apply Z.ltb_ge in H3. done.
Qed.

Lemma outline_rule_silent :
  OutlineValidityRule.evaluate board context = Ok [] -> outline_defects (BoardGraph.outline board) (RuleContext.geometry context) = [].
Proof. intros H. by apply Ok_inj, fmap_nil in H. Qed.

Lemma zone_outline_rule_silent :
  ZoneOutlineValidityRule.evaluate board context = Ok [] ->
  forall z, z ∈ BoardGraph.zones board -> outline_defects (Zone.outline z) (RuleContext.geometry context) = [].
Proof. intros H z Hz. apply Ok_inj in H. rewrite bind_nil in H. by apply H, fmap_nil in Hz. Qed.

Lemma feature_rule_silent : UnsupportedFeatureRule.evaluate board context = Ok [] -> BoardGraph.unsupported_features board = [].
Proof. intros H. by apply Ok_inj, fmap_nil in H. Qed.

(** ** Geometry of the connected pins *)

Definition has_pad_geometry (pin : Pin.t) : Prop :=
  Pin.pad_center pin <> None /\ (0 < Pin.pad_diameter_nm pin)%Z /\ Pin.layers pin <> [].

Lemma missing_fields_nil pin : RoutingModelCompletenessRule.missing_fields pin = [] <-> has_pad_geometry pin.
Proof.
  unfold RoutingModelCompletenessRule.missing_fields, has_pad_geometry. rewrite issues_nil, !Forall_cons.
  cbn [fst]. rewrite !bool_decide_eq_false, Z.leb_gt. naive_solver.
Qed.

Lemma elem_of_component_pins c pin :
  (c, pin) ∈ component_pins board <-> c ∈ BoardGraph.components board /\ pin ∈ Component.pins c.
Proof.
  unfold component_pins. rewrite list_elem_of_bind. split.
  - intros (c' & (p & [= -> ->] & Hp)%list_elem_of_fmap & Hc). done.
  - intros [Hc Hp]. exists c. split; [|done]. apply list_elem_of_fmap. eauto.
Qed.

Lemma completeness_rule_silent :
  references_sound board -> RoutingModelCompletenessRule.evaluate board context = Ok [] ->
  forall net conn c pin, net ∈ BoardGraph.nets board -> conn ∈ Net.connections net ->
    (c, pin) ∈ component_pins board -> (Component.component_id c, Pin.number pin) = NetConnection.key conn ->
    has_pad_geometry pin.
Proof.
  intros R H net conn c pin Hnet Hconn [Hc Hpin]%elem_of_component_pins E. apply Ok_inj in H. rewrite bind_nil in H.
  specialize (H (net, conn)). rewrite elem_of_net_connections in H. specialize (H (conj Hnet Hconn)). simpl in H.
  injection E as Eid Enum. unfold RoutingModelCompletenessRule.connection_findings in H.
  assert (NoDup (Component.component_id <$> BoardGraph.components board)) as Hnd.
  { apply (unique_ids board R "component"). by left. }
  rewrite (proj2 (dict_by_lookup Component.component_id _ _ c Hnd) (conj Hc Eid)) in H.
  destruct (list_find _ (Component.pins c)) as [[i p]|] eqn:F.
  - apply list_find_Some in F as (Hi & Hn & _). apply list_elem_of_lookup_2 in Hi.
    assert (p = pin) as ->.
    { apply (unique_by Pin.number (Component.pins c)); [by apply (unique_pins board R)|done|done|congruence]. }
    apply missing_fields_nil. by destruct (RoutingModelCompletenessRule.missing_fields pin).
  - apply list_find_None in F. rewrite Forall_forall in F. by destruct (F pin Hpin).
Qed.

(** ** Connectivity and clearance *)

Definition connected_net (net : Net.t) : Prop :=
  (net_copper board net = [] /\ Net.connections net = []) \/
  (net_copper board net <> [] /\ one_component (net_copper board net)).

Lemma connectivity_rule_silent :
  RoutingConnectivityRule.evaluate board context = Ok [] -> forall net, net ∈ BoardGraph.nets board -> connected_net net.
Proof.
  intros H net Hnet. destruct (concatM_spec (RoutingConnectivityValidator.net_findings (copper_primitives board)) (BoardGraph.nets board))
    as (l & Hl & Hnil).
  { intros n _. destruct (net_findings_spec board n) as (l & ? & _). eauto. }
  assert (l = []) as ->.
  { unfold RoutingConnectivityRule.evaluate, RoutingConnectivityValidator.validate in H. rewrite Hl in H. by injection H. }
  destruct (net_findings_spec board net) as (l & Hl' & Hiff). apply Hiff.
  rewrite (proj1 Hnil eq_refl net Hnet) in Hl'. by injection Hl'.
Qed.

Lemma width_rule_silent minimum :
  RuleContext.integer context "minimum_width_nm" = Ok minimum -> MinimumTrackWidthRule.evaluate board context = Ok [] ->
  forall t, t ∈ BoardGraph.tracks board -> (minimum <= Track.width_nm t)%Z.
Proof.
  intros Hm H t Ht. unfold MinimumTrackWidthRule.evaluate in H. rewrite Hm in H. simpl in H.
  apply Ok_inj, fmap_nil in H. rewrite filter_nil_iff in H. apply H in Ht. lia.
Qed.

Lemma ring_rule_silent minimum :
  RuleContext.integer context "minimum_annular_ring_nm" = Ok minimum ->
  MinimumViaAnnularRingRule.evaluate board context = Ok [] ->
  forall v, v ∈ BoardGraph.vias board -> (2 * minimum <= Via.diameter_nm v - Via.drill_nm v)%Z.
Proof.
  intros Hm H v Hv. unfold MinimumViaAnnularRingRule.evaluate in H. rewrite Hm in H. cbn [bind] in H.
  apply Ok_inj, fmap_nil in H. rewrite filter_nil_iff in H. apply H in Hv. lia.
Qed.

(** ** Parts, pins and nets *)

(** The component names a footprint and the evidence of its exact part. *)
Definition identified_part (c : Component.t) : Prop :=
  str_blank (Component.footprint c) = false /\ str_blank (Component.manufacturer_part_number c) = false /\
  is_sha256_hex (Component.datasheet_sha256 c) = true /\ is_sha256_hex (Component.pin_map_sha256 c) = true.

Lemma part_rules_silent :
  FootprintRequiredRule.evaluate board context = Ok [] -> PartProvenanceRequiredRule.evaluate board context = Ok [] ->
  forall c, c ∈ BoardGraph.components board -> identified_part c.
Proof.
  intros Hf Hp c Hc. apply Ok_inj, fmap_nil in Hf. rewrite filter_nil_iff in Hf.
  apply Ok_inj in Hp. rewrite bind_nil in Hp. specialize (Hp c Hc). apply issues_report, issues_nil in Hp.
  rewrite !Forall_cons in Hp. cbn [fst] in Hp. rewrite !negb_false_iff in Hp. destruct Hp as (H1 & H2 & H3 & _).
  split; [by apply not_true_iff_false, Hf|done].
Qed.

Definition connected_pin (c : Component.t) (pin : Pin.t) : Prop :=
  exists net conn, net ∈ BoardGraph.nets board /\ conn ∈ Net.connections net /\
    NetConnection.key conn = (Component.component_id c, Pin.number pin).

Lemma pin_rule_silent :
  UnconnectedRequiredPinRule.evaluate board context = Ok [] ->
  forall c pin, (c, pin) ∈ component_pins board ->
    (Pin.electrical_type pin = PinElectricalType.NO_CONNECT -> ~ connected_pin c pin) /\
    (Pin.electrical_type pin <> PinElectricalType.NO_CONNECT -> Pin.required pin = true -> connected_pin c pin).
Proof.
  intros H c pin Hin. unfold UnconnectedRequiredPinRule.evaluate in H. apply Ok_inj in H. rewrite bind_nil in H.
  specialize (H (c, pin) Hin). unfold UnconnectedRequiredPinRule.pin_findings in H. cbn [fst snd] in H.
  rewrite app_nil, !if_nil, !andb_false_iff in H. destruct H as [H1 H2].
  set (connected := (fun nc => NetConnection.key nc.2) <$> net_connections board) in *.
  assert ((Component.component_id c, Pin.number pin) ∈ connected <-> connected_pin c pin) as Hiff.
  { unfold connected. rewrite list_elem_of_fmap. split.
    - intros ([net conn] & E & [? ?]%elem_of_net_connections). exists net, conn. by split_and!.
    - intros (net & conn & ? & ? & E). exists (net, conn). split; [done|]. by apply elem_of_net_connections. }
  unfold UnconnectedRequiredPinRule.is_no_connect in *. rewrite <- Hiff.
  rewrite !bool_decide_eq_false in H2. rewrite !negb_false_iff, !bool_decide_eq_true in H1. split; [tauto|].
  intros Hn Hr. destruct H1 as [[H1|H1]|H1]; [congruence|done|done].
Qed.

Lemma endpoint_rule_silent :
  SingleConnectionNetRule.evaluate board context = Ok [] ->
  forall net, net ∈ BoardGraph.nets board ->
    Net.external_source net = true \/ (2 <= length (SingleConnectionNetRule.endpoints net))%nat.
Proof.
  intros H net Hnet. apply Ok_inj in H. rewrite bind_nil in H. specialize (H net Hnet). cbv zeta in H.
  rewrite if_nil, andb_false_iff, negb_false_iff, Nat.ltb_ge in H. tauto.
Qed.

Lemma contention_rule_silent :
  OutputContentionRule.evaluate board context = Ok [] ->
  forall net, net ∈ BoardGraph.nets board -> (length (OutputContentionRule.net_drivers board net) <= 1)%nat.
Proof.
  intros H net Hnet. apply Ok_inj in H. rewrite bind_nil in H. specialize (H net Hnet). cbv zeta in H.
  rewrite if_nil, Z.ltb_ge in H. lia.
Qed.
End silent.

(** * A run in which every rule is silent

    With an implementation whose identity does not change, a board on which no
    rule reports anything has a report: every rule passed, and each gate that
    asks for no external evidence passed. *)

Import VerificationEngine.

(** ** Hashes of mappings *)

Lemma sequence_canonical l : Forall canonical_value l -> canonical_value (PSeq l).
Proof.
  intros H.
  destruct (Forall_Forall2_ex (fun v j => canonical_data v = Ok j /\ json_wf j) l) as (js & Hjs).
  { eapply Forall_impl; [exact H|]. intros v (j & ? & ?). by exists j. }
  exists (JArr js). split.
  - apply canonical_seq. exists js. split; [done|]. eapply Forall2_impl; [exact Hjs|]. naive_solver.
  - constructor. clear -Hjs. induction Hjs; constructor; naive_solver.
Qed.

Lemma stable_hash_value v domain :
  canonical_value v -> domain <> "" -> nul_free domain = true -> exists h, stable_hash v domain = Ok h.
Proof. intros (j & Hj & _) Hd Hn. eexists. apply stable_hash_Ok. eauto. Qed.

Section stable.
Variable identity : nat -> subject -> result pyval.
Variable value : subject -> pyval.
Variable code_bundle_hash : result string.
Variable code : string.
Hypothesis stable : forall now s, identity now s = Ok (value s).
Hypothesis canonical_identity : forall s, canonical_value (value s).
Hypothesis code_is : code_bundle_hash = Ok code.

Lemma assert_stable now s label : assert_identity identity now s (value s) label = Ok tt.
Proof.
  unfold assert_identity. rewrite stable. cbn [bind].
  destruct (stable_hash_value (value s) "pcb-live-implementation-identity-v1") as (h & ->); [done..|].
  cbn [bind]. by rewrite bool_decide_true.
Qed.

Definition observed (rules : dict pyval) (id : string) : Prop := rules !! id = Some (value (Rule id)).

Lemma observe_stable now resolved_rules :
  exists rules, observe_rules identity now resolved_rules = Ok rules /\
    forall r, r ∈ resolved_rules -> observed rules (rule_id_of (ResolvedRule.evaluator r)).
Proof.
  unfold observe_rules.
  set (id_of := fun r => rule_id_of (ResolvedRule.evaluator r)).
  assert (forall l k, mapM (fun '(i, resolved) =>
    let rule_id := rule_id_of (ResolvedRule.evaluator resolved) in
    let* v := identity (now + i)%nat (Rule rule_id) in Ok (rule_id, v)) (imap (fun i => pair (k + i)) l)%nat =
    Ok ((fun r => (id_of r, value (Rule (id_of r)))) <$> l)) as H.
  { induction l as [|r l IH]; intros k; simpl; [done|]. rewrite stable. simpl.
    rewrite (imap_ext _ (fun i => pair (S k + i))%nat) by (intros; simpl; f_equal; lia).
    by rewrite IH. }
  rewrite (imap_ext _ (fun i => pair (0 + i))%nat) by done. rewrite H. simpl.
  eexists. split; [done|]. intros r Hr.
  destruct (dict_of_pairs ((fun r => (id_of r, value (Rule (id_of r)))) <$> resolved_rules) !! id_of r) as [v|] eqn:E.
  - unfold observed. fold (id_of r). rewrite E. apply dict_of_pairs_elem in E. apply list_elem_of_fmap in E as (r' & E' & _).
    injection E' as E1 E2. by rewrite E2, E1.
  - exfalso. destruct (dict_of_pairs_total ((fun r => (id_of r, value (Rule (id_of r)))) <$> resolved_rules) (id_of r))
      as [v Hv]; [|congruence]. rewrite <- list_fmap_compose. apply list_elem_of_fmap. by exists r.
Qed.

Variables (board : BoardGraph.t) (kernel : GeometryKernel) (rules : dict pyval).

(** The rule is turned on, is not blocked and drafts nothing. *)
Definition silent (r : ResolvedRule.t) : Prop := runs board r /\ drafts_of board kernel r = Ok [].

Definition silent_execution (r : ResolvedRule.t) : RuleExecution.t :=
  let d := definition (ResolvedRule.evaluator r) in
  RuleExecution.mk (RuleDefinition.rule_id d) (RuleDefinition.version d) true (ResolvedRule.severity r)
    (ResolvedRule.parameters r) [] RuleExecutionOutcome.PASS [].

Lemma assert_rule_stable now id :
  observed rules id -> assert_kernel_and_rule identity now (value Kernel) rules id = Ok tt.
Proof.
  intros Ho. unfold assert_kernel_and_rule. rewrite (assert_stable now Kernel). cbn [bind].
  rewrite (proj2 (dict_getitem_Ok _ _ _) Ho). cbn [bind]. apply (assert_stable _ (Rule id)).
Qed.

Lemma run_silent st r :
  silent r -> observed rules (rule_id_of (ResolvedRule.evaluator r)) ->
  run_rule identity board kernel (value Kernel) rules st r =
  Ok (RunState (clock st + 4) (findings st) (executions st ++ [silent_execution r])%list).
Proof.
  intros [Hr Hd] Ho. unfold run_rule. fold (rule_id_of (ResolvedRule.evaluator r)). rewrite assert_rule_stable by done.
  cbn [bind]. fold (rule_blockers board r). pose proof Hr as Hr'. rewrite <- runs_decided in Hr'. rewrite Hr'.
  unfold evaluate_closed. unfold drafts_of in Hd. rewrite Hd. cbn [bind foldM]. rewrite assert_rule_stable by done.
  cbn [bind negb]. destruct Hr as [He Hb]. by rewrite He, Hb.
Qed.

Lemma run_all_silent l st :
  (forall r, r ∈ l -> silent r /\ observed rules (rule_id_of (ResolvedRule.evaluator r))) ->
  exists now, foldM (run_rule identity board kernel (value Kernel) rules) st l =
    Ok (RunState now (findings st) (executions st ++ (silent_execution <$> l))%list).
Proof.
  revert st. induction l as [|r l IH]; intros st H.
  - exists (clock st). simpl. rewrite app_nil_r. by destruct st.
  - destruct (H r ltac:(by left)) as [Hs Ho]. cbn [foldM]. rewrite (run_silent _ _ Hs Ho). cbn [bind].
    destruct (IH (RunState (clock st + 4) (findings st) (executions st ++ [silent_execution r])%list)) as [now ->].
    { intros r' Hr'. apply H. by right. }
    exists now. simpl. by rewrite <- app_assoc.
Qed.

Lemma assert_all_silent now l :
  (forall r, r ∈ l -> observed rules (rule_id_of (ResolvedRule.evaluator r))) ->
  assert_all identity now (value Kernel) rules l = Ok tt.
Proof.
  intros H. unfold assert_all. rewrite (assert_stable now Kernel). cbn [bind]. apply forM_Ok, Forall_forall.
  intros [i r] Hin. apply elem_of_lookup_imap in Hin as (k & r' & [= -> ->] & Hr%list_elem_of_lookup_2). cbv zeta.
  rewrite (proj2 (dict_getitem_Ok _ _ _) (H r' Hr)). cbn [bind]. apply (assert_stable _ (Rule _)).
Qed.
End stable.

(** ** Gates *)

Lemma filterM_none {A} (f : A -> result bool) l : (forall x, x ∈ l -> f x = Ok false) -> filterM f l = Ok [].
Proof.
  induction l as [|x l IH]; intros H; [done|]. simpl. rewrite (H x) by (by left). cbn [bind].
  rewrite IH; [done|]. intros y Hy. apply H. by right.
Qed.

(** Without findings and with every rule passed, a gate depends on the external
    evidence only. *)
Lemma evaluate_gate_silent executions ds ih rh gate :
  (forall e, e ∈ executions -> RuleExecution.outcome e = RuleExecutionOutcome.PASS) ->
  exists d, evaluate_gate [] executions ds ih rh gate = Ok d /\
    GateDecision.gate_id d = GateDefinition.gate_id gate /\
    GateDecision.passed d = bool_decide (GateDefinition.required_external_evidence_ids gate = []).
Proof.
  intros Hp. unfold evaluate_gate. cbn [filterM bind fmap list_fmap].
  rewrite (filterM_none _ executions); [|by intros e He%Hp; rewrite He].
  cbn [bind fmap list_fmap].
  match goal with |- context [stable_hash ?v ?d] => destruct (stable_hash_value v d) as [h ->] end; [|done|done|].
  - canonical_fields; first [apply py_canonical|by apply (sequence_canonical [])].
  - eexists. by split_and!.
Qed.

Lemma evaluate_gates_silent executions ds ih rh gates :
  (forall e, e ∈ executions -> RuleExecution.outcome e = RuleExecutionOutcome.PASS) ->
  exists decisions, evaluate_gates gates [] executions ds ih rh = Ok decisions /\
    forall id b, (exists d, d ∈ decisions /\ GateDecision.gate_id d = id /\ GateDecision.passed d = b) <->
      exists gate, gate ∈ gates /\ GateDefinition.gate_id gate = id /\
        b = bool_decide (GateDefinition.required_external_evidence_ids gate = []).
Proof.
  intros Hp. unfold evaluate_gates.
  destruct (Forall_Forall2_ex (fun gate d => evaluate_gate [] executions ds ih rh gate = Ok d /\
    GateDecision.gate_id d = GateDefinition.gate_id gate /\
    GateDecision.passed d = bool_decide (GateDefinition.required_external_evidence_ids gate = [])) gates) as (l & Hl).
  { apply Forall_true. intros gate. by apply evaluate_gate_silent. }
  assert (mapM (evaluate_gate [] executions ds ih rh) gates = Ok l) as ->.
  { apply mapM_Ok_Forall2. eapply Forall2_impl; [exact Hl|]. by intros ? ? (? & _). }
  cbn [bind]. eexists. split; [done|]. intros id b. setoid_rewrite elem_of_sorted_on. split.
  - intros (d & [i Hi]%list_elem_of_lookup & <- & <-). destruct (Forall2_lookup_r _ _ _ _ _ Hl Hi) as (gate & Hg & _ & E1 & E2).
    exists gate. split_and!; [by eapply list_elem_of_lookup_2|done|done].
  - intros (gate & [i Hi]%list_elem_of_lookup & <- & ->). destruct (Forall2_lookup_l _ _ _ _ _ Hl Hi) as (d & Hd & _ & E1 & E2).
    exists d. split_and!; [by eapply list_elem_of_lookup_2|done|done].
Qed.

(** ** The whole run *)

Section run.
Variable identity : nat -> subject -> result pyval.
Variable value : subject -> pyval.
Variable code_bundle_hash : result string.
Variable code : string.
Hypothesis stable : forall now s, identity now s = Ok (value s).
Hypothesis canonical_identity : forall s, canonical_value (value s).
Hypothesis code_is : code_bundle_hash = Ok code.

Lemma rule_set_hash_total engine rules resolved_rules gates :
  (forall r, r ∈ resolved_rules -> observed value rules (rule_id_of (ResolvedRule.evaluator r))) ->
  exists h, rule_set_hash code_bundle_hash engine (value Kernel) rules resolved_rules gates = Ok h.
Proof.
  intros Ho. unfold rule_set_hash. rewrite code_is. cbn [bind].
  destruct (Forall_Forall2_ex (fun r v => rule_payload rules r = Ok v /\ canonical_value v) resolved_rules) as (l & Hl).
  { apply Forall_forall. intros r Hr. unfold rule_payload. fold (rule_id_of (ResolvedRule.evaluator r)).
    rewrite (proj2 (dict_getitem_Ok _ _ _) (Ho r Hr)). cbn [bind]. eexists. split; [done|].
    canonical_fields; first [apply py_canonical|apply canonical_identity]. }
  assert (mapM (rule_payload rules) resolved_rules = Ok l) as ->.
  { apply mapM_Ok_Forall2. eapply Forall2_impl; [exact Hl|]. by intros ? ? (? & _). }
  cbn [bind]. apply stable_hash_value; [|done|done].
  canonical_fields; try apply py_canonical; [canonical_fields; first [apply py_canonical|apply canonical_identity]|].
  apply sequence_canonical. apply Forall_forall. intros v [i Hi]%list_elem_of_lookup.
  by destruct (Forall2_lookup_r _ _ _ _ _ Hl Hi) as (r & _ & _ & ?).
Qed.

Lemma verify_silent now engine board policy p resolved :
  validate_board_graph board = Ok tt -> BoardGraph.schema_version board = BOARD_SCHEMA_VERSION ->
  accept_policy engine policy = Ok (p, resolved) ->
  (forall r, r ∈ resolved -> silent (BoardGraph.normalized board) (geometry engine) r) ->
  exists report, verify identity code_bundle_hash now engine board policy = Ok report /\
    VerificationReport.findings report = [] /\
    VerificationReport.executions report = silent_execution <$> resolved /\
    forall id b, (exists d, d ∈ VerificationReport.gates report /\ GateDecision.gate_id d = id /\ GateDecision.passed d = b) <->
      exists gate, gate ∈ VerificationPolicy.gates p /\ GateDefinition.gate_id gate = id /\
        b = bool_decide (GateDefinition.required_external_evidence_ids gate = []).
Proof.
  intros Hv Hs Hp Hr. unfold verify. rewrite Hv. cbn [bind]. rewrite Hs, Z.eqb_refl. cbn [negb raise_if bind].
  rewrite Hp. cbn [bind].
  destruct (stable_hash_value (py (BoardGraph.normalized board)) "pcb-board-graph-v2") as [ih ->];
    [apply py_canonical|done|done|]. cbn [bind]. rewrite stable. cbn [bind].
  destruct (observe_stable identity value stable (now + 1) resolved) as (rules & -> & Ho). cbn [bind].
  destruct (rule_set_hash_total engine rules resolved (VerificationPolicy.gates p) Ho) as [rh ->]. cbn [bind].
  match goal with |- context [stable_hash ?v ?d] => destruct (stable_hash_value v d) as [run ->] end;
    [canonical_fields; apply py_canonical|done|done|]. cbn [bind].
  match goal with |- context [foldM _ ?st _] => destruct (run_all_silent identity value stable canonical_identity
    (BoardGraph.normalized board) (geometry engine) rules resolved st) as [now' ->] end; [by auto|].
  cbn [bind clock findings executions app].
  rewrite (assert_all_silent identity value stable canonical_identity rules now' resolved Ho). cbn [bind].
  change (sorted_on finding_order_key (dict_values ∅)) with (@nil Finding.t).
  match goal with |- context [evaluate_gates ?g [] ?e ?ds ih rh] =>
    destruct (evaluate_gates_silent e ds ih rh g) as (decisions & -> & Hd) end.
  { intros e (r & -> & _)%list_elem_of_fmap. done. }
  cbn [bind].
  match goal with |- context [stable_hash ?v ?d] => destruct (stable_hash_value v d) as [h ->] end; [|done|done|].
  { unfold report_value. canonical_fields; apply py_canonical. }
  cbn [bind]. eexists. split; [done|]. by split_and!.
Qed.
End run.
