(* ===== verification/SilentCopper.v ===== *)
(** * Copper on which the rules report nothing

    What a board has when the clearance rules, the ring rules and the routing
    rules draft no finding. *)
From Stdlib Require Import QArith.
From S2P Require Import Prelude PyDict PyStr Geometry GeometryFacts Board Rule Copper GeoRules RoutingRules CopperFacts.
From S2P Require Import ClearanceFacts RoutingFacts OverlapFacts ElectricalRules RuleFacts SilentRuns.

Local Open Scope string_scope.
Local Open Scope Z_scope.

(** ** Lists and loops *)

Lemma filter_members {A} (P Q : A -> Prop) `{!forall x, Decision (P x), !forall x, Decision (Q x)} (l : list A) :
  (forall x, x ∈ l -> P x <-> Q x) -> filter P l = filter Q l.
Proof.
  induction l as [|x l IH]; intros HPQ; [done|]. rewrite !filter_cons, IH by (intros y Hy; apply HPQ; by right).
  destruct (decide (P x)) as [HP|HP], (decide (Q x)) as [HQ|HQ]; [done| | |done]; rewrite HPQ in HP by (by left); done.
Qed.

Lemma concatM_turn {A B} (f : A -> result (list B)) l ys x :
  concatM f l = Ok ys -> x ∈ l -> exists zs, f x = Ok zs.
Proof.
  revert ys. induction l as [|y l IH]; intros ys H Hx; [by apply not_elem_of_nil in Hx|]. rewrite concatM_cons in H.
  apply bind_Ok in H as (zs & Hy & H). apply bind_Ok in H as (us & Hl & _).
  apply elem_of_cons in Hx as [->|Hx]; [by exists zs|by eapply IH].
Qed.

Lemma concatM_silent {A B} (f : A -> result (list B)) l : concatM f l = Ok [] -> forall x, x ∈ l -> f x = Ok [].
Proof.
  induction l as [|y l IH]; intros H x Hx; [by apply not_elem_of_nil in Hx|]. rewrite concatM_cons in H.
  apply bind_Ok in H as (zs & Hy & H). apply bind_Ok in H as (us & Hl & H). apply Ok_inj, app_nil in H as [-> ->].
  apply elem_of_cons in Hx as [->|Hx]; [done|by apply IH].
Qed.

Lemma if_none {A} (b : bool) (x : A) : (if b then [] else [x]) = [] <-> b = true.
Proof. by destruct b. Qed.

Lemma polygon_length outline : simple_polygon outline -> (3 <= length outline)%nat.
Proof.
  intros [H _]. etrans; [exact H|]. apply submseteq_length, NoDup_submseteq; [apply NoDup_remove_dups|].
  intros p. by rewrite elem_of_remove_dups.
Qed.

(** The zones that are copper. *)
Definition filled_zones (board : BoardGraph.t) : list Zone.t :=
  filter (fun zone => Zone.fill_state zone = ZoneFillState.VERIFIED_FILLED) (BoardGraph.zones board).

Lemma valid_filled_zones board context :
  ZoneOutlineValidityRule.evaluate board context = Ok [] -> valid_zones board context = filled_zones board.
Proof.
  intros H. pose proof (zone_outline_rule_silent board context H) as Hz. unfold valid_zones, filled_zones.
  apply filter_members. intros zone Hin. rewrite (Hz zone Hin). tauto.
Qed.

Section silent.
Variables (board : BoardGraph.t) (context : RuleContext.t).
Let copper := copper_primitives board.

(** ** Clearance *)

(** No two nets come nearer than the clearance: copper, holes without plating
    and filled zones. *)
Record clear_of (clearance : Z) : Prop := {
  co_copper : forall p q, (p, q) ∈ pairs copper -> ~ clash clearance p q;
  co_holes : forall hole p, hole ∈ npth_holes board -> p ∈ copper -> ~ hole_clash clearance board hole p;
  co_zones : forall zone p, zone ∈ filled_zones board -> p ∈ copper -> ~ zone_clash clearance zone p;
  co_zone_pairs : forall z1 z2, (z1, z2) ∈ pairs (filled_zones board) -> ~ zones_clash clearance z1 z2;
}.

Lemma clearance_rule_silent clearance :
  RuleContext.integer context "minimum_clearance_nm" = Ok clearance ->
  RuleContext.geometry context = ExactGeometryKernel.kernel -> valid_zones board context = filled_zones board ->
  MinimumCopperClearanceRule.evaluate board context = Ok [] -> clear_of clearance.
Proof.
  intros Hc Hk Hz H. unfold MinimumCopperClearanceRule.evaluate in H. rewrite Hc in H. cbn [bind] in H.
  apply bind_Ok in H as (l1 & H1 & H). apply bind_Ok in H as (l2 & H2 & H). apply bind_Ok in H as (l3 & H3 & H).
  apply Ok_inj in H. rewrite !app_nil in H. destruct H as (-> & -> & -> & H4).
  assert (quadrant_holes board) as Hq.
  { intros hole Hin. destruct (concatM_turn _ _ _ _ H2 Hin) as [ys Hys].
    unfold MinimumCopperClearanceRule.hole_findings in Hys. apply bind_Ok in Hys as (h & Hh & _).
    by eapply hole_primitive_entity. }
  pose proof (reports_all_nil _ _ _ _ (copper_reports board clearance) H1) as N1.
  pose proof (reports_all_nil _ _ _ _ (holes_report board clearance Hq) H2) as N2.
  pose proof (reports_all_nil _ _ _ _ (zones_report board context clearance) H3) as N3.
  pose proof (reports_all_nil _ _ _ _ (zone_pairs_report board context clearance Hk) (f_equal Ok H4)) as N4.
  rewrite Hz in N3, N4. split.
  - intros p q Hpq. exact (N1 (p, q) Hpq).
  - intros hole p Hh Hp. apply (N2 (hole, p)). by apply list_elem_of_cprod.
  - intros zone p Hh Hp. apply (N3 (zone, p)). by apply list_elem_of_cprod.
  - intros z1 z2 Hzz. exact (N4 (z1, z2) Hzz).
Qed.

(** ** The edge of the board *)

(** The core is inside the outline, and copper of this width clear of it. *)
Definition core_within (clearance width : Z) (p : CopperPrimitive.t) : Prop :=
  core_inside_outline p (BoardGraph.outline board) = Ok true /\
  ~ nearer (width + 2 * clearance) (core p) (boundary (BoardGraph.outline board)).

(** All copper is inside the outline and clear of its boundary. *)
Record within_edge (clearance : Z) : Prop := {
  we_copper : forall p, p ∈ copper -> core_within clearance (CopperPrimitive.width_nm p) p;
  we_holes : forall hole, hole ∈ npth_holes board -> exists h,
    hole_primitive hole (BoardGraph.layers board) = Ok h /\ core_within clearance (Hole.diameter_nm hole) h;
  we_zones : forall zone, zone ∈ filled_zones board ->
    (forall vertex, vertex ∈ Zone.outline zone ->
      ExactGeometryKernel.point_in_outline vertex (BoardGraph.outline board) = true) /\
    ~ nearer (2 * clearance) (boundary (Zone.outline zone)) (boundary (BoardGraph.outline board));
}.

Lemma core_findings_silent clearance message entity width p :
  shaped p -> exact_outline_edges (BoardGraph.outline board) <> [] ->
  BoardEdgeClearanceRule.core_findings board message entity p (width + 2 * clearance) = Ok [] -> core_within clearance width p.
Proof.
  intros Sp Ho H. unfold BoardEdgeClearanceRule.core_findings in H. apply bind_Ok in H as (inside & Hi & H).
  destruct (core_outline_least p _ Sp Ho) as (d & Hd & Hleast). rewrite Hd in H. cbn [bind] in H.
  apply Ok_inj, if_nil, orb_false_iff in H as [->%negb_false_iff Hn]. split; [done|].
  rewrite <- (too_near_iff _ _ _ _ Hleast), Hn. done.
Qed.

Lemma edge_rule_silent clearance :
  RuleContext.integer context "minimum_edge_clearance_nm" = Ok clearance ->
  RuleContext.geometry context = ExactGeometryKernel.kernel -> valid_zones board context = filled_zones board ->
  simple_polygon (BoardGraph.outline board) ->
  BoardEdgeClearanceRule.evaluate board context = Ok [] -> within_edge clearance.
Proof.
  intros Hc Hk Hz Ho H. unfold BoardEdgeClearanceRule.evaluate in H. rewrite Hk in H.
  rewrite bool_decide_true in H by by apply outline_defects_nil. cbn [negb] in H. rewrite Hc in H. cbn [bind] in H.
  apply bind_Ok in H as (l1 & H1 & H). apply bind_Ok in H as (l2 & H2 & H).
  apply Ok_inj in H. rewrite !app_nil, Hz, bind_nil in H. destruct H as (-> & -> & H3).
  assert (3 <= length (BoardGraph.outline board))%nat as Hlen by by apply polygon_length.
  assert (exact_outline_edges (BoardGraph.outline board) <> []) as Hne.
  { unfold exact_outline_edges. destruct (BoardGraph.outline board) as [|a [|b l]]; simpl in *; [lia|lia|done]. }
  split.
  - intros p Hp. apply (core_findings_silent _ _ _ _ _ (primitive_shaped _ _ Hp) Hne (concatM_silent _ _ H1 _ Hp)).
  - intros hole Hh. pose proof (concatM_silent _ _ H2 _ Hh) as E. unfold BoardEdgeClearanceRule.hole_findings in E.
    apply bind_Ok in E as (h & Hp & E). exists h. split; [done|].
    destruct (hole_primitive_shaped hole (BoardGraph.layers board)) as (h' & Hp' & Sh).
    { by eapply hole_primitive_entity. }
    rewrite Hp in Hp'. injection Hp' as <-. by eapply core_findings_silent.
  - intros zone Hin. pose proof (H3 zone Hin) as E. unfold BoardEdgeClearanceRule.zone_findings in E. cbv zeta in E.
    rewrite if_nil, orb_false_iff, negb_false_iff, forallb_forall in E. destruct E as [Hi Hn]. split.
    + intros vertex Hv. apply (Hi vertex). by apply list_elem_of_In.
    + assert (2 <= length (Zone.outline zone))%nat as Lz by (eapply (valid_zone_length board context); by rewrite Hz).
      assert (2 <= length (BoardGraph.outline board))%nat as Lb by lia.
      by rewrite <- (nearer_whole _ _ _ _ (outlines_least _ _ Lz Lb)), Hn.
Qed.

(** ** Rings *)

(** The copper of a drilled pad around its drill, in both axes of the board. *)
Definition ringed_pad (minimum : Z) (pad : PhysicalPad.t) : Prop :=
  let drill := drill_dimensions (PhysicalPad.drill_nm pad) (PhysicalPad.drill_x_nm pad) (PhysicalPad.drill_y_nm pad) in
  let copper_span := quadrant_dimensions (PhysicalPad.size_x_nm pad) (PhysicalPad.size_y_nm pad) (PhysicalPad.rotation_udeg pad) in
  let drill_span := quadrant_dimensions drill.1 drill.2 (PhysicalPad.drill_rotation_udeg pad) in
  drill = (0, 0) \/
  (0 < drill.1 /\ 0 < drill.2 /\ 2 * minimum <= copper_span.1 - drill_span.1 /\ 2 * minimum <= copper_span.2 - drill_span.2).
Definition ringed_pin (minimum : Z) (pin : Pin.t) : Prop :=
  Pin.pad_drill_nm pin = 0 \/ 0 < Pin.pad_drill_nm pin /\ 2 * minimum <= Pin.pad_diameter_nm pin - Pin.pad_drill_nm pin.

(** The pads of a board: the physical ones, or those of the pins. *)
Definition ringed (minimum : Z) : Prop :=
  (forall pad, pad ∈ BoardGraph.pads board -> ringed_pad minimum pad) /\
  (BoardGraph.pads board = [] -> forall c pin, (c, pin) ∈ component_pins board -> ringed_pin minimum pin).

Lemma pad_ring_rule_silent c' minimum :
  CopperTopologyRule.evaluate board c' = Ok [] ->
  RuleContext.integer context "minimum_annular_ring_nm" = Ok minimum ->
  MinimumPadAnnularRingRule.evaluate board context = Ok [] -> ringed minimum.
Proof.
  intros Ht Hm H. apply Ok_inj in Ht. rewrite !app_nil, !bind_nil in Ht. destruct Ht as (Hpins & Hpads & _).
  unfold MinimumPadAnnularRingRule.evaluate in H. rewrite Hm in H. cbn [bind] in H. apply Ok_inj in H. split.
  - intros pad Hin. assert (MinimumPadAnnularRingRule.pad_findings minimum pad = []) as E.
    { destruct (BoardGraph.pads board); [by apply not_elem_of_nil in Hin|]. rewrite bind_nil in H. by apply H. }
    specialize (Hpads pad Hin). unfold CopperTopologyRule.pad_findings in Hpads. apply issues_report, app_nil in Hpads as [_ Hi].
    revert Hi E. unfold CopperTopologyRule.pad_shape_issues, MinimumPadAnnularRingRule.pad_findings, ringed_pad.
    destruct (drill_dimensions _ _ _) as [dx dy]. cbv zeta. cbn [fst snd].
    destruct (quadrant_dimensions (PhysicalPad.size_x_nm pad) _ _) as [cx cy].
    destruct (quadrant_dimensions dx dy _) as [bx by_]. cbn [fst snd].
    rewrite issues_nil, !Forall_cons. cbn [fst]. intros (_ & _ & _ & _ & _ & Hneg & Hpart & Hsmall & _).
    destruct ((dx <=? 0) || (dy <=? 0)) eqn:Ed.
    { intros _. left. destruct (Z.eqb_spec dx 0), (Z.eqb_spec dy 0); try done; [by subst|lia]. }
    rewrite if_none, orb_true_iff. intros El. right. lia.
  - intros Hnone c pin Hin. rewrite Hnone, bind_nil in H. specialize (H (c, pin) Hin). specialize (Hpins (c, pin) Hin).
    cbn [fst snd] in *. unfold CopperTopologyRule.pin_findings in Hpins.
    unfold MinimumPadAnnularRingRule.pin_findings in H. unfold ringed_pin.
    destruct (CopperTopologyRule.has_geometry pin) eqn:Eg; cbn [negb] in Hpins.
    + apply issues_report in Hpins. unfold CopperTopologyRule.pin_issues in Hpins. rewrite issues_nil, !Forall_cons in Hpins.
      cbn [fst] in Hpins. destruct Hpins as (_ & _ & _ & _ & Hneg & Hsmall & _).
      rewrite if_none, !orb_true_iff in H. lia.
    + left. unfold CopperTopologyRule.has_geometry in Eg. rewrite !orb_false_iff, !negb_false_iff in Eg. lia.
Qed.

(** ** Redundant copper *)

(** Tracks of one net on one layer have at most a point in common, and no two
    vias of one net are in one place. *)
Record no_redundancy : Prop := {
  nr_tracks : forall t1 t2, (t1, t2) ∈ pairs (sorted_on Track.track_id (BoardGraph.tracks board)) ->
    Track.layer t1 = Track.layer t2 -> Track.net_id t1 = Track.net_id t2 ->
    forall p q, centre_line t1 p -> centre_line t2 p -> centre_line t1 q -> centre_line t2 q -> same p q;
  nr_vias : forall v1 v2, (v1, v2) ∈ pairs (sorted_on Via.via_id (BoardGraph.vias board)) ->
    ~ (Via.net_id v1 = Via.net_id v2 /\ Via.center v1 = Via.center v2 /\ Via.layers v1 = Via.layers v2);
}.

Lemma redundancy_rule_silent :
  (forall t, t ∈ BoardGraph.tracks board -> Track.normalized t = t) ->
  RedundantRouteCopperRule.evaluate board context = Ok [] -> no_redundancy.
Proof.
  intros Hn H. apply Ok_inj in H. rewrite app_nil, !bind_nil in H. destruct H as [Ht Hv]. split.
  - intros t1 t2 Hin Hl Hnet. specialize (Ht _ Hin). unfold RedundantRouteCopperRule.track_findings in Ht.
    apply elem_of_pairs in Hin as (i & j & _ & H1%list_elem_of_lookup_2%elem_of_sorted_on & H2%list_elem_of_lookup_2%elem_of_sorted_on).
    pose proof (overlap_is_exact t1 t2) as Ho. cbv zeta in Ho. rewrite !Hn in Ho by done.
    destruct (positive_collinear_overlap t1 t2) as [[[s e] k]|]; [done|]. by destruct Ho as [?|[?|Ho]].
  - intros v1 v2 Hin (En & Ec & El). specialize (Hv _ Hin). unfold RedundantRouteCopperRule.via_findings in Hv.
    by rewrite En, Ec, El, !bool_decide_true in Hv by done.
Qed.

(** ** Attached vias *)

(** Other copper of the via's net touches the via, or a filled zone of its net
    on one of its layers does. *)
Definition attached (via : Via.t) (k : nat) : Prop :=
  (exists i p, copper !! i = Some p /\ i <> k /\ CopperPrimitive.net_id p = Via.net_id via /\ contact (via_primitive via) p) \/
  (exists zone, zone ∈ filled_zones board /\ Zone.net_id zone = Via.net_id via /\ Zone.layer zone ∈ Via.layers via /\
    (core_overlaps_outline (via_primitive via) (Zone.outline zone) = Ok true \/
     exists a b, core (via_primitive via) a /\ boundary (Zone.outline zone) b /\
       (4 * GeometryFacts.distance_squared a b <= inject_Z (Via.diameter_nm via * Via.diameter_nm via))%Q)).
Definition attached_via (via : Via.t) : Prop := exists k, copper !! k = Some (via_primitive via) /\ attached via k.

Import ViaNetConnectivityRule.

Lemma fold_attached {A} (step : list string * list string -> A -> result (list string * list string)) (P : A -> Prop) l st st' :
  (forall s x s', x ∈ l -> step s x = Ok s' -> s' = s \/ P x) ->
  foldM step st l = Ok st' -> st' = st \/ exists x, x ∈ l /\ P x.
Proof.
  revert st. induction l as [|x l IH]; intros st H Hf; [by apply Ok_inj in Hf; left|].
  simpl in Hf. apply bind_Ok in Hf as (s & Hs & Hf). destruct (H st x s) as [->|HP]; [by left|done| |right; exists x; split; [by left|done]].
  destruct (IH st) as [->|(y & Hy & HP)]; [|done|by left|right; exists y; split; [by right|done]].
  intros s y s' Hy. apply H. by right.
Qed.

Lemma attach_primitive_attached via k v st ip st' :
  well_shaped v -> well_shaped ip.2 -> attach_primitive via (k, v) st ip = Ok st' ->
  st' = st \/ ip.1 <> k /\ CopperPrimitive.net_id ip.2 = Via.net_id via /\ contact v ip.2.
Proof.
  destruct ip as [i p]. cbn [fst snd]. intros Wv Wp H. unfold attach_primitive in H. cbn [fst snd] in H.
  destruct (_ || _) eqn:E; [left; by apply Ok_inj in H|].
  apply orb_false_iff in E as [E1%Nat.eqb_neq E2%negb_false_iff%bool_decide_eq_true].
  destruct (touches_spec v p Wv Wp) as (b & Hb & Hiff). rewrite Hb in H. cbn [bind] in H. apply Ok_inj in H.
  destruct b; [|by left]. right. split_and!; [done..|by apply Hiff].
Qed.

Lemma attach_zone_attached via k v st zone st' :
  shaped v -> exact_outline_edges (Zone.outline zone) <> [] -> attach_zone via (k, v) st zone = Ok st' ->
  st' = st \/ Zone.net_id zone = Via.net_id via /\ Zone.layer zone ∈ Via.layers via /\
    (core_overlaps_outline v (Zone.outline zone) = Ok true \/
     exists a b, core v a /\ boundary (Zone.outline zone) b /\
       (4 * GeometryFacts.distance_squared a b <= inject_Z (Via.diameter_nm via * Via.diameter_nm via))%Q).
Proof.
  intros Sv Hne H. unfold attach_zone in H. cbn [fst snd] in H.
  destruct (_ || _) eqn:E; [left; by apply Ok_inj in H|].
  apply orb_false_iff in E as [E1%negb_false_iff%bool_decide_eq_true E2%negb_false_iff%bool_decide_eq_true].
  destruct (core_outline_least v _ Sv Hne) as (d & Hd & _ & a & b & Ha & Hb & Hab).
  destruct (core_overlaps_total v (Zone.outline zone) Sv) as (o & Ho). unfold primitive_zone_distance_squared in H.
  rewrite Hd, Ho in H. cbn [bind] in H. apply Ok_inj in H. destruct (o || _) eqn:Eo; [|by left].
  right. split_and!; [done..|]. apply orb_true_iff in Eo as [->|Eo%Qle_bool_iff]; [by left|right].
  exists a, b. split_and!; [done..|]. by rewrite <- Hab.
Qed.

(** A primitive with the identifier of a via is that of a via. *)
Lemma copper_via p id : p ∈ copper -> CopperPrimitive.primitive_id p = "via:" +:+ id ->
  exists via, via ∈ BoardGraph.vias board /\ p = via_primitive via /\ Via.via_id via = id.
Proof.
  unfold copper, copper_primitives. rewrite elem_of_sorted_on, !elem_of_app. intros [H|[H|H]] E.
  - exfalso. assert (exists s, CopperPrimitive.primitive_id p = "pad:" +:+ s) as [s Es]; [|rewrite Es in E; discriminate E].
    unfold pad_or_pin_primitives in H. destruct (BoardGraph.pads board) as [|pad pads].
    + apply list_elem_of_omap in H as ([c pin] & _ & H). unfold pin_primitive in H.
      destruct (_ !! _), (Pin.pad_center pin); try done. destruct (_ && _); [|done]. injection H as <-. by eexists.
    + revert H. generalize (∅ : gset string). generalize (pad :: pads). intros l. induction l as [|x l IH]; intros seen.
      { by intros ?%not_elem_of_nil. }
      assert (p ∈ option_list (pad_primitive (physical_pad_nets board) x) -> exists s, CopperPrimitive.primitive_id p = "pad:" +:+ s) as Hx.
      { unfold pad_primitive. destruct (pad_core x) as [[[[[ce st] en] bx] w]|]; [|by intros ?%not_elem_of_nil].
        case_bool_decide; [by intros ?%not_elem_of_nil|]. intros ->%list_elem_of_singleton. by eexists. }
      simpl. destruct (PhysicalPad.shared_land_group_id x) as [g|]; [destruct (decide _)|]; rewrite ?elem_of_app; naive_solver.
  - apply list_elem_of_fmap in H as (t & -> & _). discriminate E.
  - apply list_elem_of_fmap in H as (v & -> & [_ Hv]%list_elem_of_filter). exists v. split_and!; [done..|].
    cbn in E. by injection E.
Qed.

Lemma last_with_id_Some id l y : last_with_id id l = Some y -> y ∈ l /\ CopperPrimitive.primitive_id y.2 = id.
Proof.
  induction l as [|z l IH]; [done|]. simpl. destruct (last_with_id id l) as [y'|].
  - intros [= ->]. destruct IH as [? ?]; [done|]. split; [by right|done].
  - case_bool_decide; [|done]. intros [= ->]. split; [by left|done].
Qed.
Lemma last_with_id_None id l x : last_with_id id l = None -> x ∈ l -> CopperPrimitive.primitive_id x.2 <> id.
Proof.
  induction l as [|z l IH]; intros H Hx; [by apply not_elem_of_nil in Hx|]. simpl in H.
  destruct (last_with_id id l) as [y|]; [done|]. case_bool_decide as Hz; [done|].
  apply elem_of_cons in Hx as [->|Hx]; [done|by apply IH].
Qed.

Lemma via_rule_silent :
  valid_zones board context = filled_zones board -> NoDup (Via.via_id <$> BoardGraph.vias board) ->
  topology_sound board -> ViaNetConnectivityRule.evaluate board context = Ok [] ->
  forall via, via ∈ BoardGraph.vias board -> attached_via via.
Proof.
  intros Hz Hnd Ht H via Hvia. pose proof (concatM_silent _ _ H via Hvia) as E. clear H.
  destruct (via_topology _ Ht via Hvia) as (Hnet & _ & _ & Hd & Hdd). unfold ViaNetConnectivityRule.via_findings in E.
  rewrite bool_decide_true in E by done. cbn [negb] in E.
  assert (via_primitive via ∈ copper) as Hin.
  { unfold copper, copper_primitives. rewrite elem_of_sorted_on, !elem_of_app. right; right. apply list_elem_of_fmap.
    exists via. split; [done|]. apply list_elem_of_filter. split; [lia|done]. }
  apply list_elem_of_lookup in Hin as [k0 Hk0].
  fold copper in E. destruct (last_with_id _ _) as [[k v]|] eqn:Hv.
  2:{ destruct (last_with_id_None _ _ (k0, via_primitive via) Hv); [|done].
      apply (list_elem_of_lookup_2 _ k0). by apply lookup_numbered. }
  apply last_with_id_Some in Hv as [Hkv Ev]. apply list_elem_of_lookup in Hkv as [k' [Hk' Hl]%lookup_numbered]. cbn [fst snd] in *. subst k'.
  destruct (copper_via v (Via.via_id via)) as (via' & Hvia' & -> & Eid); [by eapply list_elem_of_lookup_2|done|].
  assert (via' = via) as -> by (by eapply (unique_by Via.via_id)).
  exists k. split; [done|]. pose proof (copper_primitives_well_shaped board _ (list_elem_of_lookup_2 _ _ _ Hl)) as Wv.
  apply bind_Ok in E as (st & H1 & E). apply bind_Ok in E as ([att lay] & H2 & E).
  apply Ok_inj in E. destruct att as [|x att]; [done|]. clear E. rewrite Hz in H2.
  destruct (fold_attached (attach_zone via (k, via_primitive via)) (fun zone => Zone.net_id zone = Via.net_id via /\
    Zone.layer zone ∈ Via.layers via /\ (core_overlaps_outline (via_primitive via) (Zone.outline zone) = Ok true \/
     exists a b, core (via_primitive via) a /\ boundary (Zone.outline zone) b /\
       (4 * GeometryFacts.distance_squared a b <= inject_Z (Via.diameter_nm via * Via.diameter_nm via))%Q))
    (filled_zones board) st ((x :: att)%list, lay)) as [Est|(zone & Hin & HP)]; [|done| |right; by exists zone].
  { intros s zone s' Hin. apply attach_zone_attached; [apply Wv|]. apply (valid_zone_edges board context). by rewrite Hz. }
  destruct (fold_attached (attach_primitive via (k, via_primitive via)) (fun ip => ip.1 <> k /\
    CopperPrimitive.net_id ip.2 = Via.net_id via /\ contact (via_primitive via) ip.2) (imap pair copper) ([], []) st)
    as [Est'|([i p] & Hip & Hi & Hn & Hc)]; [|done| |].
  - intros s ip s' Hip. apply attach_primitive_attached; [done|].
    apply list_elem_of_lookup in Hip as [i [_ Hip]%lookup_numbered].
    by eapply copper_primitives_well_shaped, list_elem_of_lookup_2.
  - rewrite Est' in Est. discriminate Est.
  - left. apply list_elem_of_lookup in Hip as [i' [Hi' Hip]%lookup_numbered]. cbn [fst snd] in *. subst i'.
    by exists i, p.
Qed.

(** ** Drivers *)

(** A net with an input has a source: an external one, or a driving pin. *)
Definition driven (drivers : list PinElectricalType.t) (net : Net.t) : Prop :=
  Net.external_source net = true \/
  (forall pin, pin ∈ (connected_pins board net).*2 -> Pin.electrical_type pin ∉ InputDrivenRule.sink_types) \/
  exists pin, pin ∈ (connected_pins board net).*2 /\ Pin.electrical_type pin ∈ drivers.

Lemma count_types_zero types pins :
  InputDrivenRule.count_types types pins = 0 <-> forall pin, pin ∈ pins -> Pin.electrical_type pin ∉ types.
Proof.
  unfold InputDrivenRule.count_types. rewrite <- Nat2Z.inj_0, Nat2Z.inj_iff, length_zero_iff_nil, filter_nil_iff.
  unfold has_type. by setoid_rewrite bool_decide_eq_true.
Qed.

Lemma driven_rule_silent bidirectional open_collector :
  RuleContext.boolean context "bidirectional_is_driver" = Ok bidirectional ->
  RuleContext.boolean context "open_collector_is_driver" = Ok open_collector ->
  InputDrivenRule.evaluate board context = Ok [] ->
  forall net, net ∈ BoardGraph.nets board -> driven (InputDrivenRule.driver_types bidirectional open_collector) net.
Proof.
  intros Hb Ho H net Hnet. unfold InputDrivenRule.evaluate in H. rewrite Hb, Ho in H. cbn [bind] in H.
  apply Ok_inj in H. rewrite bind_nil in H. specialize (H net Hnet). unfold InputDrivenRule.net_findings in H. unfold driven.
  destruct (Net.external_source net); [by left|]. right. cbv zeta in H.
  rewrite if_nil, andb_false_iff, negb_false_iff, Z.eqb_eq, Z.eqb_neq in H. destruct H as [H|H].
  - left. by apply count_types_zero.
  - right. set (pins := (connected_pins board net).*2) in *.
    destruct (decide (Exists (fun pin => Pin.electrical_type pin ∈ InputDrivenRule.driver_types bidirectional open_collector) pins)) as [E|E].
    + by apply Exists_exists in E.
    + destruct H. apply count_types_zero. intros pin Hp Hin. apply E, Exists_exists. eauto.
Qed.
End silent.
