(* ===== verification/EngineGuarantees.v ===== *)
(** * What a verification report guarantees

    The properties of [VerificationEngine.verify] on the default registry of
    rules, composed of what each rule decides and of what the engine records. *)
From S2P Require Import Prelude PyDict PyStr Geometry GeometryFacts Board Rule Copper GeoRules RoutingRules.
From S2P Require Import BoardFixtures CopperFacts ClearanceFacts RoutingFacts OverlapFacts ElectricalRules RuleFacts Canonical.
From S2P Require Import BoardValues Policy CanonicalFacts ElectricalFacts Engine EngineFacts EngineSafety SilentRuns SilentCopper.
Import VerificationEngine.

Local Open Scope string_scope.

(** ** Boards *)

(** What no policy can give up: the outline and the zones are simple polygons,
    every feature is modelled, references and copper are sound, connected pins
    have pads, and the exact geometry covers the board. *)
Record sound_board (b : BoardGraph.t) : Prop := {
  sound_outline : simple_polygon (BoardGraph.outline b);
  sound_zones : forall z, z ∈ BoardGraph.zones b -> simple_polygon (Zone.outline z);
  sound_features : BoardGraph.unsupported_features b = [];
  sound_references : references_sound b;
  sound_topology : topology_sound b;
  sound_pads : forall net conn c pin, net ∈ BoardGraph.nets b -> conn ∈ Net.connections net ->
    (c, pin) ∈ component_pins b -> (Component.component_id c, Pin.number pin) = NetConnection.key conn ->
    has_pad_geometry pin;
  sound_geometry : geometry_blockers b = [];
}.

(** What the default policy asks for besides, in nanometres. *)
Record clear_board (b : BoardGraph.t) : Prop := {
  clear_nets : forall net, net ∈ BoardGraph.nets b ->
    (net_copper b net = [] /\ Net.connections net = [] /\ Net.external_source net = true) \/
    (net_copper b net <> [] /\ one_component (net_copper b net));
  clear_copper : clear_of b 150000;
  clear_edge : within_edge b 250000;
  clear_tracks : forall t, t ∈ BoardGraph.tracks b -> (150000 <= Track.width_nm t)%Z;
  clear_rings : forall v, v ∈ BoardGraph.vias b -> (2 * 100000 <= Via.diameter_nm v - Via.drill_nm v)%Z;
  clear_pads : ringed b 100000;
  clear_redundancy : no_redundancy b;
  clear_vias : forall v, v ∈ BoardGraph.vias b -> attached_via b v;
  clear_parts : forall c, c ∈ BoardGraph.components b -> identified_part c;
  clear_pins : forall c pin, (c, pin) ∈ component_pins b ->
    (Pin.electrical_type pin = PinElectricalType.NO_CONNECT -> ~ connected_pin b c pin) /\
    (Pin.electrical_type pin <> PinElectricalType.NO_CONNECT -> Pin.required pin = true -> connected_pin b c pin);
  clear_endpoints : forall net, net ∈ BoardGraph.nets b ->
    Net.external_source net = true \/ (2 <= length (SingleConnectionNetRule.endpoints net))%nat;
  clear_drivers : forall net, net ∈ BoardGraph.nets b -> (length (OutputContentionRule.net_drivers b net) <= 1)%nat;
  clear_inputs : forall net, net ∈ BoardGraph.nets b -> driven b (InputDrivenRule.driver_types true true) net;
}.

(** ** The rules of the default registry *)

Definition registered (engine : t) : Prop := forall evaluator, evaluator ∈ default_evaluators -> evaluator ∈ evaluators engine.

Lemma default_member evaluator :
  evaluator ∈ (electrical_rules ++ geometric_rules ++ algorithm_rules)%list -> evaluator ∈ default_evaluators.
Proof. intros H. by apply elem_of_sorted_on. Qed.

(** The value of a parameter when no override gives another. *)
Lemma resolved_parameter evaluator r kernel spec :
  resolve_rule evaluator None = Ok r -> spec ∈ RuleDefinition.parameters (definition evaluator) ->
  RuleContext.parameter (resolved_context r kernel) (ParameterSpec.name spec) = Ok (ParameterSpec.default spec).
Proof.
  intros H Hin. destruct (resolved_parameters evaluator None r H) as (Hnd & Hspecs & _).
  destruct (Hspecs spec Hin) as (v & Hv & _ & Hd). destruct Hd as [Hd|[_ ->]]; [by apply not_elem_of_nil in Hd|].
  exact (parameter_elem (resolved_context r kernel) _ Hnd Hv).
Qed.

Lemma resolved_default evaluator r kernel name value lo :
  resolve_rule evaluator None = Ok r ->
  RuleDefinition.parameters (definition evaluator) = minimum_parameter name value lo ->
  RuleContext.integer (resolved_context r kernel) name = Ok value.
Proof.
  intros H Hp. unfold RuleContext.integer.
  pose proof (resolved_parameter evaluator r kernel (ParameterSpec.mk name ParameterType.INTEGER (SInt value) (Some lo) None) H) as E.
  rewrite Hp in E. cbn in E. rewrite E; [done|by left].
Qed.

Ltac registry_member := apply default_member; repeat (first [left; reflexivity|right]).

Section cleared.
Variables (id : string) (policy : option VerificationPolicy.t) (b : BoardGraph.t) (kernel : GeometryKernel).
Hypothesis all_cleared : forall evaluator, evaluator ∈ default_evaluators -> cleared id policy b kernel evaluator.
Hypothesis required : id ∈ REQUIRED_GATE_IDS.

(** A mandatory fatal rule of the registry was silent in some context with the kernel. *)
Lemma fatal_silent evaluator :
  evaluator ∈ default_evaluators -> RuleDefinition.mandatory (definition evaluator) = true ->
  RuleDefinition.default_severity (definition evaluator) = Severity.FATAL ->
  exists context, RuleContext.geometry context = kernel /\ evaluate evaluator b context = Ok [].
Proof.
  intros Hin Hm Hs. destruct (cleared_fatal _ _ _ _ _ (all_cleared _ Hin) required Hm Hs) as (o & r & _ & Hr).
  by exists (resolved_context r kernel).
Qed.

Lemma cleared_blockers : geometry_blockers b = [].
Proof.
  destruct (all_cleared {| definition := RoutingConnectivityRule.definition; evaluate := RoutingConnectivityRule.evaluate |})
    as (override & r & drafts & Hr & _ & Hb & _); [registry_member|].
  unfold rule_blockers in Hb. rewrite (resolved_evaluator _ _ _ Hr) in Hb.
  unfold blockers_of in Hb. rewrite decide_True in Hb; [done|]. left.
Qed.

Lemma cleared_sound : kernel = ExactGeometryKernel.kernel -> sound_board b.
Proof.
  intros E.
  destruct (fatal_silent {| definition := OutlineValidityRule.definition; evaluate := OutlineValidityRule.evaluate |})
    as (c1 & G1 & H1); [registry_member|done..|].
  destruct (fatal_silent {| definition := ZoneOutlineValidityRule.definition; evaluate := ZoneOutlineValidityRule.evaluate |})
    as (c2 & G2 & H2); [registry_member|done..|].
  destruct (fatal_silent {| definition := UnsupportedFeatureRule.definition; evaluate := UnsupportedFeatureRule.evaluate |})
    as (c3 & _ & H3); [registry_member|done..|].
  destruct (fatal_silent {| definition := GraphReferenceIntegrityRule.definition;
                            evaluate := GraphReferenceIntegrityRule.evaluate |}) as (c4 & _ & H4); [registry_member|done..|].
  destruct (fatal_silent {| definition := CopperTopologyRule.definition; evaluate := CopperTopologyRule.evaluate |})
    as (c5 & _ & H5); [registry_member|done..|].
  destruct (fatal_silent {| definition := RoutingModelCompletenessRule.definition;
                            evaluate := RoutingModelCompletenessRule.evaluate |}) as (c6 & _ & H6); [registry_member|done..|].
  cbn [evaluate] in *. apply reference_rule_silent in H4 as R. split.
  - apply outline_defects_nil. rewrite <- E, <- G1. by apply outline_rule_silent.
  - intros z Hz. apply outline_defects_nil. rewrite <- E, <- G2. by eapply zone_outline_rule_silent.
  - by eapply feature_rule_silent.
  - done.
  - by eapply topology_rule_silent.
  - by eapply completeness_rule_silent.
  - apply cleared_blockers.
Qed.
End cleared.

(** Under the default policy a rule that is an error was silent as well, with
    the default values of its parameters. *)
Section default_policy.
Variables (id : string) (b : BoardGraph.t) (kernel : GeometryKernel) (maximum : Severity.t).
Hypothesis all_cleared : forall evaluator, evaluator ∈ default_evaluators -> cleared id None b kernel evaluator.
Hypothesis threshold : MAXIMUM_REQUIRED_GATE_THRESHOLDS !! id = Some maximum.
Hypothesis at_errors : (Severity.rank maximum <= Severity.rank Severity.ERROR)%Z.
Hypothesis exact : kernel = ExactGeometryKernel.kernel.
Hypothesis sound : sound_board b.
Hypothesis tracks_normal : forall t, t ∈ BoardGraph.tracks b -> Track.normalized t = t.

Lemma error_silent evaluator :
  evaluator ∈ default_evaluators ->
  (Severity.rank Severity.ERROR <= Severity.rank (RuleDefinition.default_severity (definition evaluator)))%Z ->
  exists r, resolve_rule evaluator None = Ok r /\ evaluate evaluator b (resolved_context r kernel) = Ok [].
Proof. intros Hin Hs. apply (cleared_default id b kernel evaluator maximum); [by apply all_cleared|done|lia]. Qed.

Local Ltac silent_rule d e R H :=
  destruct (error_silent {| definition := d; evaluate := e |}) as (? & R & H); [registry_member|cbn; lia|cbn [evaluate] in H].

Lemma cleared_valid_zones context :
  RuleContext.geometry context = kernel -> valid_zones b context = filled_zones b.
Proof.
  intros Hk. silent_rule ZoneOutlineValidityRule.definition ZoneOutlineValidityRule.evaluate R H.
  rewrite <- (valid_filled_zones b _ H). unfold valid_zones. by rewrite Hk.
Qed.

Lemma cleared_copper : clear_of b 150000 /\ within_edge b 250000.
Proof.
  silent_rule MinimumCopperClearanceRule.definition MinimumCopperClearanceRule.evaluate R1 H1.
  silent_rule BoardEdgeClearanceRule.definition BoardEdgeClearanceRule.evaluate R2 H2. split.
  - eapply clearance_rule_silent; [..|exact H1]; [by eapply resolved_default|done|by apply cleared_valid_zones].
  - eapply edge_rule_silent; [..|exact H2]; [by eapply resolved_default|done|by apply cleared_valid_zones|apply sound].
Qed.

Lemma cleared_routing :
  (forall net, net ∈ BoardGraph.nets b -> connected_net b net) /\ no_redundancy b /\
  forall v, v ∈ BoardGraph.vias b -> attached_via b v.
Proof.
  silent_rule RoutingConnectivityRule.definition RoutingConnectivityRule.evaluate R1 H1.
  silent_rule RedundantRouteCopperRule.definition RedundantRouteCopperRule.evaluate R2 H2.
  silent_rule ViaNetConnectivityRule.definition ViaNetConnectivityRule.evaluate R3 H3. split_and!.
  - by eapply connectivity_rule_silent.
  - by eapply redundancy_rule_silent.
  - eapply via_rule_silent; [..|exact H3]; [by apply cleared_valid_zones| |apply sound].
    apply (unique_ids b (sound_references _ sound) "via"). set_solver.
Qed.

Lemma cleared_widths :
  (forall t, t ∈ BoardGraph.tracks b -> (150000 <= Track.width_nm t)%Z) /\
  (forall v, v ∈ BoardGraph.vias b -> (2 * 100000 <= Via.diameter_nm v - Via.drill_nm v)%Z) /\ ringed b 100000.
Proof.
  silent_rule MinimumTrackWidthRule.definition MinimumTrackWidthRule.evaluate R1 H1.
  silent_rule MinimumViaAnnularRingRule.definition MinimumViaAnnularRingRule.evaluate R2 H2.
  silent_rule MinimumPadAnnularRingRule.definition MinimumPadAnnularRingRule.evaluate R3 H3.
  silent_rule CopperTopologyRule.definition CopperTopologyRule.evaluate R4 H4. split_and!.
  - eapply width_rule_silent; [|exact H1]. by eapply resolved_default.
  - eapply ring_rule_silent; [|exact H2]. by eapply resolved_default.
  - eapply pad_ring_rule_silent; [exact H4| |exact H3]. by eapply resolved_default.
Qed.

Lemma cleared_inputs net : net ∈ BoardGraph.nets b -> driven b (InputDrivenRule.driver_types true true) net.
Proof.
  silent_rule InputDrivenRule.definition InputDrivenRule.evaluate R H. intros Hnet.
  eapply driven_rule_silent; [..|exact H|done]; unfold RuleContext.boolean.
  - pose proof (resolved_parameter _ _ kernel (ParameterSpec.mk "bidirectional_is_driver" ParameterType.BOOLEAN (SBool true) None None) R) as E.
    cbn in E. rewrite E; [done|by left].
  - pose proof (resolved_parameter _ _ kernel (ParameterSpec.mk "open_collector_is_driver" ParameterType.BOOLEAN (SBool true) None None) R) as E.
    cbn in E. rewrite E; [done|by right; left].
Qed.

Lemma cleared_clear : clear_board b.
Proof.
  silent_rule FootprintRequiredRule.definition FootprintRequiredRule.evaluate R1 H1.
  silent_rule PartProvenanceRequiredRule.definition PartProvenanceRequiredRule.evaluate R2 H2.
  silent_rule UnconnectedRequiredPinRule.definition UnconnectedRequiredPinRule.evaluate R3 H3.
  silent_rule SingleConnectionNetRule.definition SingleConnectionNetRule.evaluate R4 H4.
  silent_rule OutputContentionRule.definition OutputContentionRule.evaluate R5 H5.
  destruct cleared_copper, cleared_routing as (Hnets & ? & ?), cleared_widths as (? & ? & ?).
  pose proof (endpoint_rule_silent b _ H4) as Hends. split; try done.
  - intros net Hnet. destruct (Hnets net Hnet) as [[? Hc]|?]; [left|by right]. split_and!; [done..|].
    destruct (Hends net Hnet) as [?|Hl]; [done|]. unfold SingleConnectionNetRule.endpoints in Hl. rewrite Hc in Hl. simpl in Hl. lia.
  - by eapply part_rules_silent.
  - by eapply pin_rule_silent.
  - by eapply contention_rule_silent.
  - apply cleared_inputs.
Qed.
End default_policy.

(** ** The clean board runs *)

Definition default_engine : t := mk default_evaluators ExactGeometryKernel.kernel.

Lemma default_gates_accepted :
  exists p, strict_policy = Ok p /\ validate_policy_shape p = Ok tt /\
    VerificationPolicy.normalized p = Ok p /\ validate_policy default_evaluators p = Ok ∅ /\
    (GateDefinition.gate_id <$> VerificationPolicy.gates p) = ["commit"; "manufacturing-release"; "preview"] /\
    forall gate, gate ∈ VerificationPolicy.gates p -> GateDefinition.gate_id gate ∈ ["preview"; "commit"] ->
      GateDefinition.required_external_evidence_ids gate = [].
Proof.
  eexists. split; [vm_compute; reflexivity|]. split_and!; [vm_compute; reflexivity..|].
  intros gate Hg. repeat (apply elem_of_cons in Hg as [->|Hg]; [try done|]); [|by apply not_elem_of_nil in Hg].
  intros [H|[H|H%not_elem_of_nil]%elem_of_cons]%elem_of_cons; [discriminate H|discriminate H|done].
Qed.

(** The rule resolves without an override, runs and drafts nothing. *)
Definition default_silent (b : BoardGraph.t) (evaluator : RuleEvaluator) : Prop :=
  exists r, resolve_rule evaluator None = Ok r /\ silent b ExactGeometryKernel.kernel r.

Lemma default_run identity value code now board :
  (forall now s, identity now s = Ok (value s)) -> (forall s, canonical_value (value s)) ->
  validate_board_graph board = Ok tt -> BoardGraph.schema_version board = BOARD_SCHEMA_VERSION ->
  (forall evaluator, evaluator ∈ default_evaluators -> default_silent (BoardGraph.normalized board) evaluator) ->
  exists report, verify identity (Ok code) now default_engine board None = Ok report /\
    VerificationReport.findings report = [] /\
    (forall e, e ∈ VerificationReport.executions report -> RuleExecution.outcome e = RuleExecutionOutcome.PASS) /\
    forall id, id ∈ ["preview"; "commit"] ->
      exists d, d ∈ VerificationReport.gates report /\ GateDecision.gate_id d = id /\ GateDecision.passed d = true.
Proof.
  intros Hid Hc Hv Hs Hall. destruct default_gates_accepted as (p & Hp & Hshape & Hn & Hval & Hids & Hext).
  destruct (Forall_Forall2_ex (fun evaluator r => resolve_rule evaluator None = Ok r /\
    silent (BoardGraph.normalized board) ExactGeometryKernel.kernel r) default_evaluators) as (resolved & Hres).
  { apply Forall_forall. exact Hall. }
  assert (accept_policy default_engine None = Ok (p, resolved)) as Ha.
  { unfold accept_policy. rewrite Hp. cbn [bind]. rewrite Hshape. cbn [bind]. rewrite Hn. cbn [bind].
    change (evaluators default_engine) with default_evaluators. rewrite Hval. cbn [bind].
    assert (resolve_rules default_engine ∅ = Ok resolved) as ->; [|done].
    apply mapM_Ok_Forall2. change (evaluators default_engine) with default_evaluators.
    eapply Forall2_impl; [exact Hres|]. intros evaluator r [Hr _]. exact Hr. }
  destruct (verify_silent identity value (Ok code) code Hid Hc eq_refl now default_engine board None p resolved Hv Hs Ha)
    as (report & Hrep & Hf & He & Hg).
  { intros r [i Hi]%list_elem_of_lookup. by destruct (Forall2_lookup_r _ _ _ _ _ Hres Hi) as (? & _ & _ & ?). }
  exists report. split_and!; [done|done| |].
  - intros e. rewrite He. by intros (r & -> & _)%list_elem_of_fmap.
  - intros id Hin. apply Hg. assert (id ∈ GateDefinition.gate_id <$> VerificationPolicy.gates p) as H.
    { rewrite Hids. repeat (apply elem_of_cons in Hin as [->|Hin]; [set_solver|]). by apply not_elem_of_nil in Hin. }
    apply list_elem_of_fmap in H as (gate & -> & H). exists gate. split_and!; [done|done|].
    by rewrite (Hext gate H Hin).
Qed.

(** An implementation whose identity is constant. *)
Definition constant_identity (_ : nat) (s : subject) : result pyval :=
  Ok (PStr (match s with Kernel => "kernel" | Rule id => id end)).

Definition silent_test (b : BoardGraph.t) (evaluator : RuleEvaluator) : bool :=
  match resolve_rule evaluator None with
  | Ok r => bool_decide (runs b r) && match drafts_of b ExactGeometryKernel.kernel r with Ok [] => true | _ => false end
  | Err _ => false
  end.

Lemma silent_tested b : forallb (silent_test b) default_evaluators = true ->
  forall evaluator, evaluator ∈ default_evaluators -> default_silent b evaluator.
Proof.
  rewrite forallb_forall. intros H evaluator Hin%list_elem_of_In%H. unfold silent_test in Hin.
  destruct (resolve_rule evaluator None) as [r|] eqn:E; [|done]. apply andb_true_iff in Hin as [Hr Hd].
  apply bool_decide_eq_true in Hr. exists r. split; [done|]. split; [done|]. by destruct (drafts_of _ _ r) as [[]|].
Qed.

(** The clean board has a report whose preview and commit gates pass. *)
Lemma clean_run : exists report, verify constant_identity (Ok "code") 0 default_engine clean_board None = Ok report /\
  exists d, d ∈ VerificationReport.gates report /\ GateDecision.gate_id d = "commit" /\ GateDecision.passed d = true.
Proof.
  destruct (default_run constant_identity (fun s => PStr (match s with Kernel => "kernel" | Rule id => id end)) "code" 0
    clean_board) as (report & Hr & _ & _ & Hg); [done| |by vm_compute|done| |].
  - intros s. apply (py_canonical (A := string)).
  - apply silent_tested. by vm_compute.
  - exists report. split; [done|]. apply Hg. right; left.
Qed.

(** The tracks of a normalized board run from the lesser end. *)
Lemma normalized_tracks board t : t ∈ BoardGraph.tracks (BoardGraph.normalized board) -> Track.normalized t = t.
Proof.
  intros Ht. cbn in Ht. apply elem_of_sorted_on, list_elem_of_fmap in Ht as (x & -> & _).
  pose proof (normalized_le x) as Hle. unfold Track.normalized at 1. unfold py_lt. by rewrite Hle.
Qed.

Lemma default_registered : registered default_engine.
Proof. by intros ?. Qed.

(** ** Guarantees *)

Section guarantees.
Variable identity : nat -> subject -> result pyval.
Variable code_bundle_hash : result string.

(** A required gate of the report passed. *)
Definition gate_passed (report : VerificationReport.t) (id : string) : Prop :=
  exists d, d ∈ VerificationReport.gates report /\ GateDecision.gate_id d = id /\ GateDecision.passed d = true.

Lemma gate_clears now engine board policy report id :
  verify identity code_bundle_hash now engine board policy = Ok report -> registered engine ->
  id ∈ REQUIRED_GATE_IDS -> gate_passed report id ->
  forall evaluator, evaluator ∈ default_evaluators ->
    cleared id policy (BoardGraph.normalized board) (geometry engine) evaluator.
Proof.
  intros Hv Hreg Hid (d & Hd & <- & Hp) evaluator Hev. by eapply passed_clears; [..|apply Hreg].
Qed.

(** C5. No policy buys a pass: whatever the policy, the implementation and the
    moment, when a required gate of a report passes and the engine has the
    default rules and the exact kernel, the normalized board is sound. *)
Theorem passed_gate_is_sound now engine board policy report id :
  registered engine -> geometry engine = ExactGeometryKernel.kernel ->
  verify identity code_bundle_hash now engine board policy = Ok report ->
  id ∈ REQUIRED_GATE_IDS -> gate_passed report id ->
  sound_board (BoardGraph.normalized board).
Proof.
  intros Hreg Hk Hv Hid Hp. by eapply cleared_sound; [eapply gate_clears|..].
Qed.

(** C8. What a commit admits: under the default policy and the exact kernel, when
    the commit gate of a report passes, the normalized board is sound and clear.
    Every net is one piece of copper with a pad - or has an external source, no
    connection and no copper.  Any two pieces of copper of different nets on a
    common layer, and any copper and hole without plating, are at least 150
    micrometres apart; copper does not enter a filled zone of another net, such
    zones do not overlap, and both keep 150 micrometres or the greater clearance
    of the zones.  Copper, holes without plating and the corners of filled zones
    are inside the outline, and their edges 250 micrometres away from it.
    Tracks are 150 micrometres wide; vias and drilled pads have rings of 100;
    two tracks of a net on one layer have at most a point of their centre lines
    in common; no via is doubled, and each touches other copper or a filled zone
    of its net.
    Parts are identified, required pins connected and those that must not be
    are not, nets without an external source have two endpoints, those with an
    input also a driver, and no net has two strong drivers. *)
Theorem passed_commit_is_clear now engine board report :
  registered engine -> geometry engine = ExactGeometryKernel.kernel ->
  verify identity code_bundle_hash now engine board None = Ok report ->
  gate_passed report "commit" ->
  sound_board (BoardGraph.normalized board) /\ clear_board (BoardGraph.normalized board).
Proof.
  intros Hreg Hk Hv Hp. assert ("commit" ∈ REQUIRED_GATE_IDS) as Hid by (right; left).
  pose proof (gate_clears _ _ _ _ _ _ Hv Hreg Hid Hp) as Hall.
  assert (sound_board (BoardGraph.normalized board)) as Hs by (by eapply cleared_sound).
  split; [done|]. by eapply (cleared_clear "commit" _ (geometry engine) Severity.ERROR); [..|apply normalized_tracks].
Qed.

(** Nothing is released without KiCad: every report has a decision for the
    manufacturing release, and each such decision is negative and names the
    missing evidence of a trusted KiCad run. *)
Theorem release_needs_kicad now engine board policy report :
  verify identity code_bundle_hash now engine board policy = Ok report ->
  (exists d, d ∈ VerificationReport.gates report /\ GateDecision.gate_id d = "manufacturing-release") /\
  forall d, d ∈ VerificationReport.gates report -> GateDecision.gate_id d = "manufacturing-release" ->
    GateDecision.passed d = false /\ KICAD_EVIDENCE_ID ∈ GateDecision.unavailable_evidence_ids d.
Proof.
  intros Hv. destruct (verify_reports _ _ _ _ _ _ _ Hv) as (p & resolved & all & R). split.
  - destruct (required_decision _ _ _ _ _ _ _ "manufacturing-release" R) as (_ & d & ? & ? & _); [set_solver|eauto].
  - intros d Hd Eid. destruct (re_gates _ _ _ _ _ _ _ R) as (decisions & ds & Hg & Hds).
    rewrite Hg in Hd. apply elem_of_sorted_on, list_elem_of_lookup in Hd as [i Hi].
    destruct (Forall2_lookup_r _ _ _ _ _ Hds Hi) as (gate & Hgate%list_elem_of_lookup_2 & Heval).
    pose proof (re_policy _ _ _ _ _ _ _ R) as A. pose proof (evaluated_gate_id _ _ _ _ _ _ _ Heval) as E.
    assert (strict_gate gate) as S by (apply (ac_strict _ _ _ _ A); [done|rewrite <- E, Eid; set_solver]).
    destruct (gate_passes _ _ _ _ _ _ _ (sg_unscoped _ S) Heval) as (_ & Hu & Hiff).
    assert (KICAD_EVIDENCE_ID ∈ GateDefinition.required_external_evidence_ids gate) as Hk
      by (apply (sg_evidence _ S); congruence).
    split; [|by rewrite Hu]. apply not_true_iff_false. intros (_ & _ & Hnil)%Hiff. rewrite Hnil in Hk.
    by apply not_elem_of_nil in Hk.
Qed.
End guarantees.

(** C23. A good board gets through: when the implementation keeps its identity,
    the board has the current schema and valid evidence, and each default rule
    runs and drafts nothing, the engine returns a report without findings in
    which every rule passed and the preview and commit gates pass. *)
Theorem silent_board_passes identity value code now board :
  (forall moment s, identity moment s = Ok (value s)) -> (forall s, canonical_value (value s)) ->
  validate_board_graph board = Ok tt -> BoardGraph.schema_version board = BOARD_SCHEMA_VERSION ->
  (forall evaluator, evaluator ∈ default_evaluators -> default_silent (BoardGraph.normalized board) evaluator) ->
  exists report, verify identity (Ok code) now default_engine board None = Ok report /\
    VerificationReport.findings report = [] /\
    (forall e, e ∈ VerificationReport.executions report -> RuleExecution.outcome e = RuleExecutionOutcome.PASS) /\
    forall id, id ∈ ["preview"; "commit"] -> gate_passed report id.
Proof. apply default_run. Qed.

Lemma passed_gate_is_sound_witness : exists report,
  verify constant_identity (Ok "code") 0 default_engine clean_board None = Ok report /\
  gate_passed report "commit" /\ sound_board (BoardGraph.normalized clean_board).
Proof.
  destruct clean_run as (report & Hr & Hp). exists report. split; [exact Hr|]. split; [exact Hp|].
  apply (passed_gate_is_sound constant_identity (Ok "code") 0 default_engine clean_board None report "commit"
    default_registered eq_refl Hr); [right; left|exact Hp].
Defined.

Lemma passed_commit_is_clear_witness : exists report,
  verify constant_identity (Ok "code") 0 default_engine clean_board None = Ok report /\
  gate_passed report "commit" /\ clear_board (BoardGraph.normalized clean_board).
Proof.
  destruct clean_run as (report & Hr & Hp). exists report. split; [exact Hr|]. split; [exact Hp|].
  apply (passed_commit_is_clear constant_identity (Ok "code") 0 default_engine clean_board report
    default_registered eq_refl Hr Hp).
Defined.

Lemma release_needs_kicad_witness : exists report,
  verify constant_identity (Ok "code") 0 default_engine clean_board None = Ok report /\
  exists d, d ∈ VerificationReport.gates report /\ GateDecision.gate_id d = "manufacturing-release" /\
    GateDecision.passed d = false.
Proof.
  destruct clean_run as (report & Hr & _). exists report. split; [exact Hr|].
  destruct (release_needs_kicad constant_identity (Ok "code") 0 default_engine clean_board None report Hr)
    as [(d & Hd & E) H].
  exists d. split; [exact Hd|]. split; [exact E|]. apply (H d Hd E).
Defined.

Lemma silent_board_passes_witness : exists report,
  verify constant_identity (Ok "code") 0 default_engine clean_board None = Ok report /\ gate_passed report "preview".
Proof.
  destruct (silent_board_passes constant_identity
    (fun s => PStr (match s with Kernel => "kernel" | Rule id => id end)) "code" 0 clean_board)
    as (report & Hr & _ & _ & Hg).
  - reflexivity.
  - intros s. apply (py_canonical (A := string)).
  - vm_compute. reflexivity.
  - reflexivity.
  - apply silent_tested. vm_compute. reflexivity.
  - exists report. split; [exact Hr|]. apply Hg. left.
Defined.
