(* ===== verification/ReportFacts.v ===== *)
(** * The report of a verification run

    The form of every report, what its hashes commit to, and the runs that end
    in an error because two findings have one identity. *)
From S2P Require Import Prelude PyDict PyStr Sha256 Json Geometry Board Rule Copper GeoRules RoutingRules.
From S2P Require Import BoardFixtures ElectricalRules RuleFacts Canonical BoardValues Policy CanonicalFacts.
From S2P Require Import ElectricalFacts Engine EngineFacts EngineSafety SilentRuns EngineGuarantees.
Import VerificationEngine.

Local Open Scope string_scope.

(** ** The form of a report *)

(** The outcome says whether the rule ran and whether it found something. *)
Definition consistent_outcome (e : RuleExecution.t) : Prop :=
  match RuleExecution.outcome e with
  | RuleExecutionOutcome.NOT_RUN =>
    (RuleExecution.enabled e = false \/ RuleExecution.blocker_ids e <> []) /\ RuleExecution.finding_ids e = []
  | RuleExecutionOutcome.PASS =>
    RuleExecution.enabled e = true /\ RuleExecution.blocker_ids e = [] /\ RuleExecution.finding_ids e = []
  | RuleExecutionOutcome.FAIL =>
    RuleExecution.enabled e = true /\ RuleExecution.blocker_ids e = [] /\ RuleExecution.finding_ids e <> []
  end.

(** A report of the engine, as the readers of a report rely on it. *)
Record well_formed (engine : t) (report : VerificationReport.t) : Prop := {
  wf_versions : VerificationReport.schema_version report = REPORT_SCHEMA_VERSION /\
    VerificationReport.engine_version report = ENGINE_VERSION;
  wf_sorted : StronglySorted (key_le finding_order_key) (VerificationReport.findings report);
  wf_unique : NoDup (Finding.finding_id <$> VerificationReport.findings report);
  wf_executions : RuleExecution.rule_id <$> VerificationReport.executions report = rule_id_of <$> evaluators engine;
  wf_outcomes : forall e, e ∈ VerificationReport.executions report -> consistent_outcome e;
  (** every finding is of a rule that failed, with its severity *)
  wf_findings : forall f, f ∈ VerificationReport.findings report ->
    exists e, e ∈ VerificationReport.executions report /\ RuleExecution.outcome e = RuleExecutionOutcome.FAIL /\
      RuleExecution.rule_id e = Finding.rule_id f /\ RuleExecution.severity e = Finding.severity f /\
      Finding.finding_id f ∈ RuleExecution.finding_ids e;
  (** and every id of an execution is of a finding of its rule *)
  wf_recorded : forall e id, e ∈ VerificationReport.executions report -> id ∈ RuleExecution.finding_ids e ->
    exists f, f ∈ VerificationReport.findings report /\ Finding.finding_id f = id /\
      Finding.rule_id f = RuleExecution.rule_id e;
  wf_gates : forall id, id ∈ REQUIRED_GATE_IDS -> id ∈ GateDecision.gate_id <$> VerificationReport.gates report;
}.

Lemma materialized_rule r draft f :
  materialize_finding r draft = Ok f -> Finding.rule_id f = rule_id_of (ResolvedRule.evaluator r).
Proof.
  unfold materialize_finding. intros [_ H]%seq_Ok. apply bind_Ok in H as (? & _ & H).
  apply bind_Ok in H as (? & _ & H). by apply bind_Ok in H as (? & _ & [= <-]).
Qed.

Section execution.
Variables (board : BoardGraph.t) (kernel : GeometryKernel) (all : dict Finding.t).

Lemma executed_consistent r e : executed board kernel all r e -> consistent_outcome e.
Proof.
  intros X. destruct (decide (runs board r)) as [Hr|Hr].
  - destruct (ex_run _ _ _ _ _ X Hr) as (drafts & fs & _ & _ & Hids & Hpass & _). pose proof Hr as [He Hb].
    unfold consistent_outcome. rewrite (ex_enabled _ _ _ _ _ X), (ex_blockers _ _ _ _ _ X), He, Hb, Hids.
    destruct (RuleExecution.outcome e) eqn:E.
    + by rewrite (proj1 Hpass eq_refl).
    + split_and!; [done..|]. rewrite sorted_set_nil. intros Hn. apply fmap_nil_inv in Hn. by apply Hpass in Hn.
    + by apply (ex_not_run _ _ _ _ _ X) in E.
  - unfold consistent_outcome. pose proof (proj2 (ex_not_run _ _ _ _ _ X) Hr) as ->.
    split; [|by apply (ex_findings _ _ _ _ _ X)].
    rewrite (ex_enabled _ _ _ _ _ X), (ex_blockers _ _ _ _ _ X). unfold runs in Hr.
    destruct (ResolvedRule.enabled r); [|by left]. right. tauto.
Qed.

(** A finding that a rule made is in the execution of the rule. *)
Lemma executed_made r e f :
  executed board kernel all r e -> made_by board kernel r f ->
  RuleExecution.outcome e = RuleExecutionOutcome.FAIL /\ RuleExecution.rule_id e = Finding.rule_id f /\
  RuleExecution.severity e = Finding.severity f /\ Finding.finding_id f ∈ RuleExecution.finding_ids e.
Proof.
  intros X (Hr & drafts & draft & Hd & Hin & Hm).
  destruct (ex_run _ _ _ _ _ X Hr) as (drafts' & fs & Hd' & Hfs & Hids & Hpass & _).
  assert (drafts' = drafts) as -> by congruence. apply list_elem_of_lookup in Hin as [i Hi].
  destruct (Forall2_lookup_l _ _ _ _ _ Hfs Hi) as (f' & Hf%list_elem_of_lookup_2 & Hm').
  assert (f' = f) as -> by congruence. split_and!.
  - destruct (RuleExecution.outcome e) eqn:E; [|done|by apply (ex_not_run _ _ _ _ _ X) in E].
    rewrite (proj1 Hpass eq_refl) in Hf. by apply not_elem_of_nil in Hf.
  - by rewrite (ex_rule _ _ _ _ _ X), (materialized_rule _ _ _ Hm).
  - by rewrite (ex_severity _ _ _ _ _ X), (materialized_severity _ _ _ Hm).
  - rewrite Hids. apply elem_of_sorted_on, elem_of_remove_dups, list_elem_of_fmap. eauto.
Qed.

Lemma executed_recorded r e id :
  keyed Finding.finding_id all -> executed board kernel all r e -> id ∈ RuleExecution.finding_ids e ->
  exists f, f ∈ dict_values all /\ Finding.finding_id f = id /\ Finding.rule_id f = RuleExecution.rule_id e.
Proof.
  intros Hk X Hid. destruct (decide (runs board r)) as [Hr|Hr];
    [|rewrite (ex_findings _ _ _ _ _ X Hr) in Hid; by apply not_elem_of_nil in Hid].
  destruct (ex_run _ _ _ _ _ X Hr) as (drafts & fs & _ & Hfs & Hids & _ & Hfound).
  rewrite Hids in Hid. apply elem_of_sorted_on, elem_of_remove_dups, list_elem_of_fmap in Hid as (f & -> & Hf).
  destruct (found_value all f Hk (Hfound f Hf)) as (f' & Hin & E). exists f'. split; [done|].
  rewrite (eq_key_id _ _ E), (eq_key_rule _ _ E), (ex_rule _ _ _ _ _ X). split; [done|].
  apply list_elem_of_lookup in Hf as [i Hi]. destruct (Forall2_lookup_r _ _ _ _ _ Hfs Hi) as (draft & _ & Hm).
  by apply materialized_rule in Hm.
Qed.
End execution.

Section report.
Variable identity : nat -> subject -> result pyval.
Variable code_bundle_hash : result string.

(** C24. Every report is well formed: it has the current versions; its findings
    are in the order of severity, rule and entities, each with an id of its own;
    there is one execution for each rule of the engine, in order, whose outcome
    agrees with its enabling, blockers and findings; findings and executions
    refer to each other; and every required gate is decided. *)
Theorem report_is_well_formed now engine board policy report :
  verify identity code_bundle_hash now engine board policy = Ok report -> well_formed engine report.
Proof.
  intros Hv. destruct (verify_reports _ _ _ _ _ _ _ Hv) as (p & resolved & all & R).
  pose proof (re_executions _ _ _ _ _ _ _ R) as X. pose proof (re_keyed _ _ _ _ _ _ _ R) as K.
  pose proof (re_findings _ _ _ _ _ _ _ R) as F. split.
  - apply (re_constants _ _ _ _ _ _ _ R).
  - rewrite F. apply sorted_on_StronglySorted.
  - rewrite F, sorted_on_Permutation. by apply keyed_NoDup.
  - pose proof (ac_rules _ _ _ _ (re_policy _ _ _ _ _ _ _ R)) as A. clear -X A.
    revert X. generalize (VerificationReport.executions report). induction A as [|ev r evs rs (o & Hr & _) _ IH];
      intros es H; inversion H as [|? e ? es' He Hes]; subst; [done|].
    rewrite !fmap_cons, (ex_rule _ _ _ _ _ He), (resolved_evaluator _ _ _ Hr). f_equal. by apply IH.
  - intros e [i Hi]%list_elem_of_lookup. destruct (Forall2_lookup_r _ _ _ _ _ X Hi) as (r & _ & He).
    by eapply executed_consistent.
  - intros f. rewrite F, elem_of_sorted_on. intros Hf%(keyed_values_elem Finding.finding_id); [|done].
    destruct (re_made _ _ _ _ _ _ _ R _ _ Hf) as (r & [i Hi]%list_elem_of_lookup & Hm).
    destruct (Forall2_lookup_l _ _ _ _ _ X Hi) as (e & He%list_elem_of_lookup_2 & Hx).
    exists e. split; [done|]. by eapply executed_made.
  - intros e id [i Hi]%list_elem_of_lookup Hid. destruct (Forall2_lookup_r _ _ _ _ _ X Hi) as (r & _ & He).
    setoid_rewrite F. setoid_rewrite elem_of_sorted_on. by eapply executed_recorded.
  - intros id Hid. destruct (required_decision _ _ _ _ _ _ _ id R Hid) as (_ & d & ? & <- & _).
    apply list_elem_of_fmap. eauto.
Qed.

(** ** Hashes *)

Definition report_fields (r : VerificationReport.t) : list (string * pyval) := [
  ("schema_version", py REPORT_SCHEMA_VERSION); ("engine_version", py ENGINE_VERSION);
  ("run_id", py (VerificationReport.run_id r)); ("input_hash", py (VerificationReport.input_hash r));
  ("rule_set_hash", py (VerificationReport.rule_set_hash r)); ("findings", py (VerificationReport.findings r));
  ("executions", py (VerificationReport.executions r)); ("gates", py (VerificationReport.gates r))].

(** What [report_hash] is taken of. *)
Definition hashed_report (r : VerificationReport.t) : pyval :=
  report_value (VerificationReport.run_id r) (VerificationReport.input_hash r) (VerificationReport.rule_set_hash r)
    (VerificationReport.findings r) (VerificationReport.executions r) (VerificationReport.gates r).

Lemma hashed_report_canonical r : canonical_value (hashed_report r).
Proof.
  change (canonical_value (mapping (report_fields r))). apply mapping_canonical.
  - apply (bool_decide_unpack _). vm_compute. reflexivity.
  - repeat (first [apply Forall_nil_2|apply Forall_cons_2; [apply py_canonical|]]).
Qed.

Lemma hashed_report_inj r1 r2 :
  same_data (hashed_report r1) (hashed_report r2) ->
  VerificationReport.run_id r1 = VerificationReport.run_id r2 /\
  VerificationReport.input_hash r1 = VerificationReport.input_hash r2 /\
  VerificationReport.rule_set_hash r1 = VerificationReport.rule_set_hash r2 /\
  VerificationReport.findings r1 = VerificationReport.findings r2 /\
  VerificationReport.executions r1 = VerificationReport.executions r2 /\
  VerificationReport.gates r1 = VerificationReport.gates r2.
Proof.
  intros E. change (same_data (mapping (report_fields r1)) (mapping (report_fields r2))) in E.
  apply mapping_same in E; [|apply (bool_decide_unpack _); vm_compute; reflexivity|reflexivity].
  unfold report_fields in E.
  repeat match goal with H : Forall2 _ (_ :: _) _ |- _ => apply Forall2_cons in H as [? H]; cbn [snd] in * end.
  split_and!; by apply py_inj.
Qed.
End report.

(** C25. A report hash commits to the report and to the board: two reports of any
    two runs with the same hash are the same report, of boards with the same
    normal form, or else one of two explicit pairs of different texts collides
    under SHA-256. *)
Theorem report_hash_commits identity1 code1 now1 engine1 board1 policy1 r1 identity2 code2 now2 engine2 board2 policy2 r2 :
  verify identity1 code1 now1 engine1 board1 policy1 = Ok r1 ->
  verify identity2 code2 now2 engine2 board2 policy2 = Ok r2 ->
  VerificationReport.report_hash r1 = VerificationReport.report_hash r2 ->
  (r1 = r2 /\ BoardGraph.normalized board1 = BoardGraph.normalized board2) \/
  hash_collision (hashed_report r1) "pcb-verification-report-v3" (hashed_report r2) "pcb-verification-report-v3" \/
  hash_collision (py (BoardGraph.normalized board1)) "pcb-board-graph-v2"
    (py (BoardGraph.normalized board2)) "pcb-board-graph-v2".
Proof.
  intros H1 H2 E. destruct (verify_reports _ _ _ _ _ _ _ H1) as (p1 & rs1 & all1 & R1).
  destruct (verify_reports _ _ _ _ _ _ _ H2) as (p2 & rs2 & all2 & R2).
  pose proof (re_report_hash _ _ _ _ _ _ _ R1) as P1. pose proof (re_report_hash _ _ _ _ _ _ _ R2) as P2.
  rewrite E in P1.
  destruct (same_hash_same_data _ _ _ _ _ (hashed_report_canonical r1) (hashed_report_canonical r2) P1 P2)
    as [[_ S]|?]; [|by right; left].
  apply hashed_report_inj in S as (S1 & S2 & S3 & S4 & S5 & S6).
  pose proof (re_input_hash _ _ _ _ _ _ _ R1) as B1. pose proof (re_input_hash _ _ _ _ _ _ _ R2) as B2.
  rewrite S2 in B1.
  destruct (same_hash_same_data _ _ _ _ _ (py_canonical (BoardGraph.normalized board1))
    (py_canonical (BoardGraph.normalized board2)) B1 B2) as [[_ S]|?]; [|by right; right].
  left. split; [|by apply py_inj in S].
  destruct (re_constants _ _ _ _ _ _ _ R1) as [C1 C1'], (re_constants _ _ _ _ _ _ _ R2) as [C2 C2'].
  destruct r1, r2. simpl in *. congruence.
Qed.

Lemma report_is_well_formed_witness : exists report,
  verify constant_identity (Ok "code") 0 default_engine clean_board None = Ok report /\ well_formed default_engine report.
Proof.
  destruct clean_run as (report & Hr & _). exists report. split; [exact Hr|].
  apply (report_is_well_formed constant_identity (Ok "code") 0 default_engine clean_board None report Hr).
Defined.

Lemma report_hash_commits_witness : exists report,
  verify constant_identity (Ok "code") 0 default_engine clean_board None = Ok report /\
  ((report = report /\ BoardGraph.normalized clean_board = BoardGraph.normalized clean_board) \/
   hash_collision (hashed_report report) "pcb-verification-report-v3" (hashed_report report) "pcb-verification-report-v3" \/
   hash_collision (py (BoardGraph.normalized clean_board)) "pcb-board-graph-v2"
     (py (BoardGraph.normalized clean_board)) "pcb-board-graph-v2").
Proof.
  destruct clean_run as (report & Hr & _). exists report. split; [exact Hr|].
  apply (report_hash_commits constant_identity (Ok "code") 0 default_engine clean_board None report
    constant_identity (Ok "code") 0 default_engine clean_board None report Hr Hr eq_refl).
Defined.

(** ** Findings with one identity *)

(** Drafts with the same entities and evidence have one finding id. *)
Lemma same_identity r draft1 draft2 f1 f2 :
  FindingDraft.entities draft1 = FindingDraft.entities draft2 ->
  FindingDraft.items draft1 = FindingDraft.items draft2 ->
  materialize_finding r draft1 = Ok f1 -> materialize_finding r draft2 = Ok f2 ->
  Finding.finding_id f1 = Finding.finding_id f2 /\
  Finding.message f1 = FindingDraft.message draft1 /\ Finding.message f2 = FindingDraft.message draft2.
Proof.
  intros Ee Ei H1 H2. unfold materialize_finding in H1, H2. apply seq_Ok in H1 as [_ H1], H2 as [_ H2].
  apply bind_Ok in H1 as (n1 & N1 & H1), H2 as (n2 & N2 & H2).
  assert (FindingDraft.entities n1 = FindingDraft.entities n2 /\ FindingDraft.items n1 = FindingDraft.items n2 /\
    FindingDraft.message n1 = FindingDraft.message draft1 /\ FindingDraft.message n2 = FindingDraft.message draft2)
    as (En & In & M1 & M2).
  { unfold draft_normalized in N1, N2. rewrite Ee, Ei in N1. apply bind_Ok in N1 as (i1 & I1 & N1), N2 as (i2 & I2 & N2).
    rewrite I2 in I1. apply Ok_inj in I1, N1, N2. subst. done. }
  rewrite En, In in H1. apply bind_Ok in H1 as (h1 & E1 & H1), H2 as (h2 & E2 & H2).
  rewrite E2 in E1. apply Ok_inj in E1. subst h1.
  apply bind_Ok in H1 as (g1 & G1 & H1), H2 as (g2 & G2 & H2). rewrite G2 in G1. apply Ok_inj in G1. subst g1.
  apply Ok_inj in H1, H2. subst f1 f2. simpl. by split_and!.
Qed.

Section collision.
Variable identity : nat -> subject -> result pyval.
Variable code_bundle_hash : result string.

(** Two drafts of a rule that differ in nothing but the message. *)
Definition colliding_drafts (drafts : list FindingDraft.t) : Prop :=
  exists d1 d2, d1 ∈ drafts /\ d2 ∈ drafts /\ FindingDraft.entities d1 = FindingDraft.entities d2 /\
    FindingDraft.items d1 = FindingDraft.items d2 /\ FindingDraft.message d1 <> FindingDraft.message d2.

Lemma executed_drafts board kernel all r e drafts :
  executed board kernel all r e -> runs board r -> drafts_of board kernel r = Ok drafts -> ~ colliding_drafts drafts.
Proof.
  intros X Hr Hd (d1 & d2 & Hd1 & Hd2 & Ee & Ei & Hne).
  destruct (ex_run _ _ _ _ _ X Hr) as (drafts' & fs & Hd' & Hfs & _ & _ & Hfound).
  assert (drafts' = drafts) as -> by congruence. apply list_elem_of_lookup in Hd1 as [i1 I1], Hd2 as [i2 I2].
  destruct (Forall2_lookup_l _ _ _ _ _ Hfs I1) as (f1 & F1%list_elem_of_lookup_2 & M1).
  destruct (Forall2_lookup_l _ _ _ _ _ Hfs I2) as (f2 & F2%list_elem_of_lookup_2 & M2).
  destruct (same_identity r d1 d2 f1 f2 Ee Ei M1 M2) as (Eid & Em1 & Em2).
  destruct (Hfound f1 F1) as (g1 & G1 & K1), (Hfound f2 F2) as (g2 & G2 & K2). rewrite Eid in G1.
  assert (g1 = g2) as <- by congruence. apply Hne. rewrite <- Em1, <- Em2.
  rewrite <- (eq_key_message _ _ K1). by apply eq_key_message.
Qed.

Lemma fails_closed now board evaluator r :
  evaluator ∈ default_evaluators -> resolve_rule evaluator None = Ok r ->
  runs (BoardGraph.normalized board) r ->
  (forall drafts, drafts_of (BoardGraph.normalized board) ExactGeometryKernel.kernel r = Ok drafts -> colliding_drafts drafts) ->
  exists e, verify identity code_bundle_hash now default_engine board None = Err e.
Proof.
  intros Hev Hres Hr Hc.
  destruct (verify identity code_bundle_hash now default_engine board None) as [report|e] eqn:E; [exfalso|eauto].
  destruct (verify_reports _ _ _ _ _ _ _ E) as (p & resolved & all & R).
  apply list_elem_of_lookup in Hev as [i Hi].
  destruct (Forall2_lookup_l _ _ _ _ _ (ac_rules _ _ _ _ (re_policy _ _ _ _ _ _ _ R)) Hi) as (r' & Hr' & o & Hres' & Ho).
  rewrite (Ho eq_refl) in Hres'. assert (r' = r) as -> by congruence.
  destruct (Forall2_lookup_l _ _ _ _ _ (re_executions _ _ _ _ _ _ _ R) Hr') as (x & _ & X).
  destruct (ex_run _ _ _ _ _ X Hr) as (drafts & _ & Hd & _). by eapply executed_drafts, Hc.
Qed.

(** C38. The identity of a finding does not cover its message: when two drafts of
    a default rule differ in nothing but their message, no run under the default
    policy returns a report, whatever the implementation and the moment. *)
Theorem colliding_drafts_fail_closed now board evaluator r drafts :
  evaluator ∈ default_evaluators -> resolve_rule evaluator None = Ok r ->
  runs (BoardGraph.normalized board) r ->
  drafts_of (BoardGraph.normalized board) ExactGeometryKernel.kernel r = Ok drafts -> colliding_drafts drafts ->
  exists e, verify identity code_bundle_hash now default_engine board None = Err e.
Proof.
  intros Hev Hres Hr Hd Hc. eapply fails_closed; [done..|]. intros drafts' Hd'. by assert (drafts' = drafts) as -> by congruence.
Qed.
End collision.

Definition the_rule (evaluator : RuleEvaluator) : ResolvedRule.t :=
  match resolve_rule evaluator None with Ok r => r | Err _ => ResolvedRule.mk evaluator false Severity.INFO [] end.
Definition reference_rule : RuleEvaluator :=
  {| definition := GraphReferenceIntegrityRule.definition; evaluate := GraphReferenceIntegrityRule.evaluate |}.
Definition clearance_rule : RuleEvaluator :=
  {| definition := MinimumCopperClearanceRule.definition; evaluate := MinimumCopperClearanceRule.evaluate |}.

(** A net that repeats a connection to a missing pin is not reported: the rule
    drafts that the pin is missing and that the connection is repeated, with the
    same entities and evidence, and the engine stops. *)
Definition repeated_drafts : list FindingDraft.t :=
  match drafts_of (BoardGraph.normalized repeated_board) ExactGeometryKernel.kernel (the_rule reference_rule) with
  | Ok drafts => drafts
  | Err _ => []
  end.

Lemma colliding_drafts_fail_closed_witness :
  exists e, verify constant_identity (Ok "code") 0 default_engine repeated_board None = Err e.
Proof.
  apply (colliding_drafts_fail_closed constant_identity (Ok "code") 0 repeated_board reference_rule
    (the_rule reference_rule) repeated_drafts).
  - registry_member.
  - reflexivity.
  - split; reflexivity.
  - reflexivity.
  - eexists _, _. split; [left|]. split; [right; right; left|]. split; [reflexivity|]. split; [reflexivity|discriminate].
Defined.

(** A round hole without plating blocks nothing, although its turn makes the
    clearance rule raise: the engine stops instead of recording a blocker. *)
Example turned_hole_fails_closed :
  geometry_blockers (BoardGraph.normalized turned_hole_board) = [] /\
  forall identity code_bundle_hash now,
    exists e, verify identity code_bundle_hash now default_engine turned_hole_board None = Err e.
Proof.
  split; [reflexivity|]. intros identity code_bundle_hash now.
  apply (fails_closed identity code_bundle_hash now turned_hole_board clearance_rule (the_rule clearance_rule)).
  - registry_member.
  - reflexivity.
  - split; reflexivity.
  - intros drafts H. vm_compute in H. discriminate H.
Qed.
