(* ===== verification/Effect.v ===== *)
(** * Stateful computations that may raise

    A method of a Python object is a computation on the state of the object.
    What it changed before it raised stays changed. *)
From S2P Require Import Prelude.

Definition comp (S A : Type) : Type := S -> S * result A.

Section operations.
Context {S : Type}.

Definition ret {A} (a : A) : comp S A := fun s => (s, Ok a).
Definition throw {A} (e : exn) : comp S A := fun s => (s, Err e).
Definition mbind_M {A B} (m : comp S A) (k : A -> comp S B) : comp S B := fun s =>
  let '(s', r) := m s in
  match r with Ok a => k a s' | Err e => (s', Err e) end.
(** A computation on values only. *)
Definition lift {A} (r : result A) : comp S A := fun s => (s, r).
(** Reading the state, and replacing it. *)
Definition get : comp S S := fun s => (s, Ok s).
Definition modify (f : S -> S) : comp S unit := fun s => (f s, Ok tt).
(** [try: m except cls: raise h] *)
Definition rethrow {A} (m : comp S A) (cls : exn_class) (h : exn) : comp S A := fun s =>
  let '(s', r) := m s in
  (s', match r with Ok a => Ok a | Err e => if is_a (exn_cls e) cls then Err h else Err e end).
End operations.

(** A computation on a part of the state. *)
Definition zoom {S T A} (view : T -> S) (put : S -> T -> T) (m : comp S A) : comp T A := fun t =>
  let '(s', r) := m (view t) in (put s' t, r).

Declare Scope effect_scope.
Delimit Scope effect_scope with effect.
Notation "'do' x <- m 'in' k" := (mbind_M m (fun x => k))
  (at level 10, x name, m at level 100, k at level 200) : effect_scope.
Notation "m >>; k" := (mbind_M m (fun _ => k)) (at level 199, right associativity) : effect_scope.
Open Scope effect_scope.

(** [for x in l: f(x)] *)
Fixpoint for_each {S A} (f : A -> comp S unit) (l : list A) : comp S unit :=
  match l with
  | [] => ret tt
  | x :: l => f x >>; for_each f l
  end.

(** ** When a computation returns *)

Section facts.
Context {S : Type}.

Lemma mbind_M_Ok {A B} (m : comp S A) (k : A -> comp S B) c c' b :
  mbind_M m k c = (c', Ok b) <-> exists a c1, m c = (c1, Ok a) /\ k a c1 = (c', Ok b).
Proof.
  unfold mbind_M. destruct (m c) as [c1 [a|e]]; split; try by intros (? & ? & [= <- <-] & ?).
  - intros H. by exists a, c1.
  - done.
Qed.

Lemma lift_Ok {A} (r : result A) (c c' : S) a : lift r c = (c', Ok a) <-> c' = c /\ r = Ok a.
Proof. unfold lift. naive_solver. Qed.
Lemma ret_Ok {A} (a b : A) (c c' : S) : ret a c = (c', Ok b) <-> c' = c /\ b = a.
Proof. unfold ret. naive_solver. Qed.
Lemma get_Ok (c c' s : S) : get c = (c', Ok s) <-> c' = c /\ s = c.
Proof. unfold get. naive_solver. Qed.
Lemma modify_Ok (f : S -> S) c c' u : modify f c = (c', Ok u) <-> c' = f c.
Proof. unfold modify. destruct u. naive_solver. Qed.
Lemma rethrow_Ok {A} (m : comp S A) cls h c c' a :
  rethrow m cls h c = (c', Ok a) <-> m c = (c', Ok a).
Proof.
  unfold rethrow. destruct (m c) as [c1 [b|e]]; [done|]. destruct (is_a _ _); split; by intros [=].
Qed.
End facts.

(** ** Running a computation

    [run_cases H] follows a run [H : m s = (s', r)] to its outcomes: one goal
    for each path, with the conditions of the path in the context. *)

Section running.
Context {S : Type}.
Lemma run_lift {A B} (r : result A) (k : A -> comp S B) s :
  mbind_M (lift r) k s = match r with Ok a => k a s | Err e => (s, Err e) end.
Proof. by destruct r. Qed.
Lemma run_get {B} (k : S -> comp S B) s : mbind_M get k s = k s s.
Proof. done. Qed.
Lemma run_modify {B} f (k : unit -> comp S B) s : mbind_M (modify f) k s = k tt (f s).
Proof. done. Qed.
Lemma run_bind {A B} (m : comp S A) (k : A -> comp S B) s :
  mbind_M m k s = match (m s).2 with Ok a => k a (m s).1 | Err e => ((m s).1, Err e) end.
Proof. unfold mbind_M. by destruct (m s) as [s' [a|e]]. Qed.
End running.

Ltac run_case H :=
  lazymatch type of H with
  | mbind_M get _ _ = _ => rewrite run_get in H
  | mbind_M (modify _) _ _ = _ => rewrite run_modify in H
  | mbind_M (lift ?r) _ _ = _ => rewrite run_lift in H;
      lazymatch r with
      | Ok _ => cbv beta iota in H
      | _ => let E := fresh "E" in destruct r eqn:E
      end
  | (if ?b then _ else _) _ = _ => let E := fresh "E" in destruct b eqn:E
  | (match ?o with _ => _ end) _ = _ => let E := fresh "E" in destruct o eqn:E
  | ret _ _ = _ => unfold ret in H; injection H as <- <-
  | throw _ _ = _ => unfold throw in H; injection H as <- <-
  | lift _ _ = _ => unfold lift in H; injection H as <- <-
  | (_, _) = (_, _) => injection H as <- <-
  end.
Ltac run_cases H := repeat (run_case H; cbv beta zeta in H).
