(* ===== verification/Codec.v ===== *)
(** * Records as stored text (backend/orchestrator/store.py)

    [_primitive], [_body], [_decode_record] and the decoder of each record.  A
    body is the canonical JSON of the record; decoding reads it, rebuilds the
    record through its constructor and accepts it only when the record encodes
    to exactly the stored text, so the spellings that [json.loads],
    [fromisoformat] or a constructor's defaults would also read never survive;
    which of the [SnapshotIntegrityError] messages they get is not modelled. *)
From S2P Require Import Prelude PyDict PyStr Sha256 Json DateTime Enums Models Digests.

Local Open Scope string_scope.

Definition StoreErr (msg : string) : exn := Exn StoreError msg.
Definition SnapshotErr (msg : string) : exn := Exn SnapshotIntegrityError msg.

(** ** Reading fields *)

Definition type_err (what : string) : exn := DomainErr (what +:+ " has the wrong type").

Definition as_obj (j : json) : result (list (string * json)) :=
  match j with JObj kvs => Ok kvs | _ => Err (Exn TypeError "not an object") end.
Definition as_str (j : json) : result string :=
  match j with JStr s => Ok s | _ => Err (type_err "string") end.
Definition as_int (j : json) : result Z :=
  match j with JInt z => Ok z | _ => Err (type_err "integer") end.
Definition as_bool (j : json) : result bool :=
  match j with JBool b => Ok b | _ => Err (type_err "boolean") end.
(** [None] stays [None]; anything else is read by [f]. *)
Definition as_opt {A} (f : json -> result A) (j : json) : result (option A) :=
  match j with JNull => Ok None | _ => let* a := f j in Ok (Some a) end.
Definition as_list {A} (f : json -> result A) (j : json) : result (list A) :=
  match j with JArr l => mapM f l | _ => Err (Exn TypeError "not a list") end.
(** [datetime.fromisoformat(value)] *)
Definition as_dt (j : json) : result datetime := let* s := as_str j in fromisoformat s.
(** [E(value)] for an enumeration with the members [all]. *)
Definition as_enum {E} (all : list E) (value : E -> string) (j : json) : result E :=
  let* s := as_str j in
  match filter (fun e => value e = s) all with
  | e :: _ => Ok e
  | [] => Err (Exn ValueError (s +:+ " is not a valid member"))
  end.

(** [f(value[key])] *)
Definition at_ {A} (kvs : list (string * json)) (key : string) (f : json -> result A) : result A :=
  match assoc_get key kvs with Some v => f v | None => Err (Exn KeyError key) end.

(** ** The members of the enumerations *)

Definition run_phases : list RunPhase.t :=
  [RunPhase.DRAFT; RunPhase.CLARIFYING; RunPhase.AWAITING_PLAN_APPROVAL; RunPhase.READY;
   RunPhase.EXECUTING; RunPhase.AWAITING_CHANGE_APPROVAL; RunPhase.VERIFYING;
   RunPhase.COMPLETED; RunPhase.FAILED; RunPhase.CANCELLED].
Definition coordination_stages : list CoordinationStage.t :=
  [CoordinationStage.QUESTIONING; CoordinationStage.AWAITING_BRIEF_APPROVAL;
   CoordinationStage.RESEARCH; CoordinationStage.AWAITING_ARCHITECTURE_BOM_APPROVAL;
   CoordinationStage.SCHEMATIC_STAGE; CoordinationStage.AWAITING_SCHEMATIC_APPROVAL;
   CoordinationStage.AWAITING_LAYOUT_CONSTRAINT_APPROVAL; CoordinationStage.PLACEMENT_STAGE;
   CoordinationStage.AWAITING_PLACEMENT_APPROVAL; CoordinationStage.ROUTING_STAGE;
   CoordinationStage.AWAITING_ROUTING_APPROVAL; CoordinationStage.RELEASE_CHECK;
   CoordinationStage.AWAITING_RELEASE_APPROVAL; CoordinationStage.RELEASED].
Definition agent_states : list AgentState.t :=
  [AgentState.QUEUED; AgentState.AVAILABLE; AgentState.LEASED; AgentState.RUNNING;
   AgentState.OFFLINE; AgentState.FAILED; AgentState.RETIRED].
Definition agent_classes : list AgentClass.t :=
  [AgentClass.COORDINATOR; AgentClass.INTERVIEWER; AgentClass.RESEARCHER;
   AgentClass.DOMAIN_DESIGNER; AgentClass.CRITIC; AgentClass.DETERMINISTIC_EXECUTOR;
   AgentClass.VERIFICATION_WORKER; AgentClass.RELEASE_REVIEWER].
Definition risk_classes : list RiskClass.t :=
  [RiskClass.LOW; RiskClass.MEDIUM; RiskClass.HIGH; RiskClass.CRITICAL].
Definition task_states : list TaskState.t :=
  [TaskState.QUEUED; TaskState.BLOCKED; TaskState.LEASED; TaskState.RUNNING;
   TaskState.RETRY_WAIT; TaskState.SUCCEEDED; TaskState.FAILED; TaskState.CANCELLED].
Definition task_kinds : list TaskKind.t :=
  [TaskKind.RESEARCH; TaskKind.DESIGN; TaskKind.IMPLEMENT; TaskKind.VERIFY; TaskKind.REVIEW;
   TaskKind.SYNTHESIZE].
Definition question_states : list QuestionState.t :=
  [QuestionState.OPEN; QuestionState.ANSWERED; QuestionState.WITHDRAWN].
Definition approval_kinds : list ApprovalKind.t :=
  [ApprovalKind.BRIEF; ApprovalKind.ARCHITECTURE_BOM; ApprovalKind.SCHEMATIC;
   ApprovalKind.LAYOUT_CONSTRAINTS; ApprovalKind.PLACEMENT; ApprovalKind.ROUTING;
   ApprovalKind.RELEASE; ApprovalKind.PLAN; ApprovalKind.CHANGESET; ApprovalKind.EXCEPTION].
Definition approval_states : list ApprovalState.t :=
  [ApprovalState.REQUESTED; ApprovalState.APPROVED; ApprovalState.REJECTED;
   ApprovalState.EXPIRED; ApprovalState.REVOKED].
Definition evidence_kinds : list EvidenceKind.t :=
  [EvidenceKind.USER_RESPONSE; EvidenceKind.TOOL_OUTPUT; EvidenceKind.ARTIFACT;
   EvidenceKind.DESIGN_CHECK; EvidenceKind.TEST_RESULT; EvidenceKind.MODEL_TRACE;
   EvidenceKind.APPROVAL_RECEIPT].
Definition event_types : list EventType.t :=
  [EventType.RUN_CREATED; EventType.RUN_PHASE_CHANGED; EventType.QUESTION_OPENED;
   EventType.QUESTION_ANSWERED; EventType.APPROVAL_REQUESTED; EventType.APPROVAL_DECIDED;
   EventType.TASK_QUEUED; EventType.TASK_LEASED; EventType.TASK_HEARTBEAT;
   EventType.TASK_RETRY_SCHEDULED; EventType.TASK_SUCCEEDED; EventType.TASK_FAILED;
   EventType.LEASE_EXPIRED; EventType.EVIDENCE_CAPTURED; EventType.BUDGET_CHANGED].

(** ** Records and their JSON values

    [_primitive] of each dataclass, and its decoder. *)

Definition jdt (d : datetime) : json := JStr (isoformat false d).
Definition jint_opt (o : option Z) : json := from_option JInt JNull o.
Definition jbool_opt (o : option bool) : json := from_option JBool JNull o.
Definition jdt_opt (o : option datetime) : json := from_option jdt JNull o.

Definition budget_primitive (b : Budget.t) : json :=
  JObj [("token_limit", jint_opt (Budget.token_limit b));
        ("tool_call_limit", jint_opt (Budget.tool_call_limit b));
        ("agent_dispatch_limit", jint_opt (Budget.agent_dispatch_limit b));
        ("tokens_used", JInt (Budget.tokens_used b));
        ("tokens_reserved", JInt (Budget.tokens_reserved b));
        ("tool_calls_used", JInt (Budget.tool_calls_used b));
        ("tool_calls_reserved", JInt (Budget.tool_calls_reserved b));
        ("agent_dispatches_used", JInt (Budget.agent_dispatches_used b));
        ("agent_dispatches_reserved", JInt (Budget.agent_dispatches_reserved b))].

(** [Budget( **value)] *)
Definition budget_of (j : json) : result Budget.t :=
  let* v := as_obj j in
  let* token_limit := at_ v "token_limit" (as_opt as_int) in
  let* tool_call_limit := at_ v "tool_call_limit" (as_opt as_int) in
  let* agent_dispatch_limit := at_ v "agent_dispatch_limit" (as_opt as_int) in
  let* tokens_used := at_ v "tokens_used" as_int in
  let* tokens_reserved := at_ v "tokens_reserved" as_int in
  let* tool_calls_used := at_ v "tool_calls_used" as_int in
  let* tool_calls_reserved := at_ v "tool_calls_reserved" as_int in
  let* agent_dispatches_used := at_ v "agent_dispatches_used" as_int in
  let* agent_dispatches_reserved := at_ v "agent_dispatches_reserved" as_int in
  Budget.new (Budget.mk token_limit tool_call_limit agent_dispatch_limit tokens_used
    tokens_reserved tool_calls_used tool_calls_reserved agent_dispatches_used
    agent_dispatches_reserved).

(** [RetryPolicy( **value)], [CheckRequirement( **value)] and the review bindings; their
    [_primitive] is the payload of the same fields in [Digests]. *)
Definition retry_of (j : json) : result RetryPolicy.t :=
  let* v := as_obj j in
  let* max_attempts_ := at_ v "max_attempts" as_int in
  let* initial_backoff_seconds_ := at_ v "initial_backoff_seconds" as_int in
  let* multiplier_ := at_ v "multiplier" as_int in
  let* max_backoff_seconds_ := at_ v "max_backoff_seconds" as_int in
  RetryPolicy.new (RetryPolicy.mk
    max_attempts_ initial_backoff_seconds_ multiplier_ max_backoff_seconds_).

Definition check_of (j : json) : result CheckRequirement.t :=
  let* v := as_obj j in
  let* check_id_ := at_ v "check_id" as_str in
  let* source_ := at_ v "source" as_str in
  let* policy_digest_ := at_ v "policy_digest" as_str in
  CheckRequirement.new (CheckRequirement.mk
    check_id_ source_ policy_digest_).

Definition binding_of (j : json) : result ReviewedTaskResultBinding.t :=
  let* v := as_obj j in
  let* task_id_ := at_ v "task_id" as_str in
  let* result_digest_ := at_ v "result_digest" as_str in
  ReviewedTaskResultBinding.new (ReviewedTaskResultBinding.mk
    task_id_ result_digest_).

Definition lease_primitive (x : Lease.t) : json :=
  JObj [
    ("token", JStr (Lease.token x));
    ("task_id", JStr (Lease.task_id x));
    ("agent_id", JStr (Lease.agent_id x));
    ("attempt", JInt (Lease.attempt x));
    ("acquired_at", jdt (Lease.acquired_at x));
    ("expires_at", jdt (Lease.expires_at x));
    ("task_contract_digest", JStr (Lease.task_contract_digest x));
    ("agent_contract_digest", JStr (Lease.agent_contract_digest x)) ].

(** [_lease(value)], for a value that is not null. *)
Definition lease_of (j : json) : result Lease.t :=
  let* v := as_obj j in
  let* token_ := at_ v "token" as_str in
  let* task_id_ := at_ v "task_id" as_str in
  let* agent_id_ := at_ v "agent_id" as_str in
  let* attempt_ := at_ v "attempt" as_int in
  let* acquired_at_ := at_ v "acquired_at" as_dt in
  let* expires_at_ := at_ v "expires_at" as_dt in
  let* task_contract_digest_ := at_ v "task_contract_digest" as_str in
  let* agent_contract_digest_ := at_ v "agent_contract_digest" as_str in
  Lease.new (Lease.mk
    token_ task_id_ agent_id_ attempt_ acquired_at_ expires_at_ task_contract_digest_
    agent_contract_digest_).

Definition run_primitive (x : Run.t) : json :=
  JObj [
    ("id", JStr (Run.id x));
    ("objective", JStr (Run.objective x));
    ("created_at", jdt (Run.created_at x));
    ("phase", JStr (RunPhase.value (Run.phase x)));
    ("coordination_stage", JStr (CoordinationStage.value (Run.coordination_stage x)));
    ("checkpoint_digest", jopt (Run.checkpoint_digest x));
    ("coordination_revision", JInt (Run.coordination_revision x));
    ("strict_user_coordination", JBool (Run.strict_user_coordination x));
    ("require_plan_approval", JBool (Run.require_plan_approval x));
    ("require_independent_critic", JBool (Run.require_independent_critic x));
    ("task_inventory_digest", jopt (Run.task_inventory_digest x));
    ("plan_digest", jopt (Run.plan_digest x));
    ("max_concurrency", JInt (Run.max_concurrency x));
    ("budget", budget_primitive (Run.budget x));
    ("revision", JInt (Run.revision x)) ].

(** [_run(value)] *)
Definition run_of (j : json) : result Run.t :=
  let* v := as_obj j in
  let* id_ := at_ v "id" as_str in
  let* objective_ := at_ v "objective" as_str in
  let* created_at_ := at_ v "created_at" as_dt in
  let* phase_ := at_ v "phase" (as_enum run_phases RunPhase.value) in
  let* coordination_stage_ := at_ v "coordination_stage" (as_enum coordination_stages CoordinationStage.value) in
  let* checkpoint_digest_ := at_ v "checkpoint_digest" (as_opt as_str) in
  let* coordination_revision_ := at_ v "coordination_revision" as_int in
  let* strict_user_coordination_ := at_ v "strict_user_coordination" as_bool in
  let* require_plan_approval_ := at_ v "require_plan_approval" as_bool in
  let* require_independent_critic_ := at_ v "require_independent_critic" as_bool in
  let* task_inventory_digest_ := at_ v "task_inventory_digest" (as_opt as_str) in
  let* plan_digest_ := at_ v "plan_digest" (as_opt as_str) in
  let* max_concurrency_ := at_ v "max_concurrency" as_int in
  let* budget_ := at_ v "budget" budget_of in
  let* revision_ := at_ v "revision" as_int in
  Run.new (Run.mk
    id_ objective_ created_at_ phase_ coordination_stage_ checkpoint_digest_
    coordination_revision_ strict_user_coordination_ require_plan_approval_
    require_independent_critic_ task_inventory_digest_ plan_digest_ max_concurrency_ budget_
    revision_).

Definition task_primitive (x : Task.t) : json :=
  JObj [
    ("id", JStr (Task.id x));
    ("run_id", JStr (Task.run_id x));
    ("title", JStr (Task.title x));
    ("instructions", JStr (Task.instructions x));
    ("kind", JStr (TaskKind.value (Task.kind x)));
    ("created_seq", JInt (Task.created_seq x));
    ("priority", JInt (Task.priority x));
    ("wave", JInt (Task.wave x));
    ("dependencies", jstrs (Task.dependencies x));
    ("required_capabilities", jstrs (Task.required_capabilities x));
    ("required_agent_class", jopt (AgentClass.value <$> Task.required_agent_class x));
    ("excluded_agent_ids", jstrs (Task.excluded_agent_ids x));
    ("risk_class", JStr (RiskClass.value (Task.risk_class x)));
    ("input_revision", jopt (Task.input_revision x));
    ("output_schema_digest", jopt (Task.output_schema_digest x));
    ("idempotency_key", jopt (Task.idempotency_key x));
    ("required_checks", JArr (check_payload <$> Task.required_checks x));
    ("reviewed_task_ids", jstrs (Task.reviewed_task_ids x));
    ("reviewed_result_bindings", JArr (binding_payload <$> Task.reviewed_result_bindings x));
    ("estimated_tokens", JInt (Task.estimated_tokens x));
    ("retry_policy", retry_payload (Task.retry_policy x));
    ("state", JStr (TaskState.value (Task.state x)));
    ("attempt", JInt (Task.attempt x));
    ("next_eligible_at", jdt_opt (Task.next_eligible_at x));
    ("lease", from_option lease_primitive JNull (Task.lease x));
    ("result_evidence_ids", jstrs (Task.result_evidence_ids x));
    ("completed_by_agent_id", jopt (Task.completed_by_agent_id x));
    ("failure_code", jopt (Task.failure_code x));
    ("failure_message", jopt (Task.failure_message x)) ].

(** [_task(value)] *)
Definition task_of (j : json) : result Task.t :=
  let* v := as_obj j in
  let* id_ := at_ v "id" as_str in
  let* run_id_ := at_ v "run_id" as_str in
  let* title_ := at_ v "title" as_str in
  let* instructions_ := at_ v "instructions" as_str in
  let* kind_ := at_ v "kind" (as_enum task_kinds TaskKind.value) in
  let* created_seq_ := at_ v "created_seq" as_int in
  let* priority_ := at_ v "priority" as_int in
  let* wave_ := at_ v "wave" as_int in
  let* dependencies_ := at_ v "dependencies" (as_list as_str) in
  let* required_capabilities_ := at_ v "required_capabilities" (as_list as_str) in
  let* required_agent_class_ := at_ v "required_agent_class" (as_opt (as_enum agent_classes AgentClass.value)) in
  let* excluded_agent_ids_ := at_ v "excluded_agent_ids" (as_list as_str) in
  let* risk_class_ := at_ v "risk_class" (as_enum risk_classes RiskClass.value) in
  let* input_revision_ := at_ v "input_revision" (as_opt as_str) in
  let* output_schema_digest_ := at_ v "output_schema_digest" (as_opt as_str) in
  let* idempotency_key_ := at_ v "idempotency_key" (as_opt as_str) in
  let* required_checks_ := at_ v "required_checks" (as_list check_of) in
  let* reviewed_task_ids_ := at_ v "reviewed_task_ids" (as_list as_str) in
  let* reviewed_result_bindings_ := at_ v "reviewed_result_bindings" (as_list binding_of) in
  let* estimated_tokens_ := at_ v "estimated_tokens" as_int in
  let* retry_policy_ := at_ v "retry_policy" retry_of in
  let* state_ := at_ v "state" (as_enum task_states TaskState.value) in
  let* attempt_ := at_ v "attempt" as_int in
  let* next_eligible_at_ := at_ v "next_eligible_at" (as_opt as_dt) in
  let* lease_ := at_ v "lease" (as_opt lease_of) in
  let* result_evidence_ids_ := at_ v "result_evidence_ids" (as_list as_str) in
  let* completed_by_agent_id_ := at_ v "completed_by_agent_id" (as_opt as_str) in
  let* failure_code_ := at_ v "failure_code" (as_opt as_str) in
  let* failure_message_ := at_ v "failure_message" (as_opt as_str) in
  Task.new (Task.mk
    id_ run_id_ title_ instructions_ kind_ created_seq_ priority_ wave_ dependencies_
    required_capabilities_ required_agent_class_ excluded_agent_ids_ risk_class_
    input_revision_ output_schema_digest_ idempotency_key_ required_checks_
    reviewed_task_ids_ reviewed_result_bindings_ estimated_tokens_ retry_policy_ state_
    attempt_ next_eligible_at_ lease_ result_evidence_ids_ completed_by_agent_id_
    failure_code_ failure_message_).

Definition agent_primitive (x : Agent.t) : json :=
  JObj [
    ("id", JStr (Agent.id x));
    ("run_id", JStr (Agent.run_id x));
    ("name", JStr (Agent.name x));
    ("created_seq", JInt (Agent.created_seq x));
    ("agent_class", JStr (AgentClass.value (Agent.agent_class x)));
    ("parent_agent_id", jopt (Agent.parent_agent_id x));
    ("capabilities", jstrs (Agent.capabilities x));
    ("state", JStr (AgentState.value (Agent.state x)));
    ("wave", JInt (Agent.wave x));
    ("current_task_id", jopt (Agent.current_task_id x));
    ("last_heartbeat_at", jdt_opt (Agent.last_heartbeat_at x)) ].

(** [_agent(value)] *)
Definition agent_of (j : json) : result Agent.t :=
  let* v := as_obj j in
  let* id_ := at_ v "id" as_str in
  let* run_id_ := at_ v "run_id" as_str in
  let* name_ := at_ v "name" as_str in
  let* created_seq_ := at_ v "created_seq" as_int in
  let* agent_class_ := at_ v "agent_class" (as_enum agent_classes AgentClass.value) in
  let* parent_agent_id_ := at_ v "parent_agent_id" (as_opt as_str) in
  let* capabilities_ := at_ v "capabilities" (as_list as_str) in
  let* state_ := at_ v "state" (as_enum agent_states AgentState.value) in
  let* wave_ := at_ v "wave" as_int in
  let* current_task_id_ := at_ v "current_task_id" (as_opt as_str) in
  let* last_heartbeat_at_ := at_ v "last_heartbeat_at" (as_opt as_dt) in
  Agent.new (Agent.mk
    id_ run_id_ name_ created_seq_ agent_class_ parent_agent_id_ capabilities_ state_ wave_
    current_task_id_ last_heartbeat_at_).

Definition question_primitive (x : Question.t) : json :=
  JObj [
    ("id", JStr (Question.id x));
    ("run_id", JStr (Question.run_id x));
    ("prompt", JStr (Question.prompt x));
    ("rationale", JStr (Question.rationale x));
    ("asked_at", jdt (Question.asked_at x));
    ("blocking", JBool (Question.blocking x));
    ("options", jstrs (Question.options x));
    ("recommendation", jopt (Question.recommendation x));
    ("confidence_basis_points", jint_opt (Question.confidence_basis_points x));
    ("allow_custom_answer", JBool (Question.allow_custom_answer x));
    ("bound_revision", jopt (Question.bound_revision x));
    ("affected_artifact_ids", jstrs (Question.affected_artifact_ids x));
    ("dependent_decision_ids", jstrs (Question.dependent_decision_ids x));
    ("state", JStr (QuestionState.value (Question.state x)));
    ("answer", jopt (Question.answer x));
    ("answered_by", jopt (Question.answered_by x));
    ("answered_at", jdt_opt (Question.answered_at x)) ].

(** [_question(value)] *)
Definition question_of (j : json) : result Question.t :=
  let* v := as_obj j in
  let* id_ := at_ v "id" as_str in
  let* run_id_ := at_ v "run_id" as_str in
  let* prompt_ := at_ v "prompt" as_str in
  let* rationale_ := at_ v "rationale" as_str in
  let* asked_at_ := at_ v "asked_at" as_dt in
  let* blocking_ := at_ v "blocking" as_bool in
  let* options_ := at_ v "options" (as_list as_str) in
  let* recommendation_ := at_ v "recommendation" (as_opt as_str) in
  let* confidence_basis_points_ := at_ v "confidence_basis_points" (as_opt as_int) in
  let* allow_custom_answer_ := at_ v "allow_custom_answer" as_bool in
  let* bound_revision_ := at_ v "bound_revision" (as_opt as_str) in
  let* affected_artifact_ids_ := at_ v "affected_artifact_ids" (as_list as_str) in
  let* dependent_decision_ids_ := at_ v "dependent_decision_ids" (as_list as_str) in
  let* state_ := at_ v "state" (as_enum question_states QuestionState.value) in
  let* answer_ := at_ v "answer" (as_opt as_str) in
  let* answered_by_ := at_ v "answered_by" (as_opt as_str) in
  let* answered_at_ := at_ v "answered_at" (as_opt as_dt) in
  Question.new (Question.mk
    id_ run_id_ prompt_ rationale_ asked_at_ blocking_ options_ recommendation_
    confidence_basis_points_ allow_custom_answer_ bound_revision_ affected_artifact_ids_
    dependent_decision_ids_ state_ answer_ answered_by_ answered_at_).

Definition approval_primitive (x : Approval.t) : json :=
  JObj [
    ("id", JStr (Approval.id x));
    ("run_id", JStr (Approval.run_id x));
    ("kind", JStr (ApprovalKind.value (Approval.kind x)));
    ("subject_digest", JStr (Approval.subject_digest x));
    ("summary", JStr (Approval.summary x));
    ("requested_at", jdt (Approval.requested_at x));
    ("expires_at", jdt_opt (Approval.expires_at x));
    ("state", JStr (ApprovalState.value (Approval.state x)));
    ("decided_by", jopt (Approval.decided_by x));
    ("decided_at", jdt_opt (Approval.decided_at x));
    ("reason", jopt (Approval.reason x)) ].

(** [_approval(value)] *)
Definition approval_of (j : json) : result Approval.t :=
  let* v := as_obj j in
  let* id_ := at_ v "id" as_str in
  let* run_id_ := at_ v "run_id" as_str in
  let* kind_ := at_ v "kind" (as_enum approval_kinds ApprovalKind.value) in
  let* subject_digest_ := at_ v "subject_digest" as_str in
  let* summary_ := at_ v "summary" as_str in
  let* requested_at_ := at_ v "requested_at" as_dt in
  let* expires_at_ := at_ v "expires_at" (as_opt as_dt) in
  let* state_ := at_ v "state" (as_enum approval_states ApprovalState.value) in
  let* decided_by_ := at_ v "decided_by" (as_opt as_str) in
  let* decided_at_ := at_ v "decided_at" (as_opt as_dt) in
  let* reason_ := at_ v "reason" (as_opt as_str) in
  Approval.new (Approval.mk
    id_ run_id_ kind_ subject_digest_ summary_ requested_at_ expires_at_ state_ decided_by_
    decided_at_ reason_).

Definition evidence_primitive (x : Evidence.t) : json :=
  JObj [
    ("id", JStr (Evidence.id x));
    ("run_id", JStr (Evidence.run_id x));
    ("kind", JStr (EvidenceKind.value (Evidence.kind x)));
    ("source", JStr (Evidence.source x));
    ("content_digest", JStr (Evidence.content_digest x));
    ("summary", JStr (Evidence.summary x));
    ("captured_at", jdt (Evidence.captured_at x));
    ("task_id", jopt (Evidence.task_id x));
    ("check_id", jopt (Evidence.check_id x));
    ("policy_digest", jopt (Evidence.policy_digest x));
    ("passed", jbool_opt (Evidence.passed x));
    ("metadata_json", JStr (Evidence.metadata_json x)) ].

(** [_evidence(value)] *)
Definition evidence_of (j : json) : result Evidence.t :=
  let* v := as_obj j in
  let* id_ := at_ v "id" as_str in
  let* run_id_ := at_ v "run_id" as_str in
  let* kind_ := at_ v "kind" (as_enum evidence_kinds EvidenceKind.value) in
  let* source_ := at_ v "source" as_str in
  let* content_digest_ := at_ v "content_digest" as_str in
  let* summary_ := at_ v "summary" as_str in
  let* captured_at_ := at_ v "captured_at" as_dt in
  let* task_id_ := at_ v "task_id" (as_opt as_str) in
  let* check_id_ := at_ v "check_id" (as_opt as_str) in
  let* policy_digest_ := at_ v "policy_digest" (as_opt as_str) in
  let* passed_ := at_ v "passed" (as_opt as_bool) in
  let* metadata_json_ := at_ v "metadata_json" as_str in
  Evidence.new (Evidence.mk
    id_ run_id_ kind_ source_ content_digest_ summary_ captured_at_ task_id_ check_id_
    policy_digest_ passed_ metadata_json_).

Definition event_primitive (x : OrchestrationEvent.t) : json :=
  JObj [
    ("id", JStr (OrchestrationEvent.id x));
    ("run_id", JStr (OrchestrationEvent.run_id x));
    ("sequence", JInt (OrchestrationEvent.sequence x));
    ("type", JStr (EventType.value (OrchestrationEvent.type x)));
    ("actor", JStr (OrchestrationEvent.actor x));
    ("occurred_at", jdt (OrchestrationEvent.occurred_at x));
    ("aggregate_id", JStr (OrchestrationEvent.aggregate_id x));
    ("payload_json", JStr (OrchestrationEvent.payload_json x));
    ("evidence_ids", jstrs (OrchestrationEvent.evidence_ids x));
    ("previous_hash", JStr (OrchestrationEvent.previous_hash x));
    ("event_hash", JStr (OrchestrationEvent.event_hash x)) ].

(** [_event(value)] *)
Definition event_of (j : json) : result OrchestrationEvent.t :=
  let* v := as_obj j in
  let* id_ := at_ v "id" as_str in
  let* run_id_ := at_ v "run_id" as_str in
  let* sequence_ := at_ v "sequence" as_int in
  let* type_ := at_ v "type" (as_enum event_types EventType.value) in
  let* actor_ := at_ v "actor" as_str in
  let* occurred_at_ := at_ v "occurred_at" as_dt in
  let* aggregate_id_ := at_ v "aggregate_id" as_str in
  let* payload_json_ := at_ v "payload_json" as_str in
  let* evidence_ids_ := at_ v "evidence_ids" (as_list as_str) in
  let* previous_hash_ := at_ v "previous_hash" as_str in
  let* event_hash_ := at_ v "event_hash" as_str in
  OrchestrationEvent.new (OrchestrationEvent.mk
    id_ run_id_ sequence_ type_ actor_ occurred_at_ aggregate_id_ payload_json_
    evidence_ids_ previous_hash_ event_hash_).

(** ** Bodies *)

(** [_body(value)], given [_primitive(value)]. *)
Definition body (primitive : json) : string := canonical_json primitive.

(** The exceptions that [_decode_record] turns into [SnapshotIntegrityError]. *)
Definition malformed_class (c : exn_class) : bool :=
  is_a c ValueError || is_a c KeyError || is_a c TypeError.

(** [_decode_record(raw, decoder, label)] *)
Definition decode_record {R} (primitive : R -> json) (decoder : json -> result R)
    (raw label : string) : result R :=
  match loads raw with
  | None => Err (SnapshotErr (label +:+ " body is malformed"))
  | Some (JObj kvs) =>
    match decoder (JObj kvs) with
    | Ok record =>
      raise_if (negb (bool_decide (body (primitive record) = raw)))
        (SnapshotErr (label +:+ " body is not the exact canonical record")) ;;;
      Ok record
    | Err e =>
      if malformed_class (exn_cls e) then Err (SnapshotErr (label +:+ " body is malformed"))
      else Err e
    end
  | Some _ => Err (SnapshotErr (label +:+ " body must be an object"))
  end.

(** ** The interface the store uses *)

(** A record type with its [_primitive] and its decoder. *)
Class Stored (R : Type) := {
  primitive : R -> json;
  decoder : json -> result R;
}.
#[export] Instance stored_run : Stored Run.t := { primitive := run_primitive; decoder := run_of }.
#[export] Instance stored_task : Stored Task.t := { primitive := task_primitive; decoder := task_of }.
#[export] Instance stored_agent : Stored Agent.t :=
  { primitive := agent_primitive; decoder := agent_of }.
#[export] Instance stored_question : Stored Question.t :=
  { primitive := question_primitive; decoder := question_of }.
#[export] Instance stored_approval : Stored Approval.t :=
  { primitive := approval_primitive; decoder := approval_of }.
#[export] Instance stored_evidence : Stored Evidence.t :=
  { primitive := evidence_primitive; decoder := evidence_of }.
#[export] Instance stored_event : Stored OrchestrationEvent.t :=
  { primitive := event_primitive; decoder := event_of }.

Definition record_body {R} `{Stored R} (r : R) : string := body (primitive r).
Definition decode_stored {R} `{Stored R} (raw label : string) : result R :=
  decode_record primitive decoder raw label.
