(* ===== verification/CodecFacts.v ===== *)
(** * Stored records are read back

    Decoding the body of a record that its constructor accepts gives the record
    again; and what decodes at all is the body of what it decodes to. *)
From S2P Require Import Prelude PyDict PyStr Sha256 Json DateTime Enums Models Digests DigestFacts Codec.

Local Open Scope string_scope.

(** ** Fields of a canonical object *)

Definition canon_fields (kvs : list (string * json)) : list (string * json) :=
  sorted_on fst ((fun '(k, v) => (k, canon v)) <$> kvs).

Lemma as_obj_canon kvs : as_obj (canon (JObj kvs)) = Ok (canon_fields kvs).
Proof. done. Qed.

(** The members of an object. *)
Definition members_of (j : json) : list (string * json) :=
  match j with JObj kvs => kvs | _ => [] end.

Lemma canon_member kvs k v :
  NoDup kvs.*1 -> assoc_get k kvs = Some v -> assoc_get k (canon_fields kvs) = Some (canon v).
Proof.
  intros Hnd Hk. apply assoc_get_elem.
  - unfold canon_fields. rewrite sorted_on_Permutation, <- list_fmap_compose.
    by rewrite (list_fmap_ext (fst ∘ (λ '(k, v), (k, canon v))) fst) by (by intros ? []).
  - unfold canon_fields. rewrite elem_of_sorted_on, list_elem_of_fmap. exists (k, v).
    split; [done|]. by apply assoc_get_elem.
Qed.

(** One field of a decoder. *)
Lemma at_step {A B} fields k v (f : json -> result A) a (next : A -> result B) r :
  assoc_get k fields = Some v -> f v = Ok a -> next a = r -> bind (at_ fields k f) next = r.
Proof. unfold at_. by intros -> -> <-. Qed.

(** ** Fields that hold a value *)

Lemma as_str_canon s : as_str (canon (JStr s)) = Ok s.
Proof. done. Qed.
Lemma as_int_canon z : as_int (canon (JInt z)) = Ok z.
Proof. done. Qed.
Lemma as_bool_canon b : as_bool (canon (JBool b)) = Ok b.
Proof. done. Qed.
Lemma as_opt_str_canon o : as_opt as_str (canon (jopt o)) = Ok o.
Proof. by destruct o. Qed.
Lemma as_opt_int_canon o : as_opt as_int (canon (jint_opt o)) = Ok o.
Proof. by destruct o. Qed.
Lemma as_opt_bool_canon o : as_opt as_bool (canon (jbool_opt o)) = Ok o.
Proof. by destruct o. Qed.

Lemma as_list_canon {A} (f : A -> json) (g : json -> result A) l :
  (forall x, x ∈ l -> g (canon (f x)) = Ok x) -> as_list g (canon (JArr (f <$> l))) = Ok l.
Proof.
  simpl. rewrite <- list_fmap_compose. induction l as [|x l IH]; intros H; [done|].
  rewrite fmap_cons. cbn [mapM compose]. rewrite H by (by left). cbn [bind].
  rewrite IH; [done|]. intros y Hy. apply H. by right.
Qed.
Lemma as_strs_canon l : as_list as_str (canon (jstrs l)) = Ok l.
Proof. by apply as_list_canon. Qed.

Lemma as_dt_canon d : dt_wf d -> as_dt (canon (jdt d)) = Ok d.
Proof. intros H. unfold as_dt. cbn. by apply fromisoformat_isoformat. Qed.
Lemma as_opt_dt_canon o : (forall d, o = Some d -> dt_wf d) -> as_opt as_dt (canon (jdt_opt o)) = Ok o.
Proof.
  destruct o as [d|]; [|done]. intros H. specialize (H d eq_refl).
  change (as_opt as_dt (canon (jdt_opt (Some d))))
    with (let* a := as_dt (canon (jdt d)) in Ok (Some a)).
  by rewrite as_dt_canon.
Qed.

(** An enumeration whose members have distinct values and are all listed. *)
Lemma as_enum_canon {E} (all : list E) (value : E -> string) e :
  (forall x y, value x = value y -> x = y) -> (forall x, x ∈ all) ->
  as_enum all value (canon (JStr (value e))) = Ok e.
Proof.
  intros Hinj Hall. unfold as_enum. cbn [as_str canon bind].
  destruct (filter _ all) as [|x l] eqn:Ef.
  - assert (e ∈ filter (fun x => value x = value e) all) as Hin
      by (apply list_elem_of_filter; split; [done|apply Hall]).
    rewrite Ef in Hin. by apply elem_of_nil in Hin.
  - assert (x ∈ filter (fun x => value x = value e) all) as Hin by (rewrite Ef; by left).
    apply list_elem_of_filter in Hin as [Hx _]. by rewrite (Hinj _ _ Hx).
Qed.

Lemma as_opt_enum_canon {E} (all : list E) (value : E -> string) o :
  (forall x y, value x = value y -> x = y) -> (forall x, x ∈ all) ->
  as_opt (as_enum all value) (canon (jopt (value <$> o))) = Ok o.
Proof.
  intros Hinj Hall. destruct o as [e|]; [|done]. pose proof (as_enum_canon all value e Hinj Hall) as H.
  change ((let* a := as_enum all value (canon (JStr (value e))) in Ok (Some a)) = Ok (Some e)).
  by rewrite H.
Qed.

Ltac listed := let x := fresh in intros x; destruct x; repeat first [by left|right].
Ltac distinct := let x := fresh in let y := fresh in intros x y; by destruct x, y.

Ltac decode_value :=
  first
    [ exact (as_str_canon _) | exact (as_int_canon _) | exact (as_bool_canon _)
    | exact (as_opt_str_canon _) | exact (as_opt_int_canon _) | exact (as_opt_bool_canon _)
    | exact (as_strs_canon _) | apply as_dt_canon; assumption | apply as_opt_dt_canon; assumption
    | apply as_enum_canon; [distinct|listed] | apply as_opt_enum_canon; [distinct|listed]
    | eassumption ].

(** Read every field of the object [j]. *)
Ltac decode_fields j :=
  let kvs := constr:(members_of j) in
  let Hf := fresh "Hf" in
  assert (forall k v, assoc_get k kvs = Some v -> assoc_get k (canon_fields kvs) = Some (canon v)) as Hf
    by (intros k v; apply canon_member; keys_NoDup);
  change (canon j) with (JObj (canon_fields kvs)); cbn [as_obj bind];
  generalize dependent (canon_fields kvs); intros fields Hf;
  repeat (eapply at_step; [apply Hf; reflexivity|decode_value|cbv beta]).

(** ** Each record *)

Lemma new_Ok_eq {A} (c : result unit) (x : A) : c = Ok tt -> (c ;;; Ok x) = Ok x.
Proof. by intros ->. Qed.

Lemma budget_roundtrip b :
  Budget.post_init b = Ok tt -> budget_of (canon (budget_primitive b)) = Ok b.
Proof.
  intros Hv. unfold budget_of. decode_fields (budget_primitive b).
  by destruct b; apply new_Ok_eq.
Qed.

Lemma retry_roundtrip p :
  RetryPolicy.post_init p = Ok tt -> retry_of (canon (retry_payload p)) = Ok p.
Proof.
  intros Hv. unfold retry_of. decode_fields (retry_payload p).
  by destruct p; apply new_Ok_eq.
Qed.

Lemma check_roundtrip c :
  CheckRequirement.post_init c = Ok tt -> check_of (canon (check_payload c)) = Ok c.
Proof.
  intros Hv. unfold check_of. decode_fields (check_payload c).
  by destruct c; apply new_Ok_eq.
Qed.

Lemma binding_roundtrip b :
  ReviewedTaskResultBinding.post_init b = Ok tt -> binding_of (canon (binding_payload b)) = Ok b.
Proof.
  intros Hv. unfold binding_of. decode_fields (binding_payload b).
  by destruct b; apply new_Ok_eq.
Qed.

Lemma lease_roundtrip l :
  Lease.post_init l = Ok tt -> dt_wf (Lease.acquired_at l) -> dt_wf (Lease.expires_at l) ->
  lease_of (canon (lease_primitive l)) = Ok l.
Proof.
  intros Hv Ha He. unfold lease_of. decode_fields (lease_primitive l).
  by destruct l; apply new_Ok_eq.
Qed.

(** What the constructors of a record and of its parts guarantee. *)
Record run_ok (x : Run.t) : Prop := {
  ro_valid : Run.post_init x = Ok tt;
  ro_budget : Budget.post_init (Run.budget x) = Ok tt;
  ro_created : dt_wf (Run.created_at x);
}.
Record lease_ok (l : Lease.t) : Prop := {
  lo_valid : Lease.post_init l = Ok tt;
  lo_acquired : dt_wf (Lease.acquired_at l);
  lo_expires : dt_wf (Lease.expires_at l);
}.
Record task_ok (x : Task.t) : Prop := {
  to_valid : Task.post_init x = Ok tt;
  to_checks : forall c, c ∈ Task.required_checks x -> CheckRequirement.post_init c = Ok tt;
  to_bindings : forall b, b ∈ Task.reviewed_result_bindings x ->
    ReviewedTaskResultBinding.post_init b = Ok tt;
  to_retry : RetryPolicy.post_init (Task.retry_policy x) = Ok tt;
  to_next : forall d, Task.next_eligible_at x = Some d -> dt_wf d;
  to_lease : forall l, Task.lease x = Some l -> lease_ok l;
}.
Record agent_ok (x : Agent.t) : Prop := {
  ao_valid : Agent.post_init x = Ok tt;
  ao_heartbeat : forall d, Agent.last_heartbeat_at x = Some d -> dt_wf d;
}.
Record question_ok (x : Question.t) : Prop := {
  qo_valid : Question.post_init x = Ok tt;
  qo_asked : dt_wf (Question.asked_at x);
  qo_answered : forall d, Question.answered_at x = Some d -> dt_wf d;
}.
Record approval_ok (x : Approval.t) : Prop := {
  po_valid : Approval.post_init x = Ok tt;
  po_requested : dt_wf (Approval.requested_at x);
  po_expires : forall d, Approval.expires_at x = Some d -> dt_wf d;
  po_decided : forall d, Approval.decided_at x = Some d -> dt_wf d;
}.
Record evidence_ok (x : Evidence.t) : Prop := {
  eo_valid : Evidence.post_init x = Ok tt;
  eo_captured : dt_wf (Evidence.captured_at x);
}.
Record event_ok (x : OrchestrationEvent.t) : Prop := {
  vo_valid : OrchestrationEvent.post_init x = Ok tt;
  vo_occurred : dt_wf (OrchestrationEvent.occurred_at x);
}.

Lemma run_roundtrip x : run_ok x -> run_of (canon (run_primitive x)) = Ok x.
Proof.
  intros [Hv Hb%budget_roundtrip Hc]. unfold run_of. decode_fields (run_primitive x).
  by destruct x; apply new_Ok_eq.
Qed.

Lemma as_opt_lease_canon o :
  (forall l, o = Some l -> lease_ok l) ->
  as_opt lease_of (canon (from_option lease_primitive JNull o)) = Ok o.
Proof.
  destruct o as [l|]; [|done]. intros H. destruct (H l eq_refl) as [Hv Ha He].
  change ((let* a := lease_of (canon (lease_primitive l)) in Ok (Some a)) = Ok (Some l)).
  by rewrite lease_roundtrip.
Qed.

Lemma task_roundtrip x : task_ok x -> task_of (canon (task_primitive x)) = Ok x.
Proof.
  intros [Hv Hc Hb Hr%retry_roundtrip Hn Hl].
  pose proof (as_list_canon check_payload check_of _ (fun c Hin => check_roundtrip c (Hc c Hin))) as Hcs.
  pose proof (as_list_canon binding_payload binding_of _ (fun b Hin => binding_roundtrip b (Hb b Hin)))
    as Hbs.
  pose proof (as_opt_lease_canon _ Hl) as Hls.
  unfold task_of. decode_fields (task_primitive x).
  by destruct x; apply new_Ok_eq.
Qed.

Lemma agent_roundtrip x : agent_ok x -> agent_of (canon (agent_primitive x)) = Ok x.
Proof.
  intros [Hv Hh]. unfold agent_of. decode_fields (agent_primitive x).
  by destruct x; apply new_Ok_eq.
Qed.

Lemma question_roundtrip x : question_ok x -> question_of (canon (question_primitive x)) = Ok x.
Proof.
  intros [Hv Ha Hd]. unfold question_of. decode_fields (question_primitive x).
  by destruct x; apply new_Ok_eq.
Qed.

Lemma approval_roundtrip x : approval_ok x -> approval_of (canon (approval_primitive x)) = Ok x.
Proof.
  intros [Hv Ha He Hd]. unfold approval_of. decode_fields (approval_primitive x).
  by destruct x; apply new_Ok_eq.
Qed.

Lemma evidence_roundtrip x : evidence_ok x -> evidence_of (canon (evidence_primitive x)) = Ok x.
Proof.
  intros [Hv Ha]. unfold evidence_of. decode_fields (evidence_primitive x).
  by destruct x; apply new_Ok_eq.
Qed.

Lemma event_roundtrip x : event_ok x -> event_of (canon (event_primitive x)) = Ok x.
Proof.
  intros [Hv Ha]. unfold event_of. decode_fields (event_primitive x).
  by destruct x; apply new_Ok_eq.
Qed.

(** ** The interface, with its laws *)

(** What the store relies on: a record that its constructor accepts is rebuilt
    from its value. *)
Class StoredLaws (R : Type) `{Stored R} := {
  storable : R -> Prop;
  stored_object : forall r, exists kvs, primitive r = JObj kvs;
  stored_wf : forall r, json_wf (primitive r);
  stored_decode : forall r, storable r -> decoder (canon (primitive r)) = Ok r;
}.

Lemma jint_opt_wf o : json_wf (jint_opt o).
Proof. destruct o; constructor. Qed.
Lemma jbool_opt_wf o : json_wf (jbool_opt o).
Proof. destruct o; constructor. Qed.
Lemma jdt_wf d : json_wf (jdt d).
Proof. constructor. Qed.
Lemma jdt_opt_wf o : json_wf (jdt_opt o).
Proof. destruct o; constructor. Qed.
#[local] Hint Resolve jint_opt_wf jbool_opt_wf jdt_wf jdt_opt_wf : json_wf.

Lemma budget_primitive_wf b : json_wf (budget_primitive b).
Proof. obj_wf; auto with json_wf. Qed.
Lemma lease_primitive_wf l : json_wf (lease_primitive l).
Proof. obj_wf; auto with json_wf. Qed.
Lemma lease_opt_wf o : json_wf (from_option lease_primitive JNull o).
Proof. destruct o; [apply lease_primitive_wf|constructor]. Qed.
#[local] Hint Resolve budget_primitive_wf lease_opt_wf : json_wf.

#[export] Instance stored_run_laws : StoredLaws Run.t.
Proof.
  refine {| storable := run_ok; stored_decode := run_roundtrip |};
    intros r; [by eexists|obj_wf; auto with json_wf].
Defined.
#[export] Instance stored_task_laws : StoredLaws Task.t.
Proof.
  refine {| storable := task_ok; stored_decode := task_roundtrip |};
    intros r; [by eexists|obj_wf; auto with json_wf].
Defined.
#[export] Instance stored_agent_laws : StoredLaws Agent.t.
Proof.
  refine {| storable := agent_ok; stored_decode := agent_roundtrip |};
    intros r; [by eexists|obj_wf; auto with json_wf].
Defined.
#[export] Instance stored_question_laws : StoredLaws Question.t.
Proof.
  refine {| storable := question_ok; stored_decode := question_roundtrip |};
    intros r; [by eexists|obj_wf; auto with json_wf].
Defined.
#[export] Instance stored_approval_laws : StoredLaws Approval.t.
Proof.
  refine {| storable := approval_ok; stored_decode := approval_roundtrip |};
    intros r; [by eexists|obj_wf; auto with json_wf].
Defined.
#[export] Instance stored_evidence_laws : StoredLaws Evidence.t.
Proof.
  refine {| storable := evidence_ok; stored_decode := evidence_roundtrip |};
    intros r; [by eexists|obj_wf; auto with json_wf].
Defined.
#[export] Instance stored_event_laws : StoredLaws OrchestrationEvent.t.
Proof.
  refine {| storable := event_ok; stored_decode := event_roundtrip |};
    intros r; [by eexists|obj_wf; auto with json_wf].
Defined.

Section stored.
Context {R : Type} `{StoredLaws R}.

(** Reading a stored body back. *)
Lemma decode_body r label : storable r -> decode_stored (record_body r) label = Ok r.
Proof.
  intros Hr. pose proof (stored_decode r Hr) as Hd. pose proof (stored_wf r) as Hw.
  destruct (stored_object r) as [kvs Ekvs].
  unfold decode_stored, decode_record, record_body, body.
  rewrite loads_canonical by exact Hw.
  assert (canon (primitive r) = JObj (canon_fields kvs)) as Ec by (by rewrite Ekvs).
  rewrite Ec in Hd |- *. rewrite Hd. by rewrite bool_decide_eq_true_2.
Qed.

(** Whatever decodes is the body of what it decodes to. *)
Lemma decode_stored_body (raw label : string) (r : R) :
  decode_stored raw label = Ok r -> raw = record_body r.
Proof.
  unfold decode_stored, decode_record, record_body.
  destruct (loads raw) as [[| | | | |kvs]|]; try done.
  destruct (decoder (JObj kvs)) as [r'|e]; [|by destruct (malformed_class _)].
  rewrite seq_Ok, raise_if_Ok, negb_false_iff, bool_decide_eq_true. by intros [<- <-%Ok_inj].
Qed.
End stored.
