(* ===== verification/Store.v ===== *)
(** * The orchestrator store (backend/orchestrator/store.py)

    [SQLiteOrchestratorStore] over the tables it creates.  A table is the list
    of its rows; a statement fails as SQLite does (primary and unique keys,
    foreign keys, 64-bit integers) and leaves its table alone when it does.  An
    operation is a computation on the connection: the database and the nesting
    depth of [transaction], whose outermost level restores the database when
    the body raises.  Locking, the journal mode and other writers of the
    database file are not modelled. *)
From S2P Require Import Prelude PyDict PyStr Sha256 Json DateTime Enums Models Digests Effect Codec.

Local Open Scope string_scope.

(** ** Tables *)

(** The value of a column. *)
Inductive cell := CNull | CInt (z : Z) | CText (s : string).

#[export] Instance cell_eq_dec : EqDecision cell.
Proof. solve_decision. Defined.

(** Rows of the tables of records: id, run, indexed columns and body. *)
Record row := Row {
  row_id : string;
  row_run : string;
  row_cols : list (string * cell);
  row_body : string;
}.
Record run_row := RunRow {
  rr_id : string;
  rr_revision : Z;
  rr_phase : string;
  rr_body : string;
}.
Record event_row := EventRow {
  er_run : string;
  er_sequence : Z;
  er_id : string;
  er_previous : string;
  er_hash : string;
  er_body : string;
}.

Inductive table := TASKS | AGENTS | QUESTIONS | APPROVALS | EVIDENCE.

#[export] Instance table_eq_dec : EqDecision table.
Proof. solve_decision. Defined.

Definition table_name (t : table) : string :=
  match t with
  | TASKS => "tasks" | AGENTS => "agents" | QUESTIONS => "questions"
  | APPROVALS => "approvals" | EVIDENCE => "evidence"
  end.

Record database := Database {
  db_runs : list run_row;
  db_tasks : list row;
  db_agents : list row;
  db_questions : list row;
  db_approvals : list row;
  db_evidence : list row;
  db_events : list event_row;
}.
#[export] Instance database_eta : Settable database := fun d =>
  Database (db_runs d) (db_tasks d) (db_agents d) (db_questions d) (db_approvals d)
    (db_evidence d) (db_events d).

(** What [_initialize] creates. *)
Definition empty_database : database := Database [] [] [] [] [] [] [].

Definition rows (d : database) (t : table) : list row :=
  match t with
  | TASKS => db_tasks d | AGENTS => db_agents d | QUESTIONS => db_questions d
  | APPROVALS => db_approvals d | EVIDENCE => db_evidence d
  end.
Definition set_rows (d : database) (t : table) (l : list row) : database :=
  match t with
  | TASKS => d <| db_tasks := l |>
  | AGENTS => d <| db_agents := l |>
  | QUESTIONS => d <| db_questions := l |>
  | APPROVALS => d <| db_approvals := l |>
  | EVIDENCE => d <| db_evidence := l |>
  end.

(** ** Computations on the connection *)

Record conn := Conn { conn_db : database; conn_depth : nat }.

Definition M (A : Type) : Type := comp conn A.

Definition reads : M database := fun c => (c, Ok (conn_db c)).
Definition writes (d : database) : M unit := fun c => (Conn d (conn_depth c), Ok tt).

(** [with self.transaction(): m] *)
Definition transaction {A} (m : M A) : M A := fun c =>
  let '(c', r) := m (Conn (conn_db c) (S (conn_depth c))) in
  let d := match r with
           | Ok _ => conn_db c'
           | Err _ => if (conn_depth c =? 0)%nat then conn_db c else conn_db c'
           end in
  (Conn d (pred (conn_depth c')), r).

(** ** Statements *)

(** Binding a Python integer to a parameter. *)
Definition bind_int (z : Z) : result Z :=
  if ((- 2 ^ 63 <=? z) && (z <? 2 ^ 63))%Z then Ok z
  else Err (Exn OverflowError "Python int too large to convert to SQLite INTEGER").
Definition bind_cell (kv : string * cell) : result (string * cell) :=
  match kv with
  | (k, CInt z) => let* z := bind_int z in Ok (k, CInt z)
  | kv => Ok kv
  end.

Definition integrity_error (what : string) : exn := Exn SQLIntegrityError what.

Definition run_exists (d : database) (run_id : string) : bool :=
  existsb (fun r => bool_decide (rr_id r = run_id)) (db_runs d).

(** [INSERT INTO runs ...] *)
Definition insert_run (id : string) (revision : Z) (phase body : string) : M unit :=
  do revision <- lift (bind_int revision) in
  do d <- reads in
  if run_exists d id then throw (integrity_error "UNIQUE constraint failed: runs.id")
  else writes (d <| db_runs := (db_runs d ++ [RunRow id revision phase body])%list |>).

(** [UPDATE runs SET ... WHERE id = ? AND revision = ?], with its row count. *)
Definition update_run (id : string) (revision : Z) (phase body : string) (expected : Z) : M nat :=
  do revision <- lift (bind_int revision) in
  do expected <- lift (bind_int expected) in
  do d <- reads in
  let hit r := bool_decide (rr_id r = id) && (rr_revision r =? expected)%Z in
  writes (d <| db_runs :=
    (fun r => if hit r then RunRow (rr_id r) revision phase body else r) <$> db_runs d |>) >>;
  ret (length (filter (fun r => hit r = true) (db_runs d))).

(** [INSERT INTO t ... ON CONFLICT(id) DO UPDATE SET ... WHERE t.run_id = excluded.run_id],
    with its row count. *)
Definition upsert (t : table) (r : row) : M nat :=
  do cols <- lift (mapM bind_cell (row_cols r)) in
  let r := Row (row_id r) (row_run r) cols (row_body r) in
  do d <- reads in
  match filter (fun r' => row_id r' = row_id r) (rows d t) with
  | [] =>
    if run_exists d (row_run r) then writes (set_rows d t (rows d t ++ [r])%list) >>; ret 1%nat
    else throw (integrity_error "FOREIGN KEY constraint failed")
  | old :: _ =>
    if bool_decide (row_run old = row_run r) then
      writes (set_rows d t
        ((fun r' => if bool_decide (row_id r' = row_id r) then r else r') <$> rows d t)) >>;
      ret 1%nat
    else ret 0%nat
  end.

(** [INSERT INTO evidence ...] *)
Definition insert_evidence (r : row) : M unit :=
  do d <- reads in
  if existsb (fun r' => bool_decide (row_id r' = row_id r)) (db_evidence d)
  then throw (integrity_error "UNIQUE constraint failed: evidence.id")
  else if run_exists d (row_run r) then
    writes (d <| db_evidence := (db_evidence d ++ [r])%list |>)
  else throw (integrity_error "FOREIGN KEY constraint failed").

(** [INSERT INTO events ...] *)
Definition insert_event (r : event_row) : M unit :=
  do _ <- lift (bind_int (er_sequence r)) in
  do d <- reads in
  if existsb (fun r' => bool_decide (er_id r' = er_id r) ||
        bool_decide (er_run r' = er_run r) && (er_sequence r' =? er_sequence r)%Z) (db_events d)
  then throw (integrity_error "UNIQUE constraint failed: events")
  else if run_exists d (er_run r) then
    writes (d <| db_events := (db_events d ++ [r])%list |>)
  else throw (integrity_error "FOREIGN KEY constraint failed").

(** SQLite's order on column values: null, integers, texts. *)
Definition cell_key (c : cell) : Z * (Z * string) :=
  match c with CNull => (0, (0, ""))%Z | CInt z => (1, (z, ""))%Z | CText s => (2, (0, s))%Z end.
Definition col (r : row) (name : string) : cell := default CNull (assoc_get name (row_cols r)).

(** [ORDER BY wave, created_seq, id] and [ORDER BY id] *)
Definition task_row_order (r : row) : (Z * (Z * string)) * ((Z * (Z * string)) * string) :=
  (cell_key (col r "wave"), (cell_key (col r "created_seq"), row_id r)).
Definition id_order (r : row) : string := row_id r.

(** ** Reading records *)

(** A record type kept in a table of records: its id, its run and the columns
    that [_snapshot_index_matches] compares with it. *)
Class Tabled (R : Type) := {
  table_of : table;
  record_id : R -> string;
  record_run : R -> string;
  index_columns : R -> list (string * cell);
}.
#[export] Instance tabled_task : Tabled Task.t := {
  table_of := TASKS; record_id := Task.id; record_run := Task.run_id;
  index_columns x := [("state", CText (TaskState.value (Task.state x)));
                      ("wave", CInt (Task.wave x)); ("created_seq", CInt (Task.created_seq x))] }.
#[export] Instance tabled_agent : Tabled Agent.t := {
  table_of := AGENTS; record_id := Agent.id; record_run := Agent.run_id;
  index_columns x := [("state", CText (AgentState.value (Agent.state x)))] }.
#[export] Instance tabled_question : Tabled Question.t := {
  table_of := QUESTIONS; record_id := Question.id; record_run := Question.run_id;
  index_columns x := [("state", CText (QuestionState.value (Question.state x)))] }.
#[export] Instance tabled_approval : Tabled Approval.t := {
  table_of := APPROVALS; record_id := Approval.id; record_run := Approval.run_id;
  index_columns x := [("state", CText (ApprovalState.value (Approval.state x)));
                      ("subject_digest", CText (Approval.subject_digest x))] }.
#[export] Instance tabled_evidence : Tabled Evidence.t := {
  table_of := EVIDENCE; record_id := Evidence.id; record_run := Evidence.run_id;
  index_columns x := [("task_id", from_option CText CNull (Evidence.task_id x));
                      ("content_digest", CText (Evidence.content_digest x))] }.

(** [_snapshot_index_matches(table, row, record, requested_run_id)] *)
Definition index_matches {R} `{Tabled R} (r : row) (record : R) (requested : string) : bool :=
  bool_decide (record_id record = row_id r) && bool_decide (record_run record = row_run r) &&
  bool_decide (record_run record = requested) &&
  forallb (fun '(k, c) => bool_decide (col r k = c)) (index_columns record).

(** One row of [_list]. *)
Definition read_row {R} `{Stored R, Tabled R} (run_id : string) (r : row) : result R :=
  let name := table_name (table_of (R := R)) in
  let* record := decode_stored (row_body r) (name +:+ " record") in
  raise_if (negb (index_matches r record run_id)) (SnapshotErr (name +:+ " index/body mismatch")) ;;;
  Ok record.

(** [_list(table, run_id, decoder, order)] *)
Definition list_records (R : Type) `{Stored R, Tabled R} {K} `{PyOrd K} (order : row -> K)
    (run_id : string) : M (list R) :=
  do d <- reads in
  lift (mapM (read_row run_id) (sorted_on order
    (filter (fun r => row_run r = run_id) (rows d (table_of (R := R)))))).

Definition list_tasks : string -> M (list Task.t) := list_records Task.t task_row_order.
Definition list_agents : string -> M (list Agent.t) := list_records Agent.t id_order.
Definition list_questions : string -> M (list Question.t) := list_records Question.t id_order.
Definition list_approvals : string -> M (list Approval.t) := list_records Approval.t id_order.
Definition list_evidence : string -> M (list Evidence.t) := list_records Evidence.t id_order.

(** [get_run(run_id)] *)
Definition get_run (run_id : string) : M Run.t :=
  do d <- reads in
  match filter (fun r => rr_id r = run_id) (db_runs d) with
  | [] => throw (Exn NotFound ("run " +:+ run_id +:+ " not found"))
  | r :: _ =>
    do run <- lift (decode_stored (rr_body r) ("run " +:+ run_id)) in
    if negb (bool_decide (Run.id run = rr_id r)) || negb (Run.revision run =? rr_revision r)%Z ||
       negb (bool_decide (RunPhase.value (Run.phase run) = rr_phase r))
    then throw (SnapshotErr ("run " +:+ run_id +:+ " index/body mismatch"))
    else ret run
  end.

(** ** Events *)

Definition ChainErr (msg : string) : exn := Exn EventChainError msg.

(** One row of [list_events]: the event, if it agrees with its columns. *)
Definition read_event (r : event_row) : result OrchestrationEvent.t :=
  let seq := str_of_int (er_sequence r) in
  let* event := decode_stored (er_body r) ("event sequence " +:+ seq) in
  raise_if (negb (bool_decide (OrchestrationEvent.run_id event = er_run r)) ||
            negb (OrchestrationEvent.sequence event =? er_sequence r)%Z ||
            negb (bool_decide (OrchestrationEvent.id event = er_id r)) ||
            negb (bool_decide (OrchestrationEvent.previous_hash event = er_previous r)) ||
            negb (bool_decide (OrchestrationEvent.event_hash event = er_hash r)))
    (ChainErr ("event index/body mismatch at sequence " +:+ seq)) ;;;
  Ok event.

(** [except (DomainError, KeyError, SnapshotIntegrityError, TypeError)] *)
Definition event_malformed {A} (c : result A) : result A :=
  match c with
  | Ok a => Ok a
  | Err e =>
    let cls := exn_cls e in
    if is_a cls DomainError || is_a cls KeyError || is_a cls SnapshotIntegrityError ||
       is_a cls TypeError
    then Err (ChainErr "event body is malformed or has been modified") else Err e
  end.

(** The verification loop of [list_events]: the state is the previous hash and
    the expected sequence. *)
Definition verify_event (st : string * Z) (event : OrchestrationEvent.t) : result (string * Z) :=
  let '(previous, expected_sequence) := st in
  raise_if (negb (OrchestrationEvent.sequence event =? expected_sequence)%Z)
    (ChainErr "event chain has a sequence gap") ;;;
  let* bad := if negb (bool_decide (OrchestrationEvent.previous_hash event = previous)) then Ok true
              else let* valid := OrchestrationEvent.validate_hash event in Ok (negb valid) in
  raise_if bad (ChainErr ("event chain validation failed at sequence " +:+
    str_of_int (OrchestrationEvent.sequence event))) ;;;
  Ok (OrchestrationEvent.event_hash event, (expected_sequence + 1)%Z).

Definition verify_chain (events : list OrchestrationEvent.t) : result unit :=
  let* _ := foldM verify_event ("", 1%Z) events in Ok tt.

(** [list_events(run_id, verify=verify)] *)
Definition list_events (run_id : string) (verify : bool) : M (list OrchestrationEvent.t) :=
  do d <- reads in
  do events <- lift (event_malformed (mapM read_event
    (sorted_on er_sequence (filter (fun r => er_run r = run_id) (db_events d))))) in
  if verify then lift (verify_chain events) >>; ret events else ret events.

(** ** Writing *)

(** [_put_mutable(table, item_id, run_id, state, body, extras=extras)] *)
Definition put_mutable (t : table) (item_id run_id state body : string)
    (extras : list (string * cell)) : M unit :=
  if bool_decide (t = EVIDENCE) then throw (StoreErr ("unsupported mutable table " +:+ table_name t))
  else transaction (
    rethrow (
      do count <- upsert t (Row item_id run_id (("state", CText state) :: extras) body) in
      if (count =? 1)%nat then ret tt
      else throw (StoreErr ("cannot move " +:+ table_name t +:+ " record " +:+ item_id +:+
                            " between runs")))
      SQLIntegrityError
      (StoreErr ("cannot persist " +:+ table_name t +:+ " record " +:+ item_id))).

Definition put_task_unchecked (task : Task.t) : M unit :=
  put_mutable TASKS (Task.id task) (Task.run_id task) (TaskState.value (Task.state task))
    (record_body task)
    [("wave", CInt (Task.wave task)); ("created_seq", CInt (Task.created_seq task))].

(** The tasks of a run once [task] is written: the dict [tasks_by_id]. *)
Definition with_task_written (tasks : list Task.t) (task : Task.t) : list Task.t :=
  dict_values (<[Task.id task := task]> (dict_by Task.id tasks)).

Definition put_task (task : Task.t) : M unit :=
  transaction (
    do run <- get_run (Task.run_id task) in
    match Run.task_inventory_digest run with
    | None => ret tt
    | Some sealed =>
      do tasks <- list_tasks (Run.id run) in
      do digest <- lift (task_inventory_digest (Run.id run) (with_task_written tasks task)) in
      if bool_decide (digest = sealed) then ret tt
      else throw (StoreErr "task write would change the sealed task inventory")
    end >>;
    put_task_unchecked task).

Definition put_agent (agent : Agent.t) : M unit :=
  put_mutable AGENTS (Agent.id agent) (Agent.run_id agent) (AgentState.value (Agent.state agent))
    (record_body agent) [].
Definition put_question (question : Question.t) : M unit :=
  put_mutable QUESTIONS (Question.id question) (Question.run_id question)
    (QuestionState.value (Question.state question)) (record_body question) [].
Definition put_approval (approval : Approval.t) : M unit :=
  put_mutable APPROVALS (Approval.id approval) (Approval.run_id approval)
    (ApprovalState.value (Approval.state approval)) (record_body approval)
    [("subject_digest", CText (Approval.subject_digest approval))].

(** [str(task_id) if task_id else None] *)
Definition truthy_text (o : option string) : cell :=
  match o with Some s => if str_empty s then CNull else CText s | None => CNull end.

Definition capture_evidence (evidence : Evidence.t) : M unit :=
  transaction (rethrow
    (insert_evidence (Row (Evidence.id evidence) (Evidence.run_id evidence)
      [("task_id", truthy_text (Evidence.task_id evidence));
       ("content_digest", CText (Evidence.content_digest evidence))] (record_body evidence)))
    SQLIntegrityError
    (StoreErr ("evidence " +:+ Evidence.id evidence +:+ " already exists or is invalid"))).

(** [save_run(run, expected_revision=...)] *)
Definition save_new_run (run : Run.t) : M unit :=
  lift (raise_if (negb (Run.revision run =? 0)%Z)
    (Exn ConcurrencyConflict "new runs must start at revision zero")) >>;
  match Run.task_inventory_digest run with
  | None => ret tt
  | Some digest =>
    do none <- lift (task_inventory_digest (Run.id run) []) in
    lift (raise_if (negb (bool_decide (digest = none)))
      (StoreErr "a new run cannot seal tasks before its durable row exists"))
  end >>;
  rethrow (insert_run (Run.id run) (Run.revision run) (RunPhase.value (Run.phase run))
             (record_body run))
    SQLIntegrityError
    (Exn ConcurrencyConflict ("run " +:+ Run.id run +:+ " already exists")).

Definition save_run_update (run : Run.t) (expected_revision : Z) : M unit :=
  do current <- get_run (Run.id run) in
  lift (raise_if (negb (bool_decide (Run.task_inventory_digest current = None)) &&
             negb (bool_decide (Run.task_inventory_digest run = Run.task_inventory_digest current)))
    (StoreErr "a sealed task inventory digest is immutable")) >>;
  match Run.task_inventory_digest run with
  | None => ret tt
  | Some sealed =>
    do durable <- list_tasks (Run.id run) in
    do digest <- lift (task_inventory_digest (Run.id run) durable) in
    lift (raise_if (negb (bool_decide (digest = sealed)))
      (StoreErr "run task inventory does not match all durable task contracts"))
  end >>;
  lift (raise_if (negb (Run.revision run =? expected_revision + 1)%Z)
    (Exn ConcurrencyConflict "updated run revision must be exactly expected_revision + 1")) >>;
  do count <- update_run (Run.id run) (Run.revision run) (RunPhase.value (Run.phase run))
    (record_body run) expected_revision in
  if (count =? 1)%nat then ret tt
  else throw (Exn ConcurrencyConflict ("run " +:+ Run.id run +:+ " is not at revision " +:+
                                       str_of_int expected_revision)).

Definition save_run (run : Run.t) (expected_revision : option Z) : M unit :=
  transaction match expected_revision with
              | None => save_new_run run
              | Some expected => save_run_update run expected
              end.

(** The evidence of an event must be captured for its run. *)
Definition check_event_evidence (event : OrchestrationEvent.t) (evidence_id : string) : M unit :=
  do d <- reads in
  let missing := ChainErr ("event evidence " +:+ evidence_id +:+
                           " is missing or belongs to another run") in
  match filter (fun r => row_id r = evidence_id) (db_evidence d) with
  | [] => throw missing
  | r :: _ =>
    if bool_decide (row_run r = OrchestrationEvent.run_id event) then ret tt else throw missing
  end.

(** [append_event(event)] *)
Definition append_event (event : OrchestrationEvent.t) : M unit :=
  do valid <- lift (OrchestrationEvent.validate_hash event) in
  lift (raise_if (negb valid) (ChainErr "event contents fail their own digest")) >>;
  transaction (
    do existing <- list_events (OrchestrationEvent.run_id event) true in
    let tail := last existing in
    let expected_sequence :=
      match tail with None => 1 | Some t => OrchestrationEvent.sequence t + 1 end%Z in
    let expected_previous :=
      match tail with None => "" | Some t => OrchestrationEvent.event_hash t end in
    lift (raise_first [
      (negb (OrchestrationEvent.sequence event =? expected_sequence)%Z,
       ChainErr ("expected event sequence " +:+ str_of_int expected_sequence +:+ ", got " +:+
                 str_of_int (OrchestrationEvent.sequence event)));
      (negb (bool_decide (OrchestrationEvent.previous_hash event = expected_previous)),
       ChainErr "event previous_hash does not match durable tail") ]) >>;
    for_each (check_event_evidence event) (OrchestrationEvent.evidence_ids event) >>;
    rethrow (insert_event (EventRow (OrchestrationEvent.run_id event)
        (OrchestrationEvent.sequence event) (OrchestrationEvent.id event)
        (OrchestrationEvent.previous_hash event) (OrchestrationEvent.event_hash event)
        (record_body event)))
      SQLIntegrityError
      (ChainErr ("event " +:+ OrchestrationEvent.id event +:+ " conflicts with durable state"))).

(** [commit_snapshot(run, expected_revision=..., tasks=..., ...)] *)
Definition commit_snapshot (run : Run.t) (expected_revision : Z) (tasks : list Task.t)
    (agents : list Agent.t) (questions : list Question.t) (approvals : list Approval.t)
    (evidence : list Evidence.t) (events : list OrchestrationEvent.t) : M unit :=
  transaction (
    do current <- get_run (Run.id run) in
    let sealing_inventory := bool_decide (Run.task_inventory_digest current = None) &&
                             negb (bool_decide (Run.task_inventory_digest run = None)) in
    (if sealing_inventory
     then for_each put_task tasks >>; save_run run (Some expected_revision)
     else save_run run (Some expected_revision) >>; for_each put_task tasks) >>;
    for_each put_agent agents >>;
    for_each put_question questions >>;
    for_each put_approval approvals >>;
    for_each capture_evidence evidence >>;
    for_each append_event events).

(** ** Operations of the store *)

(** A call of a client. *)
Inductive operation :=
  | SaveRun (run : Run.t) (expected_revision : option Z)
  | PutTask (task : Task.t)
  | PutAgent (agent : Agent.t)
  | PutQuestion (question : Question.t)
  | PutApproval (approval : Approval.t)
  | CaptureEvidence (evidence : Evidence.t)
  | AppendEvent (event : OrchestrationEvent.t)
  | CommitSnapshot (run : Run.t) (expected_revision : Z) (tasks : list Task.t)
      (agents : list Agent.t) (questions : list Question.t) (approvals : list Approval.t)
      (evidence : list Evidence.t) (events : list OrchestrationEvent.t).

Definition perform (op : operation) : M unit :=
  match op with
  | SaveRun run expected => save_run run expected
  | PutTask task => put_task task
  | PutAgent agent => put_agent agent
  | PutQuestion question => put_question question
  | PutApproval approval => put_approval approval
  | CaptureEvidence evidence => capture_evidence evidence
  | AppendEvent event => append_event event
  | CommitSnapshot run expected tasks agents questions approvals evidence events =>
    commit_snapshot run expected tasks agents questions approvals evidence events
  end.

(** Calls one after the other; a call that raises is over, the next goes on. *)
Fixpoint perform_all (ops : list operation) (c : conn) : conn :=
  match ops with [] => c | op :: ops => perform_all ops (perform op c).1 end.
