(* ===== verification/StoreFacts.v ===== *)
(** * What the store guarantees

    Atomic operations, the immutability of a sealed task inventory and the
    optimistic revision of runs. *)
From S2P Require Import Prelude PyDict PyStr Sha256 Json DateTime Enums Models Digests DigestFacts Effect Codec.
From S2P Require Import CodecFacts Store.

Local Open Scope string_scope.

(** ** Computations *)

Lemma reads_Ok c c' d : reads c = (c', Ok d) <-> c' = c /\ d = conn_db c.
Proof. unfold reads. naive_solver. Qed.
Lemma writes_Ok d c c' u : writes d c = (c', Ok u) <-> c' = Conn d (conn_depth c).
Proof. unfold writes. destruct u. naive_solver. Qed.
Lemma transaction_Ok {A} (m : M A) c c' a :
  transaction m c = (c', Ok a) <->
  exists c1, m (Conn (conn_db c) (S (conn_depth c))) = (c1, Ok a) /\
    c' = Conn (conn_db c1) (pred (conn_depth c1)).
Proof.
  unfold transaction. destruct (m _) as [c1 [b|e]]; split; try by intros (? & [=] & _).
  - intros [= <- <-]. by exists c1.
  - by intros (? & [= <- <-] & ->).
  - by intros [=].
Qed.

(** Computations that leave the nesting depth as they found it. *)
Definition balanced {A} (m : M A) : Prop := forall c, conn_depth (m c).1 = conn_depth c.

Create HintDb balanced.

Lemma balanced_ret {A} (a : A) : balanced (ret a).
Proof. done. Qed.
Lemma balanced_throw {A} e : balanced (throw (A := A) e).
Proof. done. Qed.
Lemma balanced_lift {A} (r : result A) : balanced (lift r).
Proof. done. Qed.
Lemma balanced_reads : balanced reads.
Proof. done. Qed.
Lemma balanced_writes d : balanced (writes d).
Proof. done. Qed.
Lemma balanced_bind {A B} (m : M A) (k : A -> M B) :
  balanced m -> (forall a, balanced (k a)) -> balanced (mbind_M m k).
Proof.
  intros Hm Hk c. unfold mbind_M. specialize (Hm c). destruct (m c) as [c1 [a|e]]; [|done].
  by rewrite Hk.
Qed.
Lemma balanced_rethrow {A} (m : M A) cls h : balanced m -> balanced (rethrow m cls h).
Proof. intros Hm c. unfold rethrow. specialize (Hm c). by destruct (m c). Qed.
Lemma balanced_transaction {A} (m : M A) : balanced m -> balanced (transaction m).
Proof.
  intros Hm c. unfold transaction. specialize (Hm (Conn (conn_db c) (S (conn_depth c)))).
  destruct (m _) as [c1 r]. simpl in *. by rewrite Hm.
Qed.
Lemma balanced_for_each {A} (f : A -> M unit) l : (forall x, balanced (f x)) -> balanced (for_each f l).
Proof.
  intros Hf. induction l as [|x l IH]; [apply balanced_ret|]. by apply balanced_bind.
Qed.
#[export] Hint Resolve balanced_ret balanced_throw balanced_lift balanced_reads balanced_writes
  : balanced.

(** Follow the structure of the computation. *)
Ltac balance :=
  repeat first
    [ progress intros
    | progress auto with balanced
    | apply balanced_bind | apply balanced_transaction | apply balanced_rethrow
    | apply balanced_for_each
    | match goal with |- balanced (match ?x with _ => _ end) => destruct x end ].

Lemma balanced_get_run i : balanced (get_run i).
Proof. unfold get_run. balance. Qed.
Lemma balanced_put_mutable t i r s b e : balanced (put_mutable t i r s b e).
Proof. unfold put_mutable, upsert. balance. Qed.
#[export] Hint Resolve balanced_get_run balanced_put_mutable : balanced.
Lemma balanced_put_task x : balanced (put_task x).
Proof. unfold put_task, list_tasks, list_records, put_task_unchecked. balance. Qed.
Lemma balanced_save_run r e : balanced (save_run r e).
Proof.
  unfold save_run, save_new_run, save_run_update, insert_run, update_run, list_tasks, list_records.
  balance.
Qed.
Lemma balanced_capture_evidence e : balanced (capture_evidence e).
Proof. unfold capture_evidence, insert_evidence. balance. Qed.
Lemma balanced_append_event e : balanced (append_event e).
Proof. unfold append_event, list_events, insert_event, check_event_evidence. balance. Qed.
#[export] Hint Resolve balanced_put_task balanced_save_run balanced_capture_evidence
  balanced_append_event : balanced.
Lemma balanced_perform op : balanced (perform op).
Proof. destruct op; simpl; unfold put_agent, put_question, put_approval, commit_snapshot; balance. Qed.

(** At the outermost level a failure restores the connection. *)
Lemma transaction_fails {A} (m : M A) c c' e :
  balanced m -> transaction m c = (c', Err e) -> conn_depth c = 0%nat -> c' = c.
Proof.
  intros Hm H Hd. specialize (Hm (Conn (conn_db c) (S (conn_depth c)))).
  unfold transaction in H. destruct (m _) as [c1 [a|e']]; [by injection H|].
  rewrite Hd in H. injection H as <- _. simpl in Hm. rewrite Hm, Hd. destruct c as [d n].
  simpl in *. by subst n.
Qed.

Lemma put_mutable_fails t i r s b e c c' x :
  put_mutable t i r s b e c = (c', Err x) -> conn_depth c = 0%nat -> c' = c.
Proof.
  unfold put_mutable. destruct (bool_decide _); [by intros [= <- _] _|].
  apply transaction_fails. unfold upsert. balance.
Qed.

Lemma perform_fails op c c' e : perform op c = (c', Err e) -> conn_depth c = 0%nat -> c' = c.
Proof.
  destruct op; simpl.
  - apply transaction_fails. unfold save_new_run, save_run_update, insert_run, update_run,
      list_tasks, list_records. balance.
  - apply transaction_fails. unfold list_tasks, list_records, put_task_unchecked. balance.
  - apply put_mutable_fails.
  - apply put_mutable_fails.
  - apply put_mutable_fails.
  - apply transaction_fails. unfold insert_evidence. balance.
  - unfold append_event, mbind_M at 1 2, lift. destruct (OrchestrationEvent.validate_hash event) as [v|];
      [|by intros [= <- _] _].
    destruct (raise_if _ _); [|by intros [= <- _] _]. apply transaction_fails.
    unfold list_events, insert_event, check_event_evidence. balance.
  - apply transaction_fails. unfold put_agent, put_question, put_approval. balance.
Qed.

(** ** Reading does not write *)

Definition run_in (d : database) (run_id : string) : result Run.t := (get_run run_id (Conn d 0)).2.
Definition tasks_in (d : database) (run_id : string) : result (list Task.t) :=
  mapM (read_row run_id) (sorted_on task_row_order (filter (fun r => row_run r = run_id) (db_tasks d))).
Definition log_in (d : database) (run_id : string) : result (list OrchestrationEvent.t) :=
  (list_events run_id true (Conn d 0)).2.

Lemma run_in_unfold d run_id :
  run_in d run_id =
    match filter (fun r => rr_id r = run_id) (db_runs d) with
    | [] => Err (Exn NotFound ("run " +:+ run_id +:+ " not found"))
    | r :: _ =>
      let* run := decode_stored (rr_body r) ("run " +:+ run_id) in
      if negb (bool_decide (Run.id run = rr_id r)) || negb (Run.revision run =? rr_revision r)%Z ||
         negb (bool_decide (RunPhase.value (Run.phase run) = rr_phase r))
      then Err (SnapshotErr ("run " +:+ run_id +:+ " index/body mismatch"))
      else Ok run
    end.
Proof.
  unfold run_in, get_run, mbind_M, reads, lift. cbn [conn_db snd].
  destruct (filter _ _) as [|r l]; [done|]. destruct (decode_stored _ _) as [run|e]; [|done].
  simpl. by destruct (_ || _).
Qed.
Lemma run_in_same d d' run_id : db_runs d' = db_runs d -> run_in d' run_id = run_in d run_id.
Proof. intros Er. by rewrite !run_in_unfold, Er. Qed.
Lemma get_run_reads run_id c : get_run run_id c = (c, run_in (conn_db c) run_id).
Proof.
  rewrite run_in_unfold. unfold get_run, mbind_M, reads, lift. cbn [conn_db].
  destruct (filter _ _) as [|r l]; [done|]. destruct (decode_stored _ _) as [run|e]; [|done].
  simpl. by destruct (_ || _).
Qed.
Lemma list_tasks_reads run_id c : list_tasks run_id c = (c, tasks_in (conn_db c) run_id).
Proof. done. Qed.
Lemma list_events_reads run_id c : list_events run_id true c = (c, log_in (conn_db c) run_id).
Proof.
  unfold log_in, list_events, mbind_M, reads, lift. cbn [conn_db snd].
  destruct (event_malformed _) as [es|e]; [|done]. by destruct (verify_chain es).
Qed.

(** ** What holds across operations *)

Definition preserves {A} (P : database -> Prop) (m : M A) : Prop :=
  forall c c' a, P (conn_db c) -> m c = (c', Ok a) -> P (conn_db c').

Lemma preserves_bind {A B} P (m : M A) (k : A -> M B) :
  preserves P m -> (forall a, preserves P (k a)) -> preserves P (mbind_M m k).
Proof. intros Hm Hk c c' b Hc (a & c1 & H1 & H2)%mbind_M_Ok. eapply Hk; [|exact H2]. by eapply Hm. Qed.
Lemma preserves_transaction {A} P (m : M A) : preserves P m -> preserves P (transaction m).
Proof. intros Hm c c' a Hc (c1 & H1 & ->)%transaction_Ok. by eapply Hm in H1. Qed.
Lemma preserves_rethrow {A} P (m : M A) cls h : preserves P m -> preserves P (rethrow m cls h).
Proof. intros Hm c c' a Hc H%rethrow_Ok. by eapply Hm. Qed.
Lemma preserves_for_each {A} P (f : A -> M unit) l :
  (forall x, x ∈ l -> preserves P (f x)) -> preserves P (for_each f l).
Proof.
  intros Hf. induction l as [|x l IH]; [by intros c c' a Hc [-> _]%ret_Ok|].
  apply preserves_bind; [apply Hf; by left|]. intros _. apply IH. intros y Hy. apply Hf. by right.
Qed.
Lemma preserves_ret {A} P (a : A) : preserves P (ret a).
Proof. by intros c c' b Hc [-> _]%ret_Ok. Qed.
Lemma preserves_lift {A} P (r : result A) : preserves P (lift r).
Proof. by intros c c' b Hc [-> _]%lift_Ok. Qed.
Lemma preserves_reads P : preserves P reads.
Proof. by intros c c' b Hc [-> _]%reads_Ok. Qed.
Lemma preserves_throw {A} P e : preserves P (throw (A := A) e).
Proof. by intros c c' a _ [=]. Qed.
Lemma preserves_get_run P i : preserves P (get_run i).
Proof. intros c c' a Hc H. rewrite get_run_reads in H. by injection H as <- _. Qed.
Lemma preserves_list_tasks P i : preserves P (list_tasks i).
Proof. intros c c' a Hc H. rewrite list_tasks_reads in H. by injection H as <- _. Qed.
Lemma preserves_list_events P i : preserves P (list_events i true).
Proof. intros c c' a Hc H. rewrite list_events_reads in H. by injection H as <- _. Qed.
Create HintDb preserves.
#[export] Hint Resolve preserves_ret preserves_lift preserves_reads preserves_throw
  preserves_get_run preserves_list_tasks preserves_list_events : preserves.

Ltac preserve :=
  repeat first
    [ progress intros
    | progress auto with preserves
    | apply preserves_bind | apply preserves_transaction | apply preserves_rethrow
    | apply preserves_for_each
    | match goal with |- preserves _ (match ?x with _ => _ end) => destruct x end ].

(** Operations one after the other, from outside any transaction. *)
Lemma perform_all_preserves P ops c :
  (forall op, op ∈ ops -> preserves P (perform op)) -> conn_depth c = 0%nat ->
  P (conn_db c) -> P (conn_db (perform_all ops c)).
Proof.
  revert c. induction ops as [|op ops IH]; intros c Hops Hd Hc; [done|]. simpl.
  pose proof (balanced_perform op c) as Hb. destruct (perform op c) as [c1 r] eqn:E. simpl in *.
  apply IH; [intros op' Hin; apply Hops; by right|by rewrite Hb|].
  destruct r as [[]|e].
  - eapply Hops; [by left|exact Hc|exact E].
  - by apply perform_fails in E as ->.
Qed.

(** ** Statements on the tables *)

Lemma upsert_Ok t r c c' n :
  upsert t r c = (c', Ok n) ->
  let d := conn_db c in
  conn_depth c' = conn_depth c /\
  match filter (fun r' => row_id r' = row_id r) (rows d t) with
  | [] => run_exists d (row_run r) = true /\
          conn_db c' = set_rows d t (rows d t ++ [r])%list /\ n = 1%nat
  | old :: _ =>
    row_run old = row_run r /\ n = 1%nat /\
    conn_db c' = set_rows d t
      ((fun r' => if bool_decide (row_id r' = row_id r) then r else r') <$> rows d t) \/
    row_run old <> row_run r /\ n = 0%nat /\ c' = c
  end.
Proof.
  unfold upsert. intros (cols & c1 & [-> Hc]%lift_Ok & H)%mbind_M_Ok.
  assert (Row (row_id r) (row_run r) cols (row_body r) = r) as Er.
  { enough (cols = row_cols r) as -> by (by destruct r).
    clear H. revert cols Hc. induction (row_cols r) as [|[k x] l IH]; intros cols Hc; simpl in Hc.
    - by apply Ok_inj in Hc.
    - apply bind_Ok in Hc as (kx & Hk & Hc). apply bind_Ok in Hc as (l' & Hl & Hc).
      apply Ok_inj in Hc as <-. f_equal; [|by apply IH]. destruct x; simpl in Hk;
        [by apply Ok_inj in Hk| |by apply Ok_inj in Hk].
      apply bind_Ok in Hk as (z' & Hz & Hk). apply Ok_inj in Hk as <-. unfold bind_int in Hz.
      destruct (_ && _); [|done]. by apply Ok_inj in Hz as <-. }
  rewrite Er in H. apply mbind_M_Ok in H as (d & c1 & [-> ->]%reads_Ok & H). cbv zeta.
  destruct (filter _ _) as [|old l].
  - destruct (run_exists _ _); [|done]. apply mbind_M_Ok in H as ([] & c1 & ->%writes_Ok & H).
    by apply ret_Ok in H as [-> ->].
  - case_bool_decide as Hr.
    + apply mbind_M_Ok in H as ([] & c1 & ->%writes_Ok & H). apply ret_Ok in H as [-> ->].
      split; [done|]. by left.
    + apply ret_Ok in H as [-> ->]. split; [done|]. by right.
Qed.

(** The new rows of table [t] after [r] is written. *)
Definition written (l : list row) (r : row) : list row :=
  match filter (fun r' => row_id r' = row_id r) l with
  | [] => (l ++ [r])%list
  | _ => (fun r' => if bool_decide (row_id r' = row_id r) then r else r') <$> l
  end.

Lemma put_mutable_Ok t i run s b e c c' u :
  put_mutable t i run s b e c = (c', Ok u) ->
  let r := Row i run (("state", CText s) :: e) b in
  conn_db c' = set_rows (conn_db c) t (written (rows (conn_db c) t) r) /\
  forall old l, filter (fun r' => row_id r' = i) (rows (conn_db c) t) = old :: l -> row_run old = run.
Proof.
  unfold put_mutable. destruct (bool_decide _); [by intros [=]|]. intros H.
  apply transaction_Ok in H as (c1 & H & ->). apply rethrow_Ok in H.
  apply mbind_M_Ok in H as (n & c2 & Hu & H). destruct (n =? 1)%nat eqn:En; [|done].
  apply Nat.eqb_eq in En as ->. apply ret_Ok in H as [-> _].
  apply upsert_Ok in Hu as [_ Hu]. cbn [conn_db conn_depth row_id row_run] in *. unfold written.
  cbn [row_id]. destruct (filter (fun r' => row_id r' = i) _) as [|old l] eqn:Ef.
  - destruct Hu as (_ & -> & _). split; [done|]. by intros.
  - destruct Hu as [(Hr & _ & ->)|(_ & [=] & _)]. split; [done|]. by intros ? ? [= <- <-].
Qed.

(** ** Well-formed databases *)

(** The primary keys of the tables of runs and tasks. *)
Record db_wf (d : database) : Prop := {
  wf_runs : NoDup (rr_id <$> db_runs d);
  wf_tasks : NoDup (row_id <$> db_tasks d);
}.

Lemma written_ids l r : NoDup (row_id <$> l) -> NoDup (row_id <$> written l r).
Proof.
  intros Hnd. unfold written. destruct (filter _ l) as [|old l'] eqn:Ef.
  - rewrite fmap_app. apply NoDup_app. split_and!; [done| |apply NoDup_singleton].
    intros i (y & -> & Hy)%list_elem_of_fmap Hi. apply list_elem_of_singleton in Hi.
    assert (y ∈ filter (fun r' => row_id r' = row_id r) l) as Hin by (by apply list_elem_of_filter).
    rewrite Ef in Hin. by apply elem_of_nil in Hin.
  - rewrite <- list_fmap_compose. rewrite (list_fmap_ext _ row_id); [done|].
    intros i y _. simpl. by case_bool_decide.
Qed.

(** The rows after a write: the new one, and the others. *)
Lemma written_elem l r x :
  NoDup (row_id <$> l) -> x ∈ written l r <-> x = r \/ x ∈ l /\ row_id x <> row_id r.
Proof.
  intros Hnd. unfold written. destruct (filter _ l) as [|old l'] eqn:Ef.
  - rewrite elem_of_app, list_elem_of_singleton. split.
    + intros [Hx| ->]; [|by left]. right. split; [done|]. intros E.
      assert (x ∈ filter (fun r' => row_id r' = row_id r) l) as Hin by (by apply list_elem_of_filter).
      rewrite Ef in Hin. by apply elem_of_nil in Hin.
    + intros [->|[Hx _]]; [by right|by left].
  - assert (old ∈ filter (fun r' => row_id r' = row_id r) l) as [Ho Hol]%list_elem_of_filter
      by (rewrite Ef; by left).
    rewrite list_elem_of_fmap. split.
    + intros (y & -> & Hy). case_bool_decide; [by left|by right].
    + intros [->|[Hx Hn]]; [exists old|exists x]; split; try done;
        [by rewrite bool_decide_eq_true_2|by rewrite bool_decide_eq_false_2].
Qed.

(** ** Reading tasks *)

Lemma read_row_Ok {R} `{Stored R, Tabled R} (run_id : string) (r : row) (x : R) :
  read_row run_id r = Ok x ->
  record_id x = row_id r /\ record_run x = row_run r /\ row_run r = run_id.
Proof.
  unfold read_row. intros Hx. apply bind_Ok in Hx as (y & _ & Hx).
  apply seq_Ok in Hx as [Hm Hx]. apply Ok_inj in Hx as ->. apply raise_if_Ok, negb_false_iff in Hm.
  unfold index_matches in Hm. rewrite !andb_true_iff, !bool_decide_eq_true in Hm.
  destruct Hm as [[[H1 H2] H3] _]. split_and!; [done|done|congruence].
Qed.

(** The row that a write makes of a task is read back as that task. *)
Lemma read_task_row x :
  task_ok x ->
  read_row (Task.run_id x) (Row (Task.id x) (Task.run_id x) (index_columns x) (record_body x)) = Ok x.
Proof.
  intros Hx. unfold read_row. cbn [row_body]. rewrite decode_body by done. cbn [bind].
  enough (index_matches (Row (Task.id x) (Task.run_id x) (index_columns x) (record_body x)) x
    (Task.run_id x) = true) as -> by done.
  unfold index_matches. cbn [row_id row_run]. rewrite !andb_true_iff, !bool_decide_eq_true.
  split_and!; [done|done|done|]. simpl. unfold col. cbn [row_cols].
  rewrite !andb_true_iff, !bool_decide_eq_true. done.
Qed.

Definition run_rows (d : database) (run_id : string) : list row :=
  filter (fun r => row_run r = run_id) (db_tasks d).

(** The tasks of a run, in any order. *)
Lemma tasks_in_rows d run_id tasks :
  tasks_in d run_id = Ok tasks ->
  exists tasks', mapM (read_row run_id) (run_rows d run_id) = Ok tasks' /\ tasks ≡ₚ tasks'.
Proof.
  unfold tasks_in. intros H. eapply mapM_perm; [|exact H]. apply sorted_on_Permutation.
Qed.
Lemma tasks_in_rows_inv d run_id tasks :
  mapM (read_row run_id) (run_rows d run_id) = Ok tasks ->
  exists tasks', tasks_in d run_id = Ok tasks' /\ tasks ≡ₚ tasks'.
Proof.
  unfold tasks_in. intros H. eapply mapM_perm; [|exact H]. symmetry. apply sorted_on_Permutation.
Qed.

(** The rows that are read give the ids of the records. *)
Lemma read_rows_ids run_id l (tasks : list Task.t) :
  mapM (read_row run_id) l = Ok tasks -> Task.id <$> tasks = row_id <$> l.
Proof.
  rewrite mapM_Ok_Forall2. induction 1 as [|r x l tasks Hx _ IH]; [done|].
  rewrite !fmap_cons, IH. apply read_row_Ok in Hx as (Hid & _). simpl in Hid. by rewrite Hid.
Qed.

(** The tasks of [run_id] after the row of [x] is written. *)
Lemma written_tasks d run_id tasks x :
  db_wf d -> tasks_in d run_id = Ok tasks -> task_ok x -> Task.run_id x = run_id ->
  let r := Row (Task.id x) run_id (index_columns x) (record_body x) in
  exists tasks', tasks_in (d <| db_tasks := written (db_tasks d) r |>) run_id = Ok tasks' /\
    tasks' ≡ₚ with_task_written tasks x.
Proof.
  intros [_ Hnd] Ht Hx Hrun r. destruct (tasks_in_rows _ _ _ Ht) as (ts & Hts & Hp).
  assert (read_row run_id r = Ok x) as Hr
    by (unfold r; rewrite <- Hrun; by apply read_task_row).
  pose proof (written_ids _ r Hnd) as Hnd'.
  assert (forall r', r' ∈ run_rows (d <| db_tasks := written (db_tasks d) r |>) run_id <->
    r' = r \/ r' ∈ run_rows d run_id /\ row_id r' <> Task.id x) as Hrows.
  { intros r'. unfold run_rows. cbn [db_tasks]. rewrite !list_elem_of_filter.
    change (db_tasks (d <| db_tasks := written (db_tasks d) r |>)) with (written (db_tasks d) r).
    rewrite written_elem by done. split.
    - intros [Hrr [->|[Hin Hn]]]; [by left|right; done].
    - intros [->|[[Hrr Hin] Hn]]; [split; [done|by left]|split; [done|right; done]]. }
  assert (NoDup (Task.id <$> tasks)) as Hids.
  { rewrite Hp, (read_rows_ids _ _ _ Hts). eapply sublist_NoDup; [exact Hnd|].
    apply fmap_sublist, sublist_filter. }
  destruct (mapM_total (read_row (R := Task.t) run_id) (run_rows (d <| db_tasks := written (db_tasks d) r |>) run_id))
    as [ts' Hts'].
  { intros r' [->|[Hin _]]%Hrows; [by exists x|].
    rewrite mapM_Ok_Forall2 in Hts. apply list_elem_of_lookup in Hin as [i Hi].
    destruct (Forall2_lookup_l _ _ _ _ _ Hts Hi) as (y & _ & Hy). by exists y. }
  destruct (tasks_in_rows_inv _ _ _ Hts') as (tasks' & Htasks' & Hp'). exists tasks'.
  split; [done|]. rewrite <- Hp'. apply NoDup_Permutation.
  - apply (NoDup_fmap_1 Task.id). rewrite (read_rows_ids _ _ _ Hts').
    eapply sublist_NoDup; [exact Hnd'|]. apply fmap_sublist, sublist_filter.
  - apply (keyed_NoDup_values Task.id). apply keyed_insert. by apply dict_by_keyed.
  - intros y. rewrite (mapM_elem _ _ _ _ Hts').
    unfold with_task_written.
    rewrite (keyed_values_elem Task.id) by (by apply keyed_insert, dict_by_keyed).
    rewrite dict_lookup_insert. setoid_rewrite Hrows. split.
    + intros (r' & [->|[Hin Hn]] & Hy).
      * rewrite Hr in Hy. apply Ok_inj in Hy as ->. by rewrite decide_True.
      * pose proof (read_row_Ok _ _ _ Hy) as (Hid & _). simpl in Hid.
        rewrite decide_False by congruence. apply dict_by_lookup; [done|]. split; [|done].
        rewrite Hp. apply (mapM_elem _ _ _ _ Hts). eauto.
    + case_decide as E.
      * intros [= <-]. exists r. split; [by left|done].
      * intros [Hy _]%dict_by_lookup; [|done]. rewrite Hp in Hy.
        apply (mapM_elem _ _ _ _ Hts) in Hy as (r' & Hin & Hy). exists r'. split; [|done].
        right. split; [done|]. apply read_row_Ok in Hy as (Hid & _). simpl in Hid. congruence.
Qed.

(** The rows of another run are not touched. *)
Lemma written_other l r run_id :
  NoDup (row_id <$> l) ->
  (forall old l', filter (fun r' => row_id r' = row_id r) l = old :: l' -> row_run old = row_run r) ->
  row_run r <> run_id ->
  filter (fun r' => row_run r' = run_id) (written l r) = filter (fun r' => row_run r' = run_id) l.
Proof.
  intros Hnd Hold Hr.
  assert (forall y, y ∈ l -> row_id y = row_id r -> row_run y = row_run r) as Hsame.
  { intros y Hy Hid. eapply Hold. by apply filter_unique. }
  unfold written. destruct (filter (fun r' => row_id r' = row_id r) l) as [|old l'].
  { rewrite filter_app, filter_cons, decide_False by done. by rewrite filter_nil, app_nil_r. }
  clear Hold Hnd. induction l as [|y l IH]; [done|]. rewrite fmap_cons, !filter_cons.
  rewrite IH by (intros z Hz; apply Hsame; by right).
  case_bool_decide as Hid; [|done].
  rewrite !decide_False; [done| |done]. rewrite (Hsame y); [done|by left|done].
Qed.

(** The run that is read has the id it is read under. *)
Lemma run_in_id d run_id r : run_in d run_id = Ok r -> Run.id r = run_id.
Proof.
  rewrite run_in_unfold. destruct (filter _ _) as [|rr l] eqn:Ef; [done|].
  assert (rr ∈ filter (fun r => rr_id r = run_id) (db_runs d)) as [Hid _]%list_elem_of_filter
    by (rewrite Ef; by left).
  intros (run & _ & H)%bind_Ok. destruct (_ || _) eqn:Eb; [done|]. apply Ok_inj in H as <-.
  rewrite !orb_false_iff, !negb_false_iff, bool_decide_eq_true in Eb.
  destruct Eb as [[-> _] _]. done.
Qed.

(** ** A sealed inventory *)

(** The run [run_id] is sealed under [digest], which is the digest of its tasks. *)
Record sealed (run_id digest : string) (d : database) : Prop := {
  se_wf : db_wf d;
  se_run : exists r, run_in d run_id = Ok r /\ Run.task_inventory_digest r = Some digest;
  se_tasks : exists tasks, tasks_in d run_id = Ok tasks /\
    task_inventory_digest run_id tasks = Ok digest;
}.

Lemma task_inventory_digest_perm run_id l1 l2 digest :
  l1 ≡ₚ l2 -> task_inventory_digest run_id l1 = Ok digest -> task_inventory_digest run_id l2 = Ok digest.
Proof.
  intros Hp. unfold task_inventory_digest. rewrite !seq_Ok, !raise_first_Ok, !Forall_cons. cbn [fst].
  intros ((H1 & H2 & H3 & _) & H). split.
  - split_and!; [done| | |done].
    + rewrite existsb_Forall in *. by rewrite <- Hp.
    + apply bool_decide_eq_false_2. apply bool_decide_eq_false, dec_stable in H3.
      intros Hn. apply Hn. by rewrite <- Hp.
  - enough (sorted_on Task.id l2 = sorted_on Task.id l1) as E
      by (unfold task_inventory_payload in *; by rewrite E).
    symmetry. apply sorted_on_perm; [|done]. intros x y Hx Hy.
    apply (unique_by Task.id l1); [|done|done].
    by apply bool_decide_eq_false, dec_stable in H3.
Qed.

Lemma sealed_same run_id digest d d' :
  db_runs d' = db_runs d -> db_tasks d' = db_tasks d -> sealed run_id digest d -> sealed run_id digest d'.
Proof.
  intros Er Et [[H1 H2] Hr Ht]. constructor.
  - constructor; [by rewrite Er|by rewrite Et].
  - destruct Hr as (r & Hr & Hd). exists r. split; [|done]. rewrite <- Hr.
    by apply run_in_same.
  - destruct Ht as (tasks & Ht & Hd). exists tasks. split; [|done]. unfold tasks_in. by rewrite Et.
Qed.

Lemma put_other_sealed run_id digest t i r s b e :
  t <> TASKS -> preserves (sealed run_id digest) (put_mutable t i r s b e).
Proof.
  intros Ht c c' u Hc H. apply put_mutable_Ok in H as [-> _].
  apply (sealed_same _ _ (conn_db c)); [by destruct t|by destruct t|done].
Qed.

(** What [put_task] does to the database, once it returns. *)
Lemma put_task_Ok x c c' u :
  put_task x c = (c', Ok u) ->
  conn_db c' = (conn_db c) <| db_tasks := written (db_tasks (conn_db c))
    (Row (Task.id x) (Task.run_id x) (index_columns x) (record_body x)) |>.
Proof.
  intros (c1 & H & ->)%transaction_Ok. cbn [conn_db].
  apply mbind_M_Ok in H as (r & c2 & Hget & H). rewrite get_run_reads in Hget.
  injection Hget as <- _. apply mbind_M_Ok in H as ([] & c2 & Hcheck & H).
  apply put_mutable_Ok in H as [-> _].
  enough (c2 = Conn (conn_db c) (S (conn_depth c))) as -> by done.
  destruct (Run.task_inventory_digest r); [|by apply ret_Ok in Hcheck as [-> _]].
  apply mbind_M_Ok in Hcheck as (tasks & c3 & Hl & Hcheck). rewrite list_tasks_reads in Hl.
  injection Hl as <- _. apply mbind_M_Ok in Hcheck as (dig & c3 & [-> _]%lift_Ok & Hcheck).
  destruct (bool_decide _); [|done]. by apply ret_Ok in Hcheck as [-> _].
Qed.

Lemma put_task_sealed run_id digest x :
  task_ok x -> preserves (sealed run_id digest) (put_task x).
Proof.
  intros Hx. apply preserves_transaction. intros c c' u [Hwf Hrun Htasks] H.
  apply mbind_M_Ok in H as (r & c1 & Hget & H). rewrite get_run_reads in Hget.
  injection Hget as <- Hget.
  apply mbind_M_Ok in H as ([] & c2 & Hcheck & H).
  assert (c2 = c /\ (Task.run_id x = run_id -> exists tasks digest',
    tasks_in (conn_db c) run_id = Ok tasks /\ Run.task_inventory_digest r = Some digest' /\
    task_inventory_digest (Run.id r) (with_task_written tasks x) = Ok digest')) as [-> Hsealed].
  { destruct (Run.task_inventory_digest r) as [sealed0|] eqn:Es.
    - apply mbind_M_Ok in Hcheck as (tasks & c3 & Hl & Hcheck). rewrite list_tasks_reads in Hl.
      injection Hl as <- Hl. apply mbind_M_Ok in Hcheck as (dig & c3 & [-> Hdig]%lift_Ok & Hcheck).
      destruct (bool_decide (dig = sealed0)) eqn:Eb; [|done]. apply bool_decide_eq_true in Eb as ->.
      apply ret_Ok in Hcheck as [-> _]. split; [done|]. intros E. exists tasks, sealed0.
      split; [|done]. rewrite <- Hl. f_equal. rewrite <- E. symmetry. by eapply run_in_id.
    - apply ret_Ok in Hcheck as [-> _]. split; [done|]. intros E. rewrite E in Hget.
      destruct Hrun as (r' & Hr' & Hd). rewrite Hget in Hr'. apply Ok_inj in Hr' as ->. congruence. }
  apply put_mutable_Ok in H as [Hdb Hold]. rewrite Hdb. cbn [rows set_rows] in *.
  constructor.
  - constructor; [apply Hwf|]. cbn. apply written_ids, Hwf.
  - destruct Hrun as (r' & Hr' & Hd). exists r'. by rewrite (run_in_same (conn_db c)).
  - destruct (decide (Task.run_id x = run_id)) as [E|E].
    + destruct (Hsealed E) as (tasks & digest' & Ht & Hd & Hdig).
      destruct (written_tasks _ _ _ _ Hwf Ht Hx E) as (tasks' & Ht' & Hp). exists tasks'.
      split; [by rewrite <- E in Ht' |- *|].
      apply (task_inventory_digest_perm _ (with_task_written tasks x)); [by symmetry|].
      rewrite E in Hget. pose proof (run_in_id _ _ _ Hget) as Eid. rewrite Eid in Hdig.
      destruct Hrun as (r' & Hr' & Hrd). rewrite Hget in Hr'. apply Ok_inj in Hr' as <-.
      rewrite Hd in Hrd. by injection Hrd as ->.
    + destruct Htasks as (tasks & Ht & Hd). exists tasks. split; [|done]. rewrite <- Ht.
      unfold tasks_in. do 2 f_equal. cbn. apply written_other; [apply Hwf| |done].
      exact Hold.
Qed.
