(* ===== verification/StoreRuns.v ===== *)
(** * The rows of runs

    What an operation leaves alone, what [save_run] does to the table of runs,
    and what is kept by every operation: the sealed task inventory and the
    revision of a run. *)
From S2P Require Import Prelude PyDict PyStr Sha256 Json DateTime Enums Models Digests DigestFacts Effect Codec.
From S2P Require Import CodecFacts Store StoreFacts.

Local Open Scope string_scope.

(** ** The calls that a call makes *)

Definition calls_of (op : operation) : list operation :=
  match op with
  | CommitSnapshot run expected tasks agents questions approvals evidence events =>
    SaveRun run (Some expected) ::
      ((PutTask <$> tasks) ++ (PutAgent <$> agents) ++ (PutQuestion <$> questions) ++
       (PutApproval <$> approvals) ++ (CaptureEvidence <$> evidence) ++ (AppendEvent <$> events))%list
  | op => [op]
  end.

(** A call all of whose records were accepted by their constructors. *)
Definition record_ok (op : operation) : Prop :=
  match op with
  | SaveRun run _ => storable run
  | PutTask task => storable task
  | PutAgent agent => storable agent
  | PutQuestion question => storable question
  | PutApproval approval => storable approval
  | CaptureEvidence evidence => storable evidence
  | AppendEvent event => storable event
  | CommitSnapshot _ _ _ _ _ _ _ _ => True
  end.
Definition records_ok (op : operation) : Prop := forall op', op' ∈ calls_of op -> record_ok op'.

Lemma preserves_for_each_calls {A} P (f : A -> M unit) (call : A -> operation) l calls :
  (forall x, perform (call x) = f x) -> call <$> l ⊆ calls ->
  (forall op, op ∈ calls -> preserves P (perform op)) -> preserves P (for_each f l).
Proof.
  intros Hf Hl Hall. apply preserves_for_each. intros x Hx. rewrite <- Hf. apply Hall, Hl.
  by apply list_elem_of_fmap_2.
Qed.

(** A call keeps what the calls that it makes keep. *)
Lemma preserves_perform P op :
  (forall op', op' ∈ calls_of op -> preserves P (perform op')) -> preserves P (perform op).
Proof.
  destruct op; try (intros H; apply H; by left). cbn [calls_of]. intros H.
  assert (preserves P (save_run run (Some expected_revision))) as Hs by (apply (H (SaveRun _ _)); by left).
  assert (preserves P (for_each put_task tasks)) as Ht
    by (eapply (preserves_for_each_calls _ _ PutTask _ _ (fun _ => eq_refl)); [|exact H]; set_solver).
  simpl. unfold commit_snapshot. apply preserves_transaction, preserves_bind; [apply preserves_get_run|].
  intros current. apply preserves_bind.
  { destruct (_ && _); apply preserves_bind; by intros. }
  intros _. repeat (apply preserves_bind; [|intros _]).
  - eapply (preserves_for_each_calls _ _ PutAgent _ _ (fun _ => eq_refl)); [|exact H]; set_solver.
  - eapply (preserves_for_each_calls _ _ PutQuestion _ _ (fun _ => eq_refl)); [|exact H]; set_solver.
  - eapply (preserves_for_each_calls _ _ PutApproval _ _ (fun _ => eq_refl)); [|exact H]; set_solver.
  - eapply (preserves_for_each_calls _ _ CaptureEvidence _ _ (fun _ => eq_refl)); [|exact H]; set_solver.
  - eapply (preserves_for_each_calls _ _ AppendEvent _ _ (fun _ => eq_refl)); [|exact H]; set_solver.
Qed.

(** ** What a call leaves alone *)

Section frame.
Variable P : database -> Prop.

Lemma preserves_writes d d' c' u c :
  P d' -> writes d' (Conn d c) = (c', Ok u) -> P (conn_db c').
Proof. by intros HP ->%writes_Ok. Qed.

Lemma preserves_put t i r s b e :
  (forall d l, P d -> P (set_rows d t l)) -> preserves P (put_mutable t i r s b e).
Proof. intros HP c c' u Hc [-> _]%put_mutable_Ok. by apply HP. Qed.

Lemma preserves_put_task x :
  (forall d l, P d -> P (set_rows d TASKS l)) -> preserves P (put_task x).
Proof.
  intros HP. assert (preserves P (put_task_unchecked x)) by (by apply preserves_put).
  unfold put_task. preserve.
Qed.

Lemma preserves_insert_evidence r :
  (forall d l, P d -> P (d <| db_evidence := l |>)) -> preserves P (insert_evidence r).
Proof.
  intros HP c c' u Hc (d & c1 & [-> ->]%reads_Ok & H)%mbind_M_Ok.
  destruct (existsb _ _); [done|]. destruct (run_exists _ _); [|done].
  apply writes_Ok in H as ->. by apply HP.
Qed.
Lemma preserves_capture x :
  (forall d l, P d -> P (d <| db_evidence := l |>)) -> preserves P (capture_evidence x).
Proof.
  intros HP. pose proof (fun r => preserves_insert_evidence r HP). unfold capture_evidence. preserve.
Qed.

Lemma preserves_insert_event r :
  (forall d l, P d -> P (d <| db_events := l |>)) -> preserves P (insert_event r).
Proof.
  intros HP c c' u Hc (z & c1 & [-> _]%lift_Ok & H)%mbind_M_Ok.
  apply mbind_M_Ok in H as (d & c1 & [-> ->]%reads_Ok & H).
  destruct (existsb _ _); [done|]. destruct (run_exists _ _); [|done].
  apply writes_Ok in H as ->. by apply HP.
Qed.
Lemma preserves_append x :
  (forall d l, P d -> P (d <| db_events := l |>)) -> preserves P (append_event x).
Proof.
  intros HP. pose proof (fun r => preserves_insert_event r HP).
  unfold append_event, check_event_evidence. preserve.
Qed.
End frame.

(** ** What [save_run] does *)

Definition stored_run (run : Run.t) : run_row :=
  RunRow (Run.id run) (Run.revision run) (RunPhase.value (Run.phase run)) (record_body run).

(** The rows of runs when [run] takes the place of revision [expected]. *)
Definition replaced (l : list run_row) (run : Run.t) (expected : Z) : list run_row :=
  (fun r => if bool_decide (rr_id r = Run.id run) && (rr_revision r =? expected)%Z
            then stored_run run else r) <$> l.

Lemma bind_int_Ok z z' : bind_int z = Ok z' -> z' = z.
Proof. unfold bind_int. destruct (_ && _); [|done]. by intros <-%Ok_inj. Qed.

Lemma run_exists_false d run_id : run_exists d run_id = false <-> run_id ∉ rr_id <$> db_runs d.
Proof.
  unfold run_exists. rewrite existsb_Forall, Forall_forall. split.
  - intros H (r & -> & Hr)%list_elem_of_fmap. specialize (H r Hr).
    by rewrite bool_decide_eq_true_2 in H.
  - intros H r Hr. apply bool_decide_eq_false_2. intros E. apply H. rewrite <- E.
    by apply list_elem_of_fmap_2.
Qed.

Lemma save_new_run_Ok run c c' u :
  save_run run None c = (c', Ok u) ->
  Run.revision run = 0%Z /\ (Run.id run ∉ (rr_id <$> db_runs (conn_db c))) /\
  conn_db c' = ((conn_db c) <| db_runs := (db_runs (conn_db c) ++ [stored_run run])%list |>).
Proof.
  intros (c1 & H & ->)%transaction_Ok. cbn [conn_db].
  apply mbind_M_Ok in H as ([] & c2 & [-> Hrev]%lift_Ok & H).
  apply raise_if_Ok, negb_false_iff, Z.eqb_eq in Hrev.
  apply mbind_M_Ok in H as ([] & c2 & Hs & H).
  assert (c2 = Conn (conn_db c) (S (conn_depth c))) as ->.
  { destruct (Run.task_inventory_digest run); [|by apply ret_Ok in Hs as [-> _]].
    apply mbind_M_Ok in Hs as (? & ? & [-> _]%lift_Ok & [-> _]%lift_Ok). done. }
  apply rethrow_Ok in H. apply mbind_M_Ok in H as (z & c2 & [-> ->%bind_int_Ok]%lift_Ok & H).
  apply mbind_M_Ok in H as (d & c2 & [-> ->]%reads_Ok & H). cbn [conn_db] in *.
  destruct (run_exists _ _) eqn:Ee; [done|]. apply run_exists_false in Ee.
  by apply writes_Ok in H as ->.
Qed.

Lemma save_run_update_Ok run expected c c' u :
  save_run run (Some expected) c = (c', Ok u) ->
  exists current, run_in (conn_db c) (Run.id run) = Ok current /\
  (Run.task_inventory_digest current = None \/
   Run.task_inventory_digest run = Run.task_inventory_digest current) /\
  Run.revision run = (expected + 1)%Z /\
  (exists r, r ∈ db_runs (conn_db c) /\ rr_id r = Run.id run /\ rr_revision r = expected) /\
  conn_db c' = (conn_db c) <| db_runs := replaced (db_runs (conn_db c)) run expected |>.
Proof.
  intros (c1 & H & ->)%transaction_Ok. cbn [conn_db]. unfold save_run_update in H.
  apply mbind_M_Ok in H as (current & c2 & Hget & H). rewrite get_run_reads in Hget.
  injection Hget as <- Hget. cbn [conn_db] in Hget. exists current. split; [done|].
  apply mbind_M_Ok in H as ([] & c2 & [-> Him]%lift_Ok & H).
  apply raise_if_Ok, andb_false_iff in Him. rewrite !negb_false_iff, !bool_decide_eq_true in Him.
  split; [done|].
  apply mbind_M_Ok in H as ([] & c2 & Hs & H).
  assert (c2 = Conn (conn_db c) (S (conn_depth c))) as ->.
  { destruct (Run.task_inventory_digest run); [|by apply ret_Ok in Hs as [-> _]].
    apply mbind_M_Ok in Hs as (? & ? & Hl & Hs). rewrite list_tasks_reads in Hl.
    injection Hl as <- _. by apply mbind_M_Ok in Hs as (? & ? & [-> _]%lift_Ok & [-> _]%lift_Ok). }
  apply mbind_M_Ok in H as ([] & c2 & [-> Hrev]%lift_Ok & H).
  apply raise_if_Ok, negb_false_iff, Z.eqb_eq in Hrev. split; [done|].
  apply mbind_M_Ok in H as (n & c2 & Hu & H). destruct (n =? 1)%nat eqn:En; [|done].
  apply ret_Ok in H as [-> _]. apply Nat.eqb_eq in En as ->.
  apply mbind_M_Ok in Hu as (z & c3 & [-> ->%bind_int_Ok]%lift_Ok & Hu).
  apply mbind_M_Ok in Hu as (z & c3 & [-> ->%bind_int_Ok]%lift_Ok & Hu).
  apply mbind_M_Ok in Hu as (d & c3 & [-> ->]%reads_Ok & Hu).
  apply mbind_M_Ok in Hu as ([] & c3 & ->%writes_Ok & [-> Hn]%ret_Ok). cbn [conn_db] in *.
  split.
  - destruct (filter _ _) as [|r l] eqn:Ef; [done|].
    assert (r ∈ filter (fun r => bool_decide (rr_id r = Run.id run) &&
      (rr_revision r =? expected)%Z = true) (db_runs (conn_db c))) as Hin by (rewrite Ef; by left).
    apply list_elem_of_filter in Hin as [Hr Hin]. exists r.
    rewrite andb_true_iff, bool_decide_eq_true, Z.eqb_eq in Hr. naive_solver.
  - apply (f_equal (fun l => (conn_db c) <| db_runs := l |>)). apply list_fmap_ext. intros i r _.
    destruct (bool_decide (rr_id r = Run.id run)) eqn:Eb; simpl; [|done].
    apply bool_decide_eq_true in Eb. destruct (_ =? _)%Z; [|done]. unfold stored_run. by rewrite Eb.
Qed.

Lemma replaced_ids l run expected : rr_id <$> replaced l run expected = rr_id <$> l.
Proof.
  unfold replaced. rewrite <- list_fmap_compose. apply list_fmap_ext. intros i r _. simpl.
  destruct (bool_decide (rr_id r = Run.id run)) eqn:Eb; [|done].
  apply bool_decide_eq_true in Eb. by destruct (_ =? _)%Z.
Qed.

Lemma replaced_elem l run expected r0 r :
  NoDup (rr_id <$> l) -> r0 ∈ l -> rr_id r0 = Run.id run -> rr_revision r0 = expected ->
  r ∈ replaced l run expected <-> r = stored_run run \/ r ∈ l /\ rr_id r <> Run.id run.
Proof.
  intros Hnd Hin Hid Hrev. unfold replaced. rewrite list_elem_of_fmap. split.
  - intros (y & -> & Hy). destruct (decide (rr_id y = Run.id run)) as [E|E].
    + left. rewrite (unique_by rr_id l y r0) by (try done; congruence).
      by rewrite bool_decide_eq_true_2, (proj2 (Z.eqb_eq _ _)).
    + right. by rewrite bool_decide_eq_false_2.
  - intros [->|[Hr Hn]].
    + exists r0. by rewrite bool_decide_eq_true_2, (proj2 (Z.eqb_eq _ _)).
    + exists r. by rewrite bool_decide_eq_false_2.
Qed.

(** Looking a run up by its row. *)
Lemma run_in_row d r :
  NoDup (rr_id <$> db_runs d) -> r ∈ db_runs d ->
  run_in d (rr_id r) =
    (let* run := decode_stored (rr_body r) ("run " +:+ rr_id r) in
     if negb (bool_decide (Run.id run = rr_id r)) || negb (Run.revision run =? rr_revision r)%Z ||
        negb (bool_decide (RunPhase.value (Run.phase run) = rr_phase r))
     then Err (SnapshotErr ("run " +:+ rr_id r +:+ " index/body mismatch")) else Ok run).
Proof.
  intros Hnd Hin. rewrite run_in_unfold.
  destruct (filter (fun r0 => rr_id r0 = rr_id r) (db_runs d)) as [|r' l] eqn:Ef.
  - assert (r ∈ filter (fun r0 => rr_id r0 = rr_id r) (db_runs d)) as Hr by (by apply list_elem_of_filter).
    rewrite Ef in Hr. by apply elem_of_nil in Hr.
  - assert (r' ∈ filter (fun r0 => rr_id r0 = rr_id r) (db_runs d)) as [Hid Hr']%list_elem_of_filter
      by (rewrite Ef; by left).
    by rewrite (unique_by rr_id (db_runs d) r' r).
Qed.

Lemma run_in_stored d run :
  NoDup (rr_id <$> db_runs d) -> storable run -> stored_run run ∈ db_runs d ->
  run_in d (Run.id run) = Ok run.
Proof.
  intros Hnd Hrun Hin. pose proof (run_in_row d (stored_run run) Hnd Hin) as H.
  cbn [rr_id stored_run] in H. rewrite H. cbn [rr_body stored_run].
  rewrite decode_body by done. cbn [bind rr_id rr_revision rr_phase].
  by rewrite !bool_decide_eq_true_2, Z.eqb_refl by done.
Qed.

(** The row of a run that is read, with its revision. *)
Lemma run_in_inv d run_id run :
  run_in d run_id = Ok run ->
  exists r, r ∈ db_runs d /\ rr_id r = run_id /\ rr_revision r = Run.revision run /\ Run.id run = run_id.
Proof.
  intros H. pose proof (run_in_id _ _ _ H) as Hid. rewrite run_in_unfold in H.
  destruct (filter _ _) as [|r l] eqn:Ef; [done|].
  assert (r ∈ filter (fun r => rr_id r = run_id) (db_runs d)) as [Hr Hin]%list_elem_of_filter
    by (rewrite Ef; by left).
  apply bind_Ok in H as (y & _ & H). destruct (_ || _) eqn:Eb; [done|]. apply Ok_inj in H as ->.
  rewrite !orb_false_iff, !negb_false_iff, Z.eqb_eq in Eb. exists r. naive_solver.
Qed.

(** Other runs are read as before. *)
Lemma run_in_rows d d' run_id :
  filter (fun r => rr_id r = run_id) (db_runs d') = filter (fun r => rr_id r = run_id) (db_runs d) ->
  run_in d' run_id = run_in d run_id.
Proof. intros E. by rewrite !run_in_unfold, E. Qed.

Lemma filter_replaced l run expected run_id :
  run_id <> Run.id run ->
  filter (fun r => rr_id r = run_id) (replaced l run expected) = filter (fun r => rr_id r = run_id) l.
Proof.
  intros Hn. unfold replaced. induction l as [|r l IH]; [done|]. rewrite fmap_cons, !filter_cons, IH.
  destruct (bool_decide (rr_id r = Run.id run)) eqn:Eb; [|done]. apply bool_decide_eq_true in Eb.
  destruct (_ =? _)%Z; [|done]. simpl. by rewrite !decide_False by congruence.
Qed.
