(* ===== verification/StoreLog.v ===== *)
(** * The event log

    What the verified log of a run looks like, how [append_event] extends it
    and what the hash of its last event commits to. *)
From S2P Require Import Prelude PyDict PyStr Sha256 Json DateTime Enums Models Digests DigestFacts Effect Codec.
From S2P Require Import CodecFacts Store StoreFacts StoreRuns.

Local Open Scope string_scope.

(** ** Chains *)

(** The events follow hash [previous] with numbers from [n]. *)
Fixpoint chained (previous : string) (n : Z) (l : list OrchestrationEvent.t) : Prop :=
  match l with
  | [] => True
  | e :: l =>
    OrchestrationEvent.sequence e = n /\ OrchestrationEvent.previous_hash e = previous /\
    OrchestrationEvent.validate_hash e = Ok true /\
    chained (OrchestrationEvent.event_hash e) (n + 1) l
  end.

Lemma verify_event_Ok previous n e st :
  verify_event (previous, n) e = Ok st <->
  OrchestrationEvent.sequence e = n /\ OrchestrationEvent.previous_hash e = previous /\
  OrchestrationEvent.validate_hash e = Ok true /\ st = (OrchestrationEvent.event_hash e, (n + 1)%Z).
Proof.
  unfold verify_event. rewrite seq_Ok, raise_if_Ok, negb_false_iff, Z.eqb_eq, bind_Ok.
  destruct (bool_decide (OrchestrationEvent.previous_hash e = previous)) eqn:Eb; simpl.
  - apply bool_decide_eq_true in Eb. split.
    + intros (Hs & b & Hb & H). apply bind_Ok in Hb as (v & Hv & Hb%Ok_inj).
      apply seq_Ok in H as [->%raise_if_Ok H%Ok_inj]. by apply negb_false_iff in Hb as ->.
    + intros (Hs & _ & Hv & ->). split; [done|]. exists false. by rewrite Hv.
  - apply bool_decide_eq_false in Eb. split; [|naive_solver].
    intros (_ & b & <-%Ok_inj & H). by apply seq_Ok in H as [?%raise_if_Ok _].
Qed.

Lemma verify_fold_Ok l previous n st :
  foldM verify_event (previous, n) l = Ok st -> chained previous n l.
Proof.
  revert previous n. induction l as [|e l IH]; intros previous n H; [done|]. simpl in H.
  apply bind_Ok in H as (st1 & (Hs & Hp & Hv & ->)%verify_event_Ok & H). split_and!; [done..|].
  by apply IH.
Qed.
Lemma chained_verify l previous n :
  chained previous n l -> exists st, foldM verify_event (previous, n) l = Ok st.
Proof.
  revert previous n. induction l as [|e l IH]; intros previous n H; [by eexists|].
  destruct H as (Hs & Hp & Hv & H). apply IH in H as (st & H). exists st. cbn [foldM].
  pose proof (proj2 (verify_event_Ok previous n e _) (conj Hs (conj Hp (conj Hv eq_refl)))) as E.
  by rewrite E.
Qed.

Lemma verify_chain_Ok l : verify_chain l = Ok tt <-> chained "" 1 l.
Proof.
  unfold verify_chain. split.
  - intros (st & H & _)%bind_Ok. by eapply verify_fold_Ok.
  - intros (st & H)%chained_verify. by rewrite H.
Qed.

(** The hash and the number that the event after [l] refers to. *)
Definition tail_hash (previous : string) (l : list OrchestrationEvent.t) : string :=
  from_option OrchestrationEvent.event_hash previous (last l).

Lemma chained_snoc previous n l e :
  chained previous n (l ++ [e])%list <->
  chained previous n l /\ OrchestrationEvent.sequence e = (n + Z.of_nat (length l))%Z /\
  OrchestrationEvent.previous_hash e = tail_hash previous l /\
  OrchestrationEvent.validate_hash e = Ok true.
Proof.
  revert previous n. induction l as [|x l IH]; intros previous n.
  - simpl. rewrite Z.add_0_r. naive_solver.
  - cbn [app chained]. rewrite IH. cbn [length]. replace (n + 1 + Z.of_nat (length l))%Z with
      (n + Z.of_nat (S (length l)))%Z by lia.
    assert (tail_hash (OrchestrationEvent.event_hash x) l = tail_hash previous (x :: l)) as ->
      by (unfold tail_hash; rewrite last_cons; by destruct (last l)).
    naive_solver.
Qed.

Lemma chained_sequence previous n l i e :
  chained previous n l -> l !! i = Some e -> OrchestrationEvent.sequence e = (n + Z.of_nat i)%Z.
Proof.
  revert previous n i. induction l as [|x l IH]; intros previous n i H Hi; [done|].
  destruct H as (Hs & _ & _ & H). destruct i as [|i]; simpl in Hi.
  - injection Hi as <-. lia.
  - rewrite (IH _ _ _ H Hi). lia.
Qed.

(** ** Reading the log *)

Definition event_rows (d : database) (run_id : string) : list event_row :=
  filter (fun r => er_run r = run_id) (db_events d).

Lemma log_in_Ok d run_id l :
  log_in d run_id = Ok l <->
  mapM read_event (sorted_on er_sequence (event_rows d run_id)) = Ok l /\ chained "" 1 l.
Proof.
  unfold log_in, list_events, mbind_M, reads, lift. cbn [conn_db snd].
  change (filter (fun r => er_run r = run_id) (db_events d)) with (event_rows d run_id).
  destruct (mapM read_event _) as [es|e]; simpl.
  - rewrite <- verify_chain_Ok. destruct (verify_chain es) as [[]|e] eqn:Ev; simpl; split.
    + by intros <-%Ok_inj.
    + by intros [<-%Ok_inj _].
    + by intros [=].
    + intros [<-%Ok_inj H]. congruence.
  - split; [|by intros [[=] _]]. by destruct (is_a _ _ || _ || _ || _).
Qed.

Lemma log_in_rows d d' run_id :
  event_rows d' run_id = event_rows d run_id -> log_in d' run_id = log_in d run_id.
Proof.
  unfold event_rows. intros E. unfold log_in, list_events, mbind_M, reads, lift. cbn [conn_db].
  rewrite E.
  by destruct (event_malformed _) as [es|]; [destruct (verify_chain es)|].
Qed.

Definition stored_event (e : OrchestrationEvent.t) : event_row :=
  EventRow (OrchestrationEvent.run_id e) (OrchestrationEvent.sequence e) (OrchestrationEvent.id e)
    (OrchestrationEvent.previous_hash e) (OrchestrationEvent.event_hash e) (record_body e).

Lemma read_stored_event e : storable e -> read_event (stored_event e) = Ok e.
Proof.
  intros He. unfold read_event. cbn [er_body er_run er_sequence er_id er_previous er_hash stored_event].
  rewrite decode_body by done. cbn [bind]. rewrite !bool_decide_eq_true_2, Z.eqb_refl by done. done.
Qed.
Lemma read_event_Ok r e : read_event r = Ok e -> r = stored_event e.
Proof.
  unfold read_event. intros (e' & Hd%decode_stored_body & H)%bind_Ok.
  apply seq_Ok in H as [Hm H]. apply Ok_inj in H as ->. apply raise_if_Ok in Hm.
  rewrite !orb_false_iff, !negb_false_iff, !bool_decide_eq_true, Z.eqb_eq in Hm.
  destruct Hm as [[[[H1 H2] H3] H4] H5]. unfold stored_event. destruct r. simpl in *. by subst.
Qed.

(** The log is the stored form of its events, sorted. *)
Lemma log_rows d run_id l :
  log_in d run_id = Ok l -> sorted_on er_sequence (event_rows d run_id) = stored_event <$> l.
Proof.
  intros [H _]%log_in_Ok. apply mapM_Ok_Forall2 in H.
  induction H as [|r e rs es Hr _ IH]; [done|]. by rewrite fmap_cons, IH, (read_event_Ok _ _ Hr).
Qed.

(** ** Appending *)

Definition event_after (e : OrchestrationEvent.t) (l : list OrchestrationEvent.t) : Prop :=
  OrchestrationEvent.sequence e = (1 + Z.of_nat (length l))%Z /\
  OrchestrationEvent.previous_hash e = tail_hash "" l /\
  OrchestrationEvent.validate_hash e = Ok true.

Lemma chained_last_sequence l e :
  chained "" 1 l -> last l = Some e -> OrchestrationEvent.sequence e = Z.of_nat (length l).
Proof.
  intros H Hl. rewrite last_lookup in Hl. rewrite (chained_sequence _ _ _ _ _ H Hl).
  destruct l; [done|]. simpl. lia.
Qed.

Lemma append_event_Ok e c c' u :
  append_event e c = (c', Ok u) ->
  exists l, log_in (conn_db c) (OrchestrationEvent.run_id e) = Ok l /\ event_after e l /\
    conn_db c' = (conn_db c) <| db_events := (db_events (conn_db c) ++ [stored_event e])%list |>.
Proof.
  unfold append_event. intros (valid & c1 & [-> Hv]%lift_Ok & H)%mbind_M_Ok.
  apply mbind_M_Ok in H as ([] & c1 & [-> Hn]%lift_Ok & H).
  apply raise_if_Ok, negb_false_iff in Hn as ->.
  apply transaction_Ok in H as (c1 & H & ->).
  apply mbind_M_Ok in H as (l & c2 & Hl & H). rewrite list_events_reads in Hl.
  injection Hl as <- Hl. cbn [conn_db] in Hl. exists l. split; [done|].
  apply mbind_M_Ok in H as ([] & c2 & [-> Hc]%lift_Ok & H).
  rewrite raise_first_Ok, !Forall_cons in Hc. cbn [fst] in Hc. destruct Hc as (Hs & Hp & _).
  apply negb_false_iff, Z.eqb_eq in Hs. apply negb_false_iff, bool_decide_eq_true in Hp.
  split.
  { apply log_in_Ok in Hl as [_ Hch]. split_and!; [|unfold tail_hash; by destruct (last l)|done].
    destruct (last l) as [t|] eqn:El.
    - rewrite Hs, (chained_last_sequence l t) by done. lia.
    - apply last_None in El as ->. done. }
  apply mbind_M_Ok in H as ([] & c2 & He & H).
  assert (c2 = Conn (conn_db c) (S (conn_depth c))) as ->.
  { clear -He. revert He. generalize (Conn (conn_db c) (S (conn_depth c))) as c0.
    induction (OrchestrationEvent.evidence_ids e) as [|i ids IH]; intros c0 He.
    - by apply ret_Ok in He as [-> _].
    - apply mbind_M_Ok in He as ([] & c3 & H & He). apply IH in He as ->.
      apply mbind_M_Ok in H as (d & c4 & [-> _]%reads_Ok & H). destruct (filter _ _); [done|].
      destruct (bool_decide _); [|done]. by apply ret_Ok in H as [-> _]. }
  apply rethrow_Ok in H. apply mbind_M_Ok in H as (z & c2 & [-> _]%lift_Ok & H).
  apply mbind_M_Ok in H as (d & c2 & [-> ->]%reads_Ok & H). cbn [conn_db] in H.
  destruct (existsb _ _); [done|]. destruct (run_exists _ _); [|done].
  by apply writes_Ok in H as ->.
Qed.

(** The log of the run of [e] after the row of [e] is added, and the other logs. *)
Lemma log_snoc d e l :
  storable e -> log_in d (OrchestrationEvent.run_id e) = Ok l -> event_after e l ->
  let d' := d <| db_events := (db_events d ++ [stored_event e])%list |> in
  log_in d' (OrchestrationEvent.run_id e) = Ok (l ++ [e])%list /\
  forall run_id, run_id <> OrchestrationEvent.run_id e -> log_in d' run_id = log_in d run_id.
Proof.
  intros Hst Hl (Hs & Hp & Hv) d'. split.
  - apply log_in_Ok.
    assert (event_rows d' (OrchestrationEvent.run_id e) = (event_rows d (OrchestrationEvent.run_id e) ++ [stored_event e])%list)
      as ->.
    { unfold event_rows, d'. change (db_events (d <| db_events := ?l |>)) with l.
      rewrite filter_app. f_equal. rewrite filter_cons, decide_True by done. by rewrite filter_nil. }
    pose proof (log_rows _ _ _ Hl) as Hrows. apply log_in_Ok in Hl as [Hm Hch].
    assert (forall r, r ∈ event_rows d (OrchestrationEvent.run_id e) ->
      exists i x, l !! i = Some x /\ r = stored_event x /\ er_sequence r = (1 + Z.of_nat i)%Z) as Hr.
    { intros r Hr. rewrite <- (elem_of_sorted_on er_sequence), Hrows in Hr.
      apply list_elem_of_fmap in Hr as (x & -> & [i Hi]%list_elem_of_lookup). exists i, x.
      split_and!; [done|done|]. by apply (chained_sequence _ _ _ _ _ Hch Hi). }
    rewrite sorted_on_snoc.
    + rewrite Hrows. split; [|by apply chained_snoc]. apply mapM_Ok_Forall2, Forall2_app.
      * rewrite <- Hrows. by apply mapM_Ok_Forall2.
      * constructor; [by apply read_stored_event|constructor].
    + intros y z. rewrite !elem_of_app, !list_elem_of_singleton. intros Hy Hz E.
      destruct Hy as [Hy|Hy], Hz as [Hz|Hz].
      * apply Hr in Hy as (i & x & Hi & -> & Ei). apply Hr in Hz as (j & x' & Hj & -> & Ej).
        assert (i = j) as -> by lia. congruence.
      * apply Hr in Hy as (i & x & Hi & -> & Ei). subst z. apply lookup_lt_Some in Hi.
        cbn [er_sequence stored_event] in *. lia.
      * apply Hr in Hz as (j & x & Hj & -> & Ej). subst y. apply lookup_lt_Some in Hj.
        cbn [er_sequence stored_event] in *. lia.
      * by subst.
    + intros y (i & x & Hi & -> & Ei)%Hr. unfold key_le. rewrite Is_true_true.
      apply lookup_lt_Some in Hi. change (py_le ?a ?b) with (a <=? b)%Z. apply Z.leb_le.
      cbn [er_sequence stored_event] in *. lia.
  - intros run_id Hne. apply log_in_rows. unfold event_rows, d'.
    change (db_events (d <| db_events := ?l |>)) with l.
    rewrite filter_app, filter_cons, decide_False by (intros E; by rewrite <- E in Hne).
    rewrite filter_nil. by rewrite app_nil_r.
Qed.

Definition events_of (op : operation) : list OrchestrationEvent.t :=
  match op with
  | AppendEvent event => [event]
  | CommitSnapshot _ _ _ _ _ _ _ events => events
  | _ => []
  end.
(** What a call that returns adds to the log of [run_id]. *)
Definition appended (run_id : string) (op : operation) : list OrchestrationEvent.t :=
  filter (fun e => OrchestrationEvent.run_id e = run_id) (events_of op).

Lemma append_event_log e run_id l c c' u :
  storable e -> append_event e c = (c', Ok u) -> log_in (conn_db c) run_id = Ok l ->
  log_in (conn_db c') run_id = Ok (l ++ appended run_id (AppendEvent e))%list.
Proof.
  intros He (l0 & Hl0 & Ha & ->)%append_event_Ok Hl. unfold appended. simpl.
  rewrite filter_cons, filter_nil.
  destruct (decide (OrchestrationEvent.run_id e = run_id)) as [E|E].
  - subst run_id. rewrite Hl in Hl0. apply Ok_inj in Hl0 as <-. by apply log_snoc.
  - rewrite app_nil_r, <- Hl. by apply (log_snoc (conn_db c) e l0).
Qed.

Lemma for_each_append_log events run_id l c c' u :
  (forall e, e ∈ events -> storable e) -> for_each append_event events c = (c', Ok u) ->
  log_in (conn_db c) run_id = Ok l ->
  log_in (conn_db c') run_id =
    Ok (l ++ filter (fun e => OrchestrationEvent.run_id e = run_id) events)%list.
Proof.
  revert l c. induction events as [|e es IH]; intros l c Hes H Hl.
  - apply ret_Ok in H as [-> _]. by rewrite filter_nil, app_nil_r.
  - apply mbind_M_Ok in H as ([] & c1 & H1 & H). 
    eapply append_event_log in H1; [|apply Hes; by left|exact Hl].
    rewrite (IH _ _ ltac:(intros; apply Hes; by right) H H1). unfold appended. simpl.
    rewrite !filter_cons, filter_nil. case_decide; [by rewrite <- app_assoc|by rewrite app_nil_r].
Qed.

(** Calls that do not touch the log. *)
Lemma preserves_save_run P run expected :
  (forall d l, P d -> P (d <| db_runs := l |>)) -> preserves P (save_run run expected).
Proof.
  intros HP c c' u Hc H. destruct expected as [e|].
  - apply save_run_update_Ok in H as (_ & _ & _ & _ & _ & ->). by apply HP.
  - apply save_new_run_Ok in H as (_ & _ & ->). by apply HP.
Qed.

Lemma preserves_log run_id l op :
  (forall e, op <> AppendEvent e) -> (forall r e t a q p v s, op <> CommitSnapshot r e t a q p v s) ->
  preserves (fun d => log_in d run_id = Ok l) (perform op).
Proof.
  intros Ha Hc.
  assert (forall d d', db_events d' = db_events d -> log_in d run_id = Ok l -> log_in d' run_id = Ok l)
    as HP by (intros d d' E <-; apply log_in_rows; unfold event_rows; by rewrite E).
  destruct op; simpl; try (apply preserves_put; intros; by eapply HP; [|eassumption]).
  - apply preserves_save_run. intros. by eapply HP; [|eassumption].
  - apply preserves_put_task. intros. by eapply HP; [|eassumption].
  - apply preserves_capture. intros. by eapply HP; [|eassumption].
  - by destruct (Ha event).
  - by destruct (Hc run expected_revision tasks agents questions approvals evidence events).
Qed.

(** A snapshot appends its events after everything else. *)
Lemma commit_snapshot_events run expected tasks agents questions approvals evidence events c c' u :
  commit_snapshot run expected tasks agents questions approvals evidence events c = (c', Ok u) ->
  exists c1 c2,
    commit_snapshot run expected tasks agents questions approvals evidence [] c = (c1, Ok tt) /\
    conn_db c1 = conn_db c2 /\
    exists c3, for_each append_event events c2 = (c3, Ok tt) /\ conn_db c' = conn_db c3.
Proof.
  intros (c8 & H & ->)%transaction_Ok. destruct u.
  apply mbind_M_Ok in H as (current & c1 & H1 & H). apply mbind_M_Ok in H as ([] & c2 & H2 & H).
  apply mbind_M_Ok in H as ([] & c3 & H3 & H). apply mbind_M_Ok in H as ([] & c4 & H4 & H).
  apply mbind_M_Ok in H as ([] & c5 & H5 & H). apply mbind_M_Ok in H as ([] & c6 & H6 & H).
  exists (Conn (conn_db c6) (pred (conn_depth c6))), c6. split_and!; [|done|by exists c8].
  apply transaction_Ok. exists c6. split; [|done].
  do 6 (apply mbind_M_Ok; eexists _, _; split; [eassumption|]). done.
Qed.

Lemma perform_log op run_id l c c' u :
  records_ok op -> perform op c = (c', Ok u) -> log_in (conn_db c) run_id = Ok l ->
  log_in (conn_db c') run_id = Ok (l ++ appended run_id op)%list.
Proof.
  intros Hok H Hl. destruct op as [| | | | | |event|run expected tasks agents questions approvals evidence events];
    try (unfold appended; cbn [events_of]; rewrite filter_nil, app_nil_r;
         eapply preserves_log; [| |exact Hl|exact H]; done).
  - eapply append_event_log; [|exact H|exact Hl]. apply (Hok (AppendEvent event)). by left.
  - apply commit_snapshot_events in H as (c1 & c2 & H & E & c3 & Hes & ->).
    assert (log_in (conn_db c1) run_id = Ok l) as Hl1.
    { eapply (preserves_perform (fun d => log_in d run_id = Ok l)
        (CommitSnapshot run expected tasks agents questions approvals evidence []));
        [|exact Hl|exact H].
      intros op' Hin. cbn [calls_of fmap list_fmap] in Hin. rewrite app_nil_r in Hin.
      apply preserves_log; intros; intros ->; set_solver. }
    eapply for_each_append_log; [|exact Hes|by rewrite <- E].
    intros e He. apply (Hok (AppendEvent e)). simpl. set_solver.
Qed.

(** ** What the hash of the last event commits to *)

Lemma hash_payload_wf e : json_wf (OrchestrationEvent.hash_payload e).
Proof. obj_wf; auto with json_wf. Qed.

Lemma hash_payload_inj e1 e2 :
  event_ok e1 -> event_ok e2 ->
  canon (OrchestrationEvent.hash_payload e1) = canon (OrchestrationEvent.hash_payload e2) ->
  OrchestrationEvent.event_hash e1 = OrchestrationEvent.event_hash e2 -> e1 = e2.
Proof.
  intros H1 H2 E Eh.
  assert (forall k, canon <$> assoc_get k (members_of (OrchestrationEvent.hash_payload e1)) =
    canon <$> assoc_get k (members_of (OrchestrationEvent.hash_payload e2))) as F
    by (intros k; apply canon_obj_field; [exact E|keys_NoDup..]).
  pose proof (F "id") as Fid. pose proof (F "run_id") as Frun. pose proof (F "sequence") as Fseq.
  pose proof (F "type") as Ftype. pose proof (F "actor") as Factor.
  pose proof (F "occurred_at") as Ftime. pose proof (F "aggregate_id") as Fagg.
  pose proof (F "payload_json") as Fpay. pose proof (F "evidence_ids") as Fev.
  pose proof (F "previous_hash") as Fprev. clear F E.
  cbn in Fid, Frun, Fseq, Ftype, Factor, Ftime, Fagg, Fpay, Fprev.
  change (Some (canon (jstrs (OrchestrationEvent.evidence_ids e1))) =
          Some (canon (jstrs (OrchestrationEvent.evidence_ids e2)))) in Fev.
  apply (inj Some) in Fev. rewrite !canon_jstrs in Fev. apply jstrs_inj in Fev.
  simplify_eq.
  assert (OrchestrationEvent.occurred_at e1 = OrchestrationEvent.occurred_at e2) as Fdt.
  { apply Ok_inj. rewrite <- (fromisoformat_isoformat (OrchestrationEvent.occurred_at e1)) by apply H1.
    rewrite <- (fromisoformat_isoformat (OrchestrationEvent.occurred_at e2)) by apply H2. congruence. }
  assert (OrchestrationEvent.type e1 = OrchestrationEvent.type e2) as Fty
    by (destruct (OrchestrationEvent.type e1), (OrchestrationEvent.type e2); done).
  destruct e1, e2. simpl in *. congruence.
Qed.

(** Two events of two lists whose hashed texts collide. *)
Definition events_collide (l1 l2 : list OrchestrationEvent.t) : Prop :=
  exists e1 e2, e1 ∈ l1 /\ e2 ∈ l2 /\
    sha256_collision (canonical_json (OrchestrationEvent.hash_payload e1))
                     (canonical_json (OrchestrationEvent.hash_payload e2)).

Lemma events_collide_app l1 l2 l1' l2' :
  events_collide l1 l2 -> events_collide (l1 ++ l1')%list (l2 ++ l2')%list.
Proof.
  intros (e1 & e2 & H1 & H2 & H). exists e1, e2. rewrite !elem_of_app. naive_solver.
Qed.

Lemma validate_hash_Ok e :
  OrchestrationEvent.validate_hash e = Ok true ->
  OrchestrationEvent.event_hash e = sha256_text (canonical_json (OrchestrationEvent.hash_payload e)).
Proof.
  unfold OrchestrationEvent.validate_hash, OrchestrationEvent.hash_material.
  intros (m & Hm & H%Ok_inj)%bind_Ok. apply seq_Ok in Hm as [_ <-%Ok_inj].
  by apply bool_decide_eq_true in H.
Qed.

Lemma same_tail_same_chain l1 l2 :
  chained "" 1 l1 -> chained "" 1 l2 ->
  (forall e, e ∈ l1 -> event_ok e) -> (forall e, e ∈ l2 -> event_ok e) ->
  length l1 = length l2 -> tail_hash "" l1 = tail_hash "" l2 ->
  l1 = l2 \/ events_collide l1 l2.
Proof.
  revert l2. induction l1 as [|e1 l1 IH] using rev_ind; intros l2 H1 H2 Hok1 Hok2 Hlen Ht.
  { left. symmetry. by apply nil_length_inv. }
  destruct l2 as [|e2 l2 _] using rev_ind; [by rewrite length_app in Hlen; simpl in Hlen; lia|].
  apply chained_snoc in H1 as (H1 & _ & Hp1 & Hv1), H2 as (H2 & _ & Hp2 & Hv2).
  rewrite !length_app in Hlen. unfold tail_hash in Ht. rewrite !last_snoc in Ht.
  cbn [from_option] in Ht. pose proof Ht as Hh.
  rewrite (validate_hash_Ok _ Hv1), (validate_hash_Ok _ Hv2) in Hh.
  apply digest_commits in Hh as [Hc|Hc]; [|right; exists e1, e2; rewrite !elem_of_app,
    !list_elem_of_singleton; naive_solver|apply hash_payload_wf..].
  assert (e1 = e2) as <- by
    (apply hash_payload_inj; [apply Hok1|apply Hok2|done|done]; apply elem_of_app; right; by left).
  destruct (IH l2 H1 H2) as [->|Hcol].
  - intros e He. apply Hok1, elem_of_app. by left.
  - intros e He. apply Hok2, elem_of_app. by left.
  - simpl in Hlen. lia.
  - congruence.
  - by left.
  - right. by apply events_collide_app.
Qed.

(** The number of the last event is the length, so its hash alone decides. *)
Lemma same_tail_same_length l1 l2 e1 e2 :
  chained "" 1 l1 -> chained "" 1 l2 -> last l1 = Some e1 -> last l2 = Some e2 ->
  event_ok e1 -> event_ok e2 ->
  OrchestrationEvent.event_hash e1 = OrchestrationEvent.event_hash e2 ->
  length l1 = length l2 \/ events_collide l1 l2.
Proof.
  intros H1 H2 Hl1 Hl2 Ho1 Ho2 Hh.
  assert (forall l e, chained "" 1 l -> last l = Some e -> e ∈ l /\ OrchestrationEvent.validate_hash e = Ok true)
    as Hlast.
  { intros l e Hc Hl. apply last_Some in Hl as [l' ->]. apply chained_snoc in Hc as (_ & _ & _ & Hv).
    split; [|done]. apply elem_of_app. right. by left. }
  destruct (Hlast _ _ H1 Hl1) as [Hin1 Hv1], (Hlast _ _ H2 Hl2) as [Hin2 Hv2].
  pose proof Hh as Hd. rewrite (validate_hash_Ok _ Hv1), (validate_hash_Ok _ Hv2) in Hd.
  apply digest_commits in Hd as [Hc|Hc]; [left|right; exists e1, e2; done|apply hash_payload_wf..].
  assert (e1 = e2) as <- by (by apply hash_payload_inj).
  apply Nat2Z.inj. by rewrite <- (chained_last_sequence l1 e1), <- (chained_last_sequence l2 e1).
Qed.

(** ** What is read was accepted by its constructor *)

Lemma at_dt_wf v k d : at_ v k as_dt = Ok d -> dt_wf d.
Proof.
  unfold at_, as_dt. destruct (assoc_get k v); [|done]. intros (s & _ & H)%bind_Ok. by apply fromisoformat_Ok in H as [_ H].
Qed.

Lemma read_event_ok r e : read_event r = Ok e -> event_ok e.
Proof.
  unfold read_event, decode_stored, decode_record. intros (e' & Hd & H)%bind_Ok.
  apply seq_Ok in H as [_ <-%Ok_inj]. destruct (loads (er_body r)) as [[| | | | |kvs]|]; try done.
  destruct (decoder (JObj kvs)) as [x|err] eqn:Ed; [|by destruct (malformed_class _)].
  apply seq_Ok in Hd as [_ <-%Ok_inj]. unfold decoder in Ed. simpl in Ed. unfold event_of in Ed.
  do 6 (apply bind_Ok in Ed as (? & _ & Ed)). apply bind_Ok in Ed as (d & Hdt%at_dt_wf & Ed).
  do 5 (apply bind_Ok in Ed as (? & _ & Ed)). apply seq_Ok in Ed as [Hv <-%Ok_inj].
  by constructor.
Qed.

Lemma log_events_ok d run_id l e : log_in d run_id = Ok l -> e ∈ l -> event_ok e.
Proof.
  intros [H _]%log_in_Ok He. apply (mapM_elem _ _ _ _ H) in He as (r & _ & Hr).
  by eapply read_event_ok.
Qed.
