(* ===== verification/TaskGraph.v ===== *)
(** * The task dependency graph ([assert_acyclic] of backend/orchestrator/models.py)

    The depth-first search with its [visiting] and [visited] sets, and the
    proof that it accepts exactly the closed, single-run, acyclic graphs, and
    that its recursion is at most one level deeper than the number of tasks. *)
From stdpp Require Import relations.
From S2P Require Import Prelude PyStr PyDict DateTime Enums Models.

Local Open Scope string_scope.

Definition missing_err (task dependency : string) : exn :=
  DomainErr ("task " +:+ task +:+ " has missing dependency " +:+ dependency).
Definition cycle_err (task_id : string) : exn :=
  DomainErr ("task dependency cycle includes " +:+ task_id).

(** The nested function [visit]; its state is ([visiting], [visited]).  [fuel]
    bounds the depth of the recursion. *)
Fixpoint visit (fuel : nat) (by_id : dict Task.t) (st : gset string * gset string)
    (task_id : string) : result (gset string * gset string) :=
  match fuel with
  | O => Err (Exn RecursionError "maximum recursion depth exceeded")
  | S fuel =>
    let '(visiting, visited) := st in
    if decide (task_id ∈ visiting) then Err (cycle_err task_id)
    else if decide (task_id ∈ visited) then Ok (visiting, visited)
    else
      let visiting := {[task_id]} ∪ visiting in
      let* task := dict_getitem by_id task_id in
      let* '(visiting, visited) :=
        foldM (visit fuel by_id) (visiting, visited) (Task.dependencies task) in
      Ok (visiting ∖ {[task_id]}, {[task_id]} ∪ visited)
  end.

(** The checks of one task's dependencies. *)
Definition check_dependencies (by_id : dict Task.t) (task : Task.t) : result unit :=
  forM_ (fun dependency =>
    match by_id !! dependency with
    | None => Err (missing_err (Task.id task) dependency)
    | Some other =>
      raise_if (negb (bool_decide (Task.run_id other = Task.run_id task)))
        (DomainErr "task dependencies cannot cross runs")
    end) (Task.dependencies task).

Definition assert_acyclic (tasks : list Task.t) : result unit :=
  let by_id := dict_by Task.id tasks in
  raise_if (negb (length (dict_keys by_id) =? length tasks)%nat)
    (DomainErr "task IDs must be unique") ;;;
  forM_ (check_dependencies by_id) tasks ;;;
  foldM (visit (S (length tasks)) by_id) (∅, ∅)
    (sorted_on (fun s : string => s) (dict_keys by_id)) ;;;
  Ok tt.

(** ** Specification *)

(** [a] depends directly on [b]. *)
Definition depends (tasks : list Task.t) (a b : string) : Prop :=
  exists t, t ∈ tasks /\ Task.id t = a /\ b ∈ Task.dependencies t.

Definition acyclic (tasks : list Task.t) : Prop := forall a, ~ tc (depends tasks) a a.

(** Unique IDs, and every dependency is a task of the same run. *)
Definition closed_graph (tasks : list Task.t) : Prop :=
  NoDup (Task.id <$> tasks) /\
  forall t, t ∈ tasks -> forall b, b ∈ Task.dependencies t ->
    exists u, u ∈ tasks /\ Task.id u = b /\ Task.run_id u = Task.run_id t.

(** ** Proof *)

Section visit.
Context (tasks : list Task.t) (Hclosed : closed_graph tasks).
Let by_id := dict_by Task.id tasks.
Let edge := depends tasks.
(** Everything below [a] in the graph is finite: no cycle is reachable from it. *)
Let grounded (a : string) : Prop := Acc (fun y x => edge x y) a.
Let nodes : gset string := list_to_set (Task.id <$> tasks).

Lemma by_id_lookup k t : by_id !! k = Some t <-> t ∈ tasks /\ Task.id t = k.
Proof. apply dict_by_lookup, Hclosed. Qed.

Lemma node_lookup k : k ∈ nodes -> exists t, by_id !! k = Some t.
Proof.
  unfold nodes. rewrite elem_of_list_to_set, list_elem_of_fmap.
  intros (t & -> & Ht). exists t. by apply by_id_lookup.
Qed.

Lemma dependency_node t b : t ∈ tasks -> b ∈ Task.dependencies t -> b ∈ nodes.
Proof.
  intros Ht Hb. destruct Hclosed as [_ Hc]. destruct (Hc _ Ht _ Hb) as (u & Hu & <- & _).
  unfold nodes. rewrite elem_of_list_to_set, list_elem_of_fmap. eauto.
Qed.

Definition visit_pre (fuel : nat) (V D : gset string) (k : string) : Prop :=
  V ⊆ nodes /\ size nodes < fuel + size V /\ k ∈ nodes /\
  (forall v, v ∈ V -> tc edge v k) /\ (forall d, d ∈ D -> grounded d).

Definition visit_post (V D : gset string) (k : string)
    (r : result (gset string * gset string)) : Prop :=
  match r with
  | Ok (V', D') => V' = V /\ D ⊆ D' /\ k ∈ D' /\ forall d, d ∈ D' -> grounded d
  | Err e => exn_cls e = DomainError /\ exists c, tc edge c c
  end.

Lemma visit_deps fuel t V D :
  (forall V D k, visit_pre fuel V D k -> visit_post V D k (visit fuel by_id (V, D) k)) ->
  t ∈ tasks ->
  (forall k, k ∈ Task.dependencies t -> visit_pre fuel V D k) ->
  match foldM (visit fuel by_id) (V, D) (Task.dependencies t) with
  | Ok (V', D') => V' = V /\ D ⊆ D' /\ (forall k, k ∈ Task.dependencies t -> k ∈ D') /\
                   ((forall d, d ∈ D -> grounded d) -> forall d, d ∈ D' -> grounded d)
  | Err e => exn_cls e = DomainError /\ exists c, tc edge c c
  end.
Proof using Hclosed.
  intros IH Ht. generalize (Task.dependencies t). intros deps. revert D.
  induction deps as [|k deps IHd]; intros D Hpre; simpl.
  { split_and!; [done..|set_solver|done]. }
  assert (visit_pre fuel V D k) as Hk by (apply Hpre; by left).
  pose proof (IH V D k Hk) as Hv. destruct (visit fuel by_id (V, D) k) as [[V1 D1]|e]; [|done].
  simpl. destruct Hv as (-> & HD & HkD & Hg).
  assert (forall k', k' ∈ deps -> visit_pre fuel V D1 k') as Hpre'.
  { intros k' Hk'. destruct (Hpre k') as (? & ? & ? & ? & ?); [by right|].
    by split_and!. }
  specialize (IHd D1 Hpre'). destruct (foldM _ _ deps) as [[V2 D2]|e]; [|done].
  destruct IHd as (-> & HD2 & Hdeps & Hg2). split_and!; [done|set_solver|set_solver|auto].
Qed.

Lemma visit_spec fuel V D k :
  visit_pre fuel V D k -> visit_post V D k (visit fuel by_id (V, D) k).
Proof using Hclosed.
  revert V D k. induction fuel as [|fuel IH]; intros V D k (HV & Hsize & Hk & Hpath & HD).
  { apply subseteq_size in HV. lia. }
  simpl. case_decide as HkV; [split; [done|]; exists k; by apply Hpath|].
  case_decide as HkD; [by split_and!|].
  destruct (node_lookup k Hk) as (t & Hlook). unfold dict_getitem. rewrite Hlook. simpl.
  apply by_id_lookup in Hlook as [Ht <-].
  assert (forall b, b ∈ Task.dependencies t -> edge (Task.id t) b) as Hedge
    by (intros b Hb; by exists t).
  pose proof (visit_deps fuel t ({[Task.id t]} ∪ V) D IH Ht) as Hdeps.
  destruct (foldM _ _ (Task.dependencies t)) as [[V' D']|e].
  - destruct Hdeps as (-> & HD' & Hall & Hg); [|split_and!; [set_solver|set_solver|set_solver|]].
    + intros b Hb. split_and!; [set_solver| |by eapply dependency_node| |done].
      * rewrite size_union, size_singleton by set_solver. lia.
      * intros v [->%elem_of_singleton|Hv]%elem_of_union; [by apply tc_once, Hedge|].
        eapply tc_r; [by apply Hpath|by apply Hedge].
    + intros d [->%elem_of_singleton|Hd]%elem_of_union; [|by apply Hg].
      constructor. intros b (u & Hu & Heq & Hb). apply Hg; [done|]. apply Hall.
      assert (u = t) as <-; [|done].
      pose proof (proj2 (by_id_lookup _ u) (conj Hu Heq)) as Hlu.
      pose proof (proj2 (by_id_lookup _ t) (conj Ht eq_refl)). congruence.
  - apply Hdeps. intros b Hb. split_and!; [set_solver| |by eapply dependency_node| |done].
    + rewrite size_union, size_singleton by set_solver. lia.
    + intros v [->%elem_of_singleton|Hv]%elem_of_union; [by apply tc_once, Hedge|].
      eapply tc_r; [by apply Hpath|by apply Hedge].
Qed.

Lemma grounded_no_cycle a : grounded a -> ~ tc edge a a.
Proof.
  unfold grounded. induction 1 as [a _ IH]. intros Hc.
  assert (exists b, edge a b /\ rtc edge b a) as (b & Hab & Hba).
  { inversion Hc; subst; eauto using rtc_refl, tc_rtc. }
  apply (IH b Hab). by eapply tc_rtc_l; [|apply tc_once].
Qed.
End visit.

Lemma dict_by_keys_length (tasks : list Task.t) :
  length (dict_keys (dict_by Task.id tasks)) = length tasks <-> NoDup (Task.id <$> tasks).
Proof.
  split.
  - intros Hlen. set (d := dict_by Task.id tasks) in *.
    assert (NoDup (dict_keys d)) as Hnd by apply dict_of_pairs_wf.
    assert (forall k, k ∈ dict_keys d -> k ∈ Task.id <$> tasks) as Hsub.
    { intros k [t Ht]%elem_of_dict_keys. apply (dict_by_elem Task.id) in Ht as [Ht <-].
      apply list_elem_of_fmap. eauto. }
    apply (submseteq_NoDup_length _ _ Hnd Hsub). by rewrite length_fmap, Hlen.
  - intros Hnd. unfold dict_keys. rewrite dict_by_items by done.
    by rewrite <- list_fmap_compose, length_fmap.
Qed.

Lemma check_dependencies_Ok tasks t :
  NoDup (Task.id <$> tasks) ->
  check_dependencies (dict_by Task.id tasks) t = Ok tt <->
  forall b, b ∈ Task.dependencies t ->
    exists u, u ∈ tasks /\ Task.id u = b /\ Task.run_id u = Task.run_id t.
Proof.
  intros Hnd. unfold check_dependencies. rewrite forM_Ok, Forall_forall.
  enough (forall b, match dict_by Task.id tasks !! b with
      | None => Err (missing_err (Task.id t) b)
      | Some other => raise_if (negb (bool_decide (Task.run_id other = Task.run_id t)))
                        (DomainErr "task dependencies cannot cross runs")
      end = Ok tt <->
      exists u, u ∈ tasks /\ Task.id u = b /\ Task.run_id u = Task.run_id t) as Hb.
  { split; intros H b Hin; apply Hb, H, Hin. }
  intros b. destruct (dict_by Task.id tasks !! b) as [u|] eqn:Hu.
  - apply dict_by_lookup in Hu as [Hu <-]; [|done]. rewrite raise_if_Ok, negb_false_iff.
    rewrite bool_decide_eq_true. split; [eauto|].
    intros (u' & Hu' & Hid & Hrun). by rewrite (unique_by Task.id tasks u u').
  - split; [done|]. intros (u & Hu' & <- & _).
    pose proof (proj2 (dict_by_lookup Task.id tasks _ u Hnd) (conj Hu' eq_refl)). congruence.
Qed.

Lemma closed_graph_checks tasks :
  closed_graph tasks <->
  NoDup (Task.id <$> tasks) /\ forM_ (check_dependencies (dict_by Task.id tasks)) tasks = Ok tt.
Proof.
  unfold closed_graph. split; intros [Hnd H]; (split; [done|]).
  - apply forM_Ok, Forall_forall. intros t Ht. apply check_dependencies_Ok; eauto.
  - rewrite forM_Ok, Forall_forall in H. intros t Ht. apply check_dependencies_Ok; auto.
Qed.

(** The search over all roots of a closed graph: it succeeds with every node
    grounded, or it reports a cycle that exists. *)
Lemma search_spec tasks fuel roots D :
  closed_graph tasks -> length tasks < fuel ->
  (forall k, k ∈ roots -> k ∈ Task.id <$> tasks) ->
  (forall d, d ∈ D -> Acc (fun y x => depends tasks x y) d) ->
  match foldM (visit fuel (dict_by Task.id tasks)) (∅, D) roots with
  | Ok (_, D') => D ⊆ D' /\ (forall k, k ∈ roots -> k ∈ D') /\
                  forall d, d ∈ D' -> Acc (fun y x => depends tasks x y) d
  | Err e => exn_cls e = DomainError /\ exists c, tc (depends tasks) c c
  end.
Proof.
  intros Hc Hfuel. revert D. induction roots as [|k roots IH]; intros D Hroots HD; simpl foldM.
  { split_and!; [done|set_solver|done]. }
  pose proof (visit_spec tasks Hc fuel ∅ D k) as Hv.
  unfold visit_post in Hv. destruct (visit _ _ (∅, D) k) as [[V1 D1]|e].
  - destruct Hv as (-> & HD1 & Hk & Hg).
    { split_and!; [set_solver| | |set_solver|done].
      - rewrite size_list_to_set by apply Hc. rewrite length_fmap, size_empty. lia.
      - apply elem_of_list_to_set, Hroots. by left. }
    cbn [bind]. specialize (IH D1). destruct (foldM _ _ roots) as [[V2 D2]|e].
    + destruct IH as (HD2 & Hr & Hg2); [|done|].
      { intros. apply Hroots. by right. }
      split; [by etrans|split; [|done]]. intros k' [->|Hk']%elem_of_cons; [by apply HD2|auto].
    + apply IH; [|done]. intros. apply Hroots. by right.
  - apply Hv. split_and!; [set_solver| | |set_solver|done].
    + rewrite size_list_to_set by apply Hc. rewrite length_fmap, size_empty. lia.
    + apply elem_of_list_to_set, Hroots. by left.
Qed.

Lemma assert_acyclic_cases tasks :
  match assert_acyclic tasks with
  | Ok _ => closed_graph tasks /\ acyclic tasks
  | Err e => exn_cls e = DomainError /\ ~ (closed_graph tasks /\ acyclic tasks)
  end.
Proof.
  unfold assert_acyclic. cbv zeta.
  destruct (length (dict_keys (dict_by Task.id tasks)) =? length tasks)%nat eqn:Hlen; simpl.
  2:{ split; [done|]. intros [[Hnd _] _]. apply dict_by_keys_length in Hnd.
      apply Nat.eqb_neq in Hlen. congruence. }
  apply Nat.eqb_eq, dict_by_keys_length in Hlen.
  destruct (forM_ _ tasks) as [[]|e] eqn:Hdeps; simpl.
  2:{ split; [|intros [Hc _]; apply closed_graph_checks in Hc as [_ Hc]; congruence].
      apply forM_Err in Hdeps as (t & Ht & Hdeps). apply forM_Err in Hdeps as (b & Hb & Hdeps).
      destruct (_ !! b) as [u|]; [|by injection Hdeps as <-].
      by destruct (negb _); simpl in Hdeps; [injection Hdeps as <-|]. }
  assert (closed_graph tasks) as Hc by (by apply closed_graph_checks).
  pose proof (search_spec tasks (S (length tasks)) (sorted_on (fun s : string => s)
    (dict_keys (dict_by Task.id tasks))) ∅ Hc ltac:(lia)) as Hs.
  assert (forall k, k ∈ sorted_on (fun s : string => s) (dict_keys (dict_by Task.id tasks)) <->
    k ∈ Task.id <$> tasks) as Hk.
  { intros k. rewrite elem_of_sorted_on. unfold dict_keys. rewrite dict_by_items by done.
    by rewrite <- list_fmap_compose. }
  destruct (foldM _ (∅, ∅) _) as [[V D]|e]; simpl in *.
  - destruct Hs as (_ & Hroots & Hg); [by apply Hk|by intros ? ?%elem_of_empty|].
    split; [done|]. intros a Hcyc. apply (grounded_no_cycle tasks a); [|done].
    apply Hg, Hroots, Hk.
    assert (exists b, depends tasks a b) as (b & t & Ht & <- & _)
      by (inversion Hcyc; subst; eauto).
    apply list_elem_of_fmap. eauto.
  - destruct Hs as [He [c Hcyc]]; [by apply Hk|by intros ? ?%elem_of_empty|].
    split; [done|]. intros [_ Hac]. by apply (Hac c).
Qed.
