(* ===== verification/Scheduler.v ===== *)
(** * The deterministic scheduler (backend/orchestrator/scheduler.py)

    Every operation of [DeterministicScheduler]: dispatch, start, heartbeat,
    completion, failure and the reaping of expired leases.  [at_] is the
    caller's clock and [key] the lease signing key. *)
From S2P Require Import Prelude PyStr PyDict Json Sha256 DateTime Enums.
From S2P Require Import Models Digests TaskGraph.

Local Open Scope string_scope.

Definition SchedulingErr (msg : string) : exn := Exn SchedulingError msg.
Definition LeaseErr (msg : string) : exn := Exn LeaseRejected msg.
Definition EvidenceErr (msg : string) : exn := Exn EvidenceRejected msg.

Module Dispatch.
Record t := mk { task_id : string; agent_id : string; lease : Lease.t; reserved_tokens : Z }.
End Dispatch.

Module ScheduleResult.
Record t := mk {
  tasks : list Task.t;
  agents : list Agent.t;
  budget : Budget.t;
  dispatches : list Dispatch.t;
  blocked_task_ids : list string;
  budget_deferred_task_ids : list string;
}.
End ScheduleResult.

Module CompletionResult.
Record t := mk { task : Task.t; agent : Agent.t; budget : Budget.t }.
End CompletionResult.

Module ReapResult.
Record t := mk {
  tasks : list Task.t;
  agents : list Agent.t;
  budget : Budget.t;
  expired_task_ids : list string;
}.
End ReapResult.

(** ** Orders, indexes and clocks *)

(** [_task_order] and [_agent_order]; tuples are nested pairs. *)
Definition task_order (task : Task.t) : Z * (Z * (Z * string)) :=
  (Task.wave task, ((- Task.priority task)%Z, (Task.created_seq task, Task.id task))).
Definition agent_order (agent : Agent.t) : Z * (Z * string) :=
  (Agent.wave agent, (Agent.created_seq agent, Agent.id agent)).
(** The key of the [sorted] calls on results. *)
Definition task_seq (task : Task.t) : Z * string := (Task.created_seq task, Task.id task).
Definition agent_seq (agent : Agent.t) : Z * string := (Agent.created_seq agent, Agent.id agent).

(** [_index_unique(items, id_getter)] *)
Definition index_unique {T} (id : T -> string) (items : list T) : result (dict T) :=
  foldM (fun result item =>
    let key := id item in
    raise_if (bool_decide (is_Some (result !! key))) (SchedulingErr ("duplicate ID " +:+ key)) ;;;
    Ok (<[key := item]> result)) ∅ items.

(** [_canonical_time(value)] *)
Definition canonical_time (value : datetime) : result string :=
  require_aware value "timestamp" ;;;
  match dt_to_utc value with
  | None => Err (Exn OverflowError "date value out of range")
  | Some utc => Ok (py_replace "+00:00" "Z" (isoformat true utc))
  end.

(** [_snapshot_time(value, label)] *)
Definition snapshot_time (value : datetime) (label : string) : result datetime :=
  raise_if (naive value) (SchedulingErr (label +:+ " must be timezone-aware")) ;;;
  match dt_to_utc value with
  | None => Err (SchedulingErr (label +:+ " is outside the UTC datetime range"))
  | Some utc => Ok utc
  end.

Definition key_too_short (key : bytes) : bool := (length key <? 32)%nat.

(** ** Leases *)

(** The material that [_lease_token] signs. *)
Definition lease_payload (run_id task_id agent_id : string) (attempt : Z)
    (acquired_at expires_at task_digest agent_digest : string) : json :=
  JObj [
    ("scope", JStr "flux-clone-orchestrator-lease-v1");
    ("run_id", JStr run_id);
    ("task_id", JStr task_id);
    ("agent_id", JStr agent_id);
    ("attempt", JInt attempt);
    ("acquired_at", JStr acquired_at);
    ("expires_at", JStr expires_at);
    ("task_contract_digest", JStr task_digest);
    ("agent_contract_digest", JStr agent_digest) ].

Definition lease_token (run_id task_id agent_id : string) (attempt : Z)
    (acquired_at expires_at : datetime) (task_digest agent_digest : string) (key : bytes)
    : result string :=
  let* acquired := canonical_time acquired_at in
  let* expires := canonical_time expires_at in
  Ok (hmac_sha256_hex key (utf8 (canonical_json
    (lease_payload run_id task_id agent_id attempt acquired expires task_digest agent_digest)))).

(** [except SchedulingError as exc: raise LeaseRejected(str(exc))] *)
Definition lease_rejecting {A} (c : result A) : result A :=
  catch c SchedulingError (fun e => Err (LeaseErr (exn_msg e))).

Definition validate_lease (task : Task.t) (agent : Agent.t) (token : string) (at_ : datetime)
    (key : bytes) (allow_expired : bool) : result Lease.t :=
  let* now := lease_rejecting (snapshot_time at_ "lease timestamp") in
  raise_if (key_too_short key) (LeaseErr "lease signing key must contain at least 32 bytes") ;;;
  match Task.lease task with
  | None => Err (LeaseErr "task has no active lease")
  | Some lease =>
    let* same := compare_digest (Lease.token lease) token in
    raise_if (negb same) (LeaseErr "lease token does not match") ;;;
    let* ' (acquired_at, expires_at, last_heartbeat_at) := lease_rejecting (
      let* acquired_at := snapshot_time (Lease.acquired_at lease) "lease acquisition" in
      let* expires_at := snapshot_time (Lease.expires_at lease) "lease expiry" in
      let* last := match Agent.last_heartbeat_at agent with
                   | None => Ok None
                   | Some h => let* h := snapshot_time h "agent heartbeat" in Ok (Some h)
                   end in
      Ok (acquired_at, expires_at, last)) in
    raise_if (negb (bool_decide (Lease.task_id lease = Task.id task)) ||
              negb (bool_decide (Lease.agent_id lease = Agent.id agent)) ||
              negb (bool_decide (Agent.current_task_id agent = Some (Task.id task))) ||
              negb (Lease.attempt lease =? Task.attempt task)%Z ||
              negb (bool_decide (Task.run_id task = Agent.run_id agent)))
      (LeaseErr "lease is bound to a different task or agent") ;;;
    let task_digest := task_contract_digest task in
    let agent_digest := agent_contract_digest agent in
    let* same_task := compare_digest (Lease.task_contract_digest lease) task_digest in
    let* changed := if negb same_task then Ok true else
      let* same_agent := compare_digest (Lease.agent_contract_digest lease) agent_digest in
      Ok (negb same_agent) in
    raise_if changed (LeaseErr "lease assignment contract has changed") ;;;
    let* expected := lease_token (Task.run_id task) (Task.id task) (Agent.id agent)
      (Lease.attempt lease) acquired_at expires_at task_digest agent_digest key in
    let* authentic := compare_digest expected (Lease.token lease) in
    raise_first [
      (negb authentic, LeaseErr "lease HMAC is invalid");
      (dt_lt now acquired_at, LeaseErr "scheduler clock moved before lease acquisition");
      (opt_bad (dt_lt now) last_heartbeat_at,
       LeaseErr "scheduler clock moved before the last heartbeat");
      (negb allow_expired && dt_le expires_at now, LeaseErr "lease has expired") ] ;;;
    Lease.new (Lease.mk (Lease.token lease) (Lease.task_id lease) (Lease.agent_id lease)
      (Lease.attempt lease) acquired_at expires_at (Lease.task_contract_digest lease)
      (Lease.agent_contract_digest lease))
  end.

(** ** Evidence of success *)

(** One iteration of the loop that collects design-check results. *)
Definition collect_check (check_results : dict Evidence.t) (item : Evidence.t)
    : result (dict Evidence.t) :=
  if bool_decide (Evidence.kind item = EvidenceKind.DESIGN_CHECK) then
    match Evidence.check_id item, Evidence.passed item with
    | Some check_id, Some _ =>
      raise_if (bool_decide (is_Some (check_results !! check_id)))
        (EvidenceErr ("duplicate results for design check " +:+ check_id)) ;;;
      Ok (<[check_id := item]> check_results)
    | _, _ => Err (EvidenceErr "design-check evidence is incomplete")
    end
  else Ok check_results.

(** One iteration of the loop over the required checks. *)
Definition check_requirement (check_results : dict Evidence.t)
    (req : string * CheckRequirement.t) : result unit :=
  let '(check_id, requirement) := req in
  let* result := dict_getitem check_results check_id in
  raise_first [
    (negb (bool_decide (Evidence.source result = CheckRequirement.source requirement)),
     EvidenceErr ("check " +:+ check_id +:+ " came from untrusted source " +:+
                  Evidence.source result));
    (negb (bool_decide (Evidence.policy_digest result =
                        Some (CheckRequirement.policy_digest requirement))),
     EvidenceErr ("check " +:+ check_id +:+ " used the wrong deterministic policy revision")) ].

Definition validate_evidence (task : Task.t) (evidence : list Evidence.t)
    : result (list Evidence.t) :=
  raise_first [
    (bool_decide (evidence = []), EvidenceErr "successful work requires immutable evidence");
    (has_duplicates (Evidence.id <$> evidence), EvidenceErr "evidence IDs must be unique");
    (existsb (fun item => negb (bool_decide (Evidence.run_id item = Task.run_id task)) ||
                          negb (bool_decide (Evidence.task_id item = Some (Task.id task))))
       evidence,
     EvidenceErr "evidence is bound to a different run or task") ] ;;;
  let* check_results := foldM collect_check ∅ evidence in
  let failed := sorted_strs (fst <$> filter (fun kv => Evidence.passed kv.2 <> Some true)
    (dict_items check_results)) in
  raise_if (negb (bool_decide (failed = [])))
    (EvidenceErr ("deterministic checks failed: " +:+ str_join ", " failed)) ;;;
  let required := dict_by CheckRequirement.check_id (Task.required_checks task) in
  let missing := sorted_strs (filter (fun k => check_results !! k = None) (dict_keys required)) in
  raise_if (negb (bool_decide (missing = [])))
    (EvidenceErr ("required checks missing: " +:+ str_join ", " missing)) ;;;
  forM_ (check_requirement check_results) (dict_items required) ;;;
  Ok evidence.

Definition validate_settlement_inputs (actual_tokens actual_tool_calls : Z) : result unit :=
  raise_if ((actual_tokens <? 0)%Z || (actual_tool_calls <? 0)%Z)
    (SchedulingErr "actual usage values cannot be negative").

(** ** Membership *)

(** The loop over the tasks; the accumulator is [active_agent_ids]. *)
Definition check_active_task (agent_map : dict Agent.t) (active_agent_ids : list string)
    (task : Task.t) : result (list string) :=
  if negb (Task.active_state (Task.state task)) then Ok active_agent_ids
  else match Task.lease task with
  | None => Err (Exn AssertionError "")
  | Some lease =>
    let holder := Lease.agent_id lease in
    raise_if (str_in holder active_agent_ids)
      (SchedulingErr "one agent cannot hold multiple active task leases") ;;;
    raise_if (match agent_map !! holder with
              | None => true
              | Some agent => negb (Agent.active_state (Agent.state agent)) ||
                  negb (bool_decide (Agent.current_task_id agent = Some (Task.id task)))
              end) (SchedulingErr "active task lease has no matching active agent") ;;;
    Ok (holder :: active_agent_ids)
  end.

(** The loop over the agents. *)
Definition check_active_agent (task_map : dict Task.t) (agent : Agent.t) : result unit :=
  if negb (Agent.active_state (Agent.state agent)) then Ok tt
  else match Agent.current_task_id agent with
  | None => Err (Exn AssertionError "")
  | Some current =>
    raise_if (match task_map !! current with
              | None => true
              | Some task => negb (Task.active_state (Task.state task)) ||
                  match Task.lease task with
                  | None => true
                  | Some lease => negb (bool_decide (Lease.agent_id lease = Agent.id agent))
                  end
              end) (SchedulingErr "active agent has no matching active task lease")
  end.

Definition validate_membership (run : Run.t) (tasks : list Task.t) (agents : list Agent.t)
    : result unit :=
  let* _ := index_unique Task.id tasks in
  let* _ := index_unique Agent.id agents in
  raise_first [
    (existsb (fun task => negb (bool_decide (Task.run_id task = Run.id run))) tasks,
     SchedulingErr "all tasks must belong to the scheduled run");
    (existsb (fun agent => negb (bool_decide (Agent.run_id agent = Run.id run))) agents,
     SchedulingErr "all agents must belong to the scheduled run") ] ;;;
  let task_map := dict_by Task.id tasks in
  let agent_map := dict_by Agent.id agents in
  let* _ := foldM (check_active_task agent_map) [] tasks in
  forM_ (check_active_agent task_map) agents.

(** ** Failure and reaping *)

(** The free agent that completion and failure leave behind. *)
Definition released_agent (agent : Agent.t) (at_ : datetime) : result Agent.t :=
  Agent.new (agent <| Agent.state := AgentState.AVAILABLE |>
                   <| Agent.current_task_id := None |>
                   <| Agent.last_heartbeat_at := Some at_ |>).

Definition fail_validated (task : Task.t) (agent : Agent.t) (failure_code failure_message : string)
    (retryable : bool) (budget : Budget.t) (actual_tokens actual_tool_calls : Z) (at_ : datetime)
    : result CompletionResult.t :=
  raise_if (str_empty failure_code || str_empty failure_message)
    (SchedulingErr "failure code and message are required") ;;;
  let* now := snapshot_time at_ "scheduler timestamp" in
  validate_settlement_inputs actual_tokens actual_tool_calls ;;;
  let can_retry := retryable &&
    (Task.attempt task <? RetryPolicy.max_attempts (Task.retry_policy task))%Z in
  let* next_eligible :=
    if can_retry then
      let* delay := RetryPolicy.delay_seconds (Task.retry_policy task) (Task.attempt task) in
      let* d := dt_add_seconds now delay in Ok (Some d)
    else Ok None in
  let* settled := Budget.settle budget (Task.estimated_tokens task) actual_tokens
    0 actual_tool_calls 1 1 in
  let* task' := Task.new (task
    <| Task.state := if can_retry then TaskState.RETRY_WAIT else TaskState.FAILED |>
    <| Task.next_eligible_at := next_eligible |>
    <| Task.lease := None |>
    <| Task.failure_code := Some failure_code |>
    <| Task.failure_message := Some failure_message |>) in
  let* agent' := released_agent agent now in
  Ok (CompletionResult.mk task' agent' settled).

(** The state of the reaping loop: tasks, agents, budget, expired ids. *)
Definition reap_state : Type := dict Task.t * dict Agent.t * Budget.t * list string.

Definition reap_step (now : datetime) (key : bytes) (st : reap_state) (task : Task.t)
    : result reap_state :=
  let '(task_map, agent_map, budget, expired) := st in
  if negb (Task.active_state (Task.state task)) then Ok st
  else match Task.lease task with
  | None => Err (SchedulingErr ("active task " +:+ Task.id task +:+ " has no lease"))
  | Some lease =>
    match agent_map !! Lease.agent_id lease with
    | None => Err (SchedulingErr ("leased task " +:+ Task.id task +:+
                                  " references missing agent " +:+ Lease.agent_id lease))
    | Some agent =>
      let* validated := validate_lease task agent (Lease.token lease) now key true in
      if dt_lt now (Lease.expires_at validated) then Ok st
      else
        let* result := fail_validated task agent "lease_expired"
          "worker did not renew its lease before expiry" true budget 0 0 now in
        Ok (<[Task.id task := CompletionResult.task result]> task_map,
            <[Agent.id agent := CompletionResult.agent result]> agent_map,
            CompletionResult.budget result, app expired [Task.id task])
    end
  end.

Definition reap_expired_leases (tasks : list Task.t) (agents : list Agent.t) (budget : Budget.t)
    (at_ : datetime) (key : bytes) : result ReapResult.t :=
  let* now := snapshot_time at_ "scheduler timestamp" in
  raise_if (key_too_short key)
    (SchedulingErr "lease_signing_key must contain at least 32 bytes") ;;;
  let* task_map := index_unique Task.id tasks in
  let* agent_map := index_unique Agent.id agents in
  let* ' (task_map, agent_map, budget, expired) :=
    foldM (reap_step now key) (task_map, agent_map, budget, [])
      (sorted_on task_order (dict_values task_map)) in
  Ok (ReapResult.mk (sorted_on task_seq (dict_values task_map))
        (sorted_on agent_seq (dict_values agent_map)) budget expired).

(** ** Choosing tasks and agents *)

Definition is_eligible (task : Task.t) (tasks : dict Task.t) (at_ : datetime) : result bool :=
  if negb (bool_decide (Task.state task ∈ [TaskState.QUEUED; TaskState.RETRY_WAIT]))
  then Ok false
  else
    let* next := match Task.next_eligible_at task with
                 | None => Ok None
                 | Some d => let* d := snapshot_time d "task eligibility timestamp" in Ok (Some d)
                 end in
    if opt_bad (dt_lt at_) next then Ok false
    else
      let* unmet := anyM (fun dependency =>
        let* other := dict_getitem tasks dependency in
        Ok (negb (bool_decide (Task.state other = TaskState.SUCCEEDED)))) (Task.dependencies task) in
      if unmet then Ok false
      else Ok (forallb (fun other =>
        negb ((Task.wave other <? Task.wave task)%Z &&
              negb (bool_decide (Task.state other ∈ [TaskState.SUCCEEDED; TaskState.CANCELLED]))))
        (dict_values tasks)).

Definition compatible (task : Task.t) (excluded : list string) (agent : Agent.t) : bool :=
  str_subset (Task.required_capabilities task) (Agent.capabilities agent) &&
  match Task.required_agent_class task with
  | None => true
  | Some cls => bool_decide (Agent.agent_class agent = cls)
  end &&
  negb (str_in (Agent.id agent) (Task.excluded_agent_ids task ++ excluded)%list).

(** [len(set(agent.capabilities) - required)] *)
Definition surplus (task : Task.t) (agent : Agent.t) : Z :=
  Z.of_nat (length (remove_dups
    (filter (fun c => c ∉ Task.required_capabilities task) (Agent.capabilities agent)))).

Definition best_agent (task : Task.t) (agents : list Agent.t) (excluded : list string)
    : option Agent.t :=
  min_on (fun agent => (surplus task agent, agent_order agent))
    (filter (fun agent => compatible task excluded agent = true) agents).

(** ** Dispatch *)

(** One iteration of the loop that blocks and unblocks dependents. *)
Definition block_step (st : dict Task.t * list string) (task : Task.t)
    : result (dict Task.t * list string) :=
  let '(tasks, blocked) := st in
  if negb (bool_decide (Task.state task ∈
             [TaskState.QUEUED; TaskState.RETRY_WAIT; TaskState.BLOCKED])) then Ok st
  else
    let* dependencies := mapM (dict_getitem tasks) (Task.dependencies task) in
    if existsb (fun d => bool_decide (Task.state d ∈ [TaskState.FAILED; TaskState.CANCELLED]))
         dependencies
    then
      let* task' := Task.new (task
        <| Task.state := TaskState.BLOCKED |>
        <| Task.failure_code := Some "dependency_failed" |>
        <| Task.failure_message := Some "a required dependency did not succeed" |>) in
      Ok (<[Task.id task := task']> tasks, app blocked [Task.id task])
    else if bool_decide (Task.state task = TaskState.BLOCKED) then
      let* task' := Task.new (task
        <| Task.state := TaskState.QUEUED |>
        <| Task.failure_code := None |>
        <| Task.failure_message := None |>) in
      Ok (<[Task.id task := task']> tasks, blocked)
    else Ok st.

(** The ids of the agents that completed the reviewed tasks, or [None] when
    one of them has no completer. *)
Fixpoint completers (tasks : dict Task.t) (reviewed : list string)
    : result (option (list string)) :=
  match reviewed with
  | [] => Ok (Some [])
  | reviewed_task_id :: rest =>
    let* reviewed_task := dict_getitem tasks reviewed_task_id in
    match Task.completed_by_agent_id reviewed_task with
    | None => Ok None
    | Some agent_id =>
      let* others := completers tasks rest in
      Ok (cons agent_id <$> others)
    end
  end.

(** [agents.remove(agent)]: the first equal element. *)
Fixpoint remove_agent (agent : Agent.t) (agents : list Agent.t) : list Agent.t :=
  match agents with
  | [] => []
  | a :: agents => if bool_decide (a = agent) then agents else a :: remove_agent agent agents
  end.

(** The state of the dispatch loop. *)
Record dispatch_state := DispatchState {
  ds_tasks : dict Task.t;
  ds_agents : dict Agent.t;
  ds_budget : Budget.t;
  ds_available : list Agent.t;
  ds_dispatches : list Dispatch.t;
  ds_deferred : list string;
}.

(** The lease for one assignment, and the task and agent that hold it. *)
Definition issue_lease (run : Run.t) (task : Task.t) (agent : Agent.t) (at_ : datetime)
    (key : bytes) (lease_seconds : Z) : result Lease.t :=
  let attempt := (Task.attempt task + 1)%Z in
  let* expires_at := dt_add_seconds at_ lease_seconds in
  let task_digest := task_contract_digest task in
  let agent_digest := agent_contract_digest agent in
  let* token := lease_token (Run.id run) (Task.id task) (Agent.id agent) attempt at_ expires_at
    task_digest agent_digest key in
  Lease.new (Lease.mk token (Task.id task) (Agent.id agent) attempt at_ expires_at
    task_digest agent_digest).

Definition leased_task (task : Task.t) (lease : Lease.t) : result Task.t :=
  Task.new (task <| Task.state := TaskState.LEASED |>
                 <| Task.attempt := (Task.attempt task + 1)%Z |>
                 <| Task.next_eligible_at := None |>
                 <| Task.lease := Some lease |>
                 <| Task.failure_code := None |>
                 <| Task.failure_message := None |>).
Definition leased_agent (agent : Agent.t) (task_id : string) (at_ : datetime) : result Agent.t :=
  Agent.new (agent <| Agent.state := AgentState.LEASED |>
                   <| Agent.current_task_id := Some task_id |>
                   <| Agent.last_heartbeat_at := Some at_ |>).

(** The review bindings name exactly the reviewed tasks. *)
Definition bindings_complete (task : Task.t) : bool :=
  bool_decide (Task.reviewed_task_ids task = []) ||
  same_set (Task.binding_task_ids task) (Task.reviewed_task_ids task).

Definition dispatch_step (run : Run.t) (at_ : datetime) (key : bytes) (lease_seconds slots : Z)
    (st : dispatch_state) (task : Task.t) : result dispatch_state :=
  if (slots <=? Z.of_nat (length (ds_dispatches st)))%Z then Ok st
  else if negb (bindings_complete task) then Ok st
  else
    let* excluded := completers (ds_tasks st) (Task.reviewed_task_ids task) in
    match excluded with
    | None => Ok st
    | Some excluded =>
      match best_agent task (ds_available st) excluded with
      | None => Ok st
      | Some agent =>
        match Budget.reserve (ds_budget st) (Task.estimated_tokens task) 0 1 with
        | Err e =>
          if is_a (exn_cls e) BudgetExceeded
          then Ok (DispatchState (ds_tasks st) (ds_agents st) (ds_budget st) (ds_available st)
                     (ds_dispatches st) (app (ds_deferred st) [Task.id task]))
          else Err e
        | Ok reserved =>
          let* lease := issue_lease run task agent at_ key lease_seconds in
          let* task' := leased_task task lease in
          let* agent' := leased_agent agent (Task.id task) at_ in
          Ok (DispatchState (<[Task.id task := task']> (ds_tasks st))
                (<[Agent.id agent := agent']> (ds_agents st)) reserved
                (remove_agent agent (ds_available st))
                (app (ds_dispatches st)
                  [Dispatch.mk (Task.id task) (Agent.id agent) lease (Task.estimated_tokens task)])
                (ds_deferred st))
        end
      end
    end.

(** [_result(...)] *)
Definition schedule_result (tasks : dict Task.t) (agents : dict Agent.t) (budget : Budget.t)
    (dispatches : list Dispatch.t) (blocked deferred : list string) : ScheduleResult.t :=
  ScheduleResult.mk (sorted_on task_seq (dict_values tasks))
    (sorted_on agent_seq (dict_values agents)) budget dispatches blocked deferred.

Definition is_available (agent : Agent.t) : bool :=
  bool_decide (Agent.state agent ∈ [AgentState.QUEUED; AgentState.AVAILABLE]) &&
  bool_decide (Agent.current_task_id agent = None).

Definition active_count (tasks : list Task.t) : nat :=
  length (filter (fun x => Task.active_state (Task.state x) = true) tasks).

(** The eligible tasks of the first eligible wave, in dispatch order. *)
Definition candidates (tasks : dict Task.t) (at_ : datetime) : result (list Task.t) :=
  let* flags := mapM (fun task => is_eligible task tasks at_) (dict_values tasks) in
  let eligible := fst <$> filter (fun p => p.2 = true) (zip (dict_values tasks) flags) in
  Ok match min_on Task.wave eligible with
     | None => []
     | Some first =>
       sorted_on task_order (filter (fun x => Task.wave x = Task.wave first) eligible)
     end.

(** What [schedule] does to the records once its arguments are checked. *)
Definition dispatch_all (run : Run.t) (tasks : dict Task.t) (agents : dict Agent.t)
    (budget : Budget.t) (blocked : list string) (at_ : datetime) (key : bytes)
    (lease_seconds : Z) : result ScheduleResult.t :=
  let slots := Z.max 0 (Run.max_concurrency run - Z.of_nat (active_count (dict_values tasks))) in
  if (slots =? 0)%Z then Ok (schedule_result tasks agents budget [] blocked [])
  else
    let* queue := candidates tasks at_ in
    let available := filter (fun a => is_available a = true) (dict_values agents) in
    let* st := foldM (dispatch_step run at_ key lease_seconds slots)
      (DispatchState tasks agents budget available [] []) queue in
    Ok (schedule_result (ds_tasks st) (ds_agents st) (ds_budget st) (ds_dispatches st) blocked
          (ds_deferred st)).

Definition schedule (run : Run.t) (tasks : list Task.t) (agents : list Agent.t) (at_ : datetime)
    (key : bytes) (lease_seconds : Z) (budget : option Budget.t) : result ScheduleResult.t :=
  let* now := snapshot_time at_ "scheduler timestamp" in
  validate_membership run tasks agents ;;;
  raise_first [
    (negb (bool_decide (Run.phase run = RunPhase.EXECUTING)),
     SchedulingErr "tasks may only be dispatched while a run is executing");
    ((lease_seconds <? 1)%Z, SchedulingErr "lease_seconds must be positive");
    (key_too_short key, SchedulingErr "lease_signing_key must contain at least 32 bytes") ] ;;;
  assert_acyclic tasks ;;;
  let* reaped := reap_expired_leases tasks agents (default (Run.budget run) budget) now key in
  let tasks := dict_by Task.id (ReapResult.tasks reaped) in
  let agents := dict_by Agent.id (ReapResult.agents reaped) in
  let* ' (tasks, blocked) :=
    foldM block_step (tasks, []) (sorted_on task_order (dict_values tasks)) in
  dispatch_all run tasks agents (ReapResult.budget reaped) blocked now key lease_seconds.

(** ** Operations of the lease holder *)

Definition start (task : Task.t) (agent : Agent.t) (token : string) (key : bytes)
    (at_ : datetime) : result (Task.t * Agent.t) :=
  let* now := snapshot_time at_ "scheduler timestamp" in
  let* _ := validate_lease task agent token now key false in
  raise_if (negb (bool_decide (Task.state task = TaskState.LEASED)) ||
            negb (bool_decide (Agent.state agent = AgentState.LEASED)))
    (LeaseErr "only a newly leased assignment can be started") ;;;
  let* task' := Task.new (task <| Task.state := TaskState.RUNNING |>) in
  let* agent' := Agent.new (agent <| Agent.state := AgentState.RUNNING |>
                                  <| Agent.last_heartbeat_at := Some now |>) in
  Ok (task', agent').

Definition heartbeat (task : Task.t) (agent : Agent.t) (token : string) (key : bytes)
    (at_ : datetime) (lease_seconds : Z) : result (Task.t * Agent.t) :=
  let* now := snapshot_time at_ "scheduler timestamp" in
  let* lease := validate_lease task agent token now key false in
  raise_first [
    (negb (Task.active_state (Task.state task)) || negb (Agent.active_state (Agent.state agent)),
     LeaseErr "only an active assignment may renew its lease");
    ((lease_seconds <? 1)%Z, SchedulingErr "lease_seconds must be positive") ] ;;;
  let* renewed_expiry := dt_add_seconds now lease_seconds in
  let* renewed_token := lease_token (Task.run_id task) (Task.id task) (Agent.id agent)
    (Lease.attempt lease) (Lease.acquired_at lease) renewed_expiry
    (Lease.task_contract_digest lease) (Lease.agent_contract_digest lease) key in
  let* renewed := Lease.new (lease <| Lease.token := renewed_token |>
                                   <| Lease.expires_at := renewed_expiry |>) in
  let* task' := Task.new (task <| Task.lease := Some renewed |>) in
  let* agent' := Agent.new (agent <| Agent.last_heartbeat_at := Some now |>) in
  Ok (task', agent').

Definition succeed (task : Task.t) (agent : Agent.t) (token : string) (key : bytes)
    (evidence : list Evidence.t) (budget : Budget.t) (actual_tokens actual_tool_calls : Z)
    (at_ : datetime) : result CompletionResult.t :=
  let* now := snapshot_time at_ "scheduler timestamp" in
  let* _ := validate_lease task agent token now key false in
  raise_if (negb (Task.active_state (Task.state task)))
    (LeaseErr "only an active assignment may succeed") ;;;
  let* exact_evidence := validate_evidence task evidence in
  validate_settlement_inputs actual_tokens actual_tool_calls ;;;
  let* settled := Budget.settle budget (Task.estimated_tokens task) actual_tokens
    0 actual_tool_calls 1 1 in
  let* task' := Task.new (task
    <| Task.state := TaskState.SUCCEEDED |>
    <| Task.lease := None |>
    <| Task.result_evidence_ids := Evidence.id <$> exact_evidence |>
    <| Task.completed_by_agent_id := Some (Agent.id agent) |>
    <| Task.failure_code := None |>
    <| Task.failure_message := None |>) in
  let* agent' := released_agent agent now in
  Ok (CompletionResult.mk task' agent' settled).

Definition fail (task : Task.t) (agent : Agent.t) (token : string) (key : bytes)
    (failure_code failure_message : string) (retryable : bool) (budget : Budget.t)
    (actual_tokens actual_tool_calls : Z) (at_ : datetime) : result CompletionResult.t :=
  let* now := snapshot_time at_ "scheduler timestamp" in
  let* _ := validate_lease task agent token now key true in
  raise_if (negb (Task.active_state (Task.state task)) ||
            negb (Agent.active_state (Agent.state agent)))
    (LeaseErr "only an active assignment may fail") ;;;
  fail_validated task agent failure_code failure_message retryable budget actual_tokens
    actual_tool_calls now.
