(* ===== verification/Fixtures.v ===== *)
(** * Concrete records

    A small closed project on which the witnesses evaluate the definitions:
    one run, a design task, its critic review and a verification task, the
    two agents that did them and their evidence. *)
From S2P Require Import Prelude PyStr PyDict Json Sha256 DateTime Enums.
From S2P Require Import Models Digests TaskGraph Scheduler.

Local Open Scope string_scope.
Local Open Scope Z_scope.

(** 2026-01-01T00:00:00+00:00 and seconds after it. *)
Definition clock (s : Z) : datetime := DT (739617 * us_day - us_day + s * us_second) (Some 0).

Definition digest_of (s : string) : string := sha256_text s.

Definition demo_run : Run.t :=
  Run.mk "run_1" "Blink an LED" (clock 0) RunPhase.CLARIFYING CoordinationStage.QUESTIONING None 0
    true true true None None 2
    (Budget.mk (Some 1000) None (Some 10) 0 0 0 0 0 0) 0.

Definition demo_check : CheckRequirement.t := CheckRequirement.mk "drc" "engine" "policy-1".

Definition demo_task (id : string) (kind : TaskKind.t) (seq : Z) : Task.t :=
  Task.mk id "run_1" id "Do it" kind seq 0 0 [] [] None [] RiskClass.LOW None None None []
    [] [] 100 RetryPolicy.default TaskState.QUEUED 0 None None [] None None None.

Definition demo_agent (id : string) (cls : AgentClass.t) (seq : Z) : Agent.t :=
  Agent.mk id "run_1" id seq cls None [] AgentState.AVAILABLE 0 None None.

Definition demo_evidence (id task : string) : Evidence.t :=
  Evidence.mk id "run_1" EvidenceKind.TOOL_OUTPUT "tool" (digest_of id) "" (clock 5) (Some task)
    None None None "{}".

Definition designer : Agent.t := demo_agent "designer" AgentClass.DOMAIN_DESIGNER 1.
Definition critic : Agent.t := demo_agent "critic" AgentClass.CRITIC 2.

Definition succeeded (x : Task.t) (agent : string) (evidence : list string) : Task.t :=
  x <| Task.state := TaskState.SUCCEEDED |> <| Task.attempt := 1 |>
    <| Task.completed_by_agent_id := Some agent |> <| Task.result_evidence_ids := evidence |>.

Definition design_task : Task.t := demo_task "design" TaskKind.DESIGN 1.
Definition design_done : Task.t := succeeded design_task "designer" ["ev_design"].
Definition design_evidence : Evidence.t := demo_evidence "ev_design" "design".
Definition review_evidence : Evidence.t := demo_evidence "ev_review" "review".

Definition design_result : string :=
  match task_result_digest design_done [design_evidence] with Ok d => d | Err _ => "" end.

Definition review_task : Task.t :=
  (demo_task "review" TaskKind.REVIEW 2)
    <| Task.dependencies := ["design"] |>
    <| Task.required_agent_class := Some AgentClass.CRITIC |>
    <| Task.reviewed_task_ids := ["design"] |>
    <| Task.reviewed_result_bindings := [ReviewedTaskResultBinding.mk "design" design_result] |>.
Definition review_done : Task.t := succeeded review_task "critic" ["ev_review"].

Definition demo_tasks : list Task.t := [design_done; review_done].

Definition sealed_run : Run.t :=
  demo_run <| Run.task_inventory_digest :=
    match task_inventory_digest "run_1" demo_tasks with Ok d => Some d | Err _ => None end |>.

(** ** Under the scheduler

    A run that executes: the design task is dispatched to the designer ten
    seconds after the epoch of the fixtures, for a minute. *)

(** The value of a computation that succeeds. *)
Definition got {A} (d : A) (r : result A) : A := match r with Ok a => a | Err _ => d end.

Definition lease_key : bytes := utf8 "a signing key of thirty-two bytes".
Definition executing_run : Run.t := demo_run <| Run.phase := RunPhase.EXECUTING |>.
Definition queued_tasks : list Task.t := [design_task; review_task].
Definition free_agents_list : list Agent.t := [designer; critic].

Definition demo_schedule : result ScheduleResult.t :=
  schedule executing_run queued_tasks free_agents_list (clock 10) lease_key 60 None.
Definition demo_scheduled : ScheduleResult.t :=
  got (ScheduleResult.mk [] [] (Run.budget demo_run) [] [] []) demo_schedule.
(** The design task and the designer while the lease is held. *)
Definition working_task : Task.t := hd design_task (ScheduleResult.tasks demo_scheduled).
Definition working_agent : Agent.t := hd designer (ScheduleResult.agents demo_scheduled).
Definition working_token : string := from_option Lease.token "" (Task.lease working_task).

Definition demo_success : result CompletionResult.t :=
  succeed working_task working_agent working_token lease_key [design_evidence]
    (ScheduleResult.budget demo_scheduled) 40 2 (clock 20).
Definition demo_succeeded : CompletionResult.t :=
  got (CompletionResult.mk design_task designer (Run.budget demo_run)) demo_success.
