(* ===== verification/StoreSafety.v ===== *)
(** * Guarantees of the store across operations *)
From S2P Require Import Prelude PyDict PyStr Sha256 Json DateTime Enums Models Digests DigestFacts Effect Codec.
From S2P Require Import CodecFacts Store StoreFacts StoreRuns StoreLog TaskGraph Scheduler Fixtures.

Local Open Scope string_scope.

(** ** The revision of a run *)

(** Run [run_id] has a row whose revision is above [bound]. *)
Definition revision_above (run_id : string) (bound : Z) (d : database) : Prop :=
  NoDup (rr_id <$> db_runs d) /\
  exists r, r ∈ db_runs d /\ rr_id r = run_id /\ (bound < rr_revision r)%Z.

Lemma new_run_ids l run :
  NoDup (rr_id <$> l) -> Run.id run ∉ (rr_id <$> l) -> NoDup (rr_id <$> (l ++ [stored_run run])%list).
Proof.
  intros Hnd Hn. apply NoDup_fmap_snoc; [done|]. intros y Hy E. apply Hn. simpl in E. rewrite <- E.
  by apply list_elem_of_fmap_2.
Qed.

Lemma revision_above_save run_id bound run expected :
  preserves (revision_above run_id bound) (save_run run expected).
Proof.
  intros c c' u [Hnd (r & Hr & Hid & Hb)] H. destruct expected as [e|].
  - apply save_run_update_Ok in H as (_ & _ & _ & Hrev & (r0 & Hr0 & Hid0 & He) & ->).
    unfold revision_above. change (db_runs ((conn_db c) <| db_runs := ?l |>)) with l.
    split; [by rewrite replaced_ids|]. destruct (decide (run_id = Run.id run)) as [->|Hne].
    + exists (stored_run run). split; [|split; [done|]].
      * apply (replaced_elem _ _ _ r0); [done..|by left].
      * assert (r = r0) as -> by (apply (unique_by rr_id (db_runs (conn_db c))); congruence || done).
        simpl. lia.
    + exists r. split; [|done]. apply (replaced_elem _ _ _ r0); [done..|]. right. split; [done|congruence].
  - apply save_new_run_Ok in H as (_ & Hn & ->). unfold revision_above.
    change (db_runs ((conn_db c) <| db_runs := ?l |>)) with l. split.
    + by apply new_run_ids.
    + exists r. split; [apply elem_of_app; by left|done].
Qed.

Lemma revision_above_perform run_id bound op : preserves (revision_above run_id bound) (perform op).
Proof.
  apply preserves_perform. intros op' Hin. destruct op'; simpl.
  - apply revision_above_save.
  - by apply preserves_put_task.
  - by apply preserves_put.
  - by apply preserves_put.
  - by apply preserves_put.
  - by apply preserves_capture.
  - by apply preserves_append.
  - exfalso. destruct op; simpl in Hin; set_solver.
Qed.

Lemma save_below_fails run_id bound run expected c :
  revision_above run_id bound (conn_db c) -> Run.id run = run_id -> (expected <= bound)%Z ->
  exists e, (save_run run (Some expected) c).2 = Err e.
Proof.
  intros [Hnd (r & Hr & Hid & Hb)] Hrun He.
  destruct (save_run run (Some expected) c) as [c' [u|e]] eqn:E; [|by exists e]. exfalso.
  apply save_run_update_Ok in E as (_ & _ & _ & _ & (r0 & Hr0 & Hid0 & Hrev) & _).
  assert (r = r0) as -> by (apply (unique_by rr_id (db_runs (conn_db c))); congruence || done). lia.
Qed.

(** The revision after a save that returns. *)
Lemma save_revision_above run expected c c' u :
  NoDup (rr_id <$> db_runs (conn_db c)) -> save_run run (Some expected) c = (c', Ok u) ->
  revision_above (Run.id run) expected (conn_db c').
Proof.
  intros Hnd H. apply save_run_update_Ok in H as (_ & _ & _ & Hrev & (r0 & Hr0 & Hid0 & He) & ->).
  unfold revision_above. change (db_runs ((conn_db c) <| db_runs := ?l |>)) with l.
  split; [by rewrite replaced_ids|]. exists (stored_run run). split_and!; [|done|simpl; lia].
  apply (replaced_elem _ _ _ r0); [done..|by left].
Qed.

(** ** The sealed inventory *)

Lemma sealed_save run_id digest run expected :
  storable run -> preserves (sealed run_id digest) (save_run run expected).
Proof.
  intros Hrun c c' u [[Hnd Hnt] (r & Hr & Hd) Ht] H. destruct expected as [e|].
  - apply save_run_update_Ok in H as (cur & Hcur & Him & _ & (r0 & Hr0 & Hid0 & He) & ->).
    constructor.
    + constructor; [|done]. change (db_runs ((conn_db c) <| db_runs := ?l |>)) with l.
      by rewrite replaced_ids.
    + destruct (decide (run_id = Run.id run)) as [->|Hne].
      * exists run. split.
        -- apply run_in_stored; [|done|]; change (db_runs ((conn_db c) <| db_runs := ?l |>)) with l.
           ++ by rewrite replaced_ids.
           ++ apply (replaced_elem _ _ _ r0); [done..|by left].
        -- rewrite Hr in Hcur. apply Ok_inj in Hcur as <-. destruct Him as [Him|Him];
             [by rewrite Him in Hd|by rewrite Him].
      * exists r. split; [|done]. rewrite <- Hr. apply run_in_rows. by apply filter_replaced.
    + exact Ht.
  - apply save_new_run_Ok in H as (_ & Hn & ->). constructor.
    + constructor; [|done]. change (db_runs ((conn_db c) <| db_runs := ?l |>)) with l.
      by apply new_run_ids.
    + exists r. split; [|done]. rewrite <- Hr. apply run_in_rows.
      change (db_runs ((conn_db c) <| db_runs := ?l |>)) with l.
      rewrite filter_app, filter_cons, decide_False, filter_nil, app_nil_r; [done|].
      intros E. apply run_in_inv in Hr as (r0 & Hin & Hid & _). apply Hn. simpl in E.
      rewrite E, <- Hid. by apply list_elem_of_fmap_2.
    + exact Ht.
Qed.

Lemma sealed_perform run_id digest op :
  records_ok op -> preserves (sealed run_id digest) (perform op).
Proof.
  intros Hok. apply preserves_perform. intros op' Hin. pose proof (Hok _ Hin) as Hop.
  destruct op'; simpl in *.
  - by apply sealed_save.
  - by apply put_task_sealed.
  - by apply put_other_sealed.
  - by apply put_other_sealed.
  - by apply put_other_sealed.
  - apply preserves_capture. intros d l. by apply sealed_same.
  - apply preserves_append. intros d l. by apply sealed_same.
  - exfalso. destruct op; simpl in Hin; set_solver.
Qed.

(** ** The log *)

(** What the calls that return add to the log of [run_id]. *)
Fixpoint recorded (run_id : string) (ops : list operation) (c : conn)
  : list OrchestrationEvent.t :=
  match ops with
  | [] => []
  | op :: ops =>
    let '(c', r) := perform op c in
    (match r with Ok _ => appended run_id op | Err _ => [] end ++ recorded run_id ops c')%list
  end.

Lemma perform_depth op c c' r : perform op c = (c', r) -> conn_depth c' = conn_depth c.
Proof. intros E. pose proof (balanced_perform op c) as H. by rewrite E in H. Qed.

Lemma perform_all_depth ops c : conn_depth (perform_all ops c) = conn_depth c.
Proof.
  revert c. induction ops as [|op ops IH]; intros c; [done|]. simpl. rewrite IH.
  apply balanced_perform.
Qed.

(** ** Evidence *)

Definition evidence_row (x : Evidence.t) : row :=
  Row (Evidence.id x) (Evidence.run_id x)
    [("task_id", truthy_text (Evidence.task_id x));
     ("content_digest", CText (Evidence.content_digest x))] (record_body x).

Lemma capture_Ok x c c' u :
  capture_evidence x c = (c', Ok u) ->
  evidence_row x ∈ db_evidence (conn_db c') /\
  forall r, r ∈ db_evidence (conn_db c) -> r ∈ db_evidence (conn_db c').
Proof.
  intros (c1 & H%rethrow_Ok & ->)%transaction_Ok.
  apply mbind_M_Ok in H as (d & c2 & [-> ->]%reads_Ok & H).
  destruct (existsb _ _); [done|]. destruct (run_exists _ _); [|done].
  apply writes_Ok in H as ->. cbn [conn_db].
  change (db_evidence ((conn_db c) <| db_evidence := ?l |>)) with l. split.
  - apply elem_of_app. right. by left.
  - intros r Hr. apply elem_of_app. by left.
Qed.

Lemma evidence_stays r op : preserves (fun d => r ∈ db_evidence d) (perform op).
Proof.
  apply preserves_perform. intros op' Hin. destruct op'; simpl.
  - by apply preserves_save_run.
  - by apply preserves_put_task.
  - by apply preserves_put.
  - by apply preserves_put.
  - by apply preserves_put.
  - intros c c' u Hr H. by apply capture_Ok in H as [_ H]; apply H.
  - by apply preserves_append.
  - exfalso. destruct op; simpl in Hin; set_solver.
Qed.

Lemma capture_again_fails x r c :
  r ∈ db_evidence (conn_db c) -> row_id r = Evidence.id x ->
  exists e, (capture_evidence x c).2 = Err e.
Proof.
  intros Hr Hid. destruct (capture_evidence x c) as [c' [u|e]] eqn:E; [|by exists e]. exfalso.
  apply transaction_Ok in E as (c1 & H%rethrow_Ok & _).
  apply mbind_M_Ok in H as (d & c2 & [-> ->]%reads_Ok & H). cbn [conn_db] in H.
  destruct (existsb _ _) eqn:Ee; [done|]. rewrite existsb_Forall, Forall_forall in Ee.
  specialize (Ee r Hr). apply bool_decide_eq_false in Ee. by apply Ee.
Qed.

(** ** The guarantees *)

(** A call that raises outside any transaction leaves the connection, its
    database and its nesting depth, exactly as it found it. *)
Theorem failed_call_changes_nothing op c c' e :
  conn_depth c = 0%nat -> perform op c = (c', Err e) -> c' = c.
Proof. intros Hd H. by eapply perform_fails. Qed.

(** C26. Once a run is sealed, no sequence of calls changes the inventory: the run
    keeps its digest and the tasks that are stored for it keep having it. *)
Theorem sealed_inventory_is_immutable run_id digest ops c :
  conn_depth c = 0%nat -> (forall op, op ∈ ops -> records_ok op) ->
  sealed run_id digest (conn_db c) -> sealed run_id digest (conn_db (perform_all ops c)).
Proof.
  intros Hd Hops. apply perform_all_preserves; [|done]. intros op Hop. by apply sealed_perform, Hops.
Qed.

(** C28. No update is lost: after a save at revision [e1] returned, whatever calls
    follow, a writer that read the run at [e1] or earlier cannot save it any
    more, and its attempt changes nothing. *)
Theorem no_lost_update run1 run2 e1 e2 ops c c1 :
  conn_depth c = 0%nat -> NoDup (rr_id <$> db_runs (conn_db c)) ->
  perform (SaveRun run1 (Some e1)) c = (c1, Ok tt) ->
  Run.id run2 = Run.id run1 -> (e2 <= e1)%Z ->
  exists e, perform (SaveRun run2 (Some e2)) (perform_all ops c1) = (perform_all ops c1, Err e).
Proof.
  intros Hd Hnd H Hid He. pose proof (perform_depth _ _ _ _ H) as Hd1.
  assert (revision_above (Run.id run1) e1 (conn_db (perform_all ops c1))) as Habove.
  { apply perform_all_preserves; [|congruence|by eapply save_revision_above].
    intros op _. apply revision_above_perform. }
  destruct (save_below_fails _ _ run2 e2 _ Habove Hid He) as [e Hf]. exists e.
  destruct (perform (SaveRun run2 (Some e2)) (perform_all ops c1)) as [c2 r] eqn:E.
  simpl in E. rewrite E in Hf. simpl in Hf. subst r. f_equal.
  eapply (perform_fails (SaveRun run2 (Some e2))); [exact E|]. rewrite perform_all_depth. congruence.
Qed.

(** A run that was saved is the run that is read: nothing is lost in its row,
    the other runs are read as before, and the save replaced exactly the
    revision that the writer expected (a new run replaced nothing). *)
Theorem saved_run_is_read_back run expected c c' :
  NoDup (rr_id <$> db_runs (conn_db c)) -> storable run ->
  perform (SaveRun run expected) c = (c', Ok tt) ->
  get_run (Run.id run) c' = (c', Ok run) /\
  (forall run_id, run_id <> Run.id run -> run_in (conn_db c') run_id = run_in (conn_db c) run_id) /\
  match expected with
  | Some e => exists old, run_in (conn_db c) (Run.id run) = Ok old /\
                Run.revision old = e /\ Run.revision run = (e + 1)%Z
  | None => Run.revision run = 0%Z /\ run_exists (conn_db c) (Run.id run) = false
  end.
Proof.
  intros Hnd Hrun H. rewrite get_run_reads. destruct expected as [e|].
  - apply save_run_update_Ok in H as (old & Hold & _ & Hrev & (r0 & Hr0 & Hid0 & He) & ->).
    split_and!.
    + f_equal. apply run_in_stored; [|done|]; change (db_runs ((conn_db c) <| db_runs := ?l |>)) with l.
      * by rewrite replaced_ids.
      * apply (replaced_elem _ _ _ r0); [done..|by left].
    + intros run_id Hn. apply run_in_rows. by apply filter_replaced.
    + exists old. split_and!; [done| |done]. apply run_in_inv in Hold as (r & Hr & Hid & Hrr & _).
      assert (r = r0) as -> by (apply (unique_by rr_id (db_runs (conn_db c))); congruence || done).
      congruence.
  - apply save_new_run_Ok in H as (Hrev & Hn & ->). split_and!.
    + f_equal. apply run_in_stored; [by apply new_run_ids|done|]. cbn. apply elem_of_app. right. by left.
    + intros run_id Hne. apply run_in_rows.
      change (db_runs ((conn_db c) <| db_runs := ?l |>)) with l.
      by rewrite filter_app, filter_cons, decide_False, filter_nil, app_nil_r.
    + done.
    + by apply run_exists_false.
Qed.

(** A task that was written is the task that is listed: the tasks of its run
    are the ones that were listed before, with the task in the place of the
    one with its id. *)
Theorem written_task_is_listed x tasks c c' :
  db_wf (conn_db c) -> storable x -> list_tasks (Task.run_id x) c = (c, Ok tasks) ->
  perform (PutTask x) c = (c', Ok tt) ->
  exists tasks', list_tasks (Task.run_id x) c' = (c', Ok tasks') /\
    tasks' ≡ₚ with_task_written tasks x.
Proof.
  intros Hwf Hx Ht H. apply put_task_Ok in H. rewrite list_tasks_reads in Ht. injection Ht as Ht.
  destruct (written_tasks _ _ _ _ Hwf Ht Hx eq_refl) as (tasks' & Ht' & Hp). exists tasks'.
  split; [|done]. rewrite list_tasks_reads. f_equal. by rewrite H.
Qed.

(** C27. The audit log of a run is the list of the events of the calls that
    returned, in the order of the calls: nothing else adds to it and nothing
    removes from it, so the log of before is always a prefix. *)
Theorem audit_log_refines_calls run_id ops c l :
  conn_depth c = 0%nat -> (forall op, op ∈ ops -> records_ok op) ->
  log_in (conn_db c) run_id = Ok l ->
  log_in (conn_db (perform_all ops c)) run_id = Ok (l ++ recorded run_id ops c)%list.
Proof.
  revert l c. induction ops as [|op ops IH]; intros l c Hd Hops Hl; [by rewrite app_nil_r|]. simpl.
  destruct (perform op c) as [c1 r] eqn:E. pose proof (perform_depth _ _ _ _ E) as Hd1. simpl.
  rewrite app_assoc. apply IH; [congruence|intros; apply Hops; by right|]. destruct r as [u|e].
  - eapply perform_log; [apply Hops; by left|exact E|exact Hl].
  - apply perform_fails in E as ->; [|done]. by rewrite app_nil_r.
Qed.

(** C29. The hash of the last event commits to the whole log: two logs that are
    read and verified, from any two databases, and end with the same hash are
    equal, or else they hold two events whose hashed texts, which the
    statement exhibits, are a SHA-256 collision. *)
Theorem tail_hash_commits_to_log d1 d2 run1 run2 l1 l2 e1 e2 :
  log_in d1 run1 = Ok l1 -> log_in d2 run2 = Ok l2 ->
  last l1 = Some e1 -> last l2 = Some e2 ->
  OrchestrationEvent.event_hash e1 = OrchestrationEvent.event_hash e2 ->
  l1 = l2 \/ events_collide l1 l2.
Proof.
  intros H1 H2 Hl1 Hl2 Hh.
  assert (forall (l : list OrchestrationEvent.t) e, last l = Some e -> e ∈ l) as Hlast.
  { intros l e [l' ->]%last_Some. apply elem_of_app. right. by left. }
  pose proof (fun e => log_events_ok _ _ _ e H1) as Ho1.
  pose proof (fun e => log_events_ok _ _ _ e H2) as Ho2.
  apply log_in_Ok in H1 as [_ H1], H2 as [_ H2].
  destruct (same_tail_same_length l1 l2 e1 e2) as [Hlen|Hc];
    [done..|by apply Ho1, Hlast|by apply Ho2, Hlast|done| |by right].
  apply same_tail_same_chain; [done..|]. unfold tail_hash. by rewrite Hl1, Hl2.
Qed.

(** Captured evidence is permanent: whatever calls follow, its row is still
    there, and evidence with its id cannot be captured again. *)
Theorem captured_evidence_is_permanent x y ops c c1 :
  conn_depth c = 0%nat -> perform (CaptureEvidence x) c = (c1, Ok tt) ->
  Evidence.id y = Evidence.id x ->
  evidence_row x ∈ db_evidence (conn_db (perform_all ops c1)) /\
  exists e, (perform (CaptureEvidence y) (perform_all ops c1)).2 = Err e.
Proof.
  intros Hd H Hid. pose proof (perform_depth _ _ _ _ H) as Hd1.
  apply capture_Ok in H as [Hin _].
  assert (evidence_row x ∈ db_evidence (conn_db (perform_all ops c1))) as Hstays.
  { apply (perform_all_preserves (fun d => evidence_row x ∈ db_evidence d));
      [intros; apply evidence_stays|congruence|done]. }
  split; [done|]. eapply capture_again_fails; [exact Hstays|]. by rewrite Hid.
Qed.

(** Evidence that is captured with the empty text as its task id makes the
    evidence of its run unreadable: the column is written as null, which does
    not match the record that the row holds. *)
Theorem evidence_of_empty_task_is_unreadable x c c' :
  storable x -> Evidence.task_id x = Some "" ->
  perform (CaptureEvidence x) c = (c', Ok tt) ->
  exists e, (list_evidence (Evidence.run_id x) c').2 = Err e.
Proof.
  intros Hx Ht H. apply capture_Ok in H as [Hin _].
  unfold list_evidence, list_records, mbind_M, reads, lift. cbn [conn_db snd].
  eapply (mapM_fails _ _ (evidence_row x)).
  - rewrite elem_of_sorted_on, list_elem_of_filter. done.
  - unfold read_row. cbn [row_body evidence_row]. rewrite decode_body by done. cbn [bind].
    unfold index_matches. simpl. unfold col. simpl. rewrite Ht. simpl.
    rewrite andb_false_r. reflexivity.
Qed.

(** ** At concrete inputs *)

Definition new_conn : conn := Conn empty_database 0.
(** A run is created, and its task is written. *)
Definition run_conn : conn := perform_all [SaveRun demo_run None] new_conn.
Definition demo_conn : conn := perform_all [PutTask design_task] run_conn.
Definition demo_digest : string := got "" (task_inventory_digest "run_1" [design_task]).
(** The run is then sealed at revision one. *)
Definition sealing_run : Run.t :=
  demo_run <| Run.revision := 1%Z |> <| Run.task_inventory_digest := Some demo_digest |>.
Definition sealed_conn : conn := (perform (SaveRun sealing_run (Some 0%Z)) demo_conn).1.

Lemma sealing_run_storable : storable sealing_run.
Proof. constructor; vm_compute; done. Qed.
Lemma design_task_storable : storable design_task.
Proof. constructor; [vm_compute; reflexivity|..]; try done; set_solver. Qed.
Lemma design_done_ok : records_ok (PutTask design_done).
Proof.
  intros op ->%list_elem_of_singleton.
  constructor; [vm_compute; reflexivity|..]; try done; set_solver.
Qed.
Lemma run_depth : conn_depth run_conn = 0%nat.
Proof. exact (perform_all_depth _ _). Qed.
Lemma demo_depth : conn_depth demo_conn = 0%nat.
Proof. exact (eq_trans (perform_all_depth _ _) run_depth). Qed.
Lemma runs_unique : NoDup (rr_id <$> db_runs (conn_db demo_conn)).
Proof. apply (bool_decide_unpack _). vm_compute. exact I. Qed.
Lemma seal_returns : perform (SaveRun sealing_run (Some 0%Z)) demo_conn = (sealed_conn, Ok tt).
Proof. vm_compute. reflexivity. Qed.
Lemma sealed_depth : conn_depth sealed_conn = 0%nat.
Proof. exact (eq_trans (perform_depth _ _ _ _ seal_returns) demo_depth). Qed.
Lemma sealed_now : sealed "run_1" demo_digest (conn_db sealed_conn).
Proof.
  constructor.
  - constructor; apply (bool_decide_unpack _); vm_compute; exact I.
  - exists sealing_run. split; vm_compute; reflexivity.
  - exists [design_task]. split; vm_compute; reflexivity.
Qed.

Lemma failed_call_changes_nothing_witness : exists e,
  perform (PutTask design_task) new_conn = (new_conn, Err e).
Proof.
  destruct (perform (PutTask design_task) new_conn) as [c' [u|e]] eqn:E;
    [exfalso; vm_compute in E; discriminate E|].
  exists e. by rewrite <- (failed_call_changes_nothing _ new_conn _ _ eq_refl E).
Defined.

Lemma sealed_inventory_is_immutable_witness :
  sealed "run_1" demo_digest (conn_db (perform_all [PutTask design_done] sealed_conn)).
Proof.
  apply sealed_inventory_is_immutable; [exact sealed_depth| |exact sealed_now].
  apply Forall_forall. constructor; [exact design_done_ok|constructor].
Defined.

Lemma no_lost_update_witness : exists e,
  perform (SaveRun sealing_run (Some 0%Z)) (perform_all [PutTask design_done] sealed_conn) =
  (perform_all [PutTask design_done] sealed_conn, Err e).
Proof.
  apply (no_lost_update sealing_run sealing_run 0 0 [PutTask design_done] demo_conn sealed_conn);
    [exact demo_depth|exact runs_unique|exact seal_returns|reflexivity|lia].
Defined.

Lemma saved_run_is_read_back_witness : get_run "run_1" sealed_conn = (sealed_conn, Ok sealing_run).
Proof.
  exact (proj1 (saved_run_is_read_back sealing_run (Some 0%Z) demo_conn sealed_conn
    runs_unique sealing_run_storable seal_returns)).
Defined.

Lemma written_task_is_listed_witness : exists tasks',
  list_tasks "run_1" demo_conn = (demo_conn, Ok tasks') /\
  tasks' ≡ₚ with_task_written [] design_task.
Proof.
  apply (written_task_is_listed design_task [] run_conn demo_conn).
  - constructor; apply (bool_decide_unpack _); vm_compute; exact I.
  - exact design_task_storable.
  - vm_compute. reflexivity.
  - vm_compute. reflexivity.
Defined.

Definition demo_event : OrchestrationEvent.t :=
  got (OrchestrationEvent.mk "" "" 0 EventType.RUN_CREATED "" (clock 0) "" "" [] "" "")
    (OrchestrationEvent.create "event_1" "run_1" 1 EventType.RUN_CREATED "user" (clock 0) "run_1" None
      [] "").
(** The second call repeats the first and raises. *)
Definition logged_calls : list operation := [AppendEvent demo_event; AppendEvent demo_event].
Definition logged_conn : conn := perform_all [AppendEvent demo_event] run_conn.

Lemma append_records_ok e : storable e -> records_ok (AppendEvent e).
Proof. by intros He op ->%list_elem_of_singleton. Qed.
Lemma logged_calls_ok : Forall records_ok logged_calls.
Proof.
  assert (storable demo_event) by (constructor; vm_compute; done).
  repeat constructor; by apply append_records_ok.
Qed.

Lemma audit_log_refines_calls_witness :
  log_in (conn_db (perform_all logged_calls run_conn)) "run_1" = Ok [demo_event].
Proof.
  rewrite (audit_log_refines_calls "run_1" _ run_conn []).
  - vm_compute. reflexivity.
  - exact run_depth.
  - exact (proj1 (Forall_forall _ _) logged_calls_ok).
  - vm_compute. reflexivity.
Defined.

Lemma demo_log : log_in (conn_db logged_conn) "run_1" = Ok [demo_event].
Proof. vm_compute. reflexivity. Qed.

Lemma tail_hash_commits_to_log_witness :
  [demo_event] = [demo_event] \/ events_collide [demo_event] [demo_event].
Proof.
  exact (tail_hash_commits_to_log _ _ _ _ _ _ demo_event demo_event demo_log demo_log
    eq_refl eq_refl eq_refl).
Defined.

Definition run_evidence : Evidence.t := demo_evidence "ev_design" "".
Definition captured_conn : conn := (perform (CaptureEvidence run_evidence) run_conn).1.

Lemma capture_returns : perform (CaptureEvidence run_evidence) run_conn = (captured_conn, Ok tt).
Proof. vm_compute. reflexivity. Qed.

Lemma captured_evidence_is_permanent_witness : exists e,
  (perform (CaptureEvidence design_evidence) captured_conn).2 = Err e.
Proof.
  exact (proj2 (captured_evidence_is_permanent run_evidence design_evidence [] run_conn
    captured_conn run_depth capture_returns eq_refl)).
Defined.

Lemma evidence_of_empty_task_is_unreadable_witness : exists e,
  (list_evidence "run_1" captured_conn).2 = Err e.
Proof.
  apply (evidence_of_empty_task_is_unreadable run_evidence run_conn captured_conn);
    [constructor; vm_compute; done|reflexivity|exact capture_returns].
Defined.
