(* ===== verification/ModelFacts.v ===== *)
(** * Properties of the records, their digests and the task graph

    Budget accounting, retry delays, and what the digests of contracts,
    inventories and events bind. *)
From S2P Require Import Prelude PyStr PyDict Json Sha256 DateTime Enums.
From S2P Require Import Models Digests DigestFacts TaskGraph Fixtures.

Local Open Scope string_scope.
Local Open Scope Z_scope.

(** ** Budgets *)

Definition within (limit : option Z) (amount : Z) : Prop :=
  match limit with None => True | Some l => amount <= l end.

(** The budget invariant: nothing is negative and what is used or held fits. *)
Record budget_ok (b : Budget.t) : Prop := {
  bo_token_limit : from_option (Z.le 0) True (Budget.token_limit b);
  bo_call_limit : from_option (Z.le 0) True (Budget.tool_call_limit b);
  bo_dispatch_limit : from_option (Z.le 0) True (Budget.agent_dispatch_limit b);
  bo_nonneg : 0 <= Budget.tokens_used b /\ 0 <= Budget.tokens_reserved b /\
    0 <= Budget.tool_calls_used b /\ 0 <= Budget.tool_calls_reserved b /\
    0 <= Budget.agent_dispatches_used b /\ 0 <= Budget.agent_dispatches_reserved b;
  bo_tokens : within (Budget.token_limit b) (Budget.tokens_used b + Budget.tokens_reserved b);
  bo_calls : within (Budget.tool_call_limit b)
    (Budget.tool_calls_used b + Budget.tool_calls_reserved b);
  bo_dispatches : within (Budget.agent_dispatch_limit b)
    (Budget.agent_dispatches_used b + Budget.agent_dispatches_reserved b);
}.

Lemma check_within limit amount label :
  (Budget.check limit amount label).1 = false <-> within limit amount.
Proof. destruct limit; simpl; [|done]. rewrite Z.gtb_ltb, Z.ltb_ge. done. Qed.

Lemma opt_negative_false limit :
  opt_bad Budget.negative limit = false <-> from_option (Z.le 0) True limit.
Proof. destruct limit; simpl; [|done]. apply Z.ltb_ge. Qed.

Lemma budget_valid_iff b : Budget.post_init b = Ok tt <-> budget_ok b.
Proof.
  unfold Budget.post_init. rewrite raise_first_Ok, !Forall_cons. rewrite !check_within.
  cbn [fst]. rewrite !orb_false_iff, !opt_negative_false. unfold Budget.negative.
  rewrite !Z.ltb_ge. split.
  - intros (((((((((? & ?) & ?) & ?) & ?) & ?) & ?) & ?) & ?) & ? & ? & ? & _).
    constructor; auto 10.
  - intros [? ? ? (?&?&?&?&?&?) ? ? ?]. split_and!; auto.
Qed.

Lemma budget_new_Ok b b' : Budget.new b = Ok b' <-> budget_ok b /\ b' = b.
Proof. unfold Budget.new. rewrite seq_Ok, budget_valid_iff. naive_solver. Qed.

Definition reserved (b : Budget.t) (tokens calls dispatches : Z) : Budget.t :=
  b <| Budget.tokens_reserved := Budget.tokens_reserved b + tokens |>
    <| Budget.tool_calls_reserved := Budget.tool_calls_reserved b + calls |>
    <| Budget.agent_dispatches_reserved := Budget.agent_dispatches_reserved b + dispatches |>.

(** The quantities fit into what is left of each limit. *)
Definition fits (b : Budget.t) (tokens calls dispatches : Z) : Prop :=
  within (Budget.token_limit b) (Budget.tokens_used b + Budget.tokens_reserved b + tokens) /\
  within (Budget.tool_call_limit b)
    (Budget.tool_calls_used b + Budget.tool_calls_reserved b + calls) /\
  within (Budget.agent_dispatch_limit b)
    (Budget.agent_dispatches_used b + Budget.agent_dispatches_reserved b + dispatches).

Lemma within_eq limit x y : x = y -> within limit x <-> within limit y.
Proof. by intros ->. Qed.

Lemma reserved_ok_iff b t c d :
  budget_ok b -> 0 <= t -> 0 <= c -> 0 <= d ->
  budget_ok (reserved b t c d) <-> fits b t c d.
Proof.
  intros [? ? ? (?&?&?&?&?&?) ? ? ?] ???. unfold fits. split.
  - intros [_ _ _ _ Ht Hc Hd]. simpl in *. split_and!; (eapply within_eq; [|eassumption]); lia.
  - intros (Ht & Hc & Hd). constructor; simpl; try done; [lia|..];
      (eapply within_eq; [|eassumption]); lia.
Qed.

Lemma reserve_Ok b t c d b' :
  budget_ok b ->
  Budget.reserve b t c d = Ok b' <->
  0 <= t /\ 0 <= c /\ 0 <= d /\ fits b t c d /\ b' = reserved b t c d.
Proof.
  intros Hb. unfold Budget.reserve. rewrite seq_Ok, raise_if_Ok, budget_new_Ok, Z.ltb_ge.
  change (_ <| Budget.agent_dispatches_reserved := _ |>) with (reserved b t c d).
  split.
  - intros (? & Hr & ->). rewrite reserved_ok_iff in Hr by (done || lia). split_and!; lia || done.
  - intros (? & ? & ? & ? & ->). split; [lia|]. by rewrite reserved_ok_iff.
Qed.

Definition settled (b : Budget.t) (rt at_ rc ac rd ad : Z) : Budget.t :=
  b <| Budget.tokens_reserved := Budget.tokens_reserved b - rt |>
    <| Budget.tokens_used := Budget.tokens_used b + at_ |>
    <| Budget.tool_calls_reserved := Budget.tool_calls_reserved b - rc |>
    <| Budget.tool_calls_used := Budget.tool_calls_used b + ac |>
    <| Budget.agent_dispatches_reserved := Budget.agent_dispatches_reserved b - rd |>
    <| Budget.agent_dispatches_used := Budget.agent_dispatches_used b + ad |>.

(** What is held now covers the reservation that is settled. *)
Definition held (b : Budget.t) (rt rc rd : Z) : Prop :=
  0 <= rt <= Budget.tokens_reserved b /\ 0 <= rc <= Budget.tool_calls_reserved b /\
  0 <= rd <= Budget.agent_dispatches_reserved b.

Lemma settle_Ok b rt at_ rc ac rd ad b' :
  Budget.settle b rt at_ rc ac rd ad = Ok b' <->
  held b rt rc rd /\ 0 <= at_ /\ 0 <= ac /\ 0 <= ad /\
  budget_ok (settled b rt at_ rc ac rd ad) /\ b' = settled b rt at_ rc ac rd ad.
Proof.
  unfold Budget.settle. rewrite seq_Ok, raise_first_Ok, !Forall_cons, budget_new_Ok. cbn [fst].
  change (_ <| Budget.agent_dispatches_used := _ |>) with (settled b rt at_ rc ac rd ad).
  rewrite !Z.gtb_ltb, !Z.ltb_ge. unfold held. rewrite Forall_nil. intuition lia.
Qed.

Lemma within_le limit x y : x <= y -> within limit y -> within limit x.
Proof. destruct limit; simpl; [lia|done]. Qed.

(** ** Theorems on budgets *)

(** A reservation is granted exactly when the quantities are not negative
    and fit into what is left of every limit; then it is recorded and the
    budget invariant (nothing negative, used plus held within the limits)
    holds again; a refusal of acceptable quantities is BudgetExceeded. *)
Theorem reserve_grants_iff_fits b tokens calls dispatches :
  budget_ok b ->
  (forall b', Budget.reserve b tokens calls dispatches = Ok b' <->
     0 <= tokens /\ 0 <= calls /\ 0 <= dispatches /\ fits b tokens calls dispatches /\
     b' = reserved b tokens calls dispatches) /\
  (forall b', Budget.reserve b tokens calls dispatches = Ok b' -> budget_ok b') /\
  (forall e, Budget.reserve b tokens calls dispatches = Err e ->
     exn_cls e = if Z.min tokens (Z.min calls dispatches) <? 0 then DomainError
                 else BudgetExceeded).
Proof.
  intros Hb. split_and!.
  - intros b'. by apply reserve_Ok.
  - intros b' (? & ? & ? & Hf & ->)%reserve_Ok; [|done]. by apply reserved_ok_iff.
  - intros e. unfold Budget.reserve. destruct (_ <? 0) eqn:Eneg; simpl; [by intros [= <-]|].
    apply Z.ltb_ge in Eneg. destruct Hb as [Hl1 Hl2 Hl3 (?&?&?&?&?&?) ? ? ?].
    unfold Budget.new, Budget.post_init. simpl.
    assert (opt_bad Budget.negative (Budget.token_limit b) = false) as ->
      by (by apply opt_negative_false).
    assert (opt_bad Budget.negative (Budget.tool_call_limit b) = false) as ->
      by (by apply opt_negative_false).
    assert (opt_bad Budget.negative (Budget.agent_dispatch_limit b) = false) as ->
      by (by apply opt_negative_false).
    unfold Budget.negative. simpl. repeat rewrite (proj2 (Z.ltb_ge _ _)) by lia. simpl.
    repeat (destruct (opt_bad _ _); simpl; [by intros [= <-]|]). done.
Qed.

(** Settling gives a reservation back: after [reserve], settling the same
    amounts with an actual use of at most what was reserved always succeeds;
    the held amounts are those of before, the use has grown by the actual
    amounts and the budget invariant holds. *)
Theorem settle_returns_reservation b rt rc rd ut uc ud b1 :
  budget_ok b -> Budget.reserve b rt rc rd = Ok b1 ->
  0 <= ut <= rt -> 0 <= uc <= rc -> 0 <= ud <= rd ->
  exists b2, Budget.settle b1 rt ut rc uc rd ud = Ok b2 /\ budget_ok b2 /\
    Budget.tokens_reserved b2 = Budget.tokens_reserved b /\
    Budget.tool_calls_reserved b2 = Budget.tool_calls_reserved b /\
    Budget.agent_dispatches_reserved b2 = Budget.agent_dispatches_reserved b /\
    Budget.tokens_used b2 = Budget.tokens_used b + ut /\
    Budget.tool_calls_used b2 = Budget.tool_calls_used b + uc /\
    Budget.agent_dispatches_used b2 = Budget.agent_dispatches_used b + ud.
Proof.
  intros Hb Hr ???. apply reserve_Ok in Hr as (?&?&?&Hf&->); [|done].
  destruct Hb as [? ? ? (?&?&?&?&?&?) ? ? ?], Hf as (Ft & Fc & Fd).
  assert (budget_ok (settled (reserved b rt rc rd) rt ut rc uc rd ud)) as Hok.
  { constructor; simpl; try done; [lia|..]; (eapply within_le; [|eassumption]); simpl; lia. }
  eexists. split; [apply settle_Ok; split_and!; try reflexivity; try done; simpl; try lia|].
  { unfold held. simpl. lia. }
  split_and!; simpl; done || lia.
Qed.

(** ** Retry delays *)

(** The back-off of a valid retry policy: every failed attempt from the
    first on has a delay, between zero and the policy's maximum, that never
    shrinks from one attempt to the next and is the initial back-off after the
    first attempt. *)
Theorem delay_seconds_bounded_monotone p n :
  RetryPolicy.post_init p = Ok tt -> 1 <= n ->
  exists d d', RetryPolicy.delay_seconds p n = Ok d /\ RetryPolicy.delay_seconds p (n + 1) = Ok d' /\
    0 <= d <= RetryPolicy.max_backoff_seconds p /\ d <= d' /\
    (n = 1 -> d = Z.min (RetryPolicy.initial_backoff_seconds p)
                        (RetryPolicy.max_backoff_seconds p)).
Proof.
  unfold RetryPolicy.post_init. rewrite raise_first_Ok, !Forall_cons. cbn [fst].
  rewrite orb_false_iff, !Z.ltb_ge. intros (? & (? & ?) & ? & _) Hn.
  unfold RetryPolicy.delay_seconds.
  rewrite (proj2 (Z.ltb_ge n 1)), (proj2 (Z.ltb_ge (n + 1) 1)) by lia. simpl.
  eexists _, _. split; [done|]. split; [done|].
  assert (0 < RetryPolicy.multiplier p ^ (n - 1)) by (apply Z.pow_pos_nonneg; lia).
  assert (RetryPolicy.multiplier p ^ (n - 1) <= RetryPolicy.multiplier p ^ (n + 1 - 1))
    by (apply Z.pow_le_mono_r; lia).
  split_and!; [nia|lia|nia|].
  intros ->. simpl. lia.
Qed.

(** ** Canonical JSON and what digests commit to *)

(** Canonical JSON loses nothing: the canonical text of a value whose
    objects have unique keys is read back by the parser as that value with its
    keys sorted, and encoding that value again gives the same text. *)
Theorem canonical_json_roundtrip j :
  json_wf j ->
  loads (canonical_json j) = Some (canon j) /\ canonical_json (canon j) = canonical_json j.
Proof.
  intros Hj. split; [by apply loads_canonical|]. unfold canonical_json. by rewrite canon_idemp.
Qed.

(** The digest of a task contract binds the contract: two tasks with the
    same digest have the same run, id, texts, kind, order, wave, capability,
    role, exclusion, check, review and retry fields (lists up to order), or
    else their two canonical texts are distinct and collide under SHA-256. *)
Theorem task_contract_digest_commits t1 t2 :
  task_contract_digest t1 = task_contract_digest t2 ->
  same_task_contract t1 t2 \/
  sha256_collision (canonical_json (task_contract_payload t1))
                   (canonical_json (task_contract_payload t2)).
Proof.
  intros E. destruct (digest_commits _ _ (task_contract_payload_wf t1)
    (task_contract_payload_wf t2) E) as [Hc|Hc]; [left|by right].
  by apply task_contract_payload_inj.
Qed.

Definition inventory_entry (t : Task.t) : json :=
  JObj [("task_id", JStr (Task.id t)); ("contract_digest", JStr (task_contract_digest t))].

Lemma canon_arr_Forall2 {A} (f : A -> json) l1 l2 :
  canon (JArr (f <$> l1)) = canon (JArr (f <$> l2)) ->
  Forall2 (fun x y => canon (f x) = canon (f y)) l1 l2.
Proof.
  simpl. intros [= E]. rewrite <- !list_fmap_compose in E. revert l2 E.
  induction l1 as [|x l1 IH]; intros [|y l2]; try done.
  rewrite !fmap_cons. intros [= ??]. constructor; [done|by apply IH].
Qed.

Lemma task_inventory_payload_wf run_id l : json_wf (task_inventory_payload run_id l).
Proof.
  obj_wf; auto with json_wf. apply (arr_wf inventory_entry). intros t. obj_wf; auto with json_wf.
Qed.

Lemma inventory_entry_inj x y :
  canon (inventory_entry x) = canon (inventory_entry y) ->
  Task.id x = Task.id y /\ task_contract_digest x = task_contract_digest y.
Proof.
  intros E. unfold inventory_entry in E. split; apply str_field.
  - by field "task_id" E.
  - by field "contract_digest" E.
Qed.

Lemma inventory_digest_text run_id l d :
  task_inventory_digest run_id l = Ok d ->
  d = sha256_text (canonical_json (task_inventory_payload run_id l)).
Proof. unfold task_inventory_digest. rewrite seq_Ok. intros [_ E]. symmetry. by apply Ok_inj. Qed.

(** A task inventory digest binds the inventory: two inventories with the
    same digest are of the same run and list, up to order, tasks with the same
    contracts one for one, unless the inventory texts or two of the contract
    texts collide under SHA-256. *)
Theorem task_inventory_digest_commits r1 r2 l1 l2 d :
  task_inventory_digest r1 l1 = Ok d -> task_inventory_digest r2 l2 = Ok d ->
  sha256_collision (canonical_json (task_inventory_payload r1 l1))
                   (canonical_json (task_inventory_payload r2 l2)) \/
  r1 = r2 /\ exists l1' l2', l1' ≡ₚ l1 /\ l2' ≡ₚ l2 /\
    Forall2 (fun x y => same_task_contract x y \/
      sha256_collision (canonical_json (task_contract_payload x))
                       (canonical_json (task_contract_payload y))) l1' l2'.
Proof.
  intros E1 E2. apply inventory_digest_text in E1 as ->, E2 as E.
  destruct (digest_commits _ _ (task_inventory_payload_wf r2 l2)
    (task_inventory_payload_wf r1 l1) (eq_sym E)) as [Hc|[]]; [right|by left; split].
  pose proof (canon_obj_field _ _ "run_id" Hc ltac:(keys_NoDup) ltac:(keys_NoDup)) as Hr.
  pose proof (canon_obj_field _ _ "tasks" Hc ltac:(keys_NoDup) ltac:(keys_NoDup)) as Ht.
  simpl assoc_get in Hr, Ht. apply (inj Some) in Hr, Ht. split; [by injection Hr|].
  apply (canon_arr_Forall2 inventory_entry) in Ht.
  exists (sorted_on Task.id l1), (sorted_on Task.id l2).
  split; [apply sorted_on_Permutation|]. split; [apply sorted_on_Permutation|].
  apply Forall2_flip. eapply Forall2_impl; [exact Ht|]. intros x y Hxy.
  apply inventory_entry_inj in Hxy as [_ Hxy].
  destruct (digest_commits _ _ (task_contract_payload_wf y) (task_contract_payload_wf x)
    (eq_sym Hxy)) as [H|H]; [left|by right]. by apply task_contract_payload_inj.
Qed.

(** ** The task graph *)

(** C34. [assert_acyclic] decides its contract: it accepts a list of tasks
    exactly when the ids are unique, every dependency names a task of the list
    in the same run and no task depends on itself through others; it always
    terminates, and whatever it rejects it rejects with a DomainError. *)
Theorem assert_acyclic_iff tasks :
  (assert_acyclic tasks = Ok tt <-> closed_graph tasks /\ acyclic tasks) /\
  forall e, assert_acyclic tasks = Err e -> exn_cls e = DomainError.
Proof.
  pose proof (assert_acyclic_cases tasks) as H.
  destruct (assert_acyclic tasks) as [[]|e]; [naive_solver|]. destruct H as [He Hn].
  split; [|by intros ? [= <-]]. split; [done|]. intros Hok. by destruct (Hn Hok).
Qed.

(** ** Witnesses *)

Definition demo_budget : Budget.t := Budget.mk (Some 100) None (Some 3) 10 20 0 0 1 1.

Lemma demo_budget_ok : budget_ok demo_budget.
Proof. apply budget_valid_iff. reflexivity. Qed.

Lemma reserve_grants_iff_fits_witness :
  exists b', Budget.reserve demo_budget 70 5 1 = Ok b' /\ budget_ok b'.
Proof.
  eexists. split; [reflexivity|].
  eapply (reserve_grants_iff_fits demo_budget 70 5 1 demo_budget_ok). reflexivity.
Defined.

Lemma settle_returns_reservation_witness :
  exists b1 b2, Budget.reserve demo_budget 70 5 1 = Ok b1 /\
    Budget.settle b1 70 60 5 5 1 1 = Ok b2 /\ Budget.tokens_used b2 = 70.
Proof.
  destruct (settle_returns_reservation demo_budget 70 5 1 60 5 1 _ demo_budget_ok eq_refl)
    as (b2 & H & _ & _ & _ & _ & Hu & _); [lia..|].
  eexists _, b2. split; [reflexivity|]. split; [exact H|exact Hu].
Defined.

Lemma delay_seconds_bounded_monotone_witness :
  exists d, RetryPolicy.delay_seconds RetryPolicy.default 7 = Ok d /\ d <= 300.
Proof.
  destruct (delay_seconds_bounded_monotone RetryPolicy.default 7) as (d & d' & H & _ & Hd & _);
    [reflexivity|lia|].
  exists d. split; [exact H|apply Hd].
Defined.

Lemma canonical_json_roundtrip_witness :
  loads (canonical_json (JObj [("b", JInt 2); ("a", JArr [JNull; JStr "x"])])) =
  Some (JObj [("a", JArr [JNull; JStr "x"]); ("b", JInt 2)]).
Proof.
  apply (canonical_json_roundtrip (JObj [("b", JInt 2); ("a", JArr [JNull; JStr "x"])])).
  obj_wf; repeat constructor.
Defined.

Definition task_ab : Task.t := design_task <| Task.required_capabilities := ["a"; "b"] |>.
Definition task_ba : Task.t := design_task <| Task.required_capabilities := ["b"; "a"] |>.

Lemma same_contract_digest : task_contract_digest task_ab = task_contract_digest task_ba.
Proof. vm_compute. reflexivity. Qed.

Lemma task_contract_digest_commits_witness : same_task_contract task_ab task_ba.
Proof.
  destruct (task_contract_digest_commits task_ab task_ba same_contract_digest) as [H|[H _]];
    [exact H|]. destruct H. vm_compute. reflexivity.
Defined.

Definition demo_inventory : string :=
  match task_inventory_digest "run_1" [design_task; review_task] with Ok d => d | Err _ => "" end.

Lemma demo_inventory_1 :
  task_inventory_digest "run_1" [design_task; review_task] = Ok demo_inventory.
Proof. vm_compute. reflexivity. Qed.
Lemma demo_inventory_2 :
  task_inventory_digest "run_1" [review_task; design_task] = Ok demo_inventory.
Proof. vm_compute. reflexivity. Qed.

Lemma task_inventory_digest_commits_witness :
  "run_1" = "run_1" /\ exists l1' l2', l1' ≡ₚ [design_task; review_task] /\
    l2' ≡ₚ [review_task; design_task] /\ length l1' = length l2'.
Proof.
  destruct (task_inventory_digest_commits _ _ _ _ _ demo_inventory_1 demo_inventory_2)
    as [[H _]|(Hr & l1' & l2' & H1 & H2 & H)].
  - destruct H. vm_compute. reflexivity.
  - split; [exact Hr|]. exists l1', l2'. split; [exact H1|]. split; [exact H2|].
    by eapply Forall2_length.
Defined.
