(* ===== verification/StateMachine.v ===== *)
(** * Run coordination (backend/orchestrator/state_machine.py)

    [TransitionContext] and its guards, the phase machine
    [RunStateMachine.transition], the product workflow
    [CoordinationStageMachine], and the question and approval operations of
    [CoordinationService].  Timestamps, context records and the identifiers
    that [uuid4] draws are arguments. *)
From S2P Require Import Prelude PyStr PyDict DateTime Enums Models Digests.

Local Open Scope string_scope.

Definition rejected (msg : string) : exn := Exn TransitionRejected msg.

(** ** Guards *)

Module TransitionContext.
Record t := mk {
  questions : list Question.t;
  approvals : list Approval.t;
  tasks : list Task.t;
  agents : list Agent.t;
  evidence : list Evidence.t;
  required_approval_kind : option ApprovalKind.t;
  required_subject_digest : option string;
  verification_passed : bool;
}.

Definition empty : t := mk [] [] [] [] [] None None false.

Definition open_blocking_questions (c : t) (run : Run.t) : list Question.t :=
  filter (fun q => Question.run_id q = Run.id run /\ Question.blocking q = true /\
                   Question.state q = QuestionState.OPEN) (questions c).

Definition has_valid_approval (c : t) (run : Run.t) (kind : ApprovalKind.t)
    (subject_digest : string) (at_ : datetime) : result bool :=
  anyM (fun a =>
    andM (bool_decide (Approval.run_id a = Run.id run) && bool_decide (Approval.kind a = kind))
      (Approval.is_valid_for a subject_digest at_)) (approvals c).

Definition run_tasks (c : t) (run : Run.t) : list Task.t :=
  filter (fun x => Task.run_id x = Run.id run) (tasks c).

Definition all_required_tasks_succeeded (c : t) (run : Run.t) : bool :=
  let relevant := run_tasks c run in
  negb (bool_decide (relevant = [])) &&
  forallb (fun x => bool_decide (Task.state x ∈ [TaskState.SUCCEEDED; TaskState.CANCELLED]))
    relevant.

Definition matches_task_inventory (c : t) (run : Run.t) : result bool :=
  match Run.task_inventory_digest run with
  | None => Ok false
  | Some expected =>
    if existsb (fun x => negb (bool_decide (Task.run_id x = Run.id run))) (tasks c)
    then Ok false
    else catch
      (let* actual := task_inventory_digest (Run.id run) (tasks c) in
       Ok (bool_decide (actual = expected)))
      DomainError (fun _ => Ok false)
  end.

(** The nested function [binds_exact_target_result]. *)
Definition binds_exact_target_result (evidence_by_id : dict Evidence.t)
    (review target : Task.t) : result bool :=
  let bindings := dict_of_pairs ((fun b => (ReviewedTaskResultBinding.task_id b,
    ReviewedTaskResultBinding.result_digest b)) <$> Task.reviewed_result_bindings review) in
  if negb (same_set (dict_keys bindings) (Task.reviewed_task_ids review)) then Ok false
  else
    let digest :=
      let* target_evidence := mapM (dict_getitem evidence_by_id) (Task.result_evidence_ids target) in
      let* d := task_result_digest target target_evidence in
      Ok (bool_decide (bindings !! Task.id target = Some d)) in
    catch (catch digest KeyError (fun _ => Ok false)) DomainError (fun _ => Ok false).

(** The condition on one review of one target. *)
Definition review_covers (agent_by_id : dict Agent.t) (evidence_by_id : dict Evidence.t)
    (target review : Task.t) : result bool :=
  andM (str_in (Task.id target) (Task.reviewed_task_ids review))
  (andM (negb (bool_decide (Task.completed_by_agent_id review =
                            Task.completed_by_agent_id target)))
  (match Task.completed_by_agent_id review with
   | None => Ok false
   | Some reviewer_id =>
     match agent_by_id !! reviewer_id with
     | None => Ok false
     | Some reviewer =>
       andM (bool_decide (Agent.agent_class reviewer = AgentClass.CRITIC))
         (let* bound := binds_exact_target_result evidence_by_id review target in
          andM bound (Ok (forallb (fun e =>
            match evidence_by_id !! e with
            | Some item => bool_decide (Evidence.task_id item = Some (Task.id review))
            | None => false
            end) (Task.result_evidence_ids review))))
     end
   end)).

Definition is_review_target (x : Task.t) : bool :=
  bool_decide (Task.kind x ∈ [TaskKind.DESIGN; TaskKind.IMPLEMENT]) &&
  negb (bool_decide (Task.state x = TaskState.CANCELLED)).

Definition is_critic_review (x : Task.t) : bool :=
  bool_decide (Task.kind x = TaskKind.REVIEW) &&
  bool_decide (Task.required_agent_class x = Some AgentClass.CRITIC) &&
  bool_decide (Task.state x = TaskState.SUCCEEDED) &&
  negb (bool_decide (Task.completed_by_agent_id x = None)) &&
  negb (bool_decide (Task.result_evidence_ids x = [])).

Definition has_required_independent_critic_reviews (c : t) (run : Run.t) : result bool :=
  let relevant := run_tasks c run in
  let review_targets := filter (fun x => is_review_target x = true) relevant in
  if bool_decide (review_targets = []) then Ok true
  else
    let reviews := filter (fun x => is_critic_review x = true) relevant in
    let agent_by_id :=
      dict_by Agent.id (filter (fun a => Agent.run_id a = Run.id run) (agents c)) in
    let evidence_by_id :=
      dict_by Evidence.id (filter (fun e => Evidence.run_id e = Run.id run) (evidence c)) in
    if negb (length (dict_keys agent_by_id) =? length (agents c))%nat ||
       negb (length (dict_keys evidence_by_id) =? length (evidence c))%nat
    then Ok false
    else
      allM (fun target =>
        andM (match Task.completed_by_agent_id target with
              | Some a => bool_decide (is_Some (agent_by_id !! a))
              | None => false
              end)
          (anyM (review_covers agent_by_id evidence_by_id target) reviews)) review_targets.
End TransitionContext.

(** ** Tables *)

(** [_ALLOWED] *)
Definition allowed_phases (p : RunPhase.t) : list RunPhase.t :=
  match p with
  | RunPhase.DRAFT =>
    [RunPhase.CLARIFYING; RunPhase.AWAITING_PLAN_APPROVAL; RunPhase.READY; RunPhase.CANCELLED]
  | RunPhase.CLARIFYING =>
    [RunPhase.AWAITING_PLAN_APPROVAL; RunPhase.READY; RunPhase.EXECUTING; RunPhase.VERIFYING;
     RunPhase.CANCELLED]
  | RunPhase.AWAITING_PLAN_APPROVAL =>
    [RunPhase.CLARIFYING; RunPhase.READY; RunPhase.CANCELLED]
  | RunPhase.READY => [RunPhase.CLARIFYING; RunPhase.EXECUTING; RunPhase.CANCELLED]
  | RunPhase.EXECUTING =>
    [RunPhase.CLARIFYING; RunPhase.AWAITING_CHANGE_APPROVAL; RunPhase.VERIFYING;
     RunPhase.FAILED; RunPhase.CANCELLED]
  | RunPhase.AWAITING_CHANGE_APPROVAL =>
    [RunPhase.CLARIFYING; RunPhase.EXECUTING; RunPhase.FAILED; RunPhase.CANCELLED]
  | RunPhase.VERIFYING =>
    [RunPhase.CLARIFYING; RunPhase.AWAITING_CHANGE_APPROVAL; RunPhase.EXECUTING;
     RunPhase.COMPLETED; RunPhase.FAILED; RunPhase.CANCELLED]
  | RunPhase.COMPLETED | RunPhase.FAILED | RunPhase.CANCELLED => []
  end.

(** [_STAGE_NEXT] *)
Definition stage_next (s : CoordinationStage.t) : option CoordinationStage.t :=
  match s with
  | CoordinationStage.QUESTIONING => Some CoordinationStage.AWAITING_BRIEF_APPROVAL
  | CoordinationStage.AWAITING_BRIEF_APPROVAL => Some CoordinationStage.RESEARCH
  | CoordinationStage.RESEARCH => Some CoordinationStage.AWAITING_ARCHITECTURE_BOM_APPROVAL
  | CoordinationStage.AWAITING_ARCHITECTURE_BOM_APPROVAL => Some CoordinationStage.SCHEMATIC_STAGE
  | CoordinationStage.SCHEMATIC_STAGE => Some CoordinationStage.AWAITING_SCHEMATIC_APPROVAL
  | CoordinationStage.AWAITING_SCHEMATIC_APPROVAL =>
    Some CoordinationStage.AWAITING_LAYOUT_CONSTRAINT_APPROVAL
  | CoordinationStage.AWAITING_LAYOUT_CONSTRAINT_APPROVAL => Some CoordinationStage.PLACEMENT_STAGE
  | CoordinationStage.PLACEMENT_STAGE => Some CoordinationStage.AWAITING_PLACEMENT_APPROVAL
  | CoordinationStage.AWAITING_PLACEMENT_APPROVAL => Some CoordinationStage.ROUTING_STAGE
  | CoordinationStage.ROUTING_STAGE => Some CoordinationStage.AWAITING_ROUTING_APPROVAL
  | CoordinationStage.AWAITING_ROUTING_APPROVAL => Some CoordinationStage.RELEASE_CHECK
  | CoordinationStage.RELEASE_CHECK => Some CoordinationStage.AWAITING_RELEASE_APPROVAL
  | CoordinationStage.AWAITING_RELEASE_APPROVAL => Some CoordinationStage.RELEASED
  | CoordinationStage.RELEASED => None
  end.

(** [_CHECKPOINT_KIND], in the order of its entries. *)
Definition checkpoint_kinds : list (CoordinationStage.t * ApprovalKind.t) := [
  (CoordinationStage.AWAITING_BRIEF_APPROVAL, ApprovalKind.BRIEF);
  (CoordinationStage.AWAITING_ARCHITECTURE_BOM_APPROVAL, ApprovalKind.ARCHITECTURE_BOM);
  (CoordinationStage.AWAITING_SCHEMATIC_APPROVAL, ApprovalKind.SCHEMATIC);
  (CoordinationStage.AWAITING_LAYOUT_CONSTRAINT_APPROVAL, ApprovalKind.LAYOUT_CONSTRAINTS);
  (CoordinationStage.AWAITING_PLACEMENT_APPROVAL, ApprovalKind.PLACEMENT);
  (CoordinationStage.AWAITING_ROUTING_APPROVAL, ApprovalKind.ROUTING);
  (CoordinationStage.AWAITING_RELEASE_APPROVAL, ApprovalKind.RELEASE) ].
Definition checkpoint_kind (s : CoordinationStage.t) : option ApprovalKind.t :=
  snd <$> List.find (fun p => bool_decide (p.1 = s)) checkpoint_kinds.

(** [_STAGE_PHASE] *)
Definition stage_phase (s : CoordinationStage.t) : RunPhase.t :=
  match s with
  | CoordinationStage.QUESTIONING => RunPhase.CLARIFYING
  | CoordinationStage.AWAITING_BRIEF_APPROVAL => RunPhase.AWAITING_PLAN_APPROVAL
  | CoordinationStage.RESEARCH => RunPhase.EXECUTING
  | CoordinationStage.AWAITING_ARCHITECTURE_BOM_APPROVAL => RunPhase.AWAITING_CHANGE_APPROVAL
  | CoordinationStage.SCHEMATIC_STAGE => RunPhase.EXECUTING
  | CoordinationStage.AWAITING_SCHEMATIC_APPROVAL => RunPhase.AWAITING_CHANGE_APPROVAL
  | CoordinationStage.AWAITING_LAYOUT_CONSTRAINT_APPROVAL => RunPhase.AWAITING_CHANGE_APPROVAL
  | CoordinationStage.PLACEMENT_STAGE => RunPhase.EXECUTING
  | CoordinationStage.AWAITING_PLACEMENT_APPROVAL => RunPhase.AWAITING_CHANGE_APPROVAL
  | CoordinationStage.ROUTING_STAGE => RunPhase.EXECUTING
  | CoordinationStage.AWAITING_ROUTING_APPROVAL => RunPhase.AWAITING_CHANGE_APPROVAL
  | CoordinationStage.RELEASE_CHECK => RunPhase.VERIFYING
  | CoordinationStage.AWAITING_RELEASE_APPROVAL => RunPhase.AWAITING_CHANGE_APPROVAL
  | CoordinationStage.RELEASED => RunPhase.COMPLETED
  end.

Definition terminal_phase (p : RunPhase.t) : bool := bool_decide (p ∈ TERMINAL_RUN_PHASES).

(** ** The phase machine *)

Module RunStateMachine.
(** [RunStateMachine._require_plan_approval] *)
Definition require_plan_approval (run : Run.t) (context : TransitionContext.t) (at_ : datetime)
    : result unit :=
  if negb (Run.require_plan_approval run) then Ok tt
  else
    raise_if (Question.falsy (Run.plan_digest run))
      (rejected "approved execution requires a plan digest") ;;;
    let digest := default "" (Run.plan_digest run) in
    let* ok := TransitionContext.has_valid_approval context run ApprovalKind.PLAN digest at_ in
    raise_if (negb ok) (rejected ("no valid plan approval for digest " +:+ digest)).

(** The guard [not context.matches_task_inventory(run)] and those after it,
    which [transition] and [advance] apply before the last step of a run. *)
Definition completion_guards (run : Run.t) (context : TransitionContext.t)
    (verification inventory succeeded critic : string) : result unit :=
  raise_if (negb (TransitionContext.verification_passed context)) (rejected verification) ;;;
  let* sealed := TransitionContext.matches_task_inventory context run in
  raise_if (negb sealed) (rejected inventory) ;;;
  raise_if (negb (TransitionContext.all_required_tasks_succeeded context run))
    (rejected succeeded) ;;;
  let* unreviewed :=
    andM (Run.require_independent_critic run)
      (let* r := TransitionContext.has_required_independent_critic_reviews context run in
       Ok (negb r)) in
  raise_if unreviewed (rejected critic).

Definition blocked_by_questions (p : RunPhase.t) : bool :=
  bool_decide (p ∈ [RunPhase.READY; RunPhase.EXECUTING; RunPhase.VERIFYING; RunPhase.COMPLETED]).

Definition transition (run : Run.t) (target : RunPhase.t) (at_ : datetime)
    (context : TransitionContext.t) : result Run.t :=
  require_aware at_ "timestamp" ;;;
  let open_questions := TransitionContext.open_blocking_questions context run in
  raise_first [
    (terminal_phase (Run.phase run),
     rejected ("terminal run " +:+ Run.id run +:+ " cannot transition"));
    (bool_decide (target = Run.phase run), rejected "no-op run transitions are not allowed");
    (negb (bool_decide (target ∈ allowed_phases (Run.phase run))),
     rejected ("transition " +:+ RunPhase.value (Run.phase run) +:+ " -> " +:+
               RunPhase.value target +:+ " is not allowed"));
    (Run.strict_user_coordination run && blocked_by_questions target &&
     negb (bool_decide (open_questions = [])),
     rejected ("blocking questions remain open: " +:+
               str_join ", " (Question.id <$> open_questions))) ] ;;;
  (if bool_decide (target ∈ [RunPhase.READY; RunPhase.EXECUTING])
   then require_plan_approval run context at_ else Ok tt) ;;;
  (if bool_decide (Run.phase run = RunPhase.AWAITING_CHANGE_APPROVAL) &&
      bool_decide (target = RunPhase.EXECUTING)
   then
     let kind := default ApprovalKind.CHANGESET (TransitionContext.required_approval_kind context) in
     let digest := TransitionContext.required_subject_digest context in
     raise_if (Question.falsy digest) (rejected "changeset approval requires an exact digest") ;;;
     let digest := default "" digest in
     let* ok := TransitionContext.has_valid_approval context run kind digest at_ in
     raise_if (negb ok)
       (rejected ("no valid " +:+ ApprovalKind.value kind +:+ " approval for digest " +:+ digest))
   else Ok tt) ;;;
  (if bool_decide (target = RunPhase.COMPLETED)
   then completion_guards run context
     "run cannot complete without passed verification"
     "run cannot complete without its exact sealed task inventory"
     "run cannot complete before all tasks are terminal-success"
     "run cannot complete without independent critic review"
   else Ok tt) ;;;
  Run.new (run <| Run.phase := target |> <| Run.revision := (Run.revision run + 1)%Z |>).
End RunStateMachine.

(** ** The product workflow *)

Module CoordinationStageMachine.
(** The copy of [run] moved to stage [s], as [advance], [restart_questioning],
    [open_question] and [request_checkpoint_approval] build it. *)
Definition enter_stage (run : Run.t) (s : CoordinationStage.t) (digest : option string)
    : result Run.t :=
  Run.new (run <| Run.phase := stage_phase s |>
               <| Run.coordination_stage := s |>
               <| Run.checkpoint_digest := digest |>
               <| Run.coordination_revision := (Run.coordination_revision run + 1)%Z |>
               <| Run.revision := (Run.revision run + 1)%Z |>).

Definition advance (run : Run.t) (target : CoordinationStage.t) (at_ : datetime)
    (context : TransitionContext.t) : result Run.t :=
  require_aware at_ "timestamp" ;;;
  let current := Run.coordination_stage run in
  match stage_next current with
  | None => Err (rejected "released runs cannot advance")
  | Some expected =>
    raise_first [
      (negb (bool_decide (target = expected)),
       rejected ("coordination stage " +:+ CoordinationStage.value current +:+
                 " must advance to " +:+ CoordinationStage.value expected));
      (negb (bool_decide (TransitionContext.open_blocking_questions context run = [])),
       rejected "blocking questions must be answered before stage advance") ] ;;;
    match checkpoint_kind current with
    | None => Ok tt
    | Some kind =>
      raise_if (Question.falsy (Run.checkpoint_digest run))
        (rejected (CoordinationStage.value current +:+ " has no immutable checkpoint digest")) ;;;
      let digest := default "" (Run.checkpoint_digest run) in
      let* ok := TransitionContext.has_valid_approval context run kind digest at_ in
      raise_if (negb ok)
        (rejected ("no valid " +:+ ApprovalKind.value kind +:+ " approval for checkpoint " +:+
                   digest))
    end ;;;
    (if bool_decide (target = CoordinationStage.RELEASED)
     then RunStateMachine.completion_guards run context
       "release requires passed deterministic verification"
       "release requires the exact sealed task inventory"
       "release requires all workflow tasks to succeed"
       "release requires independent critic review"
     else Ok tt) ;;;
    enter_stage run target None
  end.

Definition restart_questioning (run : Run.t) : result Run.t :=
  raise_if (bool_decide (Run.coordination_stage run = CoordinationStage.RELEASED))
    (rejected "a released run needs a new revision, not silent steering") ;;;
  enter_stage run CoordinationStage.QUESTIONING None.
End CoordinationStageMachine.

(** ** Questions and approvals *)

Module CoordinationService.
(** [given or new_id(prefix)] *)
Definition id_or_new (given : option string) (prefix uuid_hex : string) : result string :=
  match given with
  | Some i => if str_empty i then new_id prefix uuid_hex else Ok i
  | None => new_id prefix uuid_hex
  end.

Definition open_question (run : Run.t) (prompt rationale : string) (at_ : datetime)
    (blocking : bool) (options : list string) (recommendation : option string)
    (confidence_basis_points : option Z) (allow_custom_answer : bool)
    (bound_revision : option string) (affected_artifact_ids dependent_decision_ids : list string)
    (question_id : option string) (uuid_hex : string) : result (Run.t * Question.t) :=
  require_aware at_ "timestamp" ;;;
  let normalized_options := py_strip <$> options in
  raise_first [
    (terminal_phase (Run.phase run), rejected "cannot ask a question on a terminal run");
    (existsb str_empty normalized_options, DomainErr "question options cannot be blank");
    (has_duplicates normalized_options, DomainErr "question options must be unique") ] ;;;
  let* qid := id_or_new question_id "question" uuid_hex in
  let* question := Question.new (Question.mk qid (Run.id run) prompt rationale at_ blocking
    normalized_options recommendation confidence_basis_points allow_custom_answer bound_revision
    affected_artifact_ids dependent_decision_ids QuestionState.OPEN None None None) in
  let* next_run :=
    if blocking &&
       (negb (bool_decide (Run.phase run = RunPhase.CLARIFYING)) ||
        negb (bool_decide (Run.coordination_stage run = CoordinationStage.QUESTIONING)))
    then CoordinationStageMachine.enter_stage run CoordinationStage.QUESTIONING None
    else Ok run in
  Ok (next_run, question).

(** The fresh receipt of [request_checkpoint_approval] and [request_approval]. *)
Definition request_receipt (run : Run.t) (kind : ApprovalKind.t) (subject_digest summary : string)
    (at_ : datetime) (expires_at : option datetime) (approval_id : option string)
    (uuid_hex : string) : result Approval.t :=
  let* aid := id_or_new approval_id "approval" uuid_hex in
  Approval.new (Approval.mk aid (Run.id run) kind subject_digest summary at_ expires_at
    ApprovalState.REQUESTED None None None).

Definition request_checkpoint_approval (run : Run.t) (kind : ApprovalKind.t)
    (subject_digest summary : string) (at_ : datetime) (expires_at : option datetime)
    (approval_id : option string) (uuid_hex : string) : result (Run.t * Approval.t) :=
  require_aware at_ "timestamp" ;;;
  match filter (fun p => p.2 = kind) checkpoint_kinds with
  | [(target, _)] =>
    let current := Run.coordination_stage run in
    raise_first [
      (negb (bool_decide (current = target)) &&
       negb (bool_decide (stage_next current = Some target)),
       rejected (ApprovalKind.value kind +:+ " approval is not valid during " +:+
                 CoordinationStage.value current));
      (str_empty subject_digest,
       DomainErr "checkpoint approval requires an immutable subject digest") ] ;;;
    let* next_run := CoordinationStageMachine.enter_stage run target (Some subject_digest) in
    let* approval :=
      request_receipt run kind subject_digest summary at_ expires_at approval_id uuid_hex in
    Ok (next_run, approval)
  | _ => Err (DomainErr (ApprovalKind.value kind +:+
                         " is not a product checkpoint approval kind"))
  end.

Definition answer_question (question : Question.t) (answer answered_by : string) (at_ : datetime)
    : result Question.t :=
  require_aware at_ "timestamp" ;;;
  let normalized := py_strip answer in
  raise_first [
    (negb (bool_decide (Question.state question = QuestionState.OPEN)),
     DomainErr "only open questions can be answered");
    (str_empty normalized || str_blank answered_by,
     DomainErr "answer and answering user are required");
    (negb (bool_decide (Question.options question = [])) &&
     negb (str_in normalized (Question.options question)) &&
     negb (Question.allow_custom_answer question),
     DomainErr "answer must exactly match one of the declared options") ] ;;;
  Question.new (question <| Question.state := QuestionState.ANSWERED |>
                         <| Question.answer := Some normalized |>
                         <| Question.answered_by := Some answered_by |>
                         <| Question.answered_at := Some at_ |>).

Definition request_approval (run : Run.t) (kind : ApprovalKind.t) (subject_digest summary : string)
    (at_ : datetime) (expires_at : option datetime) (approval_id : option string)
    (uuid_hex : string) : result (Run.t * Approval.t) :=
  require_aware at_ "timestamp" ;;;
  raise_if (terminal_phase (Run.phase run))
    (rejected "cannot request approval on a terminal run") ;;;
  let* next_run :=
    if bool_decide (kind = ApprovalKind.PLAN) then
      Run.new (run <| Run.phase := RunPhase.AWAITING_PLAN_APPROVAL |>
                   <| Run.plan_digest := Some subject_digest |>
                   <| Run.revision := (Run.revision run + 1)%Z |>)
    else
      let target := RunPhase.AWAITING_CHANGE_APPROVAL in
      raise_if (negb (bool_decide (target ∈ allowed_phases (Run.phase run))) &&
                negb (bool_decide (Run.phase run = target)))
        (rejected ("cannot request " +:+ ApprovalKind.value kind +:+ " approval during " +:+
                   RunPhase.value (Run.phase run))) ;;;
      if negb (bool_decide (Run.phase run = target))
      then Run.new (run <| Run.phase := target |> <| Run.revision := (Run.revision run + 1)%Z |>)
      else Ok run in
  let* approval :=
    request_receipt run kind subject_digest summary at_ expires_at approval_id uuid_hex in
  Ok (next_run, approval).

Definition decide_approval (approval : Approval.t) (approve : bool) (decided_by reason : string)
    (at_ : datetime) : result Approval.t :=
  require_aware at_ "timestamp" ;;;
  raise_first [
    (negb (bool_decide (Approval.state approval = ApprovalState.REQUESTED)),
     DomainErr "approval has already been decided");
    (str_blank decided_by, DomainErr "approval decision requires a user identity") ] ;;;
  if opt_bad (fun e => dt_le e at_) (Approval.expires_at approval)
  then Approval.new (approval <| Approval.state := ApprovalState.EXPIRED |>
         <| Approval.decided_by := Some decided_by |>
         <| Approval.decided_at := Some at_ |>
         <| Approval.reason :=
              Some (if str_empty reason then "expired before decision" else reason) |>)
  else Approval.new (approval
         <| Approval.state := if approve then ApprovalState.APPROVED else ApprovalState.REJECTED |>
         <| Approval.decided_by := Some decided_by |>
         <| Approval.decided_at := Some at_ |>
         <| Approval.reason := Some reason |>).
End CoordinationService.
