(* ===== verification/StateMachineFacts.v ===== *)
(** * Properties of run coordination

    What the guards establish, the completion gate, the approvals that a
    released run has passed, and the life cycle of questions and approvals. *)
From S2P Require Import Prelude PyStr PyDict Sha256 DateTime Enums Models.
From S2P Require Import Digests Fixtures StateMachine.

Local Open Scope string_scope.

(** ** Guards *)

(** An approval of [kind] for [digest] that is in force at [at_]. *)
Definition in_force (run : Run.t) (kind : ApprovalKind.t) (digest : string) (at_ : datetime)
    (a : Approval.t) : Prop :=
  Approval.run_id a = Run.id run /\ Approval.kind a = kind /\
  Approval.state a = ApprovalState.APPROVED /\ Approval.subject_digest a = digest /\
  forall e, Approval.expires_at a = Some e -> (instant at_ < instant e)%Z.

Lemma require_aware_Ok d label : require_aware d label = Ok tt <-> dt_aware d = true.
Proof. unfold require_aware. rewrite raise_if_Ok. unfold naive. by destruct (dt_aware d). Qed.

Lemma is_valid_for_Ok a digest at_ :
  dt_aware at_ = true ->
  Approval.is_valid_for a digest at_ =
  Ok (bool_decide (Approval.state a = ApprovalState.APPROVED) &&
      bool_decide (Approval.subject_digest a = digest) &&
      match Approval.expires_at a with None => true | Some e => dt_lt at_ e end).
Proof.
  intros Ha. unfold Approval.is_valid_for.
  by rewrite (proj2 (require_aware_Ok at_ "timestamp") Ha).
Qed.

Lemma in_force_dec (run : Run.t) kind digest at_ a :
  bool_decide (Approval.run_id a = Run.id run) && bool_decide (Approval.kind a = kind) &&
  (bool_decide (Approval.state a = ApprovalState.APPROVED) &&
   bool_decide (Approval.subject_digest a = digest) &&
   match Approval.expires_at a with None => true | Some e => dt_lt at_ e end) = true <->
  in_force run kind digest at_ a.
Proof.
  unfold in_force. rewrite !andb_true_iff, !bool_decide_eq_true.
  destruct (Approval.expires_at a) as [e|]; unfold dt_lt; rewrite ?Z.ltb_lt; naive_solver.
Qed.

Lemma has_valid_approval_spec c run kind digest at_ :
  dt_aware at_ = true ->
  exists b, TransitionContext.has_valid_approval c run kind digest at_ = Ok b /\
    (b = true <->
     exists a, a ∈ TransitionContext.approvals c /\ in_force run kind digest at_ a).
Proof.
  intros Ha. eexists. split.
  - apply anyM_total. intros a _. rewrite is_valid_for_Ok by done.
    rewrite andM_Ok. reflexivity.
  - rewrite existsb_elem. f_equiv. intros a. by rewrite in_force_dec.
Qed.

Lemma falsy_false o : Question.falsy o = false <-> exists s, o = Some s /\ s <> "".
Proof.
  destruct o as [[]|]; simpl; split; try done; try (by intros (? & [= <-] & ?)).
  intros _. eexists. split; done.
Qed.

(** A record that [Run.new] accepts. *)
Definition run_valid (r : Run.t) : Prop := Run.post_init r = Ok tt.

Lemma run_valid_ext r r' :
  run_valid r ->
  (Run.id r', Run.objective r', Run.created_at r', Run.task_inventory_digest r',
   Run.max_concurrency r') =
  (Run.id r, Run.objective r, Run.created_at r, Run.task_inventory_digest r,
   Run.max_concurrency r) ->
  (0 <= Run.coordination_revision r')%Z -> (0 <= Run.revision r')%Z -> run_valid r'.
Proof.
  unfold run_valid, Run.post_init. intros Hv [= -> -> -> -> ->] ??. revert Hv.
  rewrite !raise_first_Ok, !Forall_cons. cbn [fst].
  intros (?&?&?&?&?&?). split_and!; try done. apply orb_false_iff. lia.
Qed.

Lemma run_new_Ok r r' : Run.new r = Ok r' <-> run_valid r /\ r' = r.
Proof. unfold Run.new, run_valid. rewrite seq_Ok. naive_solver. Qed.

Lemma run_valid_revisions r :
  run_valid r -> (0 <= Run.revision r)%Z /\ (0 <= Run.coordination_revision r)%Z.
Proof.
  unfold run_valid, Run.post_init. rewrite !raise_first_Ok, !Forall_cons. simpl.
  intros (?&?&?&?&Hr&?). apply orb_false_iff in Hr. lia.
Qed.

Lemma task_inventory_digest_Ok run_id tasks d :
  task_inventory_digest run_id tasks = Ok d ->
  d = sha256_text (Json.canonical_json (task_inventory_payload run_id tasks)) /\
  NoDup (Task.id <$> tasks) /\ forall x, x ∈ tasks -> Task.run_id x = run_id.
Proof.
  unfold task_inventory_digest. intros H. monad_inv.
  apply raise_first_Ok in Heq. rewrite !Forall_cons in Heq.
  destruct Heq as (_ & Hrun & Hnd & _). simpl in *. split_and!; [done|..].
  - unfold has_duplicates in Hnd. apply bool_decide_eq_false in Hnd. by apply dec_stable.
  - intros x Hx. apply existsb_Forall in Hrun. rewrite Forall_forall in Hrun.
    specialize (Hrun x Hx). apply negb_false_iff in Hrun. by apply bool_decide_eq_true in Hrun.
Qed.

Lemma matches_task_inventory_true c run :
  TransitionContext.matches_task_inventory c run = Ok true ->
  Run.task_inventory_digest run =
    Some (sha256_text (Json.canonical_json
      (task_inventory_payload (Run.id run) (TransitionContext.tasks c)))) /\
  NoDup (Task.id <$> TransitionContext.tasks c) /\
  forall x, x ∈ TransitionContext.tasks c -> Task.run_id x = Run.id run.
Proof.
  unfold TransitionContext.matches_task_inventory.
  destruct (Run.task_inventory_digest run) as [d|]; [|done].
  destruct (existsb _ _); [done|].
  destruct (task_inventory_digest _ _) as [d'|e] eqn:E; simpl; [|by destruct (is_a _ _)].
  intros [= Hd]. apply bool_decide_eq_true in Hd as ->.
  apply task_inventory_digest_Ok in E as (-> & ? & ?). done.
Qed.

Lemma elem_of_run_tasks c run x :
  x ∈ TransitionContext.run_tasks c run <->
  x ∈ TransitionContext.tasks c /\ Task.run_id x = Run.id run.
Proof. unfold TransitionContext.run_tasks. rewrite list_elem_of_filter. tauto. Qed.

Lemma all_required_tasks_succeeded_true c run :
  TransitionContext.all_required_tasks_succeeded c run = true <->
  TransitionContext.run_tasks c run <> [] /\
  forall x, x ∈ TransitionContext.run_tasks c run ->
    Task.state x = TaskState.SUCCEEDED \/ Task.state x = TaskState.CANCELLED.
Proof.
  unfold TransitionContext.all_required_tasks_succeeded.
  rewrite andb_true_iff, negb_true_iff, bool_decide_eq_false, forallb_elem.
  setoid_rewrite bool_decide_eq_true. setoid_rewrite elem_of_cons.
  by setoid_rewrite list_elem_of_singleton.
Qed.

(** ** Independent critic reviews *)

(** [review] is a completed critic review that covers the result of [target]:
    another agent, a critic of the run, completed it with evidence of its own,
    and one of its bindings names the digest of the exact target result. *)
Record reviewed_by (c : TransitionContext.t) (run : Run.t) (target review : Task.t) : Prop := {
  rb_review : review ∈ TransitionContext.tasks c;
  rb_run : Task.run_id review = Run.id run;
  rb_kind : Task.kind review = TaskKind.REVIEW;
  rb_succeeded : Task.state review = TaskState.SUCCEEDED;
  rb_names : Task.id target ∈ Task.reviewed_task_ids review;
  rb_independent : Task.completed_by_agent_id review <> Task.completed_by_agent_id target;
  rb_critic : exists reviewer, reviewer ∈ TransitionContext.agents c /\
    Agent.run_id reviewer = Run.id run /\ Agent.agent_class reviewer = AgentClass.CRITIC /\
    Task.completed_by_agent_id review = Some (Agent.id reviewer);
  rb_binding : exists b target_evidence,
    b ∈ Task.reviewed_result_bindings review /\
    ReviewedTaskResultBinding.task_id b = Task.id target /\
    (forall e, e ∈ target_evidence ->
      e ∈ TransitionContext.evidence c /\ Evidence.run_id e = Run.id run) /\
    Evidence.id <$> target_evidence = Task.result_evidence_ids target /\
    task_result_digest target target_evidence = Ok (ReviewedTaskResultBinding.result_digest b);
  rb_evidence : Task.result_evidence_ids review <> [] /\
    forall i, i ∈ Task.result_evidence_ids review ->
    exists e, e ∈ TransitionContext.evidence c /\ Evidence.id e = i /\
              Evidence.task_id e = Some (Task.id review);
}.

Section critic.
Context (c : TransitionContext.t) (run : Run.t).
Let agent_by_id :=
  dict_by Agent.id (filter (fun a => Agent.run_id a = Run.id run) (TransitionContext.agents c)).
Let evidence_by_id := dict_by Evidence.id
  (filter (fun e => Evidence.run_id e = Run.id run) (TransitionContext.evidence c)).

Lemma agent_by_id_elem i a :
  agent_by_id !! i = Some a ->
  a ∈ TransitionContext.agents c /\ Agent.run_id a = Run.id run /\ Agent.id a = i.
Proof. intros [H ?]%dict_by_elem. apply list_elem_of_filter in H as []. done. Qed.

Lemma evidence_by_id_elem i e :
  evidence_by_id !! i = Some e ->
  e ∈ TransitionContext.evidence c /\ Evidence.run_id e = Run.id run /\ Evidence.id e = i.
Proof. intros [H ?]%dict_by_elem. apply list_elem_of_filter in H as []. done. Qed.

Lemma binding_of_pairs i d (l : list ReviewedTaskResultBinding.t) :
  dict_of_pairs ((fun b => (ReviewedTaskResultBinding.task_id b,
    ReviewedTaskResultBinding.result_digest b)) <$> l) !! i = Some d ->
  exists b, b ∈ l /\ ReviewedTaskResultBinding.task_id b = i /\
            ReviewedTaskResultBinding.result_digest b = d.
Proof.
  intros H. apply dict_of_pairs_elem in H. apply list_elem_of_fmap in H as (b & [= -> ->] & ?).
  eauto.
Qed.

Lemma binds_exact_target_result_true review target :
  TransitionContext.binds_exact_target_result evidence_by_id review target = Ok true ->
  exists b target_evidence,
    b ∈ Task.reviewed_result_bindings review /\
    ReviewedTaskResultBinding.task_id b = Task.id target /\
    (forall e, e ∈ target_evidence ->
      e ∈ TransitionContext.evidence c /\ Evidence.run_id e = Run.id run) /\
    Evidence.id <$> target_evidence = Task.result_evidence_ids target /\
    task_result_digest target target_evidence = Ok (ReviewedTaskResultBinding.result_digest b).
Proof.
  unfold TransitionContext.binds_exact_target_result. destruct (negb _); [done|].
  intros H%catch_true%catch_true. monad_inv.
  apply bool_decide_eq_true, binding_of_pairs in H as (b & Hb & Hi & <-).
  exists b, a. split_and!; try done.
  - apply mapM_Ok_Forall2 in Heq. intros e [j Hj]%list_elem_of_lookup.
    destruct (Forall2_lookup_r _ _ _ _ _ Heq Hj) as (i & _ & Hi').
    apply dict_getitem_Ok, evidence_by_id_elem in Hi'. naive_solver.
  - apply mapM_Ok_Forall2 in Heq. clear -Heq.
    induction Heq as [|i e l l' Hi _ IH]; [done|]. rewrite fmap_cons. f_equal; [|done].
    apply dict_getitem_Ok, evidence_by_id_elem in Hi. naive_solver.
Qed.

Lemma review_covers_true target review :
  review ∈ TransitionContext.run_tasks c run ->
  TransitionContext.is_critic_review review = true ->
  TransitionContext.review_covers agent_by_id evidence_by_id target review = Ok true ->
  reviewed_by c run target review.
Proof.
  intros [Hin Hrun]%elem_of_run_tasks Hcr H. unfold TransitionContext.is_critic_review in Hcr.
  rewrite !andb_true_iff, !negb_true_iff, !bool_decide_eq_true, !bool_decide_eq_false in Hcr.
  destruct Hcr as ((((Hkind & _) & Hstate) & _) & Hev).
  unfold TransitionContext.review_covers in H.
  apply andM_true in H as [Hnames H]. apply andM_true in H as [Hind H].
  destruct (Task.completed_by_agent_id review) as [ri|] eqn:Ecomp; [|done].
  destruct (agent_by_id !! ri) as [reviewer|] eqn:Er; [|done].
  apply andM_true in H as [Hcls H]. monad_inv.
  apply andM_true in H as [-> H]. injection H as H.
  apply agent_by_id_elem in Er as (? & ? & <-).
  constructor; try done.
  - by apply bool_decide_eq_true in Hnames.
  - rewrite Ecomp. apply negb_true_iff, bool_decide_eq_false in Hind. done.
  - exists reviewer. by apply bool_decide_eq_true in Hcls.
  - by apply binds_exact_target_result_true.
  - split; [done|]. intros i Hi. rewrite forallb_elem in H. specialize (H i Hi).
    destruct (evidence_by_id !! i) as [e|] eqn:Ee; [|done].
    apply evidence_by_id_elem in Ee as (? & ? & ?). exists e.
    by apply bool_decide_eq_true in H.
Qed.

Lemma critic_reviews_true target :
  TransitionContext.has_required_independent_critic_reviews c run = Ok true ->
  target ∈ TransitionContext.run_tasks c run ->
  TransitionContext.is_review_target target = true ->
  (exists a, a ∈ TransitionContext.agents c /\ Agent.run_id a = Run.id run /\
             Task.completed_by_agent_id target = Some (Agent.id a)) /\
  exists review, reviewed_by c run target review.
Proof.
  unfold TransitionContext.has_required_independent_critic_reviews. intros H Hin Ht.
  case_bool_decide as Hnil.
  { assert (target ∈ ([] : list Task.t)) as Hbad
      by (rewrite <- Hnil; apply list_elem_of_filter; done). by inversion Hbad. }
  destruct (_ || _); [done|]. eapply allM_true in H; [|by apply list_elem_of_filter].
  apply andM_true in H as [Hcomp H]. split.
  - destruct (Task.completed_by_agent_id target) as [i|]; [|done].
    apply bool_decide_eq_true in Hcomp as [a Ha]. apply agent_by_id_elem in Ha as (? & ? & <-).
    eauto.
  - apply anyM_true in H as (review & Hr & H). apply list_elem_of_filter in Hr as [].
    exists review. by apply review_covers_true.
Qed.
End critic.

(** ** Phase transitions *)

Lemma approval_guard_Ok c run kind digest at_ e :
  dt_aware at_ = true ->
  (let* ok := TransitionContext.has_valid_approval c run kind digest at_ in
   raise_if (negb ok) e) = Ok tt <->
  exists a, a ∈ TransitionContext.approvals c /\ in_force run kind digest at_ a.
Proof.
  intros Ha. destruct (has_valid_approval_spec c run kind digest at_ Ha) as (b & -> & <-).
  simpl. rewrite raise_if_Ok. by destruct b.
Qed.

(** An approval in force for a digest that is present and not empty. *)
Definition approved (c : TransitionContext.t) (run : Run.t) (kind : ApprovalKind.t)
    (digest : option string) (at_ : datetime) : Prop :=
  exists d a, digest = Some d /\ d <> "" /\ a ∈ TransitionContext.approvals c /\
    in_force run kind d at_ a.

Lemma digest_guard_Ok c run kind digest at_ e1 e2 :
  dt_aware at_ = true ->
  (raise_if (Question.falsy digest) e1 ;;;
   let* ok := TransitionContext.has_valid_approval c run kind (default "" digest) at_ in
   raise_if (negb ok) e2) = Ok tt <->
  approved c run kind digest at_.
Proof.
  intros Ha. unfold approved. rewrite bind_Ok.
  setoid_rewrite raise_if_Ok. setoid_rewrite approval_guard_Ok; [|done].
  setoid_rewrite falsy_false. split.
  - intros (_ & (d & -> & ?) & a & ?). exists d, a. tauto.
  - intros (d & a & -> & ? & ?). exists tt. eauto.
Qed.

Lemma require_plan_approval_Ok run c at_ :
  dt_aware at_ = true ->
  RunStateMachine.require_plan_approval run c at_ = Ok tt <->
  (Run.require_plan_approval run = true ->
   approved c run ApprovalKind.PLAN (Run.plan_digest run) at_).
Proof.
  intros Ha. unfold RunStateMachine.require_plan_approval.
  destruct (Run.require_plan_approval run); [|naive_solver]. simpl negb. cbn match.
  rewrite digest_guard_Ok by done. naive_solver.
Qed.

(** What the last step of a run requires. *)
Record completable (c : TransitionContext.t) (run : Run.t) : Prop := {
  cp_verified : TransitionContext.verification_passed c = true;
  cp_sealed : TransitionContext.matches_task_inventory c run = Ok true;
  cp_succeeded : TransitionContext.all_required_tasks_succeeded c run = true;
  cp_reviewed : Run.require_independent_critic run = true ->
    TransitionContext.has_required_independent_critic_reviews c run = Ok true;
}.

Lemma negb_reviewed (r : result bool) : (let* b := r in Ok (negb b)) = Ok false -> r = Ok true.
Proof. by destruct r as [[]|]. Qed.

Lemma completion_guards_Ok c run m1 m2 m3 m4 :
  RunStateMachine.completion_guards run c m1 m2 m3 m4 = Ok tt <-> completable c run.
Proof.
  unfold RunStateMachine.completion_guards. rewrite seq_Ok, raise_if_Ok, negb_false_iff. split.
  - intros [Hv H]. apply bind_Ok in H as (sealed & Hm & H). rewrite seq_Ok, !raise_if_Ok in H.
    destruct H as [->%negb_false_iff H]. rewrite seq_Ok, !raise_if_Ok in H.
    destruct H as [Hs%negb_false_iff H]. apply bind_Ok in H as (unreviewed & Hr & H).
    apply raise_if_Ok in H as ->. constructor; try done.
    intros Hc. rewrite Hc in Hr. by apply negb_reviewed in Hr.
  - intros [Hv Hm Hs Hr]. split; [done|]. rewrite Hm. simpl. rewrite Hs. simpl.
    destruct (Run.require_independent_critic run); [|done]. simpl. by rewrite Hr.
Qed.

Record may_transition (run : Run.t) (target : RunPhase.t) (at_ : datetime)
    (c : TransitionContext.t) : Prop := {
  mt_aware : dt_aware at_ = true;
  mt_edge : target ∈ allowed_phases (Run.phase run);
  mt_questions : Run.strict_user_coordination run = true ->
    RunStateMachine.blocked_by_questions target = true ->
    TransitionContext.open_blocking_questions c run = [];
  mt_plan : target = RunPhase.READY \/ target = RunPhase.EXECUTING ->
    Run.require_plan_approval run = true ->
    approved c run ApprovalKind.PLAN (Run.plan_digest run) at_;
  mt_change : Run.phase run = RunPhase.AWAITING_CHANGE_APPROVAL ->
    target = RunPhase.EXECUTING ->
    approved c run
      (default ApprovalKind.CHANGESET (TransitionContext.required_approval_kind c))
      (TransitionContext.required_subject_digest c) at_;
  mt_complete : target = RunPhase.COMPLETED -> completable c run;
}.

(** The entries of [_ALLOWED] neither leave a terminal phase nor are no-ops. *)
Lemma allowed_phases_proper p q :
  q ∈ allowed_phases p -> terminal_phase p = false /\ q <> p.
Proof. destruct p, q; vm_compute; intros H; split; try done; set_solver. Qed.

Lemma if_Ok (b : bool) (r : result unit) : (if b then r else Ok tt) = Ok tt <-> (b = true -> r = Ok tt).
Proof. destruct b; naive_solver. Qed.

Lemma next_phase_new run p :
  run_valid run ->
  Run.new (run <| Run.phase := p |> <| Run.revision := (Run.revision run + 1)%Z |>) =
  Ok (run <| Run.phase := p |> <| Run.revision := (Run.revision run + 1)%Z |>).
Proof.
  intros Hv. destruct (run_valid_revisions _ Hv). apply run_new_Ok. split; [|done].
  eapply run_valid_ext; [exact Hv|done|done|simpl; lia].
Qed.

Lemma transition_Ok run target at_ c run' :
  run_valid run ->
  RunStateMachine.transition run target at_ c = Ok run' <->
  may_transition run target at_ c /\
  run' = run <| Run.phase := target |> <| Run.revision := (Run.revision run + 1)%Z |>.
Proof.
  intros Hv. unfold RunStateMachine.transition. rewrite next_phase_new by done.
  rewrite !seq_Ok, require_aware_Ok, raise_first_Ok, !Forall_cons, !if_Ok, completion_guards_Ok.
  cbn [fst]. rewrite !bool_decide_eq_true, andb_true_iff, !bool_decide_eq_true.
  split.
  - intros (Ha & (Hterm & Hnoop & Hedge & Hq & _) & Hplan & Hchange & Hcompl & [= <-]).
    split; [|done]. constructor; try done.
    + by apply negb_false_iff, bool_decide_eq_true in Hedge.
    + intros Hs Hb. rewrite Hs, Hb in Hq. by apply negb_false_iff, bool_decide_eq_true in Hq.
    + intros Ht. rewrite require_plan_approval_Ok in Hplan by done. apply Hplan. set_solver.
    + intros Hp Ht. specialize (Hchange (conj Hp Ht)). by apply digest_guard_Ok in Hchange.
  - intros [[Ha Hedge Hq Hplan Hchange Hcompl] ->].
    destruct (allowed_phases_proper _ _ Hedge) as [Hterm Hnoop].
    split_and!; try done.
    + by apply bool_decide_eq_false.
    + by apply negb_false_iff, bool_decide_eq_true.
    + destruct (Run.strict_user_coordination run); [|done]. simpl.
      destruct (RunStateMachine.blocked_by_questions target); [|done]. simpl.
      by apply negb_false_iff, bool_decide_eq_true, Hq.
    + intros Ht. apply require_plan_approval_Ok; [done|]. apply Hplan. set_solver.
    + intros [Hp Ht]. by apply digest_guard_Ok; [|apply Hchange].
Qed.

(** ** The product workflow *)

(** The copy of [run] that [enter_stage] builds. *)
Definition entered (run : Run.t) (s : CoordinationStage.t) (digest : option string) : Run.t :=
  run <| Run.phase := stage_phase s |> <| Run.coordination_stage := s |>
      <| Run.checkpoint_digest := digest |>
      <| Run.coordination_revision := (Run.coordination_revision run + 1)%Z |>
      <| Run.revision := (Run.revision run + 1)%Z |>.

Lemma enter_stage_total run s digest :
  run_valid run ->
  CoordinationStageMachine.enter_stage run s digest = Ok (entered run s digest) /\
  run_valid (entered run s digest).
Proof.
  intros Hv. destruct (run_valid_revisions _ Hv).
  assert (run_valid (entered run s digest)) as Hn
    by (eapply run_valid_ext; [exact Hv|done|simpl; lia|simpl; lia]).
  split; [|done]. by apply run_new_Ok.
Qed.

Record may_advance (run : Run.t) (target : CoordinationStage.t) (at_ : datetime)
    (c : TransitionContext.t) : Prop := {
  ma_aware : dt_aware at_ = true;
  ma_next : stage_next (Run.coordination_stage run) = Some target;
  ma_questions : TransitionContext.open_blocking_questions c run = [];
  ma_checkpoint : forall kind, checkpoint_kind (Run.coordination_stage run) = Some kind ->
    approved c run kind (Run.checkpoint_digest run) at_;
  ma_release : target = CoordinationStage.RELEASED -> completable c run;
}.

Lemma advance_Ok run target at_ c run' :
  run_valid run ->
  CoordinationStageMachine.advance run target at_ c = Ok run' <->
  may_advance run target at_ c /\ run' = entered run target None.
Proof.
  intros Hv. unfold CoordinationStageMachine.advance.
  rewrite (proj1 (enter_stage_total run target None Hv)).
  rewrite seq_Ok, require_aware_Ok.
  destruct (stage_next (Run.coordination_stage run)) as [expected|] eqn:En.
  2: { split; [by intros []|]. intros [[_ Hn _ _ _] _]. by rewrite En in Hn. }
  rewrite !seq_Ok, raise_first_Ok, !Forall_cons, if_Ok, completion_guards_Ok. cbn [fst].
  rewrite bool_decide_eq_true, !negb_false_iff, !bool_decide_eq_true.
  assert (dt_aware at_ = true -> forall e1 e2,
    match checkpoint_kind (Run.coordination_stage run) with
    | None => Ok tt
    | Some kind =>
      raise_if (Question.falsy (Run.checkpoint_digest run)) e1 ;;;
      let* ok := TransitionContext.has_valid_approval c run kind
                   (default "" (Run.checkpoint_digest run)) at_ in
      raise_if (negb ok) (e2 kind)
    end = Ok tt <->
    forall kind, checkpoint_kind (Run.coordination_stage run) = Some kind ->
      approved c run kind (Run.checkpoint_digest run) at_) as Hk.
  { intros Ha e1 e2. destruct (checkpoint_kind _) as [kind|]; [|naive_solver].
    rewrite digest_guard_Ok by done. naive_solver. }
  split.
  - intros (Ha & (-> & Hq & _) & Hc & Hr & [= <-]). split; [|done].
    constructor; try done. eapply (Hk Ha _ (fun kind => rejected _)). exact Hc.
  - intros [[Ha Hn Hq Hc Hr] ->]. rewrite En in Hn. injection Hn as ->. split_and!; try done.
    by apply (Hk Ha _ (fun kind => rejected _)).
Qed.

(** ** Traces of coordination operations *)

(** One operation on the run, with what a theorem about traces refers to. *)
Inductive coord_event :=
  | Transitioned (run : Run.t) (target : RunPhase.t) (at_ : datetime) (c : TransitionContext.t)
  | Advanced (run : Run.t) (target : CoordinationStage.t) (at_ : datetime) (c : TransitionContext.t)
  | Restarted (run : Run.t)
  | Asked (run : Run.t) (q : Question.t)
  | CheckpointRequested (run : Run.t) (a : Approval.t)
  | ApprovalRequested (run : Run.t) (a : Approval.t).

Inductive coord_step : Run.t -> coord_event -> Run.t -> Prop :=
  | step_transition run target at_ c run' :
      RunStateMachine.transition run target at_ c = Ok run' ->
      coord_step run (Transitioned run target at_ c) run'
  | step_advance run target at_ c run' :
      CoordinationStageMachine.advance run target at_ c = Ok run' ->
      coord_step run (Advanced run target at_ c) run'
  | step_restart run run' :
      CoordinationStageMachine.restart_questioning run = Ok run' ->
      coord_step run (Restarted run) run'
  | step_ask run prompt rationale at_ blocking options recommendation confidence custom bound
      artifacts decisions qid uuid run' q :
      CoordinationService.open_question run prompt rationale at_ blocking options recommendation
        confidence custom bound artifacts decisions qid uuid = Ok (run', q) ->
      coord_step run (Asked run q) run'
  | step_checkpoint run kind digest summary at_ expires aid uuid run' a :
      CoordinationService.request_checkpoint_approval run kind digest summary at_ expires aid uuid
        = Ok (run', a) ->
      coord_step run (CheckpointRequested run a) run'
  | step_approval run kind digest summary at_ expires aid uuid run' a :
      CoordinationService.request_approval run kind digest summary at_ expires aid uuid
        = Ok (run', a) ->
      coord_step run (ApprovalRequested run a) run'.

(** The events, oldest first. *)
Inductive coord_trace (r0 : Run.t) : list coord_event -> Run.t -> Prop :=
  | trace_nil : coord_trace r0 [] r0
  | trace_snoc es r e r' :
      coord_trace r0 es r -> coord_step r e r' -> coord_trace r0 (es ++ [e]) r'.

(** What no coordination operation changes. *)
Definition run_identity (r : Run.t) :=
  (Run.id r, Run.objective r, Run.created_at r,
   (Run.strict_user_coordination r, Run.require_plan_approval r, Run.require_independent_critic r),
   Run.task_inventory_digest r, Run.max_concurrency r, Run.budget r).

(** Either nothing changed, or the revision moved on by one. *)
Definition revised (r r' : Run.t) : Prop :=
  r' = r \/ Run.revision r' = (Run.revision r + 1)%Z /\ run_identity r' = run_identity r.

Lemma checkpoint_kinds_target kind :
  match filter (fun p => p.2 = kind) checkpoint_kinds with
  | [(s, _)] => checkpoint_kind s = Some kind
  | _ => forall s, checkpoint_kind s <> Some kind
  end.
Proof. destruct kind; vm_compute; try done; intros []; done. Qed.

Lemma open_question_Ok run prompt rationale at_ blocking options recommendation confidence custom
    bound artifacts decisions qid uuid run' q :
  run_valid run ->
  CoordinationService.open_question run prompt rationale at_ blocking options recommendation
    confidence custom bound artifacts decisions qid uuid = Ok (run', q) ->
  dt_aware at_ = true /\ terminal_phase (Run.phase run) = false /\
  Question.run_id q = Run.id run /\ Question.blocking q = blocking /\
  Question.state q = QuestionState.OPEN /\
  (run' = run /\
     (blocking = true -> Run.phase run = RunPhase.CLARIFYING /\
                         Run.coordination_stage run = CoordinationStage.QUESTIONING) \/
   run' = entered run CoordinationStage.QUESTIONING None).
Proof.
  intros Hv. unfold CoordinationService.open_question.
  rewrite (proj1 (enter_stage_total run CoordinationStage.QUESTIONING None Hv)).
  rewrite !seq_Ok, require_aware_Ok, raise_first_Ok, !Forall_cons. cbn [fst].
  intros (Ha & (Hq0 & _) & H). apply bind_Ok in H as (qi & _ & H). apply bind_Ok in H as (q' & Hq & H).
  unfold Question.new in Hq. apply seq_Ok in Hq as [_ [= <-]].
  destruct (blocking && _) eqn:Eb; simpl in H; injection H as <- <-; split_and!; try done;
    [by right|left; split; [done|]].
  intros ->. simpl in Eb. apply orb_false_iff in Eb as [E1 E2].
  by rewrite negb_false_iff, bool_decide_eq_true in E1, E2.
Qed.

Lemma request_receipt_Ok run kind digest summary at_ expires aid uuid a :
  CoordinationService.request_receipt run kind digest summary at_ expires aid uuid = Ok a ->
  Approval.run_id a = Run.id run /\ Approval.kind a = kind /\
  Approval.subject_digest a = digest /\ Approval.state a = ApprovalState.REQUESTED /\
  Approval.requested_at a = at_ /\ Approval.expires_at a = expires /\
  Approval.post_init a = Ok tt.
Proof.
  unfold CoordinationService.request_receipt. intros (i & _ & H)%bind_Ok.
  unfold Approval.new in H. by apply seq_Ok in H as [Hi [= <-]].
Qed.

Lemma request_checkpoint_approval_Ok run kind digest summary at_ expires aid uuid run' a :
  run_valid run ->
  CoordinationService.request_checkpoint_approval run kind digest summary at_ expires aid uuid
    = Ok (run', a) ->
  dt_aware at_ = true /\ digest <> "" /\
  exists s, checkpoint_kind s = Some kind /\
    (Run.coordination_stage run = s \/ stage_next (Run.coordination_stage run) = Some s) /\
    run' = entered run s (Some digest) /\
    CoordinationService.request_receipt run kind digest summary at_ expires aid uuid = Ok a.
Proof.
  intros Hv. unfold CoordinationService.request_checkpoint_approval.
  rewrite seq_Ok, require_aware_Ok. intros [Ha H]. pose proof (checkpoint_kinds_target kind) as Hk.
  destruct (filter _ _) as [|[s k] [|]]; try done.
  rewrite (proj1 (enter_stage_total run s (Some digest) Hv)) in H.
  rewrite seq_Ok, raise_first_Ok, !Forall_cons in H. cbn [fst] in H.
  destruct H as [(Hs & Hd & _) H]. apply bind_Ok in H as (r & [= <-] & H).
  apply bind_Ok in H as (a' & Hreq & [= <- <-]). split_and!; [done|by destruct digest|].
  exists s. split_and!; try done.
  apply andb_false_iff in Hs. rewrite !negb_false_iff, !bool_decide_eq_true in Hs. tauto.
Qed.

Lemma request_approval_Ok run kind digest summary at_ expires aid uuid run' a :
  run_valid run ->
  CoordinationService.request_approval run kind digest summary at_ expires aid uuid
    = Ok (run', a) ->
  terminal_phase (Run.phase run) = false /\ run_valid run' /\ revised run run' /\
  Run.coordination_stage run' = Run.coordination_stage run /\
  CoordinationService.request_receipt run kind digest summary at_ expires aid uuid = Ok a.
Proof.
  intros Hv. unfold CoordinationService.request_approval.
  rewrite !seq_Ok, raise_if_Ok. intros (_ & Hterm & H).
  apply bind_Ok in H as (r & Hr & H). apply bind_Ok in H as (a' & Hreq & [= <- <-]).
  case_bool_decide.
  - apply run_new_Ok in Hr as [? ->]. split_and!; try done. by right.
  - apply seq_Ok in Hr as [_ Hr]. case_bool_decide; simpl in Hr.
    + injection Hr as <-. split_and!; try done. by left.
    + apply run_new_Ok in Hr as [? ->]. split_and!; try done. by right.
Qed.

Definition is_advanced (e : coord_event) : Prop :=
  match e with Advanced _ _ _ _ => True | _ => False end.

(** How one operation moves the stage. *)
Lemma coord_step_moves run e run' :
  run_valid run -> coord_step run e run' ->
  run_valid run' /\ revised run run' /\
  (Run.coordination_stage run' = Run.coordination_stage run \/
   Run.coordination_stage run' = CoordinationStage.QUESTIONING \/
   stage_next (Run.coordination_stage run) = Some (Run.coordination_stage run') /\
   ((exists at_ c, e = Advanced run (Run.coordination_stage run') at_ c /\
       may_advance run (Run.coordination_stage run') at_ c) \/
    is_Some (checkpoint_kind (Run.coordination_stage run')))).
Proof.
  intros Hv Hstep.
  destruct Hstep as [run target at_ c run' H|run target at_ c run' H|run run' H
    |run ??????????????? H|run ????????? H|run ????????? H].
  - unfold RunStateMachine.transition in H. rewrite !seq_Ok in H.
    destruct H as (_ & _ & _ & _ & _ & H). apply run_new_Ok in H as [? ->].
    split_and!; [done|by right|by left].
  - apply advance_Ok in H as [Hm ->]; [|done].
    split_and!; [by apply enter_stage_total|by right|right; right]. simpl.
    split; [apply Hm|left; eauto].
  - unfold CoordinationStageMachine.restart_questioning in H. apply seq_Ok in H as [_ H].
    rewrite (proj1 (enter_stage_total run _ None Hv)) in H. injection H as <-.
    split_and!; [by apply enter_stage_total|by right|by right; left].
  - apply open_question_Ok in H as (_ & _ & _ & _ & _ & [[-> _]| ->]); [|..|done].
    + split_and!; [done|by left|by left].
    + split_and!; [by apply enter_stage_total|by right|by right; left].
  - apply request_checkpoint_approval_Ok in H as (_ & _ & s & Hk & Hs & -> & _); [|done].
    split_and!; [by apply enter_stage_total|by right|]. simpl.
    destruct Hs as [->|Hs]; [by left|right; right]. rewrite Hk. eauto.
  - apply request_approval_Ok in H as (_ & ? & ? & ? & _); [|done]. split_and!; try done. by left.
Qed.

(** ** Every gate but one *)

Definition stage_rank (s : CoordinationStage.t) : nat :=
  match s with
  | CoordinationStage.QUESTIONING => 0
  | CoordinationStage.AWAITING_BRIEF_APPROVAL => 1
  | CoordinationStage.RESEARCH => 2
  | CoordinationStage.AWAITING_ARCHITECTURE_BOM_APPROVAL => 3
  | CoordinationStage.SCHEMATIC_STAGE => 4
  | CoordinationStage.AWAITING_SCHEMATIC_APPROVAL => 5
  | CoordinationStage.AWAITING_LAYOUT_CONSTRAINT_APPROVAL => 6
  | CoordinationStage.PLACEMENT_STAGE => 7
  | CoordinationStage.AWAITING_PLACEMENT_APPROVAL => 8
  | CoordinationStage.ROUTING_STAGE => 9
  | CoordinationStage.AWAITING_ROUTING_APPROVAL => 10
  | CoordinationStage.RELEASE_CHECK => 11
  | CoordinationStage.AWAITING_RELEASE_APPROVAL => 12
  | CoordinationStage.RELEASED => 13
  end.

Lemma stage_next_rank s s' : stage_next s = Some s' -> stage_rank s' = S (stage_rank s).
Proof. destruct s; simpl; by intros [= <-]. Qed.
Lemma stage_rank_inj s s' : stage_rank s = stage_rank s' -> s = s'.
Proof. destruct s, s'; done. Qed.
(** The only checkpoint that directly follows another one. *)
Lemma consecutive_checkpoints s s' k :
  stage_next s = Some s' -> is_Some (checkpoint_kind s') -> checkpoint_kind s = Some k ->
  k = ApprovalKind.SCHEMATIC.
Proof. destruct s; simpl; intros [= <-] [? H] [= <-]; try done. Qed.

(** [kind] was approved for the digest under review when [es] left stage [s]. *)
Definition gate_passed (es : list coord_event) (s : CoordinationStage.t) (kind : ApprovalKind.t)
    : Prop :=
  exists run target at_ c, Advanced run target at_ c ∈ es /\ Run.coordination_stage run = s /\
    approved c run kind (Run.checkpoint_digest run) at_.

Definition gates_behind (es : list coord_event) (r : Run.t) : Prop :=
  (forall s kind, checkpoint_kind s = Some kind -> kind <> ApprovalKind.SCHEMATIC ->
    stage_rank s < stage_rank (Run.coordination_stage r) -> gate_passed es s kind)%nat /\
  (Run.coordination_stage r = CoordinationStage.RELEASED ->
   exists run at_ c, Advanced run CoordinationStage.RELEASED at_ c ∈ es /\ completable c run).

Lemma gate_passed_app es es' s kind : gate_passed es s kind -> gate_passed (es ++ es') s kind.
Proof.
  intros (run & target & at_ & c & H & ?). exists run, target, at_, c.
  split; [|done]. apply elem_of_app. by left.
Qed.

Lemma gates_behind_step es r e r' :
  run_valid r -> gates_behind es r -> coord_step r e r' -> gates_behind (es ++ [e]) r'.
Proof.
  intros Hv [Hg Hr] Hstep.
  destruct (coord_step_moves _ _ _ Hv Hstep) as (_ & _ & [Hs|[Hs|[Hn Hs]]]).
  - split; rewrite Hs.
    + intros s kind Hk Hne Hlt. by apply gate_passed_app, Hg.
    + intros (run & at_ & c & Hin & ?)%Hr. exists run, at_, c.
      split; [apply elem_of_app; by left|done].
  - split; rewrite Hs; [simpl; lia|done].
  - split.
    + intros s kind Hk Hne Hlt. rewrite (stage_next_rank _ _ Hn) in Hlt.
      destruct (decide (s = Run.coordination_stage r)) as [->|Hns].
      * destruct Hs as [(at_ & c & -> & Hm)|Hs]; [|by edestruct Hne; eapply consecutive_checkpoints].
        exists r, (Run.coordination_stage r'), at_, c.
        split; [set_solver|]. split; [done|]. by apply Hm.
      * apply gate_passed_app, Hg; [done..|].
        assert (stage_rank s <> stage_rank (Run.coordination_stage r))
          by (by intros ?%stage_rank_inj). lia.
    + intros Hrel. destruct Hs as [(at_ & c & -> & Hm)|[k Hk]]; [|by rewrite Hrel in Hk].
      rewrite Hrel in Hm |- *. exists r, at_, c. split; [set_solver|]. by apply Hm.
Qed.

Lemma coord_trace_gates r0 es r :
  run_valid r0 -> Run.coordination_stage r0 = CoordinationStage.QUESTIONING ->
  coord_trace r0 es r -> run_valid r /\ gates_behind es r.
Proof.
  intros Hv H0. induction 1 as [|es r e r' _ [Hr Hg] Hstep].
  - split; [done|]. split; rewrite H0; [simpl; lia|done].
  - split; [by eapply coord_step_moves|by eapply gates_behind_step].
Qed.

(** ** Theorems *)

(** The completion gate of [RunStateMachine.transition] has no way around
    it: a run becomes COMPLETED exactly from VERIFYING, with an aware time, no
    open blocking question under strict coordination, passed verification, the
    sealed task inventory, every task succeeded or cancelled, and the critic
    reviews the run asks for; the phase and the revision are all that changes. *)
Theorem transition_completes_iff run at_ c run' :
  run_valid run ->
  RunStateMachine.transition run RunPhase.COMPLETED at_ c = Ok run' <->
  dt_aware at_ = true /\ Run.phase run = RunPhase.VERIFYING /\
  (Run.strict_user_coordination run = true ->
   TransitionContext.open_blocking_questions c run = []) /\
  completable c run /\
  run' = run <| Run.phase := RunPhase.COMPLETED |> <| Run.revision := (Run.revision run + 1)%Z |>.
Proof.
  intros Hv. rewrite transition_Ok by done.
  assert (RunPhase.COMPLETED ∈ allowed_phases (Run.phase run) <->
          Run.phase run = RunPhase.VERIFYING) as Hedge
    by (destruct (Run.phase run); simpl; set_solver).
  split.
  - intros [[] ?]. rewrite Hedge in *. split_and!; auto.
  - intros (?&Hp&?&?&->). split; [|done]. constructor; rewrite ?Hedge, ?Hp; auto; try done.
    by intros [|].
Qed.

(** C1. What the completion gate establishes about the records themselves: the
    digest sealed into the run is the digest of exactly the supplied tasks,
    their ids are unique, each is of this run and succeeded or cancelled, and
    when the run requires a critic every design or implementation task that
    was not cancelled has a completed review by another agent, a critic, bound
    to the digest of that exact result and its evidence. *)
Theorem completed_run_is_reviewed run at_ c run' :
  RunStateMachine.transition run RunPhase.COMPLETED at_ c = Ok run' ->
  run_valid run ->
  Run.task_inventory_digest run = Some (sha256_text (Json.canonical_json
    (task_inventory_payload (Run.id run) (TransitionContext.tasks c)))) /\
  NoDup (Task.id <$> TransitionContext.tasks c) /\ TransitionContext.tasks c <> [] /\
  (forall x, x ∈ TransitionContext.tasks c -> Task.run_id x = Run.id run /\
     (Task.state x = TaskState.SUCCEEDED \/ Task.state x = TaskState.CANCELLED)) /\
  (Run.require_independent_critic run = true ->
   forall x, x ∈ TransitionContext.tasks c -> Task.state x <> TaskState.CANCELLED ->
     Task.kind x = TaskKind.DESIGN \/ Task.kind x = TaskKind.IMPLEMENT ->
     exists review, reviewed_by c run x review).
Proof.
  intros H Hv. apply transition_Ok in H as [[_ _ _ _ _ Hc] _]; [|done].
  destruct (Hc eq_refl) as [_ Hm Hs Hr].
  apply matches_task_inventory_true in Hm as (Hd & Hnd & Hrun).
  apply all_required_tasks_succeeded_true in Hs as [Hne Hs].
  split_and!; [done|done|..].
  - intros Hnil. unfold TransitionContext.run_tasks in Hne. by rewrite Hnil in Hne.
  - intros x Hx. split; [by apply Hrun|]. apply Hs, elem_of_run_tasks. auto.
  - intros Hcr x Hx Hnc Hk. eapply critic_reviews_true; [by apply Hr| |].
    + apply elem_of_run_tasks. auto.
    + unfold TransitionContext.is_review_target.
      rewrite andb_true_iff, negb_true_iff, bool_decide_eq_true, bool_decide_eq_false.
      set_solver.
Qed.

(** Every coordination operation (phase transition, stage advance, restart,
    question, checkpoint request, approval request) keeps a valid run valid,
    and either returns it unchanged or moves its revision on by exactly one;
    the id, objective, policy flags, sealed inventory, concurrency and budget
    are never touched, so the revision identifies a version of the run. *)
Theorem coordination_revises_once run e run' :
  run_valid run -> coord_step run e run' -> run_valid run' /\ revised run run'.
Proof. intros Hv Hs. destruct (coord_step_moves _ _ _ Hv Hs) as (? & ? & _). done. Qed.

(** C2. A released run passed its gates: on any sequence of coordination
    operations from QUESTIONING to RELEASED, every checkpoint but the schematic
    one was left by an [advance] for which an approval of its kind, for the
    digest then under review, was in force; and the release itself had passed
    verification, the sealed inventory, the tasks and the critic reviews. *)
Theorem released_run_passed_gates r0 es r :
  run_valid r0 -> Run.coordination_stage r0 = CoordinationStage.QUESTIONING ->
  coord_trace r0 es r -> Run.coordination_stage r = CoordinationStage.RELEASED ->
  (forall s kind, checkpoint_kind s = Some kind -> kind <> ApprovalKind.SCHEMATIC ->
     gate_passed es s kind) /\
  exists run at_ c, Advanced run CoordinationStage.RELEASED at_ c ∈ es /\ completable c run.
Proof.
  intros Hv H0 Ht Hr. destruct (coord_trace_gates _ _ _ Hv H0 Ht) as [_ [Hg Hc]].
  split; [|by apply Hc]. intros s kind Hk Hne. apply Hg; [done..|]. rewrite Hr.
  destruct s; simpl in *; try done; lia.
Qed.

(** The schematic gate is the exception: from AWAITING_SCHEMATIC_APPROVAL a
    request for the layout-constraint approval is accepted and moves the run
    past the gate, and the run then advances to PLACEMENT_STAGE on that layout
    approval alone, whatever approvals of the schematic there are. *)
Theorem schematic_gate_can_be_skipped run digest summary at_ aid uuid :
  run_valid run -> dt_aware at_ = true -> digest <> "" -> aid <> "" ->
  Run.coordination_stage run = CoordinationStage.AWAITING_SCHEMATIC_APPROVAL ->
  exists run' a,
    CoordinationService.request_checkpoint_approval run ApprovalKind.LAYOUT_CONSTRAINTS digest
      summary at_ None (Some aid) uuid = Ok (run', a) /\
    forall c, TransitionContext.open_blocking_questions c run' = [] ->
      (exists b, b ∈ TransitionContext.approvals c /\
         in_force run' ApprovalKind.LAYOUT_CONSTRAINTS digest at_ b) ->
      CoordinationStageMachine.advance run' CoordinationStage.PLACEMENT_STAGE at_ c =
      Ok (entered run' CoordinationStage.PLACEMENT_STAGE None).
Proof.
  intros Hv Ha Hd Hi Hs. destruct (enter_stage_total run
    CoordinationStage.AWAITING_LAYOUT_CONSTRAINT_APPROVAL (Some digest) Hv) as [He Hv'].
  exists (entered run CoordinationStage.AWAITING_LAYOUT_CONSTRAINT_APPROVAL (Some digest)).
  eexists. split.
  - unfold CoordinationService.request_checkpoint_approval.
    rewrite (proj2 (require_aware_Ok at_ "timestamp") Ha). simpl. rewrite Hs. simpl.
    destruct digest as [|d0 digest]; [done|]. simpl str_empty. simpl. rewrite He. simpl.
    unfold CoordinationService.request_receipt. destruct aid as [|i0 aid]; [done|]. simpl.
    unfold Approval.new, Approval.post_init, naive. simpl. rewrite Ha. simpl.
    assert (str_empty (Run.id run) = false) as ->; [|done].
    unfold run_valid, Run.post_init in Hv. rewrite raise_first_Ok, !Forall_cons in Hv.
    destruct Hv as (_ & _ & Hid & _). by apply orb_false_iff in Hid as [? _].
  - intros c Hq (b & Hb & Hf). apply advance_Ok; [done|]. split; [|done].
    constructor; try done. intros kind [= <-]. exists digest, b. done.
Qed.

(** A run in a terminal phase is closed to the phase machine: no
    transition, no question and no approval request is accepted. *)
Theorem terminal_run_is_closed run at_ :
  dt_aware at_ = true -> terminal_phase (Run.phase run) = true ->
  (forall target c, exists m,
     RunStateMachine.transition run target at_ c = Err (Exn TransitionRejected m)) /\
  (forall prompt rationale blocking options recommendation confidence custom bound artifacts
     decisions qid uuid, exists m,
     CoordinationService.open_question run prompt rationale at_ blocking options recommendation
       confidence custom bound artifacts decisions qid uuid = Err (Exn TransitionRejected m)) /\
  (forall kind digest summary expires aid uuid, exists m,
     CoordinationService.request_approval run kind digest summary at_ expires aid uuid =
       Err (Exn TransitionRejected m)).
Proof.
  intros Ha Ht. pose proof (proj2 (require_aware_Ok at_ "timestamp") Ha) as Hr.
  split_and!; intros; eexists.
  - unfold RunStateMachine.transition. rewrite Hr. simpl. rewrite Ht. done.
  - unfold CoordinationService.open_question. rewrite Hr. simpl. rewrite Ht. done.
  - unfold CoordinationService.request_approval. rewrite Hr. simpl. rewrite Ht. done.
Qed.

(** The stage operations do not look at the phase: a cancelled, failed or
    completed run whose stage is not RELEASED is taken back to CLARIFYING by
    [restart_questioning], and the phase machine accepts it again. *)
Theorem restart_revives_terminal_run run at_ c :
  run_valid run -> dt_aware at_ = true -> terminal_phase (Run.phase run) = true ->
  Run.coordination_stage run <> CoordinationStage.RELEASED ->
  exists run' run'', CoordinationStageMachine.restart_questioning run = Ok run' /\
    RunStateMachine.transition run' RunPhase.AWAITING_PLAN_APPROVAL at_ c = Ok run''.
Proof.
  intros Hv Ha Ht Hs.
  destruct (enter_stage_total run CoordinationStage.QUESTIONING None Hv) as [He Hv'].
  exists (entered run CoordinationStage.QUESTIONING None). eexists. split.
  - unfold CoordinationStageMachine.restart_questioning.
    by rewrite (bool_decide_eq_false_2 _ Hs).
  - apply transition_Ok; [done|]. split; [|reflexivity].
    constructor; try done; [|by intros []]. simpl. set_solver.
Qed.

Lemma approval_new_Ok a a' : Approval.new a = Ok a' <-> Approval.post_init a = Ok tt /\ a' = a.
Proof. unfold Approval.new. rewrite seq_Ok. naive_solver. Qed.

(** A decision is final and cannot be stretched: only a requested approval
    is decided; the result is in force, for the digest it was requested for and
    no other, exactly when the user approved before the expiry and the time of
    use is before it too; and no second decision is accepted. *)
Theorem decided_approval_in_force_iff a approve by_ reason at_ a' :
  CoordinationService.decide_approval a approve by_ reason at_ = Ok a' ->
  Approval.state a = ApprovalState.REQUESTED /\
  (forall run kind digest at2,
     Approval.run_id a = Run.id run ->
     in_force run kind digest at2 a' <->
     approve = true /\ kind = Approval.kind a /\ digest = Approval.subject_digest a /\
     forall e, Approval.expires_at a = Some e ->
       (instant at_ < instant e /\ instant at2 < instant e)%Z) /\
  (forall approve2 by2 reason2 at2, dt_aware at2 = true ->
     CoordinationService.decide_approval a' approve2 by2 reason2 at2 =
     Err (DomainErr "approval has already been decided")).
Proof.
  unfold CoordinationService.decide_approval at 1.
  rewrite !seq_Ok, require_aware_Ok, raise_first_Ok, !Forall_cons. cbn [fst].
  intros (Ha & (Hreq & Hby & _) & H). apply negb_false_iff, bool_decide_eq_true in Hreq.
  assert (Approval.state a' <> ApprovalState.REQUESTED /\
    forall run kind digest at2, Approval.run_id a = Run.id run ->
     in_force run kind digest at2 a' <->
     approve = true /\ kind = Approval.kind a /\ digest = Approval.subject_digest a /\
     forall e, Approval.expires_at a = Some e ->
       (instant at_ < instant e /\ instant at2 < instant e)%Z) as [Hdec Hiff].
  { destruct (Approval.expires_at a) as [e|] eqn:Ee; simpl in H; [destruct (dt_le e at_) eqn:El|];
      simpl in H; apply approval_new_Ok in H as [_ ->]; unfold in_force; simpl;
      rewrite ?Ee; unfold dt_le in *; (split; [by destruct approve|]); intros ???? Hrun;
      rewrite ?Hrun.
    - apply Z.leb_le in El. split; [naive_solver|]. intros (_ & _ & _ & H).
      specialize (H e eq_refl). lia.
    - apply Z.leb_gt in El. destruct approve; naive_solver.
    - destruct approve; naive_solver. }
  split_and!; [done|done|]. intros approve2 by2 reason2 at2 Ha2.
  unfold CoordinationService.decide_approval.
  rewrite (proj2 (require_aware_Ok at2 "timestamp") Ha2). simpl.
  by rewrite (bool_decide_eq_false_2 _ Hdec).
Qed.

(** A blocking question stops the run: once [open_question] has recorded it,
    in every context that contains it no transition to READY, EXECUTING,
    VERIFYING or COMPLETED of a strictly coordinated run and no stage advance
    is accepted, and the run is back in QUESTIONING; an accepted answer leaves
    a question that is no longer open. *)
Theorem blocking_question_stops_run run prompt rationale at_ options recommendation confidence
    custom bound artifacts decisions qid uuid run' q :
  run_valid run ->
  CoordinationService.open_question run prompt rationale at_ true options recommendation
    confidence custom bound artifacts decisions qid uuid = Ok (run', q) ->
  Run.coordination_stage run' = CoordinationStage.QUESTIONING /\
  Run.phase run' = RunPhase.CLARIFYING /\
  (forall c at2, q ∈ TransitionContext.questions c ->
    (forall target r, Run.strict_user_coordination run = true ->
       RunStateMachine.blocked_by_questions target = true ->
       RunStateMachine.transition run' target at2 c <> Ok r) /\
    (forall target r, CoordinationStageMachine.advance run' target at2 c <> Ok r)) /\
  forall answer by_ at2 q', CoordinationService.answer_question q answer by_ at2 = Ok q' ->
    Question.state q' = QuestionState.ANSWERED /\ Question.id q' = Question.id q.
Proof.
  intros Hv H. apply open_question_Ok in H as (_ & _ & Hid & Hb & Hst & Hrun); [|done].
  assert (run_valid run' /\ Run.id run' = Run.id run /\
    Run.strict_user_coordination run' = Run.strict_user_coordination run /\
    Run.coordination_stage run' = CoordinationStage.QUESTIONING /\
    Run.phase run' = RunPhase.CLARIFYING) as (Hv' & Hid' & Hstrict & Hs & Hp).
  { destruct Hrun as [[-> Hc]| ->].
    - by destruct (Hc eq_refl).
    - split_and!; try done. by apply enter_stage_total. }
  split_and!; [done|done|..].
  - intros c at2 Hin. assert (TransitionContext.open_blocking_questions c run' <> []) as Hopen.
    { intros Hnil. assert (q ∈ TransitionContext.open_blocking_questions c run') as Hq
        by (apply list_elem_of_filter; rewrite Hid'; done).
      rewrite Hnil in Hq. by inversion Hq. }
    split.
    + intros target r Hs' Hbl Ht. apply transition_Ok in Ht as [[] _]; [|done].
      apply Hopen. rewrite Hstrict in *. auto.
    + intros target r Ht. apply advance_Ok in Ht as [[] _]; done.
  - intros answer by_ at2 q' Hans. unfold CoordinationService.answer_question in Hans.
    rewrite !seq_Ok in Hans. destruct Hans as (_ & _ & Hans).
    unfold Question.new in Hans. by apply seq_Ok in Hans as [_ [= <-]].
Qed.

(** ** Witnesses *)

Definition demo_approval (kind : ApprovalKind.t) (digest : string) : Approval.t :=
  Approval.mk "approval_1" "run_1" kind digest "" (clock 0) None ApprovalState.APPROVED
    (Some "user") (Some (clock 1)) None.

Definition demo_context (approvals : list Approval.t) : TransitionContext.t :=
  TransitionContext.mk [] approvals demo_tasks [designer; critic]
    [design_evidence; review_evidence] None None true.

Definition verifying_run : Run.t := sealed_run <| Run.phase := RunPhase.VERIFYING |>.
Definition completed_run : Run.t :=
  verifying_run <| Run.phase := RunPhase.COMPLETED |> <| Run.revision := 1%Z |>.

Lemma verifying_run_valid : run_valid verifying_run.
Proof. vm_compute. reflexivity. Qed.

Lemma verifying_run_completes :
  RunStateMachine.transition verifying_run RunPhase.COMPLETED (clock 9) (demo_context []) =
  Ok completed_run.
Proof. vm_compute. reflexivity. Qed.

Lemma transition_completes_iff_witness : completable (demo_context []) verifying_run.
Proof.
  apply (transition_completes_iff verifying_run (clock 9) (demo_context []) completed_run verifying_run_valid).
  exact verifying_run_completes.
Defined.

Lemma completed_run_is_reviewed_witness :
  exists review, reviewed_by (demo_context []) verifying_run design_done review.
Proof.
  destruct (completed_run_is_reviewed verifying_run (clock 9) (demo_context []) completed_run
    verifying_run_completes verifying_run_valid) as (_ & _ & _ & _ & H).
  apply H; [done|by left|done|by left].
Defined.

Lemma coordination_revises_once_witness : run_valid completed_run.
Proof.
  apply (coordination_revises_once verifying_run
    (Transitioned verifying_run RunPhase.COMPLETED (clock 9) (demo_context [])) completed_run).
  - exact verifying_run_valid.
  - apply step_transition. exact verifying_run_completes.
Defined.

(** Request the approval of each kind, then advance to the stage given with it. *)
Fixpoint walk (r : Run.t) (l : list (ApprovalKind.t * CoordinationStage.t))
    : result (list coord_event * Run.t) :=
  match l with
  | [] => Ok ([], r)
  | (kind, target) :: l =>
    let* ' (r1, a) := CoordinationService.request_checkpoint_approval r kind "digest" "" (clock 2)
      None (Some "approval_1") "" in
    let c := demo_context [demo_approval kind "digest"] in
    let* r2 := CoordinationStageMachine.advance r1 target (clock 3) c in
    let* ' (es, r') := walk r2 l in
    Ok (CheckpointRequested r a :: Advanced r1 target (clock 3) c :: es, r')
  end.

Lemma walk_trace r0 es r l es' r' :
  coord_trace r0 es r -> walk r l = Ok (es', r') -> coord_trace r0 (es ++ es') r'.
Proof.
  revert es r es'. induction l as [|[kind target] l IH]; simpl; intros es r es' Ht H.
  { injection H as <- <-. by rewrite app_nil_r. }
  apply bind_Ok in H as ([r1 a] & H1 & H). apply bind_Ok in H as (r2 & H2 & H).
  apply bind_Ok in H as ([es2 r3] & H3 & [= <- <-]).
  change (?x :: ?y :: es2) with ([x] ++ [y] ++ es2)%list. rewrite !app_assoc.
  eapply IH; [|exact H3]. eapply trace_snoc; [|by apply step_advance].
  eapply trace_snoc; [done|]. by eapply step_checkpoint.
Qed.

Definition demo_gates : list (ApprovalKind.t * CoordinationStage.t) := [
  (ApprovalKind.BRIEF, CoordinationStage.RESEARCH);
  (ApprovalKind.ARCHITECTURE_BOM, CoordinationStage.SCHEMATIC_STAGE);
  (ApprovalKind.SCHEMATIC, CoordinationStage.AWAITING_LAYOUT_CONSTRAINT_APPROVAL);
  (ApprovalKind.LAYOUT_CONSTRAINTS, CoordinationStage.PLACEMENT_STAGE);
  (ApprovalKind.PLACEMENT, CoordinationStage.ROUTING_STAGE);
  (ApprovalKind.ROUTING, CoordinationStage.RELEASE_CHECK);
  (ApprovalKind.RELEASE, CoordinationStage.RELEASED) ].

Lemma demo_walk_releases : exists es r,
  walk sealed_run demo_gates = Ok (es, r) /\ Run.coordination_stage r = CoordinationStage.RELEASED.
Proof. eexists _, _. split; vm_compute; reflexivity. Qed.

Lemma sealed_run_valid : run_valid sealed_run.
Proof. vm_compute. reflexivity. Qed.

Lemma released_run_passed_gates_witness : exists es r,
  walk sealed_run demo_gates = Ok (es, r) /\
  gate_passed es CoordinationStage.AWAITING_BRIEF_APPROVAL ApprovalKind.BRIEF.
Proof.
  destruct demo_walk_releases as (es & r & Hw & Hr). exists es, r. split; [exact Hw|].
  apply (released_run_passed_gates sealed_run es r sealed_run_valid
    (eq_refl CoordinationStage.QUESTIONING)
    (walk_trace sealed_run [] sealed_run demo_gates es r (trace_nil sealed_run) Hw) Hr);
    [reflexivity|discriminate].
Defined.

Definition awaiting_schematic : Run.t :=
  entered demo_run CoordinationStage.AWAITING_SCHEMATIC_APPROVAL None.

Lemma schematic_gate_can_be_skipped_witness :
  exists run', CoordinationStageMachine.advance run' CoordinationStage.PLACEMENT_STAGE (clock 2)
    (demo_context [demo_approval ApprovalKind.LAYOUT_CONSTRAINTS "layout"]) =
    Ok (entered run' CoordinationStage.PLACEMENT_STAGE None).
Proof.
  destruct (schematic_gate_can_be_skipped awaiting_schematic "layout" "" (clock 2) "approval_1" "")
    as (run' & a & Hreq & H); [reflexivity|reflexivity|done|done|reflexivity|].
  exists run'. vm_compute in Hreq. injection Hreq as <- <-. apply H; [reflexivity|].
  exists (demo_approval ApprovalKind.LAYOUT_CONSTRAINTS "layout").
  split; [by left|]. split_and!; try reflexivity. discriminate.
Defined.

Definition cancelled_run : Run.t := demo_run <| Run.phase := RunPhase.CANCELLED |>.

Lemma terminal_run_is_closed_witness :
  exists m, RunStateMachine.transition cancelled_run RunPhase.CLARIFYING (clock 1)
    TransitionContext.empty = Err (Exn TransitionRejected m).
Proof. apply (terminal_run_is_closed cancelled_run (clock 1)); reflexivity. Defined.

Lemma restart_revives_terminal_run_witness :
  exists run', CoordinationStageMachine.restart_questioning cancelled_run = Ok run'.
Proof.
  destruct (restart_revives_terminal_run cancelled_run (clock 1) TransitionContext.empty)
    as (run' & run'' & H & _); [reflexivity|reflexivity|reflexivity|done|]. by exists run'.
Defined.

Definition requested_approval : Approval.t :=
  (demo_approval ApprovalKind.PLAN "plan") <| Approval.state := ApprovalState.REQUESTED |>
    <| Approval.decided_by := None |> <| Approval.decided_at := None |>
    <| Approval.expires_at := Some (clock 10) |>.

Lemma decided_approval_in_force_iff_witness :
  exists a', CoordinationService.decide_approval requested_approval true "user" "" (clock 5) = Ok a' /\
    in_force demo_run ApprovalKind.PLAN "plan" (clock 9) a'.
Proof.
  eexists. split; [reflexivity|].
  eapply (decided_approval_in_force_iff requested_approval true "user" "" (clock 5));
    [reflexivity|reflexivity|].
  split_and!; try reflexivity. intros e [= <-]. vm_compute. done.
Defined.

Lemma blocking_question_stops_run_witness :
  exists run' q, CoordinationService.open_question demo_run "Which LED?" "" (clock 1) true
      ["red"; "green"] (Some "red") (Some 9000%Z) false (Some "rev-1") [] [] (Some "q1") ""
      = Ok (run', q) /\ Run.coordination_stage run' = CoordinationStage.QUESTIONING.
Proof.
  eexists _, _. split; [vm_compute; reflexivity|].
  eapply (blocking_question_stops_run demo_run "Which LED?" "" (clock 1) ["red"; "green"]
    (Some "red") (Some 9000%Z) false (Some "rev-1") [] [] (Some "q1") "");
    [reflexivity|vm_compute; reflexivity].
Defined.
