(* ===== verification/SchedInv.v ===== *)
(** * The scheduler's invariant

    Tasks and agents are matched: a task is active for an agent exactly when
    that agent is active on that task.  [validate_membership] decides it, and
    reaping, blocking and dispatching preserve it together with the accounting
    of the budget. *)
From S2P Require Import Prelude PyStr PyDict Json Sha256 DateTime Enums.
From S2P Require Import Models Digests DigestFacts TaskGraph ModelFacts Scheduler.

Local Open Scope string_scope.

(** ** Valid records *)

Definition task_valid (x : Task.t) : Prop := Task.post_init x = Ok tt.
Definition agent_valid (a : Agent.t) : Prop := Agent.post_init a = Ok tt.

Lemma task_new_Ok x y : Task.new x = Ok y <-> task_valid x /\ y = x.
Proof. unfold Task.new, task_valid. rewrite seq_Ok. naive_solver. Qed.
Lemma agent_new_Ok x y : Agent.new x = Ok y <-> agent_valid x /\ y = x.
Proof. unfold Agent.new, agent_valid. rewrite seq_Ok. naive_solver. Qed.

(** The agent a task is active for, and the task an agent is active on. *)
Definition task_link (x : Task.t) : option string :=
  if Task.active_state (Task.state x) then Lease.agent_id <$> Task.lease x else None.
Definition agent_link (a : Agent.t) : option string :=
  if Agent.active_state (Agent.state a) then Agent.current_task_id a else None.

(** What the scheduler relies on in a valid task and a valid agent. *)
Record task_facts (x : Task.t) : Prop := {
  tf_estimated : (0 <= Task.estimated_tokens x)%Z;
  tf_attempt : (0 <= Task.attempt x)%Z;
  tf_active : Task.active_state (Task.state x) = true -> is_Some (Task.lease x);
  tf_inactive : Task.active_state (Task.state x) = false -> Task.lease x = None;
  tf_lease : forall l, Task.lease x = Some l ->
    Lease.task_id l = Task.id x /\ Lease.attempt l = Task.attempt x;
  tf_dependencies : NoDup (Task.dependencies x);
  tf_reviewed : forall i, i ∈ Task.reviewed_task_ids x -> i ∈ Task.dependencies x;
  tf_eligible : forall d, Task.next_eligible_at x = Some d -> dt_aware d = true;
  tf_completed : is_Some (Task.completed_by_agent_id x) -> Task.state x = TaskState.SUCCEEDED;
  tf_checks : NoDup (Task.check_ids x);
}.

Lemma str_subset_elem l1 l2 : str_subset l1 l2 = true <-> forall i, i ∈ l1 -> i ∈ l2.
Proof.
  unfold str_subset. rewrite forallb_elem. unfold str_in. by setoid_rewrite bool_decide_eq_true.
Qed.

Lemma task_valid_facts x : task_valid x -> task_facts x.
Proof.
  unfold task_valid, Task.post_init. rewrite raise_first_Ok, !Forall_cons. cbn [fst].
  intros (_&_&_&_&_&_&_&_&_&Hatt&Hest&_&Hdep&_&_&_&_&_&Hrev&Hchk&Helig&Hact&Hinact&Hlid&Hlatt&Hcomp&_).
  rewrite !orb_false_iff, !Z.ltb_ge in Hatt. apply Z.ltb_ge in Hest.
  constructor.
  - done.
  - tauto.
  - intros Ha. rewrite Ha in Hact. simpl in Hact. by destruct (Task.lease x).
  - intros Ha. rewrite Ha in Hinact. simpl in Hinact. by destruct (Task.lease x).
  - intros l Hl. rewrite Hl in Hlid, Hlatt. simpl in Hlid, Hlatt.
    apply negb_false_iff in Hlid, Hlatt. apply bool_decide_eq_true in Hlid.
    apply Z.eqb_eq in Hlatt. done.
  - by apply no_duplicates.
  - intros i Hi. apply andb_false_iff in Hrev as [Hnil|Hsub].
    + apply negb_false_iff, bool_decide_eq_true in Hnil. rewrite Hnil in Hi. by inversion Hi.
    + apply negb_false_iff in Hsub. by eapply str_subset_elem.
  - intros d Hd. rewrite Hd in Helig. simpl in Helig. unfold naive in Helig.
    by apply negb_false_iff.
  - intros [i Hi]. rewrite Hi in Hcomp. simpl in Hcomp.
    apply negb_false_iff, bool_decide_eq_true in Hcomp. done.
  - by apply no_duplicates.
Qed.

Lemma agent_valid_current a :
  agent_valid a ->
  (Agent.active_state (Agent.state a) = true -> is_Some (Agent.current_task_id a)) /\
  (Agent.active_state (Agent.state a) = false -> Agent.current_task_id a = None) /\
  (forall d, Agent.last_heartbeat_at a = Some d -> dt_aware d = true).
Proof.
  unfold agent_valid, Agent.post_init. rewrite raise_first_Ok, !Forall_cons. cbn [fst].
  intros (_&_&_&_&_&Hh&Ha&Hi&_). split_and!.
  - intros E. rewrite E in Ha. simpl in Ha. by destruct (Agent.current_task_id a).
  - intros E. rewrite E in Hi. simpl in Hi. by destruct (Agent.current_task_id a).
  - intros d Hd. rewrite Hd in Hh. simpl in Hh. by apply negb_false_iff in Hh.
Qed.

Lemma task_link_active x : task_valid x ->
  Task.active_state (Task.state x) = true <-> is_Some (task_link x).
Proof.
  intros Hv%task_valid_facts. unfold task_link. destruct (Task.active_state _) eqn:E.
  - split; [|done]. intros _. destruct (tf_active x Hv E) as [l ->]. by eexists.
  - split; [done|]. by intros [? [=]].
Qed.

Lemma agent_link_active a : agent_valid a ->
  Agent.active_state (Agent.state a) = true <-> is_Some (agent_link a).
Proof.
  intros (Hv & _)%agent_valid_current. unfold agent_link. destruct (Agent.active_state _) eqn:E.
  - split; [|done]. intros _. by apply Hv.
  - split; [done|]. by intros [? [=]].
Qed.

Lemma task_link_inactive x : Task.active_state (Task.state x) = false -> task_link x = None.
Proof. unfold task_link. by intros ->. Qed.
Lemma agent_link_inactive a : Agent.active_state (Agent.state a) = false -> agent_link a = None.
Proof. unfold agent_link. by intros ->. Qed.

(** ** The matching *)

Definition matched (T : dict Task.t) (A : dict Agent.t) : Prop :=
  forall i j, (T !! i) ≫= task_link = Some j <-> (A !! j) ≫= agent_link = Some i.

(** Task [i] and agent [j] are assigned to each other, or both released. *)
Lemma matched_update T A i j x x' a a' :
  matched T A -> T !! i = Some x -> A !! j = Some a ->
  task_link x = None \/ task_link x = Some j ->
  agent_link a = None \/ agent_link a = Some i ->
  task_link x' = Some j /\ agent_link a' = Some i \/ task_link x' = None /\ agent_link a' = None ->
  matched (<[i:=x']> T) (<[j:=a']> A).
Proof.
  intros Hm Hi Hj Hx Ha Hnew i' j'. rewrite !dict_lookup_insert.
  pose proof (Hm i' j') as H'. pose proof (Hm i j') as H1. pose proof (Hm i' j) as H2.
  rewrite Hi in H1. rewrite Hj in H2. cbn in H1, H2.
  destruct (decide (i = i')) as [<-|Hii], (decide (j = j')) as [<-|Hjj]; cbn; [|..|done].
  - destruct Hnew as [[-> ->]|[-> ->]]; split; congruence.
  - rewrite <- H1. split; intros E.
    + destruct Hnew as [[]|[]]; congruence.
    + destruct Hx as [|]; congruence.
  - rewrite H2. split; intros E.
    + destruct Ha as [|]; congruence.
    + destruct Hnew as [[]|[]]; congruence.
Qed.

(** A task that is not active before and after. *)
Lemma matched_task T A i x x' :
  matched T A -> T !! i = Some x -> task_link x' = task_link x -> matched (<[i:=x']> T) A.
Proof.
  intros Hm Hi Hx i' j'. rewrite dict_lookup_insert. rewrite <- (Hm i' j').
  destruct (decide (i = i')) as [<-|]; [|done]. by rewrite Hi; cbn; rewrite Hx.
Qed.

(** ** Indexes and membership *)

Lemma index_unique_acc {A} (id : A -> string) (l : list A) (d d' : dict A) :
  foldM (fun result item =>
    raise_if (bool_decide (is_Some (result !! id item)))
      (SchedulingErr ("duplicate ID " +:+ id item)) ;;;
    Ok (<[id item := item]> result)) d l = Ok d' <->
  NoDup (id <$> l) /\ (forall x, x ∈ l -> d !! id x = None) /\
  dict_items d' = (dict_items d ++ ((fun x => (id x, x)) <$> l))%list.
Proof.
  revert d. induction l as [|x l IH]; intros d; simpl foldM.
  - rewrite app_nil_r. destruct d as [i], d' as [i']. simpl. split.
    + intros [= ->]. split_and!; [constructor|by intros ? ?%elem_of_nil|done].
    + by intros (_ & _ & ->).
  - rewrite bind_assoc, bind_Ok. setoid_rewrite raise_if_Ok. cbn [bind].
    setoid_rewrite bool_decide_eq_false. rewrite !fmap_cons, NoDup_cons.
    assert (d !! id x = None ->
      dict_items (<[id x:=x]> d) = (dict_items d ++ [(id x, x)])%list) as Happ.
    { intros Hn. simpl. apply assoc_set_app. by apply assoc_get_None. }
    split.
    + intros (_ & Hx & H). rewrite <- eq_None_not_Some in Hx.
      apply IH in H as (Hnd & Hl & Hd'). rewrite Happ in Hd' by done.
      rewrite <- app_assoc in Hd'. split_and!; [|done| |done].
      * intros (y & Hy & Hin)%list_elem_of_fmap. specialize (Hl y Hin).
        rewrite dict_lookup_insert, Hy, decide_True in Hl by done. done.
      * intros y [->|Hy]%elem_of_cons; [done|]. specialize (Hl y Hy).
        rewrite dict_lookup_insert in Hl. by case_decide.
    + intros ([Hx Hnd] & Hl & Hd'). exists tt.
      assert (d !! id x = None) as Hnone by (apply Hl; by left).
      split; [by apply eq_None_not_Some|]. apply IH. split_and!; [done| |].
      * intros y Hy. rewrite dict_lookup_insert, decide_False; [apply Hl; by right|].
        intros Heq. apply Hx, list_elem_of_fmap. eauto.
      * rewrite Happ by done. by rewrite <- app_assoc.
Qed.

Lemma index_unique_Ok {A} (id : A -> string) (l : list A) d :
  index_unique id l = Ok d <-> NoDup (id <$> l) /\ d = dict_by id l.
Proof.
  unfold index_unique. rewrite index_unique_acc. split.
  - intros (Hnd & _ & Hd). split; [done|]. rewrite <- (dict_by_items id l Hnd) in Hd.
    destruct d, (dict_by id l). simpl in Hd. by subst.
  - intros [Hnd ->]. split_and!; [done|done|]. by rewrite dict_by_items.
Qed.

(** Tasks and agents of one run, with unique ids and matched. *)
Record members (run_id : string) (tasks : list Task.t) (agents : list Agent.t) : Prop := {
  mb_task_ids : NoDup (Task.id <$> tasks);
  mb_agent_ids : NoDup (Agent.id <$> agents);
  mb_tasks : forall x, x ∈ tasks -> task_valid x /\ Task.run_id x = run_id;
  mb_agents : forall a, a ∈ agents -> agent_valid a /\ Agent.run_id a = run_id;
  mb_matched : matched (dict_by Task.id tasks) (dict_by Agent.id agents);
}.

Section membership.
Context (tasks : list Task.t) (agents : list Agent.t).
Let T := dict_by Task.id tasks.
Let A := dict_by Agent.id agents.

Lemma check_active_task_Ok seen x seen' :
  task_valid x ->
  check_active_task A seen x = Ok seen' <->
  match task_link x with
  | None => seen' = seen
  | Some j => (j ∉ seen) /\ (A !! j) ≫= agent_link = Some (Task.id x) /\ seen' = j :: seen
  end.
Proof.
  intros Hx%task_valid_facts. unfold check_active_task, task_link.
  destruct (Task.active_state (Task.state x)) eqn:Ea; simpl; [|naive_solver].
  destruct (tf_active x Hx Ea) as [l ->]. simpl.
  rewrite !seq_Ok, !raise_if_Ok. unfold str_in. rewrite bool_decide_eq_false.
  destruct (A !! Lease.agent_id l) as [a|] eqn:El; simpl; [|naive_solver].
  unfold agent_link. destruct (Agent.active_state (Agent.state a)); simpl; [|naive_solver].
  rewrite negb_false_iff, bool_decide_eq_true. naive_solver.
Qed.

Lemma check_active_tasks_sound l seen seen' :
  (forall x, x ∈ l -> task_valid x) -> foldM (check_active_task A) seen l = Ok seen' ->
  forall x j, x ∈ l -> task_link x = Some j -> (A !! j) ≫= agent_link = Some (Task.id x).
Proof.
  revert seen. induction l as [|x l IH]; intros seen Hl H y j Hy Hj; [by inversion Hy|].
  simpl in H. apply bind_Ok in H as (seen1 & H1 & H).
  apply check_active_task_Ok in H1; [|apply Hl; by left].
  apply elem_of_cons in Hy as [->|Hy].
  - rewrite Hj in H1. apply H1.
  - eapply IH; [|exact H|exact Hy|exact Hj]. intros. apply Hl. by right.
Qed.

Lemma check_active_tasks_complete l seen :
  (forall x, x ∈ l -> task_valid x) -> NoDup (Task.id <$> l) ->
  (forall x j, x ∈ l -> task_link x = Some j ->
     (A !! j) ≫= agent_link = Some (Task.id x) /\ j ∉ seen) ->
  exists seen', foldM (check_active_task A) seen l = Ok seen'.
Proof.
  revert seen. induction l as [|x l IH]; intros seen Hl Hnd Hm; simpl; [by eexists|].
  rewrite fmap_cons, NoDup_cons in Hnd. destruct Hnd as [Hx Hnd].
  assert (exists seen1, check_active_task A seen x = Ok seen1 /\
    forall y j, y ∈ l -> task_link y = Some j ->
      (A !! j) ≫= agent_link = Some (Task.id y) /\ j ∉ seen1) as (seen1 & H1 & Hm1).
  { destruct (task_link x) as [j|] eqn:Ej.
    - exists (j :: seen). destruct (Hm x j) as [Ha Hs]; [by left|done|]. split.
      + apply check_active_task_Ok; [apply Hl; by left|]. by rewrite Ej.
      + intros y j' Hy Hj'. destruct (Hm y j') as [Ha' Hs']; [by right|done|]. split; [done|].
        intros [->|]%elem_of_cons; [|done]. rewrite Ha in Ha'. injection Ha' as Hid.
        apply Hx, list_elem_of_fmap. eauto.
    - exists seen. split.
      + apply check_active_task_Ok; [apply Hl; by left|]. by rewrite Ej.
      + intros. apply Hm; [by right|done]. }
  rewrite H1. simpl. apply IH; [|done|done]. intros. apply Hl. by right.
Qed.

Lemma check_active_agent_Ok a :
  agent_valid a -> (forall x, x ∈ tasks -> task_valid x) ->
  check_active_agent T a = Ok tt <->
  forall i, agent_link a = Some i -> (T !! i) ≫= task_link = Some (Agent.id a).
Proof.
  intros (Ha & _)%agent_valid_current Htasks. unfold check_active_agent, agent_link.
  destruct (Agent.active_state (Agent.state a)); simpl; [|naive_solver].
  destruct Ha as [i ->]; [done|]. rewrite raise_if_Ok.
  destruct (T !! i) as [x|] eqn:Ex.
  2:{ split; [done|]. intros H. specialize (H i eq_refl). by rewrite Ex in H. }
  assert (task_facts x) as Hx.
  { apply task_valid_facts, Htasks. by apply dict_by_elem in Ex as []. }
  unfold task_link. destruct (Task.active_state (Task.state x)) eqn:Es; simpl.
  - destruct (tf_active x Hx Es) as [l Hl]. rewrite Hl. simpl.
    rewrite negb_false_iff, bool_decide_eq_true. split.
    + intros E i' [= <-]. rewrite Ex. simpl. by rewrite Es, Hl, <- E.
    + intros H. specialize (H i eq_refl). rewrite Ex in H. simpl in H. rewrite Es, Hl in H.
      by injection H.
  - split; [done|]. intros H. specialize (H i eq_refl). rewrite Ex in H. simpl in H.
    by rewrite Es in H.
Qed.
End membership.

Lemma dict_by_bind {V W} (key : V -> string) (f : V -> option W) l i w :
  NoDup (key <$> l) ->
  (dict_by key l !! i) ≫= f = Some w <-> exists x, x ∈ l /\ key x = i /\ f x = Some w.
Proof.
  intros Hnd. rewrite bind_Some. setoid_rewrite dict_by_lookup; [|done]. naive_solver.
Qed.

Lemma bool_any_false {A} (P : A -> Prop) `{forall x, Decision (P x)} l :
  existsb (fun x => negb (bool_decide (P x))) l = false <-> forall x, x ∈ l -> P x.
Proof.
  rewrite existsb_Forall, Forall_forall. by setoid_rewrite negb_false_iff;
    setoid_rewrite bool_decide_eq_true.
Qed.

(** [validate_membership] decides [members], on valid records. *)
Lemma validate_membership_Ok run tasks agents :
  (forall x, x ∈ tasks -> task_valid x) -> (forall a, a ∈ agents -> agent_valid a) ->
  validate_membership run tasks agents = Ok tt <-> members (Run.id run) tasks agents.
Proof.
  intros Htv Hav. unfold validate_membership. rewrite bind_Ok. setoid_rewrite index_unique_Ok.
  split.
  - intros (? & [Htn _] & H). apply bind_Ok in H as (? & [Han _]%index_unique_Ok & H).
    rewrite seq_Ok, raise_first_Ok, !Forall_cons in H. cbn [fst] in H.
    rewrite !bool_any_false in H. destruct H as [(Hrt & Hra & _) H].
    apply bind_Ok in H as (seen & Hseen & Hagents).
    pose proof (check_active_tasks_sound agents _ _ _ Htv Hseen) as Hts.
    apply forM_Ok in Hagents. rewrite Forall_forall in Hagents.
    constructor; [done|done|auto|auto|].
    intros i j. rewrite !dict_by_bind by done. split.
    + intros (y & Hy & <- & Hj). specialize (Hts y j Hy Hj).
      by apply (dict_by_bind Agent.id agent_link) in Hts.
    + intros (a & Ha & <- & Hi). specialize (Hagents a Ha).
      pose proof (proj1 (check_active_agent_Ok tasks a (Hav a Ha) Htv) Hagents) as Hlink.
      specialize (Hlink i Hi). by apply (dict_by_bind Task.id task_link) in Hlink.
  - intros [Htn Han Ht Ha Hm]. eexists. split; [done|]. apply bind_Ok.
    eexists. split; [by apply index_unique_Ok|].
    rewrite seq_Ok, raise_first_Ok, !Forall_cons. cbn [fst]. rewrite !bool_any_false.
    split; [split_and!; [|by intros ? []%Ha|done]; by intros ? []%Ht|].
    destruct (check_active_tasks_complete agents tasks []) as [seen Hseen]; [done|done|..].
    { intros x j Hx Hj. split; [|by intros ?%elem_of_nil]. apply Hm.
      apply dict_by_bind; [done|]. eauto. }
    rewrite Hseen. simpl. apply forM_Ok, Forall_forall. intros a Hin.
    apply check_active_agent_Ok; [auto|auto|]. intros i Hi. apply Hm.
    apply dict_by_bind; [done|]. eauto.
Qed.

(** ** The invariant, with the accounting of the budget *)

(** What an active task holds of the budget. *)
Definition held_tokens (x : Task.t) : Z :=
  if Task.active_state (Task.state x) then Task.estimated_tokens x else 0.
Definition held_dispatch (x : Task.t) : Z :=
  if Task.active_state (Task.state x) then 1 else 0.

Lemma total_held_dispatch l : total held_dispatch l = Z.of_nat (active_count l).
Proof.
  unfold active_count. induction l as [|x l IH]; [done|].
  rewrite total_cons, filter_cons, IH. unfold held_dispatch.
  case_decide; destruct (Task.active_state _); try done. simpl. lia.
Qed.

Lemma active_count_sorted {K} `{PyOrdLaws K} (seq : Task.t -> K) l :
  active_count (sorted_on seq l) = active_count l.
Proof. unfold active_count. by rewrite (sorted_on_Permutation seq l). Qed.

(** The budget [b] holds the reservations of the active tasks and, besides,
    [extra.1] tokens and [extra.2] dispatches that belong to nobody here. *)
Record sched_inv (run_id : string) (extra : Z * Z) (T : dict Task.t) (A : dict Agent.t)
    (b : Budget.t) : Prop := {
  si_task_keys : keyed Task.id T;
  si_agent_keys : keyed Agent.id A;
  si_tasks : forall i x, T !! i = Some x -> task_valid x /\ Task.run_id x = run_id;
  si_agents : forall j a, A !! j = Some a -> agent_valid a /\ Agent.run_id a = run_id;
  si_matched : matched T A;
  si_budget : budget_ok b;
  si_extra : (0 <= extra.1 /\ 0 <= extra.2)%Z;
  si_tokens : (Budget.tokens_reserved b = total held_tokens (dict_values T) + extra.1)%Z;
  si_dispatches :
    (Budget.agent_dispatches_reserved b = total held_dispatch (dict_values T) + extra.2)%Z;
}.

Section updates.
Context {run_id : string} {extra : Z * Z}.
Implicit Types (T : dict Task.t) (A : dict Agent.t) (b : Budget.t).

Lemma si_id {T A b} (Hinv : sched_inv run_id extra T A b) {i x} : T !! i = Some x -> Task.id x = i.
Proof. apply (si_task_keys _ _ _ _ _ Hinv). Qed.
Lemma si_agent_id {T A b} (Hinv : sched_inv run_id extra T A b) {j a} :
  A !! j = Some a -> Agent.id a = j.
Proof. apply (si_agent_keys _ _ _ _ _ Hinv). Qed.

Lemma held_active x : Task.active_state (Task.state x) = true ->
  held_tokens x = Task.estimated_tokens x /\ held_dispatch x = 1%Z.
Proof. unfold held_tokens, held_dispatch. by intros ->. Qed.
Lemma held_inactive x : Task.active_state (Task.state x) = false ->
  held_tokens x = 0%Z /\ held_dispatch x = 0%Z.
Proof. unfold held_tokens, held_dispatch. by intros ->. Qed.

(** A record that replaces another one under the same id, in the same run. *)
Definition same_task (x x' : Task.t) : Prop :=
  Task.id x' = Task.id x /\ Task.run_id x' = Task.run_id x /\ task_valid x'.
Definition same_agent (a a' : Agent.t) : Prop :=
  Agent.id a' = Agent.id a /\ Agent.run_id a' = Agent.run_id a /\ agent_valid a'.

Lemma si_update T A b i j x x' a a' b' :
  sched_inv run_id extra T A b -> T !! i = Some x -> A !! j = Some a ->
  same_task x x' -> same_agent a a' -> matched (<[i:=x']> T) (<[j:=a']> A) -> budget_ok b' ->
  (Budget.tokens_reserved b' = Budget.tokens_reserved b + held_tokens x' - held_tokens x)%Z ->
  (Budget.agent_dispatches_reserved b' =
   Budget.agent_dispatches_reserved b + held_dispatch x' - held_dispatch x)%Z ->
  sched_inv run_id extra (<[i:=x']> T) (<[j:=a']> A) b'.
Proof.
  intros Hinv Hi Hj (Hid & Hrun & Hv) (Haid & Harun & Hav) Hm Hb Ht Hd.
  pose proof (si_id Hinv Hi) as Hxi. pose proof (si_agent_id Hinv Hj) as Haj.
  destruct Hinv as [Hkt Hka Hts Has _ _ He Ett Ed]. constructor; try done.
  - rewrite <- Hxi, <- Hid. by apply keyed_insert.
  - rewrite <- Haj, <- Haid. by apply keyed_insert.
  - intros i' y. rewrite dict_lookup_insert. case_decide; [|apply Hts].
    intros [= <-]. split; [done|]. rewrite Hrun. by eapply Hts.
  - intros j' y. rewrite dict_lookup_insert. case_decide; [|apply Has].
    intros [= <-]. split; [done|]. rewrite Harun. by eapply Has.
  - rewrite (dict_insert_total _ _ _ _ _ Hi). lia.
  - rewrite (dict_insert_total _ _ _ _ _ Hi). lia.
Qed.

(** An active task gives its agent and its reservation back. *)
Lemma si_release T A b i j x x' a a' ut uc b' :
  sched_inv run_id extra T A b -> T !! i = Some x -> A !! j = Some a ->
  task_link x = Some j -> same_task x x' -> same_agent a a' ->
  Task.active_state (Task.state x') = false -> Agent.active_state (Agent.state a') = false ->
  Budget.settle b (Task.estimated_tokens x) ut 0 uc 1 1 = Ok b' ->
  sched_inv run_id extra (<[i:=x']> T) (<[j:=a']> A) b'.
Proof.
  intros Hinv Hi Hj Hx Hsx Hsa Hx' Ha' Hset. apply settle_Ok in Hset as (_ & _ & _ & _ & Hb & ->).
  assert (Task.active_state (Task.state x) = true) as Hact.
  { apply task_link_active; [by eapply si_tasks|]. by eexists. }
  destruct (held_active x Hact) as [Et Ed], (held_inactive x' Hx') as [Et' Ed'].
  eapply si_update; [exact Hinv|done|done|done|done| |done| |].
  - eapply matched_update; [by eapply si_matched|done|done|by right|right|].
    + pose proof (proj1 (si_matched _ _ _ _ _ Hinv i j)) as H. rewrite Hi, Hj in H. by apply H.
    + right. split; [by apply task_link_inactive|by apply agent_link_inactive].
  - rewrite Et, Et'. simpl. lia.
  - rewrite Ed, Ed'. simpl. lia.
Qed.

(** A free task and a free agent are assigned to each other. *)
Lemma si_acquire T A b i j x x' a a' b' :
  sched_inv run_id extra T A b -> T !! i = Some x -> A !! j = Some a ->
  task_link x = None -> agent_link a = None -> same_task x x' -> same_agent a a' ->
  task_link x' = Some j -> agent_link a' = Some i ->
  Task.estimated_tokens x' = Task.estimated_tokens x ->
  Budget.reserve b (Task.estimated_tokens x) 0 1 = Ok b' ->
  sched_inv run_id extra (<[i:=x']> T) (<[j:=a']> A) b'.
Proof.
  intros Hinv Hi Hj Hx Ha Hsx Hsa Hx' Ha' He Hr.
  assert (budget_ok b) as Hb by (by eapply si_budget).
  assert (budget_ok b') as Hb'.
  { apply reserve_Ok in Hr as (? & ? & ? & Hf & ->); [|done]. by apply reserved_ok_iff. }
  apply reserve_Ok in Hr as (_ & _ & _ & _ & ->); [|done].
  assert (Task.active_state (Task.state x) = false) as Hact.
  { apply not_true_is_false. intros H. apply task_link_active in H; [|by eapply si_tasks].
    rewrite Hx in H. by destruct H. }
  assert (Task.active_state (Task.state x') = true) as Hact'.
  { apply task_link_active; [apply Hsx|]. by eexists. }
  destruct (held_inactive x Hact) as [Et Ed], (held_active x' Hact') as [Et' Ed'].
  eapply si_update; [exact Hinv|done|done|done|done| |done| |].
  - eapply matched_update; [by eapply si_matched|done|done|by left|by left|by left].
  - rewrite Et, Et', He. simpl. lia.
  - rewrite Ed, Ed'. simpl. lia.
Qed.

(** A task changes without an agent: it was free and stays so. *)
Lemma si_task T A b i x x' :
  sched_inv run_id extra T A b -> T !! i = Some x -> same_task x x' ->
  Task.active_state (Task.state x) = false -> Task.active_state (Task.state x') = false ->
  sched_inv run_id extra (<[i:=x']> T) A b.
Proof.
  intros Hinv Hi (Hid & Hrun & Hv) Hx Hx'. pose proof (si_id Hinv Hi) as Hxi.
  destruct (held_inactive x Hx) as [Et Ed], (held_inactive x' Hx') as [Et' Ed'].
  destruct Hinv as [Hkt Hka Hts Has Hm Hb He Ett Edd]. constructor; try done.
  - rewrite <- Hxi, <- Hid. by apply keyed_insert.
  - intros i' y. rewrite dict_lookup_insert. case_decide; [|apply Hts].
    intros [= <-]. split; [done|]. rewrite Hrun. by eapply Hts.
  - eapply matched_task; [done|done|]. by rewrite !task_link_inactive.
  - rewrite (dict_insert_total _ _ _ _ _ Hi). lia.
  - rewrite (dict_insert_total _ _ _ _ _ Hi). lia.
Qed.
End updates.

(** The same records under another order of the dictionaries. *)
Lemma sched_inv_ext run_id extra T A b T' A' :
  sched_inv run_id extra T A b -> keyed Task.id T' -> keyed Agent.id A' ->
  (forall i, T' !! i = T !! i) -> (forall j, A' !! j = A !! j) ->
  sched_inv run_id extra T' A' b.
Proof.
  intros [Hkt Hka Hts Has Hm Hb He Et Ed] HkT HkA HT HA.
  assert (dict_values T' ≡ₚ dict_values T) as Hp by (by eapply keyed_perm).
  constructor; try done.
  - intros i x. rewrite HT. apply Hts.
  - intros j a. rewrite HA. apply Has.
  - intros i j. rewrite HT, HA. apply Hm.
  - by rewrite (total_perm _ _ _ Hp).
  - by rewrite (total_perm _ _ _ Hp).
Qed.

(** The dictionary of the sorted values of a keyed dictionary. *)
Lemma resorted_lookup {V K} `{PyOrdLaws K} (id : V -> string) (seq : V -> K) (d : dict V) k :
  keyed id d -> dict_by id (sorted_on seq (dict_values d)) !! k = d !! k.
Proof.
  intros Hd. apply option_eq. intros v.
  rewrite dict_by_lookup by (rewrite sorted_on_Permutation; by apply keyed_NoDup).
  rewrite elem_of_sorted_on, (keyed_values_elem id d v Hd). split.
  - by intros [Hv <-].
  - intros Hv. destruct (Hd) as [_ Hk]. specialize (Hk k v Hv). by subst.
Qed.

Lemma resorted_keyed {V K} `{PyOrdLaws K} (id : V -> string) (seq : V -> K) (d : dict V) :
  keyed id d -> keyed id (dict_by id (sorted_on seq (dict_values d))).
Proof.
  intros Hd. apply dict_by_keyed. rewrite sorted_on_Permutation. by apply keyed_NoDup.
Qed.

(** ** The invariant of a run's records *)

(** The records of a run: [members], and the accounting of the budget. *)
Record run_inv (run_id : string) (extra : Z * Z) (tasks : list Task.t) (agents : list Agent.t)
    (b : Budget.t) : Prop := {
  ri_members : members run_id tasks agents;
  ri_budget : budget_ok b;
  ri_extra : (0 <= extra.1 /\ 0 <= extra.2)%Z;
  ri_tokens : (Budget.tokens_reserved b = total held_tokens tasks + extra.1)%Z;
  ri_dispatches :
    (Budget.agent_dispatches_reserved b = Z.of_nat (active_count tasks) + extra.2)%Z;
}.

Lemma run_inv_dict run_id extra tasks agents b :
  run_inv run_id extra tasks agents b ->
  sched_inv run_id extra (dict_by Task.id tasks) (dict_by Agent.id agents) b.
Proof.
  intros [[Htn Han Ht Ha Hm] Hb He Et Ed]. constructor; try done.
  - by apply dict_by_keyed.
  - by apply dict_by_keyed.
  - intros i x [Hx _]%dict_by_lookup; auto.
  - intros j a [Hx _]%dict_by_lookup; auto.
  - by rewrite dict_by_values.
  - rewrite dict_by_values by done. by rewrite total_held_dispatch.
Qed.

(** The lists a scheduler result is made of. *)
Lemma dict_run_inv run_id extra T A b :
  sched_inv run_id extra T A b ->
  run_inv run_id extra (sorted_on task_seq (dict_values T)) (sorted_on agent_seq (dict_values A)) b.
Proof.
  intros Hinv. destruct (Hinv) as [Hkt Hka Hts Has Hm Hb He Et Ed]. constructor; try done.
  - constructor.
    + rewrite sorted_on_Permutation. by apply keyed_NoDup.
    + rewrite sorted_on_Permutation. by apply keyed_NoDup.
    + intros x. rewrite elem_of_sorted_on. intros Hx%(keyed_values_elem Task.id); [|done].
      by eapply Hts.
    + intros x. rewrite elem_of_sorted_on. intros Hx%(keyed_values_elem Agent.id); [|done].
      by eapply Has.
    + intros i j. rewrite !resorted_lookup by done. apply Hm.
  - by rewrite (total_perm _ _ _ (sorted_on_Permutation _ _)).
  - by rewrite <- total_held_dispatch, (total_perm _ _ _ (sorted_on_Permutation _ _)).
Qed.

(** ** Failure and reaping preserve it *)

Lemma snapshot_time_utc d label d' :
  snapshot_time d label = Ok d' ->
  dt_aware d = true /\ wall_in_range (instant d) = true /\ d' = DT (instant d) (Some 0%Z).
Proof.
  unfold snapshot_time. rewrite seq_Ok, raise_if_Ok. unfold naive, dt_to_utc.
  intros [H%negb_false_iff E]. destruct (wall_in_range (instant d)); [|done].
  split_and!; try done. by injection E as <-.
Qed.

Lemma released_agent_Ok a at_ a' :
  released_agent a at_ = Ok a' ->
  a' = a <| Agent.state := AgentState.AVAILABLE |> <| Agent.current_task_id := None |>
         <| Agent.last_heartbeat_at := Some at_ |> /\ same_agent a a'.
Proof. unfold released_agent. intros [Hv ->]%agent_new_Ok. done. Qed.

(** What a completed, failed or reaped assignment leaves behind. *)
Record ended (task : Task.t) (agent : Agent.t) (b : Budget.t) (r : CompletionResult.t) : Prop := {
  en_task : same_task task (CompletionResult.task r);
  en_agent : same_agent agent (CompletionResult.agent r);
  en_task_free : Task.active_state (Task.state (CompletionResult.task r)) = false;
  en_agent_free : Agent.active_state (Agent.state (CompletionResult.agent r)) = false;
  en_budget : exists ut uc,
    Budget.settle b (Task.estimated_tokens task) ut 0 uc 1 1 = Ok (CompletionResult.budget r);
}.

Lemma fail_validated_ended task agent code msg retryable b ut uc at_ r :
  fail_validated task agent code msg retryable b ut uc at_ = Ok r -> ended task agent b r.
Proof.
  unfold fail_validated. intros H. apply seq_Ok in H as [_ H].
  apply bind_Ok in H as (now & _ & H). apply seq_Ok in H as [_ H].
  apply bind_Ok in H as (next & _ & H). apply bind_Ok in H as (settled & Hset & H).
  apply bind_Ok in H as (task' & Htask & H). apply bind_Ok in H as (agent' & Hagent & [= <-]).
  apply task_new_Ok in Htask as [Hv ->]. apply released_agent_Ok in Hagent as [-> Hsa].
  constructor; simpl; try done; [|eauto]. by destruct (retryable && _).
Qed.

Lemma ended_inv run_id extra T A b i j x a r :
  sched_inv run_id extra T A b -> T !! i = Some x -> A !! j = Some a -> task_link x = Some j ->
  ended x a b r ->
  sched_inv run_id extra (<[i:=CompletionResult.task r]> T) (<[j:=CompletionResult.agent r]> A)
    (CompletionResult.budget r).
Proof.
  intros Hinv Hi Hj Hx [? ? ? ? (ut & uc & Hset)]. by eapply si_release.
Qed.

(** The tasks still to be visited are as they were. *)
Definition pending (T : dict Task.t) (l : list Task.t) : Prop :=
  NoDup (Task.id <$> l) /\ forall x, x ∈ l -> T !! Task.id x = Some x.

Lemma pending_next (T : dict Task.t) x l : pending T (x :: l) -> T !! Task.id x = Some x /\ pending T l.
Proof.
  intros [Hnd Hl]. rewrite fmap_cons, NoDup_cons in Hnd. split; [apply Hl; by left|].
  split; [apply Hnd|]. intros. apply Hl. by right.
Qed.

Lemma pending_insert (T : dict Task.t) x l x' :
  pending T (x :: l) -> pending (<[Task.id x:=x']> T) l.
Proof.
  intros [Hnd Hl]. rewrite fmap_cons, NoDup_cons in Hnd. destruct Hnd as [Hx Hnd].
  split; [done|]. intros y Hy. rewrite dict_lookup_insert, decide_False.
  - apply Hl. by right.
  - intros E. apply Hx. rewrite E. apply list_elem_of_fmap. eauto.
Qed.

Lemma pending_sorted {K} `{PyOrdLaws K} (seq : Task.t -> K) (T : dict Task.t) :
  keyed Task.id T -> pending T (sorted_on seq (dict_values T)).
Proof.
  intros HT. split; [rewrite sorted_on_Permutation; by apply keyed_NoDup|].
  intros x. rewrite elem_of_sorted_on. by apply keyed_values_elem.
Qed.

Lemma active_link x : task_valid x -> Task.active_state (Task.state x) = true ->
  exists l, Task.lease x = Some l /\ task_link x = Some (Lease.agent_id l).
Proof.
  intros Hv%task_valid_facts Ha. destruct (tf_active x Hv Ha) as [l Hl]. exists l.
  unfold task_link. by rewrite Ha, Hl.
Qed.

Lemma active_count_release (T : dict Task.t) i x x' :
  T !! i = Some x -> Task.active_state (Task.state x') = false ->
  (active_count (dict_values (<[i:=x']> T)) <= active_count (dict_values T))%nat.
Proof.
  intros Hi Hx'. apply Nat2Z.inj_le. rewrite <- !total_held_dispatch.
  rewrite (dict_insert_total _ _ _ _ _ Hi). destruct (held_inactive x' Hx') as [_ ->].
  assert (0 <= held_dispatch x)%Z
    by (unfold held_dispatch; destruct (Task.active_state (Task.state x)); lia).
  lia.
Qed.

Definition reap_inv (run_id : string) (extra : Z * Z) (n : nat) (st : reap_state)
    (l : list Task.t) : Prop :=
  let '(T, A, b, expired) := st in
  sched_inv run_id extra T A b /\ pending T l /\ (active_count (dict_values T) <= n)%nat.

Lemma reap_step_inv run_id extra n now key st x l st' :
  reap_inv run_id extra n st (x :: l) -> reap_step now key st x = Ok st' ->
  reap_inv run_id extra n st' l.
Proof.
  destruct st as [[[T A] b] expired]. intros (Hinv & Hp & Hn) H. destruct (pending_next _ _ _ Hp) as [Hx Hp'].
  unfold reap_step in H. destruct (Task.active_state (Task.state x)) eqn:Ea; simpl in H;
    [|by injection H as <-].
  destruct (active_link x) as (lease & El & Elink); [by eapply si_tasks|done|].
  rewrite El in H. destruct (A !! Lease.agent_id lease) as [a|] eqn:Eg; [|done].
  apply bind_Ok in H as (validated & _ & H). destruct (dt_lt _ _); [by injection H as <-|].
  apply bind_Ok in H as (r & Hr & [= <-]). apply fail_validated_ended in Hr.
  split_and!; [|by apply pending_insert|].
  - rewrite (si_agent_id Hinv Eg). by eapply ended_inv.
  - etrans; [|exact Hn]. apply (active_count_release T _ x _ Hx), Hr.
Qed.

Lemma reap_inv_result run_id extra tasks agents b at_ key r :
  run_inv run_id extra tasks agents b ->
  reap_expired_leases tasks agents b at_ key = Ok r ->
  run_inv run_id extra (ReapResult.tasks r) (ReapResult.agents r) (ReapResult.budget r) /\
  (active_count (ReapResult.tasks r) <= active_count tasks)%nat.
Proof.
  intros Hri H. pose proof (run_inv_dict _ _ _ _ _ Hri) as Hinv. unfold reap_expired_leases in H.
  apply bind_Ok in H as (now & _ & H). apply seq_Ok in H as [_ H].
  apply bind_Ok in H as (T & [_ ->]%index_unique_Ok & H).
  apply bind_Ok in H as (A & [_ ->]%index_unique_Ok & H).
  apply bind_Ok in H as ([[[T' A'] b'] expired] & Hloop & [= <-]). simpl.
  eapply (foldM_suffix (reap_inv run_id extra (active_count tasks))) in Hloop.
  - destruct Hloop as (Hloop & _ & Hn). split; [by apply dict_run_inv|].
    by rewrite active_count_sorted.
  - intros. by eapply reap_step_inv.
  - split_and!; [done| |].
    + apply pending_sorted. by eapply si_task_keys.
    + rewrite dict_by_values; [done|]. apply (ri_members _ _ _ _ _ Hri).
Qed.

(** ** Blocking and dispatching preserve it *)

Definition block_inv (run_id : string) (extra : Z * Z) (A : dict Agent.t) (b : Budget.t)
    (n : nat) (st : dict Task.t * list string) (l : list Task.t) : Prop :=
  sched_inv run_id extra st.1 A b /\ pending st.1 l /\ active_count (dict_values st.1) = n.

Lemma active_count_insert (T : dict Task.t) i x x' :
  T !! i = Some x -> Task.active_state (Task.state x') = Task.active_state (Task.state x) ->
  active_count (dict_values (<[i:=x']> T)) = active_count (dict_values T).
Proof.
  intros Hi Ha. apply Nat2Z.inj. rewrite <- !total_held_dispatch.
  rewrite (dict_insert_total _ _ _ _ _ Hi). unfold held_dispatch. rewrite Ha. lia.
Qed.

Lemma block_step_inv run_id extra A b n st x l st' :
  block_inv run_id extra A b n st (x :: l) -> block_step st x = Ok st' ->
  block_inv run_id extra A b n st' l.
Proof.
  destruct st as [T blocked]. intros (Hinv & Hp & Hn) H. simpl in *.
  destruct (pending_next _ _ _ Hp) as [Hx Hp'].
  unfold block_step in H. case_bool_decide as Hs; simpl in H; [|by injection H as <-].
  assert (Task.active_state (Task.state x) = false) as Hx0.
  { unfold Task.active_state. apply bool_decide_eq_false. destruct (Task.state x); set_solver. }
  apply bind_Ok in H as (deps & _ & H). destruct (existsb _ deps).
  - apply bind_Ok in H as (x' & [Hv ->]%task_new_Ok & [= <-]). split_and!.
    + by eapply si_task.
    + by apply pending_insert.
    + simpl. by rewrite (active_count_insert T _ x) by done.
  - case_bool_decide; [|by injection H as <-].
    apply bind_Ok in H as (x' & [Hv ->]%task_new_Ok & [= <-]). split_and!.
    + by eapply si_task.
    + by apply pending_insert.
    + simpl. by rewrite (active_count_insert T _ x) by done.
Qed.

Lemma remove_agent_elem a l x :
  NoDup (Agent.id <$> l) -> a ∈ l ->
  x ∈ remove_agent a l <-> x ∈ l /\ Agent.id x <> Agent.id a.
Proof.
  induction l as [|y l IH]; cbn [remove_agent]; [set_solver|].
  rewrite fmap_cons, NoDup_cons. intros [Hy Hnd] Ha.
  assert (forall z, z ∈ l -> Agent.id z <> Agent.id y) as Hne.
  { intros z Hz E. apply Hy. rewrite <- E. apply list_elem_of_fmap. eauto. }
  case_bool_decide as Hya.
  - subst. rewrite elem_of_cons. split; [intros Hx; split; [by right|by apply Hne]|].
    intros [[->|Hx] Hn]; done.
  - rewrite !elem_of_cons, IH; [|done|by apply elem_of_cons in Ha as [->|]].
    apply elem_of_cons in Ha as [->|Ha]; [done|]. split; [|naive_solver].
    intros [->|[]]; [|tauto]. split; [by left|]. intros E. by apply (Hne a Ha).
Qed.

Lemma remove_agent_NoDup a l : NoDup (Agent.id <$> l) -> NoDup (Agent.id <$> remove_agent a l).
Proof.
  intros Hnd. eapply sublist_NoDup; [exact Hnd|]. apply fmap_sublist.
  clear Hnd. induction l as [|x l IH]; simpl; [done|].
  case_bool_decide; [by constructor|by constructor].
Qed.

(** Available agents are free agents of the run. *)
Definition free_agents (A : dict Agent.t) (l : list Agent.t) : Prop :=
  NoDup (Agent.id <$> l) /\
  forall a, a ∈ l -> A !! Agent.id a = Some a /\ is_available a = true.

Lemma is_available_free a : is_available a = true -> Agent.active_state (Agent.state a) = false.
Proof.
  unfold is_available. rewrite andb_true_iff, bool_decide_eq_true. intros [H _].
  unfold Agent.active_state. apply bool_decide_eq_false. destruct (Agent.state a); set_solver.
Qed.

Lemma free_agents_filter (A : dict Agent.t) :
  keyed Agent.id A -> free_agents A (filter (fun a => is_available a = true) (dict_values A)).
Proof.
  intros HA. split.
  - eapply sublist_NoDup; [apply (keyed_NoDup Agent.id A HA)|]. apply fmap_sublist, sublist_filter.
  - intros a [Ha Hin]%list_elem_of_filter. split; [by apply (keyed_values_elem Agent.id)|done].
Qed.

Lemma best_agent_Some x l excluded a :
  best_agent x l excluded = Some a -> a ∈ l /\ compatible x excluded a = true.
Proof.
  unfold best_agent. intros [Ha _]%min_on_Some. apply list_elem_of_filter in Ha as []. done.
Qed.

(** The task and the agent of an assignment. *)
Definition with_lease (x : Task.t) (l : Lease.t) : Task.t :=
  x <| Task.state := TaskState.LEASED |>
    <| Task.attempt := (Task.attempt x + 1)%Z |> <| Task.next_eligible_at := None |>
    <| Task.lease := Some l |> <| Task.failure_code := None |> <| Task.failure_message := None |>.
Definition with_task (a : Agent.t) (task_id : string) (at_ : datetime) : Agent.t :=
  a <| Agent.state := AgentState.LEASED |> <| Agent.current_task_id := Some task_id |>
    <| Agent.last_heartbeat_at := Some at_ |>.

Lemma leased_task_Ok x l y :
  leased_task x l = Ok y <-> task_valid (with_lease x l) /\ y = with_lease x l.
Proof. apply task_new_Ok. Qed.
Lemma leased_agent_Ok a i at_ b :
  leased_agent a i at_ = Ok b <-> agent_valid (with_task a i at_) /\ b = with_task a i at_.
Proof. apply agent_new_Ok. Qed.

(** The outcome of one assignment. *)
Record dispatched (run : Run.t) (at_ : datetime) (key : bytes) (secs : Z) (st : dispatch_state)
    (x : Task.t) (a : Agent.t) (l : Lease.t) (st' : dispatch_state) : Prop := {
  di_agent : exists excluded, completers (ds_tasks st) (Task.reviewed_task_ids x) = Ok (Some excluded) /\
    best_agent x (ds_available st) excluded = Some a;
  di_bindings : bindings_complete x = true;
  di_lease : issue_lease run x a at_ key secs = Ok l;
  di_task : task_valid (with_lease x l);
  di_leased_agent : agent_valid (with_task a (Task.id x) at_);
  di_reserve : Budget.reserve (ds_budget st) (Task.estimated_tokens x) 0 1 = Ok (ds_budget st');
  di_tasks : ds_tasks st' = <[Task.id x := with_lease x l]> (ds_tasks st);
  di_agents : ds_agents st' = <[Agent.id a := with_task a (Task.id x) at_]> (ds_agents st);
  di_available : ds_available st' = remove_agent a (ds_available st);
  di_dispatches : ds_dispatches st' = (ds_dispatches st ++
    [Dispatch.mk (Task.id x) (Agent.id a) l (Task.estimated_tokens x)])%list;
  di_deferred : ds_deferred st' = ds_deferred st;
}.

(** A step of the loop assigns the task or leaves the records alone. *)
Lemma dispatch_step_cases run at_ key secs slots st x st' :
  dispatch_step run at_ key secs slots st x = Ok st' ->
  (exists a l, (Z.of_nat (length (ds_dispatches st)) < slots)%Z /\
     dispatched run at_ key secs st x a l st') \/
  (exists deferred, st' = DispatchState (ds_tasks st) (ds_agents st) (ds_budget st)
     (ds_available st) (ds_dispatches st) deferred).
Proof.
  unfold dispatch_step. destruct (slots <=? _)%Z eqn:Es.
  { intros [= <-]. right. exists (ds_deferred st). by destruct st. }
  apply Z.leb_gt in Es.
  destruct (bindings_complete x) eqn:Eb; cbn [negb].
  2:{ intros [= <-]. right. exists (ds_deferred st). by destruct st. }
  intros H. apply bind_Ok in H as (excluded & Hex & H).
  destruct excluded as [excluded|].
  2:{ injection H as <-. right. exists (ds_deferred st). by destruct st. }
  destruct (best_agent x (ds_available st) excluded) as [a|] eqn:Ea.
  2:{ injection H as <-. right. exists (ds_deferred st). by destruct st. }
  destruct (Budget.reserve _ _ _ _) as [reserved|e] eqn:Er.
  2:{ destruct (is_a _ _); [|done]. injection H as <-. right. by eexists. }
  apply bind_Ok in H as (l & Hl & H). apply bind_Ok in H as (x' & Hx & H).
  apply bind_Ok in H as (a' & Ha & H). injection H as <-.
  left. exists a, l. split; [done|].
  apply leased_task_Ok in Hx as [Hx ->]. apply leased_agent_Ok in Ha as [Ha ->].
  constructor; try done. eauto.
Qed.

Lemma lease_new_Ok l l' : Lease.new l = Ok l' <-> Lease.post_init l = Ok tt /\ l' = l.
Proof. unfold Lease.new. rewrite seq_Ok. naive_solver. Qed.

Lemma issue_lease_Ok run x a at_ key secs l :
  issue_lease run x a at_ key secs = Ok l ->
  exists expires token,
    dt_add_seconds at_ secs = Ok expires /\
    lease_token (Run.id run) (Task.id x) (Agent.id a) (Task.attempt x + 1) at_ expires
      (task_contract_digest x) (agent_contract_digest a) key = Ok token /\
    l = Lease.mk token (Task.id x) (Agent.id a) (Task.attempt x + 1) at_ expires
          (task_contract_digest x) (agent_contract_digest a) /\
    Lease.post_init l = Ok tt.
Proof.
  unfold issue_lease. intros H. apply bind_Ok in H as (e & He & H).
  apply bind_Ok in H as (token & Ht & H). apply lease_new_Ok in H as [Hp ->].
  exists e, token. done.
Qed.

Lemma issue_lease_ids run x a at_ key secs l :
  issue_lease run x a at_ key secs = Ok l ->
  Lease.agent_id l = Agent.id a /\ Lease.task_id l = Task.id x.
Proof. intros H. apply issue_lease_Ok in H as (? & ? & _ & _ & -> & _). done. Qed.

(** The invariant of the dispatch loop: [n] tasks were active before it. *)
Record dispatch_inv (run_id : string) (extra : Z * Z) (n : nat) (slots : Z)
    (st : dispatch_state) (l : list Task.t) : Prop := {
  dv_inv : sched_inv run_id extra (ds_tasks st) (ds_agents st) (ds_budget st);
  dv_pending : pending (ds_tasks st) l;
  dv_free : forall x, x ∈ l -> Task.active_state (Task.state x) = false;
  dv_available : free_agents (ds_agents st) (ds_available st);
  dv_count : active_count (dict_values (ds_tasks st)) = (n + length (ds_dispatches st))%nat;
  dv_slots : (Z.of_nat (length (ds_dispatches st)) <= slots)%Z;
}.

Lemma with_lease_link x l : task_link (with_lease x l) = Some (Lease.agent_id l).
Proof. done. Qed.

Lemma dispatched_free rid extra n slots run at_ key secs st x a l st' rest :
  dispatch_inv rid extra n slots st (x :: rest) -> dispatched run at_ key secs st x a l st' ->
  ds_tasks st !! Task.id x = Some x /\ ds_agents st !! Agent.id a = Some a /\
  a ∈ ds_available st /\ Task.active_state (Task.state x) = false /\
  Agent.active_state (Agent.state a) = false.
Proof.
  intros Hd Hs. destruct (pending_next _ _ _ (dv_pending _ _ _ _ _ _ Hd)) as [Hx _].
  destruct (di_agent _ _ _ _ _ _ _ _ _ Hs) as (excluded & _ & [Ha _]%best_agent_Some).
  destruct (dv_available _ _ _ _ _ _ Hd) as [_ Hf]. destruct (Hf a Ha) as [Hag Hav].
  split_and!; try done; [|by apply is_available_free].
  eapply dv_free; [exact Hd|by left].
Qed.

Lemma dispatched_inv rid extra n slots run at_ key secs st x a l st' rest :
  dispatch_inv rid extra n slots st (x :: rest) ->
  (Z.of_nat (length (ds_dispatches st)) < slots)%Z ->
  dispatched run at_ key secs st x a l st' -> dispatch_inv rid extra n slots st' rest.
Proof.
  intros Hd Hlt Hs.
  destruct (dispatched_free _ _ _ _ _ _ _ _ _ _ _ _ _ _ Hd Hs) as (Hx & Ha & Hin & Hxf & Haf).
  destruct Hd as [Hinv Hp Hfree [Havn Hav] Hcount Hslots].
  destruct Hs as [_ _ Hl Hx' Ha' Hr Ht' Hag' Hav' Hd' _].
  destruct (issue_lease_ids _ _ _ _ _ _ _ Hl) as [Hla Hlt'].
  constructor.
  - rewrite Ht', Hag'. eapply si_acquire; try done.
    + by apply task_link_inactive.
    + by apply agent_link_inactive.
    + by rewrite with_lease_link, Hla.
  - rewrite Ht'. by apply pending_insert.
  - intros y Hy. apply Hfree. by right.
  - rewrite Hag', Hav'. split; [by apply remove_agent_NoDup|].
    intros y Hy. apply remove_agent_elem in Hy as [Hy Hne]; [|done|done].
    rewrite dict_lookup_insert, decide_False by done. by apply Hav.
  - rewrite Ht', Hd', length_app. apply Nat2Z.inj. rewrite <- total_held_dispatch.
    rewrite (dict_insert_total _ _ _ _ _ Hx), total_held_dispatch, Hcount.
    destruct (held_inactive x Hxf) as [_ ->]. simpl. change (held_dispatch (with_lease x l)) with 1%Z.
    lia.
  - rewrite Hd', length_app. simpl. lia.
Qed.

Lemma dispatch_step_inv rid extra n slots run at_ key secs st x st' rest :
  dispatch_inv rid extra n slots st (x :: rest) ->
  dispatch_step run at_ key secs slots st x = Ok st' -> dispatch_inv rid extra n slots st' rest.
Proof.
  intros Hd H. apply dispatch_step_cases in H as [(a & l & Hlt & Hs)|[deferred ->]].
  - by eapply dispatched_inv.
  - destruct Hd as [Hinv Hp Hfree Hav Hcount Hslots]. constructor; try done.
    + simpl. by destruct (pending_next _ _ _ Hp).
    + intros y Hy. apply Hfree. by right.
Qed.

(** ** Candidates *)

Definition ok_true (r : result bool) : bool := match r with Ok b => b | Err _ => false end.

Lemma flagged_filter {A} (f : A -> result bool) l flags :
  mapM f l = Ok flags ->
  fst <$> filter (fun p => p.2 = true) (zip l flags) = filter (fun x => ok_true (f x) = true) l.
Proof.
  rewrite mapM_Ok_Forall2. induction 1 as [|x b l flags Hx _ IH]; [done|].
  cbn [zip zip_with]. rewrite !filter_cons, Hx. cbn [snd ok_true].
  destruct b; [rewrite !decide_True by done|by rewrite !decide_False by done].
  by rewrite fmap_cons, <- IH.
Qed.

Definition eligible (T : dict Task.t) (at_ : datetime) (x : Task.t) : Prop :=
  T !! Task.id x = Some x /\ is_eligible x T at_ = Ok true.

(** The tasks that a run may dispatch now: eligible ones of the first wave
    that has any. *)
Lemma candidates_spec T at_ queue :
  keyed Task.id T -> candidates T at_ = Ok queue ->
  pending T queue /\ StronglySorted (key_le task_order) queue /\
  forall x, x ∈ queue <->
    eligible T at_ x /\ forall y, eligible T at_ y -> (Task.wave x <= Task.wave y)%Z.
Proof.
  intros HT H. unfold candidates in H. apply bind_Ok in H as (flags & Hf & H).
  rewrite (flagged_filter _ _ _ Hf) in H. apply Ok_inj in H.
  set (l := filter _ _) in H.
  assert (forall x, x ∈ l <-> eligible T at_ x) as Hl.
  { intros x. unfold l, eligible. rewrite list_elem_of_filter, (keyed_values_elem Task.id T x HT).
    destruct (is_eligible x T at_) as [[]|]; simpl; naive_solver. }
  assert (NoDup (Task.id <$> l)) as Hnd.
  { eapply sublist_NoDup; [apply (keyed_NoDup Task.id T HT)|]. apply fmap_sublist, sublist_filter. }
  destruct (min_on Task.wave l) as [first|] eqn:Em; subst queue.
  2:{ apply min_on_None in Em. split_and!; [split; [constructor|]|constructor|].
      - by intros ? ?%elem_of_nil.
      - intros x. split; [by intros ?%elem_of_nil|]. intros [Hx _].
        apply Hl in Hx. by rewrite Em in Hx. }
  apply min_on_Some in Em as [Hfirst Hmin]. setoid_rewrite Z.leb_le in Hmin.
  split_and!.
  - split.
    + rewrite sorted_on_Permutation. eapply sublist_NoDup; [exact Hnd|].
      apply fmap_sublist, sublist_filter.
    + intros x. rewrite elem_of_sorted_on, list_elem_of_filter. intros [_ Hx].
      by apply Hl in Hx as [].
  - apply sorted_on_StronglySorted.
  - intros x. rewrite elem_of_sorted_on, list_elem_of_filter, Hl. split.
    + intros [Hw Hx]. split; [done|]. intros y Hy. rewrite Hw. by apply Hmin, Hl.
    + intros [Hx Hw]. split; [|done]. apply Z.le_antisymm; [by apply Hw, Hl|].
      by apply Hmin, Hl.
Qed.

(** ** Scheduling *)

Lemma eligible_free T at_ x : eligible T at_ x -> Task.active_state (Task.state x) = false.
Proof.
  intros [_ H]. unfold is_eligible in H. case_bool_decide as Hs; simpl in H; [|done].
  unfold Task.active_state. apply bool_decide_eq_false. destruct (Task.state x); set_solver.
Qed.

Lemma dispatch_all_inv rid extra run T A b blocked at_ key secs r :
  sched_inv rid extra T A b ->
  dispatch_all run T A b blocked at_ key secs = Ok r ->
  run_inv rid extra (ScheduleResult.tasks r) (ScheduleResult.agents r) (ScheduleResult.budget r) /\
  (Z.of_nat (active_count (ScheduleResult.tasks r)) <=
   Z.max (Run.max_concurrency run) (Z.of_nat (active_count (dict_values T))))%Z.
Proof.
  intros Hinv H. unfold dispatch_all in H. cbv zeta in H.
  set (slots := Z.max 0 _) in H. destruct (slots =? 0)%Z eqn:Es.
  { apply Ok_inj in H. subst r. simpl. split; [by apply dict_run_inv|].
    rewrite active_count_sorted. lia. }
  apply Z.eqb_neq in Es. apply bind_Ok in H as (queue & Hq & H).
  apply bind_Ok in H as (st & Hloop & H). apply Ok_inj in H. subst r. simpl.
  destruct (candidates_spec T at_ queue (si_task_keys _ _ _ _ _ Hinv) Hq) as (Hp & _ & Hin).
  eapply (foldM_suffix (dispatch_inv rid extra (active_count (dict_values T)) slots)) in Hloop.
  - destruct Hloop as [Hinv' _ _ _ Hc Hs]. split; [by apply dict_run_inv|].
    rewrite active_count_sorted, Hc. lia.
  - intros. by eapply dispatch_step_inv.
  - constructor; simpl; try done; try lia.
    + intros x Hx. apply Hin in Hx as [Hx _]. by eapply eligible_free.
    + eapply free_agents_filter, si_agent_keys, Hinv.
Qed.

(** [schedule] is [dispatch_all] on sound records: those that reaping and
    blocking leave. *)
Lemma schedule_phases extra run tasks agents at_ key secs budget r :
  run_inv (Run.id run) extra tasks agents (default (Run.budget run) budget) ->
  schedule run tasks agents at_ key secs budget = Ok r ->
  exists now T A b blocked,
    snapshot_time at_ "scheduler timestamp" = Ok now /\ sched_inv (Run.id run) extra T A b /\
    (active_count (dict_values T) <= active_count tasks)%nat /\
    dispatch_all run T A b blocked now key secs = Ok r.
Proof.
  intros Hinv H. unfold schedule in H. apply bind_Ok in H as (now & Hnow & H).
  rewrite !seq_Ok in H. destruct H as (_ & _ & _ & H).
  apply bind_Ok in H as (reaped & Hreap & H).
  apply bind_Ok in H as ([T blocked] & Hblock & H).
  destruct (reap_inv_result _ _ _ _ _ _ _ _ Hinv Hreap) as [Hri Hn].
  pose proof (run_inv_dict _ _ _ _ _ Hri) as Hdi.
  eapply (foldM_suffix (block_inv (Run.id run) extra _ _ (active_count (ReapResult.tasks reaped))))
    in Hblock.
  - destruct Hblock as (Hb & _ & Hc). simpl in Hb, Hc. exists now, T.
    eexists _, _, blocked. split_and!; [exact Hnow|exact Hb|by rewrite Hc|exact H].
  - intros. by eapply block_step_inv.
  - split_and!; [exact Hdi| |].
    + apply pending_sorted. by eapply si_task_keys.
    + simpl. rewrite dict_by_values; [done|]. apply (ri_members _ _ _ _ _ Hri).
Qed.

Lemma schedule_inv extra run tasks agents at_ key secs budget r :
  run_inv (Run.id run) extra tasks agents (default (Run.budget run) budget) ->
  schedule run tasks agents at_ key secs budget = Ok r ->
  run_inv (Run.id run) extra (ScheduleResult.tasks r) (ScheduleResult.agents r)
    (ScheduleResult.budget r) /\
  (Z.of_nat (active_count (ScheduleResult.tasks r)) <=
   Z.max (Run.max_concurrency run) (Z.of_nat (active_count tasks)))%Z.
Proof.
  intros Hinv H. destruct (schedule_phases _ _ _ _ _ _ _ _ _ Hinv H)
    as (now & T & A & b & blocked & _ & Hb & Hc & Hd).
  destruct (dispatch_all_inv _ _ _ _ _ _ _ _ _ _ _ Hb Hd) as [Hr Hm]. split; [done|lia].
Qed.
