(* ===== verification/LeaseFacts.v ===== *)
(** * Leases

    When a lease is accepted, what its token binds, and the life of a lease
    from its issue to its expiry. *)
From S2P Require Import Prelude PyStr PyDict Json Sha256 DateTime Enums.
From S2P Require Import Models Digests DigestFacts TaskGraph ModelFacts Scheduler SchedInv.
From S2P Require Import Fixtures.

Local Open Scope string_scope.

(** ** Validation *)

(** The instant of a date as a UTC value. *)
Definition utc_of (d : datetime) : datetime := DT (instant d) (Some 0%Z).

Lemma snapshot_time_Ok d label u :
  snapshot_time d label = Ok u <->
  dt_aware d = true /\ wall_in_range (instant d) = true /\ u = utc_of d.
Proof.
  unfold snapshot_time. rewrite seq_Ok, raise_if_Ok. unfold naive, dt_to_utc, utc_of.
  rewrite negb_false_iff. destruct (wall_in_range (instant d)); naive_solver.
Qed.

Lemma instant_utc d : instant (utc_of d) = instant d.
Proof. change (instant (utc_of d)) with (instant d - 0)%Z. lia. Qed.

Lemma utc_of_utc d : utc_of (utc_of d) = utc_of d.
Proof. unfold utc_of at 1. by rewrite instant_utc. Qed.

Lemma lease_rejecting_Ok {A} (c : result A) v : lease_rejecting c = Ok v <-> c = Ok v.
Proof.
  unfold lease_rejecting. destruct c as [|e]; simpl; [done|]. by destruct (is_a _ _).
Qed.

(** Why [validate_lease] accepts [token] for task [x] and agent [a], and the
    lease [v] it returns: the one that [x] carries, with its times in UTC. *)
Record lease_accepted (x : Task.t) (a : Agent.t) (token : string) (now : datetime) (key : bytes)
    (allow_expired : bool) (v : Lease.t) : Prop := {
  la_carried : exists l, Task.lease x = Some l /\
    v = Lease.mk token (Task.id x) (Agent.id a) (Task.attempt x) (utc_of (Lease.acquired_at l))
          (utc_of (Lease.expires_at l)) (task_contract_digest x) (agent_contract_digest a) /\
    Lease.token l = token /\ Lease.agent_id l = Agent.id a;
  la_now : dt_aware now = true /\ wall_in_range (instant now) = true;
  la_current : Agent.current_task_id a = Some (Task.id x);
  la_run : Task.run_id x = Agent.run_id a;
  la_key : (32 <= length key)%nat;
  la_token : lease_token (Task.run_id x) (Task.id x) (Agent.id a) (Task.attempt x)
    (Lease.acquired_at v) (Lease.expires_at v) (task_contract_digest x) (agent_contract_digest a)
    key = Ok token;
  la_acquired : (instant (Lease.acquired_at v) <= instant now)%Z;
  la_heartbeat : forall h, Agent.last_heartbeat_at a = Some h -> (instant h <= instant now)%Z;
  la_live : allow_expired = false -> (instant now < instant (Lease.expires_at v))%Z;
}.

Lemma key_too_short_false key : key_too_short key = false <-> (32 <= length key)%nat.
Proof. unfold key_too_short. rewrite Nat.ltb_ge. done. Qed.

Lemma validate_lease_accepted x a token now key allow v :
  validate_lease x a token now key allow = Ok v -> lease_accepted x a token now key allow v.
Proof.
  unfold validate_lease. intros H. apply bind_Ok in H as (u & Hu & H).
  rewrite lease_rejecting_Ok, snapshot_time_Ok in Hu. destruct Hu as (Hna & Hnr & ->).
  apply seq_Ok in H as [Hkey H]. apply raise_if_Ok, key_too_short_false in Hkey.
  destruct (Task.lease x) as [l|] eqn:El; [|done].
  apply bind_Ok in H as (same & Hsame & H). apply compare_digest_Ok in Hsame as (_ & _ & ->).
  apply seq_Ok in H as [Hsame H]. apply raise_if_Ok, negb_false_iff, bool_decide_eq_true in Hsame.
  apply bind_Ok in H as ([[acq exp] last] & Htimes & H). rewrite lease_rejecting_Ok in Htimes.
  apply bind_Ok in Htimes as (acq' & Hacq & Htimes).
  apply bind_Ok in Htimes as (exp' & Hexp & Htimes).
  apply bind_Ok in Htimes as (last' & Hlast & Htimes). apply Ok_inj in Htimes.
  injection Htimes as -> -> ->.
  apply snapshot_time_Ok in Hacq as (_ & _ & ->), Hexp as (_ & _ & ->).
  apply seq_Ok in H as [Hids H]. rewrite raise_if_Ok, !orb_false_iff, !negb_false_iff,
    !bool_decide_eq_true, Z.eqb_eq in Hids. destruct Hids as ((((Hti & Hai) & Hcur) & Hatt) & Hrun).
  apply bind_Ok in H as (same_task & Hst & H). apply compare_digest_Ok in Hst as (_ & _ & ->).
  apply bind_Ok in H as (changed & Hch & H). apply seq_Ok in H as [Hch' H].
  apply raise_if_Ok in Hch'. subst changed.
  destruct (negb (bool_decide _)) eqn:Etask; [done|].
  apply negb_false_iff, bool_decide_eq_true in Etask.
  apply bind_Ok in Hch as (same_agent & Hsa & Hch). apply compare_digest_Ok in Hsa as (_ & _ & ->).
  apply Ok_inj, negb_false_iff, bool_decide_eq_true in Hch.
  apply bind_Ok in H as (expected & Htok & H). apply bind_Ok in H as (auth & Hauth & H).
  apply compare_digest_Ok in Hauth as (_ & _ & ->).
  apply seq_Ok in H as [Hfirst H]. rewrite raise_first_Ok, !Forall_cons in Hfirst.
  cbn [fst] in Hfirst. destruct Hfirst as (Hauth & Hbefore & Hbeat & Hexpired & _).
  apply negb_false_iff, bool_decide_eq_true in Hauth. subst expected.
  apply lease_new_Ok in H as [_ ->].
  unfold dt_lt, dt_le in *. rewrite !instant_utc in Hbefore. apply Z.ltb_ge in Hbefore.
  rewrite Hsame, Hatt in Htok. rewrite Hti, Hai, Hatt, Hsame, Etask, Hch.
  constructor; simpl; try done.
  - exists l. done.
  - by rewrite instant_utc.
  - intros h Hh. rewrite Hh in Hlast. apply bind_Ok in Hlast as (h' & Hh' & Hl).
    apply Ok_inj in Hl. rewrite <- Hl in Hbeat. apply snapshot_time_Ok in Hh' as (_ & _ & ->).
    simpl in Hbeat. rewrite !instant_utc in Hbeat. by apply Z.ltb_ge.
  - intros ->. simpl in Hexpired. rewrite !instant_utc in Hexpired. apply Z.leb_gt in Hexpired.
    by rewrite instant_utc.
Qed.

(** ** What a token binds *)

Lemma canonical_time_Ok d s :
  canonical_time d = Ok s <->
  dt_aware d = true /\ wall_in_range (instant d) = true /\ s = iso_z (instant d).
Proof.
  unfold canonical_time. rewrite seq_Ok. unfold require_aware. rewrite raise_if_Ok.
  unfold naive, dt_to_utc. rewrite negb_false_iff. destruct (wall_in_range (instant d)).
  - rewrite iso_utc_replace. naive_solver.
  - naive_solver.
Qed.

(** The text that a lease token signs. *)
Definition lease_text (run_id task_id agent_id : string) (attempt : Z)
    (acquired_at expires_at : datetime) (task_digest agent_digest : string) : string :=
  canonical_json (lease_payload run_id task_id agent_id attempt (iso_z (instant acquired_at))
    (iso_z (instant expires_at)) task_digest agent_digest).

Lemma lease_token_Ok r t a n acq exp td ad key token :
  lease_token r t a n acq exp td ad key = Ok token <->
  (dt_aware acq = true /\ wall_in_range (instant acq) = true) /\
  (dt_aware exp = true /\ wall_in_range (instant exp) = true) /\
  token = hmac_sha256_hex key (utf8 (lease_text r t a n acq exp td ad)).
Proof.
  unfold lease_token. split.
  - intros H. apply bind_Ok in H as (s1 & H1 & H). apply bind_Ok in H as (s2 & H2 & H).
    rewrite canonical_time_Ok in H1. rewrite canonical_time_Ok in H2.
    destruct H1 as (? & ? & ->), H2 as (? & ? & ->). apply Ok_inj in H. auto.
  - intros ([? ?] & [? ?] & ->).
    rewrite (proj2 (canonical_time_Ok acq (iso_z (instant acq)))) by done.
    rewrite (proj2 (canonical_time_Ok exp (iso_z (instant exp)))) by done. done.
Qed.

Lemma lease_payload_wf r t a n s1 s2 td ad : json_wf (lease_payload r t a n s1 s2 td ad).
Proof. obj_wf; auto with json_wf. Qed.

(** A collision: two distinct texts with the same tag under the key. *)
Definition hmac_collision (key : bytes) (m1 m2 : string) : Prop :=
  m1 <> m2 /\ hmac_sha256_hex key (utf8 m1) = hmac_sha256_hex key (utf8 m2).

Lemma lease_text_inj r1 t1 a1 n1 acq1 exp1 td1 ad1 r2 t2 a2 n2 acq2 exp2 td2 ad2 :
  wall_in_range (instant acq1) = true -> wall_in_range (instant exp1) = true ->
  wall_in_range (instant acq2) = true -> wall_in_range (instant exp2) = true ->
  lease_text r1 t1 a1 n1 acq1 exp1 td1 ad1 = lease_text r2 t2 a2 n2 acq2 exp2 td2 ad2 ->
  r1 = r2 /\ t1 = t2 /\ a1 = a2 /\ n1 = n2 /\ instant acq1 = instant acq2 /\
  instant exp1 = instant exp2 /\ td1 = td2 /\ ad1 = ad2.
Proof.
  intros Ha1 He1 Ha2 He2 E. apply canonical_json_inj in E; [|apply lease_payload_wf..].
  unfold lease_payload in E.
  assert (r1 = r2) as -> by (field "run_id" E; by apply str_field).
  assert (t1 = t2) as -> by (field "task_id" E; by apply str_field).
  assert (a1 = a2) as -> by (field "agent_id" E; by apply str_field).
  assert (n1 = n2) as -> by (field "attempt" E; by apply int_field).
  assert (instant acq1 = instant acq2) as ->
    by (field "acquired_at" E; apply iso_z_inj; [done|done|by apply str_field]).
  assert (instant exp1 = instant exp2) as ->
    by (field "expires_at" E; apply iso_z_inj; [done|done|by apply str_field]).
  assert (td1 = td2) as -> by (field "task_contract_digest" E; by apply str_field).
  assert (ad1 = ad2) as -> by (field "agent_contract_digest" E; by apply str_field).
  done.
Qed.

Lemma lease_token_binds key r1 t1 a1 n1 acq1 exp1 td1 ad1 r2 t2 a2 n2 acq2 exp2 td2 ad2 token :
  lease_token r1 t1 a1 n1 acq1 exp1 td1 ad1 key = Ok token ->
  lease_token r2 t2 a2 n2 acq2 exp2 td2 ad2 key = Ok token ->
  (r1 = r2 /\ t1 = t2 /\ a1 = a2 /\ n1 = n2 /\ instant acq1 = instant acq2 /\
   instant exp1 = instant exp2 /\ td1 = td2 /\ ad1 = ad2) \/
  hmac_collision key (lease_text r1 t1 a1 n1 acq1 exp1 td1 ad1)
                     (lease_text r2 t2 a2 n2 acq2 exp2 td2 ad2).
Proof.
  rewrite !lease_token_Ok. intros ([_ Ha1] & [_ He1] & H1) ([_ Ha2] & [_ He2] & H2).
  destruct (decide (lease_text r1 t1 a1 n1 acq1 exp1 td1 ad1 =
                    lease_text r2 t2 a2 n2 acq2 exp2 td2 ad2)) as [E|E].
  - left. by apply lease_text_inj.
  - right. split; [done|]. congruence.
Qed.

(** ** When a carried lease is accepted *)

Lemma task_contract_digest_ascii x : is_ascii_str (task_contract_digest x) = true.
Proof. apply sha256_hex_ascii, sha256_hex_is_digest. Qed.
Lemma agent_contract_digest_ascii a : is_ascii_str (agent_contract_digest a) = true.
Proof. apply sha256_hex_ascii, sha256_hex_is_digest. Qed.

(** The lease that task [x] carries was issued to agent [a] under [key]. *)
Record lease_bound (x : Task.t) (a : Agent.t) (key : bytes) (l : Lease.t) : Prop := {
  lb_carried : Task.lease x = Some l;
  lb_ids : Lease.task_id l = Task.id x /\ Lease.agent_id l = Agent.id a /\
    Lease.attempt l = Task.attempt x;
  lb_current : Agent.current_task_id a = Some (Task.id x);
  lb_run : Task.run_id x = Agent.run_id a;
  lb_digests : Lease.task_contract_digest l = task_contract_digest x /\
    Lease.agent_contract_digest l = agent_contract_digest a;
  lb_token : lease_token (Task.run_id x) (Task.id x) (Agent.id a) (Task.attempt x)
    (Lease.acquired_at l) (Lease.expires_at l) (task_contract_digest x) (agent_contract_digest a)
    key = Ok (Lease.token l);
  lb_valid : Lease.post_init l = Ok tt;
  lb_utc : Lease.acquired_at l = utc_of (Lease.acquired_at l) /\
    Lease.expires_at l = utc_of (Lease.expires_at l);
  lb_heartbeat : forall h, Agent.last_heartbeat_at a = Some h ->
    dt_aware h = true /\ wall_in_range (instant h) = true;
  lb_key : (32 <= length key)%nat;
}.

Lemma lease_record l : l = Lease.mk (Lease.token l) (Lease.task_id l) (Lease.agent_id l)
  (Lease.attempt l) (Lease.acquired_at l) (Lease.expires_at l) (Lease.task_contract_digest l)
  (Lease.agent_contract_digest l).
Proof. by destruct l. Qed.

Lemma validate_lease_complete x a key l now allow :
  lease_bound x a key l ->
  dt_aware now = true -> wall_in_range (instant now) = true ->
  (instant (Lease.acquired_at l) <= instant now)%Z ->
  (forall h, Agent.last_heartbeat_at a = Some h -> instant h <= instant now)%Z ->
  (allow = false -> instant now < instant (Lease.expires_at l))%Z ->
  validate_lease x a (Lease.token l) now key allow = Ok l.
Proof.
  intros [Hl (Hti & Hai & Hatt) Hcur Hrun [Htd Had] Htok Hval [Hua Hue] Hhb Hkey] Hna Hnr Hacq Hbeat
    Hlive.
  pose proof (proj1 (lease_token_Ok _ _ _ _ _ _ _ _ _ _) Htok) as ([Hqa Hqr] & [Hea Her] & Htext).
  assert (is_ascii_str (Lease.token l) = true) as Hascii.
  { rewrite Htext. apply sha256_hex_ascii, hmac_sha256_hex_is_digest. }
  unfold validate_lease.
  assert (lease_rejecting (snapshot_time now "lease timestamp") = Ok (utc_of now)) as ->
    by (by rewrite lease_rejecting_Ok, snapshot_time_Ok). cbn [bind].
  rewrite (proj2 (key_too_short_false key) Hkey). cbn [raise_if bind]. rewrite Hl.
  rewrite compare_digest_same by done. cbn [bind negb raise_if].
  assert (snapshot_time (Lease.acquired_at l) "lease acquisition" = Ok (Lease.acquired_at l)) as ->
    by (by apply snapshot_time_Ok).
  assert (snapshot_time (Lease.expires_at l) "lease expiry" = Ok (Lease.expires_at l)) as ->
    by (by apply snapshot_time_Ok). cbn [bind].
  assert (exists last, match Agent.last_heartbeat_at a with
    | Some h => let* h0 := snapshot_time h "agent heartbeat" in Ok (Some h0)
    | None => Ok None end = Ok last /\ opt_bad (dt_lt (utc_of now)) last = false) as (last & -> & Hlast).
  { destruct (Agent.last_heartbeat_at a) as [h|]; [|by exists None].
    destruct (Hhb h eq_refl). exists (Some (utc_of h)).
    rewrite (proj2 (snapshot_time_Ok h "agent heartbeat" (utc_of h))) by done. split; [done|].
    simpl. unfold dt_lt. rewrite !instant_utc. apply Z.ltb_ge. by apply Hbeat. }
  cbn [bind lease_rejecting catch].
  rewrite Hti, Hai, Hcur, Hatt, Hrun, Htd, Had, Z.eqb_refl, !bool_decide_eq_true_2 by done.
  cbn [negb orb raise_if bind].
  rewrite compare_digest_same by apply task_contract_digest_ascii. cbn [negb bind].
  rewrite compare_digest_same by apply agent_contract_digest_ascii. cbn [negb bind raise_if].
  rewrite <- Hrun, Htok. cbn [bind]. rewrite compare_digest_same by done.
  cbn [bind negb raise_first]. unfold dt_lt at 1, dt_le. rewrite instant_utc.
  rewrite (proj2 (Z.ltb_ge _ _) Hacq), Hlast.
  assert (negb allow && (instant (Lease.expires_at l) <=? instant now)%Z = false) as ->.
  { destruct allow; [done|]. simpl. apply Z.leb_gt. by apply Hlive. }
  cbn [raise_first bind]. apply lease_new_Ok.
  assert (l = Lease.mk (Lease.token l) (Task.id x) (Agent.id a) (Task.attempt x)
    (Lease.acquired_at l) (Lease.expires_at l) (task_contract_digest x) (agent_contract_digest a))
    as <-; [|done].
  rewrite (lease_record l) at 1. by rewrite Hti, Hai, Hatt, Htd, Had.
Qed.

(** ** The life of a lease *)

Lemma utc_of_zero d : dt_offset d = Some 0%Z -> utc_of d = d.
Proof. destruct d as [w o]. simpl. intros ->. unfold utc_of, instant. simpl. by rewrite Z.sub_0_r. Qed.

Lemma dt_add_seconds_Ok d s e :
  dt_add_seconds d s = Ok e <->
  wall_in_range (dt_wall d + s * us_second) = true /\
  e = DT (dt_wall d + s * us_second) (dt_offset d).
Proof.
  unfold dt_add_seconds. destruct (wall_in_range _); split; [by intros ?%Ok_inj|naive_solver|done|].
  by intros [? ?].
Qed.

(** Contracts do not depend on the scheduling fields. *)
Lemma with_lease_digest x l : task_contract_digest (with_lease x l) = task_contract_digest x.
Proof. reflexivity. Qed.
Lemma with_task_digest a i at_ : agent_contract_digest (with_task a i at_) = agent_contract_digest a.
Proof. reflexivity. Qed.

(** A lease that is issued is bound to its task and agent. *)
Lemma issued_bound run x a at_ key secs l :
  issue_lease run x a at_ key secs = Ok l -> at_ = utc_of at_ ->
  Task.run_id x = Run.id run -> Agent.run_id a = Run.id run -> (32 <= length key)%nat ->
  lease_bound (with_lease x l) (with_task a (Task.id x) at_) key l /\
  Lease.acquired_at l = at_ /\
  dt_add_seconds at_ secs = Ok (Lease.expires_at l).
Proof.
  intros H Hutc Hxr Har Hkey. apply issue_lease_Ok in H as (e & token & He & Ht & Hl & Hp).
  pose proof (proj1 (lease_token_Ok _ _ _ _ _ _ _ _ _ _) Ht) as ([Hqa Hqr] & [Hea Her] & _).
  subst l. split; [|done].
  constructor; [reflexivity|by split|reflexivity| |by split| |exact Hp| | |exact Hkey].
  - change (Task.run_id x = Agent.run_id a). congruence.
  - change (lease_token (Task.run_id x) (Task.id x) (Agent.id a) (Task.attempt x + 1) at_ e
      (task_contract_digest x) (agent_contract_digest a) key = Ok token). by rewrite Hxr.
  - split; [done|]. simpl. apply dt_add_seconds_Ok in He as [_ ->].
    symmetry. apply utc_of_zero. simpl. rewrite Hutc. done.
  - simpl. intros h [= <-]. done.
Qed.

Lemma heartbeat_bound x a token key at_ secs x' a' :
  heartbeat x a token key at_ secs = Ok (x', a') ->
  exists l l' v,
    Task.lease x = Some l /\ lease_accepted x a token (utc_of at_) key false v /\
    Task.active_state (Task.state x) = true /\ Agent.active_state (Agent.state a) = true /\
    (1 <= secs)%Z /\
    x' = x <| Task.lease := Some l' |> /\ task_valid x' /\
    a' = a <| Agent.last_heartbeat_at := Some (utc_of at_) |> /\ agent_valid a' /\
    lease_bound x' a' key l' /\ Lease.acquired_at l' = utc_of (Lease.acquired_at l) /\
    dt_add_seconds (utc_of at_) secs = Ok (Lease.expires_at l').
Proof.
  unfold heartbeat. intros H. apply bind_Ok in H as (u & Hu & H).
  rewrite snapshot_time_Ok in Hu. destruct Hu as (Hna & Hnr & ->).
  apply bind_Ok in H as (v & Hv & H). apply validate_lease_accepted in Hv.
  apply seq_Ok in H as [Hc H]. rewrite raise_first_Ok, !Forall_cons in Hc. cbn [fst] in Hc.
  destruct Hc as (Hact & Hsecs & _). apply orb_false_iff in Hact as [Hxa Haa].
  apply negb_false_iff in Hxa, Haa. apply Z.ltb_ge in Hsecs.
  apply bind_Ok in H as (e & He & H). apply bind_Ok in H as (token' & Htok & H).
  apply bind_Ok in H as (l' & Hl' & H). apply lease_new_Ok in Hl' as [Hp' ->].
  apply bind_Ok in H as (x1 & Hx1 & H). apply bind_Ok in H as (a1 & Ha1 & H).
  apply Ok_inj in H. injection H as -> ->.
  apply task_new_Ok in Hx1 as [Hxv ->]. apply agent_new_Ok in Ha1 as [Hav ->].
  destruct (la_carried _ _ _ _ _ _ _ Hv) as (l & Hl & Hv' & Htoken & Hagent).
  exists l, (v <| Lease.token := token' |> <| Lease.expires_at := e |>), v.
  split_and!; [exact Hl|exact Hv|exact Hxa|exact Haa|exact Hsecs|reflexivity|exact Hxv
    |reflexivity|exact Hav| |by subst v|exact He].
  - subst v. constructor;
    [reflexivity|by split| | |by split|exact Htok|exact Hp'| | |].
    + exact (la_current _ _ _ _ _ _ _ Hv).
    + exact (la_run _ _ _ _ _ _ _ Hv).
    + split; [simpl; by rewrite utc_of_utc|]. simpl. apply dt_add_seconds_Ok in He as [_ ->].
      symmetry. by apply utc_of_zero.
    + simpl. intros h [= <-]. rewrite instant_utc. done.
    + exact (la_key _ _ _ _ _ _ _ Hv).
Qed.

(** ** Theorems *)

(** A lease token names one assignment: if the scheduler accepts the same
    token under the same key for two task and agent records, the two tasks have
    the same contract, the two agents the same contract, and attempt, acquisition
    and expiry agree, or else two explicit texts collide under the HMAC or
    under SHA-256. *)
Theorem accepted_token_binds_assignment x1 a1 now1 allow1 v1 x2 a2 now2 allow2 v2 token key :
  validate_lease x1 a1 token now1 key allow1 = Ok v1 ->
  validate_lease x2 a2 token now2 key allow2 = Ok v2 ->
  let text x a v := lease_text (Task.run_id x) (Task.id x) (Agent.id a) (Task.attempt x)
    (Lease.acquired_at v) (Lease.expires_at v) (task_contract_digest x) (agent_contract_digest a) in
  hmac_collision key (text x1 a1 v1) (text x2 a2 v2) \/
  sha256_collision (canonical_json (task_contract_payload x1))
                   (canonical_json (task_contract_payload x2)) \/
  sha256_collision (canonical_json (agent_contract_payload a1))
                   (canonical_json (agent_contract_payload a2)) \/
  same_task_contract x1 x2 /\
  canon (agent_contract_payload a1) = canon (agent_contract_payload a2) /\
  Agent.id a1 = Agent.id a2 /\ Task.attempt x1 = Task.attempt x2 /\
  instant (Lease.acquired_at v1) = instant (Lease.acquired_at v2) /\
  instant (Lease.expires_at v1) = instant (Lease.expires_at v2).
Proof.
  intros H1%validate_lease_accepted H2%validate_lease_accepted text.
  destruct (lease_token_binds _ _ _ _ _ _ _ _ _ _ _ _ _ _ _ _ _ _
    (la_token _ _ _ _ _ _ _ H1) (la_token _ _ _ _ _ _ _ H2))
    as [(_ & _ & Hid & Hatt & Hacq & Hexp & Htd & Had)|E]; [right|by left].
  destruct (digest_commits _ _ (task_contract_payload_wf x1) (task_contract_payload_wf x2) Htd)
    as [Ht|Ht]; [right|by left].
  destruct (digest_commits _ _ (agent_contract_payload_wf a1) (agent_contract_payload_wf a2) Had)
    as [Ha|Ha]; [right|by left].
  split; [exact (task_contract_payload_inj _ _ Ht)|].
  split_and!; [exact Ha|exact Hid|exact Hatt|exact Hacq|exact Hexp].
Qed.

(** Renewal retires the old token: after an accepted heartbeat the renewed
    lease is accepted with its own token until the renewed expiry, and the old
    token is accepted for it only when the expiry has not moved (then it is
    the same token), or else the two lease texts collide under the HMAC. *)
Theorem heartbeat_retires_token x a token key at_ secs x' a' :
  heartbeat x a token key at_ secs = Ok (x', a') ->
  exists l l', Task.lease x = Some l /\ Task.lease x' = Some l' /\ Lease.token l = token /\
    (forall now, dt_aware now = true -> wall_in_range (instant now) = true ->
       (instant at_ <= instant now < instant (Lease.expires_at l'))%Z ->
       validate_lease x' a' (Lease.token l') now key false = Ok l') /\
    (forall now allow v, validate_lease x' a' token now key allow = Ok v ->
       instant (Lease.expires_at l) = instant (Lease.expires_at l') \/
       let text e := lease_text (Task.run_id x) (Task.id x) (Agent.id a) (Task.attempt x)
         (utc_of (Lease.acquired_at l)) e (task_contract_digest x) (agent_contract_digest a) in
       hmac_collision key (text (utc_of (Lease.expires_at l))) (text (Lease.expires_at l'))).
Proof.
  intros H. apply heartbeat_bound in H
    as (l & l' & v & Hl & Hv & _ & _ & _ & -> & _ & -> & _ & Hb & Hacq & Hexp).
  destruct (la_carried _ _ _ _ _ _ _ Hv) as (l0 & Hl0 & -> & Htok & _).
  rewrite Hl in Hl0. injection Hl0 as <-.
  exists l, l'. split_and!; [done|done|done| |].
  - intros now Ha Hr Hnow. eapply validate_lease_complete; [exact Hb|done|done| | |].
    + rewrite Hacq, instant_utc. pose proof (la_acquired _ _ _ _ _ _ _ Hv) as Hq.
      simpl in Hq. rewrite !instant_utc in Hq. lia.
    + simpl. intros h [= <-]. rewrite instant_utc. lia.
    + intros _. lia.
  - intros now allow v' Hv'%validate_lease_accepted.
    pose proof (la_token _ _ _ _ _ _ _ Hv') as Ht'. pose proof (la_token _ _ _ _ _ _ _ Hv) as Ht.
    destruct (la_carried _ _ _ _ _ _ _ Hv') as (l1 & Hl1 & -> & Htok' & _).
    simpl in Hl1. injection Hl1 as <-. simpl in Ht, Ht'.
    destruct (lb_utc _ _ _ _ Hb) as [Hu1 Hu2]. rewrite <- Hu1, <- Hu2, Hacq in Ht'.
    destruct (lease_token_binds _ _ _ _ _ _ _ _ _ _ _ _ _ _ _ _ _ _ Ht Ht') as [E|E].
    + left. destruct E as (_ & _ & _ & _ & _ & E & _). by rewrite instant_utc in E.
    + by right.
Qed.

(** ** Witnesses *)

Lemma accepted_token_binds_assignment_witness :
  exists v1 v2,
    validate_lease working_task working_agent working_token (clock 20) lease_key false = Ok v1 /\
    validate_lease working_task working_agent working_token (clock 99) lease_key true = Ok v2 /\
    let text v := lease_text (Task.run_id working_task) (Task.id working_task)
      (Agent.id working_agent) (Task.attempt working_task) (Lease.acquired_at v)
      (Lease.expires_at v) (task_contract_digest working_task)
      (agent_contract_digest working_agent) in
    let c := canonical_json in
    hmac_collision lease_key (text v1) (text v2) \/
    sha256_collision (c (task_contract_payload working_task)) (c (task_contract_payload working_task)) \/
    sha256_collision (c (agent_contract_payload working_agent))
      (c (agent_contract_payload working_agent)) \/
    same_task_contract working_task working_task /\
    canon (agent_contract_payload working_agent) = canon (agent_contract_payload working_agent) /\
    Agent.id working_agent = Agent.id working_agent /\
    Task.attempt working_task = Task.attempt working_task /\
    instant (Lease.acquired_at v1) = instant (Lease.acquired_at v2) /\
    instant (Lease.expires_at v1) = instant (Lease.expires_at v2).
Proof.
  pose (v := from_option id (Lease.mk "" "" "" 0 (clock 0) (clock 0) "" "") (Task.lease working_task)).
  exists v, v.
  assert (validate_lease working_task working_agent working_token (clock 20) lease_key false = Ok v)
    as H1 by (vm_compute; reflexivity).
  assert (validate_lease working_task working_agent working_token (clock 99) lease_key true = Ok v)
    as H2 by (vm_compute; reflexivity).
  split; [exact H1|]. split; [exact H2|].
  exact (accepted_token_binds_assignment _ _ _ _ _ _ _ _ _ _ _ _ H1 H2).
Defined.

Lemma heartbeat_retires_token_witness :
  exists x' a', heartbeat working_task working_agent working_token lease_key (clock 30) 60 = Ok (x', a') /\
  exists l l', Task.lease working_task = Some l /\ Task.lease x' = Some l' /\
    Lease.token l = working_token /\
    validate_lease x' a' (Lease.token l') (clock 80) lease_key false = Ok l'.
Proof.
  pose (p := got (working_task, working_agent)
    (heartbeat working_task working_agent working_token lease_key (clock 30) 60)).
  exists p.1, p.2.
  assert (heartbeat working_task working_agent working_token lease_key (clock 30) 60 = Ok (p.1, p.2))
    as H by (vm_compute; reflexivity).
  split; [exact H|].
  destruct (heartbeat_retires_token _ _ _ _ _ _ _ _ H) as (l & l' & Hl & Hl' & Ht & Hnew & _).
  exists l, l'. split; [exact Hl|]. split; [exact Hl'|]. split; [exact Ht|].
  apply Hnew; [reflexivity|reflexivity|].
  assert (l' = from_option id l' (Task.lease p.1)) as -> by (by rewrite Hl').
  vm_compute. split; [discriminate|reflexivity].
Defined.
