(* ===== verification/SchedSteps.v ===== *)
(** * What scheduling does to a task over time

    Every operation evolves the tasks: their contracts stay, terminal tasks
    are left alone, and attempts are bounded by the retry policy.  The step
    relation of a run under the scheduler, and its invariant. *)
From S2P Require Import Prelude PyStr PyDict Json Sha256 DateTime Enums.
From S2P Require Import Models Digests DigestFacts TaskGraph ModelFacts Scheduler SchedInv.

Local Open Scope string_scope.

(** ** Evolution of one task *)

Definition waiting_state (s : TaskState.t) : bool :=
  bool_decide (s ∈ [TaskState.QUEUED; TaskState.RETRY_WAIT; TaskState.BLOCKED]).
Definition terminal_state (s : TaskState.t) : bool := bool_decide (s ∈ TERMINAL_TASK_STATES).

(** Attempts stay within the policy, and a waiting task has one left. *)
Definition attempts_ok (x : Task.t) : Prop :=
  (Task.attempt x <= RetryPolicy.max_attempts (Task.retry_policy x))%Z /\
  (waiting_state (Task.state x) = true ->
   Task.attempt x < RetryPolicy.max_attempts (Task.retry_policy x))%Z.

Record evolves (x x' : Task.t) : Prop := {
  ev_contract : task_contract_payload x' = task_contract_payload x;
  ev_retry : Task.retry_policy x' = Task.retry_policy x;
  ev_id : Task.id x' = Task.id x;
  ev_terminal : terminal_state (Task.state x) = true -> x' = x;
  ev_attempts : attempts_ok x -> attempts_ok x';
}.

#[export] Instance evolves_refl : Reflexive evolves.
Proof. done. Qed.
#[export] Instance evolves_trans : Transitive evolves.
Proof.
  intros x y z [C1 R1 I1 T1 A1] [C2 R2 I2 T2 A2].
  split; [congruence|congruence|congruence| |by auto].
  intros H. specialize (T1 H). subst. by apply T2.
Qed.

(** The waiting, active and terminal states partition the states. *)
Lemma waiting_not_terminal s : waiting_state s = true -> terminal_state s = false.
Proof. by destruct s. Qed.
Lemma active_not_terminal s : Task.active_state s = true -> terminal_state s = false.
Proof. by destruct s. Qed.

(** ** Evolution of all tasks *)

Definition evolve (T T' : dict Task.t) : Prop :=
  forall i, option_Forall2 evolves (T !! i) (T' !! i).

#[export] Instance evolve_refl : Reflexive evolve.
Proof. intros T i. destruct (T !! i); by constructor. Qed.
#[export] Instance evolve_trans : Transitive evolve.
Proof.
  intros T1 T2 T3 H1 H2 i. specialize (H1 i). specialize (H2 i).
  inversion H1 as [x y Hxy E1 E2|E1 E2]; rewrite <- E2 in H2;
    inversion H2 as [y' z Hyz E3 E4|E3 E4]; constructor. by etrans.
Qed.

Lemma evolve_insert (T : dict Task.t) i x x' :
  T !! i = Some x -> evolves x x' -> evolve T (<[i:=x']> T).
Proof.
  intros Hi Hx j. rewrite dict_lookup_insert. destruct (decide (i = j)) as [<-|].
  - rewrite Hi. by constructor.
  - by apply evolve_refl.
Qed.

Lemma fail_validated_evolves task agent code msg retryable b ut uc at_ r :
  fail_validated task agent code msg retryable b ut uc at_ = Ok r ->
  Task.active_state (Task.state task) = true ->
  evolves task (CompletionResult.task r) /\
  Task.attempt (CompletionResult.task r) = Task.attempt task.
Proof.
  unfold fail_validated. intros H Ha. apply seq_Ok in H as [_ H].
  apply bind_Ok in H as (now & _ & H). apply seq_Ok in H as [_ H].
  apply bind_Ok in H as (next & _ & H). apply bind_Ok in H as (settled & Hset & H).
  apply bind_Ok in H as (task' & Htask & H). apply bind_Ok in H as (agent' & Hagent & H).
  apply Ok_inj in H. subst r. apply task_new_Ok in Htask as [_ ->]. cbn [CompletionResult.task].
  split; [|done]. split; [done|done|done| |].
  - intros Ht. apply active_not_terminal in Ha. congruence.
  - intros [Hle _]. split; [done|]. simpl.
    destruct retryable; simpl; [|done]. destruct (_ <? _)%Z eqn:E; [|done].
    intros _. by apply Z.ltb_lt.
Qed.

Definition reap_evolution (T0 : dict Task.t) (st : reap_state) (l : list Task.t) : Prop :=
  let '(T, A, b, expired) := st in
  pending T l /\ evolve T0 T /\
  total Task.attempt (dict_values T) = total Task.attempt (dict_values T0).

Lemma reap_step_evolution T0 now key st x l st' :
  reap_evolution T0 st (x :: l) -> reap_step now key st x = Ok st' -> reap_evolution T0 st' l.
Proof.
  destruct st as [[[T A] b] expired]. intros (Hp & He & Ht) H.
  destruct (pending_next _ _ _ Hp) as [Hx Hp'].
  unfold reap_step in H. destruct (Task.active_state (Task.state x)) eqn:Ea; cbn [negb] in H;
    [|by injection H as <-].
  destruct (Task.lease x) as [lease|]; [|done]. destruct (A !! _) as [a|]; [|done].
  apply bind_Ok in H as (validated & _ & H). destruct (dt_lt _ _); [by injection H as <-|].
  apply bind_Ok in H as (r & Hr & H). apply Ok_inj in H. subst st'.
  apply fail_validated_evolves in Hr as [Hev Hat]; [|done]. split_and!.
  - by apply pending_insert.
  - etrans; [exact He|]. by apply (evolve_insert T _ x).
  - rewrite (dict_insert_total _ _ _ _ _ Hx). lia.
Qed.

Definition block_evolution (T0 : dict Task.t) (st : dict Task.t * list string) (l : list Task.t)
    : Prop :=
  pending st.1 l /\ evolve T0 st.1 /\
  total Task.attempt (dict_values st.1) = total Task.attempt (dict_values T0).

(** A waiting task that stays a waiting task of the same attempt. *)
Lemma waiting_evolves x x' :
  waiting_state (Task.state x) = true -> task_contract_payload x' = task_contract_payload x ->
  Task.retry_policy x' = Task.retry_policy x -> Task.id x' = Task.id x ->
  Task.attempt x' = Task.attempt x -> evolves x x'.
Proof.
  intros Hw Hc Hr Hi Ha. split; [done|done|done| |].
  - intros Ht. apply waiting_not_terminal in Hw. congruence.
  - intros [H1 H2]. unfold attempts_ok. rewrite Ha, Hr. auto.
Qed.

Lemma block_step_evolution T0 st x l st' :
  block_evolution T0 st (x :: l) -> block_step st x = Ok st' -> block_evolution T0 st' l.
Proof.
  destruct st as [T blocked]. intros (Hp & He & Ht) H. simpl in *.
  destruct (pending_next _ _ _ Hp) as [Hx Hp'].
  unfold block_step in H. destruct (bool_decide _) eqn:Hs; cbn [negb] in H;
    [|by injection H as <-].
  assert (forall x', task_contract_payload x' = task_contract_payload x ->
    Task.retry_policy x' = Task.retry_policy x -> Task.id x' = Task.id x ->
    Task.attempt x' = Task.attempt x ->
    forall blocked', block_evolution T0 (<[Task.id x:=x']> T, blocked') l) as Hput.
  { intros x' Hc Hr Hi Ha blocked'. split_and!; [by apply pending_insert| |].
    - etrans; [exact He|]. apply (evolve_insert T _ x); [done|]. by apply waiting_evolves.
    - simpl. rewrite (dict_insert_total _ _ _ _ _ Hx). lia. }
  apply bind_Ok in H as (deps & _ & H). destruct (existsb _ deps).
  - apply bind_Ok in H as (x' & Hx' & H). apply Ok_inj in H. subst st'.
    apply task_new_Ok in Hx' as [_ ->]. by apply Hput.
  - destruct (bool_decide (Task.state x = TaskState.BLOCKED)); [|by injection H as <-].
    apply bind_Ok in H as (x' & Hx' & H). apply Ok_inj in H. subst st'.
    apply task_new_Ok in Hx' as [_ ->]. by apply Hput.
Qed.

Definition dispatch_evolution (T0 : dict Task.t) (st : dispatch_state) (l : list Task.t) : Prop :=
  pending (ds_tasks st) l /\ (forall x, x ∈ l -> waiting_state (Task.state x) = true) /\
  evolve T0 (ds_tasks st) /\
  (total Task.attempt (dict_values (ds_tasks st)) =
   total Task.attempt (dict_values T0) + Z.of_nat (length (ds_dispatches st)))%Z.

Lemma with_lease_evolves x l : waiting_state (Task.state x) = true -> evolves x (with_lease x l).
Proof.
  intros Hw. split; [done|done|done| |].
  - intros Ht. apply waiting_not_terminal in Hw. congruence.
  - intros [_ H]. split; [|done]. simpl. specialize (H Hw). lia.
Qed.

Lemma dispatch_step_evolution T0 run at_ key secs slots st x l st' :
  dispatch_evolution T0 st (x :: l) -> dispatch_step run at_ key secs slots st x = Ok st' ->
  dispatch_evolution T0 st' l.
Proof.
  intros (Hp & Hw & He & Ht) H. destruct (pending_next _ _ _ Hp) as [Hx Hp'].
  apply dispatch_step_cases in H as [(a & le & _ & Hs)|[deferred ->]].
  - destruct Hs as [_ _ _ _ _ _ Ht' _ _ Hd' _]. unfold dispatch_evolution. rewrite Ht', Hd'.
    split_and!.
    + by apply pending_insert.
    + intros y Hy. apply Hw. by right.
    + etrans; [exact He|]. apply (evolve_insert _ _ x); [done|].
      apply with_lease_evolves, Hw. by left.
    + rewrite (dict_insert_total _ _ _ _ _ Hx), length_app, Ht. simpl. lia.
  - split_and!; [done| |done|done]. intros y Hy. apply Hw. by right.
Qed.

(** ** Evolution through the operations on lists *)

Definition evolve_list (l l' : list Task.t) : Prop := evolve (dict_by Task.id l) (dict_by Task.id l').

Lemma evolve_keyed T T' : keyed Task.id T -> dict_wf T' -> evolve T T' -> keyed Task.id T'.
Proof.
  intros [_ Hk] Hwf He. split; [done|]. intros i x' Hx'. specialize (He i). rewrite Hx' in He.
  inversion He as [x y Hxy E|]; subst. rewrite (ev_id _ _ Hxy). by apply Hk.
Qed.

Lemma resorted_total {V K} `{PyOrdLaws K} (f : V -> Z) (seq : V -> K) l :
  total f (sorted_on seq l) = total f l.
Proof. apply total_perm, sorted_on_Permutation. Qed.

Lemma evolve_resorted {K} `{PyOrdLaws K} (seq : Task.t -> K) T0 T :
  keyed Task.id T -> evolve T0 T -> evolve T0 (dict_by Task.id (sorted_on seq (dict_values T))).
Proof. intros HT He i. rewrite resorted_lookup by done. apply He. Qed.

(** The reaping loop keeps the dictionary keyed. *)
Lemma reap_evolution_list tasks agents b at_ key r :
  reap_expired_leases tasks agents b at_ key = Ok r ->
  NoDup (Task.id <$> tasks) /\ NoDup (Task.id <$> ReapResult.tasks r) /\
  evolve_list tasks (ReapResult.tasks r) /\
  total Task.attempt (ReapResult.tasks r) = total Task.attempt tasks.
Proof.
  unfold reap_expired_leases. intros H. apply bind_Ok in H as (now & _ & H).
  apply seq_Ok in H as [_ H]. apply bind_Ok in H as (T & [Hnd ->]%index_unique_Ok & H).
  apply bind_Ok in H as (A & _ & H).
  apply bind_Ok in H as ([[[T' A'] b'] expired] & Hloop & H). apply Ok_inj in H. subst r. simpl.
  assert (keyed Task.id (dict_by Task.id tasks)) as Hk by (by apply dict_by_keyed).
  eapply (foldM_suffix (fun st l => reap_evolution (dict_by Task.id tasks) st l /\
    keyed Task.id st.1.1.1)) in Hloop.
  - destruct Hloop as [(_ & He & Ht) Hk']. simpl in Hk'. split_and!; [done| | |].
    + rewrite sorted_on_Permutation. by apply (keyed_NoDup Task.id T').
    + by apply evolve_resorted.
    + rewrite resorted_total, Ht. by rewrite dict_by_values.
  - intros [[[T1 A1] b1] ex1] x l st' [Hev Hk1] Hstep. split; [by eapply reap_step_evolution|].
    destruct Hev as (Hp & _ & _). destruct (pending_next _ _ _ Hp) as [Hx _].
    unfold reap_step in Hstep. destruct (Task.active_state (Task.state x)) eqn:Ea;
      cbn [negb] in Hstep; [|by injection Hstep as <-].
    destruct (Task.lease x) as [lease|]; [|done]. destruct (A1 !! _) as [a|]; [|done].
    apply bind_Ok in Hstep as (validated & _ & Hstep).
    destruct (dt_lt _ _); [by injection Hstep as <-|].
    apply bind_Ok in Hstep as (res & Hr & Hstep). apply Ok_inj in Hstep. subst st'. simpl in *.
    apply fail_validated_evolves in Hr as [Hev _]; [|done].
    rewrite <- (ev_id _ _ Hev). by apply keyed_insert.
  - split; [|done]. split_and!; [by apply pending_sorted|done|done].
Qed.

Lemma block_evolution_dict T blocked T' blocked' :
  keyed Task.id T ->
  foldM block_step (T, blocked) (sorted_on task_order (dict_values T)) = Ok (T', blocked') ->
  keyed Task.id T' /\ evolve T T' /\
  total Task.attempt (dict_values T') = total Task.attempt (dict_values T).
Proof.
  intros Hk Hloop.
  eapply (foldM_suffix (fun st l => block_evolution T st l /\ dict_wf st.1)) in Hloop.
  - destruct Hloop as [(_ & He & Ht) Hwf]. split_and!; [by eapply evolve_keyed|done|done].
  - intros [T1 b1] x l st' [Hev Hwf] Hstep. split; [by eapply block_step_evolution|].
    unfold block_step in Hstep. destruct (bool_decide _); cbn [negb] in Hstep;
      [|by injection Hstep as <-].
    apply bind_Ok in Hstep as (deps & _ & Hstep). destruct (existsb _ deps).
    + apply bind_Ok in Hstep as (x' & _ & Hstep). apply Ok_inj in Hstep. subst st'.
      by apply dict_insert_wf.
    + destruct (bool_decide _); [|by injection Hstep as <-].
      apply bind_Ok in Hstep as (x' & _ & Hstep). apply Ok_inj in Hstep. subst st'.
      by apply dict_insert_wf.
  - split; [|by destruct Hk]. split_and!; [by apply pending_sorted|done|done].
Qed.

Lemma dispatch_all_evolution run T A b blocked at_ key secs r :
  keyed Task.id T -> dispatch_all run T A b blocked at_ key secs = Ok r ->
  NoDup (Task.id <$> ScheduleResult.tasks r) /\
  evolve T (dict_by Task.id (ScheduleResult.tasks r)) /\
  (total Task.attempt (ScheduleResult.tasks r) =
   total Task.attempt (dict_values T) + Z.of_nat (length (ScheduleResult.dispatches r)))%Z.
Proof.
  intros Hk H. unfold dispatch_all in H. cbv zeta in H.
  set (slots := Z.max 0 _) in H. destruct (slots =? 0)%Z eqn:Es.
  { apply Ok_inj in H. subst r. simpl. split_and!.
    - rewrite sorted_on_Permutation. by apply (keyed_NoDup Task.id T).
    - by apply evolve_resorted.
    - rewrite resorted_total. lia. }
  apply bind_Ok in H as (queue & Hq & H). apply bind_Ok in H as (st & Hloop & H).
  apply Ok_inj in H. subst r. simpl.
  destruct (candidates_spec T at_ queue Hk Hq) as (Hp & _ & Hin).
  eapply (foldM_suffix (fun st l => dispatch_evolution T st l /\ dict_wf (ds_tasks st))) in Hloop.
  - destruct Hloop as [(_ & _ & He & Ht) Hwf].
    assert (keyed Task.id (ds_tasks st)) as Hk' by (by eapply evolve_keyed). split_and!.
    + rewrite sorted_on_Permutation. by apply (keyed_NoDup Task.id).
    + by apply evolve_resorted.
    + by rewrite resorted_total.
  - intros st1 x l st' [Hev Hwf] Hstep. split; [by eapply dispatch_step_evolution|].
    apply dispatch_step_cases in Hstep as [(a & le & _ & Hs)|[deferred ->]]; [|done].
    rewrite (di_tasks _ _ _ _ _ _ _ _ _ Hs). by apply dict_insert_wf.
  - split; [|apply Hk]. split_and!; [done| |done|simpl; lia].
    intros x Hx. apply Hin in Hx as [[_ Hx] _]. unfold is_eligible in Hx.
    destruct (Task.state x); done.
Qed.

Lemma schedule_evolution run tasks agents at_ key secs budget r :
  schedule run tasks agents at_ key secs budget = Ok r ->
  NoDup (Task.id <$> tasks) /\ NoDup (Task.id <$> ScheduleResult.tasks r) /\
  evolve_list tasks (ScheduleResult.tasks r) /\
  (total Task.attempt (ScheduleResult.tasks r) =
   total Task.attempt tasks + Z.of_nat (length (ScheduleResult.dispatches r)))%Z.
Proof.
  unfold schedule. intros H. apply bind_Ok in H as (now & _ & H).
  rewrite !seq_Ok in H. destruct H as (_ & _ & _ & H).
  apply bind_Ok in H as (reaped & Hreap & H).
  apply bind_Ok in H as ([T blocked] & Hblock & H).
  apply reap_evolution_list in Hreap as (Hnd & Hnd1 & He1 & Ht1).
  apply block_evolution_dict in Hblock as (Hk2 & He2 & Ht2); [|by apply dict_by_keyed].
  apply dispatch_all_evolution in H as (Hnd3 & He3 & Ht3); [|done].
  rewrite dict_by_values in Ht2 by done. split_and!; [done|done| |lia].
  unfold evolve_list. etrans; [exact He1|]. by etrans.
Qed.

(** ** Steps of a run *)

(** Write a record back into its list, by id, as the store does. *)
Definition put_task (x : Task.t) (l : list Task.t) : list Task.t :=
  (fun y => if bool_decide (Task.id y = Task.id x) then x else y) <$> l.
Definition put_agent (a : Agent.t) (l : list Agent.t) : list Agent.t :=
  (fun b => if bool_decide (Agent.id b = Agent.id a) then a else b) <$> l.

Section put.
Context {V : Type} (id : V -> string).
Let put (x : V) (l : list V) : list V :=
  (fun y => if bool_decide (id y = id x) then x else y) <$> l.

Lemma put_ids x l : id <$> put x l = id <$> l.
Proof.
  unfold put. rewrite <- list_fmap_compose. apply list_fmap_ext. intros i y _. simpl.
  by case_bool_decide.
Qed.

Lemma put_lookup x l k :
  NoDup (id <$> l) -> (exists y, y ∈ l /\ id y = id x) ->
  dict_by id (put x l) !! k = (<[id x := x]> (dict_by id l) : dict V) !! k.
Proof.
  intros Hnd (y0 & Hy0 & Hid). rewrite dict_lookup_insert. apply option_eq. intros v.
  rewrite dict_by_lookup by (by rewrite put_ids). unfold put. rewrite list_elem_of_fmap.
  destruct (decide (id x = k)) as [<-|Hne].
  - split.
    + intros ((y & -> & Hy) & E). case_bool_decide; [done|congruence].
    + intros [= ->]. split; [|done]. exists y0. by rewrite bool_decide_eq_true_2.
  - rewrite dict_by_lookup by done. split.
    + intros ((y & -> & Hy) & E). case_bool_decide; [congruence|done].
    + intros [Hv <-]. split; [|done]. exists v. by rewrite bool_decide_eq_false_2.
Qed.
End put.

(** The records of a run, as the application reads and writes them. *)
Record sched_state := SchedState {
  ss_tasks : list Task.t;
  ss_agents : list Agent.t;
  ss_budget : Budget.t;
}.

(** One scheduler operation on the records of [run]; the label is the number of
    dispatches it makes. *)
Inductive sched_step (run : Run.t) (key : bytes) : sched_state -> Z -> sched_state -> Prop :=
  | step_schedule tasks agents b at_ secs r :
      schedule run tasks agents at_ key secs (Some b) = Ok r ->
      sched_step run key (SchedState tasks agents b) (Z.of_nat (length (ScheduleResult.dispatches r)))
        (SchedState (ScheduleResult.tasks r) (ScheduleResult.agents r) (ScheduleResult.budget r))
  | step_reap tasks agents b at_ r :
      reap_expired_leases tasks agents b at_ key = Ok r ->
      sched_step run key (SchedState tasks agents b) 0
        (SchedState (ReapResult.tasks r) (ReapResult.agents r) (ReapResult.budget r))
  | step_start tasks agents b x a token at_ x' a' :
      x ∈ tasks -> a ∈ agents -> start x a token key at_ = Ok (x', a') ->
      sched_step run key (SchedState tasks agents b) 0
        (SchedState (put_task x' tasks) (put_agent a' agents) b)
  | step_heartbeat tasks agents b x a token at_ secs x' a' :
      x ∈ tasks -> a ∈ agents -> heartbeat x a token key at_ secs = Ok (x', a') ->
      sched_step run key (SchedState tasks agents b) 0
        (SchedState (put_task x' tasks) (put_agent a' agents) b)
  | step_succeed tasks agents b x a token evidence ut uc at_ r :
      x ∈ tasks -> a ∈ agents -> succeed x a token key evidence b ut uc at_ = Ok r ->
      sched_step run key (SchedState tasks agents b) 0
        (SchedState (put_task (CompletionResult.task r) tasks)
           (put_agent (CompletionResult.agent r) agents) (CompletionResult.budget r))
  | step_fail tasks agents b x a token code msg retryable ut uc at_ r :
      x ∈ tasks -> a ∈ agents ->
      fail x a token key code msg retryable b ut uc at_ = Ok r ->
      sched_step run key (SchedState tasks agents b) 0
        (SchedState (put_task (CompletionResult.task r) tasks)
           (put_agent (CompletionResult.agent r) agents) (CompletionResult.budget r)).

Inductive sched_steps (run : Run.t) (key : bytes) (s0 : sched_state) : Z -> sched_state -> Prop :=
  | steps_refl : sched_steps run key s0 0 s0
  | steps_snoc n s m s' :
      sched_steps run key s0 n s -> sched_step run key s m s' -> sched_steps run key s0 (n + m) s'.
