(* ===== verification/SchedRun.v ===== *)
(** * A run under the scheduler

    The invariant of a run (unique ids, valid records, leases and agents
    matched, reservations accounted for, concurrency bounded) along any
    sequence of scheduler operations, and the bound on dispatches. *)
From S2P Require Import Prelude PyStr PyDict Json Sha256 DateTime Enums.
From S2P Require Import Models Digests DigestFacts TaskGraph ModelFacts Scheduler SchedInv LeaseFacts.
From S2P Require Import SchedSteps Fixtures.

Local Open Scope string_scope.

(** ** What one operation of a lease holder does *)

(** The assignment is kept ([start], [heartbeat]) or ended ([succeed], [fail]). *)
Record handled (x : Task.t) (a : Agent.t) (b : Budget.t) (x' : Task.t) (a' : Agent.t)
    (b' : Budget.t) : Prop := {
  hd_link : task_link x = Some (Agent.id a);
  hd_task : same_task x x';
  hd_agent : same_agent a a';
  hd_links : task_link x' = task_link x /\ agent_link a' = Some (Task.id x) /\ b' = b /\
      held_tokens x' = held_tokens x /\ held_dispatch x' = held_dispatch x \/
    Task.active_state (Task.state x') = false /\ Agent.active_state (Agent.state a') = false /\
      exists ut uc, Budget.settle b (Task.estimated_tokens x) ut 0 uc 1 1 = Ok b';
  hd_evolves : evolves x x';
  hd_attempt : Task.attempt x' = Task.attempt x;
}.

(** An accepted lease of an active task names the agent that holds it. *)
Lemma accepted_link x a token now key allow v :
  lease_accepted x a token now key allow v -> Task.active_state (Task.state x) = true ->
  task_link x = Some (Agent.id a).
Proof.
  intros Hv Ha. destruct (la_carried _ _ _ _ _ _ _ Hv) as (l & Hl & _ & _ & Hid).
  unfold task_link. by rewrite Ha, Hl, <- Hid.
Qed.

(** An active task that stays active with the same attempt. *)
Lemma active_evolves x x' :
  Task.active_state (Task.state x) = true -> Task.active_state (Task.state x') = true ->
  task_contract_payload x' = task_contract_payload x ->
  Task.retry_policy x' = Task.retry_policy x -> Task.id x' = Task.id x ->
  Task.attempt x' = Task.attempt x -> evolves x x'.
Proof.
  intros Ha Ha' Hc Hr Hi Hn. split; [exact Hc|exact Hr|exact Hi| |].
  - intros Ht. apply active_not_terminal in Ha. congruence.
  - intros [H1 _]. unfold attempts_ok. rewrite Hn, Hr. split; [exact H1|].
    destruct (Task.state x'); done.
Qed.

Lemma start_handled x a b token key at_ x' a' :
  start x a token key at_ = Ok (x', a') -> handled x a b x' a' b.
Proof.
  unfold start. intros H. apply bind_Ok in H as (now & _ & H).
  apply bind_Ok in H as (v & Hv%validate_lease_accepted & H).
  apply seq_Ok in H as [Hst H].
  apply raise_if_Ok, orb_false_iff in Hst as [Hx Ha].
  apply negb_false_iff, bool_decide_eq_true in Hx, Ha.
  apply bind_Ok in H as (x1 & [Hxv ->]%task_new_Ok & H).
  apply bind_Ok in H as (a1 & [Hav ->]%agent_new_Ok & H). apply Ok_inj in H. injection H as <- <-.
  assert (Task.active_state (Task.state x) = true) as Hact by (by rewrite Hx).
  pose proof (accepted_link _ _ _ _ _ _ _ Hv Hact) as Hl. constructor.
  - exact Hl.
  - by split_and!.
  - by split_and!.
  - left. split_and!; [|exact (la_current _ _ _ _ _ _ _ Hv)|reflexivity| |].
    + unfold task_link. by rewrite Hx.
    + unfold held_tokens. by rewrite Hx.
    + unfold held_dispatch. by rewrite Hx.
  - by apply active_evolves.
  - reflexivity.
Qed.

Lemma heartbeat_handled x a b token key at_ secs x' a' :
  heartbeat x a token key at_ secs = Ok (x', a') -> handled x a b x' a' b.
Proof.
  intros H. apply heartbeat_bound in H
    as (l & l' & v & Hl & Hv & Hx & Ha & _ & -> & Hxv & -> & Hav & Hb & _ & _).
  pose proof (accepted_link _ _ _ _ _ _ _ Hv Hx) as Hlink. constructor.
  - exact Hlink.
  - by split_and!.
  - by split_and!.
  - left. split_and!; [| |reflexivity|reflexivity|reflexivity].
    + rewrite Hlink. destruct (lb_ids _ _ _ _ Hb) as (_ & Hid & _).
      unfold task_link. simpl. rewrite Hx. simpl. f_equal. exact Hid.
    + unfold agent_link. simpl. rewrite Ha. exact (la_current _ _ _ _ _ _ _ Hv).
  - by apply active_evolves.
  - reflexivity.
Qed.

(** An assignment that ends gives back its reservation. *)
Lemma ended_handled x a b r :
  ended x a b r -> task_link x = Some (Agent.id a) -> evolves x (CompletionResult.task r) ->
  Task.attempt (CompletionResult.task r) = Task.attempt x ->
  handled x a b (CompletionResult.task r) (CompletionResult.agent r) (CompletionResult.budget r).
Proof.
  intros [? ? ? ? ?] Hl He Hat. constructor; try assumption. right. by split_and!.
Qed.

Lemma succeed_ended x a token key evidence b ut uc at_ r :
  succeed x a token key evidence b ut uc at_ = Ok r ->
  Task.active_state (Task.state x) = true /\ ended x a b r /\
  task_link x = Some (Agent.id a) /\ validate_evidence x evidence = Ok evidence /\
  evolves x (CompletionResult.task r) /\
  CompletionResult.task r = x <| Task.state := TaskState.SUCCEEDED |> <| Task.lease := None |>
    <| Task.result_evidence_ids := Evidence.id <$> evidence |>
    <| Task.completed_by_agent_id := Some (Agent.id a) |>
    <| Task.failure_code := None |> <| Task.failure_message := None |>.
Proof.
  unfold succeed. intros H. apply bind_Ok in H as (now & _ & H).
  apply bind_Ok in H as (v & Hv%validate_lease_accepted & H).
  apply seq_Ok in H as [Hx%raise_if_Ok%negb_false_iff H].
  apply bind_Ok in H as (ev & Hev & H). apply seq_Ok in H as [_ H].
  apply bind_Ok in H as (settled & Hset & H). apply bind_Ok in H as (x' & Hx' & H).
  apply bind_Ok in H as (a' & Ha' & H). apply Ok_inj in H. subst r.
  apply task_new_Ok in Hx' as [Hxv ->]. apply released_agent_Ok in Ha' as [-> Hsa].
  assert (ev = evidence) as ->.
  { pose proof Hev as E. unfold validate_evidence in E. apply seq_Ok in E as [_ E].
    apply bind_Ok in E as (? & _ & E). rewrite !seq_Ok in E. destruct E as (_ & _ & _ & E).
    by apply Ok_inj in E. }
  split_and!; [exact Hx| |exact (accepted_link _ _ _ _ _ _ _ Hv Hx)|exact Hev| |reflexivity].
  - constructor; cbn [CompletionResult.task CompletionResult.agent CompletionResult.budget];
      [by split_and!|exact Hsa|reflexivity|reflexivity|eauto].
  - split; [reflexivity|reflexivity|reflexivity| |].
    + intros Ht. apply active_not_terminal in Hx. congruence.
    + intros [H1 _]. split; [exact H1|done].
Qed.

Lemma fail_handled x a token key code msg retryable b ut uc at_ r :
  fail x a token key code msg retryable b ut uc at_ = Ok r ->
  handled x a b (CompletionResult.task r) (CompletionResult.agent r) (CompletionResult.budget r).
Proof.
  unfold fail. intros H. apply bind_Ok in H as (now & _ & H).
  apply bind_Ok in H as (v & Hv%validate_lease_accepted & H).
  apply seq_Ok in H as [[Hx _]%raise_if_Ok%orb_false_iff H]. apply negb_false_iff in Hx.
  pose proof (fail_validated_ended _ _ _ _ _ _ _ _ _ _ H) as He.
  apply fail_validated_evolves in H as [Hev Hat]; [|exact Hx].
  apply ended_handled; [exact He|exact (accepted_link _ _ _ _ _ _ _ Hv Hx)|exact Hev|exact Hat].
Qed.

(** ** It preserves the invariant of the run *)

Lemma handled_inv {run_id extra T A b i j x a x' a' b'} :
  sched_inv run_id extra T A b -> T !! i = Some x -> A !! j = Some a ->
  handled x a b x' a' b' -> sched_inv run_id extra (<[i:=x']> T) (<[j:=a']> A) b'.
Proof.
  intros Hinv Hi Hj [Hl Hx Ha Hlinks _ _].
  pose proof (si_id Hinv Hi) as Hxi. pose proof (si_agent_id Hinv Hj) as Haj.
  pose proof (si_matched _ _ _ _ _ Hinv i j) as Hm. rewrite Hi, Hj in Hm. cbn in Hm.
  assert (agent_link a = Some i) as Hal by (apply Hm; by rewrite Hl, Haj).
  destruct Hlinks as [(E1 & E2 & -> & Et & Ed)|(E1 & E2 & ut & uc & Hset)].
  - eapply si_update; [exact Hinv|exact Hi|exact Hj|exact Hx|exact Ha| | |lia|lia].
    + eapply matched_update; [by eapply si_matched|exact Hi|exact Hj|right; congruence
        |by right|left; split; congruence].
    + by eapply si_budget.
  - eapply si_release; [exact Hinv|exact Hi|exact Hj|congruence|exact Hx|exact Ha|exact E1|exact E2
      |exact Hset].
Qed.

(** The invariant read off the dictionaries of the lists. *)
Lemma sched_inv_run run_id extra tasks agents b :
  NoDup (Task.id <$> tasks) -> NoDup (Agent.id <$> agents) ->
  sched_inv run_id extra (dict_by Task.id tasks) (dict_by Agent.id agents) b ->
  run_inv run_id extra tasks agents b.
Proof.
  intros Htn Han [_ _ Ht Ha Hm Hb He Et Ed]. rewrite dict_by_values in Et, Ed by done.
  constructor; [|exact Hb|exact He|exact Et|by rewrite total_held_dispatch in Ed].
  constructor; [done|done| | |done].
  - intros x Hx. apply (Ht (Task.id x)). by apply dict_by_lookup.
  - intros a Hx. apply (Ha (Agent.id a)). by apply dict_by_lookup.
Qed.

Lemma members_task {run_id tasks agents} (Hm : members run_id tasks agents) {x} :
  x ∈ tasks -> dict_by Task.id tasks !! Task.id x = Some x.
Proof. intros Hx. apply dict_by_lookup; [by eapply mb_task_ids|done]. Qed.
Lemma members_agent {run_id tasks agents} (Hm : members run_id tasks agents) {a} :
  a ∈ agents -> dict_by Agent.id agents !! Agent.id a = Some a.
Proof. intros Hx. apply dict_by_lookup; [by eapply mb_agent_ids|done]. Qed.

Lemma put_task_ids x tasks : Task.id <$> put_task x tasks = Task.id <$> tasks.
Proof. exact (put_ids Task.id x tasks). Qed.
Lemma put_agent_ids a agents : Agent.id <$> put_agent a agents = Agent.id <$> agents.
Proof. exact (put_ids Agent.id a agents). Qed.

(** A task and its successor, written back to the list. *)
Lemma put_task_lookup x x' tasks k :
  NoDup (Task.id <$> tasks) -> x ∈ tasks -> Task.id x' = Task.id x ->
  dict_by Task.id (put_task x' tasks) !! k = (<[Task.id x := x']> (dict_by Task.id tasks) : dict _) !! k.
Proof. intros Hnd Hx Hid. rewrite <- Hid. apply (put_lookup Task.id); [done|]. eauto. Qed.
Lemma put_agent_lookup a a' agents k :
  NoDup (Agent.id <$> agents) -> a ∈ agents -> Agent.id a' = Agent.id a ->
  dict_by Agent.id (put_agent a' agents) !! k =
  (<[Agent.id a := a']> (dict_by Agent.id agents) : dict _) !! k.
Proof. intros Hnd Hx Hid. rewrite <- Hid. apply (put_lookup Agent.id); [done|]. eauto. Qed.

Lemma handled_run run_id extra tasks agents b x a x' a' b' :
  run_inv run_id extra tasks agents b -> x ∈ tasks -> a ∈ agents -> handled x a b x' a' b' ->
  run_inv run_id extra (put_task x' tasks) (put_agent a' agents) b' /\
  (active_count (put_task x' tasks) <= active_count tasks)%nat /\
  evolve_list tasks (put_task x' tasks) /\
  total Task.attempt (put_task x' tasks) = total Task.attempt tasks.
Proof.
  intros Hri Hx Ha Hh. pose proof (ri_members _ _ _ _ _ Hri) as Hm.
  pose proof (members_task Hm Hx) as Hxt. pose proof (members_agent Hm Ha) as Hat.
  pose proof (handled_inv (run_inv_dict _ _ _ _ _ Hri) Hxt Hat Hh) as Hinv.
  destruct Hm as [Htn Han _ _ _]. destruct Hh as [_ (Hxid & _) (Haid & _) Hb' Hev Hatt].
  assert (NoDup (Task.id <$> put_task x' tasks)) as Htn' by (by rewrite put_task_ids).
  assert (NoDup (Agent.id <$> put_agent a' agents)) as Han' by (by rewrite put_agent_ids).
  pose proof (put_task_lookup x x' tasks) as Hpt.
  assert (run_inv run_id extra (put_task x' tasks) (put_agent a' agents) b') as Hri'.
  { apply sched_inv_run; [done|done|]. eapply sched_inv_ext; [exact Hinv|..].
    - by apply dict_by_keyed.
    - by apply dict_by_keyed.
    - intros k. by apply Hpt.
    - intros k. by apply put_agent_lookup. }
  split_and!; [exact Hri'| | |].
  - pose proof (ri_dispatches _ _ _ _ _ Hri). pose proof (ri_dispatches _ _ _ _ _ Hri').
    destruct Hb' as [(_ & _ & -> & _)|(_ & _ & ut & uc & Hset)]; [lia|].
    apply settle_Ok in Hset as (_ & _ & _ & _ & _ & ->). simpl in *. lia.
  - intros k. rewrite Hpt by done. by eapply evolve_insert.
  - pose proof (si_task_keys _ _ _ _ _ Hinv) as Hk.
    rewrite <- (dict_by_values Task.id (put_task x' tasks)) by done.
    rewrite (total_perm _ _ (dict_values (<[Task.id x := x']> (dict_by Task.id tasks)))).
    + rewrite (dict_insert_total _ _ _ _ _ Hxt), dict_by_values by done. lia.
    + apply (keyed_perm Task.id); [by apply dict_by_keyed|exact Hk|]. intros k. by apply Hpt.
Qed.

(** ** It holds along every run *)

Definition state_inv (run : Run.t) (extra : Z * Z) (s : sched_state) : Prop :=
  run_inv (Run.id run) extra (ss_tasks s) (ss_agents s) (ss_budget s).

(** What a sequence of operations with [n] dispatches does to the records. *)
Record progressed (run : Run.t) (extra : Z * Z) (s : sched_state) (n : Z) (s' : sched_state)
    : Prop := {
  pg_inv : state_inv run extra s';
  pg_active : (Z.of_nat (active_count (ss_tasks s')) <=
    Z.max (Run.max_concurrency run) (Z.of_nat (active_count (ss_tasks s))))%Z;
  pg_evolve : evolve_list (ss_tasks s) (ss_tasks s');
  pg_attempts : (total Task.attempt (ss_tasks s') = total Task.attempt (ss_tasks s) + n)%Z;
}.

Lemma handled_progress run extra tasks agents b x a x' a' b' :
  state_inv run extra (SchedState tasks agents b) -> x ∈ tasks -> a ∈ agents ->
  handled x a b x' a' b' ->
  progressed run extra (SchedState tasks agents b) 0
    (SchedState (put_task x' tasks) (put_agent a' agents) b').
Proof.
  intros Hs Hx Ha Hh. destruct (handled_run _ _ _ _ _ _ _ _ _ _ Hs Hx Ha Hh) as (Hi & Hn & He & Ht).
  cbn [ss_tasks ss_agents ss_budget] in *. constructor; [exact Hi|simpl; lia|exact He|simpl; lia].
Qed.

Lemma step_progress run extra key s n s' :
  state_inv run extra s -> sched_step run key s n s' -> progressed run extra s n s'.
Proof.
  intros Hs Hstep. unfold state_inv in Hs. destruct Hstep as
    [tasks agents b at_ secs r H|tasks agents b at_ r H|tasks agents b x a token at_ x' a' Hx Ha H
    |tasks agents b x a token at_ secs x' a' Hx Ha H
    |tasks agents b x a token evidence ut uc at_ r Hx Ha H
    |tasks agents b x a token code msg retryable ut uc at_ r Hx Ha H].
  - cbn [ss_tasks ss_agents ss_budget] in Hs. destruct (schedule_inv extra run tasks agents at_ key secs (Some b) r Hs H) as [Hi Hn].
    apply schedule_evolution in H as (_ & _ & He & Ht). by constructor.
  - cbn [ss_tasks ss_agents ss_budget] in Hs. destruct (reap_inv_result _ _ _ _ _ _ _ _ Hs H) as [Hi Hn].
    apply reap_evolution_list in H as (_ & _ & He & Ht). constructor; simpl; [done|lia|done|lia].
  - eapply handled_progress; [done|done|done|]. by eapply start_handled.
  - eapply handled_progress; [done|done|done|]. by eapply heartbeat_handled.
  - eapply handled_progress; [done|done|done|].
    apply succeed_ended in H as (_ & He & Hl & _ & Hev & Et). apply ended_handled; try done.
    by rewrite Et.
  - eapply handled_progress; [done|done|done|]. by eapply fail_handled.
Qed.

Lemma steps_progress run extra key s0 n s :
  state_inv run extra s0 -> sched_steps run key s0 n s -> progressed run extra s0 n s.
Proof.
  intros H0. induction 1 as [|n s m s' _ IH Hstep].
  - constructor; [done|lia|by intros k; apply evolve_refl|lia].
  - destruct IH as [Hi Ha He Ht]. destruct (step_progress _ _ _ _ _ _ Hi Hstep) as [Hi' Ha' He' Ht'].
    constructor; [exact Hi'|lia|unfold evolve_list in *; by etrans|lia].
Qed.

(** ** Theorems *)

(** C13. Whatever sequence of scheduler operations a run goes through, in any
    order and at any clock values, its records stay sound: ids are unique,
    every record is valid, each active task is leased to exactly one agent that
    is working on it and conversely, the budget's reservations are those of the
    active tasks and nothing else, and at most [max_concurrency] tasks are
    active; every task is still there under its contract, and one that was
    terminal is unchanged. *)
Theorem scheduler_keeps_run_sound run key extra s0 n s :
  run_inv (Run.id run) extra (ss_tasks s0) (ss_agents s0) (ss_budget s0) ->
  (Z.of_nat (active_count (ss_tasks s0)) <= Run.max_concurrency run)%Z ->
  sched_steps run key s0 n s ->
  run_inv (Run.id run) extra (ss_tasks s) (ss_agents s) (ss_budget s) /\
  (Z.of_nat (active_count (ss_tasks s)) <= Run.max_concurrency run)%Z /\
  (forall x, x ∈ ss_tasks s0 -> exists x', x' ∈ ss_tasks s /\ Task.id x' = Task.id x /\
     task_contract_payload x' = task_contract_payload x /\
     (terminal_state (Task.state x) = true -> x' = x)).
Proof.
  intros H0 Ha Hsteps. destruct (steps_progress _ _ _ _ _ _ H0 Hsteps) as [Hi Hc He _].
  split; [exact Hi|]. split; [lia|]. intros x Hx.
  pose proof (members_task (ri_members _ _ _ _ _ H0) Hx) as Hxt.
  specialize (He (Task.id x)). rewrite Hxt in He.
  inversion He as [y x' Hev E1 E2|]; subst y. symmetry in E2.
  apply dict_by_elem in E2 as [Hx' Hid]. exists x'.
  split; [exact Hx'|]. split; [exact Hid|]. split; [apply (ev_contract _ _ Hev)|apply (ev_terminal _ _ Hev)].
Qed.

(** C15. The scheduler cannot dispatch for ever: if every task starts within its
    retry policy (and a waiting task has an attempt left), then however the
    operations are interleaved, the dispatches ever made are at most the
    attempts that the retry policies leave in total. *)
Theorem dispatches_are_bounded run key extra s0 n s :
  run_inv (Run.id run) extra (ss_tasks s0) (ss_agents s0) (ss_budget s0) ->
  (forall x, x ∈ ss_tasks s0 -> attempts_ok x) ->
  sched_steps run key s0 n s ->
  (n <= total (fun x => RetryPolicy.max_attempts (Task.retry_policy x)) (ss_tasks s0) -
        total Task.attempt (ss_tasks s0))%Z.
Proof.
  intros H0 Hok Hsteps. destruct (steps_progress _ _ _ _ _ _ H0 Hsteps) as [Hi _ He Ht].
  pose proof (ri_members _ _ _ _ _ H0) as Hm0. pose proof (ri_members _ _ _ _ _ Hi) as Hm.
  enough (total Task.attempt (ss_tasks s) <=
    total (fun x => RetryPolicy.max_attempts (Task.retry_policy x)) (ss_tasks s0))%Z by lia.
  apply (total_dominated Task.id); [apply Hm|apply Hm0| |].
  - intros x' Hx'. pose proof (He (Task.id x')) as Hev. rewrite (members_task Hm Hx') in Hev.
    inversion Hev as [x y Hxy E1 E2|]; subst y. symmetry in E1. apply dict_by_elem in E1 as [Hx Hid].
    exists x. split; [exact Hx|]. split; [exact Hid|].
    rewrite <- (ev_retry _ _ Hxy). by apply (ev_attempts _ _ Hxy), Hok.
  - intros x Hx. pose proof (He (Task.id x)) as Hev. rewrite (members_task Hm0 Hx) in Hev.
    inversion Hev as [y x' Hxy E1 E2|]; subst y. symmetry in E2. apply dict_by_elem in E2 as [Hx' Hid].
    by exists x'.
Qed.

(** ** Witnesses *)

Definition queued_state : sched_state := SchedState queued_tasks free_agents_list (Run.budget demo_run).

Lemma queued_state_inv :
  run_inv "run_1" (0, 0)%Z (ss_tasks queued_state) (ss_agents queued_state) (ss_budget queued_state).
Proof.
  assert (forall x, x ∈ queued_tasks -> task_valid x) as Ht.
  { intros x [->|[->|[]%elem_of_nil]%elem_of_cons]%elem_of_cons; vm_compute; reflexivity. }
  assert (forall a, a ∈ free_agents_list -> agent_valid a) as Ha.
  { intros x [->|[->|[]%elem_of_nil]%elem_of_cons]%elem_of_cons; vm_compute; reflexivity. }
  constructor.
  - apply (validate_membership_Ok executing_run); [exact Ht|exact Ha|vm_compute; reflexivity].
  - repeat split; vm_compute; done.
  - simpl. lia.
  - vm_compute. reflexivity.
  - vm_compute. reflexivity.
Qed.

(** The design task is dispatched, started by the designer, and succeeds. *)
Definition started : Task.t * Agent.t :=
  got (working_task, working_agent)
    (start working_task working_agent working_token lease_key (clock 15)).
Definition started_state : sched_state :=
  SchedState (put_task started.1 (ScheduleResult.tasks demo_scheduled))
    (put_agent started.2 (ScheduleResult.agents demo_scheduled))
    (ScheduleResult.budget demo_scheduled).

Lemma started_steps : sched_steps executing_run lease_key queued_state 1 started_state.
Proof.
  apply (steps_snoc _ _ _ 1 (SchedState (ScheduleResult.tasks demo_scheduled)
    (ScheduleResult.agents demo_scheduled) (ScheduleResult.budget demo_scheduled)) 0).
  - apply (steps_snoc _ _ _ 0 queued_state 1); [apply steps_refl|].
    assert (Z.of_nat (length (ScheduleResult.dispatches demo_scheduled)) = 1%Z) as <-
      by (vm_compute; reflexivity).
    apply (step_schedule _ _ _ _ _ (clock 10) 60). vm_compute. reflexivity.
  - apply (step_start _ _ _ _ _ working_task working_agent working_token (clock 15)).
    + assert (ScheduleResult.tasks demo_scheduled =
        working_task :: tl (ScheduleResult.tasks demo_scheduled)) as -> by (vm_compute; reflexivity).
      apply elem_of_cons. by left.
    + assert (ScheduleResult.agents demo_scheduled =
        working_agent :: tl (ScheduleResult.agents demo_scheduled)) as -> by (vm_compute; reflexivity).
      apply elem_of_cons. by left.
    + vm_compute. reflexivity.
Qed.

Lemma scheduler_keeps_run_sound_witness :
  sched_steps executing_run lease_key queued_state 1 started_state /\
  run_inv "run_1" (0, 0)%Z (ss_tasks started_state) (ss_agents started_state)
    (ss_budget started_state) /\ (Z.of_nat (active_count (ss_tasks started_state)) <= 2)%Z.
Proof.
  split; [exact started_steps|].
  destruct (scheduler_keeps_run_sound executing_run lease_key (0, 0)%Z queued_state 1 started_state)
    as (Hi & Ha & _); [exact queued_state_inv|vm_compute; discriminate|exact started_steps|].
  split; [exact Hi|exact Ha].
Defined.

Lemma dispatches_are_bounded_witness :
  sched_steps executing_run lease_key queued_state 1 started_state /\
  (1 <= total (fun x => RetryPolicy.max_attempts (Task.retry_policy x)) queued_tasks -
        total Task.attempt queued_tasks)%Z.
Proof.
  split; [exact started_steps|].
  apply (dispatches_are_bounded executing_run lease_key (0, 0)%Z queued_state 1 started_state);
    [exact queued_state_inv| |exact started_steps].
  intros x [->|[->|[]%elem_of_nil]%elem_of_cons]%elem_of_cons; split; vm_compute; done.
Defined.
