(* ===== verification/SchedSafety.v ===== *)
(** * What the scheduler dispatches, reaps and accepts

    The safety of a dispatch, the effect of reaping, the decisions that
    membership validation and the evidence gate make. *)
From S2P Require Import Prelude PyStr PyDict Json Sha256 DateTime Enums.
From S2P Require Import Models Digests DigestFacts TaskGraph ModelFacts Scheduler SchedInv LeaseFacts.
From S2P Require Import SchedSteps SchedRun Fixtures.

Local Open Scope string_scope.

(** ** Eligibility *)

Record ready (x : Task.t) (T : dict Task.t) : Prop := {
  rd_state : waiting_state (Task.state x) = true;
  rd_dependencies : forall i, i ∈ Task.dependencies x ->
    exists y, T !! i = Some y /\ Task.state y = TaskState.SUCCEEDED;
  rd_waves : forall y, y ∈ dict_values T -> (Task.wave y < Task.wave x)%Z ->
    Task.state y ∈ [TaskState.SUCCEEDED; TaskState.CANCELLED];
}.

Lemma is_eligible_ready x T at_ : is_eligible x T at_ = Ok true -> ready x T.
Proof.
  unfold is_eligible. destruct (negb _) eqn:Es; [done|].
  apply negb_false_iff, bool_decide_eq_true in Es. intros H.
  apply bind_Ok in H as (next & _ & H). destruct (opt_bad _ _); [done|].
  apply bind_Ok in H as ([] & Hd & H); [done|]. apply Ok_inj in H. rewrite forallb_elem in H.
  constructor.
  - unfold waiting_state. apply bool_decide_eq_true. destruct (Task.state x); set_solver.
  - intros i Hi. pose proof (anyM_false _ _ Hd i Hi) as Hf. cbn beta in Hf.
    apply bind_Ok in Hf as (y & Hy%dict_getitem_Ok & Hf). exists y. split; [exact Hy|].
    apply Ok_inj, negb_false_iff, bool_decide_eq_true in Hf. exact Hf.
  - intros y Hy Hw. specialize (H y Hy). apply negb_true_iff, andb_false_iff in H as [H|H].
    + apply Z.ltb_ge in H. lia.
    + by apply negb_false_iff, bool_decide_eq_true in H.
Qed.

(** The agent can do the task and was not ruled out. *)
Record suited (x : Task.t) (excluded : list string) (a : Agent.t) : Prop := {
  su_capabilities : forall c, c ∈ Task.required_capabilities x -> c ∈ Agent.capabilities a;
  su_class : forall cls, Task.required_agent_class x = Some cls -> Agent.agent_class a = cls;
  su_excluded : (Agent.id a ∉ Task.excluded_agent_ids x) /\ (Agent.id a ∉ excluded);
}.

Lemma compatible_suited x excluded a : compatible x excluded a = true <-> suited x excluded a.
Proof.
  unfold compatible. rewrite !andb_true_iff, str_subset_elem, negb_true_iff.
  unfold str_in. rewrite bool_decide_eq_false, elem_of_app. split.
  - intros [[H1 H2] H3]. constructor; [done| |tauto].
    intros cls Hc. rewrite Hc in H2. by apply bool_decide_eq_true in H2.
  - intros [H1 H2 H3]. split_and!; [done| |tauto].
    destruct (Task.required_agent_class x) as [cls|]; [|done].
    apply bool_decide_eq_true. by apply H2.
Qed.

Lemma best_agent_suited x l excluded a :
  best_agent x l excluded = Some a -> a ∈ l /\ suited x excluded a.
Proof.
  unfold best_agent. intros [Ha _]%min_on_Some. apply list_elem_of_filter in Ha as [Hc Ha].
  split; [exact Ha|by apply compatible_suited].
Qed.

(** ** The tasks while the loop dispatches *)

(** A task is as it was, or it was waiting and is now leased. *)
Definition leased_from (x y : Task.t) : Prop :=
  y = x \/ waiting_state (Task.state x) = true /\ exists l, y = with_lease x l.
Definition framed (T T' : dict Task.t) : Prop :=
  forall i, option_Forall2 leased_from (T !! i) (T' !! i).

Lemma framed_insert T T' x l :
  framed T T' -> T !! Task.id x = Some x -> waiting_state (Task.state x) = true ->
  framed T (<[Task.id x := with_lease x l]> T').
Proof.
  intros Hf Hx Hw i. rewrite dict_lookup_insert. destruct (decide (Task.id x = i)) as [<-|].
  - rewrite Hx. constructor. right. split; [exact Hw|by exists l].
  - apply Hf.
Qed.

(** Who completed a task does not change while the loop runs. *)
Lemma completers_framed T T' reviewed :
  framed T T' -> completers T' reviewed = completers T reviewed.
Proof.
  intros Hf. induction reviewed as [|i l IH]; [done|]. cbn [completers]. rewrite IH.
  unfold dict_getitem. specialize (Hf i). inversion Hf as [x y Hxy E1 E2|E1 E2]; [|done].
  assert (Task.completed_by_agent_id y = Task.completed_by_agent_id x) as E
    by (destruct Hxy as [->|(_ & l' & ->)]; reflexivity).
  cbn [bind]. by rewrite E.
Qed.

Lemma completers_Some T reviewed excluded i :
  completers T reviewed = Ok (Some excluded) -> i ∈ reviewed ->
  exists y c, T !! i = Some y /\ Task.completed_by_agent_id y = Some c /\ c ∈ excluded.
Proof.
  revert excluded. induction reviewed as [|j l IH]; intros excluded H Hi; [by inversion Hi|].
  cbn [completers] in H. apply bind_Ok in H as (y & Hy%dict_getitem_Ok & H).
  destruct (Task.completed_by_agent_id y) as [c|] eqn:Ec; [|done].
  apply bind_Ok in H as ([others|] & Ho & H); apply Ok_inj in H; [|done].
  injection H as <-. apply elem_of_cons in Hi as [->|Hi].
  - exists y, c. split; [done|]. split; [done|]. by left.
  - destruct (IH others Ho Hi) as (y' & c' & ? & ? & ?). exists y', c'. split_and!; [done|done|by right].
Qed.

(** How dispatch [d] was made, from the tasks [T] before the loop. *)
Record placed (T : dict Task.t) (at_ : datetime) (st : dispatch_state) (d : Dispatch.t)
    (x : Task.t) (a : Agent.t) (excluded : list string) : Prop := {
  pl_ids : Task.id x = Dispatch.task_id d /\ Agent.id a = Dispatch.agent_id d;
  pl_task : T !! Dispatch.task_id d = Some x;
  pl_leased : ds_tasks st !! Dispatch.task_id d = Some (with_lease x (Dispatch.lease d));
  pl_agent : ds_agents st !! Dispatch.agent_id d = Some (with_task a (Dispatch.task_id d) at_);
  pl_ready : ready x T;
  pl_completers : completers T (Task.reviewed_task_ids x) = Ok (Some excluded);
  pl_suited : suited x excluded a;
  pl_bindings : bindings_complete x = true;
}.

Record dispatch_trace (rid : string) (extra : Z * Z) (n : nat) (slots : Z) (at_ : datetime)
    (T : dict Task.t) (st : dispatch_state) (l : list Task.t) : Prop := {
  dt_inv : dispatch_inv rid extra n slots st l;
  dt_queue : forall x, x ∈ l -> T !! Task.id x = Some x /\ ready x T;
  dt_framed : framed T (ds_tasks st);
  dt_placed : forall d, d ∈ ds_dispatches st -> exists x a excluded, placed T at_ st d x a excluded;
  dt_agents : NoDup (Dispatch.agent_id <$> ds_dispatches st);
  dt_tasks : NoDup (Dispatch.task_id <$> ds_dispatches st);
}.

Lemma dispatched_trace rid extra n slots run at_ key secs T st x a l st' rest :
  dispatch_trace rid extra n slots at_ T st (x :: rest) ->
  (Z.of_nat (length (ds_dispatches st)) < slots)%Z ->
  dispatched run at_ key secs st x a l st' ->
  dispatch_trace rid extra n slots at_ T st' rest.
Proof.
  intros [Hinv Hq Hf Hp Hda Hdt] Hlt Hs.
  destruct (dispatched_free _ _ _ _ _ _ _ _ _ _ _ _ _ _ Hinv Hs) as (Hx & Ha & Hin & Hxf & Haf).
  pose proof (dispatched_inv _ _ _ _ _ _ _ _ _ _ _ _ _ _ Hinv Hlt Hs) as Hinv'.
  destruct (Hq x) as [HxT Hr]; [by left|].
  destruct Hs as [(excluded & Hex & [_ Hsu]%best_agent_suited) Hbi _ _ _ _ Ht' Ha' _ Hd' _].
  assert (forall d, d ∈ ds_dispatches st ->
    Dispatch.task_id d <> Task.id x /\ Dispatch.agent_id d <> Agent.id a) as Hnew.
  { intros d Hd. destruct (Hp d Hd) as (x0 & a0 & ex0 & Hpl). split; intros E.
    - pose proof (pl_leased _ _ _ _ _ _ _ Hpl) as Hl. rewrite E, Hx in Hl. injection Hl as Hl.
      by rewrite Hl in Hxf.
    - pose proof (pl_agent _ _ _ _ _ _ _ Hpl) as Hl. rewrite E, Ha in Hl. injection Hl as Hl.
      by rewrite Hl in Haf. }
  constructor; [exact Hinv'| | | | |].
  - intros y Hy. apply Hq. by right.
  - rewrite Ht'. by apply framed_insert; [| |apply Hr].
  - rewrite Hd'. intros d [Hd|Hd]%elem_of_app.
    + destruct (Hnew d Hd) as [Hne1 Hne2]. destruct (Hp d Hd) as (x0 & a0 & ex0 & [? ? H1 H2 ? ? ? ?]).
      exists x0, a0, ex0. constructor; try assumption; cbn [ds_tasks ds_agents].
      * by rewrite Ht', dict_lookup_insert, decide_False by done.
      * by rewrite Ha', dict_lookup_insert, decide_False by done.
    + apply list_elem_of_singleton in Hd as ->. exists x, a, excluded.
      constructor; cbn [Dispatch.task_id Dispatch.agent_id Dispatch.lease]; try assumption.
      * done.
      * by rewrite Ht', dict_lookup_insert, decide_True.
      * by rewrite Ha', dict_lookup_insert, decide_True.
      * by rewrite <- (completers_framed T (ds_tasks st)).
  - rewrite Hd'. apply NoDup_fmap_snoc; [exact Hda|]. intros d Hd. by apply Hnew.
  - rewrite Hd'. apply NoDup_fmap_snoc; [exact Hdt|]. intros d Hd. by apply Hnew.
Qed.

Lemma dispatch_step_trace rid extra n slots run at_ key secs T st x st' rest :
  dispatch_trace rid extra n slots at_ T st (x :: rest) ->
  dispatch_step run at_ key secs slots st x = Ok st' ->
  dispatch_trace rid extra n slots at_ T st' rest.
Proof.
  intros Hd H. pose proof H as Hstep.
  apply dispatch_step_cases in H as [(a & l & Hlt & Hs)|[deferred ->]].
  - by eapply dispatched_trace.
  - destruct Hd as [Hinv Hq Hf Hp Hda Hdt]. constructor; try assumption.
    + by eapply dispatch_step_inv.
    + intros y Hy. apply Hq. by right.
    + intros d Hd. destruct (Hp d Hd) as (x0 & a0 & ex0 & [? ? ? ? ? ? ? ?]).
      by exists x0, a0, ex0.
Qed.

(** ** The dispatches of a result *)

(** Dispatch [d] of the result [r], on the records of [r]. *)
Record safe_dispatch (r : ScheduleResult.t) (d : Dispatch.t) (x : Task.t) (a : Agent.t) : Prop := {
  sd_ids : Task.id x = Dispatch.task_id d /\ Agent.id a = Dispatch.agent_id d;
  sd_lease : Task.state x = TaskState.LEASED /\ Task.lease x = Some (Dispatch.lease d);
  sd_agent : Agent.state a = AgentState.LEASED /\ Agent.current_task_id a = Some (Task.id x);
  sd_dependencies : forall i, i ∈ Task.dependencies x ->
    exists y, y ∈ ScheduleResult.tasks r /\ Task.id y = i /\ Task.state y = TaskState.SUCCEEDED;
  sd_waves : forall y, y ∈ ScheduleResult.tasks r -> (Task.wave y < Task.wave x)%Z ->
    Task.state y ∈ [TaskState.SUCCEEDED; TaskState.CANCELLED];
  sd_suited : suited x [] a;
  sd_reviewed : forall i, i ∈ Task.reviewed_task_ids x ->
    i ∈ Task.binding_task_ids x /\
    exists y c, y ∈ ScheduleResult.tasks r /\ Task.id y = i /\
      Task.completed_by_agent_id y = Some c /\ c <> Agent.id a;
}.

Lemma framed_result {T T' : dict Task.t} (Hf : framed T T') (Hk : keyed Task.id T') {i x} :
  T !! i = Some x ->
  exists y, y ∈ sorted_on task_seq (dict_values T') /\ Task.id y = i /\ leased_from x y.
Proof.
  intros Hx. pose proof (Hf i) as H. rewrite Hx in H. inversion H as [x0 y Hxy E1 E2|]; subst x0.
  exists y. symmetry in E2. destruct Hk as [Hw Hid]. split; [|split; [by apply Hid|exact Hxy]].
  rewrite elem_of_sorted_on. apply elem_of_dict_values; [exact Hw|]. eauto.
Qed.

Lemma leased_from_done x y :
  leased_from x y -> waiting_state (Task.state x) = false -> y = x.
Proof. intros [->|[Hw _]] H; [done|congruence]. Qed.

(** Review tasks name the results that they review. *)
Lemma bindings_complete_elem x i :
  bindings_complete x = true -> i ∈ Task.reviewed_task_ids x -> i ∈ Task.binding_task_ids x.
Proof.
  unfold bindings_complete. intros [H|H]%orb_true_iff Hi.
  - apply bool_decide_eq_true in H. rewrite H in Hi. by apply elem_of_nil in Hi.
  - unfold same_set in H. apply andb_true_iff in H as [_ H]. by eapply str_subset_elem.
Qed.

Lemma placed_safe T at_ st d x a excluded r :
  placed T at_ st d x a excluded -> framed T (ds_tasks st) ->
  keyed Task.id T -> keyed Task.id (ds_tasks st) ->
  ScheduleResult.tasks r = sorted_on task_seq (dict_values (ds_tasks st)) ->
  safe_dispatch r d (with_lease x (Dispatch.lease d)) (with_task a (Dispatch.task_id d) at_).
Proof.
  intros [Hids Hx Hl Ha [Hs Hdeps Hw] Hc [Hcap Hcls [Hex Hex']] Hb] Hf HkT Hk Hr.
  constructor; cbn; try done.
  - by rewrite <- (proj1 Hids).
  - intros i Hi. destruct (Hdeps i Hi) as (y & Hy & Hys).
    destruct (framed_result Hf Hk Hy) as (y' & Hy' & Hid & Hly). exists y'. rewrite Hr.
    apply leased_from_done in Hly; [|by rewrite Hys]. subst y'. done.
  - intros y. rewrite Hr, elem_of_sorted_on. intros Hy Hwave.
    apply (keyed_values_elem Task.id) in Hy; [|exact Hk]. pose proof (Hf (Task.id y)) as H.
    rewrite Hy in H. inversion H as [x0 y0 Hxy E1 E2|]; subst y0. symmetry in E1.
    assert (Task.wave y = Task.wave x0) as Ewave by (destruct Hxy as [->|(_ & l & ->)]; done).
    assert (Task.state x0 ∈ [TaskState.SUCCEEDED; TaskState.CANCELLED]) as Hst.
    { apply Hw; [|lia]. apply elem_of_dict_values; [apply HkT|eauto]. }
    apply leased_from_done in Hxy; [by rewrite Hxy|].
    apply elem_of_cons in Hst as [->|Hst]; [|apply list_elem_of_singleton in Hst as ->]; reflexivity.
  - constructor; [exact Hcap|exact Hcls|split; [exact Hex|by intros ?%elem_of_nil]].
  - intros i Hi. split; [by apply bindings_complete_elem|].
    destruct (completers_Some _ _ _ _ Hc Hi) as (y & c & Hy & Hyc & Hce).
    destruct (framed_result Hf Hk Hy) as (y' & Hy' & Hid & Hly). exists y', c. rewrite Hr.
    split_and!; [exact Hy'|exact Hid| |congruence].
    by destruct Hly as [->|(_ & l & ->)].
Qed.

(** Before the loop. *)
Lemma dispatch_start_trace rid extra slots at_ T A b queue :
  sched_inv rid extra T A b -> candidates T at_ = Ok queue -> (0 <= slots)%Z ->
  dispatch_trace rid extra (active_count (dict_values T)) slots at_ T
    (DispatchState T A b (filter (fun a => is_available a = true) (dict_values A)) [] []) queue.
Proof.
  intros Hinv Hq Hs. destruct (candidates_spec T at_ queue (si_task_keys _ _ _ _ _ Hinv) Hq)
    as (Hp & _ & Hin).
  constructor; simpl; try done.
  - constructor; simpl; try done; try lia.
    + intros x Hx. apply Hin in Hx as [Hx _]. by eapply eligible_free.
    + eapply free_agents_filter, si_agent_keys, Hinv.
  - intros x Hx. apply Hin in Hx as [[Hx He] _]. split; [exact Hx|by eapply is_eligible_ready].
  - intros i. destruct (T !! i); constructor. by left.
  - by intros d ?%elem_of_nil.
  - constructor.
  - constructor.
Qed.

Lemma dispatch_all_safe rid extra run T A b blocked at_ key secs r :
  sched_inv rid extra T A b -> dispatch_all run T A b blocked at_ key secs = Ok r ->
  NoDup (Dispatch.task_id <$> ScheduleResult.dispatches r) /\
  NoDup (Dispatch.agent_id <$> ScheduleResult.dispatches r) /\
  forall d, d ∈ ScheduleResult.dispatches r -> exists x a,
    x ∈ ScheduleResult.tasks r /\ a ∈ ScheduleResult.agents r /\ safe_dispatch r d x a.
Proof.
  intros Hinv H. unfold dispatch_all in H. cbv zeta in H.
  set (slots := Z.max 0 _) in H. destruct (slots =? 0)%Z eqn:Es.
  { apply Ok_inj in H. subst r. cbn. split; [constructor|]. split; [constructor|].
    by intros d ?%elem_of_nil. }
  apply Z.eqb_neq in Es. apply bind_Ok in H as (queue & Hq & H).
  apply bind_Ok in H as (st & Hloop & H). apply Ok_inj in H. subst r.
  pose proof (si_task_keys _ _ _ _ _ Hinv) as HkT.
  destruct (candidates_spec T at_ queue HkT Hq) as (Hp & _ & Hin).
  eapply (foldM_suffix (dispatch_trace rid extra (active_count (dict_values T)) slots at_ T)) in Hloop.
  - destruct Hloop as [Hdi _ Hf Hpl Hda Hdt]. pose proof (dv_inv _ _ _ _ _ _ Hdi) as Hinv'.
    pose proof (si_task_keys _ _ _ _ _ Hinv') as Hk. pose proof (si_agent_keys _ _ _ _ _ Hinv') as Hka.
    split; [exact Hdt|]. split; [exact Hda|]. intros d Hd.
    destruct (Hpl d Hd) as (x & a & excluded & Hplaced). eexists _, _. split_and!.
    + simpl. rewrite elem_of_sorted_on. apply elem_of_dict_values; [apply Hk|].
      exists (Dispatch.task_id d). apply Hplaced.
    + simpl. rewrite elem_of_sorted_on. apply elem_of_dict_values; [apply Hka|].
      exists (Dispatch.agent_id d). apply Hplaced.
    + by eapply placed_safe.
  - intros st1 x l st' Hd Hstep. by eapply dispatch_step_trace.
  - apply dispatch_start_trace; [exact Hinv|exact Hq|lia].
Qed.

(** ** Reaping *)

(** The lease of an active task has run out. *)
Definition overdue (now : datetime) (x : Task.t) : Prop :=
  Task.active_state (Task.state x) = true /\
  exists l, Task.lease x = Some l /\ (instant (Lease.expires_at l) <= instant now)%Z.

(** What reaping makes of task [x]. *)
Definition reaped (now : datetime) (x x' : Task.t) : Prop :=
  ~ overdue now x /\ x' = x \/
  overdue now x /\ Task.lease x' = None /\ Task.failure_code x' = Some "lease_expired" /\
  Task.attempt x' = Task.attempt x /\
  Task.state x' = (if (Task.attempt x <? RetryPolicy.max_attempts (Task.retry_policy x))%Z
                   then TaskState.RETRY_WAIT else TaskState.FAILED).

Lemma reap_step_cases now key T A b ex x st' :
  reap_step now key (T, A, b, ex) x = Ok st' ->
  ~ overdue now x /\ st' = (T, A, b, ex) \/
  overdue now x /\ exists x' A' b', reaped now x x' /\ Task.id x' = Task.id x /\
    st' = (<[Task.id x := x']> T, A', b', (ex ++ [Task.id x])%list).
Proof.
  unfold reap_step, overdue. destruct (Task.active_state (Task.state x)) eqn:Ea; cbn [negb].
  2:{ intros H%Ok_inj. left. split; [by intros [? _]|by symmetry]. }
  destruct (Task.lease x) as [l|] eqn:El; [|done]. destruct (A !! _) as [a|]; [|done].
  intros H. apply bind_Ok in H as (v & Hv%validate_lease_accepted & H).
  destruct (la_carried _ _ _ _ _ _ _ Hv) as (l0 & Hl0 & -> & _). rewrite El in Hl0.
  injection Hl0 as <-. cbn [Lease.expires_at] in H. unfold dt_lt in H. rewrite instant_utc in H.
  destruct (instant now <? instant (Lease.expires_at l))%Z eqn:Et.
  - apply Ok_inj in H. left. apply Z.ltb_lt in Et. split; [|by symmetry].
    intros (_ & l' & [= <-] & Hle). lia.
  - apply Z.ltb_ge in Et. right. split; [split; [done|by exists l]|].
    apply bind_Ok in H as (r & Hr & H). apply Ok_inj in H. subst st'.
    exists (CompletionResult.task r). eexists _, _. split; [|split; [|reflexivity]].
    + right. unfold overdue. split; [split; [done|by exists l]|].
      unfold fail_validated in Hr. apply seq_Ok in Hr as [_ Hr].
      apply bind_Ok in Hr as (n & _ & Hr). apply seq_Ok in Hr as [_ Hr].
      apply bind_Ok in Hr as (next & _ & Hr). apply bind_Ok in Hr as (settled & _ & Hr).
      apply bind_Ok in Hr as (x' & [_ ->]%task_new_Ok & Hr).
      apply bind_Ok in Hr as (a' & _ & Hr). apply Ok_inj in Hr. subst r. done.
    + by destruct (en_task _ _ _ _ (fail_validated_ended _ _ _ _ _ _ _ _ _ _ Hr)).
Qed.

(** After the tasks not in [l] were visited. *)
Definition reap_trace (now : datetime) (l0 : list Task.t) (st : reap_state) (l : list Task.t) : Prop :=
  let '(T, A, b, ex) := st in
  pending T l /\ keyed Task.id T /\
  (forall i, i ∈ ex <-> exists x, x ∈ l0 /\ (x ∉ l) /\ Task.id x = i /\ overdue now x) /\
  (forall x, x ∈ l0 -> x ∉ l -> exists x', T !! Task.id x = Some x' /\ reaped now x x').

Lemma reap_step_trace now key l0 st x l st' :
  NoDup (Task.id <$> l0) -> x ∈ l0 ->
  reap_trace now l0 st (x :: l) -> reap_step now key st x = Ok st' -> reap_trace now l0 st' l.
Proof.
  intros Hnd Hx0. destruct st as [[[T A] b] ex]. intros (Hp & Hk & Hex & Hdone) H.
  destruct (pending_next _ _ _ Hp) as [Hx Hp'].
  assert (x ∉ l) as Hxl.
  { destruct Hp as [Hn _]. rewrite fmap_cons, NoDup_cons in Hn. intros Hin.
    by apply Hn, list_elem_of_fmap_2. }
  assert (forall y, y ∈ l0 -> y ∉ l -> y = x \/ y ∉ x :: l) as Hsplit.
  { intros y Hy Hyl. destruct (decide (Task.id y = Task.id x)) as [E|E].
    - left. by apply (unique_by Task.id l0).
    - right. intros [->|?]%elem_of_cons; done. }
  apply reap_step_cases in H as [[Hno ->]|(Hov & x' & A' & b' & Hr & Hid & ->)].
  - split_and!; [done|done| |].
    + intros i. rewrite Hex. split; intros (y & Hy & Hyl & Hyi & Hyo); exists y.
      * split_and!; [done| |done|done]. intros ?. apply Hyl. by right.
      * destruct (Hsplit y Hy Hyl) as [->|]; done.
    + intros y Hy Hyl. destruct (Hsplit y Hy Hyl) as [->|]; [|by apply Hdone].
      exists x. split; [done|by left].
  - split_and!; [by apply pending_insert|by rewrite <- Hid; apply keyed_insert| |].
    + intros i. rewrite elem_of_app, list_elem_of_singleton, Hex. split.
      * intros [(y & Hy & Hyl & Hyi & Hyo)| ->]; [|by exists x].
        exists y. split_and!; [done| |done|done]. intros ?. apply Hyl. by right.
      * intros (y & Hy & Hyl & Hyi & Hyo).
        destruct (Hsplit y Hy Hyl) as [->|]; [by right|left; by exists y].
    + intros y Hy Hyl. rewrite dict_lookup_insert. destruct (Hsplit y Hy Hyl) as [->|Hyx].
      * rewrite decide_True by done. by exists x'.
      * rewrite decide_False; [by apply Hdone|]. intros E. apply Hyx.
        apply (unique_by Task.id l0) in E as ->; [by left|done|done|done].
Qed.

(** Reaping is exact: it ends the assignments whose lease has run out and no
    others.  The expired ids are those of the overdue tasks; each of them waits
    for a retry while its policy leaves an attempt and fails otherwise, without
    its lease and with the code [lease_expired]; every other task is untouched. *)
Theorem reaping_is_exact tasks agents b at_ key r :
  reap_expired_leases tasks agents b at_ key = Ok r ->
  (forall i, i ∈ ReapResult.expired_task_ids r <->
     exists x, x ∈ tasks /\ Task.id x = i /\ overdue at_ x) /\
  (forall x, x ∈ tasks -> exists x', x' ∈ ReapResult.tasks r /\ Task.id x' = Task.id x /\
     reaped at_ x x').
Proof.
  unfold reap_expired_leases. intros H. apply bind_Ok in H as (now & Hnow & H).
  apply snapshot_time_Ok in Hnow as (_ & _ & ->).
  apply seq_Ok in H as [_ H]. apply bind_Ok in H as (T & [Hnd ->]%index_unique_Ok & H).
  apply bind_Ok in H as (A & _ & H).
  apply bind_Ok in H as ([[[T' A'] b'] ex] & Hloop & H). apply Ok_inj in H. subst r. simpl.
  assert (keyed Task.id (dict_by Task.id tasks)) as Hk by (by apply dict_by_keyed).
  assert (forall x, overdue (utc_of at_) x <-> overdue at_ x) as Eo.
  { intros x. unfold overdue. by rewrite instant_utc. }
  eapply (foldM_suffix_in (reap_trace (utc_of at_) tasks)) in Hloop.
  - destruct Hloop as (_ & Hk' & Hex & Hdone). split.
    + intros i. rewrite Hex. setoid_rewrite Eo. split.
      * intros (x & ? & _ & ? & ?). by exists x.
      * intros (x & ? & ? & ?). exists x. split_and!; [done|by intros ?%elem_of_nil|done|done].
    + intros x Hx. destruct (Hdone x Hx) as (x' & Hx' & Hr); [by intros ?%elem_of_nil|].
      exists x'. split; [|split; [by apply Hk'|]].
      * rewrite elem_of_sorted_on. apply elem_of_dict_values; [apply Hk'|eauto].
      * unfold reaped in *. by rewrite Eo in Hr.
  - intros st x l st' Hx. rewrite elem_of_sorted_on, dict_by_values in Hx by done.
    by apply reap_step_trace.
  - split_and!; [by apply pending_sorted|done| |].
    + intros i. split; [by intros ?%elem_of_nil|]. intros (x & Hx & Hnx & _). destruct Hnx.
      by rewrite elem_of_sorted_on, dict_by_values.
    + intros x Hx Hnx. destruct Hnx. by rewrite elem_of_sorted_on, dict_by_values.
Qed.

(** ** The evidence gate *)

(** The check id under which an evidence record answers for a design check. *)
Definition check_key (e : Evidence.t) : option string :=
  if bool_decide (Evidence.kind e = EvidenceKind.DESIGN_CHECK) then Evidence.check_id e else None.
Definition check_complete (e : Evidence.t) : Prop :=
  Evidence.kind e = EvidenceKind.DESIGN_CHECK ->
  is_Some (Evidence.check_id e) /\ is_Some (Evidence.passed e).

Lemma collect_check_Ok d e d' :
  collect_check d e = Ok d' <->
  check_complete e /\
  match check_key e with None => d' = d | Some c => d !! c = None /\ d' = <[c := e]> d end.
Proof.
  unfold collect_check, check_complete, check_key. case_bool_decide as Hk; [|naive_solver].
  destruct (Evidence.check_id e) as [c|]; [|].
  2:{ split; [done|]. intros [H _]. by destruct (H Hk) as [[] _]. }
  destruct (Evidence.passed e) as [p|].
  2:{ split; [done|]. intros [H _]. by destruct (H Hk) as [_ []]. }
  rewrite seq_Ok, raise_if_Ok, bool_decide_eq_false.
  rewrite <- eq_None_not_Some. split.
  - intros [Hd <-%Ok_inj]. split; [eauto|done].
  - intros [_ [Hd ->]]. done.
Qed.

(** The loop collects the design checks of [l], which must be complete and
    have pairwise distinct ids. *)
Lemma collect_checks_Ok l d :
  (exists d', foldM collect_check d l = Ok d') <->
  (forall e, e ∈ l -> check_complete e) /\ NoDup (omap check_key l) /\
  (forall c, c ∈ omap check_key l -> d !! c = None).
Proof.
  revert d. induction l as [|e l IH]; intros d; simpl.
  { split; [|by eauto]. intros _. split_and!; [by intros ? ?%elem_of_nil|constructor|].
    by intros ? ?%elem_of_nil. }
  setoid_rewrite bind_Ok. split.
  - intros (d' & d1 & [Hc Hk]%collect_check_Ok & H).
    destruct (proj1 (IH d1)) as (Hl & Hnd & Hd); [by eauto|]. split.
    { intros y [->|Hy]%elem_of_cons; [done|by apply Hl]. }
    destruct (check_key e) as [c|]; cbn; [|by subst d1].
    destruct Hk as [Hc' ->]. rewrite NoDup_cons. split_and!; [|done|].
    + intros Hin. specialize (Hd c Hin). by rewrite dict_lookup_insert, decide_True in Hd.
    + intros c' [->|Hin]%elem_of_cons; [done|]. specialize (Hd c' Hin).
      rewrite dict_lookup_insert in Hd. by case_decide.
  - intros (Hl & Hnd & Hd). pose (d1 := match check_key e with None => d | Some c => <[c:=e]> d end).
    destruct (proj2 (IH d1)) as [d' Hd'].
    + split_and!; [intros y Hy; apply Hl; by right| |].
      * destruct (check_key e); [by apply NoDup_cons in Hnd as []|done].
      * intros c Hc. unfold d1. destruct (check_key e) as [c0|]; cbn in *; [|by apply Hd].
        apply NoDup_cons in Hnd as [Hn _]. rewrite dict_lookup_insert, decide_False by (by intros ->).
        apply Hd. by right.
    + exists d', d1. split; [|done]. apply collect_check_Ok. split; [apply Hl; by left|].
      unfold d1. destruct (check_key e) as [c|]; cbn in *; [|done]. split; [|done]. apply Hd. by left.
Qed.

(** What it collects. *)
Lemma collect_checks_lookup l d d' :
  foldM collect_check d l = Ok d' -> dict_wf d ->
  dict_wf d' /\
  forall c e, d' !! c = Some e <-> d !! c = Some e \/ e ∈ l /\ check_key e = Some c.
Proof.
  revert d. induction l as [|e l IH]; intros d H Hwf; simpl in H.
  { apply Ok_inj in H as ->. split; [done|]. intros c e. split; [by left|].
    by intros [|[?%elem_of_nil _]]. }
  apply bind_Ok in H as (d1 & [_ Hk]%collect_check_Ok & H).
  apply IH in H as [Hwf' H]; [|destruct (check_key e); [destruct Hk as [_ ->]; by apply dict_insert_wf|by subst]].
  split; [done|]. intros c e'. rewrite H, elem_of_cons.
  destruct (check_key e) as [c0|] eqn:Ek; [|subst d1; naive_solver].
  destruct Hk as [Hn ->]. rewrite dict_lookup_insert. destruct (decide (c0 = c)) as [->|].
  - rewrite Hn. naive_solver.
  - naive_solver.
Qed.

(** The evidence that completes task [x]. *)
Record evidence_accepted (x : Task.t) (evidence : list Evidence.t) : Prop := {
  ea_some : evidence <> [];
  ea_ids : NoDup (Evidence.id <$> evidence);
  ea_bound : forall e, e ∈ evidence ->
    Evidence.run_id e = Task.run_id x /\ Evidence.task_id e = Some (Task.id x);
  ea_once : NoDup (omap check_key evidence);
  ea_passed : forall e, e ∈ evidence -> Evidence.kind e = EvidenceKind.DESIGN_CHECK ->
    is_Some (Evidence.check_id e) /\ Evidence.passed e = Some true;
  ea_required : forall q, q ∈ Task.required_checks x -> exists e, e ∈ evidence /\
    check_key e = Some (CheckRequirement.check_id q) /\
    Evidence.source e = CheckRequirement.source q /\
    Evidence.policy_digest e = Some (CheckRequirement.policy_digest q);
}.

Lemma sorted_strs_nil l : sorted_strs l = [] <-> l = [].
Proof.
  unfold sorted_strs. split; [|by intros ->]. intros H. apply Permutation_nil.
  rewrite <- H. apply sorted_on_Permutation.
Qed.

Lemma check_requirement_Ok d q e :
  d !! CheckRequirement.check_id q = Some e ->
  check_requirement d (CheckRequirement.check_id q, q) = Ok tt <->
  Evidence.source e = CheckRequirement.source q /\
  Evidence.policy_digest e = Some (CheckRequirement.policy_digest q).
Proof.
  intros He. unfold check_requirement, dict_getitem. rewrite He. cbn [bind].
  rewrite raise_first_Ok, !Forall_cons. cbn [fst].
  rewrite !negb_false_iff, !bool_decide_eq_true. naive_solver.
Qed.

(** The checks of [validate_evidence], one by one. *)
Lemma validate_evidence_Ok x evidence ev :
  validate_evidence x evidence = Ok ev <->
  (evidence <> [] /\ NoDup (Evidence.id <$> evidence) /\
   forall e, e ∈ evidence ->
     Evidence.run_id e = Task.run_id x /\ Evidence.task_id e = Some (Task.id x)) /\
  exists d, foldM collect_check ∅ evidence = Ok d /\
    (forall kv, kv ∈ dict_items d -> Evidence.passed kv.2 = Some true) /\
    (forall k, k ∈ dict_keys (dict_by CheckRequirement.check_id (Task.required_checks x)) ->
       d !! k <> None) /\
    (forall kq, kq ∈ dict_items (dict_by CheckRequirement.check_id (Task.required_checks x)) ->
       check_requirement d kq = Ok tt) /\ ev = evidence.
Proof.
  unfold validate_evidence. rewrite seq_Ok, raise_first_Ok, !Forall_cons, bind_Ok. cbn [fst].
  rewrite bool_decide_eq_false, no_duplicates, existsb_Forall, Forall_forall. cbn beta.
  setoid_rewrite orb_false_iff. setoid_rewrite negb_false_iff.
  setoid_rewrite bool_decide_eq_true.
  assert (forall A B C : Prop, A /\ B /\ C /\ Forall (fun ce : bool * exn => ce.1 = false) [] <->
    A /\ B /\ C) as E by (intros; rewrite Forall_nil; tauto). rewrite E. clear E.
  apply and_iff_compat_l. split; intros (d & Hd & H); exists d; (split; [exact Hd|]).
  - rewrite !seq_Ok, !raise_if_Ok, !negb_false_iff, !bool_decide_eq_true, !sorted_strs_nil in H.
    destruct H as (H1%fmap_nil_inv & H2 & H3%forM_Ok & H4%Ok_inj).
    rewrite filter_nil_iff in H1. rewrite filter_nil_iff in H2. rewrite Forall_forall in H3.
    split_and!; [|exact H2|exact H3|by symmetry].
    intros kv Hkv. by apply dec_stable, H1.
  - destruct H as (H1 & H2 & H3 & ->).
    rewrite !seq_Ok, !raise_if_Ok, !negb_false_iff, !bool_decide_eq_true, !sorted_strs_nil.
    split_and!; [|by apply filter_nil_iff|by apply forM_Ok, Forall_forall|done].
    match goal with |- fst <$> ?l = [] => assert (l = []) as ->; [|done] end.
    apply filter_nil_iff. intros kv Hkv Hn. by apply Hn, H1.
Qed.

Lemma evidence_gate_sound x evidence ev :
  task_valid x -> validate_evidence x evidence = Ok ev ->
  ev = evidence /\ evidence_accepted x evidence.
Proof.
  intros Hx%task_valid_facts%tf_checks H.
  apply validate_evidence_Ok in H as [(Hne & Hids & Hb) (d & Hd & Hp & Hm & Hr & ->)].
  destruct (proj1 (collect_checks_Ok evidence ∅)) as (Hc & Ho & _); [by eauto|].
  destruct (collect_checks_lookup _ _ _ Hd) as [Hwf Hl]; [constructor|].
  split; [done|]. constructor; try done.
  - intros e He Hk. destruct (Hc e He Hk) as [[c Hcid] _]. split; [by eexists|].
    apply (Hp (c, e)). apply assoc_get_elem; [exact Hwf|].
    apply Hl. right. split; [done|]. unfold check_key. by rewrite bool_decide_eq_true_2.
  - intros q Hq. set (i := CheckRequirement.check_id q).
    assert (dict_by CheckRequirement.check_id (Task.required_checks x) !! i = Some q) as Hqi
      by (by apply dict_by_lookup).
    destruct (d !! i) as [e|] eqn:Ee.
    2:{ exfalso. eapply Hm; [|exact Ee]. apply elem_of_dict_keys. eauto. }
    destruct (proj1 (Hl i e) Ee) as [|[He Hk]]; [done|]. exists e. split; [done|]. split; [done|].
    apply (check_requirement_Ok d q e Ee), Hr.
    apply assoc_get_elem; [apply dict_of_pairs_wf|done].
Qed.

Lemma evidence_gate_complete x evidence :
  evidence_accepted x evidence -> validate_evidence x evidence = Ok evidence.
Proof.
  intros [Hne Hids Hb Ho Hp Hr]. apply validate_evidence_Ok. split; [done|].
  destruct (proj2 (collect_checks_Ok evidence ∅)) as [d Hd].
  { split_and!; [|done|by intros]. intros e He Hk. destruct (Hp e He Hk) as [? ->]. eauto. }
  destruct (collect_checks_lookup _ _ _ Hd) as [Hwf Hl]; [constructor|].
  assert (forall q, q ∈ Task.required_checks x -> exists e,
    d !! CheckRequirement.check_id q = Some e /\
    check_requirement d (CheckRequirement.check_id q, q) = Ok tt) as Hreq.
  { intros q Hq. destruct (Hr q Hq) as (e & He & Hk & Hs & Hpol). exists e.
    assert (d !! CheckRequirement.check_id q = Some e) as E by (apply Hl; by right).
    split; [done|]. by apply (check_requirement_Ok _ _ _ E). }
  exists d. split_and!; [done| | | |done].
  - intros [c e] Hin. apply assoc_get_elem in Hin; [|exact Hwf].
    destruct (proj1 (Hl c e) Hin) as [|[He Hk]]; [done|]. apply Hp; [done|].
    unfold check_key in Hk. by case_bool_decide.
  - intros k [q Hq]%elem_of_dict_keys.
    apply dict_by_elem in Hq as [Hq <-]. by destruct (Hreq q Hq) as (e & -> & _).
  - intros [k q] Hin. apply assoc_get_elem in Hin; [|apply dict_of_pairs_wf].
    apply (dict_by_elem CheckRequirement.check_id) in Hin as [Hq <-].
    by destruct (Hreq q Hq) as (e & _ & ?).
Qed.

(** ** Theorems *)

(** C14. Every dispatch is safe: [schedule] on sound records never leases a task
    or an agent twice, and each task it leases has all its dependencies
    succeeded, every task of an earlier wave succeeded or cancelled, an agent of
    the required class with the required capabilities that is not excluded, and,
    for a review, a binding for each reviewed task and a reviewer other than the
    agents that completed them. *)
Theorem dispatches_are_safe extra run tasks agents at_ key secs budget r :
  run_inv (Run.id run) extra tasks agents (default (Run.budget run) budget) ->
  schedule run tasks agents at_ key secs budget = Ok r ->
  NoDup (Dispatch.task_id <$> ScheduleResult.dispatches r) /\
  NoDup (Dispatch.agent_id <$> ScheduleResult.dispatches r) /\
  forall d, d ∈ ScheduleResult.dispatches r -> exists x a,
    x ∈ ScheduleResult.tasks r /\ a ∈ ScheduleResult.agents r /\ safe_dispatch r d x a.
Proof.
  intros Hinv H. destruct (schedule_phases _ _ _ _ _ _ _ _ _ Hinv H)
    as (now & T & A & b & blocked & _ & Hb & _ & Hd).
  by eapply dispatch_all_safe.
Qed.

(** The evidence gate: [validate_evidence] accepts exactly the evidence that
    is non-empty, has unique ids, is bound to the task and its run, carries at
    most one result per design check, all passed, and answers every required
    check from its source and under its policy; it returns what it accepts. *)
Theorem evidence_gate_decides x evidence ev :
  task_valid x ->
  validate_evidence x evidence = Ok ev <-> ev = evidence /\ evidence_accepted x evidence.
Proof.
  intros Hx. split; [by apply evidence_gate_sound|].
  intros [-> H]. by apply evidence_gate_complete.
Qed.

(** A task succeeds only by its lease holder, on evidence: after [succeed]
    the task was active and leased to this agent, the evidence passed the gate,
    the task is SUCCEEDED and names that evidence and that agent, the agent is
    free, and the budget paid the actual usage and gave the reservation back. *)
Theorem success_is_evidenced x a token key evidence b ut uc at_ r :
  task_valid x -> succeed x a token key evidence b ut uc at_ = Ok r ->
  task_link x = Some (Agent.id a) /\ evidence_accepted x evidence /\
  CompletionResult.task r = x <| Task.state := TaskState.SUCCEEDED |> <| Task.lease := None |>
    <| Task.result_evidence_ids := Evidence.id <$> evidence |>
    <| Task.completed_by_agent_id := Some (Agent.id a) |>
    <| Task.failure_code := None |> <| Task.failure_message := None |> /\
  Agent.active_state (Agent.state (CompletionResult.agent r)) = false /\
  Budget.tokens_reserved (CompletionResult.budget r) =
    (Budget.tokens_reserved b - Task.estimated_tokens x)%Z /\
  Budget.agent_dispatches_reserved (CompletionResult.budget r) =
    (Budget.agent_dispatches_reserved b - 1)%Z.
Proof.
  intros Hx H. apply succeed_ended in H as (_ & [_ _ _ Ha (u1 & u2 & Hs)] & Hl & Hev & _ & Ht).
  apply (evidence_gate_sound _ _ _ Hx) in Hev as [_ Hev]. apply settle_Ok in Hs as (_ & _ & _ & _ & _ & ->).
  split_and!; [exact Hl|exact Hev|exact Ht|exact Ha|reflexivity|reflexivity].
Qed.

(** Membership validation decides soundness: on valid records it succeeds
    exactly when ids are unique, all records belong to the run, and leases of
    active tasks and assignments of active agents are each other's inverse. *)
Theorem membership_decides run tasks agents :
  (forall x, x ∈ tasks -> task_valid x) -> (forall a, a ∈ agents -> agent_valid a) ->
  validate_membership run tasks agents = Ok tt <-> members (Run.id run) tasks agents.
Proof. exact (validate_membership_Ok run tasks agents). Qed.

(** ** Witnesses *)

Lemma dispatches_are_safe_witness :
  schedule executing_run queued_tasks free_agents_list (clock 10) lease_key 60
    (Some (Run.budget demo_run)) = Ok demo_scheduled /\
  Dispatch.task_id <$> ScheduleResult.dispatches demo_scheduled = ["design"] /\
  forall d, d ∈ ScheduleResult.dispatches demo_scheduled -> exists x a,
    x ∈ ScheduleResult.tasks demo_scheduled /\ a ∈ ScheduleResult.agents demo_scheduled /\
    safe_dispatch demo_scheduled d x a.
Proof.
  assert (schedule executing_run queued_tasks free_agents_list (clock 10) lease_key 60
    (Some (Run.budget demo_run)) = Ok demo_scheduled) as H by (vm_compute; reflexivity).
  split; [exact H|]. split; [vm_compute; reflexivity|].
  exact (proj2 (proj2 (dispatches_are_safe (0, 0)%Z executing_run _ _ _ _ _
    (Some (Run.budget demo_run)) _ queued_state_inv H))).
Defined.

Lemma reaping_is_exact_witness :
  exists r, reap_expired_leases (ScheduleResult.tasks demo_scheduled)
    (ScheduleResult.agents demo_scheduled) (ScheduleResult.budget demo_scheduled) (clock 70) lease_key
    = Ok r /\ ReapResult.expired_task_ids r = ["design"] /\
  exists x, x ∈ ScheduleResult.tasks demo_scheduled /\ Task.id x = "design" /\ overdue (clock 70) x.
Proof.
  pose (c := reap_expired_leases (ScheduleResult.tasks demo_scheduled)
    (ScheduleResult.agents demo_scheduled) (ScheduleResult.budget demo_scheduled) (clock 70) lease_key).
  pose (r := got (ReapResult.mk [] [] (Run.budget demo_run) []) c).
  assert (c = Ok r) as H by (vm_compute; reflexivity).
  assert (ReapResult.expired_task_ids r = ["design"]) as Hr by (vm_compute; reflexivity).
  exists r. split; [exact H|]. split; [exact Hr|].
  apply (proj1 (reaping_is_exact _ _ _ _ _ _ H)). rewrite Hr. apply elem_of_cons. by left.
Defined.

Lemma evidence_gate_decides_witness :
  task_valid design_task /\ evidence_accepted design_task [design_evidence].
Proof.
  assert (task_valid design_task) as Hv by (vm_compute; reflexivity).
  assert (validate_evidence design_task [design_evidence] = Ok [design_evidence]) as H
    by (vm_compute; reflexivity).
  split; [exact Hv|]. exact (proj2 (proj1 (evidence_gate_decides _ _ _ Hv) H)).
Defined.

Lemma success_is_evidenced_witness :
  succeed working_task working_agent working_token lease_key [design_evidence]
    (ScheduleResult.budget demo_scheduled) 40 2 (clock 20) = Ok demo_succeeded /\
  evidence_accepted working_task [design_evidence].
Proof.
  assert (succeed working_task working_agent working_token lease_key [design_evidence]
    (ScheduleResult.budget demo_scheduled) 40 2 (clock 20) = Ok demo_succeeded) as H
    by (vm_compute; reflexivity).
  assert (task_valid working_task) as Hv by (vm_compute; reflexivity).
  split; [exact H|].
  exact (proj1 (proj2 (success_is_evidenced _ _ _ _ _ _ _ _ _ _ Hv H))).
Defined.

Lemma membership_decides_witness : members "run_1" queued_tasks free_agents_list.
Proof.
  apply (membership_decides executing_run); [| |vm_compute; reflexivity].
  - intros x [->|[->|[]%elem_of_nil]%elem_of_cons]%elem_of_cons; vm_compute; reflexivity.
  - intros a [->|[->|[]%elem_of_nil]%elem_of_cons]%elem_of_cons; vm_compute; reflexivity.
Defined.
