(* ===== verification/SchedLive.v ===== *)
(** * What a pass of the scheduler achieves

    The scheduler reads sequences of tasks and agents; its result is the same
    for every order of them, and it leaves no work that it could do. *)
From S2P Require Import Prelude PyDict PyStr Sha256 Json DateTime Enums Models Digests DigestFacts TaskGraph Scheduler.
From S2P Require Import Fixtures ModelFacts SchedInv LeaseFacts SchedSteps SchedRun SchedSafety.

Local Open Scope string_scope.

(** ** The checks *)

#[export] Instance depends_proper : Proper ((≡ₚ) ==> eq ==> eq ==> iff) depends.
Proof.
  intros l1 l2 Hp a ? <- b ? <-. unfold depends. by setoid_rewrite Hp.
Qed.

Lemma acyclic_perm l1 l2 : l1 ≡ₚ l2 -> acyclic l1 -> acyclic l2.
Proof.
  intros Hp H a Ht. apply (H a). revert Ht. generalize a at 2 4. intros b.
  induction 1 as [x y Hxy|x y z Hxy _ IH]; [apply tc_once|eapply tc_l; [|exact IH]];
    by rewrite Hp.
Qed.

Lemma closed_graph_perm l1 l2 : l1 ≡ₚ l2 -> closed_graph l1 -> closed_graph l2.
Proof.
  intros Hp [Hn Hd]. split; [by rewrite <- Hp|]. intros t Ht b Hb. rewrite <- Hp in Ht.
  destruct (Hd t Ht b Hb) as (u & Hu & ?). exists u. by rewrite <- Hp.
Qed.

Lemma assert_acyclic_Ok tasks : assert_acyclic tasks = Ok tt <-> closed_graph tasks /\ acyclic tasks.
Proof.
  pose proof (assert_acyclic_cases tasks) as H. destruct (assert_acyclic tasks) as [[]|e]; [done|].
  split; [done|]. intros Hc. by destruct H as [_ []].
Qed.

Lemma assert_acyclic_perm l1 l2 :
  l1 ≡ₚ l2 -> assert_acyclic l1 = Ok tt -> assert_acyclic l2 = Ok tt.
Proof.
  intros Hp. rewrite !assert_acyclic_Ok. intros [Hc Ha].
  split; [by eapply closed_graph_perm|by eapply acyclic_perm].
Qed.

Lemma members_perm rid t1 t2 a1 a2 :
  t1 ≡ₚ t2 -> a1 ≡ₚ a2 -> members rid t1 a1 -> members rid t2 a2.
Proof.
  intros Ht Ha [Htn Han Hts Has Hm]. constructor.
  - by rewrite <- Ht.
  - by rewrite <- Ha.
  - intros x. rewrite <- Ht. apply Hts.
  - intros x. rewrite <- Ha. apply Has.
  - intros i j. pose proof (dict_by_perm Task.id _ _ Htn Ht) as E1.
    pose proof (dict_by_perm Agent.id _ _ Han Ha) as E2. rewrite <- (E1 i), <- (E2 j). apply Hm.
Qed.

(** ** Reaping *)

Definition reap_equiv (st1 st2 : reap_state) : Prop :=
  let '(T1, A1, b1, ex1) := st1 in
  let '(T2, A2, b2, ex2) := st2 in
  T1 ≡ T2 /\ A1 ≡ A2 /\ b1 = b2 /\ ex1 = ex2.

Lemma reap_step_equiv now key st1 st2 x st1' :
  reap_equiv st1 st2 -> reap_step now key st1 x = Ok st1' ->
  exists st2', reap_step now key st2 x = Ok st2' /\ reap_equiv st1' st2'.
Proof.
  destruct st1 as [[[T1 A1] b1] ex1], st2 as [[[T2 A2] b2] ex2]. intros (HT & HA & -> & ->).
  unfold reap_step. destruct (negb _); [intros <-%Ok_inj; by eexists|].
  destruct (Task.lease x) as [l|]; [|done]. rewrite <- (HA (Lease.agent_id l)).
  destruct (A1 !! Lease.agent_id l) as [a|]; [|done]. intros H.
  apply bind_Ok in H as (v & Hv & H). rewrite Hv. cbn [bind].
  destruct (dt_lt _ _); [apply Ok_inj in H; subst; by eexists|].
  apply bind_Ok in H as (r & Hr & H). rewrite Hr. cbn [bind]. apply Ok_inj in H. subst st1'.
  eexists. split; [reflexivity|]. split_and!; [by apply dict_insert_proper| |done|done].
  by apply dict_insert_proper.
Qed.

Lemma task_seq_id x y : task_seq x = task_seq y -> Task.id x = Task.id y.
Proof. by intros [= _ ->]. Qed.
Lemma task_order_id x y : task_order x = task_order y -> Task.id x = Task.id y.
Proof. by intros [= _ _ _ ->]. Qed.
Lemma agent_seq_id x y : agent_seq x = agent_seq y -> Agent.id x = Agent.id y.
Proof. by intros [= _ ->]. Qed.

Lemma reap_keyed now key st x st' :
  keyed Task.id st.1.1.1 /\ keyed Agent.id st.1.1.2 -> reap_step now key st x = Ok st' ->
  keyed Task.id st'.1.1.1 /\ keyed Agent.id st'.1.1.2.
Proof.
  destruct st as [[[T A] b] ex]. intros [HT HA]. unfold reap_step.
  destruct (negb _); [by intros <-%Ok_inj|].
  destruct (Task.lease x) as [l|]; [|done]. destruct (A !! Lease.agent_id l) as [a|]; [|done].
  intros H. apply bind_Ok in H as (v & Hv & H). destruct (dt_lt _ _); [by apply Ok_inj in H; subst|].
  apply bind_Ok in H as (r & Hr & H). apply Ok_inj in H. subst st'. simpl.
  destruct (fail_validated_ended _ _ _ _ _ _ _ _ _ _ Hr) as [(Hid & _) (Haid & _) _ _ _].
  rewrite <- Hid, <- Haid. split; by apply keyed_insert.
Qed.

Lemma reap_loop_keyed now key st l st' :
  keyed Task.id st.1.1.1 /\ keyed Agent.id st.1.1.2 -> foldM (reap_step now key) st l = Ok st' ->
  keyed Task.id st'.1.1.1 /\ keyed Agent.id st'.1.1.2.
Proof.
  intros Hk. apply (foldM_suffix (fun st _ => keyed Task.id st.1.1.1 /\ keyed Agent.id st.1.1.2));
    [|exact Hk].
  intros. by eapply reap_keyed.
Qed.

(** The loop on equivalent dictionaries, and the lists made of its result. *)
Lemma reap_loop_equiv now key T1 T2 A1 A2 b T A b' ex :
  keyed Task.id T1 -> keyed Task.id T2 -> keyed Agent.id A1 -> keyed Agent.id A2 ->
  T1 ≡ T2 -> A1 ≡ A2 ->
  foldM (reap_step now key) (T1, A1, b, []) (sorted_on task_order (dict_values T1)) =
    Ok (T, A, b', ex) ->
  exists T' A',
    foldM (reap_step now key) (T2, A2, b, []) (sorted_on task_order (dict_values T2)) =
      Ok (T', A', b', ex) /\
    sorted_on task_seq (dict_values T) = sorted_on task_seq (dict_values T') /\
    sorted_on agent_seq (dict_values A) = sorted_on agent_seq (dict_values A').
Proof.
  intros HT1 HT2 HA1 HA2 ET EA H.
  assert (reap_equiv (T1, A1, b, []) (T2, A2, b, [])) as E by done.
  destruct (foldM_equiv reap_equiv _ _ _ _ _
    (fun s1 s2 x s1' => reap_step_equiv now key s1 s2 x s1') E H) as (st2 & H2 & HR).
  destruct (reap_loop_keyed _ _ (T1, A1, b, []) _ _ (conj HT1 HA1) H) as [K1 K2].
  rewrite (sorted_values_equiv Task.id task_order T1 T2) in H2 by (done || apply task_order_id).
  destruct (reap_loop_keyed _ _ (T2, A2, b, []) _ _ (conj HT2 HA2) H2) as [K3 K4].
  destruct st2 as [[[T' A'] b1'] ex']. destruct HR as (ET' & EA' & <- & <-).
  exists T', A'. split_and!; [exact H2| |].
  - apply (sorted_values_equiv Task.id); [apply task_seq_id|done..].
  - apply (sorted_values_equiv Agent.id); [apply agent_seq_id|done..].
Qed.

Lemma reap_perm t1 t2 a1 a2 b at_ key r :
  t1 ≡ₚ t2 -> a1 ≡ₚ a2 ->
  reap_expired_leases t1 a1 b at_ key = Ok r -> reap_expired_leases t2 a2 b at_ key = Ok r.
Proof.
  intros Ht Ha H. unfold reap_expired_leases in *. apply bind_Ok in H as (now & Hnow & H).
  rewrite Hnow. cbn [bind]. apply seq_Ok in H as [Hkey H]. rewrite Hkey. cbn [bind].
  apply bind_Ok in H as (T1 & [Htn ->]%index_unique_Ok & H).
  apply bind_Ok in H as (A1 & [Han ->]%index_unique_Ok & H).
  pose proof Htn as Htn2. pose proof Han as Han2. rewrite Ht in Htn2. rewrite Ha in Han2.
  rewrite (proj2 (index_unique_Ok Task.id t2 _) (conj Htn2 eq_refl)).
  rewrite (proj2 (index_unique_Ok Agent.id a2 _) (conj Han2 eq_refl)).
  cbn [bind]. apply bind_Ok in H as ([[[T A] b1] ex] & Hloop & H).
  destruct (reap_loop_equiv _ _ _ (dict_by Task.id t2) _ (dict_by Agent.id a2) _ _ _ _ _
    (dict_by_keyed _ _ Htn) (dict_by_keyed _ _ Htn2) (dict_by_keyed _ _ Han) (dict_by_keyed _ _ Han2)
    (dict_by_perm _ _ _ Htn Ht) (dict_by_perm _ _ _ Han Ha) Hloop) as (T' & A' & -> & E1 & E2).
  cbn [bind]. by rewrite <- E1, <- E2.
Qed.

(** ** Scheduling *)

(** C17. Scheduling is deterministic in the records alone: for valid tasks and
    agents, the result of [schedule] (the records, budget, dispatches with
    their lease tokens, blocked and deferred ids) is the same for every order
    in which the caller lists the tasks and the agents. *)
Theorem schedule_ignores_input_order run t1 t2 a1 a2 at_ key secs budget r :
  (forall x, x ∈ t1 -> task_valid x) -> (forall a, a ∈ a1 -> agent_valid a) ->
  t1 ≡ₚ t2 -> a1 ≡ₚ a2 ->
  schedule run t1 a1 at_ key secs budget = Ok r <-> schedule run t2 a2 at_ key secs budget = Ok r.
Proof.
  enough (forall t1 t2 a1 a2, (forall x, x ∈ t1 -> task_valid x) ->
    (forall a, a ∈ a1 -> agent_valid a) -> t1 ≡ₚ t2 -> a1 ≡ₚ a2 ->
    schedule run t1 a1 at_ key secs budget = Ok r ->
    schedule run t2 a2 at_ key secs budget = Ok r) as Hone.
  { intros Hts Has Ht Ha. split; [by apply Hone|]. apply Hone; [| |by symmetry|by symmetry].
    - intros x. rewrite <- Ht. apply Hts.
    - intros x. rewrite <- Ha. apply Has. }
  clear t1 t2 a1 a2. intros t1 t2 a1 a2 Hts Has Ht Ha H. unfold schedule in *.
  apply bind_Ok in H as (now & Hnow & H). rewrite Hnow. cbn [bind].
  rewrite !seq_Ok in H. destruct H as (Hm & Hc & Hg & H). rewrite !seq_Ok.
  split_and!; [|exact Hc|by eapply assert_acyclic_perm|].
  - apply validate_membership_Ok; [intros x; rewrite <- Ht; apply Hts|intros x; rewrite <- Ha; apply Has|].
    eapply members_perm; [exact Ht|exact Ha|]. by apply validate_membership_Ok.
  - apply bind_Ok in H as (reaped & Hr & H). by rewrite (reap_perm _ _ _ _ _ _ _ _ Ht Ha Hr).
Qed.

Lemma schedule_ignores_input_order_witness :
  schedule executing_run (rev queued_tasks) (rev free_agents_list) (clock 10) lease_key 60 None =
    Ok demo_scheduled.
Proof.
  refine (proj1 (schedule_ignores_input_order executing_run queued_tasks (rev queued_tasks)
    free_agents_list (rev free_agents_list) (clock 10) lease_key 60 None demo_scheduled _ _ _ _) _).
  - intros x [->|[->|[]%elem_of_nil]%elem_of_cons]%elem_of_cons; vm_compute; reflexivity.
  - intros a [->|[->|[]%elem_of_nil]%elem_of_cons]%elem_of_cons; vm_compute; reflexivity.
  - apply Permutation_rev.
  - apply Permutation_rev.
  - vm_compute. reflexivity.
Defined.

(** * The scheduler leaves no work it could do

    After [schedule], an eligible task that is still waiting has a reason to
    wait: the run is at its concurrency limit, its review is not ready, no free
    agent suits it, or the budget deferred it. *)

(** ** Eligibility while the loop dispatches *)

Lemma framed_succeeded T T' i y :
  framed T T' -> T' !! i = Some y -> waiting_state (Task.state y) = false ->
  Task.active_state (Task.state y) = false -> T !! i = Some y.
Proof.
  intros Hf Hy Hw Ha. pose proof (Hf i) as H. rewrite Hy in H.
  inversion H as [x y0 Hxy E1 E2|]; subst y0. destruct Hxy as [->|(_ & l & ->)]; [done|].
  by simpl in Ha.
Qed.

(** A task that is eligible after some dispatches was eligible before them. *)
Lemma is_eligible_framed T T' x at_ :
  framed T T' -> keyed Task.id T -> keyed Task.id T' ->
  is_eligible x T' at_ = Ok true -> is_eligible x T at_ = Ok true.
Proof.
  intros Hf HT HT' H. unfold is_eligible in *. destruct (negb _); [done|].
  apply bind_Ok in H as (next & Hn & H). rewrite Hn. cbn [bind].
  destruct (opt_bad _ _); [done|]. apply bind_Ok in H as ([] & Hd & H); [done|].
  rewrite (anyM_total _ (fun _ => false)).
  - assert (existsb (fun _ : string => false) (Task.dependencies x) = false) as ->
      by (by apply existsb_Forall, Forall_forall).
    cbn [bind]. f_equal. apply Ok_inj in H. rewrite forallb_elem in H. apply forallb_elem.
    intros y Hy. apply (keyed_values_elem Task.id) in Hy; [|exact HT].
    pose proof (Hf (Task.id y)) as Hyf. rewrite Hy in Hyf.
    inversion Hyf as [y0 y' Hyy E1 E2|]; subst y0. symmetry in E2.
    specialize (H y'). destruct Hyy as [->|(Hw & l & ->)].
    + apply H. apply elem_of_dict_values; [apply HT'|eauto].
    + assert (with_lease y l ∈ dict_values T') as Hin
        by (apply elem_of_dict_values; [apply HT'|eauto]).
      specialize (H Hin). simpl in H. apply negb_true_iff, andb_false_iff in H as [H|H]; [|done].
      apply negb_true_iff, andb_false_iff. by left.
  - intros i Hi. pose proof (anyM_false _ _ Hd i Hi) as Hs. cbn beta in Hs.
    apply bind_Ok in Hs as (y & Hy%dict_getitem_Ok & Hs).
    pose proof (Ok_inj _ _ Hs) as Hst. apply negb_false_iff, bool_decide_eq_true in Hst.
    rewrite (proj2 (dict_getitem_Ok T i y)); [exact Hs|].
    by eapply framed_succeeded; [| |rewrite Hst|rewrite Hst].
Qed.

(** Two eligible tasks are of the same wave, so the wave barrier excludes none. *)
Lemma eligible_wave T at_ x y :
  keyed Task.id T -> eligible T at_ x -> eligible T at_ y -> (Task.wave x <= Task.wave y)%Z.
Proof.
  intros HT [Hx Hex%is_eligible_ready] [Hy Hey%is_eligible_ready].
  destruct (Z.le_gt_cases (Task.wave x) (Task.wave y)) as [|Hlt]; [done|].
  assert (y ∈ dict_values T) as Hin by (apply elem_of_dict_values; [apply HT|eauto]).
  pose proof (rd_waves _ _ Hex y Hin Hlt) as Hs. pose proof (rd_state _ _ Hey) as Hw.
  exfalso. destruct (Task.state y); try done; set_solver.
Qed.

(** ** Why a task is passed over *)

Definition refused (T : dict Task.t) (slots : Z) (st : dispatch_state) (x : Task.t) : Prop :=
  (slots <= Z.of_nat (length (ds_dispatches st)))%Z \/
  bindings_complete x = false \/
  completers T (Task.reviewed_task_ids x) = Ok None \/
  (exists excluded, completers T (Task.reviewed_task_ids x) = Ok (Some excluded) /\
     forall a, a ∈ ds_available st -> ~ suited x excluded a) \/
  Task.id x ∈ ds_deferred st.

(** The loop only uses up slots and agents, and only adds deferred ids. *)
Record uses (st st' : dispatch_state) : Prop := {
  us_dispatches : exists l, ds_dispatches st' = (ds_dispatches st ++ l)%list;
  us_available : forall a, a ∈ ds_available st' -> a ∈ ds_available st;
  us_deferred : forall i, i ∈ ds_deferred st -> i ∈ ds_deferred st';
}.

Lemma refused_uses T slots st st' x : uses st st' -> refused T slots st x -> refused T slots st' x.
Proof.
  intros [[l Hd] Ha Hf] [H|[H|[H|[(ex & Hex & Hn)|H]]]].
  - left. rewrite Hd, length_app. lia.
  - right. by left.
  - right. right. by left.
  - do 3 right. left. exists ex. split; [done|]. intros a Hin. by apply Hn, Ha.
  - do 4 right. by apply Hf.
Qed.

Lemma best_agent_None x l excluded :
  best_agent x l excluded = None -> forall a, a ∈ l -> ~ suited x excluded a.
Proof.
  unfold best_agent. intros H%min_on_None a Ha Hs%compatible_suited.
  assert (a ∈ filter (fun a => compatible x excluded a = true) l) as Hin
    by (by apply list_elem_of_filter).
  rewrite H in Hin. by apply elem_of_nil in Hin.
Qed.

Lemma remove_agent_sublist a l : sublist (remove_agent a l) l.
Proof.
  induction l as [|b l IH]; simpl; [done|]. case_bool_decide; [by apply sublist_cons|].
  by apply sublist_skip.
Qed.

(** A step dispatches the task or refuses it. *)
Lemma dispatch_step_outcome run at_ key secs slots T st x st' :
  framed T (ds_tasks st) -> dispatch_step run at_ key secs slots st x = Ok st' ->
  uses st st' /\
  ((exists d, ds_dispatches st' = (ds_dispatches st ++ [d])%list /\ Dispatch.task_id d = Task.id x) \/
   refused T slots st' x).
Proof.
  intros Hf H. pose proof H as Hcases. unfold dispatch_step in H.
  assert (uses st st) as Hrefl by (constructor; [exists []; by rewrite app_nil_r|done|done]).
  destruct (slots <=? _)%Z eqn:Es.
  { apply Ok_inj in H. subst st'. split; [done|]. right. left. by apply Z.leb_le. }
  destruct (bindings_complete x) eqn:Eb; cbn [negb] in H.
  2:{ apply Ok_inj in H. subst st'. split; [done|]. right. right. by left. }
  apply bind_Ok in H as (excluded & Hex & H). rewrite (completers_framed T _ _ Hf) in Hex.
  destruct excluded as [excluded|].
  2:{ apply Ok_inj in H. subst st'. split; [done|]. right. do 2 right. by left. }
  destruct (best_agent x (ds_available st) excluded) as [a|] eqn:Ea.
  2:{ apply Ok_inj in H. subst st'. split; [done|]. right. do 3 right. left. exists excluded.
      split; [done|]. by apply best_agent_None. }
  destruct (Budget.reserve _ _ _ _) as [reserved|e] eqn:Er.
  2:{ destruct (is_a _ _); [|done]. apply Ok_inj in H. subst st'. split.
      - constructor; cbn; [exists []; by rewrite app_nil_r|done|]. intros i Hi. apply elem_of_app. by left.
      - right. do 4 right. cbn. apply elem_of_app. right. by left. }
  apply dispatch_step_cases in Hcases as [(a' & l & _ & Hs)|[deferred E]].
  - destruct Hs as [_ _ _ _ _ _ _ _ Hav Hd Hdef]. split.
    + constructor; [by eexists| |by rewrite Hdef]. intros b. rewrite Hav. intros Hb.
      eapply elem_of_sublist; [exact Hb|apply remove_agent_sublist].
    + left. eexists. split; [exact Hd|done].
  - apply bind_Ok in H as (l & _ & H). apply bind_Ok in H as (x' & _ & H).
    apply bind_Ok in H as (a' & _ & H). apply Ok_inj in H. subst st'. injection E as _ _ _ _ E _.
    exfalso. apply (f_equal length) in E. rewrite length_app in E. simpl in E. lia.
Qed.

(** ** The loop *)

(** Free agents of the records are the available ones. *)
Definition all_free (A : dict Agent.t) (l : list Agent.t) : Prop :=
  forall a, A !! Agent.id a = Some a -> is_available a = true -> a ∈ l.

Lemma all_free_dispatched rid extra n slots run at_ key secs st x a l st' rest :
  dispatch_inv rid extra n slots st (x :: rest) -> dispatched run at_ key secs st x a l st' ->
  all_free (ds_agents st) (ds_available st) -> all_free (ds_agents st') (ds_available st').
Proof.
  intros Hinv Hs Hfree b Hb Hav.
  destruct (dispatched_free _ _ _ _ _ _ _ _ _ _ _ _ _ _ Hinv Hs) as (_ & _ & Hin & _ & _).
  rewrite (di_available _ _ _ _ _ _ _ _ _ Hs). rewrite (di_agents _ _ _ _ _ _ _ _ _ Hs) in Hb.
  rewrite dict_lookup_insert in Hb. destruct (decide (Agent.id a = Agent.id b)) as [E|E].
  - injection Hb as <-. done.
  - apply remove_agent_elem; [apply (dv_available _ _ _ _ _ _ Hinv)|exact Hin|].
    split; [by apply Hfree|congruence].
Qed.

(** What holds once the tasks of [queue] that are not in [l] were visited. *)
Record live_trace (rid : string) (extra : Z * Z) (n : nat) (slots : Z) (at_ : datetime)
    (T : dict Task.t) (queue : list Task.t) (st : dispatch_state) (l : list Task.t) : Prop := {
  lt_trace : dispatch_trace rid extra n slots at_ T st l;
  lt_free : all_free (ds_agents st) (ds_available st);
  lt_done : forall x, x ∈ queue -> x ∉ l ->
    Task.id x ∈ Dispatch.task_id <$> ds_dispatches st \/ refused T slots st x;
}.

Lemma dispatch_step_live rid extra n slots run at_ key secs T queue st x st' rest :
  live_trace rid extra n slots at_ T queue st (x :: rest) ->
  dispatch_step run at_ key secs slots st x = Ok st' ->
  live_trace rid extra n slots at_ T queue st' rest.
Proof.
  intros [Htr Hfree Hdone] H.
  pose proof (dispatch_step_outcome _ _ _ _ _ T _ _ _ (dt_framed _ _ _ _ _ _ _ _ Htr) H) as [Hu Ho].
  constructor.
  - by eapply dispatch_step_trace.
  - apply dispatch_step_cases in H as [(a & l & _ & Hs)|[deferred ->]]; [|done].
    eapply all_free_dispatched; [apply (dt_inv _ _ _ _ _ _ _ _ Htr)|exact Hs|exact Hfree].
  - intros y Hy Hyr. destruct (decide (y = x)) as [->|Hne].
    + destruct Ho as [(d & Hd & Hid)|Hr]; [left|by right].
      rewrite Hd, fmap_app, <- Hid. apply elem_of_app. right. by left.
    + destruct (Hdone y Hy) as [Hd|Hd]; [by intros [|]%elem_of_cons|left|right].
      * destruct (us_dispatches _ _ Hu) as [l ->]. rewrite fmap_app. apply elem_of_app. by left.
      * by eapply refused_uses.
Qed.

(** Why task [x] waits in the result [r] of [schedule]. *)
Definition has_reason (run : Run.t) (r : ScheduleResult.t) (x : Task.t) : Prop :=
  (Run.max_concurrency run <= Z.of_nat (active_count (ScheduleResult.tasks r)))%Z \/
  bindings_complete x = false \/
  completers (dict_by Task.id (ScheduleResult.tasks r)) (Task.reviewed_task_ids x) = Ok None \/
  (exists excluded,
     completers (dict_by Task.id (ScheduleResult.tasks r)) (Task.reviewed_task_ids x) =
       Ok (Some excluded) /\
     forall a, a ∈ ScheduleResult.agents r -> is_available a = true -> ~ suited x excluded a) \/
  Task.id x ∈ ScheduleResult.budget_deferred_task_ids r.

(** Everything a lookup-based function sees in a result. *)
Lemma completers_equiv T T' reviewed : T ≡ T' -> completers T reviewed = completers T' reviewed.
Proof.
  intros E. induction reviewed as [|i l IH]; [done|]. cbn [completers]. rewrite IH.
  unfold dict_getitem. by rewrite (E i).
Qed.

Lemma is_eligible_equiv T T' x at_ :
  keyed Task.id T -> keyed Task.id T' -> T ≡ T' ->
  is_eligible x T at_ = Ok true -> is_eligible x T' at_ = Ok true.
Proof.
  intros HT HT' E. apply is_eligible_framed; [|done|done]. intros i. rewrite (E i).
  destruct (T' !! i); constructor. by left.
Qed.

Lemma all_free_start (A : dict Agent.t) :
  keyed Agent.id A -> all_free A (filter (fun a => is_available a = true) (dict_values A)).
Proof.
  intros HA a Ha Hav. apply list_elem_of_filter. split; [exact Hav|].
  by apply (keyed_values_elem Agent.id).
Qed.

(** A queued task that the finished loop did not dispatch. *)
Lemma refused_reason rid extra n slots at_ T run st blocked x :
  dispatch_trace rid extra n slots at_ T st [] -> all_free (ds_agents st) (ds_available st) ->
  slots = Z.max 0 (Run.max_concurrency run - Z.of_nat n) ->
  refused T slots st x ->
  has_reason run (schedule_result (ds_tasks st) (ds_agents st) (ds_budget st) (ds_dispatches st)
    blocked (ds_deferred st)) x.
Proof.
  intros Htr Hfree Hs Hr. pose proof (dt_inv _ _ _ _ _ _ _ _ Htr) as Hdi.
  pose proof (si_task_keys _ _ _ _ _ (dv_inv _ _ _ _ _ _ Hdi)) as Hk.
  pose proof (si_agent_keys _ _ _ _ _ (dv_inv _ _ _ _ _ _ Hdi)) as Hka.
  assert (forall l, completers (dict_by Task.id (sorted_on task_seq (dict_values (ds_tasks st)))) l =
    completers T l) as Ec.
  { intros l. rewrite <- (completers_framed T _ _ (dt_framed _ _ _ _ _ _ _ _ Htr)).
    apply completers_equiv. intros i. by apply resorted_lookup. }
  unfold has_reason, schedule_result.
  cbn [ScheduleResult.tasks ScheduleResult.agents ScheduleResult.budget_deferred_task_ids]. setoid_rewrite Ec.
  destruct Hr as [H|[H|[H|[(ex & Hex & Hn)|H]]]].
  - left. rewrite active_count_sorted, (dv_count _ _ _ _ _ _ Hdi). lia.
  - right. by left.
  - right. right. by left.
  - do 3 right. left. exists ex. split; [done|]. intros a Ha Hav. apply Hn.
    apply Hfree; [|done]. rewrite elem_of_sorted_on in Ha. by apply (keyed_values_elem Agent.id).
  - by do 4 right.
Qed.

Lemma dispatch_all_live rid extra run T A b blocked at_ key secs r x :
  sched_inv rid extra T A b -> dispatch_all run T A b blocked at_ key secs = Ok r ->
  x ∈ ScheduleResult.tasks r ->
  is_eligible x (dict_by Task.id (ScheduleResult.tasks r)) at_ = Ok true ->
  has_reason run r x.
Proof.
  intros Hinv H Hx He. pose proof (dispatch_all_inv _ _ _ _ _ _ _ _ _ _ _ Hinv H) as [Hri _].
  unfold dispatch_all in H. cbv zeta in H.
  set (slots := Z.max 0 _) in H. destruct (slots =? 0)%Z eqn:Es.
  { apply Ok_inj in H. subst r. left. unfold schedule_result. cbn [ScheduleResult.tasks ScheduleResult.agents ScheduleResult.budget_deferred_task_ids].
    rewrite active_count_sorted.
    apply Z.eqb_eq in Es. lia. }
  apply bind_Ok in H as (queue & Hq & H). apply bind_Ok in H as (st & Hloop & H).
  apply Ok_inj in H. subst r. pose proof (si_task_keys _ _ _ _ _ Hinv) as HkT.
  destruct (candidates_spec T at_ queue HkT Hq) as (Hp & _ & Hin).
  eapply (foldM_suffix (live_trace rid extra (active_count (dict_values T)) slots at_ T queue)) in Hloop.
  - destruct Hloop as [Htr Hfree Hdone]. pose proof (dt_framed _ _ _ _ _ _ _ _ Htr) as Hf.
    pose proof (si_task_keys _ _ _ _ _ (dv_inv _ _ _ _ _ _ (dt_inv _ _ _ _ _ _ _ _ Htr))) as Hk.
    unfold schedule_result in Hx, He. cbn [ScheduleResult.tasks ScheduleResult.agents ScheduleResult.budget_deferred_task_ids] in Hx, He.
    rewrite elem_of_sorted_on in Hx.
    apply (keyed_values_elem Task.id) in Hx; [|exact Hk].
    apply (is_eligible_equiv _ (ds_tasks st)) in He; [|by apply resorted_keyed|exact Hk|].
    2:{ intros i. by apply resorted_lookup. }
    pose proof (rd_state _ _ (is_eligible_ready _ _ _ He)) as Hw.
    assert (x ∈ queue) as Hxq.
    { apply Hin. split; [split; [|by eapply is_eligible_framed]|].
      - pose proof (Hf (Task.id x)) as Hfx. rewrite Hx in Hfx.
        inversion Hfx as [x0 y Hxy E1 E2|]; subst y. destruct Hxy as [->|(_ & l & ->)]; [done|].
        done.
      - intros y Hy. eapply eligible_wave; [exact HkT| |exact Hy]. split; [|by eapply is_eligible_framed].
        pose proof (Hf (Task.id x)) as Hfx. rewrite Hx in Hfx.
        inversion Hfx as [x0 y0 Hxy E1 E2|]; subst y0. by destruct Hxy as [->|(_ & l & ->)]. }
    destruct (Hdone x Hxq) as [Hd|Hr]; [by intros ?%elem_of_nil| |by eapply refused_reason].
    exfalso. apply list_elem_of_fmap in Hd as (d & Hid & Hd).
    destruct (dt_placed _ _ _ _ _ _ _ _ Htr d Hd) as (x0 & a0 & e0 & Hpl).
    pose proof (pl_leased _ _ _ _ _ _ _ Hpl) as Hl. rewrite <- Hid, Hx in Hl. injection Hl as ->.
    done.
  - intros. by eapply dispatch_step_live.
  - constructor; [|apply all_free_start, (si_agent_keys _ _ _ _ _ Hinv)|done].
    apply dispatch_start_trace; [exact Hinv|exact Hq|lia].
Qed.

(** ** Theorem and witness *)

(** C16. The scheduler is work-conserving: after [schedule] on sound records, a
    task that is still eligible was passed over only because the run is at its
    concurrency limit, its review bindings are incomplete, a task it reviews
    names no completer, no available agent suits it, or the budget deferred it.
    (So the wave barrier never delays an eligible task.) *)
Theorem schedule_leaves_no_work extra run tasks agents at_ now key secs budget r x :
  run_inv (Run.id run) extra tasks agents (default (Run.budget run) budget) ->
  schedule run tasks agents at_ key secs budget = Ok r ->
  snapshot_time at_ "scheduler timestamp" = Ok now ->
  x ∈ ScheduleResult.tasks r ->
  is_eligible x (dict_by Task.id (ScheduleResult.tasks r)) now = Ok true ->
  has_reason run r x.
Proof.
  intros Hinv H Hnow Hx He. destruct (schedule_phases _ _ _ _ _ _ _ _ _ Hinv H)
    as (now' & T & A & b & blocked & Hnow' & Hb & _ & Hd).
  rewrite Hnow in Hnow'. apply Ok_inj in Hnow' as <-. by eapply dispatch_all_live.
Qed.

(** Two design tasks and one agent that can do them. *)
Definition twin_task : Task.t := demo_task "twin" TaskKind.DESIGN 3.
Definition twin_tasks : list Task.t := [design_task; twin_task].
Definition twin_result : ScheduleResult.t :=
  got (ScheduleResult.mk [] [] (Run.budget demo_run) [] [] [])
    (schedule executing_run twin_tasks [designer] (clock 10) lease_key 60 None).

Lemma twin_inv : run_inv "run_1" (0, 0)%Z twin_tasks [designer] (Run.budget demo_run).
Proof.
  constructor.
  - apply (validate_membership_Ok executing_run); [| |vm_compute; reflexivity].
    + intros x [->|[->|[]%elem_of_nil]%elem_of_cons]%elem_of_cons; vm_compute; reflexivity.
    + intros a [->|[]%elem_of_nil]%elem_of_cons; vm_compute; reflexivity.
  - repeat split; vm_compute; done.
  - simpl. lia.
  - vm_compute. reflexivity.
  - vm_compute. reflexivity.
Qed.

Lemma schedule_leaves_no_work_witness :
  twin_task ∈ ScheduleResult.tasks twin_result /\ has_reason executing_run twin_result twin_task.
Proof.
  assert (ScheduleResult.tasks twin_result =
    hd twin_task (ScheduleResult.tasks twin_result) :: [twin_task]) as E by (vm_compute; reflexivity).
  assert (twin_task ∈ ScheduleResult.tasks twin_result) as Hin
    by (rewrite E; apply elem_of_cons; right; apply elem_of_cons; by left).
  split; [exact Hin|].
  apply (schedule_leaves_no_work (0, 0)%Z executing_run twin_tasks [designer] (clock 10) (clock 10)
    lease_key 60 None twin_result twin_task); [exact twin_inv| | |exact Hin|];
    vm_compute; reflexivity.
Defined.
