(* ===== verification/KernelText.v ===== *)
(** * Values of the design kernel (backend/design_kernel/model.py, the helpers)

    The checks that every constructor of the kernel applies to its texts,
    digests and integers, and the kernel's own canonical data and hashes.  The
    kernel and the verification package write canonical data separately; what
    one accepts the other accepts, with the same JSON and the same hash.  On
    the characters below 256 every text is in normal form C. *)
From S2P Require Import Prelude PyStr PyDict Json Sha256 Models Canonical.

Local Open Scope string_scope.

Definition invariant_err (msg : string) : exn := Exn InvariantViolation msg.

(** ** Checks *)

(** [unicodedata.category(character).startswith("C")] *)
Definition is_control (c : ascii) : bool :=
  let n := code c in ((n <=? 31) || (127 <=? n) && (n <=? 159) || (n =? 173))%Z.
Definition str_existsb (p : ascii -> bool) (s : string) : bool := negb (str_forallb (fun c => negb (p c)) s).

Definition require_text (value label : string) : result unit :=
  raise_if (str_blank value || str_existsb is_control value)
    (invariant_err (label +:+ " must be non-empty text without control characters")).

Definition int64_min : Z := - 2 ^ 63.
Definition int64_max : Z := 2 ^ 63 - 1.
Definition int64 (value : Z) : bool := ((int64_min <=? value) && (value <=? int64_max))%Z.
Definition require_int64 (value : Z) (label : string) : result unit :=
  raise_if (negb (int64 value)) (invariant_err (label +:+ " must fit in a signed 64-bit integer")).

(** The test of [_require_id]. *)
Definition bad_id (text : string) : bool :=
  str_empty text || negb (bool_decide (text = py_strip text)) || str_existsb is_space text ||
  str_existsb is_control text.
Definition require_id (value label : string) : result unit :=
  raise_if (bad_id value) (invariant_err
    (label +:+ " must be a non-empty NFC, whitespace-free identifier without control characters")).

Definition require_sha256 (value label : string) : result unit :=
  raise_if (negb (is_sha256_hex value)) (invariant_err (label +:+ " must be a lowercase SHA-256 digest")).

(** [if value is not None: check(value)] *)
Definition if_some {A} (o : option A) (check : A -> result unit) : result unit :=
  match o with Some x => check x | None => Ok tt end.

(** [repr] of an identifier, which has no control characters and no spaces. *)
Fixpoint repr_chars (q : ascii) (s : string) : string :=
  match s with
  | EmptyString => EmptyString
  | String c s =>
    if Ascii.eqb c backslash || Ascii.eqb c q then String backslash (String c (repr_chars q s))
    else String c (repr_chars q s)
  end.
Definition quote1 : ascii := "039"%char.
Definition repr_id (s : string) : string :=
  let has c := str_existsb (Ascii.eqb c) s in
  let q := if has quote1 && negb (has dquote) then dquote else quote1 in
  String q (repr_chars q s) +:+ String q "".

(** ** Canonical data *)

Fixpoint canonical_data (value : pyval) : result json :=
  match value with
  | PNone => Ok JNull
  | PStr s => Ok (JStr s)
  | PBool b => Ok (JBool b)
  | PInt z => Ok (JInt z)
  | PFloat => Err (invariant_err "floating-point values are forbidden in canonical ECAD data")
  | PEnum v => canonical_data v
  | PData fields =>
    let* l := sequence_pairs ((fun '(k, v) => (k, canonical_data v)) <$> fields) in Ok (JObj l)
  | PMap entries =>
    raise_if (negb (forallb (fun kv => is_str_key kv.1) entries))
      (invariant_err "canonical object keys must be strings") ;;;
    let* l := sequence_pairs (sorted_on fst
      ((fun '(k, v) => (key_text k, canonical_data v)) <$> entries)) in Ok (JObj l)
  | PSeq l => let* l := mapM id (canonical_data <$> l) in Ok (JArr l)
  | PSet => Err (invariant_err "sets are not canonical; sort them into a tuple first")
  | POther type_name => Err (invariant_err ("unsupported canonical type: " +:+ type_name))
  end.

(** [canonical_json(value)] *)
Definition canonical_text (value : pyval) : result string :=
  let* j := canonical_data value in Ok (canonical_json j).

Definition stable_hash (value : pyval) (domain : string) : result string :=
  raise_if (str_empty domain || negb (nul_free domain))
    (invariant_err "hash domain must be a non-empty NUL-free string") ;;;
  let* text := canonical_text value in
  Ok (sha256_hex (utf8 domain ++ utf8 (String nul "") ++ utf8 text)%list).

(** ** The two packages agree *)

Section pyval_ind.
Context (P : pyval -> Prop).
Context (Hnone : P PNone) (Hstr : forall s, P (PStr s)) (Hbool : forall b, P (PBool b)) (Hint : forall z, P (PInt z))
  (Hfloat : P PFloat) (Henum : forall v, P v -> P (PEnum v))
  (Hdata : forall fields, Forall (fun kv => P kv.2) fields -> P (PData fields))
  (Hmap : forall entries, Forall (fun kv => P kv.2) entries -> P (PMap entries))
  (Hseq : forall l, Forall P l -> P (PSeq l)) (Hset : P PSet) (Hother : forall s, P (POther s)).

Fixpoint pyval_ind' (v : pyval) : P v :=
  match v with
  | PNone => Hnone
  | PStr s => Hstr s
  | PBool b => Hbool b
  | PInt z => Hint z
  | PFloat => Hfloat
  | PEnum v => Henum v (pyval_ind' v)
  | PData fields => Hdata fields
      ((fix go l := match l return Forall (fun kv => P kv.2) l with
        | [] => Forall_nil_2 _
        | kv :: l => Forall_cons_2 _ kv l (pyval_ind' kv.2) (go l)
        end) fields)
  | PMap entries => Hmap entries
      ((fix go l := match l return Forall (fun kv => P kv.2) l with
        | [] => Forall_nil_2 _
        | kv :: l => Forall_cons_2 _ kv l (pyval_ind' kv.2) (go l)
        end) entries)
  | PSeq l => Hseq l
      ((fix go l := match l return Forall P l with
        | [] => Forall_nil_2 _
        | v :: l => Forall_cons_2 _ v l (pyval_ind' v) (go l)
        end) l)
  | PSet => Hset
  | POther s => Hother s
  end.
End pyval_ind.

(** Two results that succeed together. *)
Definition agree {A} (r s : result A) : Prop := forall a, r = Ok a <-> s = Ok a.

Lemma sequence_pairs_agree {K} (l m : list (K * result json)) :
  Forall2 (fun p q => p.1 = q.1 /\ agree p.2 q.2) l m -> agree (sequence_pairs l) (sequence_pairs m).
Proof.
  intros H js. rewrite !sequence_pairs_Ok. split; intros Hj.
  - revert js Hj. induction H as [|[k r] [k' s] l m [E Hrs] _ IH]; intros js Hj; inversion Hj as [|? [k2 j] ? ? [E2 Hr]]; subst;
      constructor; simpl in *; [split; [congruence|by apply Hrs]|by apply IH].
  - revert js Hj. induction H as [|[k r] [k' s] l m [E Hrs] _ IH]; intros js Hj; inversion Hj as [|? [k2 j] ? ? [E2 Hr]]; subst;
      constructor; simpl in *; [split; [congruence|by apply Hrs]|by apply IH].
Qed.

Lemma bind_agree {A B} (r s : result A) (k : A -> result B) : agree r s -> agree (bind r k) (bind s k).
Proof. intros H b. rewrite !bind_Ok. by setoid_rewrite (H _). Qed.

Lemma canonical_data_agrees v : agree (canonical_data v) (Canonical.canonical_data v).
Proof.
  induction v as [| | | | |v IH|fields IH|entries IH|l IH| |s] using pyval_ind'; try done.
  - cbn [canonical_data Canonical.canonical_data]. apply bind_agree, sequence_pairs_agree.
    apply Forall2_fmap, Forall_Forall2_diag. eapply Forall_impl; [exact IH|]. by intros [k v].
  - cbn [canonical_data Canonical.canonical_data]. unfold sorted_entries.
    assert (forall f : pyval -> result json, forallb (fun kv => is_str_key kv.1) ((fun '(k, v) => (k, f v)) <$> entries) =
      forallb (fun kv => is_str_key kv.1) entries) as ->.
    { intros f. clear IH. induction entries as [|[k v] l IHl]; [done|]. rewrite fmap_cons. cbn [forallb fst]. by rewrite IHl. }
    destruct (forallb _ entries); cbn [negb raise_if bind].
    + apply bind_agree, sequence_pairs_agree. apply sorted_on_related; [by intros [] [] [? _]|].
      rewrite <- list_fmap_compose. apply Forall2_fmap, Forall_Forall2_diag. eapply Forall_impl; [exact IH|]. by intros [k v].
    + intros j. destruct (existsb _ _); done.
  - cbn [canonical_data Canonical.canonical_data]. apply bind_agree. intros js. rewrite !mapM_Ok_Forall2, !Forall2_fmap_l.
    revert js. induction IH as [|v l Hv _ IHl]; intros js; [split; inversion 1; constructor|].
    split; inversion 1; subst; constructor; (by apply Hv) || by apply IHl.
Qed.

Lemma stable_hash_agrees v domain : agree (stable_hash v domain) (Canonical.stable_hash v domain).
Proof.
  intros h. unfold stable_hash, Canonical.stable_hash, canonical_text, canonical_json_bytes.
  rewrite !seq_Ok, !raise_if_Ok, !bind_Ok. setoid_rewrite bind_Ok. setoid_rewrite (canonical_data_agrees v _).
  split; (intros (Hd & x & (j & Hj & [= <-]) & [= <-]); split; [done|]; eexists; split; [by exists j|done]).
Qed.
