(* ===== verification/KernelModel.v ===== *)
(** * Entities of the design graph (backend/design_kernel/model.py)

    The geometry of the model, and one module per frozen dataclass: its fields,
    its constructor [new] (the checks of [__post_init__], in order; the pads and
    holes also complete their drill) and its normal form.  Every copy that
    [dataclasses.replace] makes goes through the constructor again, so
    [normalized] may raise.  The checks that a field has its declared type are
    the types of the fields. *)
From S2P Require Import Prelude PyStr PyDict Json Models Geometry Board Canonical BoardValues KernelText.

Local Open Scope Z_scope.
Local Open Scope string_scope.

(** ** Points and polygons *)

(** The constructor of [PointNm] *)
Definition point (x y : Z) : result PointNm.t :=
  require_int64 x "x coordinate in nanometres" ;;;
  require_int64 y "y coordinate in nanometres" ;;;
  Ok (PointNm.mk x y).

Module Shape.
Import PointNm.
Local Open Scope Z_scope.

(** [vertices[0] == vertices[-1]] *)
Definition open_ring (vertices : list t) : list t :=
  if (1 <? length vertices)%nat && bool_decide (head vertices = last vertices)
  then take (length vertices - 1) vertices else vertices.

Definition normalized_ring (vertices : list t) : list t :=
  let vertices := open_ring vertices in
  match vertices with
  | [] => []
  | _ =>
    let rotations l := (fun index => drop index l ++ take index l)%list <$> seq 0 (length l) in
    default [] (min_on id (rotations vertices ++ rotations (reverse vertices)))
  end.

Definition cross (a b c : t) : Z := (x b - x a) * (y c - y a) - (y b - y a) * (x c - x a).

Definition point_on_segment (p start end_ : t) : bool :=
  (cross start end_ p =? 0) &&
  ((Z.min (x start) (x end_) <=? x p) && (x p <=? Z.max (x start) (x end_))) &&
  ((Z.min (y start) (y end_) <=? y p) && (y p <=? Z.max (y start) (y end_))).

Definition segments_intersect (a b c d : t) : bool :=
  let ab_c := cross a b c in
  let ab_d := cross a b d in
  let cd_a := cross c d a in
  let cd_b := cross c d b in
  if (ab_c =? 0) && point_on_segment c a b then true
  else if (ab_d =? 0) && point_on_segment d a b then true
  else if (cd_a =? 0) && point_on_segment a c d then true
  else if (cd_b =? 0) && point_on_segment b c d then true
  else ((ab_c <? 0) && (0 <? ab_d) || (ab_d <? 0) && (0 <? ab_c)) &&
       ((cd_a <? 0) && (0 <? cd_b) || (cd_b <? 0) && (0 <? cd_a)).

Definition collinear_overlap_has_length (a b c d : t) : bool :=
  if negb (cross a b c =? 0) || negb (cross a b d =? 0) then false
  else if negb (x a =? x b)
  then Z.max (Z.min (x a) (x b)) (Z.min (x c) (x d)) <? Z.min (Z.max (x a) (x b)) (Z.max (x c) (x d))
  else Z.max (Z.min (y a) (y b)) (Z.min (y c) (y d)) <? Z.min (Z.max (y a) (y b)) (Z.max (y c) (y d)).

(** [zip(ring, ring[1:] + ring[:1])] *)
Definition ring_edges (ring : list t) : list (t * t) := zip ring (drop 1 ring ++ take 1 ring).

Definition twice_area (ring : list t) : Z :=
  foldl Z.add 0 ((fun '(start, end_) => x start * y end_ - x end_ * y start) <$> ring_edges ring).

Definition validate_simple_polygon (vertices : list t) (label : string) : result unit :=
  let ring := open_ring vertices in
  raise_if (length ring <? 3)%nat (invariant_err (label +:+ " requires at least three vertices")) ;;;
  raise_if (has_duplicates ring)
    (invariant_err (label +:+ " vertices must be unique except for an optional closing vertex")) ;;;
  raise_if (twice_area ring =? 0) (invariant_err (label +:+ " must enclose non-zero area")) ;;;
  let edges := ring_edges ring in
  forM_ (fun '(first_index, (a, b)) =>
    raise_if (bool_decide (a = b)) (invariant_err (label +:+ " cannot contain zero-length edges")) ;;;
    forM_ (fun second_index =>
      if (second_index =? first_index + 1)%nat ||
         (first_index =? 0)%nat && (second_index =? length edges - 1)%nat then Ok tt
      else
        match edges !! second_index with
        | Some (c, d) => raise_if (segments_intersect a b c d)
            (invariant_err (label +:+ " must be a simple non-self-intersecting polygon"))
        | None => Ok tt
        end) (seq (S first_index) (length edges - S first_index)))
  (zip (seq 0 (length edges)) edges).
End Shape.

(** The segments of a path: [zip(vertices, vertices[1:])] *)
Definition path_segments (vertices : list PointNm.t) : list (PointNm.t * PointNm.t) := zip vertices (drop 1 vertices).

(** ** Components, pins and nets *)

Module PinRef.
Record t := mk { component_id : string; pin_number : string }.
#[global] Instance eq_dec : EqDecision t.
Proof. solve_decision. Defined.
#[global] Instance countable : Countable t.
Proof.
  apply (inj_countable' (fun p => (component_id p, pin_number p)) (fun '(a, b) => mk a b)). by intros [].
Defined.
Definition new (self : t) : result t :=
  require_id (component_id self) "pin component ID" ;;;
  require_id (pin_number self) "pin number" ;;;
  Ok self.
(** [dataclass(order=True)] *)
#[global] Instance order : PyOrd t :=
  fun p q => py_le (component_id p, pin_number p) (component_id q, pin_number q).
(** [f"{member}"] *)
Definition text (p : t) : string :=
  "PinRef(component_id=" +:+ repr_id (component_id p) +:+ ", pin_number=" +:+ repr_id (pin_number p) +:+ ")".
End PinRef.

Module PinDefinition.
Record t := mk {
  number : string;
  name : string;
  electrical_type : string;
  pad_number : string;
  required : bool;
}.
#[global] Instance eq_dec : EqDecision t.
Proof. solve_decision. Defined.
Definition new (self : t) : result t :=
  require_id (number self) "pin number" ;;;
  require_id (pad_number self) "pad number" ;;;
  require_text (name self) "pin name" ;;;
  require_id (electrical_type self) "pin electrical type" ;;;
  Ok self.
End PinDefinition.

Module Component.
Record t := mk {
  component_id : string;
  reference : string;
  value : string;
  manufacturer_part_number : string;
  package : string;
  symbol_id : string;
  footprint_id : string;
  datasheet_sha256 : string;
  pin_map_sha256 : string;
  pins : list PinDefinition.t;
}.
#[global] Instance settable : Settable t := fun x =>
  mk (component_id x) (reference x) (value x) (manufacturer_part_number x) (package x) (symbol_id x)
    (footprint_id x) (datasheet_sha256 x) (pin_map_sha256 x) (pins x).
#[global] Instance eq_dec : EqDecision t.
Proof. solve_decision. Defined.
Definition new (self : t) : result t :=
  require_id (component_id self) "component ID" ;;;
  require_id (reference self) "reference" ;;;
  require_text (value self) "component value" ;;;
  require_text (manufacturer_part_number self) "exact manufacturer part number" ;;;
  require_text (package self) "component package" ;;;
  require_text (symbol_id self) "component symbol ID" ;;;
  require_text (footprint_id self) "component footprint ID" ;;;
  require_sha256 (datasheet_sha256 self) "datasheet_sha256" ;;;
  require_sha256 (pin_map_sha256 self) "pin_map_sha256" ;;;
  raise_if (bool_decide (pins self = [])) (invariant_err "components require at least one pin") ;;;
  raise_if (has_duplicates (PinDefinition.number <$> pins self) || has_duplicates (PinDefinition.pad_number <$> pins self))
    (invariant_err "component pin and pad numbers must be unique") ;;;
  Ok self.
Definition normalized (self : t) : result t := new (self <| pins := sorted_on PinDefinition.number (pins self) |>).
End Component.

Module Net.
Record t := mk { net_id : string; name : string; members : list PinRef.t }.
#[global] Instance settable : Settable t := fun x => mk (net_id x) (name x) (members x).
#[global] Instance eq_dec : EqDecision t.
Proof. solve_decision. Defined.
Definition new (self : t) : result t :=
  require_id (net_id self) "net ID" ;;;
  require_text (name self) "net name" ;;;
  raise_if (has_duplicates (members self)) (invariant_err "net members must be unique") ;;;
  Ok self.
Definition normalized (self : t) : result t := new (self <| members := sorted_on id (members self) |>).
End Net.

(** ** Footprints *)

(** [not 0 <= rotation < 360_000_000] *)
Definition turned_over (rotation : Z) : bool := negb ((0 <=? rotation) && (rotation <? 360000000))%Z.

Module FootprintPlacement.
Record t := mk {
  component_id : string;
  position : PointNm.t;
  rotation_udeg : Z;
  side : string;
  locked : bool;
}.
#[global] Instance eq_dec : EqDecision t.
Proof. solve_decision. Defined.
Definition new (self : t) : result t :=
  require_id (component_id self) "placement component ID" ;;;
  raise_if (negb (str_in (side self) ["front"; "back"])) (invariant_err "placement side must be front or back") ;;;
  require_int64 (rotation_udeg self) "rotation in integer microdegrees" ;;;
  raise_if (turned_over (rotation_udeg self)) (invariant_err ("rotation must be normalized to [0, 360" +:+ String "176" ")")) ;;;
  Ok self.
End FootprintPlacement.

Definition half_turn : Z := 180000000.
(** The rotation of a drill: none for a circle, otherwise modulo a half turn. *)
Definition normal_drill_rotation (drill_x drill_y rotation : Z) : Z :=
  if (drill_x =? drill_y)%Z then 0%Z else (rotation mod half_turn)%Z.

Module FootprintPad.
Local Open Scope Z_scope.
Record t := mk {
  pad_id : string;
  component_id : string;
  pad_number : string;
  center : PointNm.t;
  size_x_nm : Z;
  size_y_nm : Z;
  shape : string;
  rotation_udeg : Z;
  layers : list string;
  pad_drill_nm : Z;
  net_id : option string;
  locked : bool;
  drill_x_nm : Z;
  drill_y_nm : Z;
  drill_rotation_udeg : Z;
  shared_land_group_id : option string;
}.
#[global] Instance settable : Settable t := fun x =>
  mk (pad_id x) (component_id x) (pad_number x) (center x) (size_x_nm x) (size_y_nm x) (shape x) (rotation_udeg x)
    (layers x) (pad_drill_nm x) (net_id x) (locked x) (drill_x_nm x) (drill_y_nm x) (drill_rotation_udeg x)
    (shared_land_group_id x).
#[global] Instance eq_dec : EqDecision t.
Proof. solve_decision. Defined.

Definition shapes : list string := ["circle"; "oval"; "rect"; "roundrect"].

(** The drill is completed from the legacy dimension, or the other way round. *)
Definition complete_drill (self : t) : result t :=
  raise_if ((pad_drill_nm self <? 0) || (drill_x_nm self <? 0) || (drill_y_nm self <? 0))
    (invariant_err "pad drill dimensions cannot be negative") ;;;
  let self :=
    if (drill_x_nm self =? 0) && (drill_y_nm self =? 0) && (0 <? pad_drill_nm self)
    then (self <| drill_x_nm := pad_drill_nm self |>) <| drill_y_nm := pad_drill_nm self |> else self in
  raise_if (xorb (drill_x_nm self =? 0) (drill_y_nm self =? 0))
    (invariant_err "pad drill X/Y dimensions must both be zero or positive") ;;;
  if 0 <? drill_x_nm self then
    let minor_dimension := Z.min (drill_x_nm self) (drill_y_nm self) in
    let* self :=
      if pad_drill_nm self =? 0 then Ok (self <| pad_drill_nm := minor_dimension |>)
      else raise_if (negb (pad_drill_nm self =? minor_dimension))
             (invariant_err "legacy pad drill diameter must equal the exact drill minor dimension") ;;; Ok self in
    raise_if ((size_x_nm self <=? drill_x_nm self) || (size_y_nm self <=? drill_y_nm self))
      (invariant_err "a drilled pad requires positive copper annulus") ;;;
    Ok self
  else
    raise_if (negb (pad_drill_nm self =? 0)) (invariant_err "a legacy pad drill requires exact X/Y geometry") ;;;
    Ok self.

Definition new (self : t) : result t :=
  require_id (pad_id self) "pad ID" ;;;
  require_id (component_id self) "pad component ID" ;;;
  require_id (pad_number self) "pad number" ;;;
  require_int64 (size_x_nm self) "pad X size in nanometres" ;;;
  require_int64 (size_y_nm self) "pad Y size in nanometres" ;;;
  raise_if ((size_x_nm self <=? 0) || (size_y_nm self <=? 0)) (invariant_err "pad dimensions must be positive") ;;;
  raise_if (negb (str_in (shape self) shapes))
    (invariant_err "pad shape must be one of circle, oval, rect, roundrect") ;;;
  require_int64 (rotation_udeg self) "pad rotation in integer microdegrees" ;;;
  raise_if (turned_over (rotation_udeg self))
    (invariant_err ("pad rotation must be normalized to [0, 360" +:+ String "176" ")")) ;;;
  raise_if (bool_decide (layers self = [])) (invariant_err "pad layers must be a non-empty immutable tuple") ;;;
  forM_ (fun layer => require_text layer "pad copper layer") (layers self) ;;;
  raise_if (has_duplicates (layers self)) (invariant_err "pad copper layers must be unique") ;;;
  require_int64 (pad_drill_nm self) "pad drill diameter in nanometres" ;;;
  require_int64 (drill_x_nm self) "pad drill X size in nanometres" ;;;
  require_int64 (drill_y_nm self) "pad drill Y size in nanometres" ;;;
  require_int64 (drill_rotation_udeg self) "pad drill rotation in integer microdegrees" ;;;
  let* self := complete_drill self in
  raise_if (turned_over (drill_rotation_udeg self))
    (invariant_err ("pad drill rotation must be normalized to [0, 360" +:+ String "176" ")")) ;;;
  raise_if ((drill_x_nm self =? drill_y_nm self) &&
      negb ((drill_rotation_udeg self =? 0) || (drill_rotation_udeg self =? half_turn)))
    (invariant_err "a circular pad drill cannot carry an oriented rotation") ;;;
  raise_if ((0 <? drill_x_nm self) && (length (layers self) <? 2)%nat)
    (invariant_err "a drilled pad must span at least two copper layers") ;;;
  if_some (net_id self) (fun value => require_id value "pad net ID") ;;;
  if_some (shared_land_group_id self) (fun value => require_id value "shared land group ID") ;;;
  Ok self.

Definition normalized (self : t) : result t :=
  let drill_rotation := normal_drill_rotation (drill_x_nm self) (drill_y_nm self) (drill_rotation_udeg self) in
  new ((self <| layers := sorted_on id (layers self) |>) <| drill_rotation_udeg := drill_rotation |>).

Definition drill_is_slot (self : t) : bool := (0 <? drill_x_nm self) && negb (drill_x_nm self =? drill_y_nm self).
End FootprintPad.

Module FootprintHole.
Local Open Scope Z_scope.
Record t := mk {
  hole_id : string;
  component_id : string;
  center : PointNm.t;
  diameter_nm : Z;
  plated : bool;
  pad_id : option string;
  locked : bool;
  drill_x_nm : Z;
  drill_y_nm : Z;
  drill_rotation_udeg : Z;
}.
#[global] Instance settable : Settable t := fun x =>
  mk (hole_id x) (component_id x) (center x) (diameter_nm x) (plated x) (pad_id x) (locked x) (drill_x_nm x)
    (drill_y_nm x) (drill_rotation_udeg x).
#[global] Instance eq_dec : EqDecision t.
Proof. solve_decision. Defined.

Definition new (self : t) : result t :=
  require_id (hole_id self) "hole ID" ;;;
  require_id (component_id self) "hole component ID" ;;;
  require_int64 (diameter_nm self) "hole diameter in nanometres" ;;;
  require_int64 (drill_x_nm self) "hole drill X size in nanometres" ;;;
  require_int64 (drill_y_nm self) "hole drill Y size in nanometres" ;;;
  require_int64 (drill_rotation_udeg self) "hole drill rotation in integer microdegrees" ;;;
  raise_if (diameter_nm self <=? 0) (invariant_err "hole minor dimension must be positive") ;;;
  let self :=
    if (drill_x_nm self =? 0) && (drill_y_nm self =? 0)
    then (self <| drill_x_nm := diameter_nm self |>) <| drill_y_nm := diameter_nm self |> else self in
  raise_if ((drill_x_nm self <=? 0) || (drill_y_nm self <=? 0))
    (invariant_err "hole drill X/Y dimensions must both be positive") ;;;
  raise_if (negb (diameter_nm self =? Z.min (drill_x_nm self) (drill_y_nm self)))
    (invariant_err "legacy hole diameter must equal the exact drill minor dimension") ;;;
  raise_if (turned_over (drill_rotation_udeg self))
    (invariant_err ("hole drill rotation must be normalized to [0, 360" +:+ String "176" ")")) ;;;
  raise_if ((drill_x_nm self =? drill_y_nm self) &&
      negb ((drill_rotation_udeg self =? 0) || (drill_rotation_udeg self =? half_turn)))
    (invariant_err "a circular hole cannot carry an oriented rotation") ;;;
  if_some (pad_id self) (fun value => require_id value "hole pad ID") ;;;
  raise_if (negb (Bool.eqb (plated self) (bool_decide (is_Some (pad_id self)))))
    (invariant_err "a plated hole must identify its pad; an unplated hole must not") ;;;
  Ok self.

Definition normalized (self : t) : result t :=
  new (self <| drill_rotation_udeg :=
    normal_drill_rotation (drill_x_nm self) (drill_y_nm self) (drill_rotation_udeg self) |>).

Definition drill_is_slot (self : t) : bool := negb (drill_x_nm self =? drill_y_nm self).
End FootprintHole.

(** ** Copper *)

Module Via.
Local Open Scope Z_scope.
Record t := mk {
  via_id : string;
  net_id : string;
  center : PointNm.t;
  diameter_nm : Z;
  drill_nm : Z;
  layers : list string;
  locked : bool;
}.
#[global] Instance settable : Settable t := fun x =>
  mk (via_id x) (net_id x) (center x) (diameter_nm x) (drill_nm x) (layers x) (locked x).
#[global] Instance eq_dec : EqDecision t.
Proof. solve_decision. Defined.
Definition new (self : t) : result t :=
  require_id (via_id self) "via ID" ;;;
  require_id (net_id self) "via net ID" ;;;
  require_int64 (diameter_nm self) "via diameter in nanometres" ;;;
  require_int64 (drill_nm self) "via drill diameter in nanometres" ;;;
  raise_if ((drill_nm self <=? 0) || (diameter_nm self <=? drill_nm self))
    (invariant_err "via drill must be positive and smaller than its diameter") ;;;
  raise_if (length (layers self) <? 2)%nat
    (invariant_err "via layer span must contain at least two copper layers") ;;;
  forM_ (fun layer => require_text layer "via copper layer") (layers self) ;;;
  raise_if (has_duplicates (layers self)) (invariant_err "via copper layers must be unique") ;;;
  Ok self.
Definition normalized (self : t) : result t := new (self <| layers := sorted_on id (layers self) |>).
End Via.

Module ZoneFillState.
Inductive t := UNFILLED_INTENT | VERIFIED_FILLED.
#[global] Instance eq_dec : EqDecision t.
Proof. solve_decision. Defined.
Definition value (x : t) : string :=
  match x with UNFILLED_INTENT => "unfilled-intent" | VERIFIED_FILLED => "verified-filled" end.
End ZoneFillState.

Module ZoneFillEvidence.
Record t := mk {
  source_graph_hash : string;
  source_revision : string;
  fill_engine_id : string;
  fill_engine_revision : string;
  filled_geometry_hash : string;
  evidence_hash : string;
}.
#[global] Instance eq_dec : EqDecision t.
Proof. solve_decision. Defined.
(** The hash that binds the provenance. *)
Definition expected_hash (graph_hash revision engine_id engine_revision geometry_hash : string) : result string :=
  stable_hash (PMap [
    (KStr "source_graph_hash", py graph_hash); (KStr "source_revision", py revision);
    (KStr "fill_engine_id", py engine_id); (KStr "fill_engine_revision", py engine_revision);
    (KStr "filled_geometry_hash", py geometry_hash)]) "pcb-zone-fill-evidence-v1".
Definition new (self : t) : result t :=
  require_sha256 (source_graph_hash self) "zone fill source graph hash" ;;;
  require_sha256 (source_revision self) "zone fill source revision" ;;;
  require_id (fill_engine_id self) "zone fill engine ID" ;;;
  require_id (fill_engine_revision self) "zone fill engine revision" ;;;
  require_sha256 (filled_geometry_hash self) "zone filled geometry hash" ;;;
  require_sha256 (evidence_hash self) "zone fill evidence hash" ;;;
  let* expected := expected_hash (source_graph_hash self) (source_revision self) (fill_engine_id self)
    (fill_engine_revision self) (filled_geometry_hash self) in
  raise_if (negb (bool_decide (evidence_hash self = expected)))
    (invariant_err "zone fill evidence hash does not bind its provenance") ;;;
  Ok self.
End ZoneFillEvidence.

Module CopperZone.
Local Open Scope Z_scope.
Record t := mk {
  zone_id : string;
  net_id : string;
  layer : string;
  outline : list PointNm.t;
  clearance_nm : Z;
  min_thickness_nm : Z;
  priority : Z;
  locked : bool;
  fill_state : ZoneFillState.t;
  fill_evidence : option ZoneFillEvidence.t;
}.
#[global] Instance settable : Settable t := fun x =>
  mk (zone_id x) (net_id x) (layer x) (outline x) (clearance_nm x) (min_thickness_nm x) (priority x) (locked x)
    (fill_state x) (fill_evidence x).
#[global] Instance eq_dec : EqDecision t.
Proof. solve_decision. Defined.

(** [zone_filled_geometry_hash(zone)] *)
Definition filled_geometry_hash (zone : t) : result string :=
  stable_hash (PMap [
    (KStr "zone_id", py (zone_id zone)); (KStr "net_id", py (net_id zone)); (KStr "layer", py (layer zone));
    (KStr "outline", PMap [(KStr "vertices", py (Shape.normalized_ring (outline zone)))]);
    (KStr "clearance_nm", py (clearance_nm zone))]) "pcb-zone-filled-geometry-v1".

Definition new (self : t) : result t :=
  require_id (zone_id self) "zone ID" ;;;
  require_id (net_id self) "zone net ID" ;;;
  require_text (layer self) "zone copper layer" ;;;
  Shape.validate_simple_polygon (outline self) "zone outline" ;;;
  require_int64 (clearance_nm self) "zone clearance in nanometres" ;;;
  raise_if (clearance_nm self <? 0) (invariant_err "zone clearance cannot be negative") ;;;
  require_int64 (min_thickness_nm self) "zone minimum thickness in nanometres" ;;;
  raise_if (min_thickness_nm self <=? 0) (invariant_err "zone minimum thickness must be positive") ;;;
  require_int64 (priority self) "zone priority" ;;;
  raise_if (priority self <? 0) (invariant_err "zone priority cannot be negative") ;;;
  match fill_state self with
  | ZoneFillState.UNFILLED_INTENT =>
    raise_if (bool_decide (is_Some (fill_evidence self)))
      (invariant_err "unfilled zone intent cannot carry fill evidence")
  | ZoneFillState.VERIFIED_FILLED =>
    match fill_evidence self with
    | None => Err (invariant_err "verified filled zone requires exact source-bound fill evidence")
    | Some evidence =>
      let* expected := filled_geometry_hash self in
      raise_if (negb (bool_decide (ZoneFillEvidence.filled_geometry_hash evidence = expected)))
        (invariant_err "zone fill evidence does not bind the exact modeled filled geometry")
    end
  end ;;;
  Ok self.
Definition normalized (self : t) : result t := new (self <| outline := Shape.normalized_ring (outline self) |>).
End CopperZone.

Module Track.
Local Open Scope Z_scope.
Record t := mk {
  track_id : string;
  net_id : string;
  layer : string;
  start : PointNm.t;
  end_ : PointNm.t;
  width_nm : Z;
  locked : bool;
}.
#[global] Instance settable : Settable t := fun x =>
  mk (track_id x) (net_id x) (layer x) (start x) (end_ x) (width_nm x) (locked x).
#[global] Instance eq_dec : EqDecision t.
Proof. solve_decision. Defined.
Definition new (self : t) : result t :=
  require_id (track_id self) "track ID" ;;;
  require_id (net_id self) "track net ID" ;;;
  require_text (layer self) "track layer" ;;;
  require_int64 (width_nm self) "track width in nanometres" ;;;
  raise_if ((width_nm self <=? 0) || bool_decide (start self = end_ self))
    (invariant_err "track requires a layer, positive width, and non-zero length") ;;;
  Ok self.
(** [min] and [max] of the two ends, which give the first of two equals. *)
Definition normalized (self : t) : result t :=
  let low := if py_lt (end_ self) (start self) then end_ self else start self in
  let high := if py_lt (start self) (end_ self) then end_ self else start self in
  new ((self <| start := low |>) <| end_ := high |>).
End Track.

(** ** Schematic drawing *)

Module SchematicWire.
Record t := mk {
  wire_id : string;
  net_id : string;
  vertices : list PointNm.t;
  sheet_id : string;
  locked : bool;
}.
#[global] Instance settable : Settable t := fun x => mk (wire_id x) (net_id x) (vertices x) (sheet_id x) (locked x).
#[global] Instance eq_dec : EqDecision t.
Proof. solve_decision. Defined.
Definition new (self : t) : result t :=
  require_id (wire_id self) "schematic wire ID" ;;;
  require_id (net_id self) "schematic wire net ID" ;;;
  require_id (sheet_id self) "schematic wire sheet ID" ;;;
  raise_if (length (vertices self) <? 2)%nat (invariant_err "schematic wire requires at least two vertices") ;;;
  let segments := path_segments (vertices self) in
  raise_if (existsb (fun '(start, end_) => bool_decide (start = end_)) segments)
    (invariant_err "schematic wire cannot contain a zero-length segment") ;;;
  raise_if (has_duplicates (vertices self)) (invariant_err "schematic wire cannot revisit a vertex") ;;;
  forM_ (fun '(first_index, (a, b)) =>
    forM_ (fun second_index =>
      match segments !! second_index with
      | Some (c, d) => raise_if (Shape.segments_intersect a b c d)
          (invariant_err "schematic wire cannot self-intersect")
      | None => Ok tt
      end) (seq (first_index + 2) (length segments - (first_index + 2))))
  (zip (seq 0 (length segments)) segments) ;;;
  Ok self.
(** [min(self.vertices, reversed_vertices)] *)
Definition normalized (self : t) : result t :=
  let reversed := reverse (vertices self) in
  new (self <| vertices := if py_lt reversed (vertices self) then reversed else vertices self |>).
End SchematicWire.

Module SchematicJunction.
Record t := mk {
  junction_id : string;
  net_id : string;
  position : PointNm.t;
  sheet_id : string;
  locked : bool;
}.
#[global] Instance eq_dec : EqDecision t.
Proof. solve_decision. Defined.
Definition new (self : t) : result t :=
  require_id (junction_id self) "schematic junction ID" ;;;
  require_id (net_id self) "schematic junction net ID" ;;;
  require_id (sheet_id self) "schematic junction sheet ID" ;;;
  Ok self.
End SchematicJunction.

(** ** Canonical values

    Each dataclass is an object with its fields in their order. *)

#[export] Instance py_pin_ref : Canonical PinRef.t := fun x =>
  PData [("component_id", py (PinRef.component_id x)); ("pin_number", py (PinRef.pin_number x))].
#[export] Instance py_pin_definition : Canonical PinDefinition.t := fun x =>
  PData [("number", py (PinDefinition.number x)); ("name", py (PinDefinition.name x));
    ("electrical_type", py (PinDefinition.electrical_type x)); ("pad_number", py (PinDefinition.pad_number x));
    ("required", py (PinDefinition.required x))].
#[export] Instance py_design_component : Canonical Component.t := fun x =>
  PData [("component_id", py (Component.component_id x)); ("reference", py (Component.reference x));
    ("value", py (Component.value x)); ("manufacturer_part_number", py (Component.manufacturer_part_number x));
    ("package", py (Component.package x)); ("symbol_id", py (Component.symbol_id x));
    ("footprint_id", py (Component.footprint_id x)); ("datasheet_sha256", py (Component.datasheet_sha256 x));
    ("pin_map_sha256", py (Component.pin_map_sha256 x)); ("pins", py (Component.pins x))].
#[export] Instance py_design_net : Canonical Net.t := fun x =>
  PData [("net_id", py (Net.net_id x)); ("name", py (Net.name x)); ("members", py (Net.members x))].
#[export] Instance py_placement : Canonical FootprintPlacement.t := fun x =>
  PData [("component_id", py (FootprintPlacement.component_id x)); ("position", py (FootprintPlacement.position x));
    ("rotation_udeg", py (FootprintPlacement.rotation_udeg x)); ("side", py (FootprintPlacement.side x));
    ("locked", py (FootprintPlacement.locked x))].
#[export] Instance py_design_pad : Canonical FootprintPad.t := fun x =>
  PData [("pad_id", py (FootprintPad.pad_id x)); ("component_id", py (FootprintPad.component_id x));
    ("pad_number", py (FootprintPad.pad_number x)); ("center", py (FootprintPad.center x));
    ("size_x_nm", py (FootprintPad.size_x_nm x)); ("size_y_nm", py (FootprintPad.size_y_nm x));
    ("shape", py (FootprintPad.shape x)); ("rotation_udeg", py (FootprintPad.rotation_udeg x));
    ("layers", py (FootprintPad.layers x)); ("pad_drill_nm", py (FootprintPad.pad_drill_nm x));
    ("net_id", py (FootprintPad.net_id x)); ("locked", py (FootprintPad.locked x));
    ("drill_x_nm", py (FootprintPad.drill_x_nm x)); ("drill_y_nm", py (FootprintPad.drill_y_nm x));
    ("drill_rotation_udeg", py (FootprintPad.drill_rotation_udeg x));
    ("shared_land_group_id", py (FootprintPad.shared_land_group_id x))].
#[export] Instance py_design_hole : Canonical FootprintHole.t := fun x =>
  PData [("hole_id", py (FootprintHole.hole_id x)); ("component_id", py (FootprintHole.component_id x));
    ("center", py (FootprintHole.center x)); ("diameter_nm", py (FootprintHole.diameter_nm x));
    ("plated", py (FootprintHole.plated x)); ("pad_id", py (FootprintHole.pad_id x));
    ("locked", py (FootprintHole.locked x)); ("drill_x_nm", py (FootprintHole.drill_x_nm x));
    ("drill_y_nm", py (FootprintHole.drill_y_nm x)); ("drill_rotation_udeg", py (FootprintHole.drill_rotation_udeg x))].
#[export] Instance py_design_via : Canonical Via.t := fun x =>
  PData [("via_id", py (Via.via_id x)); ("net_id", py (Via.net_id x)); ("center", py (Via.center x));
    ("diameter_nm", py (Via.diameter_nm x)); ("drill_nm", py (Via.drill_nm x)); ("layers", py (Via.layers x));
    ("locked", py (Via.locked x))].
#[export] Instance py_design_fill_state : Canonical ZoneFillState.t := fun x => PStr (ZoneFillState.value x).
#[export] Instance py_design_fill_evidence : Canonical ZoneFillEvidence.t := fun x =>
  PData [("source_graph_hash", py (ZoneFillEvidence.source_graph_hash x));
    ("source_revision", py (ZoneFillEvidence.source_revision x));
    ("fill_engine_id", py (ZoneFillEvidence.fill_engine_id x));
    ("fill_engine_revision", py (ZoneFillEvidence.fill_engine_revision x));
    ("filled_geometry_hash", py (ZoneFillEvidence.filled_geometry_hash x));
    ("evidence_hash", py (ZoneFillEvidence.evidence_hash x))].
#[export] Instance py_copper_zone : Canonical CopperZone.t := fun x =>
  PData [("zone_id", py (CopperZone.zone_id x)); ("net_id", py (CopperZone.net_id x));
    ("layer", py (CopperZone.layer x)); ("outline", py (CopperZone.outline x));
    ("clearance_nm", py (CopperZone.clearance_nm x)); ("min_thickness_nm", py (CopperZone.min_thickness_nm x));
    ("priority", py (CopperZone.priority x)); ("locked", py (CopperZone.locked x));
    ("fill_state", py (CopperZone.fill_state x)); ("fill_evidence", py (CopperZone.fill_evidence x))].
#[export] Instance py_wire : Canonical SchematicWire.t := fun x =>
  PData [("wire_id", py (SchematicWire.wire_id x)); ("net_id", py (SchematicWire.net_id x));
    ("vertices", py (SchematicWire.vertices x)); ("sheet_id", py (SchematicWire.sheet_id x));
    ("locked", py (SchematicWire.locked x))].
#[export] Instance py_junction : Canonical SchematicJunction.t := fun x =>
  PData [("junction_id", py (SchematicJunction.junction_id x)); ("net_id", py (SchematicJunction.net_id x));
    ("position", py (SchematicJunction.position x)); ("sheet_id", py (SchematicJunction.sheet_id x));
    ("locked", py (SchematicJunction.locked x))].
#[export] Instance py_design_track : Canonical Track.t := fun x =>
  PData [("track_id", py (Track.track_id x)); ("net_id", py (Track.net_id x)); ("layer", py (Track.layer x));
    ("start", py (Track.start x)); ("end", py (Track.end_ x)); ("width_nm", py (Track.width_nm x));
    ("locked", py (Track.locked x))].
