(* ===== verification/KernelShape.v ===== *)
(** * The geometry of the kernel and of the verification package

    The design kernel has its own integer geometry.  It agrees with that of the
    verification package: two segments intersect exactly when they share a
    point, a ring has the same normal form, and an outline is accepted exactly
    when, its closing vertex aside, it is a simple polygon. *)
From S2P Require Import Prelude PyStr Models Geometry GeometryFacts Board OutlineFacts Canonical BoardValues.
From S2P Require Import KernelText KernelModel.

Import Shape.

(** ** Segments *)

Lemma opposite_comm a b :
  ((a <? 0) && (0 <? b) || (b <? 0) && (0 <? a))%Z = ExactGeometryKernel.opposite a b.
Proof. unfold ExactGeometryKernel.opposite. by destruct (a <? 0)%Z, (b <? 0)%Z, (0 <? a)%Z, (0 <? b)%Z. Qed.

Lemma segments_intersect_kernel a b c d : segments_intersect a b c d = ExactGeometryKernel.segments_intersect a b c d.
Proof.
  unfold segments_intersect, ExactGeometryKernel.segments_intersect. rewrite !opposite_comm.
  change Shape.cross with ExactGeometryKernel.cross. change Shape.point_on_segment with ExactGeometryKernel.on_segment.
  by destruct (_ && ExactGeometryKernel.on_segment c a b), (_ && ExactGeometryKernel.on_segment d a b),
    (_ && ExactGeometryKernel.on_segment a c d), (_ && ExactGeometryKernel.on_segment b c d), (_ && _).
Qed.

(** Segments intersect exactly when they share a point of the plane. *)
Lemma segments_intersect_meet e1 e2 : segments_intersect e1.1 e1.2 e2.1 e2.2 = true <-> edges_meet e1 e2.
Proof. rewrite segments_intersect_kernel. apply segments_intersect_iff. Qed.

Lemma segments_share_start p a b : edges_meet (p, a) (p, b).
Proof. exists (exact_point p). split; apply on_segment_start. Qed.

(** ** Rings *)

Lemma normalized_ring_kernel (v : BoardOutline) : normalized_ring v = Outline.normalized v.
Proof.
  unfold normalized_ring. change (open_ring v) with (Outline.opened v).
  destruct (Outline.opened v) as [|p l] eqn:E; [symmetry; by apply normalized_nil|]. rewrite <- E.
  assert (Outline.opened v <> []) as Hne by (by rewrite E).
  assert (reverse (Outline.opened v) <> []) as Hr.
  { intros H. apply (f_equal length) in H. rewrite length_reverse in H. by apply nil_length_inv in H. }
  destruct (normalized_least v Hne) as [S1 L1].
  destruct (min_on id _) as [m|] eqn:Em; cbn [default from_option].
  - apply min_on_Some in Em as [Hin Hle]. change (id m ∈ _) with (m ∈ Outline.rotations (Outline.opened v) ++
      Outline.rotations (reverse (Outline.opened v)))%list in Hin.
    assert (same_polygon (Outline.opened v) m) as Hm.
    { apply elem_of_app in Hin as [Hin|Hin]; apply elem_of_rotations in Hin; [by left|done|by right|done]. }
    apply py_le_antisym; [|by apply L1]. apply (Hle (Outline.normalized v)).
    apply elem_of_app. destruct S1 as [S1|S1]; [left|right]; by apply elem_of_rotations.
  - apply min_on_None in Em. exfalso. apply app_nil in Em as [Em _]. apply fmap_nil_inv in Em.
    apply (f_equal length) in Em. rewrite length_seq in Em. by apply nil_length_inv in Em.
Qed.

Lemma ring_edges_kernel (v : BoardOutline) : (2 <= length v)%nat -> ring_edges v = outline_edges v.
Proof. destruct v as [|p [|q v]]; simpl; [lia..|]. done. Qed.

Lemma ring_edges_lookup (ring : list PointNm.t) i e :
  ring_edges ring !! i = Some e -> ring !! i = Some e.1 /\ ring !! ((i + 1) mod length ring)%nat = Some e.2.
Proof.
  unfold ring_edges. rewrite lookup_zip_with_Some. intros (p & q & -> & Hp & Hq). simpl. split; [done|].
  apply lookup_lt_Some in Hp as Hi. destruct (decide (i + 1 < length ring)%nat) as [Hlt|Hge].
  - rewrite Nat.mod_small by done. rewrite lookup_app_l in Hq by (rewrite length_drop; lia).
    rewrite lookup_drop in Hq. by rewrite Nat.add_comm.
  - assert (i + 1 = length ring)%nat as E by lia. rewrite E, Nat.Div0.mod_same.
    rewrite lookup_app_r in Hq by (rewrite length_drop; lia). rewrite length_drop in Hq.
    replace (i - (length ring - 1))%nat with 0%nat in Hq by lia. rewrite lookup_take in Hq by lia. done.
Qed.

(** ** Outlines *)

Definition non_neighbours_apart (edges : list (PointNm.t * PointNm.t)) : Prop :=
  forall i j e1 e2, edges !! i = Some e1 -> edges !! j = Some e2 -> (i < j)%nat ->
    apart (length edges) i j = true -> ~ edges_meet e1 e2.

Lemma validate_simple_polygon_Ok vertices label :
  let ring := open_ring vertices in
  validate_simple_polygon vertices label = Ok tt <->
  (3 <= length ring)%nat /\ NoDup ring /\ twice_area ring <> 0%Z /\
  (forall e, e ∈ ring_edges ring -> e.1 <> e.2) /\ non_neighbours_apart (ring_edges ring).
Proof.
  intros ring. unfold validate_simple_polygon. fold ring.
  rewrite !seq_Ok, !raise_if_Ok, no_duplicates, Nat.ltb_ge, Z.eqb_neq, forM_Ok, Forall_forall.
  set (edges := ring_edges ring). clearbody edges.
  enough ((forall x, x ∈ zip (seq 0 (length edges)) edges -> _ = Ok tt) <->
    (forall e, e ∈ edges -> e.1 <> e.2) /\ non_neighbours_apart edges) as -> by done.
  split.
  - intros H. split.
    + intros [a b] [i Hi]%list_elem_of_lookup. apply elem_of_indexed, H in Hi. simpl in Hi.
      apply seq_Ok in Hi as [Hi%raise_if_Ok _]. by apply bool_decide_eq_false in Hi.
    + intros i j [a b] [c d] Hi Hj Hij Hap. apply elem_of_indexed, H in Hi. simpl in Hi.
      apply seq_Ok in Hi as [_ Hi]. rewrite forM_Ok, Forall_forall in Hi. specialize (Hi j).
      apply lookup_lt_Some in Hj as Hlt. rewrite Hj in Hi. unfold apart in Hap. rewrite negb_true_iff in Hap.
      rewrite Hap in Hi. rewrite raise_if_Ok in Hi. intros Hm%segments_intersect_meet. simpl in Hm.
      rewrite Hi in Hm; [done|]. apply elem_of_seq. lia.
  - intros [Hz Ha] [i [a b]] Hi%elem_of_indexed. simpl. rewrite seq_Ok, raise_if_Ok, bool_decide_eq_false. split.
    + apply (Hz (a, b)). by eapply list_elem_of_lookup_2.
    + rewrite forM_Ok, Forall_forall. intros j Hj%elem_of_seq. destruct (_ || _) eqn:Hap; [done|].
      destruct (edges !! j) as [[c d]|] eqn:Hcd; [|done]. rewrite raise_if_Ok. apply not_true_is_false.
      intros Hm%(segments_intersect_meet (a, b) (c, d)). revert Hm. apply (Ha i j); [done..|lia|].
      unfold apart. by rewrite Hap.
Qed.

(** A polygon whose edges keep apart visits no vertex twice. *)
Lemma vertices_distinct ring :
  (forall e, e ∈ ring_edges ring -> e.1 <> e.2) -> non_neighbours_apart (ring_edges ring) -> NoDup ring.
Proof.
  intros Hz Ha. apply NoDup_alt. intros i j p Hi Hj.
  assert (forall i, (i < length ring)%nat -> exists e, ring_edges ring !! i = Some e) as Hedge.
  { intros k Hk. apply lookup_lt_is_Some_2. unfold ring_edges. rewrite length_zip_with, length_app, length_drop, length_take. lia. }
  assert (forall i j, (i < j)%nat -> ring !! i = Some p -> ring !! j = Some p -> False) as Hne.
  { clear i j Hi Hj. intros i j Hij Hi Hj. apply lookup_lt_Some in Hi as Hil, Hj as Hjl.
    destruct (Hedge i Hil) as [[a b] He1], (Hedge j Hjl) as [[c d] He2].
    destruct (apart (length (ring_edges ring)) i j) eqn:Hap.
    - destruct (ring_edges_lookup _ _ _ He1) as [L1 _], (ring_edges_lookup _ _ _ He2) as [L2 _]. simpl in *.
      assert (a = p) as -> by congruence. assert (c = p) as -> by congruence.
      apply (Ha i j _ _ He1 He2 Hij Hap). apply segments_share_start.
    - unfold apart in Hap. rewrite negb_false_iff, orb_true_iff, andb_true_iff, !Nat.eqb_eq in Hap.
      assert (length (ring_edges ring) = length ring) as El.
      { unfold ring_edges. rewrite length_zip_with, length_app, length_drop, length_take. lia. }
      rewrite El in Hap. destruct Hap as [->|[-> ->]].
      + destruct (ring_edges_lookup _ _ _ He1) as [L1 L2]. simpl in *. rewrite Nat.mod_small in L2 by lia.
        apply (Hz _ (list_elem_of_lookup_2 _ _ _ He1)). simpl. congruence.
      + destruct (ring_edges_lookup _ _ _ He2) as [L1 L2]. simpl in *.
        replace (length ring - 1 + 1)%nat with (length ring) in L2 by lia. rewrite Nat.Div0.mod_same in L2.
        apply (Hz _ (list_elem_of_lookup_2 _ _ _ He2)). simpl. congruence. }
  destruct (Nat.lt_trichotomy i j) as [H|[H|H]]; [exfalso; by eapply (Hne i j)|done|exfalso; by eapply (Hne j i)].
Qed.

(** The design kernel accepts an outline exactly when, a closing vertex aside,
    it is a simple polygon: the outlines in which the verification package finds
    no defect. *)
Theorem kernel_outlines_are_simple_polygons vertices label :
  validate_simple_polygon vertices label = Ok tt <->
  outline_defects (open_ring vertices) ExactGeometryKernel.kernel = [].
Proof.
  rewrite outline_defects_nil, validate_simple_polygon_Ok. unfold simple_polygon. split.
  - intros (Hl & Hnd & Harea & Hz & Ha). rewrite <- ring_edges_kernel by lia.
    split_and!; [|done| |done].
    + etrans; [exact Hl|]. apply submseteq_length, NoDup_submseteq; [done|]. intros p. by rewrite elem_of_remove_dups.
    + unfold twice_area in Harea. by rewrite ring_edges_kernel in Harea by lia.
  - intros (Hl & Hz & Harea & Ha). assert (3 <= length (open_ring vertices))%nat as Hl'.
    { etrans; [exact Hl|]. apply submseteq_length, NoDup_submseteq; [apply NoDup_remove_dups|].
      intros p. by rewrite elem_of_remove_dups. }
    rewrite <- ring_edges_kernel in Hz, Ha by lia. split_and!; [done|by apply vertices_distinct| |done|done].
    unfold twice_area. rewrite ring_edges_kernel by lia. exact Harea.
Qed.
