(* ===== verification/KernelGraph.v ===== *)
(** * The design graph (backend/design_kernel/model.py, DesignGraph)

    The graph of a design, its normal form, [validate_graph], which every
    published graph passes, its hash, and the binding of a verified zone fill. *)
From S2P Require Import Prelude PyStr PyDict Json Models Geometry Board Canonical BoardValues KernelText KernelModel.

Local Open Scope string_scope.

Module DesignGraph.
Record t := mk {
  schema_version : Z;
  project_id : string;
  layers : list string;
  board_outline : list PointNm.t;
  components : list Component.t;
  nets : list Net.t;
  placements : list FootprintPlacement.t;
  tracks : list Track.t;
  pads : list FootprintPad.t;
  holes : list FootprintHole.t;
  vias : list Via.t;
  zones : list CopperZone.t;
  schematic_wires : list SchematicWire.t;
  schematic_junctions : list SchematicJunction.t;
}.
#[global] Instance settable : Settable t := fun x =>
  mk (schema_version x) (project_id x) (layers x) (board_outline x) (components x) (nets x) (placements x)
    (tracks x) (pads x) (holes x) (vias x) (zones x) (schematic_wires x) (schematic_junctions x).
#[global] Instance eq_dec : EqDecision t.
Proof. solve_decision. Defined.

Definition new (self : t) : result t :=
  require_int64 (schema_version self) "design graph schema version" ;;;
  require_id (project_id self) "project ID" ;;;
  forM_ (fun layer => require_text layer "copper layer name") (layers self) ;;;
  Ok self.

(** The normal forms are computed by the generators inside [sorted], field by field. *)
Definition normalized (self : t) : result t :=
  let outline := Shape.normalized_ring (board_outline self) in
  let* components' := mapM Component.normalized (components self) in
  let* nets' := mapM Net.normalized (nets self) in
  let* tracks' := mapM Track.normalized (tracks self) in
  let* pads' := mapM FootprintPad.normalized (pads self) in
  let* holes' := mapM FootprintHole.normalized (holes self) in
  let* vias' := mapM Via.normalized (vias self) in
  let* zones' := mapM CopperZone.normalized (zones self) in
  let* wires' := mapM SchematicWire.normalized (schematic_wires self) in
  new (mk (schema_version self) (project_id self)
    (sorted_on id (layers self)) outline
    (sorted_on Component.component_id components')
    (sorted_on Net.net_id nets')
    (sorted_on FootprintPlacement.component_id (placements self))
    (sorted_on Track.track_id tracks')
    (sorted_on FootprintPad.pad_id pads')
    (sorted_on FootprintHole.hole_id holes')
    (sorted_on Via.via_id vias')
    (sorted_on CopperZone.zone_id zones')
    (sorted_on SchematicWire.wire_id wires')
    (sorted_on SchematicJunction.junction_id (schematic_junctions self))).
End DesignGraph.

#[export] Instance py_design_graph : Canonical DesignGraph.t := fun x =>
  PData [("schema_version", py (DesignGraph.schema_version x)); ("project_id", py (DesignGraph.project_id x));
    ("layers", py (DesignGraph.layers x)); ("board_outline", py (DesignGraph.board_outline x));
    ("components", py (DesignGraph.components x)); ("nets", py (DesignGraph.nets x));
    ("placements", py (DesignGraph.placements x)); ("tracks", py (DesignGraph.tracks x));
    ("pads", py (DesignGraph.pads x)); ("holes", py (DesignGraph.holes x)); ("vias", py (DesignGraph.vias x));
    ("zones", py (DesignGraph.zones x)); ("schematic_wires", py (DesignGraph.schematic_wires x));
    ("schematic_junctions", py (DesignGraph.schematic_junctions x))].

(** ** validate_graph *)

Module Validate.
Import DesignGraph.

Definition header (graph : t) : result unit :=
  raise_if (negb (schema_version graph =? 1)%Z) (invariant_err "unsupported design graph schema") ;;;
  require_id (project_id graph) "project ID" ;;;
  raise_if (bool_decide (layers graph = []) || existsb str_blank (layers graph))
    (invariant_err "at least one non-empty copper layer is required") ;;;
  raise_if (has_duplicates (layers graph)) (invariant_err "layer names must be unique") ;;;
  if bool_decide (board_outline graph = []) then Ok tt
  else Shape.validate_simple_polygon (board_outline graph) "board outline".

Definition identities (graph : t) : list (string * list string) := [
  ("component IDs", Component.component_id <$> components graph);
  ("component references", Component.reference <$> components graph);
  ("net IDs", Net.net_id <$> nets graph);
  ("net names", Net.name <$> nets graph);
  ("placement component IDs", FootprintPlacement.component_id <$> placements graph);
  ("track IDs", Track.track_id <$> tracks graph);
  ("pad IDs", FootprintPad.pad_id <$> pads graph);
  ("hole IDs", FootprintHole.hole_id <$> holes graph);
  ("via IDs", Via.via_id <$> vias graph);
  ("zone IDs", CopperZone.zone_id <$> zones graph);
  ("schematic wire IDs", SchematicWire.wire_id <$> schematic_wires graph);
  ("schematic junction IDs", SchematicJunction.junction_id <$> schematic_junctions graph)].
Definition unique_identities (graph : t) : result unit :=
  forM_ (fun '(label, values) => raise_if (has_duplicates values) (invariant_err (label +:+ " must be unique")))
    (identities graph).

Definition components_by_id (graph : t) : dict Component.t := dict_by Component.component_id (components graph).
Definition known_nets (graph : t) : list string := Net.net_id <$> nets graph.
Definition known_placements (graph : t) : list string := FootprintPlacement.component_id <$> placements graph.

(** The pins that a net binds. *)
Definition pin_nets : Type := gmap PinRef.t string.
Definition bind_pin (components : dict Component.t) (net : Net.t) (pin_to_net : pin_nets) (member : PinRef.t) : result pin_nets :=
  match components !! PinRef.component_id member with
  | None => Err (invariant_err
      ("net " +:+ Net.net_id net +:+ " references unknown component " +:+ PinRef.component_id member))
  | Some component =>
    raise_if (negb (str_in (PinRef.pin_number member) (PinDefinition.number <$> Component.pins component)))
      (invariant_err ("net " +:+ Net.net_id net +:+ " references unknown pin " +:+ PinRef.pin_number member)) ;;;
    raise_if (bool_decide (is_Some (pin_to_net !! member)))
      (invariant_err ("pin " +:+ PinRef.text member +:+ " belongs to multiple nets")) ;;;
    Ok (<[member := Net.net_id net]> pin_to_net)
  end.
Definition connectivity (graph : t) : result pin_nets :=
  foldM (fun pin_to_net net => foldM (bind_pin (components_by_id graph) net) pin_to_net (Net.members net)) ∅ (nets graph).

Definition placed (graph : t) : result unit :=
  forM_ (fun placement =>
    raise_if (bool_decide (components_by_id graph !! FootprintPlacement.component_id placement = None))
      (invariant_err "placement references an unknown component")) (placements graph).

Definition track_references (graph : t) : result unit :=
  forM_ (fun track =>
    raise_if (negb (str_in (Track.net_id track) (known_nets graph)) || negb (str_in (Track.layer track) (layers graph)))
      (invariant_err "track references an unknown net or layer")) (tracks graph).

(** *** Pads *)

Definition pad_reference (graph : t) (pin_to_net : pin_nets) (pad : FootprintPad.t) : result unit :=
  let component_id := FootprintPad.component_id pad in
  match components_by_id graph !! component_id with
  | Some component =>
    raise_if (negb (str_in component_id (known_placements graph)))
      (invariant_err "pad requires a known, placed component") ;;;
    match filter (fun pin => PinDefinition.pad_number pin = FootprintPad.pad_number pad) (Component.pins component) with
    | [pin] =>
      raise_if (existsb (fun layer => negb (str_in layer (layers graph))) (FootprintPad.layers pad))
        (invariant_err "pad references an unknown copper layer") ;;;
      raise_if (opt_bad (fun net => negb (str_in net (known_nets graph))) (FootprintPad.net_id pad))
        (invariant_err "pad references an unknown net") ;;;
      (** [PinRef(...)] is built for the lookup. *)
      let* member := PinRef.new (PinRef.mk component_id (PinDefinition.number pin)) in
      let schematic_net := pin_to_net !! member in
      raise_if (bool_decide (is_Some schematic_net) && negb (bool_decide (FootprintPad.net_id pad = schematic_net)))
        (invariant_err ("pad " +:+ FootprintPad.pad_id pad +:+ " net disagrees with schematic pin connectivity"))
    | _ => Err (invariant_err "pad number must map to exactly one component pin")
    end
  | None => Err (invariant_err "pad requires a known, placed component")
  end.

Definition logical_pad_groups (graph : t) : list ((string * string) * list FootprintPad.t) :=
  group_by (fun pad => (FootprintPad.component_id pad, FootprintPad.pad_number pad)) (pads graph).
(** [len({key(x) for x in l})] *)
Definition distinct {A K} `{EqDecision K} (key : A -> K) (l : list A) : nat := length (remove_dups (key <$> l)).
Definition logical_nets (graph : t) : result unit :=
  forM_ (fun '((component_id, pad_number), physical_pads) =>
    raise_if (negb (distinct FootprintPad.net_id physical_pads =? 1)%nat)
      (invariant_err ("physical pads for " +:+ component_id +:+ ":" +:+ pad_number +:+
        " must have identical net semantics"))) (logical_pad_groups graph).

Definition land : Type :=
  string * PointNm.t * Z * Z * string * Z * list string * Z * Z * Z * option string.
Definition shared_land_geometry (pad : FootprintPad.t) : result land :=
  let* p := FootprintPad.normalized pad in
  Ok (FootprintPad.component_id p, FootprintPad.center p, FootprintPad.size_x_nm p, FootprintPad.size_y_nm p,
    FootprintPad.shape p, FootprintPad.rotation_udeg p, FootprintPad.layers p, FootprintPad.drill_x_nm p,
    FootprintPad.drill_y_nm p, FootprintPad.drill_rotation_udeg p, FootprintPad.net_id p).

Definition shared_land_groups (graph : t) : list (string * list FootprintPad.t) :=
  group_by (fun pad => default "" (FootprintPad.shared_land_group_id pad))
    (filter (fun pad => is_Some (FootprintPad.shared_land_group_id pad)) (pads graph)).

Definition shared_land (graph : t) (group_id : string) (group_pads : list FootprintPad.t) : result unit :=
  let err msg := invariant_err ("shared land group " +:+ group_id +:+ msg) in
  raise_if (length group_pads <? 2)%nat (err " must contain at least two physical pad records") ;;;
  raise_if (negb (distinct FootprintPad.component_id group_pads =? 1)%nat) (err " cannot cross component boundaries") ;;;
  raise_if (negb (distinct FootprintPad.pad_number group_pads =? length group_pads)%nat)
    (err " must preserve distinct logical pad numbers") ;;;
  match group_pads with
  | [] => Ok tt
  | first :: rest =>
    let* geometry := shared_land_geometry first in
    let* differs := anyM (fun pad => let* g := shared_land_geometry pad in Ok (negb (bool_decide (g = geometry)))) rest in
    raise_if differs (err " members must have exact identical geometry and net") ;;;
    let group_pad_ids := FootprintPad.pad_id <$> group_pads in
    let* omitted := anyM (fun pad =>
      andM (negb (str_in (FootprintPad.pad_id pad) group_pad_ids))
        (let* g := shared_land_geometry pad in Ok (bool_decide (g = geometry)))) (pads graph) in
    raise_if omitted (err " cannot omit an exact coincident physical pad")
  end.
Definition shared_lands (graph : t) : result unit :=
  forM_ (fun '(group_id, group_pads) => shared_land graph group_id group_pads) (shared_land_groups graph).

(** *** Holes *)

Definition hole_reference (graph : t) (bound_pad_ids : list string) (hole : FootprintHole.t) : result (list string) :=
  let component_id := FootprintHole.component_id hole in
  raise_if (bool_decide (components_by_id graph !! component_id = None) || negb (str_in component_id (known_placements graph)))
    (invariant_err "footprint hole requires a known, placed component") ;;;
  match FootprintHole.pad_id hole with
  | None => Ok bound_pad_ids
  | Some pad_id =>
    raise_if (str_in pad_id bound_pad_ids)
      (invariant_err "a physical pad can bind only one plated footprint hole") ;;;
    let unknown := invariant_err "plated footprint hole references an unknown component pad" in
    match dict_by FootprintPad.pad_id (pads graph) !! pad_id with
    | None => Err unknown
    | Some pad =>
      raise_if (negb (bool_decide (FootprintPad.component_id pad = component_id))) unknown ;;;
      let* differs :=
        if negb (FootprintPad.drill_x_nm pad =? FootprintHole.drill_x_nm hole)%Z ||
           negb (FootprintPad.drill_y_nm pad =? FootprintHole.drill_y_nm hole)%Z then Ok true
        else
          let* p := FootprintPad.normalized pad in
          let* h := FootprintHole.normalized hole in
          Ok (negb (FootprintPad.drill_rotation_udeg p =? FootprintHole.drill_rotation_udeg h)%Z) in
      raise_if differs (invariant_err "plated footprint hole must match its exact pad drill geometry") ;;;
      raise_if (negb (bool_decide (FootprintPad.center pad = FootprintHole.center hole)))
        (invariant_err "plated footprint hole must share its pad center") ;;;
      Ok (pad_id :: bound_pad_ids)
    end
  end.
Definition hole_references (graph : t) : result unit :=
  let* _ := foldM (hole_reference graph) [] (holes graph) in Ok tt.

(** *** Vias, zones and the schematic *)

Definition via_references (graph : t) : result unit :=
  forM_ (fun via =>
    raise_if (negb (str_in (Via.net_id via) (known_nets graph)) ||
        existsb (fun layer => negb (str_in layer (layers graph))) (Via.layers via))
      (invariant_err "via references an unknown net or copper layer")) (vias graph).

Definition zone_references (graph : t) : result unit :=
  forM_ (fun zone =>
    raise_if (negb (str_in (CopperZone.net_id zone) (known_nets graph)) || negb (str_in (CopperZone.layer zone) (layers graph)))
      (invariant_err "zone references an unknown net or copper layer") ;;;
    Shape.validate_simple_polygon (CopperZone.outline zone) ("zone " +:+ CopperZone.zone_id zone +:+ " outline"))
  (zones graph).

Definition wire_references (graph : t) : result unit :=
  forM_ (fun wire =>
    raise_if (negb (str_in (SchematicWire.net_id wire) (known_nets graph)))
      (invariant_err "schematic wire references an unknown net")) (schematic_wires graph).

(** Two segments of two wires: a proper crossing is allowed between different
    nets, contact within one net, an overlap never. *)
Definition segment_contact (same_net : bool) (first second : PointNm.t * PointNm.t) : result unit :=
  let '(a, b) := first in
  let '(c, d) := second in
  if negb (Shape.segments_intersect a b c d) then Ok tt
  else
    raise_if (Shape.collinear_overlap_has_length a b c d) (invariant_err "schematic wire segments cannot overlap") ;;;
    if same_net then Ok tt
    else raise_if (existsb (fun '(p, start, end_) => Shape.point_on_segment p start end_)
             [(a, c, d); (b, c, d); (c, a, b); (d, a, b)])
           (invariant_err "schematic wires on different nets cannot touch or overlap").
Definition wire_contact (first second : SchematicWire.t) : result unit :=
  if negb (bool_decide (SchematicWire.sheet_id first = SchematicWire.sheet_id second)) then Ok tt
  else
    let same_net := bool_decide (SchematicWire.net_id first = SchematicWire.net_id second) in
    forM_ (fun e1 => forM_ (segment_contact same_net e1) (path_segments (SchematicWire.vertices second)))
      (path_segments (SchematicWire.vertices first)).
(** [for i, first in enumerate(l): for second in l[i + 1:]: check(first, second)] *)
Fixpoint forM_pairs {A} (check : A -> A -> result unit) (l : list A) : result unit :=
  match l with
  | [] => Ok tt
  | first :: rest => forM_ (check first) rest ;;; forM_pairs check rest
  end.
Definition wire_contacts (graph : t) : result unit := forM_pairs wire_contact (schematic_wires graph).

Definition supporting_wires (graph : t) (junction : SchematicJunction.t) : list string :=
  SchematicWire.wire_id <$> filter (fun wire =>
    SchematicWire.sheet_id wire = SchematicJunction.sheet_id junction /\
    SchematicWire.net_id wire = SchematicJunction.net_id junction /\
    existsb (fun '(start, end_) => Shape.point_on_segment (SchematicJunction.position junction) start end_)
      (path_segments (SchematicWire.vertices wire)) = true) (schematic_wires graph).
Definition junction_reference (graph : t) (locations : list (string * PointNm.t)) (junction : SchematicJunction.t)
    : result (list (string * PointNm.t)) :=
  raise_if (negb (str_in (SchematicJunction.net_id junction) (known_nets graph)))
    (invariant_err "schematic junction references an unknown net") ;;;
  let location := (SchematicJunction.sheet_id junction, SchematicJunction.position junction) in
  raise_if (bool_decide (location ∈ locations))
    (invariant_err "a schematic sheet position can contain only one junction") ;;;
  raise_if (distinct id (supporting_wires graph junction) <? 2)%nat
    (invariant_err "schematic junction must join at least two wires on its exact net and sheet") ;;;
  Ok (location :: locations).
Definition junction_references (graph : t) : result unit :=
  let* _ := foldM (junction_reference graph) [] (schematic_junctions graph) in Ok tt.
End Validate.

Definition validate_graph (graph : DesignGraph.t) : result unit :=
  Validate.header graph ;;;
  Validate.unique_identities graph ;;;
  let* pin_to_net := Validate.connectivity graph in
  Validate.placed graph ;;;
  Validate.track_references graph ;;;
  forM_ (Validate.pad_reference graph pin_to_net) (DesignGraph.pads graph) ;;;
  Validate.logical_nets graph ;;;
  Validate.shared_lands graph ;;;
  Validate.hole_references graph ;;;
  Validate.via_references graph ;;;
  Validate.zone_references graph ;;;
  Validate.wire_references graph ;;;
  Validate.wire_contacts graph ;;;
  Validate.junction_references graph.

(** ** Hashes *)

(** [DesignGraph.graph_hash] *)
Definition graph_hash (graph : DesignGraph.t) : result string :=
  let* normalized := DesignGraph.normalized graph in
  validate_graph normalized ;;;
  stable_hash (py normalized) "flux-clone-design-graph-v1".

(** [bind_verified_zone_fill(zone, source_graph=, source_revision=, fill_engine_id=, fill_engine_revision=)] *)
Definition bind_verified_zone_fill (zone : CopperZone.t) (source_graph : DesignGraph.t)
    (source_revision fill_engine_id fill_engine_revision : string) : result CopperZone.t :=
  raise_if (negb (bool_decide (CopperZone.fill_state zone = ZoneFillState.UNFILLED_INTENT)))
    (invariant_err "only an exact unfilled zone intent can receive fill evidence") ;;;
  raise_if (bool_decide (is_Some (CopperZone.fill_evidence zone)))
    (invariant_err "zone intent already carries unexpected fill evidence") ;;;
  let* normalized_source := DesignGraph.normalized source_graph in
  validate_graph normalized_source ;;;
  raise_if (negb (bool_decide (normalized_source = source_graph)))
    (invariant_err "zone fill source graph must be normalized") ;;;
  let matching_zones := filter (fun item => CopperZone.zone_id item = CopperZone.zone_id zone) (DesignGraph.zones source_graph) in
  raise_if (negb (bool_decide (matching_zones = [zone])))
    (invariant_err "zone fill evidence subject must exactly match its source graph") ;;;
  let* source_graph_hash := graph_hash source_graph in
  let* geometry_hash := CopperZone.filled_geometry_hash zone in
  let* evidence_hash := ZoneFillEvidence.expected_hash source_graph_hash source_revision fill_engine_id
    fill_engine_revision geometry_hash in
  let* evidence := ZoneFillEvidence.new (ZoneFillEvidence.mk source_graph_hash source_revision fill_engine_id
    fill_engine_revision geometry_hash evidence_hash) in
  CopperZone.new ((zone <| CopperZone.fill_state := ZoneFillState.VERIFIED_FILLED |>)
    <| CopperZone.fill_evidence := Some evidence |>).
