(* ===== verification/KernelCommand.v ===== *)
(** * Commands (backend/design_kernel/model.py, DesignCommand; engine.py, _apply)

    A command carries its payload as canonical JSON text.  [apply] is the effect
    of a command on a graph, one definition per kind; the payload is read by the
    checked readers of the engine.

    A payload text that is rejected is rejected with one message: whether it is
    malformed, repeats a key, or holds a number that is not finite is not told
    apart. *)
From S2P Require Import Prelude PyStr PyDict Json Models Geometry Board Canonical BoardValues KernelText KernelModel KernelGraph.

Local Open Scope string_scope.

Module CommandKind.
Inductive t :=
  | COMPONENT_ADD | COMPONENT_REMOVE | NET_CREATE | NET_CONNECT | FOOTPRINT_PLACE | FOOTPRINT_PAD_ADD
  | FOOTPRINT_PAD_GROUP_ADD | FOOTPRINT_HOLE_ADD | TRACK_ADD | VIA_ADD | ZONE_ADD | SCHEMATIC_WIRE_ADD
  | SCHEMATIC_JUNCTION_ADD | BOARD_SET_OUTLINE.
#[global] Instance eq_dec : EqDecision t.
Proof. solve_decision. Defined.
Definition value (x : t) : string :=
  match x with
  | COMPONENT_ADD => "component.add"
  | COMPONENT_REMOVE => "component.remove"
  | NET_CREATE => "net.create"
  | NET_CONNECT => "net.connect"
  | FOOTPRINT_PLACE => "footprint.place"
  | FOOTPRINT_PAD_ADD => "footprint.pad.add"
  | FOOTPRINT_PAD_GROUP_ADD => "footprint.pad_group.add"
  | FOOTPRINT_HOLE_ADD => "footprint.hole.add"
  | TRACK_ADD => "track.add"
  | VIA_ADD => "via.add"
  | ZONE_ADD => "zone.add"
  | SCHEMATIC_WIRE_ADD => "schematic.wire.add"
  | SCHEMATIC_JUNCTION_ADD => "schematic.junction.add"
  | BOARD_SET_OUTLINE => "board.set_outline"
  end.
End CommandKind.
#[export] Instance py_command_kind : Canonical CommandKind.t := fun x => PStr (CommandKind.value x).

Module DesignCommand.
Record t := mk {
  command_id : string;
  base_revision : string;
  transaction_id : string;
  actor : string;
  kind : CommandKind.t;
  payload_json : string;
  idempotency_key : string;
}.
#[global] Instance eq_dec : EqDecision t.
Proof. solve_decision. Defined.

Definition new (self : t) : result t :=
  require_id (command_id self) "command ID" ;;;
  require_id (transaction_id self) "transaction ID" ;;;
  require_id (actor self) "actor" ;;;
  require_id (idempotency_key self) "idempotency key" ;;;
  require_sha256 (base_revision self) "base revision" ;;;
  let not_canonical := invariant_err "command payload must be a canonical JSON object" in
  match loads (payload_json self) with
  | None => Err (invariant_err "command payload must be valid JSON")
  | Some (JObj fields) =>
    raise_if (negb (bool_decide (canonical_json (JObj fields) = payload_json self))) not_canonical ;;; Ok self
  | Some _ => Err not_canonical
  end.

(** [DesignCommand.create(...)], with the payload as a mapping. *)
Definition create (command_id base_revision transaction_id actor : string) (kind : CommandKind.t)
    (payload : list (pykey * pyval)) (idempotency_key : string) : result t :=
  let* text := canonical_text (PMap payload) in
  new (mk command_id base_revision transaction_id actor kind text idempotency_key).

Definition payload (self : t) : result (list (string * json)) :=
  match loads (payload_json self) with
  | Some (JObj fields) => Ok fields
  | _ => Err (invariant_err "command payload is not an object")
  end.
End DesignCommand.

#[export] Instance py_command : Canonical DesignCommand.t := fun x =>
  PData [("command_id", py (DesignCommand.command_id x)); ("base_revision", py (DesignCommand.base_revision x));
    ("transaction_id", py (DesignCommand.transaction_id x)); ("actor", py (DesignCommand.actor x));
    ("kind", py (DesignCommand.kind x)); ("payload_json", py (DesignCommand.payload_json x));
    ("idempotency_key", py (DesignCommand.idempotency_key x))].
Definition command_hash (command : DesignCommand.t) : result string :=
  stable_hash (py command) "flux-clone-design-command-v1".

(** ** Readers of payloads *)

Module Payload.
Definition t : Type := list (string * json).

Definition keys (payload : t) (required optional : list string) : result unit :=
  let missing := sorted_on id (filter (fun key => str_in key payload.*1 = false) required) in
  let unknown := sorted_on id (filter (fun key => str_in key required || str_in key optional = false) payload.*1) in
  let details := ((if bool_decide (missing = []) then [] else ["missing: " +:+ str_join ", " missing]) ++
                  (if bool_decide (unknown = []) then [] else ["unknown: " +:+ str_join ", " unknown]))%list in
  raise_if (negb (bool_decide (missing = [])) || negb (bool_decide (unknown = [])))
    (invariant_err ("payload fields do not match command schema (" +:+ str_join "; " details +:+ ")")).

Definition field_err (key msg : string) : exn := invariant_err ("payload field " +:+ key +:+ msg).

Definition string (payload : t) (key : string) : result string :=
  match assoc_get key payload with
  | Some (JStr value) =>
    raise_if (str_blank value) (field_err key " must be a non-empty string") ;;; Ok value
  | _ => Err (field_err key " must be a non-empty string")
  end.

Definition integer (payload : t) (key : String.string) : result Z :=
  match assoc_get key payload with
  | Some (JInt value) => Ok value
  | _ => Err (field_err key " must be an integer")
  end.

Definition boolean (payload : t) (key : String.string) (default : bool) : result bool :=
  match assoc_get key payload with
  | None => Ok default
  | Some (JBool value) => Ok value
  | Some _ => Err (field_err key " must be a boolean")
  end.

Definition optional_string (payload : t) (key : String.string) : result (option String.string) :=
  match assoc_get key payload with
  | None | Some JNull => Ok None
  | Some (JStr value) =>
    raise_if (str_blank value) (field_err key " must be null or a non-empty string") ;;; Ok (Some value)
  | Some _ => Err (field_err key " must be null or a non-empty string")
  end.

Definition text_of (item : json) : option String.string := match item with JStr s => Some s | _ => None end.
Definition string_tuple (payload : t) (key : String.string) : result (list String.string) :=
  let err := field_err key " must be an array of non-empty strings" in
  match assoc_get key payload with
  | Some (JArr value) =>
    mapM (fun item => match item with
      | JStr s => raise_if (str_blank s) err ;;; Ok s
      | _ => Err err end) value
  | _ => Err err
  end.

Definition points (payload : t) (key : String.string) : result (list PointNm.t) :=
  match assoc_get key payload with
  | Some (JArr value) =>
    mapM (fun raw_point => match raw_point with
      | JArr [JInt x; JInt y] => point x y
      | _ => Err (invariant_err ("each " +:+ key +:+ " vertex must be [x_nm, y_nm]")) end) value
  | _ => Err (field_err key " must be an array of [x_nm, y_nm]")
  end.

(** [_integer(payload, key) if key in payload else default] *)
Definition integer_or (payload : t) (key : String.string) (default : Z) : result Z :=
  if str_in key payload.*1 then integer payload key else Ok default.
Definition string_or (payload : t) (key default : String.string) : result String.string :=
  if str_in key payload.*1 then string payload key else Ok default.
Definition point_at (payload : t) (x_key y_key : String.string) : result PointNm.t :=
  let* x := integer payload x_key in
  let* y := integer payload y_key in
  point x y.
End Payload.

(** ** The effect of a command *)

Module Apply.
Import DesignGraph.

Definition pad_required_fields : list string :=
  ["pad_id"; "component_id"; "pad_number"; "center_x_nm"; "center_y_nm"; "size_x_nm"; "size_y_nm"; "shape";
   "rotation_udeg"; "layers"; "pad_drill_nm"].
Definition pad_optional_fields : list string :=
  ["net_id"; "locked"; "drill_x_nm"; "drill_y_nm"; "drill_rotation_udeg"; "shared_land_group_id"].

Definition footprint_pad (payload : Payload.t) : result FootprintPad.t :=
  Payload.keys payload pad_required_fields pad_optional_fields ;;;
  let* pad_id := Payload.string payload "pad_id" in
  let* component_id := Payload.string payload "component_id" in
  let* pad_number := Payload.string payload "pad_number" in
  let* center := Payload.point_at payload "center_x_nm" "center_y_nm" in
  let* size_x_nm := Payload.integer payload "size_x_nm" in
  let* size_y_nm := Payload.integer payload "size_y_nm" in
  let* shape := Payload.string payload "shape" in
  let* rotation_udeg := Payload.integer payload "rotation_udeg" in
  let* layers := Payload.string_tuple payload "layers" in
  let* pad_drill_nm := Payload.integer payload "pad_drill_nm" in
  let* net_id := Payload.optional_string payload "net_id" in
  let* locked := Payload.boolean payload "locked" false in
  let* drill_x_nm := Payload.integer_or payload "drill_x_nm" 0 in
  let* drill_y_nm := Payload.integer_or payload "drill_y_nm" 0 in
  let* drill_rotation_udeg := Payload.integer_or payload "drill_rotation_udeg" 0 in
  let* shared_land_group_id := Payload.optional_string payload "shared_land_group_id" in
  FootprintPad.new (FootprintPad.mk pad_id component_id pad_number center size_x_nm size_y_nm shape rotation_udeg
    layers pad_drill_nm net_id locked drill_x_nm drill_y_nm drill_rotation_udeg shared_land_group_id).

Definition pin_fields (raw_pin : json) : option Payload.t := match raw_pin with JObj pin => Some pin | _ => None end.
Definition pin_definition (pin : Payload.t) : result PinDefinition.t :=
  let* number := Payload.string pin "number" in
  let* name := Payload.string pin "name" in
  let* electrical_type := Payload.string pin "electrical_type" in
  let* pad_number := Payload.string pin "pad_number" in
  let* required := Payload.boolean pin "required" true in
  PinDefinition.new (PinDefinition.mk number name electrical_type pad_number required).

Definition component_add (graph : t) (payload : Payload.t) : result t :=
  Payload.keys payload ["component_id"; "reference"; "value"; "manufacturer_part_number"; "package"; "symbol_id";
    "footprint_id"; "datasheet_sha256"; "pin_map_sha256"; "pins"] [] ;;;
  match assoc_get "pins" payload with
  | Some (JArr raw_pins) =>
    let objects := omap pin_fields raw_pins in
    let* pins := mapM pin_definition objects in
    raise_if (negb (length pins =? length raw_pins)%nat) (invariant_err "each pin must be an object") ;;;
    forM_ (fun pin => Payload.keys pin ["number"; "name"; "electrical_type"; "pad_number"] ["required"]) objects ;;;
    let* component_id := Payload.string payload "component_id" in
    let* reference := Payload.string payload "reference" in
    let* value := Payload.string payload "value" in
    let* manufacturer_part_number := Payload.string payload "manufacturer_part_number" in
    let* package := Payload.string payload "package" in
    let* symbol_id := Payload.string payload "symbol_id" in
    let* footprint_id := Payload.string payload "footprint_id" in
    let* datasheet_sha256 := Payload.string payload "datasheet_sha256" in
    let* pin_map_sha256 := Payload.string payload "pin_map_sha256" in
    let* component := Component.new (Component.mk component_id reference value manufacturer_part_number package
      symbol_id footprint_id datasheet_sha256 pin_map_sha256 pins) in
    raise_if (str_in component_id (Component.component_id <$> components graph))
      (invariant_err ("component " +:+ component_id +:+ " already exists")) ;;;
    raise_if (str_in reference (Component.reference <$> components graph))
      (invariant_err ("component reference " +:+ reference +:+ " already exists")) ;;;
    new (graph <| components := (components graph ++ [component])%list |>)
  | _ => Err (invariant_err "component pins must be an array")
  end.

(** [next((item for item in graph.placements if item.component_id == component_id), None)] *)
Definition placement_of (graph : t) (component_id : string) : option FootprintPlacement.t :=
  head (filter (fun item => FootprintPlacement.component_id item = component_id) (placements graph)).

Definition component_remove (graph : t) (payload : Payload.t) : result t :=
  Payload.keys payload ["component_id"] [] ;;;
  let* component_id := Payload.string payload "component_id" in
  raise_if (negb (str_in component_id (Component.component_id <$> components graph)))
    (invariant_err ("unknown component " +:+ component_id)) ;;;
  raise_if (existsb (fun net => str_in component_id (PinRef.component_id <$> Net.members net)) (nets graph))
    (invariant_err "disconnect a component from all nets before removal") ;;;
  raise_if (match placement_of graph component_id with Some item => FootprintPlacement.locked item | None => false end)
    (Exn LockedObject ("component " +:+ component_id +:+ " has a locked placement")) ;;;
  raise_if (existsb (fun item => bool_decide (FootprintPad.component_id item = component_id) && FootprintPad.locked item) (pads graph) ||
      existsb (fun item => bool_decide (FootprintHole.component_id item = component_id) && FootprintHole.locked item) (holes graph))
    (Exn LockedObject ("component " +:+ component_id +:+ " has locked footprint geometry")) ;;;
  new ((((graph
    <| components := filter (fun item => Component.component_id item <> component_id) (components graph) |>)
    <| placements := filter (fun item => FootprintPlacement.component_id item <> component_id) (placements graph) |>)
    <| pads := filter (fun item => FootprintPad.component_id item <> component_id) (pads graph) |>)
    <| holes := filter (fun item => FootprintHole.component_id item <> component_id) (holes graph) |>).

Definition net_create (graph : t) (payload : Payload.t) : result t :=
  Payload.keys payload ["net_id"; "name"] [] ;;;
  let* net_id := Payload.string payload "net_id" in
  let* name := Payload.string payload "name" in
  raise_if (str_in net_id (Net.net_id <$> nets graph)) (invariant_err ("net " +:+ net_id +:+ " already exists")) ;;;
  raise_if (str_in name (Net.name <$> nets graph)) (invariant_err ("net name " +:+ name +:+ " already exists")) ;;;
  let* net := Net.new (Net.mk net_id name []) in
  new (graph <| nets := (nets graph ++ [net])%list |>).

Definition net_connect (graph : t) (payload : Payload.t) : result t :=
  Payload.keys payload ["net_id"; "component_id"; "pin_number"] [] ;;;
  let* net_id := Payload.string payload "net_id" in
  let* component_id := Payload.string payload "component_id" in
  let* pin_number := Payload.string payload "pin_number" in
  let* member := PinRef.new (PinRef.mk component_id pin_number) in
  let pin := "pin " +:+ component_id +:+ ":" +:+ pin_number in
  match filter (fun net => member ∈ Net.members net) (nets graph) with
  | existing_net :: _ =>
    if bool_decide (Net.net_id existing_net = net_id)
    then Err (Exn CommandConflict (pin +:+ " is already connected"))
    else Err (invariant_err (pin +:+ " already belongs to net " +:+ Net.net_id existing_net))
  | [] =>
    let* nets' := mapM (fun net =>
      if bool_decide (Net.net_id net = net_id)
      then Net.new (net <| Net.members := (Net.members net ++ [member])%list |>) else Ok net) (nets graph) in
    raise_if (negb (str_in net_id (Net.net_id <$> nets graph))) (invariant_err ("unknown net " +:+ net_id)) ;;;
    new (graph <| nets := nets' |>)
  end.

Definition footprint_place (graph : t) (payload : Payload.t) : result t :=
  Payload.keys payload ["component_id"; "x_nm"; "y_nm"; "rotation_udeg"; "side"] ["locked"] ;;;
  let* component_id := Payload.string payload "component_id" in
  raise_if (negb (str_in component_id (Component.component_id <$> components graph)))
    (invariant_err ("unknown component " +:+ component_id)) ;;;
  raise_if (match placement_of graph component_id with Some item => FootprintPlacement.locked item | None => false end)
    (Exn LockedObject ("placement for " +:+ component_id +:+ " is locked")) ;;;
  let* position := Payload.point_at payload "x_nm" "y_nm" in
  let* rotation_udeg := Payload.integer payload "rotation_udeg" in
  let* side := Payload.string payload "side" in
  let* locked := Payload.boolean payload "locked" false in
  let* placement := FootprintPlacement.new (FootprintPlacement.mk component_id position rotation_udeg side locked) in
  new (graph <| placements :=
    (filter (fun item => FootprintPlacement.component_id item <> component_id) (placements graph) ++ [placement])%list |>).

Definition footprint_pad_add (graph : t) (payload : Payload.t) : result t :=
  let* pad := footprint_pad payload in
  raise_if (bool_decide (is_Some (FootprintPad.shared_land_group_id pad)))
    (invariant_err "a shared land must be added atomically with footprint.pad_group.add") ;;;
  raise_if (str_in (FootprintPad.pad_id pad) (FootprintPad.pad_id <$> pads graph))
    (invariant_err ("pad " +:+ FootprintPad.pad_id pad +:+ " already exists")) ;;;
  new (graph <| pads := (pads graph ++ [pad])%list |>).

Definition footprint_pad_group_add (graph : t) (payload : Payload.t) : result t :=
  Payload.keys payload ["shared_land_group_id"; "pads"] [] ;;;
  let* group_id := Payload.string payload "shared_land_group_id" in
  let err := invariant_err "shared land pads must be an array of at least two exact pad objects" in
  match assoc_get "pads" payload with
  | Some (JArr raw_pad_values) =>
    let raw_pads := omap pin_fields raw_pad_values in
    raise_if ((length raw_pad_values <? 2)%nat || negb (length raw_pads =? length raw_pad_values)%nat) err ;;;
    let* group_pads := mapM footprint_pad raw_pads in
    raise_if (existsb (fun pad => negb (bool_decide (FootprintPad.shared_land_group_id pad = Some group_id))) group_pads)
      (invariant_err "every shared land pad must bind the exact command group ID") ;;;
    let new_pad_ids := FootprintPad.pad_id <$> group_pads in
    raise_if (has_duplicates new_pad_ids || existsb (fun existing => str_in (FootprintPad.pad_id existing) new_pad_ids) (pads graph))
      (invariant_err "shared land physical pad IDs must be new and unique") ;;;
    new (graph <| pads := (pads graph ++ group_pads)%list |>)
  | _ => Err err
  end.

Definition footprint_hole_add (graph : t) (payload : Payload.t) : result t :=
  Payload.keys payload ["hole_id"; "component_id"; "center_x_nm"; "center_y_nm"; "diameter_nm"; "plated"]
    ["pad_id"; "locked"; "drill_x_nm"; "drill_y_nm"; "drill_rotation_udeg"] ;;;
  let* hole_id := Payload.string payload "hole_id" in
  let* component_id := Payload.string payload "component_id" in
  let* center := Payload.point_at payload "center_x_nm" "center_y_nm" in
  let* diameter_nm := Payload.integer payload "diameter_nm" in
  let* plated := Payload.boolean payload "plated" false in
  let* pad_id := Payload.optional_string payload "pad_id" in
  let* locked := Payload.boolean payload "locked" false in
  let* drill_x_nm := Payload.integer_or payload "drill_x_nm" 0 in
  let* drill_y_nm := Payload.integer_or payload "drill_y_nm" 0 in
  let* drill_rotation_udeg := Payload.integer_or payload "drill_rotation_udeg" 0 in
  let* hole := FootprintHole.new (FootprintHole.mk hole_id component_id center diameter_nm plated pad_id locked
    drill_x_nm drill_y_nm drill_rotation_udeg) in
  raise_if (str_in hole_id (FootprintHole.hole_id <$> holes graph))
    (invariant_err ("hole " +:+ hole_id +:+ " already exists")) ;;;
  new (graph <| holes := (holes graph ++ [hole])%list |>).

Definition track_add (graph : t) (payload : Payload.t) : result t :=
  Payload.keys payload ["track_id"; "net_id"; "layer"; "start_x_nm"; "start_y_nm"; "end_x_nm"; "end_y_nm"; "width_nm"]
    ["locked"] ;;;
  let* track_id := Payload.string payload "track_id" in
  let* net_id := Payload.string payload "net_id" in
  let* layer := Payload.string payload "layer" in
  let* start := Payload.point_at payload "start_x_nm" "start_y_nm" in
  let* end_ := Payload.point_at payload "end_x_nm" "end_y_nm" in
  let* width_nm := Payload.integer payload "width_nm" in
  let* locked := Payload.boolean payload "locked" false in
  let* track := Track.new (Track.mk track_id net_id layer start end_ width_nm locked) in
  raise_if (str_in track_id (Track.track_id <$> tracks graph))
    (invariant_err ("track " +:+ track_id +:+ " already exists")) ;;;
  new (graph <| tracks := (tracks graph ++ [track])%list |>).

Definition via_add (graph : t) (payload : Payload.t) : result t :=
  Payload.keys payload ["via_id"; "net_id"; "center_x_nm"; "center_y_nm"; "diameter_nm"; "drill_nm"; "layers"]
    ["locked"] ;;;
  let* via_id := Payload.string payload "via_id" in
  let* net_id := Payload.string payload "net_id" in
  let* center := Payload.point_at payload "center_x_nm" "center_y_nm" in
  let* diameter_nm := Payload.integer payload "diameter_nm" in
  let* drill_nm := Payload.integer payload "drill_nm" in
  let* layers := Payload.string_tuple payload "layers" in
  let* locked := Payload.boolean payload "locked" false in
  let* via := Via.new (Via.mk via_id net_id center diameter_nm drill_nm layers locked) in
  raise_if (str_in via_id (Via.via_id <$> vias graph)) (invariant_err ("via " +:+ via_id +:+ " already exists")) ;;;
  new (graph <| vias := (vias graph ++ [via])%list |>).

Definition zone_add (graph : t) (payload : Payload.t) : result t :=
  Payload.keys payload ["zone_id"; "net_id"; "layer"; "outline"; "clearance_nm"]
    ["min_thickness_nm"; "priority"; "locked"] ;;;
  let* zone_id := Payload.string payload "zone_id" in
  let* net_id := Payload.string payload "net_id" in
  let* layer := Payload.string payload "layer" in
  let* outline := Payload.points payload "outline" in
  let* clearance_nm := Payload.integer payload "clearance_nm" in
  let* min_thickness_nm := Payload.integer_or payload "min_thickness_nm" 100000 in
  let* priority := Payload.integer_or payload "priority" 0 in
  let* locked := Payload.boolean payload "locked" false in
  let* zone := CopperZone.new (CopperZone.mk zone_id net_id layer outline clearance_nm min_thickness_nm priority
    locked ZoneFillState.UNFILLED_INTENT None) in
  raise_if (str_in zone_id (CopperZone.zone_id <$> zones graph))
    (invariant_err ("zone " +:+ zone_id +:+ " already exists")) ;;;
  new (graph <| zones := (zones graph ++ [zone])%list |>).

Definition schematic_wire_add (graph : t) (payload : Payload.t) : result t :=
  Payload.keys payload ["wire_id"; "net_id"; "vertices"] ["sheet_id"; "locked"] ;;;
  let* wire_id := Payload.string payload "wire_id" in
  let* net_id := Payload.string payload "net_id" in
  let* vertices := Payload.points payload "vertices" in
  let* sheet_id := Payload.string_or payload "sheet_id" "root" in
  let* locked := Payload.boolean payload "locked" false in
  let* wire := SchematicWire.new (SchematicWire.mk wire_id net_id vertices sheet_id locked) in
  raise_if (str_in wire_id (SchematicWire.wire_id <$> schematic_wires graph))
    (invariant_err ("schematic wire " +:+ wire_id +:+ " already exists")) ;;;
  new (graph <| schematic_wires := (schematic_wires graph ++ [wire])%list |>).

Definition schematic_junction_add (graph : t) (payload : Payload.t) : result t :=
  Payload.keys payload ["junction_id"; "net_id"; "x_nm"; "y_nm"] ["sheet_id"; "locked"] ;;;
  let* junction_id := Payload.string payload "junction_id" in
  let* net_id := Payload.string payload "net_id" in
  let* position := Payload.point_at payload "x_nm" "y_nm" in
  let* sheet_id := Payload.string_or payload "sheet_id" "root" in
  let* locked := Payload.boolean payload "locked" false in
  let* junction := SchematicJunction.new (SchematicJunction.mk junction_id net_id position sheet_id locked) in
  raise_if (str_in junction_id (SchematicJunction.junction_id <$> schematic_junctions graph))
    (invariant_err ("schematic junction " +:+ junction_id +:+ " already exists")) ;;;
  new (graph <| schematic_junctions := (schematic_junctions graph ++ [junction])%list |>).

Definition board_set_outline (graph : t) (payload : Payload.t) : result t :=
  Payload.keys payload ["vertices"] [] ;;;
  let* vertices := Payload.points payload "vertices" in
  new (graph <| board_outline := vertices |>).

Definition by_kind (kind : CommandKind.t) : t -> Payload.t -> result t :=
  match kind with
  | CommandKind.COMPONENT_ADD => component_add
  | CommandKind.COMPONENT_REMOVE => component_remove
  | CommandKind.NET_CREATE => net_create
  | CommandKind.NET_CONNECT => net_connect
  | CommandKind.FOOTPRINT_PLACE => footprint_place
  | CommandKind.FOOTPRINT_PAD_ADD => footprint_pad_add
  | CommandKind.FOOTPRINT_PAD_GROUP_ADD => footprint_pad_group_add
  | CommandKind.FOOTPRINT_HOLE_ADD => footprint_hole_add
  | CommandKind.TRACK_ADD => track_add
  | CommandKind.VIA_ADD => via_add
  | CommandKind.ZONE_ADD => zone_add
  | CommandKind.SCHEMATIC_WIRE_ADD => schematic_wire_add
  | CommandKind.SCHEMATIC_JUNCTION_ADD => schematic_junction_add
  | CommandKind.BOARD_SET_OUTLINE => board_set_outline
  end.
End Apply.

(** [DesignKernel._apply(graph, command)] *)
Definition apply_command (graph : DesignGraph.t) (command : DesignCommand.t) : result DesignGraph.t :=
  let* payload := DesignCommand.payload command in
  Apply.by_kind (DesignCommand.kind command) graph payload.
