(* ===== verification/KernelLaws.v ===== *)
(** * Normal forms and hashes of the design graph

    A record that its constructor returned is returned again unchanged, and a
    normal form is its own normal form: for every entity, and for a graph that
    [validate_graph] accepts.  A hash commits to its record. *)
From S2P Require Import Prelude PyDict PyStr Sha256 Json Models DigestFacts Geometry Board OutlineFacts Canonical.
From S2P Require Import BoardValues Policy CanonicalFacts KernelText KernelModel KernelShape KernelGraph KernelCommand.

(** ** Sorting again *)

Lemma mapM_same {A} (f : A -> result A) l : (forall x, x ∈ l -> f x = Ok x) -> mapM f l = Ok l.
Proof.
  induction l as [|x l IH]; intros H; [done|]. simpl. rewrite H by by left. cbn [bind].
  rewrite IH; [done|]. intros y Hy. apply H. by right.
Qed.

Lemma sorted_on_idemp {A K} `{PyOrdLaws K} (key : A -> K) l :
  NoDup (key <$> l) -> sorted_on key (sorted_on key l) = sorted_on key l.
Proof.
  intros Hnd. apply sorted_on_sorted; [|apply sorted_on_StronglySorted]. intros x y. rewrite !elem_of_sorted_on.
  intros Hx Hy E. apply list_elem_of_lookup in Hx as [i Hi], Hy as [j Hj].
  assert (i = j) as ->; [|congruence]. eapply NoDup_lookup; [exact Hnd|..]; rewrite list_lookup_fmap.
  - by rewrite Hi.
  - rewrite Hj. simpl. by rewrite E.
Qed.

Lemma sorted_id_idemp {A} `{PyOrdLaws A} (l : list A) : sorted_on id (sorted_on id l) = sorted_on id l.
Proof. apply sorted_on_sorted; [done|apply sorted_on_StronglySorted]. Qed.

#[export] Instance pin_ref_order_laws : PyOrdLaws PinRef.t.
Proof.
  split; unfold py_le, PinRef.order.
  - intros x. apply py_le_refl.
  - intros x y z. apply py_le_trans.
  - intros [a b] [c d] H1 H2. by injection (py_le_antisym _ _ H1 H2) as -> ->.
  - intros x y. apply py_le_total.
Qed.

(** ** Entities *)

(** [make] is the constructor of an entity and [normalized] its normal form. *)
Record entity_laws {A} (make normalized : A -> result A) : Prop := {
  make_again x y : make x = Ok y -> make y = Ok y;
  normal_again x y : normalized x = Ok y -> normalized y = Ok y;
}.

(** The checks of a constructor that returns its argument. *)
Lemma checks_Ok {A} (c : result unit) (x y : A) : (c ;;; Ok x) = Ok y <-> c = Ok tt /\ x = y.
Proof. rewrite seq_Ok. split; intros [Hc H]; (split; [done|]); [by injection H|by rewrite H]. Qed.

(** A constructor that returns its argument, and a normal form computed on it. *)
Lemma pure_entity {A} (make : A -> result A) (normal : A -> A) :
  (forall x y, make x = Ok y -> y = x) ->
  (forall x, make (normal x) = Ok (normal x) -> normal (normal x) = normal x) ->
  entity_laws make (fun x => make (normal x)).
Proof.
  intros Hm Hn. split.
  - intros x y H. by rewrite (Hm _ _ H) in H |- *.
  - intros x y H. pose proof (Hm _ _ H) as ->. by rewrite (Hn x H).
Qed.

(** [y = x] from [make x = Ok y], where [make] ends in [Ok x]. *)
Ltac returns_argument :=
  let H := fresh in intros ? ? H; repeat first [apply seq_Ok in H as [_ H]]; by injection H.

Lemma component_entity : entity_laws Component.new Component.normalized.
Proof.
  apply (pure_entity _ (fun x => x <| Component.pins := sorted_on PinDefinition.number (Component.pins x) |>));
    [returns_argument|].
  intros x H. unfold Component.new in H. do 10 apply seq_Ok in H as [_ H]. apply seq_Ok in H as [H%raise_if_Ok _].
  apply orb_false_iff in H as [H%no_duplicates _]. destruct x as [a b c d e f g h i pins].
  unfold set_field in *. cbn [Component.pins] in *. f_equal. rewrite sorted_on_Permutation in H. by apply sorted_on_idemp.
Qed.

Lemma net_entity : entity_laws Net.new Net.normalized.
Proof.
  apply (pure_entity _ (fun x => x <| Net.members := sorted_on id (Net.members x) |>)); [returns_argument|].
  intros [a b m] _. unfold set_field. cbn [Net.members]. f_equal. apply sorted_id_idemp.
Qed.

Lemma via_entity : entity_laws Via.new Via.normalized.
Proof.
  apply (pure_entity _ (fun x => x <| Via.layers := sorted_on id (Via.layers x) |>)); [returns_argument|].
  intros [] _. unfold set_field. cbn [Via.layers]. f_equal. apply sorted_id_idemp.
Qed.

Lemma track_entity : entity_laws Track.new Track.normalized.
Proof.
  apply (pure_entity _ (fun x =>
    let low := if py_lt (Track.end_ x) (Track.start x) then Track.end_ x else Track.start x in
    let high := if py_lt (Track.start x) (Track.end_ x) then Track.end_ x else Track.start x in
    (x <| Track.start := low |>) <| Track.end_ := high |>)); [returns_argument|].
  intros [a b c s e w l] _. cbn. unfold py_lt.
  destruct (py_le s e) eqn:E1, (py_le e s) eqn:E2; cbn.
  - pose proof (py_le_antisym _ _ E1 E2) as ->. by rewrite !py_le_refl.
  - by rewrite E1, E2.
  - by rewrite E1, E2.
  - destruct (py_le_total s e); congruence.
Qed.

Lemma wire_entity : entity_laws SchematicWire.new SchematicWire.normalized.
Proof.
  apply (pure_entity _ (fun x => x <| SchematicWire.vertices :=
    if py_lt (reverse (SchematicWire.vertices x)) (SchematicWire.vertices x)
    then reverse (SchematicWire.vertices x) else SchematicWire.vertices x |>)); [returns_argument|].
  intros [a b v s l] _. unfold set_field, py_lt. cbn [SchematicWire.vertices]. f_equal.
  destruct (py_le v (reverse v)) eqn:E; cbn [negb]; [by rewrite E|]. rewrite reverse_involutive.
  destruct (py_le (reverse v) v) eqn:E2; cbn [negb]; [done|]. destruct (py_le_total v (reverse v)); congruence.
Qed.

(** *** Pads and holes *)

(** Evaluation that leaves arithmetic alone. *)
Ltac fields := cbn -[Z.leb Z.ltb Z.eqb Z.min Z.modulo].
Tactic Notation "fields_in" hyp(H) := cbn -[Z.leb Z.ltb Z.eqb Z.min Z.modulo] in H.

(** The drill of a pad, as its constructor leaves it. *)
Definition drill_complete (p : FootprintPad.t) : Prop :=
  let dx := FootprintPad.drill_x_nm p in
  let dy := FootprintPad.drill_y_nm p in
  (FootprintPad.pad_drill_nm p = 0 /\ dx = 0 /\ dy = 0)%Z \/
  (0 < dx < FootprintPad.size_x_nm p /\ 0 < dy < FootprintPad.size_y_nm p /\ FootprintPad.pad_drill_nm p = Z.min dx dy)%Z.

Definition with_drill (p : FootprintPad.t) (d dx dy : Z) : FootprintPad.t :=
  ((p <| FootprintPad.pad_drill_nm := d |>) <| FootprintPad.drill_x_nm := dx |>) <| FootprintPad.drill_y_nm := dy |>.

Lemma complete_drill_same p : drill_complete p -> FootprintPad.complete_drill p = Ok p.
Proof.
  destruct p as [a b c d sx sy e f g px h i dx dy j k]. unfold drill_complete. fields. intros [(-> & -> & ->)|(Hx & Hy & ->)].
  - done.
  - assert ((Z.min dx dy <? 0) = false /\ (dx <? 0) = false /\ (dy <? 0) = false /\ (dx =? 0) = false /\
      (dy =? 0) = false /\ (0 <? dx) = true /\ (Z.min dx dy =? 0) = false /\ (sx <=? dx) = false /\
      (sy <=? dy) = false)%Z as (E1 & E2 & E3 & E4 & E5 & E6 & E7 & E8 & E9).
    { rewrite !Z.ltb_ge, !Z.eqb_neq, Z.ltb_lt, !Z.leb_gt. lia. }
    unfold FootprintPad.complete_drill.
    repeat progress (rewrite ?E1, ?E2, ?E3, ?E4, ?E5, ?E6, ?E7, ?E8, ?E9, ?Z.eqb_refl; fields). done.
Qed.

Lemma complete_drill_Ok p q :
  FootprintPad.complete_drill p = Ok q -> exists d dx dy, q = with_drill p d dx dy /\ drill_complete q /\
    (d = FootprintPad.pad_drill_nm p \/ d = dx \/ d = dy) /\
    (dx = FootprintPad.drill_x_nm p \/ dx = FootprintPad.pad_drill_nm p) /\
    (dy = FootprintPad.drill_y_nm p \/ dy = FootprintPad.pad_drill_nm p) /\
    (FootprintPad.drill_x_nm p = FootprintPad.drill_y_nm p <-> dx = dy).
Proof.
  destruct p as [a b c d sx sy e f g px h i dx dy j k]. unfold FootprintPad.complete_drill, drill_complete, with_drill.
  rewrite seq_Ok, raise_if_Ok, !orb_false_iff, !Z.ltb_ge. fields. intros [[[H1 H2] H3] H].
  destruct ((dx =? 0) && (dy =? 0) && (0 <? px))%Z eqn:E.
  - fields_in H. rewrite !andb_true_iff, !Z.eqb_eq, Z.ltb_lt in E. destruct E as [[-> ->] E].
    rewrite (proj2 (Z.eqb_neq px 0)), (proj2 (Z.ltb_lt 0 px)) in H by lia. fields_in H.
    rewrite Z.min_id, Z.eqb_refl in H. fields_in H. apply seq_Ok in H as [H%raise_if_Ok [= <-]].
    rewrite orb_false_iff, !Z.leb_gt in H. exists px, px, px. fields. split_and!; [done|right; lia|auto..|done].
  - fields_in H. apply seq_Ok in H as [Hx%raise_if_Ok H]. destruct (0 <? dx)%Z eqn:Ex; [apply Z.ltb_lt in Ex|apply Z.ltb_ge in Ex].
    + rewrite (proj2 (Z.eqb_neq dx 0)) in Hx by lia. fields_in Hx. destruct (Z.eqb_spec dy 0); [done|].
      apply bind_Ok in H as (q1 & Hq & H). apply seq_Ok in H as [H%raise_if_Ok [= <-]].
      exists (Z.min dx dy), dx, dy. destruct (px =? 0)%Z eqn:Ep.
      * apply Ok_inj in Hq as <-. fields_in H; fields. rewrite orb_false_iff, !Z.leb_gt in H.
        split_and!; [done|right; lia|right; lia|auto..|done].
      * apply seq_Ok in Hq as [Hq%raise_if_Ok [= <-]]. apply negb_false_iff, Z.eqb_eq in Hq as ->.
        fields_in H; fields. rewrite orb_false_iff, !Z.leb_gt in H. split_and!; [done|right; lia|right; lia|auto..|done].
    + apply seq_Ok in H as [H%raise_if_Ok [= <-]]. apply negb_false_iff, Z.eqb_eq in H as ->.
      assert (dx = 0%Z) as -> by lia. fields_in Hx. destruct (Z.eqb_spec dy 0) as [->|]; [|done].
      exists 0%Z, 0%Z, 0%Z. fields. split_and!; [done|by left|auto..|done].
Qed.

Lemma require_int64_Ok z label u : require_int64 z label = Ok u <-> int64 z = true.
Proof. unfold require_int64. by rewrite raise_if_Ok, negb_false_iff. Qed.

(** The drill is the only field that the constructor of a pad completes. *)
Lemma pad_new_Ok p q :
  FootprintPad.new p = Ok q -> FootprintPad.complete_drill p = Ok q /\ FootprintPad.new q = Ok q.
Proof.
  intros H. unfold FootprintPad.new in H. do 12 (apply seq_Ok in H as [? H]).
  apply seq_Ok in H as [Hi1%require_int64_Ok H]. apply seq_Ok in H as [Hi2%require_int64_Ok H].
  apply seq_Ok in H as [Hi3%require_int64_Ok H]. apply seq_Ok in H as [Hi4%require_int64_Ok H].
  apply bind_Ok in H as (p' & Hd & H). do 5 (apply seq_Ok in H as [? H]). apply Ok_inj in H as ->.
  split; [done|]. destruct (complete_drill_Ok _ _ Hd) as (d & dx & dy & -> & Hc & Ed & Ex & Ey & _).
  unfold FootprintPad.new. rewrite (complete_drill_same _ Hc). destruct p as [a b c e sx sy f g l px h i x y j k].
  unfold with_drill in *. fields_in Hi1. fields_in Hi2. fields_in Hi3. fields_in Hi4.
  fields_in Ed. fields_in Ex. fields_in Ey.
  assert (int64 dx = true) as Ix by (by destruct Ex as [->| ->]).
  assert (int64 dy = true) as Iy by (destruct Ey; congruence).
  assert (int64 d = true) as Id by (destruct Ed as [?|[?|?]]; congruence).
  assert (forall z label, int64 z = true -> require_int64 z label = Ok tt) as I by (intros; by apply require_int64_Ok).
  cbn -[Z.leb Z.ltb Z.eqb Z.min Z.modulo] in *.
  rewrite (I d), (I dx), (I dy), (I j) by done. cbn [bind].
  repeat match goal with H : ?c = Ok tt |- context [?c] => rewrite H; cbn [bind] end. done.
Qed.

Lemma normal_drill_rotation_idemp dx dy r dx' dy' :
  (dx = dy <-> dx' = dy') ->
  normal_drill_rotation dx' dy' (normal_drill_rotation dx dy r) = normal_drill_rotation dx dy r.
Proof.
  intros E. unfold normal_drill_rotation. destruct (Z.eqb_spec dx dy) as [->|Hne], (Z.eqb_spec dx' dy') as [->|Hne'];
    try done; try (exfalso; tauto). by rewrite Z.mod_mod.
Qed.

Lemma pad_entity : entity_laws FootprintPad.new FootprintPad.normalized.
Proof.
  split; [by intros x y [_ H]%pad_new_Ok|]. intros x y H. pose proof (pad_new_Ok _ _ H) as [Hd Hn].
  destruct (complete_drill_Ok _ _ Hd) as (d & dx & dy & Ey & _ & _ & _ & _ & E).
  assert (FootprintPad.layers y = sorted_on id (FootprintPad.layers x)) as El by (by rewrite Ey).
  assert (FootprintPad.drill_rotation_udeg y = normal_drill_rotation (FootprintPad.drill_x_nm x)
    (FootprintPad.drill_y_nm x) (FootprintPad.drill_rotation_udeg x)) as Er by (by rewrite Ey).
  assert (FootprintPad.drill_x_nm x = FootprintPad.drill_y_nm x <->
    FootprintPad.drill_x_nm y = FootprintPad.drill_y_nm y) as Exy by (rewrite Ey; exact E).
  unfold FootprintPad.normalized at 1. rewrite <- Hn. f_equal. clear -El Er Exy.
  rewrite El, sorted_id_idemp, <- El, Er, (normal_drill_rotation_idemp _ _ _ _ _ Exy), <- Er. by destruct y.
Qed.

Lemma hole_new_Ok p q :
  FootprintHole.new p = Ok q ->
  FootprintHole.new q = Ok q /\
  (FootprintHole.drill_x_nm p = FootprintHole.drill_y_nm p <-> FootprintHole.drill_x_nm q = FootprintHole.drill_y_nm q) /\
  FootprintHole.drill_rotation_udeg q = FootprintHole.drill_rotation_udeg p /\
  q = ((p <| FootprintHole.drill_x_nm := FootprintHole.drill_x_nm q |>)
         <| FootprintHole.drill_y_nm := FootprintHole.drill_y_nm q |>).
Proof.
  intros H. destruct p as [a b c d pl pd lk x y j]. unfold FootprintHole.new in H.
  do 2 (apply seq_Ok in H as [? H]). cbn -[Z.leb Z.ltb Z.eqb Z.min Z.modulo] in *.
  apply seq_Ok in H as [Hd H]. apply seq_Ok in H as [Hx H]. apply seq_Ok in H as [Hy H]. apply seq_Ok in H as [Hj H].
  apply seq_Ok in H as [Hpos H].
  destruct ((x =? 0)%Z && (y =? 0)%Z) eqn:E; cbn -[Z.leb Z.ltb Z.eqb Z.min Z.modulo] in H.
  - apply andb_true_iff in E as [->%Z.eqb_eq ->%Z.eqb_eq]. apply raise_if_Ok in Hpos as Hp.
    assert ((d =? 0)%Z = false) as E by lia.
    do 6 (apply seq_Ok in H as [? H]). apply Ok_inj in H as <-. cbn -[Z.leb Z.ltb Z.eqb Z.min Z.modulo] in *.
    split_and!; [|done..]. unfold FootprintHole.new. cbn -[Z.leb Z.ltb Z.eqb Z.min Z.modulo]. rewrite E.
    apply require_int64_Ok in Hd. assert (forall label, require_int64 d label = Ok tt) as I by (intros; by apply require_int64_Ok).
    rewrite !I. cbn -[Z.leb Z.ltb Z.eqb Z.min Z.modulo].
    repeat match goal with H : ?c = Ok tt |- context [?c] => rewrite H; cbn -[Z.leb Z.ltb Z.eqb Z.min Z.modulo] end. done.
  - do 6 (apply seq_Ok in H as [? H]). apply Ok_inj in H as <-. split_and!; [|done..].
    unfold FootprintHole.new. cbn -[Z.leb Z.ltb Z.eqb Z.min Z.modulo]. rewrite E.
    cbn -[Z.leb Z.ltb Z.eqb Z.min Z.modulo] in *.
    repeat match goal with H : ?c = Ok tt |- context [?c] => rewrite H; cbn -[Z.leb Z.ltb Z.eqb Z.min Z.modulo] end. done.
Qed.

Lemma hole_entity : entity_laws FootprintHole.new FootprintHole.normalized.
Proof.
  split; [by intros x y [H _]%hole_new_Ok|]. intros x y H. destruct (hole_new_Ok _ _ H) as (Hn & E & Er & Ey).
  unfold FootprintHole.normalized at 1. rewrite <- Hn. f_equal.
  change (FootprintHole.drill_x_nm x = FootprintHole.drill_y_nm x <->
    FootprintHole.drill_x_nm y = FootprintHole.drill_y_nm y) in E.
  change (FootprintHole.drill_rotation_udeg y = normal_drill_rotation (FootprintHole.drill_x_nm x)
    (FootprintHole.drill_y_nm x) (FootprintHole.drill_rotation_udeg x)) in Er.
  rewrite Er, (normal_drill_rotation_idemp _ _ _ _ _ E), <- Er. by destruct y.
Qed.

(** *** Rings *)

Lemma py_le_cons {A} `{PyOrdLaws A} (a : A) (l m : list A) : py_le (a :: l) (a :: m) = py_le l m.
Proof. change (py_le a a && (negb (py_le a a) || py_le l m) = py_le l m). by rewrite py_le_refl. Qed.

Lemma rotated_constant {A} `{PyOrdLaws A} (a : A) (l : list A) :
  (forall x, x ∈ l -> py_le a x = true) -> py_le (l ++ [a]) (a :: l) = true -> forall x, x ∈ l -> x = a.
Proof.
  induction l as [|y l IH]; intros Hle Hr x Hx; [by apply elem_of_nil in Hx|].
  change (py_le y a && (negb (py_le a y) || py_le (l ++ [a]) (y :: l)) = true) in Hr.
  apply andb_true_iff in Hr as [Hya Hr]. assert (y = a) as ->.
  { apply py_le_antisym; [done|]. apply Hle. by left. }
  rewrite py_le_refl in Hr. apply elem_of_cons in Hx as [->|Hx]; [done|]. apply IH; [|done..].
  intros z Hz. apply Hle. by right.
Qed.

(** The least way to write a polygon begins with its least vertex. *)
Lemma normalized_head (v : BoardOutline) p l x :
  Outline.opened v <> [] -> Outline.normalized v = p :: l -> x ∈ l -> py_le p x = true.
Proof.
  intros Hne E Hx. destruct (normalized_least v Hne) as [S L]. rewrite E in S, L.
  apply list_elem_of_split in Hx as (l1 & l2 & ->).
  assert (py_le (p :: l1 ++ x :: l2) ((x :: l2) ++ (p :: l1))%list = true) as Hle.
  { apply L. eapply same_polygon_trans; [exact S|]. left. by exists (p :: l1), (x :: l2). }
  change (py_le p x && (negb (py_le x p) || py_le (l1 ++ x :: l2) (l2 ++ p :: l1)) = true) in Hle.
  by apply andb_true_iff in Hle as [? _].
Qed.

(** A normal form is not closed when it is a polygon. *)
Lemma normal_ring_open (v : BoardOutline) :
  NoDup (Outline.opened (Outline.normalized v)) -> (3 <= length (Outline.opened (Outline.normalized v)))%nat ->
  Outline.opened (Outline.normalized v) = Outline.normalized v.
Proof.
  intros Hnd Hlen. destruct (Outline.normalized v) as [|p l] eqn:E; [simpl in Hlen; lia|].
  unfold Outline.opened in *. destruct ((1 <? length (p :: l))%nat && _) eqn:Ec; [|done]. exfalso.
  apply andb_true_iff in Ec as [_ Ec%bool_decide_eq_true].
  destruct l as [|q l _] using rev_ind; [simpl in Hlen; lia|].
  rewrite app_comm_cons, last_snoc in Ec. injection Ec as <-.
  assert (take (length (p :: l ++ [p]) - 1) (p :: l ++ [p]) = p :: l) as Et.
  { rewrite app_comm_cons, length_app. simpl length. rewrite Nat.add_sub, <- (length_cons p l). apply take_app_length. }
  rewrite Et in Hnd, Hlen. destruct l as [|q l]; [simpl in Hlen; lia|]. apply NoDup_cons in Hnd as [Hp _]. apply Hp.
  assert (Outline.opened v <> []) as Hne.
  { intros Hn%normalized_nil. by rewrite Hn in E. }
  replace p with q; [by left|]. apply (rotated_constant p (q :: l)); [| |by left].
  - intros x Hx. eapply normalized_head; [exact Hne|exact E|]. apply elem_of_app. by left.
  - destruct (normalized_least v Hne) as [S L]. rewrite E in S, L. rewrite <- (py_le_cons p). apply L.
    eapply same_polygon_trans; [exact S|]. left. by exists (p :: q :: l), [p].
Qed.

Lemma polygon_open vertices label :
  Shape.validate_simple_polygon vertices label = Ok tt ->
  NoDup (Outline.opened vertices) /\ (3 <= length (Outline.opened vertices))%nat.
Proof. intros (? & ? & _)%validate_simple_polygon_Ok. done. Qed.

Lemma normalized_ring_idemp vertices label :
  Shape.validate_simple_polygon (Shape.normalized_ring vertices) label = Ok tt ->
  Shape.normalized_ring (Shape.normalized_ring vertices) = Shape.normalized_ring vertices.
Proof.
  intros [Hnd Hl]%polygon_open. rewrite !normalized_ring_kernel in *.
  pose proof (normal_ring_open _ Hnd Hl) as Ho.
  assert (Outline.opened vertices <> []) as Hne.
  { intros Hn%normalized_nil. rewrite Hn in Hl. simpl in Hl. lia. }
  pose proof (proj1 (normalized_least vertices Hne)) as S.
  change (Outline.normalized (Outline.normalized vertices) = Outline.normalized vertices).
  (* The two have the same polygon, and the normal form of a polygon is one. *)
  apply py_le_antisym.
  - assert (Outline.opened (Outline.normalized vertices) <> []) as Hne' by (intros Hn; rewrite Hn in Hl; simpl in Hl; lia).
    destruct (normalized_least _ Hne') as [_ L]. apply L. rewrite Ho. left. apply turned_refl.
  - destruct (normalized_least vertices Hne) as [_ L]. apply L. eapply same_polygon_trans; [exact S|].
    assert (Outline.opened (Outline.normalized vertices) <> []) as Hne' by (intros Hn; rewrite Hn in Hl; simpl in Hl; lia).
    destruct (normalized_least _ Hne') as [S' _]. by rewrite Ho in S'.
Qed.

Lemma zone_entity : entity_laws CopperZone.new CopperZone.normalized.
Proof.
  apply (pure_entity _ (fun x => x <| CopperZone.outline := Shape.normalized_ring (CopperZone.outline x) |>));
    [returns_argument|].
  intros x H. unfold CopperZone.new in H. do 3 apply seq_Ok in H as [_ H]. apply seq_Ok in H as [H _].
  destruct x as [a b c v d e f g h i]. unfold set_field in *. cbn [CopperZone.outline] in *. f_equal.
  by eapply normalized_ring_idemp.
Qed.

(** ** The graph *)

Lemma normalized_collection {A} (make normalized : A -> result A) (key : A -> string) l l' :
  entity_laws make normalized -> mapM normalized l = Ok l' -> NoDup (key <$> sorted_on key l') ->
  mapM normalized (sorted_on key l') = Ok (sorted_on key l') /\
  sorted_on key (sorted_on key l') = sorted_on key l'.
Proof.
  intros Hlaws Hl Hnd. split.
  - apply mapM_same. intros y Hy%elem_of_sorted_on. apply (mapM_elem _ _ _ y) in Hl.
    apply Hl in Hy as (x & _ & Hx). by eapply normal_again.
  - apply sorted_on_idemp. by rewrite sorted_on_Permutation in Hnd.
Qed.

Lemma sorted_collection {A} (key : A -> string) l :
  NoDup (key <$> sorted_on key l) -> sorted_on key (sorted_on key l) = sorted_on key l.
Proof. intros Hnd. apply sorted_on_idemp. by rewrite sorted_on_Permutation in Hnd. Qed.

Lemma unique_identities_Ok graph :
  Validate.unique_identities graph = Ok tt <->
  forall label values, (label, values) ∈ Validate.identities graph -> NoDup values.
Proof.
  unfold Validate.unique_identities. rewrite forM_Ok, Forall_forall. split.
  - intros H label values Hin. apply H, raise_if_Ok in Hin. by apply no_duplicates.
  - intros H [label values] Hin. apply raise_if_Ok, no_duplicates. by eapply H.
Qed.

Lemma validate_graph_header graph :
  validate_graph graph = Ok tt -> Validate.header graph = Ok tt /\ Validate.unique_identities graph = Ok tt.
Proof. unfold validate_graph. rewrite !seq_Ok. tauto. Qed.

(** A normal form that [validate_graph] accepts is its own normal form. *)
Lemma normalized_graph_again graph normal :
  DesignGraph.normalized graph = Ok normal -> validate_graph normal = Ok tt ->
  DesignGraph.normalized normal = Ok normal.
Proof.
  intros H [Hh Hu]%validate_graph_header. rewrite unique_identities_Ok in Hu. unfold DesignGraph.normalized in H.
  apply bind_Ok in H as (cs & E & H). apply bind_Ok in H as (ns & E0 & H). apply bind_Ok in H as (ts & E1 & H).
  apply bind_Ok in H as (ps & E2 & H). apply bind_Ok in H as (hs & E3 & H). apply bind_Ok in H as (vs & E4 & H).
  apply bind_Ok in H as (zs & E5 & H). apply bind_Ok in H as (ws & E6 & H).
  assert (forall x y, DesignGraph.new x = Ok y -> y = x) as Hnew by returns_argument.
  pose proof (Hnew _ _ H) as ->. revert Hh Hu H.
  set (outline := Shape.normalized_ring (DesignGraph.board_outline graph)). intros Hh Hu H.
  match type of H with DesignGraph.new ?n = _ => assert (forall i label values,
    Validate.identities n !! i = Some (label, values) -> NoDup values) as Hi end.
  { intros i label values Hi. eapply Hu, list_elem_of_lookup_2, Hi. }
  clear Hu. unfold Validate.identities in Hi. cbn [DesignGraph.components DesignGraph.nets DesignGraph.placements
    DesignGraph.tracks DesignGraph.pads DesignGraph.holes DesignGraph.vias DesignGraph.zones
    DesignGraph.schematic_wires DesignGraph.schematic_junctions] in Hi.
  destruct (normalized_collection _ _ Component.component_id _ _ component_entity E (Hi 0%nat _ _ eq_refl)) as [M1 S1].
  destruct (normalized_collection _ _ Net.net_id _ _ net_entity E0 (Hi 2%nat _ _ eq_refl)) as [M2 S2].
  destruct (normalized_collection _ _ Track.track_id _ _ track_entity E1 (Hi 5%nat _ _ eq_refl)) as [M3 S3].
  destruct (normalized_collection _ _ FootprintPad.pad_id _ _ pad_entity E2 (Hi 6%nat _ _ eq_refl)) as [M4 S4].
  destruct (normalized_collection _ _ FootprintHole.hole_id _ _ hole_entity E3 (Hi 7%nat _ _ eq_refl)) as [M5 S5].
  destruct (normalized_collection _ _ Via.via_id _ _ via_entity E4 (Hi 8%nat _ _ eq_refl)) as [M6 S6].
  destruct (normalized_collection _ _ CopperZone.zone_id _ _ zone_entity E5 (Hi 9%nat _ _ eq_refl)) as [M7 S7].
  destruct (normalized_collection _ _ SchematicWire.wire_id _ _ wire_entity E6 (Hi 10%nat _ _ eq_refl)) as [M8 S8].
  pose proof (sorted_collection _ _ (Hi 4%nat _ _ eq_refl)) as S9.
  pose proof (sorted_collection _ _ (Hi 11%nat _ _ eq_refl)) as S10.
  assert (Shape.normalized_ring outline = outline) as So.
  { unfold Validate.header in Hh. do 4 apply seq_Ok in Hh as [_ Hh]. cbn [DesignGraph.board_outline] in Hh.
    case_bool_decide as Hb; [by rewrite Hb|]. by eapply normalized_ring_idemp. }
  unfold DesignGraph.normalized. cbn [DesignGraph.components DesignGraph.nets DesignGraph.placements
    DesignGraph.tracks DesignGraph.pads DesignGraph.holes DesignGraph.vias DesignGraph.zones DesignGraph.board_outline
    DesignGraph.schematic_wires DesignGraph.schematic_junctions DesignGraph.layers DesignGraph.schema_version
    DesignGraph.project_id].
  rewrite M1, M2, M3, M4, M5, M6, M7, M8. cbn [bind].
  by rewrite S1, S2, S3, S4, S5, S6, S7, S8, S9, S10, So, sorted_id_idemp.
Qed.

(** * What the values of the design graph determine

    The laws of [Canonical] for the records of the design kernel, and what the
    kernel's hashes commit to: two records with the same hash are the same
    record, or the two hashed texts are a collision of SHA-256. *)

Local Open Scope string_scope.

#[export] Instance command_kind_value_inj : Inj (=) (=) CommandKind.value.
Proof. by intros [] []. Qed.
#[export] Instance design_fill_state_value_inj : Inj (=) (=) KernelModel.ZoneFillState.value.
Proof. by intros [] []. Qed.
#[export] Instance command_kind_laws : CanonicalLaws CommandKind.t := enum_laws _.
#[export] Instance design_fill_state_laws : CanonicalLaws KernelModel.ZoneFillState.t := enum_laws _.

#[export] Instance pin_ref_laws : CanonicalLaws PinRef.t.
Proof. record_laws. Qed.
#[export] Instance pin_definition_laws : CanonicalLaws PinDefinition.t.
Proof. record_laws. Qed.
#[export] Instance design_component_laws : CanonicalLaws KernelModel.Component.t.
Proof. record_laws. Qed.
#[export] Instance design_net_laws : CanonicalLaws KernelModel.Net.t.
Proof. record_laws. Qed.
#[export] Instance placement_laws : CanonicalLaws FootprintPlacement.t.
Proof. record_laws. Qed.
#[export] Instance design_pad_laws : CanonicalLaws FootprintPad.t.
Proof. record_laws. Qed.
#[export] Instance design_hole_laws : CanonicalLaws FootprintHole.t.
Proof. record_laws. Qed.
#[export] Instance design_via_laws : CanonicalLaws KernelModel.Via.t.
Proof. record_laws. Qed.
#[export] Instance design_fill_evidence_laws : CanonicalLaws KernelModel.ZoneFillEvidence.t.
Proof. record_laws. Qed.
#[export] Instance design_fill_evidence_not_none : NotNone KernelModel.ZoneFillEvidence.t.
Proof. intros x. apply record_not_none. Qed.
#[export] Instance copper_zone_laws : CanonicalLaws CopperZone.t.
Proof. record_laws. Qed.
#[export] Instance design_track_laws : CanonicalLaws KernelModel.Track.t.
Proof. record_laws. Qed.
#[export] Instance design_wire_laws : CanonicalLaws SchematicWire.t.
Proof. record_laws. Qed.
#[export] Instance design_junction_laws : CanonicalLaws SchematicJunction.t.
Proof. record_laws. Qed.
#[export] Instance design_graph_laws : CanonicalLaws DesignGraph.t.
Proof. record_laws. Qed.
#[export] Instance command_laws : CanonicalLaws DesignCommand.t.
Proof. record_laws. Qed.

(** ** Hashes of the kernel *)

Lemma hash_total v domain :
  canonical_value v -> domain <> "" -> nul_free domain = true -> exists h, stable_hash v domain = Ok h.
Proof.
  intros (j & Hj & _) Hd Hn. eexists. apply stable_hash_agrees, CanonicalFacts.stable_hash_Ok. eauto.
Qed.

Lemma hash_is_digest v domain h : stable_hash v domain = Ok h -> is_sha256_hex h = true.
Proof. intros (_ & _ & j & _ & ->)%stable_hash_agrees%stable_hash_Ok. apply sha256_hex_is_digest. Qed.

(** The same hash of two canonical values in one domain. *)
Lemma same_hash v1 v2 domain h :
  canonical_value v1 -> canonical_value v2 -> stable_hash v1 domain = Ok h -> stable_hash v2 domain = Ok h ->
  same_data v1 v2 \/ hash_collision v1 domain v2 domain.
Proof.
  intros W1 W2 H1%stable_hash_agrees H2%stable_hash_agrees.
  destruct (same_hash_same_data _ _ _ _ _ W1 W2 H1 H2) as [[_ E]|E]; [by left|by right].
Qed.

Lemma same_hash_record {A} `{CanonicalLaws A} (x y : A) domain h :
  stable_hash (py x) domain = Ok h -> stable_hash (py y) domain = Ok h ->
  x = y \/ hash_collision (py x) domain (py y) domain.
Proof.
  intros H1 H2. destruct (same_hash _ _ _ _ (py_canonical x) (py_canonical y) H1 H2) as [E|E]; [left|by right].
  by apply py_inj.
Qed.

(** A mapping of a fixed list of fields. *)
Lemma same_hash_mapping fields1 fields2 domain h :
  NoDup fields1.*1 -> fields1.*1 = fields2.*1 ->
  Forall (fun kv => canonical_value kv.2) fields1 -> Forall (fun kv => canonical_value kv.2) fields2 ->
  stable_hash (mapping fields1) domain = Ok h -> stable_hash (mapping fields2) domain = Ok h ->
  Forall2 (fun kv1 kv2 => same_data kv1.2 kv2.2) fields1 fields2 \/
  hash_collision (mapping fields1) domain (mapping fields2) domain.
Proof.
  intros Hnd Hk W1 W2 H1 H2.
  destruct (same_hash (mapping fields1) (mapping fields2) domain h) as [E|E]; [..|right; exact E].
  - by apply mapping_canonical.
  - apply mapping_canonical; [by rewrite <- Hk|done].
  - done.
  - done.
  - left. by apply mapping_same.
Qed.
