(* ===== verification/CommitAuthority.v ===== *)
(** * Commit authority (backend/design_kernel/commit_authority.py)

    The issuer of single-use commit capabilities and the verifier that the
    kernel holds: one shared state, whose methods are computations.  The
    readings of the clock, the bytes that [secrets] draws and the identity of
    the token object are arguments; the lock makes each method atomic. *)
From S2P Require Import Prelude PyStr PyDict Json Sha256 DateTime Models Canonical Effect KernelText.

Local Open Scope string_scope.

Definition COMMIT_AUTHORIZATION_SCOPE : string := "canonical-design-commit".
Definition COMMIT_AUTHORIZATION_VERSION : Z := 2.
Definition authorization_domain : string := "flux-clone-kernel-commit-authorization-v2".
Definition commands_domain : string := "flux-clone-kernel-commit-command-hashes-v1".
Definition seal_domain : bytes := (utf8 "flux-clone-kernel-commit-authorization-seal-v2" ++ [0%N])%list.
Definition authorization_id_prefix : string := "commit-authorization-".

Definition invalid (msg : string) : exn := Exn InvalidCommitAuthorization msg.
Definition expired (msg : string) : exn := Exn ExpiredCommitAuthorization msg.

(** ** Checks *)

Definition require_identifier (value label : string) : result unit :=
  raise_if (bad_id value) (invariant_err (label +:+ " must be a canonical non-empty identifier")).

Definition normalize_time (value : datetime) (label : string) : result datetime :=
  raise_if (naive value) (invariant_err (label +:+ " must be an exact timezone-aware datetime")) ;;;
  match dt_to_utc value with
  | Some normalized => Ok normalized
  | None => Err (Exn OverflowError "date value out of range")
  end.

Definition require_utc_time (value : datetime) (label : string) : result datetime :=
  let* normalized := normalize_time value label in
  raise_if (negb (bool_decide (value = normalized))) (invariant_err (label +:+ " must be canonical UTC")) ;;;
  Ok normalized.
Definition check_utc_time (value : datetime) (label : string) : result unit :=
  let* _ := require_utc_time value label in Ok tt.

Definition time_text (value : datetime) : result string :=
  let* v := require_utc_time value "authorization timestamp" in
  Ok (py_replace "+00:00" "Z" (isoformat true v)).

(** [hmac.compare_digest(a, b)] as a guard *)
Definition require_same (a b : string) (e : exn) : result unit :=
  let* same := compare_digest a b in raise_if (negb same) e.

(** [commit_command_hashes_digest(command_hashes)] *)
Definition command_hashes_digest_of (command_hashes : list string) : result string :=
  raise_if (bool_decide (command_hashes = []))
    (invariant_err "commit authorization requires ordered command hashes") ;;;
  forM_ (fun command_hash => require_sha256 command_hash "commit authorization command hash") command_hashes ;;;
  stable_hash (py command_hashes) commands_domain.

(** ** Release approvals

    The public record and the private copy in the registry have the same
    fields and the same checks. *)

Module ReleaseApproval.
Record t := mk {
  approval_id : string;
  run_id : string;
  kind : string;
  subject_digest : string;
  approval_digest : string;
  principal : string;
  decided_at : datetime;
  expires_at : option datetime;
  verification_report_hash : string;
  verified_preview_digest : string;
  commit_gate_passed : bool;
}.
#[global] Instance eq_dec : EqDecision t.
Proof. solve_decision. Defined.

Definition new (self : t) : result t :=
  require_identifier (approval_id self) "release approval ID" ;;;
  require_identifier (run_id self) "release approval run ID" ;;;
  require_identifier (kind self) "release approval kind" ;;;
  raise_if (negb (bool_decide (kind self = "release")))
    (invariant_err "commit authority accepts release approvals only") ;;;
  require_sha256 (subject_digest self) "release approval subject digest" ;;;
  require_sha256 (approval_digest self) "release approval digest" ;;;
  require_identifier (principal self) "release approval principal" ;;;
  check_utc_time (decided_at self) "release approval decision time" ;;;
  if_some (expires_at self) (fun expires_at =>
    let* expiry := require_utc_time expires_at "release approval expiry" in
    raise_if (dt_le expiry (decided_at self)) (invariant_err "release approval expiry must follow its decision")) ;;;
  require_sha256 (verification_report_hash self) "release approval verification report hash" ;;;
  require_sha256 (verified_preview_digest self) "release approval verified preview digest" ;;;
  raise_if (negb (commit_gate_passed self)) (invariant_err "release approval requires a passing commit gate") ;;;
  Ok self.

(** [_snapshot_release_approval(approval)] *)
Definition snapshot (approval : t) : result t :=
  let rejected _ := Err (invalid "release approval values are missing or not canonical") in
  catch (catch (new approval) ValueError rejected) TypeError rejected.
End ReleaseApproval.

(** ** Authorizations *)

(** The values of a [CommitAuthorization] and of [CommitAuthorizationClaims]. *)
Module Authorization.
Record t := mk {
  scope : string;
  version : Z;
  key_id : string;
  authorization_id : string;
  project_id : string;
  base_revision : string;
  head_revision : string;
  transaction_id : string;
  command_hashes : list string;
  command_hashes_digest : string;
  preview_digest : string;
  prospective_graph_sha256 : string;
  verification_report_hash : string;
  verified_preview_digest : string;
  commit_gate_passed : bool;
  release_subject_digest : string;
  human_approval_id : string;
  human_approval_run_id : string;
  human_approval_kind : string;
  human_approval_digest : string;
  human_approval_principal : string;
  human_approval_decided_at : datetime;
  human_approval_expires_at : option datetime;
  issued_at : datetime;
  expires_at : datetime;
  nonce : string;
  authorization_digest : string;
  seal : string;
}.
#[global] Instance settable : Settable t := fun x =>
  mk (scope x) (version x) (key_id x) (authorization_id x) (project_id x) (base_revision x) (head_revision x)
    (transaction_id x) (command_hashes x) (command_hashes_digest x) (preview_digest x) (prospective_graph_sha256 x)
    (verification_report_hash x) (verified_preview_digest x) (commit_gate_passed x) (release_subject_digest x)
    (human_approval_id x) (human_approval_run_id x) (human_approval_kind x) (human_approval_digest x)
    (human_approval_principal x) (human_approval_decided_at x) (human_approval_expires_at x) (issued_at x)
    (expires_at x) (nonce x) (authorization_digest x) (seal x).
#[global] Instance eq_dec : EqDecision t.
Proof. solve_decision. Defined.

(** The entries of [_authorization_payload] in their order, given the texts of
    the four times. *)
Definition payload_entries (a : t) (decided issued expires : string) (approval_expires : option string)
    : list (string * pyval) := [
  ("scope", py (scope a)); ("version", py (version a)); ("key_id", py (key_id a)); ("project_id", py (project_id a));
  ("base_revision", py (base_revision a)); ("head_revision", py (head_revision a));
  ("transaction_id", py (transaction_id a)); ("command_hashes", py (command_hashes a));
  ("command_hashes_digest", py (command_hashes_digest a)); ("preview_digest", py (preview_digest a));
  ("prospective_graph_sha256", py (prospective_graph_sha256 a));
  ("verification_report_hash", py (verification_report_hash a));
  ("verified_preview_digest", py (verified_preview_digest a)); ("commit_gate_passed", py (commit_gate_passed a));
  ("release_subject_digest", py (release_subject_digest a)); ("human_approval_id", py (human_approval_id a));
  ("human_approval_run_id", py (human_approval_run_id a)); ("human_approval_kind", py (human_approval_kind a));
  ("human_approval_digest", py (human_approval_digest a));
  ("human_approval_principal", py (human_approval_principal a));
  ("human_approval_decided_at", py decided); ("human_approval_expires_at", py approval_expires);
  ("issued_at", py issued); ("expires_at", py expires); ("nonce", py (nonce a))].

(** [_payload_from_authorization(authorization)] *)
Definition payload (a : t) : result pyval :=
  let* decided := time_text (human_approval_decided_at a) in
  let* approval_expires :=
    match human_approval_expires_at a with
    | Some e => let* text := time_text e in Ok (Some text)
    | None => Ok None
    end in
  let* issued := time_text (issued_at a) in
  let* expires := time_text (expires_at a) in
  Ok (PMap ((fun kv => (KStr kv.1, kv.2)) <$> payload_entries a decided issued expires approval_expires)).

Definition identifiers (a : t) : list (string * string) := [
  (key_id a, "commit authorization key ID"); (authorization_id a, "commit authorization ID");
  (project_id a, "commit authorization project ID"); (transaction_id a, "commit authorization transaction ID");
  (human_approval_id a, "commit authorization human approval ID");
  (human_approval_run_id a, "commit authorization approval run ID");
  (human_approval_kind a, "commit authorization approval kind");
  (human_approval_principal a, "commit authorization human principal")].
Definition digests (a : t) : list (string * string) := [
  (base_revision a, "commit authorization base revision"); (head_revision a, "commit authorization head revision");
  (command_hashes_digest a, "commit authorization command digest");
  (preview_digest a, "commit authorization preview digest");
  (prospective_graph_sha256 a, "commit authorization prospective graph digest");
  (verification_report_hash a, "commit authorization verification report hash");
  (verified_preview_digest a, "commit authorization verified preview digest");
  (release_subject_digest a, "commit authorization release subject digest");
  (human_approval_digest a, "commit authorization human approval digest");
  (nonce a, "commit authorization nonce"); (authorization_digest a, "commit authorization digest");
  (seal a, "commit authorization seal")].

(** [_validate_authorization_values(authorization)] *)
Definition validate_values (a : t) : result unit :=
  require_identifier (scope a) "commit authorization scope" ;;;
  raise_if (version a <? 1)%Z (invariant_err "commit authorization version must be a positive exact integer") ;;;
  forM_ (fun '(value, label) => require_identifier value label) (identifiers a) ;;;
  forM_ (fun '(value, label) => require_sha256 value label) (digests a) ;;;
  raise_if (negb (commit_gate_passed a)) (invariant_err "commit authorization requires a passing gate") ;;;
  let* decided_at := require_utc_time (human_approval_decided_at a) "commit authorization approval decision time" in
  if_some (human_approval_expires_at a) (fun e =>
    let* approval_expiry := require_utc_time e "commit authorization approval expiry" in
    raise_if (dt_le approval_expiry decided_at) (invariant_err "commit authorization approval expiry is invalid")) ;;;
  let* issued := require_utc_time (issued_at a) "commit authorization issue time" in
  let* expires := require_utc_time (expires_at a) "commit authorization expiry" in
  raise_if (dt_le expires issued) (invariant_err "commit authorization must expire after it is issued") ;;;
  let* expected := command_hashes_digest_of (command_hashes a) in
  require_same expected (command_hashes_digest a)
    (invariant_err "commit authorization ordered command digest is inconsistent").

Definition digest_of (a : t) : result string :=
  let* p := payload a in stable_hash p authorization_domain.
Definition id_of_digest (digest : string) : string := authorization_id_prefix +:+ String.substring 0 32 digest.

(** [CommitAuthorization(...)] *)
Definition new (self : t) : result t :=
  validate_values self ;;;
  let* expected_digest := digest_of self in
  require_same expected_digest (authorization_digest self)
    (invariant_err "commit authorization digest is inconsistent") ;;;
  raise_if (negb (bool_decide (authorization_id self = id_of_digest expected_digest)))
    (invariant_err "commit authorization ID does not derive from its digest") ;;;
  Ok self.

(** [_snapshot_authorization(authorization)]: the values are checked for the
    snapshot and again by [CommitAuthorizationClaims(...)]. *)
Definition snapshot (authorization : t) : result t :=
  let rejected _ := Err (invalid "commit authorization values are not canonical") in
  catch (catch (validate_values authorization ;;; validate_values authorization ;;; Ok authorization)
    ValueError rejected) TypeError rejected.

(** [_seal(secret, authorization_id=, authorization_digest=, claims_payload=)] *)
Definition seal_of (secret : bytes) (authorization_id authorization_digest : string) (claims_payload : pyval) : result string :=
  let* text := canonical_text (PMap [
    (KStr "authorization_id", py authorization_id); (KStr "authorization_digest", py authorization_digest);
    (KStr "claims", claims_payload)]) in
  Ok (hmac_sha256_hex secret (seal_domain ++ utf8 text)%list).
End Authorization.

Module VerifiedClaims.
Record t := mk {
  claims : Authorization.t;
  release_approval : ReleaseApproval.t;
  verified_at : datetime;
  previously_consumed : option string;
  authority_token : Z;
}.
Definition new (self : t) : result t :=
  check_utc_time (verified_at self) "commit authorization verification time" ;;;
  if_some (previously_consumed self) (fun digest =>
    require_sha256 digest "previously consumed commit authorization digest") ;;;
  Ok self.
End VerifiedClaims.

Module ConsumedAuthorization.
Record t := mk {
  claims : Authorization.t;
  release_approval : ReleaseApproval.t;
  consumed_at : datetime;
}.
#[global] Instance eq_dec : EqDecision t.
Proof. solve_decision. Defined.
Definition new (self : t) : result t :=
  check_utc_time (consumed_at self) "commit authorization consumption time" ;;; Ok self.
End ConsumedAuthorization.

(** ** The shared state *)

Module AuthorityState.
Record t := mk {
  key_id : string;
  secret : bytes;
  required_release_principal : string;
  approvals : gmap string ReleaseApproval.t;
  approval_ids_seen : gset string;
  issued : gmap string ReleaseApproval.t;
  consumed : gmap string string;
  last_observed_at : option datetime;
  clock_poisoned : bool;
  token : Z;
}.
#[global] Instance settable : Settable t := fun x =>
  mk (key_id x) (secret x) (required_release_principal x) (approvals x) (approval_ids_seen x) (issued x) (consumed x)
    (last_observed_at x) (clock_poisoned x) (token x).
#[global] Instance eq_dec : EqDecision t.
Proof. solve_decision. Defined.

(** [HmacCommitAuthority(key_id=, secret=, required_release_principal=)] *)
Definition new (key_id : string) (secret : bytes) (required_release_principal : string) (token : Z) : result t :=
  require_identifier key_id "commit authority key ID" ;;;
  require_identifier required_release_principal "required release principal" ;;;
  raise_if (length secret <? 32)%nat
    (Exn ValueError "commit authority secret must contain at least 32 exact bytes") ;;;
  Ok (mk key_id secret required_release_principal ∅ ∅ ∅ ∅ None false token).
End AuthorityState.

Definition auth (A : Type) : Type := comp AuthorityState.t A.

(** [observe_now_locked()], when the clock reads [clock] *)
Definition observe_now (clock : datetime) : auth datetime :=
  do state <- get in
  if AuthorityState.clock_poisoned state
  then throw (Exn CommitAuthorityClockRollback "commit authority clock previously moved backwards")
  else
    do current <- lift (catch (normalize_time clock "commit authority current time") InvariantViolation
      (fun _ => Err (invalid "commit authority clock is invalid"))) in
    if match AuthorityState.last_observed_at state with Some previous => dt_lt current previous | None => false end
    then modify (fun s => s <| AuthorityState.clock_poisoned := true |>) >>;
         throw (Exn CommitAuthorityClockRollback "commit authority clock moved backwards")
    else modify (fun s => s <| AuthorityState.last_observed_at := Some current |>) >>; ret current.

(** ** Verification *)

(** [a == b] for two aware values, and for optional ones. *)
Definition same_instant (a b : datetime) : bool := (instant a =? instant b)%Z.
Definition same_instant_opt (a b : option datetime) : bool :=
  match a, b with
  | None, None => true
  | Some a, Some b => same_instant a b
  | _, _ => false
  end.

(** [_match_registered_approval(claims, approval, issued, now=now)]: the whole
    tuple is evaluated, then tested. *)
Definition match_registered_approval (claims : Authorization.t) (approval issued : ReleaseApproval.t) (now : datetime)
    : result unit :=
  let* digest := compare_digest (Authorization.human_approval_digest claims) (ReleaseApproval.approval_digest approval) in
  let* issued_digest := compare_digest (ReleaseApproval.approval_digest issued) (ReleaseApproval.approval_digest approval) in
  let* report := compare_digest (Authorization.verification_report_hash claims)
    (ReleaseApproval.verification_report_hash approval) in
  let* preview := compare_digest (Authorization.verified_preview_digest claims)
    (ReleaseApproval.verified_preview_digest approval) in
  let* subject := compare_digest (Authorization.release_subject_digest claims) (ReleaseApproval.subject_digest approval) in
  let matches := [
    bool_decide (Authorization.human_approval_id claims = ReleaseApproval.approval_id approval) &&
      bool_decide (ReleaseApproval.approval_id approval = ReleaseApproval.approval_id issued);
    bool_decide (Authorization.human_approval_run_id claims = ReleaseApproval.run_id approval);
    bool_decide (Authorization.human_approval_kind claims = ReleaseApproval.kind approval) &&
      bool_decide (ReleaseApproval.kind approval = "release");
    digest; issued_digest;
    bool_decide (Authorization.human_approval_principal claims = ReleaseApproval.principal approval);
    same_instant (Authorization.human_approval_decided_at claims) (ReleaseApproval.decided_at approval);
    same_instant_opt (Authorization.human_approval_expires_at claims) (ReleaseApproval.expires_at approval);
    report; preview; subject;
    Bool.eqb (Authorization.commit_gate_passed claims) (ReleaseApproval.commit_gate_passed approval) &&
      ReleaseApproval.commit_gate_passed approval] in
  raise_if (negb (forallb id matches))
    (invalid "commit authorization no longer matches its server-owned release approval") ;;;
  if_some (ReleaseApproval.expires_at approval) (fun e =>
    raise_if (dt_le e now) (expired "registered release approval has expired") ;;;
    raise_if (dt_lt e (Authorization.expires_at claims))
      (invalid "commit authorization outlives its registered release approval")).

(** [_verify_locked(claims, now=now)] *)
Definition verify_locked (state : AuthorityState.t) (claims : Authorization.t) (now : datetime) : result VerifiedClaims.t :=
  raise_if (negb (bool_decide (Authorization.scope claims = COMMIT_AUTHORIZATION_SCOPE)) ||
      negb (Authorization.version claims =? COMMIT_AUTHORIZATION_VERSION)%Z ||
      negb (bool_decide (Authorization.key_id claims = AuthorityState.key_id state)))
    (invalid "commit authorization scope, version, or key ID is not trusted") ;;;
  let* payload := Authorization.payload claims in
  let* expected_digest := stable_hash payload authorization_domain in
  require_same expected_digest (Authorization.authorization_digest claims)
    (invalid "commit authorization digest is invalid") ;;;
  require_same (Authorization.id_of_digest expected_digest) (Authorization.authorization_id claims)
    (invalid "commit authorization ID is invalid") ;;;
  let* expected_seal := Authorization.seal_of (AuthorityState.secret state) (Authorization.authorization_id claims)
    (Authorization.authorization_digest claims) payload in
  require_same expected_seal (Authorization.seal claims) (invalid "commit authorization seal is invalid") ;;;
  raise_if (dt_lt now (Authorization.issued_at claims))
    (expired "commit authorization issue time is in the future") ;;;
  raise_if (dt_le (Authorization.expires_at claims) now) (expired "commit authorization has expired") ;;;
  match AuthorityState.issued state !! Authorization.authorization_digest claims with
  | None => Err (invalid "commit authorization is not present in this issuer incarnation")
  | Some issued =>
    match AuthorityState.approvals state !! ReleaseApproval.approval_id issued with
    | None => Err (invalid "commit release approval was revoked or is unknown")
    | Some approval =>
      raise_if (negb (bool_decide (approval = issued)))
        (invalid "commit release approval no longer has its issued registry incarnation") ;;;
      match_registered_approval claims approval issued now ;;;
      let* copy := ReleaseApproval.new approval in
      VerifiedClaims.new (VerifiedClaims.mk claims copy now
        (AuthorityState.consumed state !! Authorization.nonce claims) (AuthorityState.token state))
    end
  end.

(** [HmacCommitVerifier.verify(authorization)] *)
Definition verify (authorization : Authorization.t) (clock : datetime) : auth VerifiedClaims.t :=
  do claims <- lift (Authorization.snapshot authorization) in
  do now <- observe_now clock in
  do state <- get in
  lift (verify_locked state claims now).

(** [HmacCommitVerifier.consume(verified)] *)
Definition consume (verified : VerifiedClaims.t) (clock : datetime) : auth ConsumedAuthorization.t :=
  do state <- get in
  if negb (VerifiedClaims.authority_token verified =? AuthorityState.token state)%Z
  then throw (invalid "commit claims were verified by another issuer")
  else
    let not_canonical := invalid "verified commit claims are missing or not canonical" in
    do current <- rethrow (rethrow (
        do now <- observe_now clock in
        do state <- get in
        lift (verify_locked state (VerifiedClaims.claims verified) now)) ValueError not_canonical) TypeError not_canonical in
    if bool_decide (is_Some (VerifiedClaims.previously_consumed current))
    then throw (Exn ReplayedCommitAuthorization "commit authorization nonce has already been consumed")
    else
      let claims := VerifiedClaims.claims current in
      modify (fun s => s <| AuthorityState.consumed :=
        <[Authorization.nonce claims := Authorization.authorization_digest claims]> (AuthorityState.consumed s) |>) >>;
      lift (let* approval := ReleaseApproval.new (VerifiedClaims.release_approval current) in
            ConsumedAuthorization.new (ConsumedAuthorization.mk claims approval (VerifiedClaims.verified_at current))).

(** ** The registry and the issuer *)

Definition register_release_approval (approval : ReleaseApproval.t) (clock : datetime) : auth ReleaseApproval.t :=
  do snapshot <- lift (ReleaseApproval.snapshot approval) in
  do now <- observe_now clock in
  do state <- get in
  if bool_decide (ReleaseApproval.approval_id snapshot ∈ AuthorityState.approval_ids_seen state)
  then throw (invalid "release approval ID is permanently bound or revoked")
  else if negb (bool_decide (ReleaseApproval.principal snapshot = AuthorityState.required_release_principal state))
  then throw (invalid "release approval principal is not authorized to commit")
  else if dt_lt now (ReleaseApproval.decided_at snapshot)
  then throw (invalid "release approval decision is in the future")
  else if match ReleaseApproval.expires_at snapshot with Some e => dt_le e now | None => false end
  then throw (expired "release approval has expired")
  else
    modify (fun s => (s
      <| AuthorityState.approval_ids_seen := {[ReleaseApproval.approval_id snapshot]} ∪ AuthorityState.approval_ids_seen s |>)
      <| AuthorityState.approvals := <[ReleaseApproval.approval_id snapshot := snapshot]> (AuthorityState.approvals s) |>) >>;
    lift (ReleaseApproval.new snapshot).

Definition revoke_release_approval (approval_id : string) (clock : datetime) : auth unit :=
  do _ <- lift (require_identifier approval_id "release approval ID") in
  do _ <- observe_now clock in
  modify (fun s => (s
    <| AuthorityState.approval_ids_seen := {[approval_id]} ∪ AuthorityState.approval_ids_seen s |>)
    <| AuthorityState.approvals := delete approval_id (AuthorityState.approvals s) |>).

(** The parameters of [issue], without the approval, the lifetime and the nonce. *)
Record commit_subject := CommitSubject {
  cs_project_id : string;
  cs_base_revision : string;
  cs_head_revision : string;
  cs_transaction_id : string;
  cs_command_hashes : list string;
  cs_preview_digest : string;
  cs_prospective_graph_sha256 : string;
}.

(** [_release_subject]: what a release approval approves. *)
Definition release_subject (base_revision preview_digest : string) (report_hash : option string) : result string :=
  stable_hash (PMap [(KStr "base_revision", py base_revision); (KStr "preview_digest", py preview_digest);
    (KStr "report_hash", py report_hash)]) "flux-clone-release-v1".

(** The authorization, before its digest, its identifier and its seal. *)
Definition draft_authorization (key_id : string) (subject : commit_subject) (approval : ReleaseApproval.t)
    (command_digest : string) (now expiry : datetime) (nonce : string) : Authorization.t :=
  Authorization.mk COMMIT_AUTHORIZATION_SCOPE COMMIT_AUTHORIZATION_VERSION key_id "" (cs_project_id subject)
    (cs_base_revision subject) (cs_head_revision subject) (cs_transaction_id subject) (cs_command_hashes subject)
    command_digest (cs_preview_digest subject) (cs_prospective_graph_sha256 subject)
    (ReleaseApproval.verification_report_hash approval) (ReleaseApproval.verified_preview_digest approval)
    (ReleaseApproval.commit_gate_passed approval) (ReleaseApproval.subject_digest approval)
    (ReleaseApproval.approval_id approval) (ReleaseApproval.run_id approval) (ReleaseApproval.kind approval)
    (ReleaseApproval.approval_digest approval) (ReleaseApproval.principal approval)
    (ReleaseApproval.decided_at approval) (ReleaseApproval.expires_at approval) now expiry nonce "" "".

(** The sealed authorization that [issue] returns for an approval at a moment. *)
Definition authorize (state : AuthorityState.t) (subject : commit_subject) (approval : ReleaseApproval.t)
    (lifetime : Z) (nonce : string) (now : datetime) : result Authorization.t :=
  let* expected_subject := release_subject (cs_base_revision subject) (cs_preview_digest subject)
    (Some (ReleaseApproval.verification_report_hash approval)) in
  require_same (ReleaseApproval.subject_digest approval) expected_subject
    (invalid "registered release approval does not bind the exact commit subject") ;;;
  require_same (ReleaseApproval.verified_preview_digest approval) (cs_preview_digest subject)
    (invalid "registered release approval does not bind the exact verified preview") ;;;
  if_some (ReleaseApproval.expires_at approval) (fun e => raise_if (dt_le e now) (expired "release approval has expired")) ;;;
  let* expiry := dt_add_timedelta now lifetime in
  let expiry := match ReleaseApproval.expires_at approval with
    | Some e => if dt_lt e expiry then e else expiry
    | None => expiry end in
  let* command_digest := command_hashes_digest_of (cs_command_hashes subject) in
  require_sha256 nonce "commit authorization nonce" ;;;
  let draft := draft_authorization (AuthorityState.key_id state) subject approval command_digest now expiry nonce in
  let* payload := Authorization.payload draft in
  let* digest := stable_hash payload authorization_domain in
  let id := Authorization.id_of_digest digest in
  let* seal := Authorization.seal_of (AuthorityState.secret state) id digest payload in
  Authorization.new (((draft <| Authorization.authorization_id := id |>)
    <| Authorization.authorization_digest := digest |>) <| Authorization.seal := seal |>).

(** [issue(...)]: [lifetime] in microseconds; [nonce] is the argument or the
    text that [secrets.token_hex(32)] draws. *)
Definition issue (subject : commit_subject) (approval_id : string) (lifetime : Z) (nonce : string) (clock : datetime)
    : auth Authorization.t :=
  do _ <- lift (
    raise_if (lifetime <=? 0)%Z
      (Exn ValueError "commit authorization lifetime must be a positive exact timedelta") ;;;
    raise_if (30 * us_second <? lifetime)%Z
      (Exn ValueError "commit authorization lifetime cannot exceed 30 seconds")) in
  do now <- observe_now clock in
  do _ <- lift (require_identifier approval_id "release approval ID") in
  do state <- get in
  match AuthorityState.approvals state !! approval_id with
  | None => throw (invalid "release approval is not registered")
  | Some approval =>
    do authorization <- lift (authorize state subject approval lifetime nonce now) in
    do record <- lift (ReleaseApproval.new approval) in
    let digest := Authorization.authorization_digest authorization in
    if match AuthorityState.issued state !! digest with
       | Some existing => negb (bool_decide (existing = record))
       | None => false
       end
    then throw (invalid "authorization digest collides with different approval evidence")
    else modify (fun s => s <| AuthorityState.issued := <[digest := record]> (AuthorityState.issued s) |>) >>;
         ret authorization
  end.
