(* ===== verification/Kernel.v ===== *)
(** * The design kernel (backend/design_kernel/engine.py, and the transactions and revisions of model.py)

    [DesignKernel] as computations on its state and on the state of the commit
    authority whose verifier it holds.  A transaction stages commands on the
    graph of the current head; a verified transaction is committed with a
    capability of the authority and becomes the next revision. *)
From S2P Require Import Prelude PyStr PyDict Json DateTime Models Canonical Effect KernelText KernelModel KernelGraph.
From S2P Require Import KernelCommand CommitAuthority.

Local Open Scope string_scope.

(** ** Transactions and revisions *)

Module TransactionState.
Inductive t := OPEN | VERIFIED | COMMITTED | ROLLED_BACK.
#[global] Instance eq_dec : EqDecision t.
Proof. solve_decision. Defined.
End TransactionState.

Module SemanticDiff.
Record t := mk {
  base_revision : string;
  staged_graph_hash : string;
  added : list string;
  removed : list string;
  modified : list string;
  command_ids : list string;
  preview_digest : string;
}.
Definition new (self : t) : result t :=
  require_sha256 (base_revision self) "semantic diff base revision" ;;;
  require_sha256 (staged_graph_hash self) "semantic diff staged graph hash" ;;;
  require_sha256 (preview_digest self) "semantic diff preview digest" ;;;
  Ok self.
End SemanticDiff.

Module DesignTransaction.
Record t := mk {
  transaction_id : string;
  base_revision : string;
  staged_graph : DesignGraph.t;
  commands : list DesignCommand.t;
  state : TransactionState.t;
  verification_report_hash : option string;
  commit_gate_passed : bool;
  preview_digest : string;
  verification_preview_digest : option string;
  committed_revision_hash : option string;
}.
#[global] Instance settable : Settable t := fun x =>
  mk (transaction_id x) (base_revision x) (staged_graph x) (commands x) (state x) (verification_report_hash x)
    (commit_gate_passed x) (preview_digest x) (verification_preview_digest x) (committed_revision_hash x).
#[global] Instance eq_dec : EqDecision t.
Proof. solve_decision. Defined.

Definition new (self : t) : result t :=
  require_id (transaction_id self) "transaction ID" ;;;
  require_sha256 (base_revision self) "transaction base revision" ;;;
  (if str_empty (preview_digest self) then Ok tt
   else require_sha256 (preview_digest self) "transaction preview digest") ;;;
  if_some (verification_report_hash self) (fun h => require_sha256 h "verification report hash") ;;;
  if_some (verification_preview_digest self) (fun h => require_sha256 h "verified preview digest") ;;;
  if_some (committed_revision_hash self) (fun h => require_sha256 h "committed revision hash") ;;;
  raise_first [
    (has_duplicates (DesignCommand.command_id <$> commands self),
      invariant_err "transaction command IDs must be unique");
    (has_duplicates (DesignCommand.idempotency_key <$> commands self),
      invariant_err "transaction idempotency keys must be unique");
    (existsb (fun command => negb (bool_decide (DesignCommand.transaction_id command = transaction_id self)) ||
        negb (bool_decide (DesignCommand.base_revision command = base_revision self))) (commands self),
      invariant_err "transaction commands must bind to the transaction and base");
    (bool_decide (state self = TransactionState.VERIFIED) &&
        (negb (commit_gate_passed self) || bool_decide (verification_report_hash self = None) ||
         negb (bool_decide (verification_preview_digest self = Some (preview_digest self)))),
      invariant_err "verified transaction must bind a passed report to its preview");
    (bool_decide (state self = TransactionState.COMMITTED) && bool_decide (committed_revision_hash self = None),
      invariant_err "committed transaction must identify its revision");
    (bool_decide (state self = TransactionState.OPEN) && commit_gate_passed self,
      invariant_err "open transaction cannot have a passed commit gate");
    (negb (bool_decide (state self = TransactionState.COMMITTED)) && negb (bool_decide (committed_revision_hash self = None)),
      invariant_err "only a committed transaction may identify a committed revision")] ;;;
  Ok self.
End DesignTransaction.

Module DesignRevision.
Record t := mk {
  revision_hash : string;
  parent_revision : option string;
  sequence : Z;
  graph : DesignGraph.t;
  graph_hash : string;
  command_hashes : list string;
  verification_report_hash : option string;
  approval_preview_digest : option string;
}.
#[global] Instance eq_dec : EqDecision t.
Proof. solve_decision. Defined.

Definition new (self : t) : result t :=
  require_sha256 (revision_hash self) "revision hash" ;;;
  if_some (parent_revision self) (fun h => require_sha256 h "parent revision hash") ;;;
  raise_if (sequence self <? 0)%Z (invariant_err "revision sequence must be a non-negative integer") ;;;
  require_sha256 (graph_hash self) "revision graph hash" ;;;
  let* actual := KernelGraph.graph_hash (graph self) in
  raise_if (negb (bool_decide (graph_hash self = actual)))
    (invariant_err "revision graph hash does not match its graph") ;;;
  forM_ (fun h => require_sha256 h "revision command hash") (command_hashes self) ;;;
  if_some (verification_report_hash self) (fun h => require_sha256 h "revision verification report hash") ;;;
  if_some (approval_preview_digest self) (fun h => require_sha256 h "revision approval preview digest") ;;;
  (if (sequence self =? 0)%Z
   then raise_if (bool_decide (is_Some (parent_revision self)) || negb (bool_decide (command_hashes self = [])) ||
            bool_decide (is_Some (verification_report_hash self)) || bool_decide (is_Some (approval_preview_digest self)))
          (invariant_err "genesis revision cannot contain commit evidence")
   else raise_if (bool_decide (parent_revision self = None) || bool_decide (command_hashes self = []) ||
            bool_decide (verification_report_hash self = None) || bool_decide (approval_preview_digest self = None))
          (invariant_err "non-genesis revision requires parent, commands, verification, and approval")) ;;;
  Ok self.
End DesignRevision.

(** ** The kernel *)

Module Kernel.
Record t := mk {
  revisions : gmap string DesignRevision.t;
  head : string;
  transactions : gmap string DesignTransaction.t;
  idempotency : gmap (string * string) string;
  command_ids : gmap string string;
  commit_verifier : bool;  (** whether the kernel holds the verifier of the authority *)
  committed_authorizations : gmap string string;
  committed_authorization_evidence : gmap string ConsumedAuthorization.t;
}.
#[global] Instance settable : Settable t := fun x =>
  mk (revisions x) (head x) (transactions x) (idempotency x) (command_ids x) (commit_verifier x)
    (committed_authorizations x) (committed_authorization_evidence x).

Definition revision_domain : string := "flux-clone-design-revision-v1".

(** [DesignKernel(initial_graph, commit_verifier=...)] *)
Definition init (initial_graph : DesignGraph.t) (commit_verifier : bool) : result t :=
  let* normalized := DesignGraph.normalized initial_graph in
  validate_graph normalized ;;;
  let* graph_hash := graph_hash normalized in
  let* genesis_hash := stable_hash (PMap [
    (KStr "parent", PNone); (KStr "sequence", PInt 0); (KStr "graph_hash", py graph_hash)]) revision_domain in
  let* genesis := DesignRevision.new (DesignRevision.mk genesis_hash None 0 normalized graph_hash [] None None) in
  Ok (mk {[genesis_hash := genesis]} genesis_hash ∅ ∅ ∅ commit_verifier ∅ ∅).

(** [DesignKernel.from_revision(revision, commit_verifier=...)] *)
Definition from_revision (revision : DesignRevision.t) (commit_verifier : bool) : result t :=
  let* normalized := DesignGraph.normalized (DesignRevision.graph revision) in
  validate_graph normalized ;;;
  let err := invariant_err "preview fork revision must contain its normalized exact graph" in
  raise_if (negb (bool_decide (normalized = DesignRevision.graph revision))) err ;;;
  let* graph_hash := graph_hash normalized in
  raise_if (negb (bool_decide (graph_hash = DesignRevision.graph_hash revision))) err ;;;
  Ok (mk {[DesignRevision.revision_hash revision := revision]} (DesignRevision.revision_hash revision) ∅ ∅ ∅
    commit_verifier ∅ ∅).
End Kernel.

(** The kernel and the authority that shares its state with the verifier. *)
Record world := World { kernel : Kernel.t; authority : AuthorityState.t }.
#[export] Instance world_settable : Settable world := fun w => World (kernel w) (authority w).

Definition kern (A : Type) : Type := comp Kernel.t A.
(** A method of the kernel alone, and one of the verifier. *)
Definition on_kernel {A} (m : kern A) : comp world A := zoom kernel (fun k w => w <| kernel := k |>) m.
Definition on_authority {A} (m : auth A) : comp world A := zoom authority (fun a w => w <| authority := a |>) m.

(** [self.head] and [self.get_revision(revision_hash)]: the head is always present. *)
Definition get_revision (k : Kernel.t) (revision_hash : string) : result DesignRevision.t :=
  match Kernel.revisions k !! revision_hash with
  | Some revision => Ok revision
  | None => Err (Exn StaleRevision ("unknown revision " +:+ revision_hash))
  end.
Definition head_revision (k : Kernel.t) : result DesignRevision.t :=
  match Kernel.revisions k !! Kernel.head k with
  | Some revision => Ok revision
  | None => Err (Exn KeyError (Kernel.head k))
  end.
Definition get_transaction (k : Kernel.t) (transaction_id : string) : result DesignTransaction.t :=
  match Kernel.transactions k !! transaction_id with
  | Some transaction => Ok transaction
  | None => Err (Exn KernelError ("unknown transaction " +:+ transaction_id))
  end.
Definition get_commit_authorization_evidence (k : Kernel.t) (transaction_id : string) : result ConsumedAuthorization.t :=
  match Kernel.committed_authorization_evidence k !! transaction_id with
  | Some evidence => Ok evidence
  | None => Err (Exn KernelError ("transaction " +:+ transaction_id +:+ " has no consumed commit authorization"))
  end.

Definition transaction_command_hashes (transaction : DesignTransaction.t) : result (list string) :=
  mapM command_hash (DesignTransaction.commands transaction).

(** [_refresh_preview(transaction)] *)
Definition refresh_preview (transaction : DesignTransaction.t) : result DesignTransaction.t :=
  let* staged_graph_hash := graph_hash (DesignTransaction.staged_graph transaction) in
  let* command_hashes := transaction_command_hashes transaction in
  let* digest := stable_hash (PMap [
    (KStr "base_revision", py (DesignTransaction.base_revision transaction));
    (KStr "transaction_id", py (DesignTransaction.transaction_id transaction));
    (KStr "staged_graph_hash", py staged_graph_hash);
    (KStr "command_hashes", py command_hashes)]) "flux-clone-preview-v2" in
  DesignTransaction.new (transaction <| DesignTransaction.preview_digest := digest |>).

Definition put_transaction (transaction : DesignTransaction.t) : kern unit :=
  modify (fun k => k <| Kernel.transactions :=
    <[DesignTransaction.transaction_id transaction := transaction]> (Kernel.transactions k) |>).

Definition begin_transaction (transaction_id base_revision : string) : kern DesignTransaction.t :=
  do _ <- lift (
    raise_if (str_empty transaction_id || negb (bool_decide (transaction_id = py_strip transaction_id)) ||
        str_existsb is_space transaction_id)
      (invariant_err "transaction ID must be a non-empty whitespace-free identifier") ;;;
    require_sha256 base_revision "transaction base revision") in
  do k <- get in
  match Kernel.transactions k !! transaction_id with
  | Some transaction =>
    if negb (bool_decide (DesignTransaction.base_revision transaction = base_revision))
    then throw (Exn CommandConflict "transaction ID was reused against another revision")
    else ret transaction
  | None =>
    if negb (bool_decide (base_revision = Kernel.head k))
    then throw (Exn StaleRevision
      ("transaction base " +:+ base_revision +:+ " is not current head " +:+ Kernel.head k))
    else
      do transaction <- lift (
        let* head := head_revision k in
        let* transaction := DesignTransaction.new (DesignTransaction.mk transaction_id base_revision
          (DesignRevision.graph head) [] TransactionState.OPEN None false "" None None) in
        refresh_preview transaction) in
      put_transaction transaction >>; ret transaction
  end.

(** The part that [stage] and [stage_batch] share: the transaction after one more command. *)
Definition stage_onto (transaction : DesignTransaction.t) (command : DesignCommand.t) (no_effect : string)
    : result DesignTransaction.t :=
  raise_if (negb (bool_decide (DesignTransaction.state transaction = TransactionState.OPEN)))
    (Exn TransactionNotCommittable "commands may only be staged into an open transaction") ;;;
  let* applied := apply_command (DesignTransaction.staged_graph transaction) command in
  let* staged_graph := DesignGraph.normalized applied in
  validate_graph staged_graph ;;;
  raise_if (bool_decide (staged_graph = DesignTransaction.staged_graph transaction)) (Exn CommandConflict no_effect) ;;;
  let* next_transaction := DesignTransaction.new (((((transaction
    <| DesignTransaction.staged_graph := staged_graph |>)
    <| DesignTransaction.commands := (DesignTransaction.commands transaction ++ [command])%list |>)
    <| DesignTransaction.verification_report_hash := None |>)
    <| DesignTransaction.verification_preview_digest := None |>)
    <| DesignTransaction.commit_gate_passed := false |>) in
  refresh_preview next_transaction.

Definition stage (command : DesignCommand.t) : kern DesignTransaction.t :=
  do k <- get in
  do transaction <- lift (get_transaction k (DesignCommand.transaction_id command)) in
  if negb (bool_decide (DesignCommand.base_revision command = DesignTransaction.base_revision transaction))
  then throw (Exn StaleRevision "command base revision does not match its transaction")
  else
    let key := (DesignCommand.transaction_id command, DesignCommand.idempotency_key command) in
    match Kernel.idempotency k !! key with
    | Some existing_hash =>
      do hash <- lift (command_hash command) in
      if negb (bool_decide (existing_hash = hash))
      then throw (Exn CommandConflict "idempotency key was reused for a different command")
      else ret transaction
    | None =>
      if bool_decide (is_Some (Kernel.command_ids k !! DesignCommand.command_id command))
      then throw (Exn CommandConflict "command ID was already used for another accepted command")
      else
        do next_transaction <- lift (stage_onto transaction command "command has no semantic effect") in
        modify (fun k => k <| Kernel.transactions :=
          <[DesignCommand.transaction_id command := next_transaction]> (Kernel.transactions k) |>) >>;
        do hash <- lift (command_hash command) in
        modify (fun k => k <| Kernel.idempotency := <[key := hash]> (Kernel.idempotency k) |>) >>;
        do hash <- lift (command_hash command) in
        modify (fun k => k <| Kernel.command_ids := <[DesignCommand.command_id command := hash]> (Kernel.command_ids k) |>) >>;
        ret next_transaction
    end.

(** *** Batches *)

(** One turn of the loop: the local transaction and the accepted indexes. *)
Definition batch_state : Type := DesignTransaction.t * gmap (string * string) string * gmap string string.
Definition stage_next (k : Kernel.t) (transaction_id : string) (st : batch_state) (command : DesignCommand.t)
    : result batch_state :=
  let '(next_transaction, accepted_idempotency, accepted_command_ids) := st in
  let key := (transaction_id, DesignCommand.idempotency_key command) in
  match Kernel.idempotency k !! key with
  | Some existing_hash =>
    let* hash := command_hash command in
    raise_if (negb (bool_decide (existing_hash = hash)))
      (Exn CommandConflict "stage batch idempotency key was reused for a different command") ;;;
    Ok st
  | None =>
    raise_if (bool_decide (is_Some (Kernel.command_ids k !! DesignCommand.command_id command)))
      (Exn CommandConflict "stage batch command ID was already used for another accepted command") ;;;
    let* next_transaction := stage_onto next_transaction command "stage batch command has no semantic effect" in
    let* hash := command_hash command in
    Ok (next_transaction, <[key := hash]> accepted_idempotency, <[DesignCommand.command_id command := hash]> accepted_command_ids)
  end.

Definition stage_batch (batch : list DesignCommand.t) : kern DesignTransaction.t :=
  match batch with
  | [] => throw (invariant_err "stage batch must be a non-empty DesignCommand iterable")
  | first :: _ =>
    let transaction_id := DesignCommand.transaction_id first in
    let base_revision := DesignCommand.base_revision first in
    do _ <- lift (raise_first [
      (existsb (fun command => negb (bool_decide (DesignCommand.transaction_id command = transaction_id)) ||
          negb (bool_decide (DesignCommand.base_revision command = base_revision))) batch,
        invariant_err "stage batch commands must bind one transaction and base revision");
      (has_duplicates (DesignCommand.command_id <$> batch), invariant_err "stage batch command IDs must be unique");
      (has_duplicates (DesignCommand.idempotency_key <$> batch),
        invariant_err "stage batch idempotency keys must be unique")]) in
    do k <- get in
    do transaction <- lift (get_transaction k transaction_id) in
    if negb (bool_decide (base_revision = DesignTransaction.base_revision transaction))
    then throw (Exn StaleRevision "stage batch base revision does not match its transaction")
    else
      do accepted <- lift (foldM (stage_next k transaction_id) (transaction, ∅, ∅) batch) in
      let '(next_transaction, accepted_idempotency, accepted_command_ids) := accepted in
      (if bool_decide (accepted_idempotency = ∅) then ret tt
       else modify (fun k => ((k
         <| Kernel.transactions := <[transaction_id := next_transaction]> (Kernel.transactions k) |>)
         <| Kernel.idempotency := accepted_idempotency ∪ Kernel.idempotency k |>)
         <| Kernel.command_ids := accepted_command_ids ∪ Kernel.command_ids k |>)) >>;
      ret next_transaction
  end.

(** *** Previews *)

(** The entities of one collection that were added, removed and modified. *)
Definition diff_entities {A} `{EqDecision A} (prefix : string) (identity : A -> string) (before_items after_items : list A)
    : list string * list string * list string :=
  let before := dict_by identity before_items in
  let after := dict_by identity after_items in
  let label item := prefix +:+ ":" +:+ item in
  (label <$> sorted_on id (filter (fun item => before !! item = None) (dict_keys after)),
   label <$> sorted_on id (filter (fun item => after !! item = None) (dict_keys before)),
   label <$> filter (fun item => before !! item <> after !! item)
     (sorted_on id (filter (fun item => is_Some (after !! item)) (dict_keys before)))).

Definition append_diffs (p q : list string * list string * list string) : list string * list string * list string :=
  ((p.1.1 ++ q.1.1)%list, (p.1.2 ++ q.1.2)%list, (p.2 ++ q.2)%list).

Definition diff_outline (base staged : DesignGraph.t) : list string * list string * list string :=
  let outline := "board:outline" in
  let before := DesignGraph.board_outline base in
  let after := DesignGraph.board_outline staged in
  if bool_decide (before = []) && negb (bool_decide (after = [])) then ([outline], [], [])
  else if negb (bool_decide (before = [])) && bool_decide (after = []) then ([], [outline], [])
  else if negb (bool_decide (before = after)) then ([], [], [outline]) else ([], [], []).

(** [_diff(base, transaction)], before the result is packed. *)
Definition diff_graphs (base staged : DesignGraph.t) : list string * list string * list string :=
  let layers := DesignGraph.layers in
  let layer item := "layer:" +:+ item in
  let less l m := layer <$> sorted_on id (remove_dups (filter (fun item => item ∉ m) l)) in
  foldl append_diffs ([], [], []) [
    diff_entities "component" Component.component_id (DesignGraph.components base) (DesignGraph.components staged);
    diff_entities "net" Net.net_id (DesignGraph.nets base) (DesignGraph.nets staged);
    diff_entities "placement" FootprintPlacement.component_id (DesignGraph.placements base) (DesignGraph.placements staged);
    diff_entities "track" Track.track_id (DesignGraph.tracks base) (DesignGraph.tracks staged);
    diff_entities "pad" FootprintPad.pad_id (DesignGraph.pads base) (DesignGraph.pads staged);
    diff_entities "hole" FootprintHole.hole_id (DesignGraph.holes base) (DesignGraph.holes staged);
    diff_entities "via" Via.via_id (DesignGraph.vias base) (DesignGraph.vias staged);
    diff_entities "zone" CopperZone.zone_id (DesignGraph.zones base) (DesignGraph.zones staged);
    diff_entities "schematic-wire" SchematicWire.wire_id (DesignGraph.schematic_wires base) (DesignGraph.schematic_wires staged);
    diff_entities "schematic-junction" SchematicJunction.junction_id
      (DesignGraph.schematic_junctions base) (DesignGraph.schematic_junctions staged);
    (less (layers staged) (layers base), less (layers base) (layers staged), []);
    diff_outline base staged].

Definition diff (base : DesignGraph.t) (transaction : DesignTransaction.t) : result SemanticDiff.t :=
  let staged := DesignTransaction.staged_graph transaction in
  let '(added, removed, modified) := diff_graphs base staged in
  let* staged_graph_hash := graph_hash staged in
  SemanticDiff.new (SemanticDiff.mk (DesignTransaction.base_revision transaction) staged_graph_hash
    (sorted_on id added) (sorted_on id removed) (sorted_on id modified)
    (DesignCommand.command_id <$> DesignTransaction.commands transaction) (DesignTransaction.preview_digest transaction)).

Definition preview (k : Kernel.t) (transaction_id : string) : result SemanticDiff.t :=
  let* transaction := get_transaction k transaction_id in
  let* base := get_revision k (DesignTransaction.base_revision transaction) in
  diff (DesignRevision.graph base) transaction.

(** *** Verification, commit and rollback *)

Definition record_verification (transaction_id verification_report_hash : string) (commit_gate_passed : bool)
    (verified_preview_digest : option string) : kern DesignTransaction.t :=
  do k <- get in
  do transaction <- lift (get_transaction k transaction_id) in
  do _ <- lift (require_sha256 verification_report_hash "verification report hash") in
  let subject := match verified_preview_digest with
    | Some d => if str_empty d then DesignTransaction.preview_digest transaction else d
    | None => DesignTransaction.preview_digest transaction end in
  do _ <- lift (require_sha256 subject "verified preview digest") in
  if negb (bool_decide (subject = DesignTransaction.preview_digest transaction))
  then throw (Exn ApprovalMismatch "verification does not bind the exact staged preview")
  else if bool_decide (DesignTransaction.state transaction = TransactionState.VERIFIED) then
    if bool_decide (DesignTransaction.verification_report_hash transaction = Some verification_report_hash) &&
       Bool.eqb (DesignTransaction.commit_gate_passed transaction) commit_gate_passed &&
       bool_decide (DesignTransaction.verification_preview_digest transaction = Some subject)
    then ret transaction
    else throw (Exn CommandConflict "verified transaction cannot be assigned conflicting evidence")
  else if negb (bool_decide (DesignTransaction.state transaction = TransactionState.OPEN))
  then throw (Exn TransactionNotCommittable "only an open transaction can be verified")
  else
    do transaction <- lift (DesignTransaction.new ((((transaction
      <| DesignTransaction.state := if commit_gate_passed then TransactionState.VERIFIED else TransactionState.OPEN |>)
      <| DesignTransaction.verification_report_hash := Some verification_report_hash |>)
      <| DesignTransaction.commit_gate_passed := commit_gate_passed |>)
      <| DesignTransaction.verification_preview_digest := Some subject |>)) in
    modify (fun k => k <| Kernel.transactions := <[transaction_id := transaction]> (Kernel.transactions k) |>) >>;
    ret transaction.

(** [_match_commit_authorization(transaction, verified)]: every binding is
    evaluated, then the first that does not hold raises. *)
Definition match_commit_authorization (transaction : DesignTransaction.t) (verified : VerifiedClaims.t) : result unit :=
  let a := VerifiedClaims.claims verified in
  let approval := VerifiedClaims.release_approval verified in
  let* command_hashes := transaction_command_hashes transaction in
  let* command_digest := command_hashes_digest_of command_hashes in
  let* expected_release_subject := release_subject (DesignTransaction.base_revision transaction)
    (DesignTransaction.preview_digest transaction) (DesignTransaction.verification_report_hash transaction) in
  let* digest_same := compare_digest (Authorization.command_hashes_digest a) command_digest in
  let* preview_same := compare_digest (Authorization.preview_digest a) (DesignTransaction.preview_digest transaction) in
  let* staged_hash := graph_hash (DesignTransaction.staged_graph transaction) in
  let* graph_same := compare_digest (Authorization.prospective_graph_sha256 a) staged_hash in
  let* report_same :=
    match DesignTransaction.verification_report_hash transaction with
    | None => Ok false
    | Some report => compare_digest (Authorization.verification_report_hash a) report
    end in
  let* verified_same :=
    match DesignTransaction.verification_preview_digest transaction with
    | None => Ok false
    | Some digest =>
      let* same := compare_digest (Authorization.verified_preview_digest a) digest in
      andM same (compare_digest (Authorization.verified_preview_digest a) (DesignTransaction.preview_digest transaction))
    end in
  let* subject_same := compare_digest (Authorization.release_subject_digest a) expected_release_subject in
  let* approval_same := compare_digest (Authorization.human_approval_digest a) (ReleaseApproval.approval_digest approval) in
  let eqb (x y : string) := bool_decide (x = y) in
  let mismatch label := Exn ApprovalMismatch ("commit authorization does not bind the exact " +:+ label) in
  raise_first ((fun '(matches, label) => (negb matches, mismatch label)) <$> [
    (eqb (Authorization.project_id a) (DesignGraph.project_id (DesignTransaction.staged_graph transaction)), "project");
    (eqb (Authorization.base_revision a) (DesignTransaction.base_revision transaction), "base revision");
    (eqb (Authorization.head_revision a) (DesignTransaction.base_revision transaction), "current head");
    (eqb (Authorization.transaction_id a) (DesignTransaction.transaction_id transaction), "transaction");
    (bool_decide (Authorization.command_hashes a = command_hashes), "ordered commands");
    (digest_same, "ordered command digest");
    (preview_same, "preview");
    (graph_same, "prospective graph");
    (report_same, "verification report");
    (verified_same, "verified preview");
    (subject_same, "release subject");
    (Authorization.commit_gate_passed a && DesignTransaction.commit_gate_passed transaction &&
      ReleaseApproval.commit_gate_passed approval, "commit gate");
    (eqb (Authorization.human_approval_id a) (ReleaseApproval.approval_id approval), "human approval ID");
    (eqb (Authorization.human_approval_run_id a) (ReleaseApproval.run_id approval), "human approval run");
    (eqb (Authorization.human_approval_kind a) (ReleaseApproval.kind approval) &&
      eqb (ReleaseApproval.kind approval) "release", "human approval kind");
    (approval_same, "human approval digest");
    (eqb (Authorization.human_approval_principal a) (ReleaseApproval.principal approval), "human approval principal");
    (same_instant (Authorization.human_approval_decided_at a) (ReleaseApproval.decided_at approval),
      "human approval decision time");
    (same_instant_opt (Authorization.human_approval_expires_at a) (ReleaseApproval.expires_at approval),
      "human approval expiry")]).

(** The revision that a commit publishes. *)
Definition next_revision (parent : DesignRevision.t) (transaction : DesignTransaction.t) (claims : Authorization.t)
    : result DesignRevision.t :=
  let* command_hashes := transaction_command_hashes transaction in
  let* graph := DesignGraph.normalized (DesignTransaction.staged_graph transaction) in
  let* graph_hash := graph_hash graph in
  let* revision_hash := stable_hash (PMap [
    (KStr "parent", py (DesignRevision.revision_hash parent)); (KStr "sequence", py (DesignRevision.sequence parent + 1)%Z);
    (KStr "graph_hash", py graph_hash); (KStr "commands", py command_hashes);
    (KStr "verification_report_hash", py (DesignTransaction.verification_report_hash transaction));
    (KStr "approval_preview_digest", py (Authorization.preview_digest claims))]) Kernel.revision_domain in
  DesignRevision.new (DesignRevision.mk revision_hash (Some (DesignRevision.revision_hash parent))
    (DesignRevision.sequence parent + 1) graph graph_hash command_hashes
    (DesignTransaction.verification_report_hash transaction) (Some (Authorization.preview_digest claims))).

Definition replayed (msg : string) : exn := Exn ReplayedCommitAuthorization msg.

(** A commit of a transaction that is already committed. *)
Definition retry_commit (k : Kernel.t) (transaction_id : string) (transaction : DesignTransaction.t)
    (verified : VerifiedClaims.t) : result DesignRevision.t :=
  let claims := VerifiedClaims.claims verified in
  match_commit_authorization transaction verified ;;;
  let same (o : option string) : result bool :=
    match o with Some h => compare_digest h (Authorization.authorization_digest claims) | None => Ok false end in
  let* authorized := same (Kernel.committed_authorizations k !! transaction_id) in
  let* consumed := andM authorized (same (VerifiedClaims.previously_consumed verified)) in
  raise_if (negb consumed) (replayed "only the exact capability may retry its already committed transaction") ;;;
  match DesignTransaction.committed_revision_hash transaction with
  | Some revision_hash => get_revision k revision_hash
  | None => Err (Exn AssertionError "")
  end.

(** What is checked before the capability is consumed. *)
Definition prepare_commit (k : Kernel.t) (transaction : DesignTransaction.t) (verified : VerifiedClaims.t)
    : result DesignRevision.t :=
  raise_if (bool_decide (is_Some (VerifiedClaims.previously_consumed verified)))
    (replayed "commit authorization nonce has already been consumed") ;;;
  raise_if (negb (bool_decide (DesignTransaction.base_revision transaction = Kernel.head k)))
    (Exn StaleRevision "head changed after the transaction was staged") ;;;
  raise_if (negb (bool_decide (DesignTransaction.state transaction = TransactionState.VERIFIED)) ||
      negb (DesignTransaction.commit_gate_passed transaction))
    (Exn TransactionNotCommittable "commit requires a passed deterministic verification gate") ;;;
  match_commit_authorization transaction verified ;;;
  let* parent := head_revision k in
  let unchanged := Exn TransactionNotCommittable "a commit must contain a semantic graph change" in
  raise_if (bool_decide (DesignTransaction.commands transaction = [])) unchanged ;;;
  let* staged_hash := graph_hash (DesignTransaction.staged_graph transaction) in
  raise_if (bool_decide (staged_hash = DesignRevision.graph_hash parent)) unchanged ;;;
  next_revision parent transaction (VerifiedClaims.claims verified).

(** [commit(transaction_id, authorization=...)]: the clock is read when the
    capability is verified and when it is consumed. *)
Definition commit (transaction_id : string) (authorization : Authorization.t) (clock clock' : datetime)
    : comp world DesignRevision.t :=
  do w <- get in
  let k := kernel w in
  do transaction <- lift (get_transaction k transaction_id) in
  if negb (Kernel.commit_verifier k)
  then throw (Exn ApprovalMismatch "kernel has no trusted commit verifier")
  else
    do verified <- on_authority (verify authorization clock) in
    let claims := VerifiedClaims.claims verified in
    if bool_decide (DesignTransaction.state transaction = TransactionState.COMMITTED)
    then lift (retry_commit k transaction_id transaction verified)
    else
      do revision <- lift (prepare_commit k transaction verified) in
      do consumed <- on_authority (consume verified clock') in
      let revision_hash := DesignRevision.revision_hash revision in
      on_kernel (
        modify (fun k => (((k
          <| Kernel.revisions := <[revision_hash := revision]> (Kernel.revisions k) |>)
          <| Kernel.head := revision_hash |>)
          <| Kernel.committed_authorizations :=
               <[transaction_id := Authorization.authorization_digest claims]> (Kernel.committed_authorizations k) |>)
          <| Kernel.committed_authorization_evidence :=
               <[transaction_id := consumed]> (Kernel.committed_authorization_evidence k) |>) >>;
        do committed <- lift (DesignTransaction.new ((transaction
          <| DesignTransaction.state := TransactionState.COMMITTED |>)
          <| DesignTransaction.committed_revision_hash := Some revision_hash |>)) in
        modify (fun k => k <| Kernel.transactions := <[transaction_id := committed]> (Kernel.transactions k) |>)) >>;
      ret revision.

Definition rollback (transaction_id : string) : kern DesignTransaction.t :=
  do k <- get in
  do transaction <- lift (get_transaction k transaction_id) in
  match DesignTransaction.state transaction with
  | TransactionState.COMMITTED =>
    throw (Exn TransactionNotCommittable "committed history cannot be rolled back in place")
  | TransactionState.ROLLED_BACK => ret transaction
  | _ =>
    do transaction <- lift (DesignTransaction.new ((((transaction
      <| DesignTransaction.state := TransactionState.ROLLED_BACK |>)
      <| DesignTransaction.verification_report_hash := None |>)
      <| DesignTransaction.verification_preview_digest := None |>)
      <| DesignTransaction.commit_gate_passed := false |>)) in
    modify (fun k => k <| Kernel.transactions := <[transaction_id := transaction]> (Kernel.transactions k) |>) >>;
    ret transaction
  end.
