(* ===== verification/AuthorityFacts.v ===== *)
(** * What the commit authority guarantees

    The effect of each method of the issuer and of the verifier on their shared
    state.  A method that raises registers, revokes, issues and consumes
    nothing: only the clock's record moves. *)
From S2P Require Import Prelude PyDict PyStr Sha256 Json DateTime Models Canonical CanonicalFacts Effect KernelText.
From S2P Require Import KernelLaws CommitAuthority.

Local Open Scope string_scope.

(** ** Times *)

Definition utc (d : datetime) : Prop := dt_to_utc d = Some d.

Lemma utc_of d d' : dt_to_utc d = Some d' -> utc d'.
Proof.
  unfold utc, dt_to_utc. destruct (wall_in_range (instant d)) eqn:E; [|done]. intros [= <-].
  assert (instant (DT (instant d) (Some 0%Z)) = instant d) as Hi by (unfold instant; simpl; lia). by rewrite Hi, E.
Qed.

Lemma utc_form d : utc d -> exists w, d = DT w (Some 0%Z) /\ wall_in_range w = true.
Proof.
  unfold utc, dt_to_utc. destruct (wall_in_range (instant d)) eqn:E; [|done]. intros [= H].
  exists (instant d). by rewrite H at 1.
Qed.

Lemma normalize_time_Ok v label d : normalize_time v label = Ok d -> utc d.
Proof. intros [_ H]%seq_Ok. destruct (dt_to_utc v) eqn:E; [|done]. injection H as <-. by eapply utc_of. Qed.

Lemma utc_checked d label : utc d -> check_utc_time d label = Ok tt.
Proof.
  intros H. destruct (utc_form _ H) as (w & -> & _). unfold check_utc_time, require_utc_time, normalize_time.
  unfold utc in H. rewrite H. change (naive (DT w (Some 0%Z))) with false. cbn [raise_if bind].
  by rewrite bool_decide_eq_true_2.
Qed.

Lemma require_utc_time_Ok v label d : require_utc_time v label = Ok d -> d = v /\ utc v.
Proof.
  intros (n & Hn & [H%raise_if_Ok <-%Ok_inj]%seq_Ok)%bind_Ok. apply negb_false_iff, bool_decide_eq_true in H as ->.
  split; [done|]. by eapply normalize_time_Ok.
Qed.

(** Two instants with the same text are the same. *)
Lemma time_text_inj v1 v2 s : time_text v1 = Ok s -> time_text v2 = Ok s -> v1 = v2.
Proof.
  unfold time_text. intros (d1 & [-> H1]%require_utc_time_Ok & [= E1])%bind_Ok.
  intros (d2 & [-> H2]%require_utc_time_Ok & [= E2])%bind_Ok.
  destruct (utc_form _ H1) as (w1 & -> & R1), (utc_form _ H2) as (w2 & -> & R2).
  rewrite iso_utc_replace in E1, E2. f_equal. apply iso_z_inj; congruence.
Qed.

(** ** Guards *)

Lemma catch_rejects {A} (r : result A) cls e a : catch r cls (fun _ => Err e) = Ok a <-> r = Ok a.
Proof. unfold catch. destruct r as [b|e']; [done|]. destruct (is_a _ _); split; by intros [=]. Qed.

Lemma require_same_Ok a b e u : require_same a b e = Ok u -> a = b.
Proof.
  intros (same & (_ & _ & ->)%compare_digest_Ok & H%raise_if_Ok)%bind_Ok. by apply negb_false_iff, bool_decide_eq_true in H.
Qed.

(** ** The state but for the clock *)

(** [observed s s']: the clock was read, at most. *)
Definition observed (s s' : AuthorityState.t) : Prop :=
  s' = s <| AuthorityState.last_observed_at := AuthorityState.last_observed_at s' |>
         <| AuthorityState.clock_poisoned := AuthorityState.clock_poisoned s' |> /\
  (AuthorityState.clock_poisoned s = true -> s' = s) /\
  (forall t, AuthorityState.last_observed_at s = Some t ->
    exists t', AuthorityState.last_observed_at s' = Some t' /\ (instant t <= instant t')%Z).

#[export] Instance observed_preorder : PreOrder observed.
Proof.
  split.
  - intros s. split_and!; [by destruct s|done|]. intros t H. by exists t.
  - intros s s1 s2 (E1 & P1 & T1) (E2 & P2 & T2). split_and!.
    + rewrite E2, E1. by destruct s.
    + intros Hp. specialize (P1 Hp) as ->. by apply P2.
    + intros t (t1 & H1 & L1)%T1. apply T2 in H1 as (t2 & H2 & L2). exists t2. split; [done|lia].
Qed.

Definition at_time (now : datetime) (s : AuthorityState.t) : AuthorityState.t :=
  s <| AuthorityState.last_observed_at := Some now |>.

(** A reading that is accepted. *)
Definition reads (s : AuthorityState.t) (now : datetime) : Prop :=
  AuthorityState.clock_poisoned s = false /\ utc now /\
  forall t, AuthorityState.last_observed_at s = Some t -> (instant t <= instant now)%Z.

Lemma reads_observed s now : reads s now -> observed s (at_time now s).
Proof.
  intros (Hp & _ & Hl). split_and!; [by destruct s|by rewrite Hp|]. intros t Ht. exists now. split; [done|by apply Hl].
Qed.

(** What the authority makes of a reading of its clock. *)
Definition reading (clock now : datetime) : Prop := normalize_time clock "commit authority current time" = Ok now.

Lemma observe_now_effect clock s s' r :
  observe_now clock s = (s', r) ->
  observed s s' /\
  forall now, r = Ok now -> s' = at_time now s /\ reads s now /\ reading clock now.
Proof.
  unfold observe_now. intros H. run_cases H; try by split; [reflexivity|].
  - split; [|done]. split_and!; [by destruct s|congruence|]. intros t Ht. by exists t.
  - apply catch_rejects in E0. assert (reads s a) as Hr.
    { split_and!; [done|by eapply normalize_time_Ok|]. intros t Ht. rewrite Ht in E1. by apply Z.ltb_ge in E1. }
    split; [by apply reads_observed|]. intros now [= <-]. done.
Qed.

(** ** Verification *)

(** The claims repeat a registered approval. *)
Record repeats (a : Authorization.t) (ap : ReleaseApproval.t) (now : datetime) : Prop := {
  rep_id : Authorization.human_approval_id a = ReleaseApproval.approval_id ap;
  rep_run : Authorization.human_approval_run_id a = ReleaseApproval.run_id ap;
  rep_kind : Authorization.human_approval_kind a = "release";
  rep_digest : Authorization.human_approval_digest a = ReleaseApproval.approval_digest ap;
  rep_principal : Authorization.human_approval_principal a = ReleaseApproval.principal ap;
  rep_report : Authorization.verification_report_hash a = ReleaseApproval.verification_report_hash ap;
  rep_preview : Authorization.verified_preview_digest a = ReleaseApproval.verified_preview_digest ap;
  rep_subject : Authorization.release_subject_digest a = ReleaseApproval.subject_digest ap;
  rep_gate : Authorization.commit_gate_passed a = true;
  rep_fresh : forall e, ReleaseApproval.expires_at ap = Some e ->
    (instant now < instant e)%Z /\ (instant (Authorization.expires_at a) <= instant e)%Z;
}.

Lemma match_registered_approval_Ok a ap issued now u :
  match_registered_approval a ap issued now = Ok u -> repeats a ap now.
Proof.
  unfold match_registered_approval. intros H.
  apply bind_Ok in H as (b1 & (_ & _ & ->)%compare_digest_Ok & H). apply bind_Ok in H as (b2 & (_ & _ & ->)%compare_digest_Ok & H).
  apply bind_Ok in H as (b3 & (_ & _ & ->)%compare_digest_Ok & H). apply bind_Ok in H as (b4 & (_ & _ & ->)%compare_digest_Ok & H).
  apply bind_Ok in H as (b5 & (_ & _ & ->)%compare_digest_Ok & H).
  apply seq_Ok in H as [Hm%raise_if_Ok%negb_false_iff Hx]. cbn [forallb id] in Hm. unfold id in Hm.
  rewrite !andb_true_iff, !bool_decide_eq_true in Hm.
  destruct Hm as ([? ?] & ? & [? ?] & ? & ? & ? & ? & ? & ? & ? & ? & [Hg Hp] & _).
  split; try congruence.
  - apply eqb_prop in Hg. congruence.
  - intros e He. rewrite He in Hx. cbn [if_some] in Hx. apply seq_Ok in Hx as [L1%raise_if_Ok L2%raise_if_Ok].
    unfold dt_le, dt_lt in *. lia.
Qed.

(** The digest, the identifier and the seal of a capability are those of its values. *)
Record sealed (secret : bytes) (a : Authorization.t) : Prop := {
  se_digest : Authorization.digest_of a = Ok (Authorization.authorization_digest a);
  se_id : Authorization.authorization_id a = Authorization.id_of_digest (Authorization.authorization_digest a);
  se_seal : exists payload, Authorization.payload a = Ok payload /\
    Authorization.seal_of secret (Authorization.authorization_id a) (Authorization.authorization_digest a) payload =
      Ok (Authorization.seal a);
}.

(** What [_verify_locked] has established of claims at a moment. *)
Record trusted (s : AuthorityState.t) (a : Authorization.t) (now : datetime) (ap : ReleaseApproval.t) : Prop := {
  tr_scope : Authorization.scope a = COMMIT_AUTHORIZATION_SCOPE;
  tr_version : Authorization.version a = COMMIT_AUTHORIZATION_VERSION;
  tr_key : Authorization.key_id a = AuthorityState.key_id s;
  tr_sealed : sealed (AuthorityState.secret s) a;
  tr_time : (instant (Authorization.issued_at a) <= instant now < instant (Authorization.expires_at a))%Z;
  tr_issued : AuthorityState.issued s !! Authorization.authorization_digest a = Some ap;
  tr_approval : AuthorityState.approvals s !! ReleaseApproval.approval_id ap = Some ap;
  tr_repeats : repeats a ap now;
}.

Lemma tr_digest s a now ap : trusted s a now ap -> Authorization.digest_of a = Ok (Authorization.authorization_digest a).
Proof. intros H. by eapply se_digest, tr_sealed. Qed.

Lemma release_approval_new_Ok ap ap' : ReleaseApproval.new ap = Ok ap' -> ap' = ap.
Proof. revert ap ap'. returns_argument. Qed.

Lemma verify_locked_Ok s a now v :
  verify_locked s a now = Ok v ->
  exists ap, trusted s a now ap /\ ReleaseApproval.new ap = Ok ap /\
    v = VerifiedClaims.mk a ap now (AuthorityState.consumed s !! Authorization.nonce a) (AuthorityState.token s).
Proof.
  unfold verify_locked. intros [H1%raise_if_Ok H]%seq_Ok.
  apply orb_false_iff in H1 as [[H1%negb_false_iff%bool_decide_eq_true H2%negb_false_iff%Z.eqb_eq]%orb_false_iff
    H3%negb_false_iff%bool_decide_eq_true].
  apply bind_Ok in H as (payload & Hp & H). apply bind_Ok in H as (digest & Hd & H).
  apply seq_Ok in H as [Ed%require_same_Ok H]. apply seq_Ok in H as [Ei%require_same_Ok H].
  apply bind_Ok in H as (seal & Hs & H). apply seq_Ok in H as [Es%require_same_Ok H].
  apply seq_Ok in H as [T1%raise_if_Ok H]. apply seq_Ok in H as [T2%raise_if_Ok H].
  destruct (AuthorityState.issued s !! _) as [issued|] eqn:Hi; [|done].
  destruct (AuthorityState.approvals s !! _) as [ap|] eqn:Ha; [|done].
  apply seq_Ok in H as [Eq%raise_if_Ok%negb_false_iff%bool_decide_eq_true H]. subst issued.
  apply seq_Ok in H as [Hm%match_registered_approval_Ok H]. apply bind_Ok in H as (copy & Hc & H).
  pose proof (release_approval_new_Ok _ _ Hc) as ->. exists ap. split_and!; [|done|].
  - split; try done; [split|unfold dt_lt, dt_le in *; lia].
    + unfold Authorization.digest_of. rewrite Hp. cbn [bind]. by rewrite Hd, Ed.
    + by rewrite <- Ei, Ed.
    + exists payload. split; [done|]. by rewrite Hs, Es.
  - revert H. unfold VerifiedClaims.new. intros [_ H]%seq_Ok. apply seq_Ok in H as [_ H]. by apply Ok_inj in H.
Qed.

Lemma verify_locked_clock s s' a now : observed s s' -> verify_locked s' a now = verify_locked s a now.
Proof. intros [-> _]. done. Qed.

Lemma snapshot_Ok a a' : Authorization.snapshot a = Ok a' -> a' = a.
Proof.
  unfold Authorization.snapshot. intros (_ & _ & H)%catch_rejects%catch_rejects%seq_Ok%proj2%bind_Ok. by apply Ok_inj in H.
Qed.

Lemma verify_effect a clock s s' r :
  verify a clock s = (s', r) ->
  observed s s' /\
  forall v, r = Ok v -> exists now ap, s' = at_time now s /\ reads s now /\ trusted s a now ap /\ ReleaseApproval.new ap = Ok ap /\
    v = VerifiedClaims.mk a ap now (AuthorityState.consumed s !! Authorization.nonce a) (AuthorityState.token s) /\ reading clock now.
Proof.
  unfold verify. intros H. run_case H; [|by run_cases H]. apply snapshot_Ok in E as ->.
  rewrite run_bind in H. destruct (observe_now clock s) as [s1 [now|e]] eqn:Eo; cbn [fst snd] in H;
    apply observe_now_effect in Eo as [Ho Hnow]; [|by run_cases H]. destruct (Hnow _ eq_refl) as (-> & Hu & Hread).
  run_cases H. split; [done|]. intros v Hv. rewrite (verify_locked_clock _ _ _ _ Ho) in Hv.
  destruct (verify_locked_Ok _ _ _ _ Hv) as (ap & Ht & Hn & ->). exists now, ap. done.
Qed.

(** The errors that a wrapper replaces. *)
Lemma run_rethrow {St A} (m : comp St A) cls h s :
  (rethrow m cls h s).1 = (m s).1 /\
  (forall a, (rethrow m cls h s).2 = Ok a <-> (m s).2 = Ok a).
Proof.
  unfold rethrow. destruct (m s) as [s' [a|e]]; [done|]. cbn [fst snd]. split; [done|]. intros a.
  destruct (is_a _ _); split; by intros [=].
Qed.

Lemma consume_effect v clock s s' r :
  consume v clock s = (s', r) ->
  (exists e, r = Err e) /\ observed s s' \/
  exists now ap, let claims := VerifiedClaims.claims v in
    reads s now /\ trusted s claims now ap /\
    AuthorityState.consumed s !! Authorization.nonce claims = None /\
    r = Ok (ConsumedAuthorization.mk claims ap now) /\
    s' = at_time now s <| AuthorityState.consumed :=
      <[Authorization.nonce claims := Authorization.authorization_digest claims]> (AuthorityState.consumed s) |> /\
    reading clock now.
Proof.
  unfold consume. intros H. run_case H. run_case H; [by run_cases H; left; split; [eauto|done]|].
  rewrite run_bind in H. match type of H with context [rethrow (rethrow ?m ?c ?h) ?c2 ?h2 s] =>
    destruct (run_rethrow (rethrow m c h) c2 h2 s) as [S2 O2]; destruct (run_rethrow m c h s) as [S1 O1];
    destruct (rethrow (rethrow m c h) c2 h2 s) as [s1 [current|e]] eqn:E1; destruct (m s) as [s2 r2] eqn:E2 end;
    cbn [fst snd] in *; rewrite S2, S1 in *.
  - specialize (proj1 (O1 _) (proj1 (O2 _) eq_refl)) as ->. rewrite run_bind in E2.
    destruct (observe_now clock s) as [s3 [now|e]] eqn:Eo; cbn [fst snd] in E2; [|by run_cases E2].
    apply observe_now_effect in Eo as [Ho Hnow]. destruct (Hnow _ eq_refl) as (-> & Hu & Hread).
    run_case E2. unfold lift in E2. injection E2 as <- E2. rewrite (verify_locked_clock _ _ _ _ Ho) in E2.
    destruct (verify_locked_Ok _ _ _ _ E2) as (ap & Ht & Hn & ->).
    cbn [VerifiedClaims.previously_consumed VerifiedClaims.claims VerifiedClaims.release_approval VerifiedClaims.verified_at] in H.
    rewrite Hn in H. cbv zeta in H. run_cases H; [left; split; [eauto|done]|]. right. exists now, ap. apply bool_decide_eq_false in E0.
    unfold ConsumedAuthorization.new. cbn [bind ConsumedAuthorization.consumed_at]. rewrite utc_checked by apply Hu. cbn [bind].
    split_and!; [done..|by apply eq_None_not_Some|done|done|done].
  - left. run_cases H. split; [eauto|]. rewrite run_bind in E2.
    destruct (observe_now clock s) as [s3 [now|e']] eqn:Eo; cbn [fst snd] in E2;
      apply observe_now_effect in Eo as [Ho _]; by run_cases E2.
Qed.

(** ** The registry and the issuer *)

Definition registered (ap : ReleaseApproval.t) (s : AuthorityState.t) : AuthorityState.t :=
  (s <| AuthorityState.approval_ids_seen := {[ReleaseApproval.approval_id ap]} ∪ AuthorityState.approval_ids_seen s |>)
     <| AuthorityState.approvals := <[ReleaseApproval.approval_id ap := ap]> (AuthorityState.approvals s) |>.
Definition revoked (id : string) (s : AuthorityState.t) : AuthorityState.t :=
  (s <| AuthorityState.approval_ids_seen := {[id]} ∪ AuthorityState.approval_ids_seen s |>)
     <| AuthorityState.approvals := delete id (AuthorityState.approvals s) |>.

Lemma approval_snapshot_Ok ap ap' : ReleaseApproval.snapshot ap = Ok ap' -> ap' = ap /\ ReleaseApproval.new ap = Ok ap.
Proof.
  unfold ReleaseApproval.snapshot. intros H%catch_rejects%catch_rejects. by pose proof (release_approval_new_Ok _ _ H) as ->.
Qed.

Lemma register_effect ap clock s s' r :
  register_release_approval ap clock s = (s', r) ->
  (exists e, r = Err e) /\ observed s s' \/
  exists now, reads s now /\ r = Ok ap /\ s' = registered ap (at_time now s) /\
    ReleaseApproval.new ap = Ok ap /\ ~ ReleaseApproval.approval_id ap ∈ AuthorityState.approval_ids_seen s /\
    ReleaseApproval.principal ap = AuthorityState.required_release_principal s /\
    (instant (ReleaseApproval.decided_at ap) <= instant now)%Z.
Proof.
  unfold register_release_approval. intros H. run_case H; [|left; run_cases H; split; [eauto|reflexivity]].
  apply approval_snapshot_Ok in E as [-> Hn]. rewrite run_bind in H.
  destruct (observe_now clock s) as [s1 [now|e]] eqn:Eo; cbn [fst snd] in H; apply observe_now_effect in Eo as [Ho Hnow];
    [|left; run_cases H; split; [eauto|done]].
  destruct (Hnow _ eq_refl) as (-> & Hu & _).
  run_case H. destruct (bool_decide _) eqn:E1; [left; run_cases H; split; [eauto|done]|].
  destruct (negb _) eqn:E2; [left; run_cases H; split; [eauto|done]|].
  destruct (dt_lt _ _) eqn:E3; [left; run_cases H; split; [eauto|done]|].
  match type of H with (if ?c then _ else _) _ = _ => destruct c eqn:E4 end; [left; run_cases H; split; [eauto|done]|].
  run_cases H. right. exists now. apply bool_decide_eq_false in E1. apply negb_false_iff, bool_decide_eq_true in E2.
  unfold dt_lt in E3. split_and!; try done. lia.
Qed.

Lemma revoke_effect id clock s s' r :
  revoke_release_approval id clock s = (s', r) ->
  (exists e, r = Err e) /\ observed s s' \/
  exists now, reads s now /\ r = Ok tt /\ s' = revoked id (at_time now s).
Proof.
  unfold revoke_release_approval. intros H. run_case H; [|left; run_cases H; split; [eauto|reflexivity]].
  rewrite run_bind in H.
  destruct (observe_now clock s) as [s1 [now|e]] eqn:Eo; cbn [fst snd] in H; apply observe_now_effect in Eo as [Ho Hnow];
    [|left; run_cases H; split; [eauto|done]].
  destruct (Hnow _ eq_refl) as (-> & Hu & _). unfold modify in H. injection H as <- <-. right. by exists now.
Qed.

Definition issued_as (digest : string) (ap : ReleaseApproval.t) (s : AuthorityState.t) : AuthorityState.t :=
  s <| AuthorityState.issued := <[digest := ap]> (AuthorityState.issued s) |>.

Lemma authorization_new_Ok a a' : Authorization.new a = Ok a' -> a' = a /\ Authorization.digest_of a = Ok (Authorization.authorization_digest a).
Proof.
  unfold Authorization.new. intros [_ H]%seq_Ok. apply bind_Ok in H as (d & Hd & H).
  apply seq_Ok in H as [->%require_same_Ok H]. apply seq_Ok in H as [_ <-%Ok_inj]. done.
Qed.

Lemma issue_effect subject id lifetime nonce clock s s' r :
  issue subject id lifetime nonce clock s = (s', r) ->
  (exists e, r = Err e) /\ observed s s' \/
  exists now ap a, let digest := Authorization.authorization_digest a in
    reads s now /\ r = Ok a /\ (0 < lifetime <= 30 * us_second)%Z /\
    AuthorityState.approvals s !! id = Some ap /\ ReleaseApproval.new ap = Ok ap /\
    authorize s subject ap lifetime nonce now = Ok a /\
    (forall existing, AuthorityState.issued s !! digest = Some existing -> existing = ap) /\
    s' = issued_as digest ap (at_time now s).
Proof.
  unfold issue. intros H. run_case H; [|left; run_cases H; split; [eauto|reflexivity]].
  apply seq_Ok in E as [E1%raise_if_Ok E2%raise_if_Ok]. rewrite run_bind in H.
  destruct (observe_now clock s) as [s1 [now|e]] eqn:Eo; cbn [fst snd] in H; apply observe_now_effect in Eo as [Ho Hnow];
    [|left; run_cases H; split; [eauto|done]].
  destruct (Hnow _ eq_refl) as (-> & Hu & _). run_case H; [|left; run_cases H; split; [eauto|done]]. run_case H.
  destruct (AuthorityState.approvals (at_time now s) !! id) as [ap|] eqn:Ea; [|left; run_cases H; split; [eauto|done]].
  run_case H; [|left; run_cases H; split; [eauto|done]]. run_case H; [|left; run_cases H; split; [eauto|done]].
  clear a. rename a1 into a. pose proof (release_approval_new_Ok _ _ E3) as ->. cbv zeta in H.
  match type of H with (if ?c then _ else _) _ = _ => destruct c eqn:E4 end; [left; run_cases H; split; [eauto|done]|].
  run_cases H. right. exists now, ap, a. split_and!; try done; [lia..|]. intros existing Hex.
  change (AuthorityState.issued (at_time now s)) with (AuthorityState.issued s) in E4. rewrite Hex in E4.
  by apply negb_false_iff, bool_decide_eq_true in E4.
Qed.

Lemma trusted_observed s s' a now ap : observed s s' -> trusted s' a now ap <-> trusted s a now ap.
Proof. intros [-> _]. split; intros []; by split. Qed.

Lemma observed_consumed s s' : observed s s' -> AuthorityState.consumed s' = AuthorityState.consumed s.
Proof. by intros [-> _]. Qed.

(** ** What the digest of a capability commits to *)

Definition payload_collision (a1 a2 : Authorization.t) : Prop :=
  exists p1 p2, Authorization.payload a1 = Ok p1 /\ Authorization.payload a2 = Ok p2 /\
    hash_collision p1 authorization_domain p2 authorization_domain.

Lemma payload_Ok a p :
  Authorization.payload a = Ok p ->
  exists d i e ae, time_text (Authorization.human_approval_decided_at a) = Ok d /\
    time_text (Authorization.issued_at a) = Ok i /\ time_text (Authorization.expires_at a) = Ok e /\
    match Authorization.human_approval_expires_at a with
    | Some t => exists s, time_text t = Ok s /\ ae = Some s
    | None => ae = None
    end /\ p = mapping (Authorization.payload_entries a d i e ae).
Proof.
  unfold Authorization.payload. intros H. apply bind_Ok in H as (d & Hd & H). apply bind_Ok in H as (ae & Hae & H).
  apply bind_Ok in H as (i & Hi & H). apply bind_Ok in H as (e & He & <-%Ok_inj). exists d, i, e, ae.
  split_and!; try done. destruct (Authorization.human_approval_expires_at a) as [t|]; [|by injection Hae as <-].
  apply bind_Ok in Hae as (s & Hs & [= <-]). by exists s.
Qed.

Lemma payload_keys a d i e ae :
  NoDup (Authorization.payload_entries a d i e ae).*1.
Proof. apply (bool_decide_unpack _). vm_compute. reflexivity. Qed.

Lemma payload_canonical a d i e ae : canonical_value (mapping (Authorization.payload_entries a d i e ae)).
Proof. apply mapping_canonical; [apply payload_keys|]. repeat constructor; simpl; apply py_canonical. Qed.

(** All that is not derived from the payload. *)
Definition unsealed (a : Authorization.t) : Authorization.t :=
  ((a <| Authorization.authorization_id := "" |>) <| Authorization.authorization_digest := "" |>) <| Authorization.seal := "" |>.

Lemma same_payload a1 a2 d1 d2 i1 i2 e1 e2 ae1 ae2 :
  Forall2 (fun kv1 kv2 => same_data kv1.2 kv2.2) (Authorization.payload_entries a1 d1 i1 e1 ae1)
    (Authorization.payload_entries a2 d2 i2 e2 ae2) ->
  Authorization.human_approval_decided_at a1 = Authorization.human_approval_decided_at a2 ->
  Authorization.human_approval_expires_at a1 = Authorization.human_approval_expires_at a2 ->
  Authorization.issued_at a1 = Authorization.issued_at a2 -> Authorization.expires_at a1 = Authorization.expires_at a2 ->
  unsealed a1 = unsealed a2.
Proof.
  intros H E1 E2 E3 E4. unfold Authorization.payload_entries in H.
  repeat match goal with H : Forall2 _ (_ :: _) _ |- _ => apply Forall2_cons in H as [? H]; cbn [snd] in * end.
  destruct a1, a2. unfold unsealed, set_field. cbn in *. subst. f_equal; by apply py_inj.
Qed.

Lemma same_payload_times a1 a2 d1 d2 i1 i2 e1 e2 ae1 ae2 :
  Forall2 (fun kv1 kv2 => same_data kv1.2 kv2.2) (Authorization.payload_entries a1 d1 i1 e1 ae1)
    (Authorization.payload_entries a2 d2 i2 e2 ae2) -> d1 = d2 /\ ae1 = ae2 /\ i1 = i2 /\ e1 = e2.
Proof.
  intros H. unfold Authorization.payload_entries in H.
  repeat match goal with H : Forall2 _ (_ :: _) _ |- _ => apply Forall2_cons in H as [? H]; cbn [snd] in * end.
  split_and!; by apply py_inj.
Qed.

Lemma digest_commits_to_payload a1 a2 d :
  Authorization.digest_of a1 = Ok d -> Authorization.digest_of a2 = Ok d ->
  unsealed a1 = unsealed a2 \/ payload_collision a1 a2.
Proof.
  intros (p1 & P1 & H1)%bind_Ok (p2 & P2 & H2)%bind_Ok.
  destruct (payload_Ok _ _ P1) as (d1 & i1 & e1 & ae1 & Td1 & Ti1 & Te1 & Ta1 & E1).
  destruct (payload_Ok _ _ P2) as (d2 & i2 & e2 & ae2 & Td2 & Ti2 & Te2 & Ta2 & E2).
  assert (canonical_value p1) as C1 by (rewrite E1; apply payload_canonical).
  assert (canonical_value p2) as C2 by (rewrite E2; apply payload_canonical).
  destruct (same_hash p1 p2 _ _ C1 C2 H1 H2) as [E|E]; [left|right; by exists p1, p2].
  rewrite E1, E2 in E. apply mapping_same in E; [|apply payload_keys|done].
  destruct (same_payload_times _ _ _ _ _ _ _ _ _ _ E) as (<- & <- & <- & <-).
  eapply same_payload; [exact E|by eapply time_text_inj| |by eapply time_text_inj..].
  destruct (Authorization.human_approval_expires_at a1) as [t1|], (Authorization.human_approval_expires_at a2) as [t2|];
    naive_solver eauto using time_text_inj, f_equal.
Qed.

(** The same digest and the same secret make the same capability. *)
Lemma sealed_alike secret a1 a2 :
  sealed secret a1 -> sealed secret a2 ->
  Authorization.authorization_digest a1 = Authorization.authorization_digest a2 -> a1 = a2 \/ payload_collision a1 a2.
Proof.
  intros [D1 I1 (p1 & P1 & S1)] [D2 I2 (p2 & P2 & S2)] Ed. rewrite Ed in D1.
  destruct (digest_commits_to_payload _ _ _ D1 D2) as [E|E]; [left|by right].
  assert (Authorization.authorization_id a1 = Authorization.authorization_id a2) as Ei by (rewrite I1, I2; by rewrite Ed).
  assert (p1 = p2) as Ep.
  { change (Authorization.payload a1) with (Authorization.payload (unsealed a1)) in P1.
    change (Authorization.payload a2) with (Authorization.payload (unsealed a2)) in P2. rewrite E in P1. congruence. }
  rewrite Ei, Ed, Ep, S2 in S1. injection S1 as S1. clear S2.
  destruct a1, a2. unfold unsealed, set_field in E. cbn in *. injection E. intros. subst. done.
Qed.

Lemma authorize_sealed s subject ap lifetime nonce now a :
  authorize s subject ap lifetime nonce now = Ok a ->
  sealed (AuthorityState.secret s) a /\ Authorization.nonce a = nonce /\
  Authorization.human_approval_id a = ReleaseApproval.approval_id ap /\
  Authorization.transaction_id a = cs_transaction_id subject /\ Authorization.preview_digest a = cs_preview_digest subject.
Proof.
  unfold authorize. intros H. apply bind_Ok in H as (es & _ & H). do 3 apply seq_Ok in H as [_ H].
  apply bind_Ok in H as (e0 & _ & H). cbv zeta in H. apply bind_Ok in H as (cd & _ & H). apply seq_Ok in H as [_ H].
  apply bind_Ok in H as (p & Hp & H). apply bind_Ok in H as (d & Hd & H). apply bind_Ok in H as (seal & Hs & H).
  apply authorization_new_Ok in H as [-> Hnew]. split_and!; [|done..]. split; [exact Hnew|done|]. by exists p.
Qed.
