(* ===== verification/KernelSteps.v ===== *)
(** * The kernel as a transition system

    The five ways in which the kernel changes, and that every method of
    [DesignKernel] does one of them, several (a batch), or leaves the kernel
    alone: what raises changes nothing.  At the end, batches. *)
From S2P Require Import Prelude PyDict PyStr Sha256 Json DateTime Models Canonical CanonicalFacts Effect KernelText.
From S2P Require Import KernelModel KernelGraph KernelCommand KernelLaws CommitAuthority Kernel AuthorityFacts.

Local Open Scope string_scope.

(** ** Graphs that are published *)

Definition graph_valid (graph : DesignGraph.t) : Prop :=
  DesignGraph.normalized graph = Ok graph /\ validate_graph graph = Ok tt.

(** One command, from a staged graph to the next. *)
Definition replay_command (graph : DesignGraph.t) (command : DesignCommand.t) : result DesignGraph.t :=
  let* applied := apply_command graph command in
  let* staged := DesignGraph.normalized applied in
  validate_graph staged ;;; Ok staged.
(** The commands in their order. *)
Definition replay (graph : DesignGraph.t) (commands : list DesignCommand.t) : result DesignGraph.t :=
  foldM replay_command graph commands.

Lemma replay_command_valid graph command staged : replay_command graph command = Ok staged -> graph_valid staged.
Proof.
  intros (applied & _ & (g & Hn & [Hv ->%Ok_inj]%seq_Ok)%bind_Ok)%bind_Ok. split; [|done].
  by eapply normalized_graph_again.
Qed.

Lemma graph_hash_valid graph h :
  graph_valid graph -> graph_hash graph = Ok h <-> stable_hash (py graph) "flux-clone-design-graph-v1" = Ok h.
Proof. intros [Hn Hv]. unfold graph_hash. rewrite Hn. cbn [bind]. rewrite Hv. done. Qed.

Lemma graph_hash_total graph : graph_valid graph -> exists h, graph_hash graph = Ok h.
Proof.
  intros Hg. destruct (hash_total (py graph) "flux-clone-design-graph-v1") as [h Hh]; [apply py_canonical|done|done|].
  exists h. by apply graph_hash_valid.
Qed.

(** ** What a transaction becomes *)

Lemma transaction_new_Ok t t' : DesignTransaction.new t = Ok t' -> t' = t.
Proof. revert t t'. returns_argument. Qed.

Lemma refresh_preview_Ok t t' :
  refresh_preview t = Ok t' ->
  exists digest, t' = t <| DesignTransaction.preview_digest := digest |> /\ DesignTransaction.new t' = Ok t' /\
    is_sha256_hex digest = true.
Proof.
  intros (gh & _ & (hs & _ & (digest & Hd & H)%bind_Ok)%bind_Ok)%bind_Ok. exists digest.
  pose proof (transaction_new_Ok _ _ H) as ->. split_and!; [done..|]. by eapply hash_is_digest.
Qed.

(** The transaction after one more command. *)
Definition with_command (t : DesignTransaction.t) (command : DesignCommand.t) (graph : DesignGraph.t) (digest : string)
    : DesignTransaction.t :=
  DesignTransaction.mk (DesignTransaction.transaction_id t) (DesignTransaction.base_revision t) graph
    (DesignTransaction.commands t ++ [command])%list (DesignTransaction.state t) None false digest None
    (DesignTransaction.committed_revision_hash t).

Lemma stage_onto_Ok t command msg t' :
  stage_onto t command msg = Ok t' ->
  DesignTransaction.state t = TransactionState.OPEN /\
  exists graph digest, replay_command (DesignTransaction.staged_graph t) command = Ok graph /\
    graph <> DesignTransaction.staged_graph t /\ t' = with_command t command graph digest /\
    DesignTransaction.new t' = Ok t' /\ refresh_preview t' = Ok t'.
Proof.
  unfold stage_onto. rewrite seq_Ok, raise_if_Ok, negb_false_iff, bool_decide_eq_true. intros [Hs H].
  apply bind_Ok in H as (applied & Ha & H). apply bind_Ok in H as (graph & Hn & H).
  apply seq_Ok in H as [Hv H]. apply seq_Ok in H as [Hne%raise_if_Ok%bool_decide_eq_false H].
  apply bind_Ok in H as (t1 & H1%transaction_new_Ok & H). split; [done|].
  destruct (refresh_preview_Ok _ _ H) as (digest & E & Hnew & _). exists graph, digest. split_and!.
  - unfold replay_command. rewrite Ha. cbn [bind]. rewrite Hn. cbn [bind]. by rewrite Hv.
  - done.
  - rewrite E, H1. by destruct t.
  - done.
  - revert H. unfold refresh_preview. rewrite E. destruct t1. done.
Qed.

(** ** The steps of the kernel *)

Definition put (t : DesignTransaction.t) (k : Kernel.t) : Kernel.t :=
  k <| Kernel.transactions := <[DesignTransaction.transaction_id t := t]> (Kernel.transactions k) |>.

(** A transaction is there, under its identifier. *)
Definition present (k : Kernel.t) (t : DesignTransaction.t) : Prop :=
  Kernel.transactions k !! DesignTransaction.transaction_id t = Some t.

(** The kernel after a command is accepted. *)
Definition accepted (k : Kernel.t) (command : DesignCommand.t) (t : DesignTransaction.t) (hash : string) : Kernel.t :=
  ((k <| Kernel.transactions := <[DesignCommand.transaction_id command := t]> (Kernel.transactions k) |>)
     <| Kernel.idempotency :=
          <[(DesignCommand.transaction_id command, DesignCommand.idempotency_key command) := hash]> (Kernel.idempotency k) |>)
     <| Kernel.command_ids := <[DesignCommand.command_id command := hash]> (Kernel.command_ids k) |>.

(** The transaction once its revision is published, and the kernel. *)
Definition committed (t : DesignTransaction.t) (revision_hash : string) : DesignTransaction.t :=
  (t <| DesignTransaction.state := TransactionState.COMMITTED |>)
     <| DesignTransaction.committed_revision_hash := Some revision_hash |>.
Definition published (k : Kernel.t) (t : DesignTransaction.t) (r : DesignRevision.t) (ev : ConsumedAuthorization.t)
    : Kernel.t :=
  let hash := DesignRevision.revision_hash r in
  let id := DesignTransaction.transaction_id t in
  let claims := ConsumedAuthorization.claims ev in
  Kernel.mk (<[hash := r]> (Kernel.revisions k)) hash (<[id := committed t hash]> (Kernel.transactions k))
    (Kernel.idempotency k) (Kernel.command_ids k) (Kernel.commit_verifier k)
    (<[id := Authorization.authorization_digest claims]> (Kernel.committed_authorizations k))
    (<[id := ev]> (Kernel.committed_authorization_evidence k)).

Definition with_evidence (t : DesignTransaction.t) (report : string) (passed : bool) : DesignTransaction.t :=
  DesignTransaction.mk (DesignTransaction.transaction_id t) (DesignTransaction.base_revision t)
    (DesignTransaction.staged_graph t) (DesignTransaction.commands t)
    (if passed then TransactionState.VERIFIED else TransactionState.OPEN) (Some report) passed
    (DesignTransaction.preview_digest t) (Some (DesignTransaction.preview_digest t))
    (DesignTransaction.committed_revision_hash t).
Definition rolled_back (t : DesignTransaction.t) : DesignTransaction.t :=
  DesignTransaction.mk (DesignTransaction.transaction_id t) (DesignTransaction.base_revision t)
    (DesignTransaction.staged_graph t) (DesignTransaction.commands t) TransactionState.ROLLED_BACK None false
    (DesignTransaction.preview_digest t) None (DesignTransaction.committed_revision_hash t).

(** A step on one transaction. *)
Inductive edit (k : Kernel.t) : Kernel.t -> Prop :=
  | step_begin id r digest (t := DesignTransaction.mk id (Kernel.head k) (DesignRevision.graph r) []
        TransactionState.OPEN None false digest None None) :
      Kernel.transactions k !! id = None -> Kernel.revisions k !! Kernel.head k = Some r ->
      DesignTransaction.new t = Ok t -> refresh_preview t = Ok t -> edit k (put t k)
  | step_stage t command graph digest hash (t' := with_command t command graph digest) :
      present k t -> DesignTransaction.state t = TransactionState.OPEN ->
      DesignCommand.transaction_id command = DesignTransaction.transaction_id t ->
      DesignCommand.base_revision command = DesignTransaction.base_revision t ->
      Kernel.idempotency k !! (DesignCommand.transaction_id command, DesignCommand.idempotency_key command) = None ->
      Kernel.command_ids k !! DesignCommand.command_id command = None ->
      replay_command (DesignTransaction.staged_graph t) command = Ok graph ->
      graph <> DesignTransaction.staged_graph t -> command_hash command = Ok hash ->
      DesignTransaction.new t' = Ok t' -> refresh_preview t' = Ok t' ->
      edit k (accepted k command t' hash)
  | step_record t report passed (t' := with_evidence t report passed) :
      present k t -> DesignTransaction.state t = TransactionState.OPEN -> DesignTransaction.new t' = Ok t' ->
      edit k (put t' k)
  | step_rollback t (t' := rolled_back t) :
      present k t -> DesignTransaction.state t = TransactionState.OPEN \/ DesignTransaction.state t = TransactionState.VERIFIED ->
      DesignTransaction.new t' = Ok t' -> edit k (put t' k).

(** The step that publishes a revision. *)
Inductive publish (k : Kernel.t) : Kernel.t -> Prop :=
  | step_commit t parent r ev (claims := ConsumedAuthorization.claims ev)
        (t' := committed t (DesignRevision.revision_hash r)) :
      present k t -> DesignTransaction.state t = TransactionState.VERIFIED ->
      DesignTransaction.commit_gate_passed t = true -> DesignTransaction.base_revision t = Kernel.head k ->
      DesignTransaction.commands t <> [] ->
      Kernel.revisions k !! Kernel.head k = Some parent ->
      next_revision parent t claims = Ok r ->
      Authorization.preview_digest claims = DesignTransaction.preview_digest t ->
      DesignTransaction.new t' = Ok t' ->
      publish k (published k t r ev).

Lemma put_same k id t : DesignTransaction.transaction_id t = id ->
  k <| Kernel.transactions := <[id := t]> (Kernel.transactions k) |> = put t k.
Proof. by intros <-. Qed.

(** ** The identifiers of transactions

    All that a method needs to know of the kernel it runs on. *)
Definition keyed_transactions (k : Kernel.t) : Prop :=
  forall id t, Kernel.transactions k !! id = Some t -> DesignTransaction.transaction_id t = id.

Lemma get_transaction_Ok k id t : get_transaction k id = Ok t <-> Kernel.transactions k !! id = Some t.
Proof. unfold get_transaction. destruct (_ !! id); split; congruence. Qed.
Lemma get_revision_Ok k h r : get_revision k h = Ok r <-> Kernel.revisions k !! h = Some r.
Proof. unfold get_revision. destruct (_ !! h); split; congruence. Qed.
Lemma head_revision_Ok k r : head_revision k = Ok r <-> Kernel.revisions k !! Kernel.head k = Some r.
Proof. unfold head_revision. destruct (_ !! Kernel.head k); split; congruence. Qed.
Lemma present_id k id t : keyed_transactions k -> Kernel.transactions k !! id = Some t -> present k t.
Proof. intros Hk H. unfold present. by rewrite (Hk _ _ H). Qed.

Lemma command_hash_total command : exists h, command_hash command = Ok h.
Proof. apply hash_total; [apply py_canonical|done|done]. Qed.

(** ** What the methods do *)

Lemma begin_transaction_effect id base k k' r :
  begin_transaction id base k = (k', r) ->
  k' = k /\ (forall t, r = Ok t -> Kernel.transactions k !! id = Some t /\ DesignTransaction.base_revision t = base) \/
  exists t, r = Ok t /\ k' = put t k /\ edit k k' /\ DesignTransaction.transaction_id t = id /\
    DesignTransaction.base_revision t = base /\ Kernel.transactions k !! id = None.
Proof.
  unfold begin_transaction, put_transaction. intros H. run_cases H; try by left.
  - left. split; [done|]. intros t' [= <-]. apply negb_false_iff, bool_decide_eq_true in E1. done.
  - right. apply negb_false_iff, bool_decide_eq_true in E1 as ->. apply bind_Ok in E2 as (parent & Hp%head_revision_Ok & E2).
    apply bind_Ok in E2 as (t & Ht%transaction_new_Ok & E2). subst t.
    destruct (refresh_preview_Ok _ _ E2) as (digest & -> & Hnew & _). eexists. split_and!; [done|done| |done|done|done].
    eapply step_begin; [done|done|exact Hnew|exact E2].
Qed.

(** A command that was accepted is in its transaction. *)
Definition already_staged (k : Kernel.t) (command : DesignCommand.t) (t : DesignTransaction.t) : Prop :=
  Kernel.transactions k !! DesignCommand.transaction_id command = Some t /\
  DesignTransaction.base_revision t = DesignCommand.base_revision command /\
  exists hash, command_hash command = Ok hash /\
    Kernel.idempotency k !! (DesignCommand.transaction_id command, DesignCommand.idempotency_key command) = Some hash.

Lemma stage_effect command k k' r :
  keyed_transactions k -> stage command k = (k', r) ->
  k' = k /\ (forall t, r = Ok t -> already_staged k command t) \/
  exists t, r = Ok t /\ edit k k' /\ exists hash, command_hash command = Ok hash /\ k' = accepted k command t hash /\
    DesignTransaction.base_revision t = DesignCommand.base_revision command.
Proof.
  unfold stage. intros Hk H.
  run_cases H; try by left.
  - left. split; [done|]. intros t [= <-]. apply get_transaction_Ok in E.
    apply negb_false_iff, bool_decide_eq_true in E0. apply negb_false_iff, bool_decide_eq_true in E3 as ->.
    split; [done|]. split; [done|]. eauto.
  - right. apply get_transaction_Ok in E. apply negb_false_iff, bool_decide_eq_true in E0.
    apply bool_decide_eq_false in E2. destruct (stage_onto_Ok _ _ _ _ E3) as (Hs & graph & digest & Hr & Hne & -> & Hn & Hp).
    eexists. split_and!; [done| |eexists; split_and!; [done|reflexivity|done]]. eapply step_stage; eauto using present_id.
    + symmetry. by apply Hk.
    + destruct (Kernel.command_ids k !! _) eqn:Ec; [exfalso; by apply E2|done].
Qed.

Lemma record_verification_effect id report passed subject k k' r :
  keyed_transactions k -> record_verification id report passed subject k = (k', r) ->
  k' = k /\ (forall t, r = Ok t -> Kernel.transactions k !! id = Some t /\ DesignTransaction.state t = TransactionState.VERIFIED /\
      DesignTransaction.verification_report_hash t = Some report /\ DesignTransaction.commit_gate_passed t = passed) \/
  exists t, Kernel.transactions k !! id = Some t /\ r = Ok (with_evidence t report passed) /\
    k' = put (with_evidence t report passed) k /\ edit k k'.
Proof.
  unfold record_verification. intros Hk H. run_cases H; try by left.
  - left. split; [done|]. intros t' [= <-]. apply get_transaction_Ok in E. apply bool_decide_eq_true in E3.
    apply andb_true_iff in E4 as [[E4%bool_decide_eq_true E5%eqb_prop]%andb_true_iff _]. done.
  - right. rename a into t. apply get_transaction_Ok in E. exists t. apply negb_false_iff, bool_decide_eq_true in E2.
    apply negb_false_iff, bool_decide_eq_true in E4. pose proof (transaction_new_Ok _ _ E5) as ->.
    assert ((((t <| DesignTransaction.state := if passed then TransactionState.VERIFIED else TransactionState.OPEN |>)
      <| DesignTransaction.verification_report_hash := Some report |>)
      <| DesignTransaction.commit_gate_passed := passed |>)
      <| DesignTransaction.verification_preview_digest := Some (DesignTransaction.preview_digest t) |> =
      with_evidence t report passed) as Et by (by destruct t).
    rewrite E2, Et in *. split_and!; [done|done| |].
    + rewrite put_same; [done|]. by apply Hk in E as <-.
    + rewrite put_same; [|by apply Hk in E as <-]. eapply step_record; eauto using present_id.
Qed.

Lemma rollback_effect id k k' r :
  keyed_transactions k -> rollback id k = (k', r) ->
  k' = k /\ (forall t, r = Ok t -> Kernel.transactions k !! id = Some t /\
      DesignTransaction.state t = TransactionState.ROLLED_BACK) \/
  exists t, Kernel.transactions k !! id = Some t /\ r = Ok (rolled_back t) /\ k' = put (rolled_back t) k /\ edit k k'.
Proof.
  unfold rollback. intros Hk H. run_case H. run_case H; [|by run_cases H; left]. rename a into t. apply get_transaction_Ok in E.
  assert (((((t <| DesignTransaction.state := TransactionState.ROLLED_BACK |>)
      <| DesignTransaction.verification_report_hash := None |>)
      <| DesignTransaction.verification_preview_digest := None |>)
      <| DesignTransaction.commit_gate_passed := false |>) = rolled_back t) as Et by (by destruct t).
  rewrite Et in H. pose proof (Hk _ _ E) as Hid. change (DesignTransaction.transaction_id (rolled_back t) = id) in Hid.
  destruct (DesignTransaction.state t) eqn:Es; run_cases H; try (left; split; [done|by intros ? [= <-]]).
  all: right; exists t; pose proof (transaction_new_Ok _ _ E0); subst a; rewrite put_same by done.
  all: split_and!; [done..|]; eapply step_rollback; eauto using present_id.
Qed.

(** ** Commits *)

(** The capability names the transaction and everything it would publish. *)
Record binds (t : DesignTransaction.t) (a : Authorization.t) : Prop := {
  bd_project : Authorization.project_id a = DesignGraph.project_id (DesignTransaction.staged_graph t);
  bd_base : Authorization.base_revision a = DesignTransaction.base_revision t;
  bd_head : Authorization.head_revision a = DesignTransaction.base_revision t;
  bd_transaction : Authorization.transaction_id a = DesignTransaction.transaction_id t;
  bd_commands : transaction_command_hashes t = Ok (Authorization.command_hashes a);
  bd_preview : Authorization.preview_digest a = DesignTransaction.preview_digest t;
  bd_graph : graph_hash (DesignTransaction.staged_graph t) = Ok (Authorization.prospective_graph_sha256 a);
  bd_report : DesignTransaction.verification_report_hash t = Some (Authorization.verification_report_hash a);
  bd_verified : DesignTransaction.verification_preview_digest t = Some (DesignTransaction.preview_digest t);
  bd_subject : release_subject (DesignTransaction.base_revision t) (DesignTransaction.preview_digest t)
    (DesignTransaction.verification_report_hash t) = Ok (Authorization.release_subject_digest a);
  bd_gate : DesignTransaction.commit_gate_passed t = true;
}.

Lemma match_commit_authorization_Ok t v u :
  match_commit_authorization t v = Ok u -> binds t (VerifiedClaims.claims v).
Proof.
  unfold match_commit_authorization. intros H. apply bind_Ok in H as (hs & Hhs & H).
  apply bind_Ok in H as (cd & _ & H). apply bind_Ok in H as (rs & Hrs & H).
  apply bind_Ok in H as (b1 & (_ & _ & ->)%compare_digest_Ok & H). apply bind_Ok in H as (b2 & (_ & _ & ->)%compare_digest_Ok & H).
  apply bind_Ok in H as (gh & Hgh & H). apply bind_Ok in H as (b3 & (_ & _ & ->)%compare_digest_Ok & H).
  apply bind_Ok in H as (b4 & H4 & H). apply bind_Ok in H as (b5 & H5 & H).
  apply bind_Ok in H as (b6 & (_ & _ & ->)%compare_digest_Ok & H). apply bind_Ok in H as (b7 & (_ & _ & ->)%compare_digest_Ok & H).
  apply raise_first_Ok in H. rewrite !fmap_cons, fmap_nil, !Forall_cons in H. cbn [fst] in H.
  rewrite !negb_false_iff, !andb_true_iff, !bool_decide_eq_true in H.
  destruct H as (E1 & E2 & E3 & E4 & E5 & E6 & E7 & E8 & -> & -> & E11 & [[_ E12] _] & _).
  split; try congruence.
  - destruct (DesignTransaction.verification_report_hash t); [|done].
    apply compare_digest_Ok in H4 as (_ & _ & H4). symmetry in H4. by apply bool_decide_eq_true in H4 as ->.
  - destruct (DesignTransaction.verification_preview_digest t); [|done]. apply bind_Ok in H5 as (b & (_ & _ & ->)%compare_digest_Ok & H5).
    apply andM_true in H5 as [H5%bool_decide_eq_true (_ & _ & H6)%compare_digest_Ok]. symmetry in H6.
    apply bool_decide_eq_true in H6. congruence.
Qed.

(** What the constructor of a transaction guarantees. *)
Record transaction_wf (t : DesignTransaction.t) : Prop := {
  wf_id : require_id (DesignTransaction.transaction_id t) "transaction ID" = Ok tt;
  wf_base : is_sha256_hex (DesignTransaction.base_revision t) = true;
  wf_preview : DesignTransaction.preview_digest t = "" \/ is_sha256_hex (DesignTransaction.preview_digest t) = true;
  wf_report : forall h, DesignTransaction.verification_report_hash t = Some h -> is_sha256_hex h = true;
  wf_verified_preview : forall h, DesignTransaction.verification_preview_digest t = Some h -> is_sha256_hex h = true;
  wf_revision : forall h, DesignTransaction.committed_revision_hash t = Some h -> is_sha256_hex h = true;
  wf_ids : NoDup (DesignCommand.command_id <$> DesignTransaction.commands t);
  wf_keys : NoDup (DesignCommand.idempotency_key <$> DesignTransaction.commands t);
  wf_bound : forall c, c ∈ DesignTransaction.commands t ->
    DesignCommand.transaction_id c = DesignTransaction.transaction_id t /\
    DesignCommand.base_revision c = DesignTransaction.base_revision t;
  wf_verified : DesignTransaction.state t = TransactionState.VERIFIED ->
    DesignTransaction.commit_gate_passed t = true /\ DesignTransaction.verification_report_hash t <> None /\
    DesignTransaction.verification_preview_digest t = Some (DesignTransaction.preview_digest t);
  wf_open : DesignTransaction.state t = TransactionState.OPEN -> DesignTransaction.commit_gate_passed t = false;
  wf_committed : DesignTransaction.state t = TransactionState.COMMITTED <->
    DesignTransaction.committed_revision_hash t <> None;
}.

Lemma if_some_digest o label : if_some o (fun h => require_sha256 h label) = Ok tt <-> forall h, o = Some h -> is_sha256_hex h = true.
Proof.
  unfold require_sha256. destruct o as [h|]; cbn [if_some]; [|by split].
  rewrite raise_if_Ok, negb_false_iff. split; [by intros ? ? [= <-]|by auto].
Qed.

Lemma transaction_new_wf t : DesignTransaction.new t = Ok t <-> transaction_wf t.
Proof.
  unfold DesignTransaction.new. rewrite !seq_Ok, !if_some_digest, raise_first_Ok, !Forall_cons. cbn [fst].
  rewrite !andb_false_iff, !orb_false_iff, !negb_false_iff, !no_duplicates, existsb_Forall, !bool_decide_eq_false,
    !bool_decide_eq_true, Forall_forall. setoid_rewrite orb_false_iff. setoid_rewrite negb_false_iff.
  setoid_rewrite bool_decide_eq_true. unfold require_sha256. rewrite raise_if_Ok, negb_false_iff.
  assert ((if str_empty (DesignTransaction.preview_digest t) then Ok tt else
      raise_if (negb (is_sha256_hex (DesignTransaction.preview_digest t))) (invariant_err
        ("transaction preview digest" +:+ " must be a lowercase SHA-256 digest"))) = Ok tt <->
    (DesignTransaction.preview_digest t = "" \/ is_sha256_hex (DesignTransaction.preview_digest t) = true)) as ->.
  { unfold str_empty. case_bool_decide as E; [by split; [left|]|]. rewrite raise_if_Ok, negb_false_iff. tauto. }
  split.
  - intros (H1 & H2 & H3 & H4 & H5 & H6 & (H7 & H8 & H9 & H10 & H11 & H12 & H13 & _) & _). split; try done; try tauto.
  - intros []. destruct (DesignTransaction.state t), (DesignTransaction.committed_revision_hash t); naive_solver.
Qed.

(** A verified transaction can be marked as committed. *)
Lemma committed_new t hash :
  DesignTransaction.new t = Ok t -> DesignTransaction.state t = TransactionState.VERIFIED -> is_sha256_hex hash = true ->
  DesignTransaction.new (committed t hash) = Ok (committed t hash).
Proof.
  rewrite !transaction_new_wf. intros [] Hs Hh. destruct t. unfold committed, set_field in *. cbn in *. split; cbn; try done.
  by intros h [= <-].
Qed.

Lemma revision_new_Ok r r' : DesignRevision.new r = Ok r' -> r' = r.
Proof.
  unfold DesignRevision.new. intros H. do 4 apply seq_Ok in H as [_ H]. apply bind_Ok in H as (gh & _ & H).
  do 5 apply seq_Ok in H as [_ H]. by apply Ok_inj in H.
Qed.

Lemma next_revision_Ok parent t a r :
  next_revision parent t a = Ok r ->
  DesignRevision.new r = Ok r /\ is_sha256_hex (DesignRevision.revision_hash r) = true.
Proof.
  unfold next_revision. intros H. apply bind_Ok in H as (hs & _ & H). apply bind_Ok in H as (g & _ & H).
  apply bind_Ok in H as (gh & _ & H). apply bind_Ok in H as (h & Hh & H). pose proof (revision_new_Ok _ _ H) as ->.
  split; [done|]. by eapply hash_is_digest.
Qed.

Lemma prepare_commit_Ok k t v r :
  prepare_commit k t v = Ok r ->
  VerifiedClaims.previously_consumed v = None /\ DesignTransaction.base_revision t = Kernel.head k /\
  DesignTransaction.state t = TransactionState.VERIFIED /\ binds t (VerifiedClaims.claims v) /\
  DesignTransaction.commands t <> [] /\
  exists parent, Kernel.revisions k !! Kernel.head k = Some parent /\
    next_revision parent t (VerifiedClaims.claims v) = Ok r.
Proof.
  unfold prepare_commit. intros H. apply seq_Ok in H as [H1%raise_if_Ok%bool_decide_eq_false H].
  apply seq_Ok in H as [H2%raise_if_Ok%negb_false_iff%bool_decide_eq_true H].
  apply seq_Ok in H as [[H3%negb_false_iff%bool_decide_eq_true _]%raise_if_Ok%orb_false_iff H].
  apply seq_Ok in H as [H4%match_commit_authorization_Ok H]. apply bind_Ok in H as (parent & Hp%head_revision_Ok & H).
  apply seq_Ok in H as [H5%raise_if_Ok%bool_decide_eq_false H]. apply bind_Ok in H as (gh & _ & H).
  apply seq_Ok in H as [_ H]. split_and!; try done; [by apply eq_None_not_Some|]. by exists parent.
Qed.

Lemma retry_commit_Ok k id t v r :
  retry_commit k id t v = Ok r ->
  binds t (VerifiedClaims.claims v) /\
  Kernel.committed_authorizations k !! id = Some (Authorization.authorization_digest (VerifiedClaims.claims v)) /\
  VerifiedClaims.previously_consumed v = Some (Authorization.authorization_digest (VerifiedClaims.claims v)) /\
  exists hash, DesignTransaction.committed_revision_hash t = Some hash /\ Kernel.revisions k !! hash = Some r.
Proof.
  unfold retry_commit. intros [H1%match_commit_authorization_Ok H]%seq_Ok.
  assert (forall o b, match o with Some h => compare_digest h (Authorization.authorization_digest (VerifiedClaims.claims v))
    | None => Ok false end = Ok b -> b = true -> o = Some (Authorization.authorization_digest (VerifiedClaims.claims v))) as Hsame.
  { intros [h|] b; [|by intros [= <-]]. intros (_ & _ & ->)%compare_digest_Ok. by intros ->%bool_decide_eq_true. }
  apply bind_Ok in H as (b1 & H2 & H). apply bind_Ok in H as (b2 & H3 & H).
  apply seq_Ok in H as [H4%raise_if_Ok%negb_false_iff H]. subst b2. apply andM_true in H3 as [-> H3].
  split_and!; [done|by apply (Hsame _ true)|by apply (Hsame _ true)|].
  destruct (DesignTransaction.committed_revision_hash t) as [h|]; [|done]. exists h. by apply get_revision_Ok in H.
Qed.

(** A capability that the authority trusts and that binds a transaction. *)
Definition authorized (s : AuthorityState.t) (t : DesignTransaction.t) (a : Authorization.t) (now : datetime)
    (ap : ReleaseApproval.t) : Prop := trusted s a now ap /\ binds t a.

Definition consumed_by (a : Authorization.t) (s : AuthorityState.t) : AuthorityState.t :=
  s <| AuthorityState.consumed :=
    <[Authorization.nonce a := Authorization.authorization_digest a]> (AuthorityState.consumed s) |>.

Definition well_kept (k : Kernel.t) : Prop :=
  forall id t, Kernel.transactions k !! id = Some t -> DesignTransaction.transaction_id t = id /\ DesignTransaction.new t = Ok t.

Lemma well_kept_keyed k : well_kept k -> keyed_transactions k.
Proof. intros H id t Ht. by apply H in Ht as []. Qed.

Lemma run_zoom {S T A} (view : T -> S) put (m : comp S A) t :
  zoom view put m t = (put (m (view t)).1 t, (m (view t)).2).
Proof. unfold zoom. by destruct (m (view t)). Qed.

Lemma commit_effect id a clock clock' w w' r :
  well_kept (kernel w) -> commit id a clock clock' w = (w', r) ->
  let k := kernel w in
  let s := authority w in
  (exists e, r = Err e) /\ kernel w' = k /\ observed s (authority w') \/
  (exists t now ap rev, r = Ok rev /\ kernel w' = k /\ observed s (authority w') /\
    Kernel.transactions k !! id = Some t /\ DesignTransaction.state t = TransactionState.COMMITTED /\
    authorized s t a now ap /\ AuthorityState.clock_poisoned s = false /\
    Kernel.committed_authorizations k !! id = Some (Authorization.authorization_digest a) /\
    AuthorityState.consumed s !! Authorization.nonce a = Some (Authorization.authorization_digest a) /\
    (exists hash, DesignTransaction.committed_revision_hash t = Some hash /\ Kernel.revisions k !! hash = Some rev) /\
    reading clock now) \/
  (exists t now ap rev s', r = Ok rev /\ Kernel.transactions k !! id = Some t /\
    DesignTransaction.state t = TransactionState.VERIFIED /\
    kernel w' = published k t rev (ConsumedAuthorization.mk a ap now) /\ publish k (kernel w') /\
    authorized s t a now ap /\ reads s' now /\ observed s s' /\
    AuthorityState.clock_poisoned s = false /\
    AuthorityState.consumed s !! Authorization.nonce a = None /\ authority w' = consumed_by a (at_time now s') /\
    reading clock' now /\ exists now1, reading clock now1 /\ authorized s t a now1 ap).
Proof.
  intros Hk H k s. unfold commit in H. fold k s in H |- *. run_case H. cbv zeta in H. fold k in H.
  run_case H; [|left; run_cases H; split_and!; [eauto|done|reflexivity]]. rename a0 into t. apply get_transaction_Ok in E.
  run_case H; [left; run_cases H; split_and!; [eauto|done|reflexivity]|].
  rewrite run_bind in H. unfold on_authority in H. rewrite run_zoom in H.
  change (authority w) with s in H. destruct (verify a clock s) as [s1 [v|e]] eqn:Ev; cbn [fst snd] in H;
    apply verify_effect in Ev as [Ho1 Hv]; [|left; run_cases H; split_and!; [eauto|done|done]].
  destruct (Hv _ eq_refl) as (now1 & ap1 & Es1 & Hu1 & Ht1 & Hn1 & -> & Hc1). clear Hv. cbv zeta in H.
  cbn [VerifiedClaims.claims] in H. destruct (bool_decide (DesignTransaction.state t = _)) eqn:Est.
  - unfold lift in H. injection H as <- H. apply bool_decide_eq_true in Est.
    destruct r as [rev|e]; [|by left; eauto]. right. left.
    destruct (retry_commit_Ok _ _ _ _ _ H) as (Hb & Hc & Hp & Hrev). exists t, now1, ap1, rev.
    split_and!; try done. apply Hu1.
  - run_case H; [|left; run_cases H; by split_and!; [eauto|..]]. rename a0 into rev.
    destruct (prepare_commit_Ok _ _ _ _ E1) as (Hp & Hbase & Hst & Hb & Hc & parent & Hpar & Hnext).
    rewrite run_bind, run_zoom in H. change (authority (w <| authority := s1 |>)) with s1 in H.
    destruct (consume _ clock' s1) as [s2 r2] eqn:Ec. cbn [fst snd] in H.
    destruct (consume_effect _ _ _ _ _ Ec) as [[[e ->] Ho2]|(now & ap & Hu & Ht & Hfree & -> & -> & Hc2)].
    { left. injection H as <- <-. split_and!; [eauto|done|by etransitivity]. }
    right. right. exists t, now, ap, rev, s1.
    destruct (next_revision_Ok _ _ _ _ Hnext) as [Hnew Hhash]. destruct (Hk _ _ E) as [<- Hwf].
    pose proof (committed_new _ _ Hwf Hst Hhash) as Hcom. unfold committed in Hcom. rewrite Hcom in H.
    injection H as <- <-. cbn [VerifiedClaims.claims] in *.
    split_and!; try done.
    + change (publish k (published k t rev (ConsumedAuthorization.mk a ap now))).
      refine (step_commit _ _ _ _ _ _ _ _ _ _ _ _ _ _); try done.
      * by apply bd_gate in Hb.
      * by apply bd_preview in Hb.
    + split; [|done]. by apply (trusted_observed s s1).
    + apply Hu1.
    + exists now1. split; [done|]. split; [|done]. apply (trusted_observed s s1) in Ht; [|done].
      pose proof (tr_issued _ _ _ _ Ht) as E3. rewrite (tr_issued _ _ _ _ Ht1) in E3. by injection E3 as <-.
Qed.

Lemma edit_keyed k k' : edit k k' -> keyed_transactions k -> keyed_transactions k'.
Proof.
  intros Hs Hk id t. destruct Hs; cbn; intros [[<- <-]|[_ ?]]%lookup_insert_Some; auto.
Qed.

(** * Staging a batch

    [stage_batch] prepares all of its commands on a local transaction and
    publishes them at once; it does what staging them one after the other
    does, and when a command is rejected it publishes none of them. *)

(** [for command in batch: kernel.stage(command)] *)
Definition stage_all (batch : list DesignCommand.t) : kern unit := for_each (fun c => stage c >>; ret tt) batch.

(** The kernel if the batch ended here. *)
Definition merged (k : Kernel.t) (id : string) (st : batch_state) : Kernel.t :=
  ((k <| Kernel.transactions := <[id := st.1.1]> (Kernel.transactions k) |>)
     <| Kernel.idempotency := st.1.2 ∪ Kernel.idempotency k |>)
     <| Kernel.command_ids := st.2 ∪ Kernel.command_ids k |>.

(** What the commands of a batch have in common. *)
Definition one_batch (id base : string) (batch : list DesignCommand.t) : Prop :=
  (forall c, c ∈ batch -> DesignCommand.transaction_id c = id /\ DesignCommand.base_revision c = base) /\
  NoDup (DesignCommand.command_id <$> batch) /\ NoDup (DesignCommand.idempotency_key <$> batch).

Lemma raise_if_err b e e' : raise_if b e = Err e' <-> b = true /\ e' = e.
Proof. destruct b; simpl; split; naive_solver. Qed.

(** Only the message depends on who stages. *)
Lemma stage_onto_message t c m1 m2 :
  match stage_onto t c m1, stage_onto t c m2 with
  | Ok t1, Ok t2 => t1 = t2
  | Err e1, Err e2 => exn_cls e1 = exn_cls e2
  | _, _ => False
  end.
Proof.
  unfold stage_onto. destruct (negb _); [done|]. cbn [raise_if bind]. destruct (apply_command _ _) as [applied|]; [|done].
  cbn [bind]. destruct (DesignGraph.normalized applied) as [graph|]; [|done]. cbn [bind].
  destruct (validate_graph graph); [|done]. cbn [bind]. destruct (bool_decide _); [done|]. cbn [raise_if bind].
  by destruct (bind _ _).
Qed.

Section batch.
Context (k : Kernel.t) (id base : string).

(** One turn of the loop is one call of [stage]. *)
Lemma stage_next_is_stage st c :
  DesignCommand.transaction_id c = id -> DesignCommand.base_revision c = base ->
  DesignTransaction.base_revision st.1.1 = base ->
  st.1.2 !! (id, DesignCommand.idempotency_key c) = None -> st.2 !! DesignCommand.command_id c = None ->
  match stage_next k id st c with
  | Ok st' => stage c (merged k id st) = (merged k id st', Ok st'.1.1)
  | Err e => exists e', stage c (merged k id st) = (merged k id st, Err e') /\ exn_cls e' = exn_cls e
  end.
Proof.
  destruct st as [[t ai] ac]. cbn [fst snd]. intros Hid Hb Hbt Hai Hac.
  set (k' := merged k id (t, ai, ac)).
  assert (Kernel.transactions k' !! id = Some t) as Ht by apply lookup_insert_eq.
  assert (Kernel.idempotency k' !! (id, DesignCommand.idempotency_key c) =
    Kernel.idempotency k !! (id, DesignCommand.idempotency_key c)) as Hi by by apply lookup_union_r.
  assert (Kernel.command_ids k' !! DesignCommand.command_id c = Kernel.command_ids k !! DesignCommand.command_id c) as Hc
    by by apply lookup_union_r.
  unfold stage. rewrite run_get, run_lift. unfold get_transaction. rewrite Hid, Ht, Hb, Hbt, bool_decide_eq_true_2 by done.
  cbn [negb]. cbv zeta. rewrite Hi. unfold stage_next.
  destruct (command_hash_total c) as [h Hh]. destruct (Kernel.idempotency k !! _) as [existing|].
  - rewrite run_lift, Hh. cbn [bind]. destruct (negb _); cbn [raise_if bind]; [by eexists|done].
  - rewrite Hc. destruct (bool_decide (is_Some _)); cbn [raise_if bind]; [by eexists|].
    rewrite run_lift. pose proof (stage_onto_message t c "stage batch command has no semantic effect" "command has no semantic effect") as Hm.
    destruct (stage_onto t c "stage batch command has no semantic effect") as [t1|e1],
      (stage_onto t c "command has no semantic effect") as [t2|e2]; try done; cbn [bind]; [|by eexists].
    subst t2. rewrite run_modify, run_lift, Hh, run_modify, run_lift. cbn [bind]. rewrite run_modify.
    unfold ret. do 2 f_equal. unfold k', merged, set_field. simpl. f_equal.
    + apply insert_insert_eq.
    + by rewrite insert_union_l.
    + by rewrite insert_union_l.
Qed.

Lemma stage_next_state st c st' :
  stage_next k id st c = Ok st' ->
  DesignTransaction.base_revision st'.1.1 = DesignTransaction.base_revision st.1.1 /\
  (forall key, st.1.2 !! (id, key) = None -> key <> DesignCommand.idempotency_key c -> st'.1.2 !! (id, key) = None) /\
  (forall command_id, st.2 !! command_id = None -> command_id <> DesignCommand.command_id c -> st'.2 !! command_id = None) /\
  (st' = st \/ st'.1.2 <> ∅).
Proof.
  destruct st as [[t ai] ac]. unfold stage_next. destruct (Kernel.idempotency k !! _).
  - intros (h & _ & [_ <-%Ok_inj]%seq_Ok)%bind_Ok. split_and!; try done. by left.
  - intros [_ H]%seq_Ok. apply bind_Ok in H as (t' & (_ & g & d & _ & _ & -> & _)%stage_onto_Ok & H).
    apply bind_Ok in H as (h & _ & <-%Ok_inj). cbn [fst snd]. split_and!; [done| | |right; apply insert_non_empty].
    + intros key Hk Hne. rewrite lookup_insert_ne; [done|]. by intros [= ?].
    + intros key Hk Hne. by rewrite lookup_insert_ne.
Qed.

Lemma run_batch batch st :
  one_batch id base batch -> DesignTransaction.base_revision st.1.1 = base ->
  (forall c, c ∈ batch -> st.1.2 !! (id, DesignCommand.idempotency_key c) = None /\
    st.2 !! DesignCommand.command_id c = None) ->
  match foldM (stage_next k id) st batch with
  | Ok st' => stage_all batch (merged k id st) = (merged k id st', Ok tt) /\ (st' = st \/ st'.1.2 <> ∅)
  | Err e => exists k' e', stage_all batch (merged k id st) = (k', Err e') /\ exn_cls e' = exn_cls e
  end.
Proof.
  revert st. induction batch as [|c batch IH]; intros st (Hb & Hids & Hkeys) Hbase Hfree.
  { split; [done|by left]. }
  apply NoDup_cons in Hids as [Hid Hids], Hkeys as [Hkey Hkeys].
  destruct (Hb c) as [E1 E2]; [by left|]. destruct (Hfree c) as [F1 F2]; [by left|].
  pose proof (stage_next_is_stage st c E1 E2 Hbase F1 F2) as Hs. cbn [foldM]. unfold stage_all. cbn [for_each].
  rewrite run_bind, run_bind. destruct (stage_next k id st c) as [st1|e] eqn:En; cbn [bind].
  - rewrite Hs. cbn [fst snd ret]. destruct (stage_next_state _ _ _ En) as (S1 & S2 & S3 & S4).
    assert (forall c', c' ∈ batch -> st1.1.2 !! (id, DesignCommand.idempotency_key c') = None /\
      st1.2 !! DesignCommand.command_id c' = None) as Hfree1.
    { intros c' Hc'. destruct (Hfree c') as [G1 G2]; [by right|]. split.
      - apply S2; [done|]. intros E. apply Hkey. rewrite <- E. by apply list_elem_of_fmap_2.
      - apply S3; [done|]. intros E. apply Hid. rewrite <- E. by apply list_elem_of_fmap_2. }
    specialize (IH st1). destruct (foldM (stage_next k id) st1 batch) as [st2|e] eqn:Ef.
    + destruct IH as [IH1 IH2]; [|by rewrite S1|done|].
      { split_and!; [|done..]. intros c' Hc'. apply Hb. by right. }
      split; [done|]. assert (st2 = st1 \/ st2.1.2 <> ∅) as [->|?] by done; [done|by right].
    + apply IH; [|by rewrite S1|done]. split_and!; [|done..]. intros c' Hc'. apply Hb. by right.
  - destruct Hs as (e' & Hs & Ec). rewrite Hs. cbn [fst snd]. by exists (merged k id st), e'.
Qed.
End batch.

Lemma merged_start k id t : Kernel.transactions k !! id = Some t -> merged k id (t, ∅, ∅) = k.
Proof.
  intros H. unfold merged, set_field. simpl. rewrite insert_id by done. rewrite !(left_id_L ∅ (∪)). by destruct k.
Qed.

Lemma one_batch_checked id base batch :
  one_batch id base batch <->
  existsb (fun c => negb (bool_decide (DesignCommand.transaction_id c = id)) ||
    negb (bool_decide (DesignCommand.base_revision c = base))) batch = false /\
  has_duplicates (DesignCommand.command_id <$> batch) = false /\
  has_duplicates (DesignCommand.idempotency_key <$> batch) = false.
Proof.
  unfold one_batch. rewrite !no_duplicates, existsb_Forall, Forall_forall. setoid_rewrite orb_false_iff.
  setoid_rewrite negb_false_iff. by setoid_rewrite bool_decide_eq_true.
Qed.

Lemma stage_batch_runs first batch k :
  let id := DesignCommand.transaction_id first in
  one_batch id (DesignCommand.base_revision first) (first :: batch) ->
  match stage_batch (first :: batch) k with
  | (k', Ok t) => stage_all (first :: batch) k = (k', Ok tt) /\ Kernel.transactions k' !! id = Some t
  | (k', Err e) => k' = k /\ exists k2 e', stage_all (first :: batch) k = (k2, Err e') /\ exn_cls e' = exn_cls e
  end.
Proof.
  intros id Hb. unfold stage_batch. fold id. rewrite run_lift.
  destruct (proj1 (one_batch_checked _ _ _) Hb) as (C1 & C2 & C3). cbn [raise_first]. rewrite C1, C2, C3. rewrite run_get, run_lift.
  unfold get_transaction. destruct (Kernel.transactions k !! id) as [t|] eqn:Ht.
  2:{ split; [done|]. unfold stage_all. cbn [for_each]. rewrite run_bind, run_bind. unfold stage.
      rewrite run_get, run_lift. unfold get_transaction. fold id. rewrite Ht. cbn [fst snd]. by do 2 eexists. }
  case_bool_decide as Hbase.
  2:{ cbn [negb]. unfold throw. split; [done|]. unfold stage_all. cbn [for_each]. rewrite run_bind, run_bind. unfold stage.
      rewrite run_get, run_lift. unfold get_transaction. fold id. rewrite Ht, bool_decide_eq_false_2 by done.
      cbn [negb]. unfold throw. cbn [fst snd]. by do 2 eexists. }
  cbn [negb]. rewrite run_lift. pose proof (run_batch k id _ _ (t, ∅, ∅) Hb (eq_sym Hbase)) as H.
  rewrite (merged_start _ _ _ Ht) in H. specialize (H (fun _ _ => conj (lookup_empty _) (lookup_empty _))).
  destruct (foldM _ _ _) as [[[t' ai] ac]|e]; [|done]. destruct H as [H Hst]. rewrite run_bind.
  case_bool_decide as Hai; cbn [fst snd] in *.
  - subst ai. destruct Hst as [[= -> ->]|[]]; [|done]. rewrite (merged_start _ _ _ Ht) in H. by unfold ret.
  - unfold modify, ret. cbn [fst snd]. split; [done|]. apply lookup_insert_eq.
Qed.

Lemma stage_all_steps batch k k' :
  keyed_transactions k -> stage_all batch k = (k', Ok tt) ->
  rtc edit k k'.
Proof.
  revert k. induction batch as [|c batch IH]; intros k Hk H; [injection H as <-; done|].
  unfold stage_all in H. cbn [for_each] in H. rewrite run_bind, run_bind in H.
  destruct (stage c k) as [k1 [t|e]] eqn:Es; [|done]. cbn [fst snd ret] in H.
  apply stage_effect in Es as [[-> _]|(t' & [= <-] & Hs & _)]; [|..|done].
  - by apply IH.
  - eapply rtc_l; [exact Hs|]. apply IH; [|done]. by eapply edit_keyed.
Qed.

Lemma stage_batch_effect batch k k' r :
  keyed_transactions k -> stage_batch batch k = (k', r) ->
  (exists e, r = Err e) /\ k' = k \/ (exists t, r = Ok t) /\
    rtc edit k k'.
Proof.
  intros Hk H. destruct batch as [|first batch]; [left; injection H as <- <-; eauto|].
  destruct (raise_first [
      (existsb (fun c => negb (bool_decide (DesignCommand.transaction_id c = DesignCommand.transaction_id first)) ||
        negb (bool_decide (DesignCommand.base_revision c = DesignCommand.base_revision first))) (first :: batch),
        invariant_err "stage batch commands must bind one transaction and base revision");
      (has_duplicates (DesignCommand.command_id <$> first :: batch), invariant_err "stage batch command IDs must be unique");
      (has_duplicates (DesignCommand.idempotency_key <$> first :: batch),
        invariant_err "stage batch idempotency keys must be unique")]) as [[]|e] eqn:E.
  - assert (one_batch (DesignCommand.transaction_id first) (DesignCommand.base_revision first) (first :: batch)) as Hb.
    { apply one_batch_checked. apply raise_first_Ok in E. rewrite !Forall_cons in E. cbn [fst] in E. tauto. }
    pose proof (stage_batch_runs first batch k Hb) as Hr. cbv zeta in Hr. rewrite H in Hr. destruct r as [t|e].
    + right. split; [eauto|]. destruct Hr as [Hr _]. by eapply stage_all_steps.
    + left. destruct Hr as [-> _]. eauto.
  - left. unfold stage_batch in H. rewrite run_lift, E in H. injection H as <- <-. eauto.
Qed.
