(* ===== verification/KernelInv.v ===== *)
(** * The invariant of the kernel

    The revisions form one line of valid graphs, each linked to its parent by
    its hash and made by one committed transaction; every transaction stages
    the replay of its commands; the indexes of commands list the accepted
    commands and nothing else. *)
From S2P Require Import Prelude PyDict PyStr Sha256 Json DateTime Models Canonical CanonicalFacts Effect KernelText.
From S2P Require Import KernelModel KernelGraph KernelCommand KernelLaws CommitAuthority Kernel AuthorityFacts.
From S2P Require Import KernelSteps.

Local Open Scope string_scope.

(** ** Links *)

(** What the hash of a revision is taken of. *)
Definition link (r : DesignRevision.t) : list (string * pyval) :=
  match DesignRevision.parent_revision r with
  | None => [("parent", PNone); ("sequence", PInt 0); ("graph_hash", py (DesignRevision.graph_hash r))]
  | Some parent => [
      ("parent", py parent); ("sequence", py (DesignRevision.sequence r)); ("graph_hash", py (DesignRevision.graph_hash r));
      ("commands", py (DesignRevision.command_hashes r));
      ("verification_report_hash", py (DesignRevision.verification_report_hash r));
      ("approval_preview_digest", py (DesignRevision.approval_preview_digest r))]
  end.
Definition linked (r : DesignRevision.t) : Prop :=
  stable_hash (mapping (link r)) Kernel.revision_domain = Ok (DesignRevision.revision_hash r).

(** [t] takes the revision [p] to the revision [r]. *)
Record commit_of (p : DesignRevision.t) (t : DesignTransaction.t) (r : DesignRevision.t) : Prop := {
  co_state : DesignTransaction.state t = TransactionState.COMMITTED;
  co_revision : DesignTransaction.committed_revision_hash t = Some (DesignRevision.revision_hash r);
  co_base : DesignTransaction.base_revision t = DesignRevision.revision_hash p;
  co_parent : DesignRevision.parent_revision r = Some (DesignRevision.revision_hash p);
  co_sequence : DesignRevision.sequence r = (DesignRevision.sequence p + 1)%Z;
  co_commands : DesignTransaction.commands t <> [];
  co_replay : replay (DesignRevision.graph p) (DesignTransaction.commands t) = Ok (DesignRevision.graph r);
  co_hashes : transaction_command_hashes t = Ok (DesignRevision.command_hashes r);
  co_report : DesignRevision.verification_report_hash r = DesignTransaction.verification_report_hash t;
  co_preview : DesignRevision.approval_preview_digest r = Some (DesignTransaction.preview_digest t);
}.

(** ** The invariant *)

Record revision_inv (k : Kernel.t) (r : DesignRevision.t) : Prop := {
  ri_new : DesignRevision.new r = Ok r;
  ri_valid : graph_valid (DesignRevision.graph r);
  ri_linked : linked r;
  ri_genesis : DesignRevision.parent_revision r = None -> DesignRevision.sequence r = 0%Z;
  ri_commit : forall h, DesignRevision.parent_revision r = Some h ->
    exists p t, Kernel.revisions k !! h = Some p /\ present k t /\ commit_of p t r;
}.

(** The digest that [_refresh_preview] computes. *)
Definition preview_of (t : DesignTransaction.t) : result string :=
  let* staged_graph_hash := graph_hash (DesignTransaction.staged_graph t) in
  let* command_hashes := transaction_command_hashes t in
  stable_hash (PMap [
    (KStr "base_revision", py (DesignTransaction.base_revision t));
    (KStr "transaction_id", py (DesignTransaction.transaction_id t));
    (KStr "staged_graph_hash", py staged_graph_hash);
    (KStr "command_hashes", py command_hashes)]) "flux-clone-preview-v2".

Record transaction_inv (k : Kernel.t) (t : DesignTransaction.t) : Prop := {
  ti_new : DesignTransaction.new t = Ok t;
  ti_preview : preview_of t = Ok (DesignTransaction.preview_digest t);
  ti_staged : exists base, Kernel.revisions k !! DesignTransaction.base_revision t = Some base /\
    replay (DesignRevision.graph base) (DesignTransaction.commands t) = Ok (DesignTransaction.staged_graph t);
  ti_committed : forall h, DesignTransaction.committed_revision_hash t = Some h ->
    exists p r, Kernel.revisions k !! DesignTransaction.base_revision t = Some p /\ Kernel.revisions k !! h = Some r /\
      commit_of p t r;
}.

(** The commands that were accepted. *)
Definition staged_in (k : Kernel.t) (t : DesignTransaction.t) (c : DesignCommand.t) : Prop :=
  present k t /\ c ∈ DesignTransaction.commands t.

Record kernel_inv (k : Kernel.t) : Prop := {
  ki_head : is_Some (Kernel.revisions k !! Kernel.head k);
  ki_hash : forall h r, Kernel.revisions k !! h = Some r -> DesignRevision.revision_hash r = h;
  ki_revision : forall h r, Kernel.revisions k !! h = Some r -> revision_inv k r;
  ki_last : forall h r p, Kernel.revisions k !! h = Some r -> Kernel.revisions k !! Kernel.head k = Some p ->
    (DesignRevision.sequence r <= DesignRevision.sequence p)%Z;
  ki_line : forall h1 h2 r1 r2, Kernel.revisions k !! h1 = Some r1 -> Kernel.revisions k !! h2 = Some r2 ->
    DesignRevision.sequence r1 = DesignRevision.sequence r2 -> r1 = r2;
  ki_id : forall id t, Kernel.transactions k !! id = Some t -> DesignTransaction.transaction_id t = id;
  ki_transaction : forall id t, Kernel.transactions k !! id = Some t -> transaction_inv k t;
  ki_key : forall id key h, Kernel.idempotency k !! (id, key) = Some h <->
    exists t c, staged_in k t c /\ DesignTransaction.transaction_id t = id /\ DesignCommand.idempotency_key c = key /\
      command_hash c = Ok h;
  ki_command : forall command_id h, Kernel.command_ids k !! command_id = Some h <->
    exists t c, staged_in k t c /\ DesignCommand.command_id c = command_id /\ command_hash c = Ok h;
}.

Lemma kernel_inv_kept k : kernel_inv k -> well_kept k.
Proof. intros H id t Ht. split; [by eapply ki_id|by eapply ti_new, ki_transaction]. Qed.

(** ** A kernel starts well *)

Lemma refresh_preview_of t :
  refresh_preview t = (let* d := preview_of t in DesignTransaction.new (t <| DesignTransaction.preview_digest := d |>)).
Proof.
  unfold refresh_preview, preview_of. destruct (graph_hash _); [|done]. cbn [bind]. by destruct (transaction_command_hashes t).
Qed.

Lemma refresh_preview_same t : refresh_preview t = Ok t -> preview_of t = Ok (DesignTransaction.preview_digest t).
Proof.
  rewrite refresh_preview_of. intros (d & Hd & H%transaction_new_Ok)%bind_Ok. rewrite Hd.
  f_equal. exact (eq_sym (f_equal DesignTransaction.preview_digest H)).
Qed.

Lemma init_Ok g verifier k :
  Kernel.init g verifier = Ok k ->
  exists graph r, DesignGraph.normalized g = Ok graph /\ graph_valid graph /\ DesignRevision.new r = Ok r /\
    r = DesignRevision.mk (DesignRevision.revision_hash r) None 0 graph (DesignRevision.graph_hash r) [] None None /\
    linked r /\
    k = Kernel.mk {[DesignRevision.revision_hash r := r]} (DesignRevision.revision_hash r) ∅ ∅ ∅ verifier ∅ ∅.
Proof.
  unfold Kernel.init. intros H. apply bind_Ok in H as (graph & Hg & H). apply seq_Ok in H as [Hv H].
  apply bind_Ok in H as (gh & Hgh & H). apply bind_Ok in H as (h & Hh & H). apply bind_Ok in H as (r & Hr & <-%Ok_inj).
  pose proof (revision_new_Ok _ _ Hr) as E. exists graph, r. rewrite <- E in Hr. split_and!; try done.
  - split; [by eapply normalized_graph_again|done].
  - by rewrite E.
  - unfold linked. rewrite E. exact Hh.
  - by rewrite E.
Qed.

Lemma init_inv g verifier k : Kernel.init g verifier = Ok k -> kernel_inv k.
Proof.
  intros (graph & r & _ & Hv & Hn & Hr & Hl & ->)%init_Ok. split; cbn.
  - rewrite lookup_singleton_eq. by eexists.
  - by intros h r' [<- <-]%lookup_singleton_Some.
  - intros h r' [<- <-]%lookup_singleton_Some. split; [done|by rewrite Hr|done|by rewrite Hr|by rewrite Hr].
  - intros h r' p [<- <-]%lookup_singleton_Some [_ <-]%lookup_singleton_Some. lia.
  - by intros h1 h2 r1 r2 [_ <-]%lookup_singleton_Some [_ <-]%lookup_singleton_Some.
  - by intros id t ?%lookup_empty_Some.
  - by intros id t ?%lookup_empty_Some.
  - intros id key h. rewrite lookup_empty. split; [done|]. intros (t & c & [Hp _] & _). unfold present in Hp. cbn in Hp. by rewrite lookup_empty in Hp.
  - intros id h. rewrite lookup_empty. split; [done|]. intros (t & c & [Hp _] & _). unfold present in Hp. cbn in Hp. by rewrite lookup_empty in Hp.
Qed.

(** ** Steps that publish no revision *)

Lemma revision_inv_kept k k' r :
  Kernel.revisions k ⊆ Kernel.revisions k' ->
  (forall t, present k t -> DesignTransaction.state t = TransactionState.COMMITTED -> present k' t) ->
  revision_inv k r -> revision_inv k' r.
Proof.
  intros E Hp [H1 H2 H3 H4 H5]. split; [done..|]. intros h Hh. destruct (H5 h Hh) as (p & t & Hr & Ht & Hc).
  exists p, t. split_and!; [by eapply lookup_weaken| |done]. apply Hp; [done|]. by apply co_state in Hc.
Qed.

Lemma transaction_inv_kept k k' t : Kernel.revisions k ⊆ Kernel.revisions k' -> transaction_inv k t -> transaction_inv k' t.
Proof.
  intros E [H1 H2 (base & Hb & H3) H4]. split; [done..| |].
  - exists base. split; [by eapply lookup_weaken|done].
  - intros h Hh. destruct (H4 h Hh) as (p & r & Hp & Hr & Hc). exists p, r. by split_and!; [eapply lookup_weaken..|].
Qed.

Lemma present_put k t t' :
  Kernel.transactions k !! DesignTransaction.transaction_id t' = Some t' ->
  DesignTransaction.transaction_id t' <> DesignTransaction.transaction_id t -> present (put t k) t'.
Proof. intros H Hne. unfold present. cbn. by rewrite lookup_insert_ne. Qed.

(** The revisions, the head and the transactions after one transaction changed. *)
Lemma edit_revisions k k' t :
  kernel_inv k -> Kernel.revisions k' = Kernel.revisions k -> Kernel.head k' = Kernel.head k ->
  Kernel.transactions k' = <[DesignTransaction.transaction_id t := t]> (Kernel.transactions k) ->
  (forall old, present k old -> DesignTransaction.transaction_id old = DesignTransaction.transaction_id t ->
    DesignTransaction.state old <> TransactionState.COMMITTED) ->
  transaction_inv k t ->
  (forall id key h, Kernel.idempotency k' !! (id, key) = Some h <->
    exists t c, staged_in k' t c /\ DesignTransaction.transaction_id t = id /\ DesignCommand.idempotency_key c = key /\
      command_hash c = Ok h) ->
  (forall command_id h, Kernel.command_ids k' !! command_id = Some h <->
    exists t c, staged_in k' t c /\ DesignCommand.command_id c = command_id /\ command_hash c = Ok h) ->
  kernel_inv k'.
Proof.
  intros Hk Er Eh Et Hold Ht Hkey Hcmd. split; try done; rewrite ?Er, ?Eh; try apply Hk.
  - intros h r Hr. apply (revision_inv_kept k); [by rewrite Er| |by eapply ki_revision].
    intros t' Hp Hs. unfold present. rewrite Et, lookup_insert_ne; [done|]. intros E. by eapply Hold.
  - intros id t'. rewrite Et. intros [[<- <-]|[_ H]]%lookup_insert_Some; [done|]. by eapply ki_id.
  - intros id t'. rewrite Et. intros [[<- <-]|[_ H]]%lookup_insert_Some;
      (apply (transaction_inv_kept k); [by rewrite Er|]); [done|by eapply ki_transaction].
Qed.

Lemma staged_in_insert k k' t t' c :
  Kernel.transactions k' = <[DesignTransaction.transaction_id t := t]> (Kernel.transactions k) ->
  staged_in k' t' c <-> (t' = t /\ c ∈ DesignTransaction.commands t) \/
    (DesignTransaction.transaction_id t' <> DesignTransaction.transaction_id t /\ staged_in k t' c).
Proof.
  unfold staged_in, present. intros ->. rewrite lookup_insert_Some. split.
  - intros [[[E ->]|[Hne H]] Hc]; [by left|right; split; [done|by split]].
  - intros [[-> Hc]|[Hne [H Hc]]]; (split; [|done]); [by left|by right].
Qed.

(** A transaction that changes without a change of its commands. *)
Lemma put_inv k t :
  kernel_inv k ->
  (forall old, present k old -> DesignTransaction.transaction_id old = DesignTransaction.transaction_id t ->
    DesignTransaction.state old <> TransactionState.COMMITTED) ->
  (forall c, c ∈ DesignTransaction.commands t <->
    exists old, present k old /\ DesignTransaction.transaction_id old = DesignTransaction.transaction_id t /\
      c ∈ DesignTransaction.commands old) ->
  transaction_inv k t -> kernel_inv (put t k).
Proof.
  intros Hk Hold Hc Ht.
  assert (forall Q : string -> DesignCommand.t -> Prop,
    (exists t' c, staged_in (put t k) t' c /\ Q (DesignTransaction.transaction_id t') c) <->
    (exists t' c, staged_in k t' c /\ Q (DesignTransaction.transaction_id t') c)) as Hq.
  { intros Q. setoid_rewrite (staged_in_insert k (put t k) t _ _ eq_refl). split.
    - intros (t' & c & [[-> Hin]|[_ Hs]] & HQ); [|eauto]. apply Hc in Hin as (old & Hp & Hid & Hin).
      exists old, c. rewrite Hid. done.
    - intros (t' & c & Hs & HQ). destruct (decide (DesignTransaction.transaction_id t' = DesignTransaction.transaction_id t)) as [E|Hne].
      + exists t, c. rewrite <- E. split; [|done]. left. split; [done|]. apply Hc. exists t'. by destruct Hs.
      + exists t', c. split; [by right|done]. }
  eapply edit_revisions; try done.
  - intros id key h. rewrite (ki_key k Hk id key h). symmetry.
    apply (Hq (fun i c => i = id /\ DesignCommand.idempotency_key c = key /\ command_hash c = Ok h)).
  - intros id h. rewrite (ki_command k Hk id h). symmetry.
    apply (Hq (fun _ c => DesignCommand.command_id c = id /\ command_hash c = Ok h)).
Qed.

(** A transaction in another state, with the same commands. *)
Definition same_work (t t' : DesignTransaction.t) : Prop :=
  DesignTransaction.transaction_id t' = DesignTransaction.transaction_id t /\
  DesignTransaction.base_revision t' = DesignTransaction.base_revision t /\
  DesignTransaction.staged_graph t' = DesignTransaction.staged_graph t /\
  DesignTransaction.commands t' = DesignTransaction.commands t /\
  DesignTransaction.preview_digest t' = DesignTransaction.preview_digest t.

Lemma put_state_inv k t t' :
  kernel_inv k -> present k t -> DesignTransaction.state t <> TransactionState.COMMITTED ->
  DesignTransaction.state t' <> TransactionState.COMMITTED -> same_work t t' -> DesignTransaction.new t' = Ok t' ->
  kernel_inv (put t' k).
Proof.
  intros Hk Hp Hs Hs' (Ei & Eb & Eg & Ec & Ed) Hn. apply put_inv; [done|..].
  - intros old Ho Hid. unfold present in *. rewrite Hid, Ei, Hp in Ho. by injection Ho as <-.
  - intros c. rewrite Ec. split; [by exists t|]. intros (old & Ho & Hid & Hc). unfold present in *.
    rewrite Hid, Ei, Hp in Ho. by injection Ho as <-.
  - destruct (ki_transaction k Hk _ _ Hp) as [T1 T2 T3 T4]. split; [done| | |].
    + unfold preview_of, transaction_command_hashes in *. by rewrite Ei, Eb, Eg, Ec, Ed.
    + by rewrite Eb, Ec, Eg.
    + intros h Hh. exfalso. apply Hs'. apply transaction_new_wf in Hn. apply (wf_committed _ Hn). by rewrite Hh.
Qed.

(** ** Accepted commands *)

Lemma foldM_snoc {A B} (f : B -> A -> result B) l x s : foldM f s (l ++ [x]) = (let* s' := foldM f s l in f s' x).
Proof.
  revert s. induction l as [|y l IH]; intros s; cbn [foldM app bind]; [by destruct (f s x)|].
  destruct (f s y); [apply IH|done].
Qed.

Lemma accepted_inv k t c graph digest hash (t' := with_command t c graph digest) :
  kernel_inv k -> present k t -> DesignTransaction.state t = TransactionState.OPEN ->
  DesignCommand.transaction_id c = DesignTransaction.transaction_id t ->
  Kernel.idempotency k !! (DesignCommand.transaction_id c, DesignCommand.idempotency_key c) = None ->
  Kernel.command_ids k !! DesignCommand.command_id c = None ->
  replay_command (DesignTransaction.staged_graph t) c = Ok graph -> command_hash c = Ok hash ->
  DesignTransaction.new t' = Ok t' -> refresh_preview t' = Ok t' -> kernel_inv (accepted k c t' hash).
Proof.
  intros Hk Hp Hs Hid Hkey Hcmd Hr Hh Hn Hd. destruct (ki_transaction k Hk _ _ Hp) as [T1 T2 (base & Hb & Hrep) T4].
  assert (forall t0 c0, staged_in (accepted k c t' hash) t0 c0 <->
    (t0 = t' /\ (c0 ∈ DesignTransaction.commands t \/ c0 = c)) \/
    (DesignTransaction.transaction_id t0 <> DesignTransaction.transaction_id t /\ staged_in k t0 c0)) as Hst.
  { intros t0 c0. rewrite (staged_in_insert k _ t'); [|by unfold accepted, set_field; cbn; rewrite Hid].
    unfold t'. cbn [with_command DesignTransaction.commands DesignTransaction.transaction_id].
    by rewrite elem_of_app, list_elem_of_singleton. }
  assert (forall t0 c0, staged_in k t0 c0 ->
    DesignTransaction.transaction_id t0 = DesignTransaction.transaction_id t -> t0 = t) as Hsame.
  { intros t0 c0 [H0 _] E. unfold present in *. rewrite E, Hp in H0. by injection H0. }
  eapply (edit_revisions k _ t'); [exact Hk|done|done|by unfold accepted, set_field; cbn; rewrite Hid|..].
  - intros old Ho Hi. unfold present in *. change (DesignTransaction.transaction_id old = DesignTransaction.transaction_id t) in Hi.
    rewrite Hi, Hp in Ho. injection Ho as <-. by rewrite Hs.
  - split; [done|by apply refresh_preview_same| |].
    + exists base. split; [done|]. unfold replay in *. cbn. rewrite foldM_snoc, Hrep. cbn [bind]. by rewrite Hr.
    + intros h E. exfalso. apply transaction_new_wf in T1. change (DesignTransaction.committed_revision_hash t = Some h) in E.
      assert (DesignTransaction.state t = TransactionState.COMMITTED) as E2 by (apply (wf_committed _ T1); by rewrite E). congruence.
  - intros id key h. unfold accepted, set_field. cbn. setoid_rewrite Hst. rewrite lookup_insert_Some, (ki_key k Hk). split.
    + intros [[[= <- <-] <-]|[Hne (t0 & c0 & H0 & <- & <- & Hh0)]].
      * exists t', c. split_and!; [left; split; [done|by right]|done..].
      * destruct (decide (DesignTransaction.transaction_id t0 = DesignTransaction.transaction_id t)) as [E|Hn0].
        -- exists t', c0. specialize (Hsame _ _ H0 E) as ->. split_and!; [left; split; [done|left; apply H0]|done..].
        -- exists t0, c0. split_and!; [by right|done..].
    + intros (t0 & c0 & [[-> [Hin| ->]]|[Hn0 H0]] & <- & <- & Hh0).
      * right. split; [|exists t, c0; by split_and!]. intros E. assert (staged_in k t c0) as H0 by done.
        assert (Kernel.idempotency k !! (DesignTransaction.transaction_id t, DesignCommand.idempotency_key c0) = Some h) as Hi
          by (apply (ki_key k Hk); exists t, c0; done). rewrite Hid in *. injection E as E. rewrite E in Hkey. congruence.
      * left. split; [by rewrite Hid|congruence].
      * right. split; [rewrite Hid; by intros [= ?]|]. by exists t0, c0.
  - intros id h. unfold accepted, set_field. cbn. setoid_rewrite Hst. rewrite lookup_insert_Some, (ki_command k Hk). split.
    + intros [[<- <-]|[Hne (t0 & c0 & H0 & <- & Hh0)]].
      * exists t', c. split_and!; [left; split; [done|by right]|done..].
      * destruct (decide (DesignTransaction.transaction_id t0 = DesignTransaction.transaction_id t)) as [E|Hn0].
        -- exists t', c0. specialize (Hsame _ _ H0 E) as ->. split_and!; [left; split; [done|left; apply H0]|done..].
        -- exists t0, c0. split_and!; [by right|done..].
    + intros (t0 & c0 & Hs0 & <- & Hh0).
      assert (c0 = c \/ exists t1, staged_in k t1 c0) as [->|[t1 H1]].
      { destruct Hs0 as [[-> [Hin| ->]]|[Hn0 H0]]; [right; by exists t|by left|right; by exists t0]. }
      * left. split; [done|congruence].
      * assert (Kernel.command_ids k !! DesignCommand.command_id c0 = Some h) as Hi by (apply (ki_command k Hk); by exists t1, c0).
        right. split; [intros E; congruence|by exists t1, c0].
Qed.

(** ** The step that publishes a revision *)

Lemma replay_valid graph commands staged : graph_valid graph -> replay graph commands = Ok staged -> graph_valid staged.
Proof.
  revert graph. induction commands as [|c commands IH]; intros graph Hv H; [by apply Ok_inj in H as <-|].
  apply bind_Ok in H as (g & Hg & H). eapply IH; [|exact H]. by eapply replay_command_valid.
Qed.

Lemma staged_valid k t : kernel_inv k -> present k t -> graph_valid (DesignTransaction.staged_graph t).
Proof.
  intros Hk Ht. destruct (ti_staged _ _ (ki_transaction k Hk _ _ Ht)) as (base & Hb & Hr).
  eapply replay_valid; [|exact Hr]. by eapply ri_valid, ki_revision.
Qed.

Lemma mapping_length fields1 fields2 : same_data (mapping fields1) (mapping fields2) -> length fields1 = length fields2.
Proof.
  intros (j & j' & (l1 & l1' & -> & P1 & H1)%mapping_obj & (l2 & l2' & -> & P2 & H2)%mapping_obj & E).
  cbn [canon] in E. injection E as E. apply (f_equal length) in E. rewrite !length_sorted_on, !length_fmap, P1, P2 in E.
  by rewrite (Forall2_length _ _ _ H1), (Forall2_length _ _ _ H2), E.
Qed.

Lemma link_canonical r : canonical_value (mapping (link r)).
Proof.
  unfold link. destruct (DesignRevision.parent_revision r) as [h|]; (apply mapping_canonical;
    [apply (bool_decide_unpack _); vm_compute; reflexivity|]); repeat constructor; simpl; try apply py_canonical.
  exists JNull. split; [done|constructor].
Qed.

(** Two different revisions under one hash. *)
Definition revision_collision (r1 r2 : DesignRevision.t) : Prop :=
  hash_collision (mapping (link r1)) Kernel.revision_domain (mapping (link r2)) Kernel.revision_domain.

Lemma same_link r1 r2 :
  linked r1 -> linked r2 -> DesignRevision.revision_hash r1 = DesignRevision.revision_hash r2 ->
  same_data (mapping (link r1)) (mapping (link r2)) \/ revision_collision r1 r2.
Proof. unfold linked. intros H1 H2 E. rewrite E in H1. eapply same_hash; eauto using link_canonical. Qed.

Lemma same_link_sequence r1 r2 parent :
  same_data (mapping (link r1)) (mapping (link r2)) -> DesignRevision.parent_revision r2 = Some parent ->
  DesignRevision.sequence r1 = DesignRevision.sequence r2.
Proof.
  intros H E. pose proof (mapping_length _ _ H) as Hl. unfold link in *. rewrite E in *.
  destruct (DesignRevision.parent_revision r1) as [h|]; [|done]. apply mapping_same in H; [|..|done].
  - repeat match goal with H : Forall2 _ (_ :: _) _ |- _ => apply Forall2_cons in H as [? H]; cbn [snd] in * end. by apply py_inj.
  - apply (bool_decide_unpack _); vm_compute; reflexivity.
Qed.

(** What a commit makes of a transaction. *)
Lemma next_revision_commit k parent t a r :
  kernel_inv k -> present k t -> DesignTransaction.state t = TransactionState.VERIFIED ->
  DesignTransaction.base_revision t = Kernel.head k -> DesignTransaction.commands t <> [] ->
  Kernel.revisions k !! Kernel.head k = Some parent -> next_revision parent t a = Ok r ->
  Authorization.preview_digest a = DesignTransaction.preview_digest t ->
  commit_of parent (committed t (DesignRevision.revision_hash r)) r /\ DesignRevision.graph r = DesignTransaction.staged_graph t /\
  DesignRevision.new r = Ok r /\ linked r.
Proof.
  intros Hk Ht Hs Hb Hc Hp Hn Ha. destruct (next_revision_Ok _ _ _ _ Hn) as [Hnew _]. unfold next_revision in Hn.
  apply bind_Ok in Hn as (hs & Hhs & Hn). apply bind_Ok in Hn as (g & Hg & Hn). apply bind_Ok in Hn as (gh & Hgh & Hn).
  apply bind_Ok in Hn as (h & Hh & Hn). pose proof (revision_new_Ok _ _ Hn) as E. clear Hn.
  destruct (staged_valid k t Hk Ht) as [Hng _]. rewrite Hg in Hng. apply Ok_inj in Hng as ->.
  destruct (ti_staged _ _ (ki_transaction k Hk _ _ Ht)) as (base & Hbase & Hrep). rewrite Hb, Hp in Hbase. injection Hbase as <-.
  pose proof (ki_hash k Hk _ _ Hp) as Eh. rewrite E in Hnew |- *. split_and!; [|done|done|].
  - split; cbn; try done; [congruence|by rewrite Ha].
  - unfold linked, link. cbn [DesignRevision.parent_revision DesignRevision.sequence DesignRevision.graph_hash
      DesignRevision.command_hashes DesignRevision.verification_report_hash DesignRevision.approval_preview_digest
      DesignRevision.revision_hash]. exact Hh.
Qed.

(** Two kernels in which one hash stands for two revisions. *)
Definition collides (k k' : Kernel.t) : Prop :=
  exists h r1 r2, Kernel.revisions k !! h = Some r1 /\ Kernel.revisions k' !! h = Some r2 /\ revision_collision r1 r2.


Lemma published_inv k t parent r ev (a := ConsumedAuthorization.claims ev) :
  kernel_inv k -> present k t -> DesignTransaction.state t = TransactionState.VERIFIED ->
  DesignTransaction.base_revision t = Kernel.head k -> DesignTransaction.commands t <> [] ->
  Kernel.revisions k !! Kernel.head k = Some parent -> next_revision parent t a = Ok r ->
  Authorization.preview_digest a = DesignTransaction.preview_digest t ->
  DesignTransaction.new (committed t (DesignRevision.revision_hash r)) = Ok (committed t (DesignRevision.revision_hash r)) ->
  Kernel.revisions k !! DesignRevision.revision_hash r = None -> kernel_inv (published k t r ev).
Proof.
  intros Hk Ht Hs Hb Hc Hp Hn Ha Htn Hfree.
  destruct (next_revision_commit _ _ _ _ _ Hk Ht Hs Hb Hc Hp Hn Ha) as (Hco & Hg & Hrn & Hl).
  set (k' := published k t r ev). set (t' := committed t (DesignRevision.revision_hash r)) in *.
  assert (Kernel.revisions k ⊆ Kernel.revisions k') as Hsub by (by apply insert_subseteq).
  assert (Kernel.transactions k' = <[DesignTransaction.transaction_id t' := t']> (Kernel.transactions k)) as Et by done.
  assert (present k' t') as Hpt by (unfold present; rewrite Et; apply lookup_insert_eq).
  assert (forall t0, present k t0 -> DesignTransaction.state t0 = TransactionState.COMMITTED -> present k' t0) as Hkeep.
  { intros t0 H0 Hs0. unfold present. rewrite Et, lookup_insert_ne; [done|]. intros E. unfold present in *.
    change (DesignTransaction.transaction_id t') with (DesignTransaction.transaction_id t) in E.
    rewrite <- E, Ht in H0. congruence. }
  assert (Kernel.revisions k' !! DesignRevision.revision_hash r = Some r) as Hr by apply lookup_insert_eq.
  assert (DesignRevision.sequence r = DesignRevision.sequence parent + 1)%Z as Hseq by apply Hco.
  assert (forall Q : string -> DesignCommand.t -> Prop,
    (exists t0 c, staged_in k' t0 c /\ Q (DesignTransaction.transaction_id t0) c) <->
    (exists t0 c, staged_in k t0 c /\ Q (DesignTransaction.transaction_id t0) c)) as Hq.
  { intros Q. setoid_rewrite (staged_in_insert k k' t' _ _ Et). split.
    - intros (t0 & c & [[-> Hin]|[_ H0]] & HQ); [by exists t, c|eauto].
    - intros (t0 & c & H0 & HQ). destruct (decide (DesignTransaction.transaction_id t0 = DesignTransaction.transaction_id t)) as [E|Hne].
      + exists t', c. destruct H0 as [H0 Hin]. unfold present in *. rewrite E, Ht in H0. injection H0 as <-.
        split; [by left|done].
      + exists t0, c. split; [by right|done]. }
  split.
  - by exists r.
  - intros h r'. change (Kernel.revisions k') with (<[DesignRevision.revision_hash r := r]> (Kernel.revisions k)).
    intros [[<- <-]|[_ H]]%lookup_insert_Some; [done|by eapply ki_hash].
  - intros h r'. change (Kernel.revisions k') with (<[DesignRevision.revision_hash r := r]> (Kernel.revisions k)).
    intros [[<- <-]|[_ H]]%lookup_insert_Some; [|apply (revision_inv_kept k); [done..|by eapply ki_revision]].
    split; [done| |done| |].
    + rewrite Hg. by eapply staged_valid.
    + pose proof (co_parent _ _ _ Hco). congruence.
    + intros h Hh. exists parent, t'. pose proof (co_parent _ _ _ Hco) as Epar. rewrite Hh in Epar. injection Epar as ->.
      split_and!; [|done..]. rewrite (ki_hash k Hk _ _ Hp). by eapply lookup_weaken.
  - intros h r' p. change (Kernel.revisions k' !! Kernel.head k') with (Kernel.revisions k' !! DesignRevision.revision_hash r).
    rewrite Hr. change (Kernel.revisions k') with (<[DesignRevision.revision_hash r := r]> (Kernel.revisions k)).
    intros [[<- <-]|[_ H]]%lookup_insert_Some [= <-]; [lia|]. pose proof (ki_last k Hk _ _ _ H Hp). lia.
  - intros h1 h2 r1 r2. change (Kernel.revisions k') with (<[DesignRevision.revision_hash r := r]> (Kernel.revisions k)).
    intros [[<- <-]|[_ H1]]%lookup_insert_Some [[<- <-]|[_ H2]]%lookup_insert_Some E; [done|exfalso|exfalso|].
    + pose proof (ki_last k Hk _ _ _ H2 Hp). lia.
    + pose proof (ki_last k Hk _ _ _ H1 Hp). lia.
    + eapply (ki_line k Hk); eauto.
  - intros id t0. rewrite Et. intros [[<- <-]|[_ H]]%lookup_insert_Some; [done|by eapply ki_id].
  - intros id t0. rewrite Et. intros [[<- <-]|[_ H]]%lookup_insert_Some;
      [|apply (transaction_inv_kept k); [done|by eapply ki_transaction]].
    destruct (ki_transaction k Hk _ _ Ht) as [T1 T2 (base & Hbase & Hrep) T4]. split; [done|exact T2| |].
    + exists base. split; [by eapply lookup_weaken|done].
    + intros h Hh. injection Hh as <-. exists parent, r. split_and!; [|done|done]. change (DesignTransaction.base_revision t') with
        (DesignTransaction.base_revision t). rewrite Hb. by eapply lookup_weaken.
  - intros id key h. change (Kernel.idempotency k') with (Kernel.idempotency k). rewrite (ki_key k Hk id key h). symmetry.
    apply (Hq (fun i c => i = id /\ DesignCommand.idempotency_key c = key /\ command_hash c = Ok h)).
  - intros id h. change (Kernel.command_ids k') with (Kernel.command_ids k). rewrite (ki_command k Hk id h). symmetry.
    apply (Hq (fun _ c => DesignCommand.command_id c = id /\ command_hash c = Ok h)).
Qed.

(** ** Every step *)

Lemma edit_inv k k' : kernel_inv k -> edit k k' -> kernel_inv k'.
Proof.
  intros Hk Hs. destruct Hs as [id r digest t Hid Hr Hn Hd|t c graph digest hash t' Ht Hs Hi Hb Hkey Hcmd Hrep Hne Hh Hn Hd
    |t report passed t' Ht Hs Hn|t t' Ht Hs Hn].
  - apply put_inv; [done|..].
    + intros old Ho E. change (DesignTransaction.transaction_id old = id) in E. unfold present in Ho. congruence.
    + intros c. split; [by intros ?%elem_of_nil|]. intros (old & Ho & E & _).
      change (DesignTransaction.transaction_id old = id) in E. unfold present in Ho. congruence.
    + split; [done|by apply refresh_preview_same|by exists r|done].
  - by apply accepted_inv.
  - apply (put_state_inv k t); [done|done|by rewrite Hs|by destruct passed|done|done].
  - apply (put_state_inv k t); [done|done|by destruct Hs as [-> | ->]|done..].
Qed.

Lemma publish_inv k k' :
  kernel_inv k -> publish k k' -> kernel_inv k' /\ Kernel.revisions k ⊆ Kernel.revisions k' \/ collides k k'.
Proof.
  intros Hk Hs. destruct Hs as [t parent r ev claims t' Ht Hs Hg Hb Hc Hp Hn Ha Htn].
  destruct (Kernel.revisions k !! DesignRevision.revision_hash r) as [old|] eqn:Eo;
    [right|left; split; [by eapply published_inv|by apply insert_subseteq]].
  exists (DesignRevision.revision_hash r), old, r. split_and!; [done|by apply lookup_insert_eq|].
  destruct (next_revision_commit _ _ _ _ _ Hk Ht Hs Hb Hc Hp Hn Ha) as (Hco & _ & _ & Hl).
  destruct (same_link old r) as [E|E]; [by eapply ri_linked, ki_revision|done|by eapply ki_hash| |done].
  exfalso. pose proof (same_link_sequence _ _ _ E (co_parent _ _ _ Hco)). pose proof (co_sequence _ _ _ Hco).
  pose proof (ki_last k Hk _ _ _ Eo Hp). lia.
Qed.

Lemma edits_inv k k' : kernel_inv k -> rtc edit k k' -> kernel_inv k'.
Proof. intros Hk H. induction H; eauto using edit_inv. Qed.
