(* ===== verification/KernelRuns.v ===== *)
(** * Runs of the kernel and of the commit authority

    The calls that the clients of a kernel and of its commit authority make, in
    any order and whether they raise or not, and what every call does to the
    two of them; at the end, a concrete run. *)
From S2P Require Import Prelude PyDict PyStr Sha256 Json DateTime Models Geometry Board Canonical CanonicalFacts.
From S2P Require Import Effect KernelText KernelModel KernelGraph KernelCommand KernelLaws CommitAuthority Kernel.
From S2P Require Import AuthorityFacts KernelSteps KernelInv.

Local Open Scope string_scope.

(** ** Calls *)

Inductive call :=
  | Begin (transaction_id base_revision : string)
  | Stage (command : DesignCommand.t)
  | StageBatch (batch : list DesignCommand.t)
  | RecordVerification (transaction_id report : string) (passed : bool) (preview : option string)
  | Commit (transaction_id : string) (authorization : Authorization.t) (clock clock' : datetime)
  | Rollback (transaction_id : string)
  | RegisterApproval (approval : ReleaseApproval.t) (clock : datetime)
  | RevokeApproval (approval_id : string) (clock : datetime)
  | Issue (subject : commit_subject) (approval_id : string) (lifetime : Z) (nonce : string) (clock : datetime)
  | Verify (authorization : Authorization.t) (clock : datetime)
  | Consume (verified : VerifiedClaims.t) (clock : datetime).

Definition void {S A} (m : comp S A) : comp S unit := do _ <- m in ret tt.
Definition perform (c : call) : comp world unit :=
  match c with
  | Begin id base => void (on_kernel (begin_transaction id base))
  | Stage command => void (on_kernel (stage command))
  | StageBatch batch => void (on_kernel (stage_batch batch))
  | RecordVerification id report passed preview => void (on_kernel (record_verification id report passed preview))
  | Commit id authorization clock clock' => void (commit id authorization clock clock')
  | Rollback id => void (on_kernel (rollback id))
  | RegisterApproval approval clock => void (on_authority (register_release_approval approval clock))
  | RevokeApproval id clock => on_authority (revoke_release_approval id clock)
  | Issue subject id lifetime nonce clock => void (on_authority (issue subject id lifetime nonce clock))
  | Verify authorization clock => void (on_authority (verify authorization clock))
  | Consume verified clock => void (on_authority (consume verified clock))
  end.

(** The clients go on after an exception. *)
Definition run (calls : list call) (w : world) : world := foldl (fun w c => (perform c w).1) w calls.

Lemma run_snoc calls c w : run (calls ++ [c]) w = (perform c (run calls w)).1.
Proof. unfold run. by rewrite foldl_app. Qed.
Lemma run_app calls1 calls2 w : run (calls1 ++ calls2) w = run calls2 (run calls1 w).
Proof. unfold run. by rewrite foldl_app. Qed.

(** A new kernel beside a new authority. *)
Definition started (g : DesignGraph.t) (w : world) : Prop :=
  (exists verifier, Kernel.init g verifier = Ok (kernel w)) /\
  exists key_id secret principal token, AuthorityState.new key_id secret principal token = Ok (authority w).

(** ** What a call does *)

Inductive world_step (w : world) : world -> Prop :=
  | ws_idle w' : kernel w' = kernel w -> observed (authority w) (authority w') -> world_step w w'
  | ws_edit w' : rtc edit (kernel w) (kernel w') -> authority w' = authority w -> world_step w w'
  | ws_commit w' t now ap rev s (a : Authorization.t) :
      present (kernel w) t -> DesignTransaction.state t = TransactionState.VERIFIED ->
      kernel w' = published (kernel w) t rev (ConsumedAuthorization.mk a ap now) -> publish (kernel w) (kernel w') ->
      authorized (authority w) t a now ap -> observed (authority w) s -> reads s now ->
      AuthorityState.clock_poisoned (authority w) = false ->
      AuthorityState.consumed (authority w) !! Authorization.nonce a = None -> authority w' = consumed_by a (at_time now s) ->
      world_step w w'
  | ws_register w' ap now : kernel w' = kernel w -> reads (authority w) now ->
      authority w' = registered ap (at_time now (authority w)) -> ReleaseApproval.new ap = Ok ap ->
      ~ ReleaseApproval.approval_id ap ∈ AuthorityState.approval_ids_seen (authority w) ->
      ReleaseApproval.principal ap = AuthorityState.required_release_principal (authority w) -> world_step w w'
  | ws_revoke w' id now : kernel w' = kernel w -> reads (authority w) now ->
      authority w' = revoked id (at_time now (authority w)) -> world_step w w'
  | ws_issue w' subject id lifetime nonce ap a now : kernel w' = kernel w ->
      reads (authority w) now ->
      AuthorityState.approvals (authority w) !! id = Some ap -> authorize (authority w) subject ap lifetime nonce now = Ok a ->
      (forall existing, AuthorityState.issued (authority w) !! Authorization.authorization_digest a = Some existing ->
        existing = ap) ->
      authority w' = issued_as (Authorization.authorization_digest a) ap (at_time now (authority w)) -> world_step w w'
  | ws_consume w' a ap now : kernel w' = kernel w -> reads (authority w) now ->
      trusted (authority w) a now ap -> AuthorityState.consumed (authority w) !! Authorization.nonce a = None ->
      authority w' = consumed_by a (at_time now (authority w)) -> world_step w w'.

Lemma run_void {S A} (m : comp S A) s s' r :
  void m s = (s', r) -> exists r0, m s = (s', r0) /\ (forall e, r = Err e <-> r0 = Err e).
Proof.
  unfold void. rewrite run_bind. destruct (m s) as [s1 [a|e]]; cbn [fst snd ret]; intros [= <- <-]; eexists; (split; [done|]).
  - intros e. by split.
  - intros e2. split; by intros [= ->].
Qed.

Lemma run_on_kernel {A} (m : kern A) w w' r :
  on_kernel m w = (w', r) -> exists k', m (kernel w) = (k', r) /\ kernel w' = k' /\ authority w' = authority w.
Proof. unfold on_kernel. rewrite run_zoom. destruct (m (kernel w)) as [k' r']. intros [= <- <-]. by exists k'. Qed.
Lemma run_on_authority {A} (m : auth A) w w' r :
  on_authority m w = (w', r) -> exists s', m (authority w) = (s', r) /\ authority w' = s' /\ kernel w' = kernel w.
Proof. unfold on_authority. rewrite run_zoom. destruct (m (authority w)) as [s' r']. intros [= <- <-]. by exists s'. Qed.

(** What raises changes nothing but the clock's record. *)
Definition untouched (w w' : world) : Prop := kernel w' = kernel w /\ observed (authority w) (authority w').

Lemma perform_step c w w' r :
  well_kept (kernel w) -> perform c w = (w', r) ->
  world_step w w' /\ (forall e, r = Err e -> untouched w w').
Proof.
  intros Hk H. pose proof (well_kept_keyed _ Hk) as Hk'.
  assert (forall w', untouched w w' -> world_step w w') as Hidle by (intros ? []; by apply ws_idle).
  assert (forall k', kernel w' = k' -> authority w' = authority w -> k' = kernel w -> untouched w w') as Hsame.
  { intros k' E1 E2 E3. split; [congruence|]. rewrite E2. reflexivity. }
  destruct c; cbn [perform] in H; try (apply run_void in H as (r0 & H & Hr));
    try (apply run_on_kernel in H as (k' & H & Ek & Ea)); try (apply run_on_authority in H as (s' & H & Ea & Ek)).
  - destruct (begin_transaction_effect _ _ _ _ _ H) as [[E _]|(t & -> & E & Hs & _)].
    + split; [apply Hidle|]; eauto.
    + split; [apply ws_edit; [|done]; rewrite Ek; by apply rtc_once|]. by intros e ?%Hr.
  - destruct (stage_effect _ _ _ _ Hk' H) as [[E _]|(t & -> & Hs & h & _ & E & _)].
    + split; [apply Hidle|]; eauto.
    + split; [apply ws_edit; [|done]; rewrite Ek; by apply rtc_once|]. by intros e ?%Hr.
  - destruct (stage_batch_effect _ _ _ _ Hk' H) as [[_ E]|[[t ->] Hs]].
    + split; [apply Hidle|]; eauto.
    + split; [apply ws_edit; [|done]; by rewrite Ek|]. by intros e ?%Hr.
  - destruct (record_verification_effect _ _ _ _ _ _ _ Hk' H) as [[E _]|(t & _ & -> & E & Hs)].
    + split; [apply Hidle|]; eauto.
    + split; [apply ws_edit; [|done]; rewrite Ek; by apply rtc_once|]. by intros e ?%Hr.
  - destruct (commit_effect _ _ _ _ _ _ _ Hk H) as [[[e ->] [E Ho]]|[(t & now & ap & rev & -> & E & Ho & _)
      |(t & now & ap & rev & s' & -> & Ht & Hs & E & Hstep & Hau & Hu & Ho & Hpo & Hfree & Ea & _)]].
    + split; [by apply ws_idle|by split].
    + split; [by apply ws_idle|by split].
    + split; [|by intros e ?%Hr]. eapply ws_commit; try done. by eapply present_id.
  - destruct (rollback_effect _ _ _ _ Hk' H) as [[E _]|(t & _ & -> & E & Hs)].
    + split; [apply Hidle|]; eauto.
    + split; [apply ws_edit; [|done]; rewrite Ek; by apply rtc_once|]. by intros e ?%Hr.
  - destruct (register_effect _ _ _ _ _ H) as [[[e ->] Ho]|(now & Ho & -> & E & Hn & Hs & Hp & _)].
    + subst s'. split; [by apply ws_idle|by split].
    + split; [|by intros e ?%Hr]. subst s'. by eapply ws_register.
  - destruct (revoke_effect _ _ _ _ _ H) as [[[e ->] Ho]|(now & Ho & -> & E)].
    + subst s'. split; [by apply ws_idle|by split].
    + split; [|done]. subst s'. by eapply ws_revoke.
  - destruct (issue_effect _ _ _ _ _ _ _ _ H) as [[[e ->] Ho]|(now & ap & a & Ho & -> & _ & Hap & _ & Hau & Hex & E)].
    + subst s'. split; [by apply ws_idle|by split].
    + split; [|by intros e ?%Hr]. subst s'. by eapply ws_issue.
  - destruct (verify_effect _ _ _ _ _ H) as [Ho _]. subst s'. split; [by apply ws_idle|by split].
  - destruct (consume_effect _ _ _ _ _ H) as [[[e ->] Ho]|(now & ap & Hu & Ht & Hfree & -> & E & _)].
    + subst s'. split; [by apply ws_idle|by split].
    + split; [|by intros e ?%Hr]. subst s'. by eapply ws_consume.
Qed.

(** * A concrete run of the kernel

    A kernel of an empty two-layer board beside an authority, and the calls
    that bring it to its first commit: a net and a component are staged,
    verified, approved by the owner, and committed under the capability that
    the authority issued.  The witnesses evaluate the definitions on it. *)

Definition kernel_graph : DesignGraph.t := DesignGraph.mk 1 "demo" ["F.Cu"; "B.Cu"] [] [] [] [] [] [] [] [] [] [] [].
Definition kernel_secret : bytes := repeat 7%N 32.
(** 2026-03-19T09:04:05+00:00 and seconds after it. *)
Definition kernel_clock (s : Z) : datetime := DT (63909684245000000 + s * 1000000) (Some 0%Z).
Definition kernel_report : string := str_join "" (repeat "ab" 32).

Definition no_kernel : Kernel.t := Kernel.mk ∅ "" ∅ ∅ ∅ false ∅ ∅.
Definition no_authority : AuthorityState.t := AuthorityState.mk "" [] "" ∅ ∅ ∅ ∅ None false 0.
Definition value_or {A} (default : A) (r : result A) : A := match r with Ok x => x | Err _ => default end.

Definition kernel_world : world := Eval vm_compute in
  World (value_or no_kernel (Kernel.init kernel_graph true))
    (value_or no_authority (AuthorityState.new "key" kernel_secret "user:owner" 1)).
Definition genesis_hash : string := Eval vm_compute in Kernel.head (kernel kernel_world).

Lemma kernel_world_started : started kernel_graph kernel_world.
Proof.
  split; [exists true; vm_compute; reflexivity|].
  exists "key", kernel_secret, "user:owner", 1%Z. vm_compute. reflexivity.
Qed.

(** ** The commands *)

Definition kernel_command (n key : string) (kind : CommandKind.t) (payload : list (pykey * pyval)) : DesignCommand.t :=
  value_or (DesignCommand.mk n genesis_hash "tx-1" "agent" kind "" key)
    (DesignCommand.create n genesis_hash "tx-1" "agent" kind payload key).
Definition net_command : DesignCommand.t := Eval vm_compute in
  kernel_command "cmd-1" "key-1" CommandKind.NET_CREATE [(KStr "net_id", PStr "n1"); (KStr "name", PStr "GND")].
(** Another command under the same idempotency key. *)
Definition other_net_command : DesignCommand.t := Eval vm_compute in
  kernel_command "cmd-3" "key-1" CommandKind.NET_CREATE [(KStr "net_id", PStr "n2"); (KStr "name", PStr "VCC")].
Definition component_command : DesignCommand.t := Eval vm_compute in
  kernel_command "cmd-2" "key-2" CommandKind.COMPONENT_ADD
    [(KStr "component_id", PStr "u1"); (KStr "reference", PStr "U1"); (KStr "value", PStr "chip");
     (KStr "manufacturer_part_number", PStr "M1"); (KStr "package", PStr "P"); (KStr "symbol_id", PStr "s");
     (KStr "footprint_id", PStr "f"); (KStr "datasheet_sha256", PStr kernel_report);
     (KStr "pin_map_sha256", PStr kernel_report);
     (KStr "pins", PSeq [PMap [(KStr "number", PStr "1"); (KStr "name", PStr "VCC");
       (KStr "electrical_type", PStr "power_in"); (KStr "pad_number", PStr "1")]])].

(** ** The calls *)

Definition staged_calls : list call :=
  [Begin "tx-1" genesis_hash; Stage net_command; Stage component_command;
   RecordVerification "tx-1" kernel_report true None].
Definition staged_world : world := Eval vm_compute in run staged_calls kernel_world.

Definition no_transaction : DesignTransaction.t :=
  DesignTransaction.mk "" "" kernel_graph [] TransactionState.OPEN None false "" None None.
Definition kernel_transaction (w : world) : DesignTransaction.t :=
  default no_transaction (Kernel.transactions (kernel w) !! "tx-1").
Definition kernel_subject : commit_subject := Eval vm_compute in
  let t := kernel_transaction staged_world in
  CommitSubject "demo" genesis_hash genesis_hash "tx-1" (value_or [] (transaction_command_hashes t))
    (DesignTransaction.preview_digest t) (value_or "" (graph_hash (DesignTransaction.staged_graph t))).
Definition kernel_approval : ReleaseApproval.t := Eval vm_compute in
  let preview := DesignTransaction.preview_digest (kernel_transaction staged_world) in
  ReleaseApproval.mk "ap-1" "run-1" "release" (value_or "" (release_subject genesis_hash preview (Some kernel_report)))
    kernel_report "user:owner" (kernel_clock 0) None kernel_report preview true.

Definition kernel_nonce : string := kernel_report.
Definition approved_calls : list call :=
  staged_calls ++ [RegisterApproval kernel_approval (kernel_clock 0);
                   Issue kernel_subject "ap-1" 30000000 kernel_nonce (kernel_clock 0)].
Definition approved_world : world := Eval vm_compute in run approved_calls kernel_world.

Definition no_authorization : Authorization.t :=
  Authorization.mk "" 0 "" "" "" "" "" "" [] "" "" "" "" "" false "" "" "" "" "" "" (kernel_clock 0) None (kernel_clock 0)
    (kernel_clock 0) "" "" "".
Definition kernel_authorization : Authorization.t := Eval vm_compute in
  value_or no_authorization (authorize (authority approved_world) kernel_subject kernel_approval 30000000 kernel_nonce
    (kernel_clock 0)).
Definition kernel_commit : call := Commit "tx-1" kernel_authorization (kernel_clock 1) (kernel_clock 1).
Definition committed_calls : list call := approved_calls ++ [kernel_commit].
Definition committed_world : world := Eval vm_compute in run committed_calls kernel_world.

Definition no_revision : DesignRevision.t := DesignRevision.mk "" None 0 kernel_graph "" [] None None.
Definition kernel_revision : DesignRevision.t := Eval vm_compute in
  value_or no_revision (head_revision (kernel committed_world)).
Lemma kernel_commits : commit "tx-1" kernel_authorization (kernel_clock 1) (kernel_clock 1) approved_world = (committed_world, Ok kernel_revision).
Proof. vm_compute. reflexivity. Qed.

(** The approval is registered and the capability is not yet issued. *)
Definition registered_calls : list call := staged_calls ++ [RegisterApproval kernel_approval (kernel_clock 0)].
Definition registered_world : world := Eval vm_compute in run registered_calls kernel_world.
Lemma registered_run : run registered_calls kernel_world = registered_world.
Proof. vm_compute. reflexivity. Qed.
Lemma kernel_issues :
  on_authority (issue kernel_subject "ap-1" 30000000 kernel_nonce (kernel_clock 0)) registered_world =
    (approved_world, Ok kernel_authorization).
Proof. vm_compute. reflexivity. Qed.
Definition genesis_revision : DesignRevision.t := Eval vm_compute in
  value_or no_revision (head_revision (kernel kernel_world)).

Lemma staged_run : run staged_calls kernel_world = staged_world.
Proof. vm_compute. reflexivity. Qed.
Lemma approved_run : run approved_calls kernel_world = approved_world.
Proof. vm_compute. reflexivity. Qed.
Lemma committed_run : run committed_calls kernel_world = committed_world.
Proof. vm_compute. reflexivity. Qed.
Lemma committed_differs : kernel committed_world <> kernel approved_world.
Proof. intros H. apply (f_equal (fun k => String.eqb (Kernel.head k) genesis_hash)) in H. vm_compute in H. discriminate. Qed.

(** The retry of the commit. *)
Definition retried_world : world := Eval vm_compute in
  (commit "tx-1" kernel_authorization (kernel_clock 2) (kernel_clock 2) committed_world).1.
Lemma kernel_retries :
  commit "tx-1" kernel_authorization (kernel_clock 2) (kernel_clock 2) committed_world = (retried_world, Ok kernel_revision).
Proof. vm_compute. reflexivity. Qed.

(** The commit under a capability that has expired. *)
Definition late_commit : call := Commit "tx-1" kernel_authorization (kernel_clock 60) (kernel_clock 60).
Definition late_world : world := Eval vm_compute in (perform late_commit approved_world).1.
Definition late_error : exn := Eval vm_compute in
  match (perform late_commit approved_world).2 with Err e => e | Ok _ => invariant_err "" end.
Lemma late_commit_fails : perform late_commit approved_world = (late_world, Err late_error).
Proof. vm_compute. reflexivity. Qed.

(** ** A graph with geometry *)

Definition kernel_pad (id : string) (x : Z) (is_locked : bool) : FootprintPad.t :=
  FootprintPad.mk id "u1" "1" (PointNm.mk x 1000000) 500000 500000 "circle" 0 ["F.Cu"] 0 None is_locked 0 0 0 None.
(** A component whose pin has two physical pads; the first one is locked. *)
Definition shadowed_graph : DesignGraph.t :=
  DesignGraph.mk 1 "demo" ["B.Cu"; "F.Cu"]
    [PointNm.mk 0 0; PointNm.mk 0 5000000; PointNm.mk 5000000 5000000; PointNm.mk 5000000 0]
    [KernelModel.Component.mk "u1" "U1" "chip" "M1" "P" "s" "f" kernel_report kernel_report
       [PinDefinition.mk "1" "VCC" "power_in" "1" false]]
    [] [FootprintPlacement.mk "u1" (PointNm.mk 2000000 1000000) 0 "front" false] []
    [kernel_pad "p1" 1000000 true; kernel_pad "p2" 3000000 false] [] [] [] [] [].
(** The same graph, with its layers and its pads in the other order. *)
Definition reordered_graph : DesignGraph.t :=
  (shadowed_graph <| DesignGraph.layers := ["F.Cu"; "B.Cu"] |>)
    <| DesignGraph.pads := [kernel_pad "p2" 3000000 false; kernel_pad "p1" 1000000 true] |>.
