(* ===== verification/KernelLedger.v ===== *)
(** * The ledger of capabilities

    What every run keeps of the authority and of its kernel: the registry
    holds approvals of the required principal only, a committed transaction
    has the capability that committed it, and a nonce commits once. *)
From S2P Require Import Prelude PyDict PyStr Sha256 Json DateTime Models Canonical CanonicalFacts Effect KernelText.
From S2P Require Import KernelModel KernelGraph KernelCommand KernelLaws CommitAuthority Kernel AuthorityFacts.
From S2P Require Import KernelSteps KernelInv KernelRuns.

Local Open Scope string_scope.

(** ** What an edit keeps *)

Record same_history (k k' : Kernel.t) : Prop := {
  sh_revisions : Kernel.revisions k' = Kernel.revisions k;
  sh_head : Kernel.head k' = Kernel.head k;
  sh_authorizations : Kernel.committed_authorizations k' = Kernel.committed_authorizations k;
  sh_evidence : Kernel.committed_authorization_evidence k' = Kernel.committed_authorization_evidence k;
  sh_committed : forall id t, DesignTransaction.state t = TransactionState.COMMITTED ->
    Kernel.transactions k' !! id = Some t <-> Kernel.transactions k !! id = Some t;
}.

#[export] Instance same_history_preorder : PreOrder same_history.
Proof.
  split; [by split|]. intros k1 k2 k3 [A1 A2 A3 A4 A5] [B1 B2 B3 B4 B5]. split; try congruence.
  intros id t Hs. by rewrite B5, A5.
Qed.

(** A transaction that is not committed is replaced by one that is not. *)
Lemma replaced_committed (m : gmap string DesignTransaction.t) id t :
  DesignTransaction.state t <> TransactionState.COMMITTED ->
  (forall old, m !! id = Some old -> DesignTransaction.state old <> TransactionState.COMMITTED) ->
  forall id' t', DesignTransaction.state t' = TransactionState.COMMITTED -> <[id := t]> m !! id' = Some t' <-> m !! id' = Some t'.
Proof.
  intros Ht Hold id' t' Hs. rewrite lookup_insert_Some. split.
  - by intros [[-> ->]|[_ ?]].
  - intros H. right. split; [|done]. intros <-. by eapply Hold.
Qed.

Lemma edit_history k k' : edit k k' -> same_history k k'.
Proof.
  intros Hs. destruct Hs as [id r digest t Hid Hr Hn Hd|t c graph digest hash t' Ht Hs Hi Hb Hkey Hcmd Hrep Hne Hh Hn Hd
    |t report passed t' Ht Hs Hn|t t' Ht Hs Hn]; (split; [done..|]); cbn; apply replaced_committed.
  - done.
  - intros old Ho. change (DesignTransaction.transaction_id t) with id in Ho. congruence.
  - change (DesignTransaction.state t') with (DesignTransaction.state t). by rewrite Hs.
  - intros old Ho. unfold present in Ht. rewrite Hi, Ht in Ho. injection Ho as <-. by rewrite Hs.
  - by destruct passed.
  - intros old Ho. unfold present in Ht. change (DesignTransaction.transaction_id t') with (DesignTransaction.transaction_id t) in Ho.
    rewrite Ht in Ho. injection Ho as <-. by rewrite Hs.
  - done.
  - intros old Ho. unfold present in Ht. change (DesignTransaction.transaction_id t') with (DesignTransaction.transaction_id t) in Ho.
    rewrite Ht in Ho. injection Ho as <-. by destruct Hs as [-> | ->].
Qed.

Lemma edits_history k k' : rtc edit k k' -> same_history k k'.
Proof. induction 1; [done|]. etransitivity; [by apply edit_history|done]. Qed.

Lemma edit_kept k k' : edit k k' -> well_kept k -> well_kept k'.
Proof.
  intros Hs Hk id t. destruct Hs; cbn; (intros [[<- <-]|[_ ?]]%lookup_insert_Some; [split; done|by apply Hk]).
Qed.
Lemma edits_kept k k' : rtc edit k k' -> well_kept k -> well_kept k'.
Proof. induction 1; eauto using edit_kept. Qed.
Lemma publish_kept k k' : publish k k' -> well_kept k -> well_kept k'.
Proof. intros Hs Hk id t. destruct Hs; cbn; (intros [[<- <-]|[_ ?]]%lookup_insert_Some; [by split|by apply Hk]). Qed.

Lemma world_step_kept w w' : world_step w w' -> well_kept (kernel w) -> well_kept (kernel w').
Proof.
  intros Hs Hk. destruct Hs; try match goal with H : kernel _ = kernel w |- _ => by rewrite H end;
    [by eapply edits_kept|by eapply publish_kept].
Qed.

(** ** The invariant *)

Record ledger_inv (w : world) : Prop := {
  li_approval : forall id ap, AuthorityState.approvals (authority w) !! id = Some ap ->
    ReleaseApproval.approval_id ap = id /\ id ∈ AuthorityState.approval_ids_seen (authority w) /\
    ReleaseApproval.principal ap = AuthorityState.required_release_principal (authority w) /\ ReleaseApproval.new ap = Ok ap;
  li_evidence : forall id ev, Kernel.committed_authorization_evidence (kernel w) !! id = Some ev ->
    let a := ConsumedAuthorization.claims ev in
    Authorization.transaction_id a = id /\
    Authorization.human_approval_principal a = AuthorityState.required_release_principal (authority w) /\
    AuthorityState.consumed (authority w) !! Authorization.nonce a = Some (Authorization.authorization_digest a) /\
    Authorization.digest_of a = Ok (Authorization.authorization_digest a) /\
    exists t, Kernel.transactions (kernel w) !! id = Some t /\ DesignTransaction.state t = TransactionState.COMMITTED /\ binds t a;
  li_committed : forall id t, Kernel.transactions (kernel w) !! id = Some t ->
    DesignTransaction.state t = TransactionState.COMMITTED ->
    is_Some (Kernel.committed_authorization_evidence (kernel w) !! id);
  li_authorization : forall id, Kernel.committed_authorizations (kernel w) !! id =
    (fun ev => Authorization.authorization_digest (ConsumedAuthorization.claims ev)) <$>
      Kernel.committed_authorization_evidence (kernel w) !! id;
  li_once : forall id1 id2 ev1 ev2, Kernel.committed_authorization_evidence (kernel w) !! id1 = Some ev1 ->
    Kernel.committed_authorization_evidence (kernel w) !! id2 = Some ev2 ->
    Authorization.nonce (ConsumedAuthorization.claims ev1) = Authorization.nonce (ConsumedAuthorization.claims ev2) -> id1 = id2;
}.

Lemma started_kept g w : started g w -> well_kept (kernel w).
Proof. intros [[v H] _]. by eapply kernel_inv_kept, init_inv. Qed.

Lemma authority_new_Ok key secret principal token s :
  AuthorityState.new key secret principal token = Ok s ->
  s = AuthorityState.mk key secret principal ∅ ∅ ∅ ∅ None false token.
Proof. unfold AuthorityState.new. intros H. do 3 apply seq_Ok in H as [_ H]. by apply Ok_inj in H. Qed.

Lemma started_ledger g w : started g w -> ledger_inv w.
Proof.
  intros [[v (graph & r & _ & _ & _ & _ & _ & Ek)%init_Ok] (key & secret & principal & token & Ea%authority_new_Ok)].
  split; rewrite ?Ek, ?Ea; cbn.
  - by intros id ap ?%lookup_empty_Some.
  - by intros id ev ?%lookup_empty_Some.
  - by intros id t ?%lookup_empty_Some.
  - intros id. by rewrite !lookup_empty.
  - by intros id1 id2 ev1 ev2 ?%lookup_empty_Some.
Qed.

(** The authority goes on, with the kernel's history. *)
Lemma ledger_keeps w w' :
  ledger_inv w -> same_history (kernel w) (kernel w') ->
  AuthorityState.required_release_principal (authority w') = AuthorityState.required_release_principal (authority w) ->
  (forall n d, AuthorityState.consumed (authority w) !! n = Some d -> AuthorityState.consumed (authority w') !! n = Some d) ->
  (forall id ap, AuthorityState.approvals (authority w') !! id = Some ap ->
    ReleaseApproval.approval_id ap = id /\ id ∈ AuthorityState.approval_ids_seen (authority w') /\
    ReleaseApproval.principal ap = AuthorityState.required_release_principal (authority w') /\ ReleaseApproval.new ap = Ok ap) ->
  ledger_inv w'.
Proof.
  intros [L1 L2 L3 L4 L5] [_ _ E1 E2 E3] Ep Hc Ha. split; [done|..]; rewrite ?E1, ?E2; try done.
  - intros id ev Hev. destruct (L2 id ev Hev) as (H1 & H2 & H3 & H4 & t & Ht & Hs & Hb).
    split_and!; [done|by rewrite Ep|by apply Hc|done|]. exists t. by rewrite E3.
  - intros id t Ht Hs. apply E3 in Ht; [|done]. by eapply L3.
Qed.

Lemma observed_same s s' : observed s s' ->
  AuthorityState.approvals s' = AuthorityState.approvals s /\ AuthorityState.consumed s' = AuthorityState.consumed s /\
  AuthorityState.approval_ids_seen s' = AuthorityState.approval_ids_seen s /\
  AuthorityState.required_release_principal s' = AuthorityState.required_release_principal s /\
  AuthorityState.issued s' = AuthorityState.issued s.
Proof. by intros [-> _]. Qed.

Lemma committed_binds t h a : binds (committed t h) a <-> binds t a.
Proof. split; intros []; by split. Qed.

Lemma world_step_ledger w w' : well_kept (kernel w) -> ledger_inv w -> world_step w w' -> ledger_inv w'.
Proof.
  intros Hk Hl Hs. destruct Hs as [w' Ek Ho|w' Ek Ea|w' t now ap rev s a Ht Hst Ek Hp [Htr Hb] Ho _ _ Hfree Ea|w' ap now Ek Ho Ea Hn Hseen Hpr
    |w' id now Ek Ho Ea|w' subject id lifetime nonce ap a now Ek Ho Hap Hau Hex Ea|w' a ap now Ek Ho Htr Hfree Ea].
  - destruct (observed_same _ _ Ho) as (E1 & E2 & E3 & E4 & E5).
    apply (ledger_keeps w); [done|by rewrite Ek|done|by rewrite E2|]. rewrite E1, E3, E4. apply Hl.
  - apply (ledger_keeps w); [done|by apply edits_history|by rewrite Ea|by rewrite Ea|]. rewrite Ea. apply Hl.
  - destruct (observed_same _ _ Ho) as (E1 & E2 & E3 & E4 & E5). destruct (Hk _ _ Ht) as [_ Htn].
    assert (Authorization.human_approval_principal a = AuthorityState.required_release_principal (authority w)) as Hpr.
    { rewrite (rep_principal _ _ _ (tr_repeats _ _ _ _ Htr)). by apply (li_approval w Hl _ _ (tr_approval _ _ _ _ Htr)). }
    destruct Hl as [L1 L2 L3 L4 L5]. split; rewrite ?Ek, ?Ea; cbn.
    + rewrite E1, E3, E4. exact L1.
    + intros id ev [[<- <-]|[Hne Hev]]%lookup_insert_Some; cbn.
      * split_and!; [by apply bd_transaction in Hb|by rewrite E4|apply lookup_insert_eq|by eapply tr_digest|].
        eexists. split; [apply lookup_insert_eq|]. split; [done|by apply committed_binds].
      * destruct (L2 id ev Hev) as (H1 & H2 & H3 & H4 & t0 & Ht0 & Hs0 & Hb0). split_and!; [done|by rewrite E4| |done|].
        -- rewrite lookup_insert_ne; [by rewrite E2|]. intros E. congruence.
        -- exists t0. by rewrite lookup_insert_ne.
    + intros id t0 [[<- <-]|[Hne Ht0]]%lookup_insert_Some Hs0; [rewrite lookup_insert_eq; by eexists|].
      rewrite lookup_insert_ne by done. by eapply L3.
    + intros id. destruct (decide (id = DesignTransaction.transaction_id t)) as [->|Hne].
      * by rewrite !lookup_insert_eq.
      * rewrite !lookup_insert_ne by done. apply L4.
    + assert (forall id ev, Kernel.committed_authorization_evidence (kernel w) !! id = Some ev ->
        Authorization.nonce (ConsumedAuthorization.claims ev) <> Authorization.nonce a) as Hnew.
      { intros id ev Hev E. destruct (L2 id ev Hev) as (_ & _ & H3 & _). congruence. }
      intros id1 id2 ev1 ev2 [[<- <-]|[_ H1]]%lookup_insert_Some [[<- <-]|[_ H2]]%lookup_insert_Some E; cbn in *; [done|..].
      * exfalso. by eapply Hnew.
      * exfalso. by eapply Hnew.
      * by eapply L5.
  - apply (ledger_keeps w); [done|by rewrite Ek|by rewrite Ea|by rewrite Ea|]. rewrite Ea. cbn.
    intros id ap' [[<- <-]|[Hne Hap]]%lookup_insert_Some; [split_and!; [done|set_solver|done..]|].
    destruct (li_approval w Hl id ap' Hap) as (H1 & H2 & H3 & H4). split_and!; [done|set_solver|done..].
  - apply (ledger_keeps w); [done|by rewrite Ek|by rewrite Ea|by rewrite Ea|]. rewrite Ea. cbn.
    intros id' ap' [Hne Hap]%lookup_delete_Some.
    destruct (li_approval w Hl id' ap' Hap) as (H1 & H2 & H3 & H4). split_and!; [done|set_solver|done..].
  - apply (ledger_keeps w); [done|by rewrite Ek|by rewrite Ea|by rewrite Ea|]. rewrite Ea. cbn. apply Hl.
  - apply (ledger_keeps w); [done|by rewrite Ek|by rewrite Ea| |rewrite Ea; cbn; apply Hl].
    intros n d Hn. rewrite Ea. cbn. rewrite lookup_insert_ne; [done|]. intros E. congruence.
Qed.

(** ** Runs *)

Section runs.
Context (g : DesignGraph.t) (w0 : world) (Hstart : started g w0).

Lemma run_kept calls : well_kept (kernel (run calls w0)).
Proof.
  induction calls as [|c calls IH] using rev_ind; [by eapply started_kept|]. rewrite run_snoc.
  destruct (perform c (run calls w0)) as [w' r] eqn:E. by eapply world_step_kept; [apply (perform_step _ _ _ _ IH E)|].
Qed.

Lemma run_step calls c : world_step (run calls w0) (run (calls ++ [c]) w0).
Proof.
  rewrite run_snoc. destruct (perform c (run calls w0)) as [w' r] eqn:E.
  by apply (perform_step _ _ _ _ (run_kept calls) E).
Qed.

Lemma run_ledger calls : ledger_inv (run calls w0).
Proof.
  induction calls as [|c calls IH] using rev_ind; [by eapply started_ledger|].
  eapply world_step_ledger; [apply run_kept|exact IH|apply run_step].
Qed.

(** Two different revisions of the run share a hash. *)
Definition run_collides (calls : list call) : Prop :=
  exists before c after, calls = (before ++ c :: after)%list /\
    collides (kernel (run before w0)) (kernel (run (before ++ [c]) w0)).

Lemma world_step_inv w w' : kernel_inv (kernel w) -> world_step w w' ->
  kernel_inv (kernel w') /\ Kernel.revisions (kernel w) ⊆ Kernel.revisions (kernel w') \/ collides (kernel w) (kernel w').
Proof.
  intros Hk Hs. destruct Hs as [w' Ek|w' Ek| |w' ? ? Ek|w' ? ? Ek|w' ? ? ? ? ? ? ? Ek|w' ? ? ? Ek];
    try (left; by rewrite Ek); [left|by apply publish_inv].
  split; [by eapply edits_inv|]. by rewrite (sh_revisions _ _ (edits_history _ _ Ek)).
Qed.

Lemma run_collides_snoc calls c : run_collides calls -> run_collides (calls ++ [c]).
Proof.
  intros (before & c' & after & -> & Hc). exists before, c', (after ++ [c])%list. split; [|done]. by rewrite <- app_assoc.
Qed.

Lemma run_inv calls : kernel_inv (kernel (run calls w0)) \/ run_collides calls.
Proof.
  induction calls as [|c calls IH] using rev_ind.
  - left. destruct Hstart as [[v H] _]. by eapply init_inv.
  - destruct IH as [IH|IH]; [|right; by apply run_collides_snoc].
    destruct (world_step_inv _ _ IH (run_step calls c)) as [[H _]|H]; [by left|]. right. by exists calls, c, [].
Qed.

(** What is published stays. *)
Lemma run_grows calls calls' :
  kernel_inv (kernel (run (calls ++ calls') w0)) /\
    Kernel.revisions (kernel (run calls w0)) ⊆ Kernel.revisions (kernel (run (calls ++ calls') w0)) \/
  run_collides (calls ++ calls').
Proof.
  induction calls' as [|c calls' IH] using rev_ind.
  - rewrite app_nil_r. destruct (run_inv calls); auto.
  - rewrite app_assoc. destruct IH as [[IH Hsub]|IH]; [|right; by apply run_collides_snoc].
    destruct (world_step_inv _ _ IH (run_step (calls ++ calls') c)) as [[H Hsub']|H].
    + left. split; [done|]. by etransitivity.
    + right. by exists (calls ++ calls')%list, c, [].
Qed.

(** The genesis revision holds the graph that the kernel was made with. *)
Lemma run_genesis calls :
  (exists graph r, DesignGraph.normalized g = Ok graph /\ DesignRevision.graph r = graph /\
    DesignRevision.parent_revision r = None /\ DesignRevision.sequence r = 0%Z /\
    Kernel.revisions (kernel (run calls w0)) !! DesignRevision.revision_hash r = Some r) \/ run_collides calls.
Proof.
  destruct (run_grows [] calls) as [[_ Hsub]|H]; [left|by right]. destruct Hstart as [[v Hi] _].
  destruct (init_Ok _ _ _ Hi) as (graph & r & Hg & _ & _ & Er & _ & Ek). exists graph, r.
  assert (Kernel.revisions (kernel w0) !! DesignRevision.revision_hash r = Some r) as Hr.
  { rewrite Ek. apply lookup_singleton_eq. }
  split_and!; [done|by rewrite Er|by rewrite Er|by rewrite Er|by eapply lookup_weaken].
Qed.

(** ** The line of commits *)

(** The transactions that lead from the genesis revision to a revision. *)
Inductive history (k : Kernel.t) : DesignRevision.t -> DesignRevision.t -> list DesignTransaction.t -> Prop :=
  | history_nil r : Kernel.revisions k !! DesignRevision.revision_hash r = Some r -> history k r r []
  | history_snoc first p t r ts : history k first p ts -> present k t -> commit_of p t r ->
      Kernel.revisions k !! DesignRevision.revision_hash r = Some r -> history k first r (ts ++ [t]).

Lemma history_exists k h r first :
  kernel_inv k -> Kernel.revisions k !! h = Some r ->
  Kernel.revisions k !! DesignRevision.revision_hash first = Some first -> DesignRevision.sequence first = 0%Z ->
  exists ts, history k first r ts /\ DesignRevision.sequence r = Z.of_nat (length ts).
Proof.
  intros Hk Hr Hf Hs0. remember (Z.to_nat (DesignRevision.sequence r)) as n eqn:En. revert h r Hr En.
  induction n as [|n IH]; intros h r Hr En; pose proof (ki_hash k Hk _ _ Hr) as Eh;
    destruct (ki_revision k Hk _ _ Hr) as [Hn _ _ Hg Hc].
  - assert (0 <= DesignRevision.sequence r)%Z as Hpos.
    { unfold DesignRevision.new in Hn. do 2 apply seq_Ok in Hn as [_ Hn]. apply seq_Ok in Hn as [H%raise_if_Ok _]. lia. }
    exists []. assert (r = first) as ->; [|split; [by constructor|simpl; lia]].
    eapply (ki_line k Hk); [exact Hr|exact Hf|lia].
  - destruct (DesignRevision.parent_revision r) as [hp|] eqn:Ep; [|specialize (Hg eq_refl); lia].
    destruct (Hc hp eq_refl) as (p & t & Hp & Ht & Hco). pose proof (co_sequence _ _ _ Hco) as Hseq.
    destruct (IH hp p Hp) as (ts & Hh & Hl); [lia|]. exists (ts ++ [t])%list. split.
    + eapply history_snoc; [done..|]. by rewrite Eh.
    + rewrite length_app. simpl. lia.
Qed.

Lemma replay_app graph cs1 cs2 : replay graph (cs1 ++ cs2) = (let* mid := replay graph cs1 in replay mid cs2).
Proof.
  unfold replay. revert graph. induction cs1 as [|c cs1 IH]; intros graph; [done|].
  cbn [foldM app]. destruct (replay_command graph c); [apply IH|done].
Qed.

Lemma history_replay k first r ts :
  history k first r ts ->
  replay (DesignRevision.graph first) (concat (DesignTransaction.commands <$> ts)) = Ok (DesignRevision.graph r).
Proof.
  induction 1 as [r _|first p t r ts _ IH _ Hco _]; [done|].
  rewrite fmap_app, concat_app, replay_app, IH. cbn [bind fmap list_fmap concat]. rewrite app_nil_r. apply Hco.
Qed.
End runs.
