(* ===== verification/KernelSafety.v ===== *)
(** * What a run of the kernel guarantees

    Theorems on every sequence of calls, whether they raise or not: the
    history is the replay of the committed commands, a published revision
    stays, what raises changes nothing, and a commit was approved by the
    required principal, with a capability that was issued for it and that
    commits nothing else; a batch is its commands one by one, or none. *)
From S2P Require Import Prelude PyDict PyStr Sha256 Json DateTime Models Canonical CanonicalFacts Effect KernelText.
From S2P Require Import KernelModel KernelGraph KernelCommand KernelLaws CommitAuthority Kernel AuthorityFacts.
From S2P Require Import KernelSteps KernelInv KernelRuns KernelLedger.

Local Open Scope string_scope.

(** ** Lemmas on runs *)

Definition same_secret (s s' : AuthorityState.t) : Prop :=
  AuthorityState.secret s' = AuthorityState.secret s /\ AuthorityState.key_id s' = AuthorityState.key_id s /\
  AuthorityState.required_release_principal s' = AuthorityState.required_release_principal s.

Lemma observed_secret s s' : observed s s' -> same_secret s s'.
Proof. by intros [-> _]. Qed.

Lemma world_step_secret w w' : world_step w w' -> same_secret (authority w) (authority w').
Proof.
  intros [? ? ?%observed_secret|? ? ->|? ? ? ? ? s ? ? ? ? ? ? Ho ? ? ? ->|? ? ? ? ? -> | ? ? ? ? ? -> | ? ? ? ? ? ? ? ? ? ? ? ? ? -> |
    ? ? ? ? ? ? ? ? ->]; try done. by apply observed_secret in Ho as (? & ? & ?).
Qed.

(** A capability that was consumed stays so. *)
Lemma world_step_consumed w w' n d :
  world_step w w' -> AuthorityState.consumed (authority w) !! n = Some d -> AuthorityState.consumed (authority w') !! n = Some d.
Proof.
  intros [? ? Ho|? ? ->|? ? ? ? ? s ? ? ? ? ? ? Ho ? ? Hfree ->|? ? ? ? ? -> | ? ? ? ? ? -> | ? ? ? ? ? ? ? ? ? ? ? ? ? -> |
    ? ? ? ? ? ? ? Hfree ->] Hn; cbn; try done.
  - by rewrite (proj1 (proj2 (observed_same _ _ Ho))).
  - rewrite lookup_insert_ne by congruence. by rewrite (proj1 (proj2 (observed_same _ _ Ho))).
  - by rewrite lookup_insert_ne by congruence.
Qed.

(** An identifier that was seen stays seen, and is not registered again. *)
Lemma world_step_revoked w w' id :
  world_step w w' -> id ∈ AuthorityState.approval_ids_seen (authority w) -> AuthorityState.approvals (authority w) !! id = None ->
  id ∈ AuthorityState.approval_ids_seen (authority w') /\ AuthorityState.approvals (authority w') !! id = None.
Proof.
  intros [? ? Ho|? ? ->|? ? ? ? ? s ? ? ? ? ? ? Ho ? ? Hfree ->|? ap ? ? ? -> ? Hseen| ? ? ? ? ? -> | ? ? ? ? ? ? ? ? ? ? ? ? ? -> |
    ? ? ? ? ? ? ? Hfree ->] Hn Hno; cbn; try done.
  - destruct (observed_same _ _ Ho) as (-> & _ & -> & _). done.
  - destruct (observed_same _ _ Ho) as (-> & _ & -> & _). done.
  - split; [set_solver|]. rewrite lookup_insert_ne; [done|]. intros <-. done.
  - split; [set_solver|]. destruct (decide (id0 = id)) as [->|Hne]; [apply lookup_delete_eq|by rewrite lookup_delete_ne].
Qed.

(** ** Where the capabilities come from *)

Lemma perform_issued c w :
  well_kept (kernel w) ->
  AuthorityState.issued (authority (perform c w).1) = AuthorityState.issued (authority w) \/
  exists subject id lifetime nonce clock a, c = Issue subject id lifetime nonce clock /\
    (issue subject id lifetime nonce clock (authority w)).2 = Ok a /\ sealed (AuthorityState.secret (authority w)) a /\
    exists ap, AuthorityState.approvals (authority w) !! id = Some ap /\
      AuthorityState.issued (authority (perform c w).1) =
        <[Authorization.authorization_digest a := ap]> (AuthorityState.issued (authority w)).
Proof.
  intros Hk. destruct (perform c w) as [w' r] eqn:H. cbn [fst].
  assert (forall s', observed (authority w) s' -> AuthorityState.issued s' = AuthorityState.issued (authority w)) as Ho.
  { intros s' Ho. by destruct (observed_same _ _ Ho) as (_ & _ & _ & _ & ->). }
  destruct c; cbn [perform] in H; try (apply run_void in H as (r0 & H & Hr));
    try (apply run_on_kernel in H as (k' & H & Ek & Ea)); try (apply run_on_authority in H as (s' & H & Ea & Ek));
    try (left; by rewrite Ea).
  - left. destruct (commit_effect _ _ _ _ _ _ _ Hk H) as [[_ [_ E]]|[(? & ? & ? & ? & _ & _ & E & _)
      |(? & ? & ? & ? & s' & _ & _ & _ & _ & _ & _ & _ & E & _ & _ & -> & _)]]; exact (Ho _ E).
  - left. rewrite Ea. destruct (register_effect _ _ _ _ _ H) as [[_ E]|(now & _ & _ & -> & _)]; [by apply Ho|done].
  - left. rewrite Ea. destruct (revoke_effect _ _ _ _ _ H) as [[_ E]|(now & _ & _ & ->)]; [by apply Ho|done].
  - rewrite Ea. destruct (issue_effect _ _ _ _ _ _ _ _ H) as [[_ E]|(now & ap & a & _ & -> & _ & Hap & _ & Hau & _ & ->)];
      [left; by apply Ho|right]. exists subject, approval_id, lifetime, nonce, clock, a. rewrite H.
    split_and!; [done|done|by eapply authorize_sealed|]. by exists ap.
  - left. rewrite Ea. destruct (verify_effect _ _ _ _ _ H) as [E _]. by apply Ho.
  - left. rewrite Ea. destruct (consume_effect _ _ _ _ _ H) as [[_ E]|(now & ap & _ & _ & _ & _ & -> & _)]; [by apply Ho|done].
Qed.

(** A call of the run issued a capability. *)
Definition issued_in (calls : list call) (w0 : world) (a : Authorization.t) : Prop :=
  exists before after subject id lifetime nonce clock, calls = (before ++ Issue subject id lifetime nonce clock :: after)%list /\
    (issue subject id lifetime nonce clock (authority (run before w0))).2 = Ok a.

Lemma issued_in_snoc calls w0 a c : issued_in calls w0 a -> issued_in (calls ++ [c]) w0 a.
Proof.
  intros (before & after & subject & id & lifetime & nonce & clock & -> & H).
  exists before, (after ++ [c])%list, subject, id, lifetime, nonce, clock. split; [|done]. by rewrite <- app_assoc.
Qed.

Section runs.
Context (g : DesignGraph.t) (w0 : world) (Hstart : started g w0).

Lemma run_secret calls : same_secret (authority w0) (authority (run calls w0)).
Proof.
  induction calls as [|c calls IH] using rev_ind; [done|].
  destruct (world_step_secret _ _ (run_step g w0 Hstart calls c)) as (E1 & E2 & E3). destruct IH as (I1 & I2 & I3). split_and!; congruence.
Qed.

Lemma run_issued calls d ap :
  AuthorityState.issued (authority (run calls w0)) !! d = Some ap ->
  exists a, Authorization.authorization_digest a = d /\ sealed (AuthorityState.secret (authority w0)) a /\ issued_in calls w0 a.
Proof.
  induction calls as [|c calls IH] using rev_ind; intros H.
  - destruct Hstart as [_ (key & secret & principal & token & E%authority_new_Ok)]. unfold run in H. cbn [foldl] in H.
    rewrite E in H. cbn in H. by rewrite lookup_empty in H.
  - rewrite run_snoc in H. destruct (perform_issued c (run calls w0) (run_kept g w0 Hstart calls))
      as [E|(subject & id & lifetime & nonce & clock & a & -> & Hi & Hs & ap' & _ & E)]; rewrite E in H.
    + destruct (IH H) as (a & Ed & Hs & Hin). exists a. split_and!; [done..|by apply issued_in_snoc].
    + apply lookup_insert_Some in H as [[<- <-]|[Hne H]].
      * exists a. split; [done|]. split; [by rewrite <- (proj1 (run_secret calls))|].
        exists calls, [], subject, id, lifetime, nonce, clock. done.
      * destruct (IH H) as (a' & Ed & Hs' & Hin). exists a'. split_and!; [done..|by apply issued_in_snoc].
Qed.

Lemma world_steps calls calls' :
  rtc world_step (run calls w0) (run (calls ++ calls') w0).
Proof.
  induction calls' as [|c calls' IH] using rev_ind; [by rewrite app_nil_r|].
  eapply rtc_r; [exact IH|]. rewrite app_assoc. by apply (run_step g).
Qed.
End runs.

Lemma world_step_committed w w' id t :
  ledger_inv w -> world_step w w' -> DesignTransaction.state t = TransactionState.COMMITTED ->
  Kernel.transactions (kernel w) !! id = Some t ->
  Kernel.transactions (kernel w') !! id = Some t /\
  Kernel.committed_authorization_evidence (kernel w') !! id = Kernel.committed_authorization_evidence (kernel w) !! id.
Proof.
  intros Hl [? -> _|? E%edits_history _|? t0 ? ? ? s a Ht0 Hs0 -> ? ? Ho ? ? Hfree _|? ? ? -> | ? ? ? -> | ? ? ? ? ? ? ? ? -> |
    ? ? ? ? ->] Hs Ht; try done.
  - destruct E as [_ _ _ -> E]. by rewrite E.
  - cbn. assert (DesignTransaction.transaction_id t0 <> id).
    { intros <-. unfold present in Ht0. rewrite Ht0 in Ht. congruence. } by rewrite !lookup_insert_ne by done.
Qed.

Lemma world_steps_consumed w w' n d :
  rtc world_step w w' -> AuthorityState.consumed (authority w) !! n = Some d -> AuthorityState.consumed (authority w') !! n = Some d.
Proof. induction 1; eauto using world_step_consumed. Qed.

Lemma world_steps_revoked w w' id :
  rtc world_step w w' -> id ∈ AuthorityState.approval_ids_seen (authority w) -> AuthorityState.approvals (authority w) !! id = None ->
  AuthorityState.approvals (authority w') !! id = None.
Proof.
  induction 1 as [|w w1 w' Hs _ IH]; [done|]. intros Hn Hno.
  destruct (world_step_revoked _ _ _ Hs Hn Hno). auto.
Qed.

(** ** The history *)

(** C3. The state of a kernel is the log of its commits: after any calls, the
    graph at the head is the initial graph, normalized, with the commands of
    the committed transactions replayed on it in the order of their commits,
    one revision per transaction - or two of its revisions are a collision of
    SHA-256. *)
Theorem head_is_replay_of_commits g w0 calls (Hstart : started g w0) :
  (exists graph r ts, let k := kernel (run calls w0) in
    DesignGraph.normalized g = Ok graph /\ head_revision k = Ok r /\
    DesignRevision.sequence r = Z.of_nat (length ts) /\
    Forall (fun t => present k t /\ DesignTransaction.state t = TransactionState.COMMITTED) ts /\
    replay graph (concat (DesignTransaction.commands <$> ts)) = Ok (DesignRevision.graph r)) \/
  run_collides w0 calls.
Proof.
  destruct (run_inv g w0 Hstart calls) as [Hk|H]; [|by right].
  destruct (run_genesis g w0 Hstart calls) as [(graph & first & Hg & Eg & _ & Hs & Hf)|H]; [left|by right].
  destruct (ki_head _ Hk) as [r Hr]. destruct (history_exists _ _ _ _ Hk Hr Hf Hs) as (ts & Hh & Hl).
  exists graph, r, ts. split_and!; [done|by apply head_revision_Ok|done| |].
  - clear -Hh. induction Hh as [|first p t r ts _ IH Ht Hc _]; [constructor|].
    apply Forall_app. split; [done|]. apply Forall_singleton. split; [done|]. by apply co_state in Hc.
  - rewrite <- Eg. by eapply history_replay.
Qed.

(** What is published stays: a revision that can be read once is read for
    good, and it is the same, whatever is called later - or the run has two
    revisions with one hash. *)
Theorem published_revisions_never_change g w0 calls calls' h r (Hstart : started g w0) :
  get_revision (kernel (run calls w0)) h = Ok r ->
  get_revision (kernel (run (calls ++ calls') w0)) h = Ok r \/ run_collides w0 (calls ++ calls').
Proof.
  intros Hr%get_revision_Ok. destruct (run_grows g w0 Hstart calls calls') as [[_ Hsub]|H]; [left|by right].
  apply get_revision_Ok. by eapply lookup_weaken.
Qed.

(** C12. What holds of a kernel after any calls: one line of valid, hash-linked
    revisions, each made by one committed transaction; transactions that stage
    the replay of their commands on their base and whose preview digest is the
    digest of just that; and indexes of commands and of idempotency keys that
    list the accepted commands and nothing else. *)
Theorem kernel_keeps_its_invariant g w0 calls (Hstart : started g w0) :
  kernel_inv (kernel (run calls w0)) \/ run_collides w0 calls.
Proof. by apply (run_inv g). Qed.

(** ** Failures *)

(** C18. A call that raises changes nothing: not the kernel, not the registry,
    not what was issued or consumed.  A commit that fails after the capability
    was verified does not consume it; one that consumed it does not fail. *)
Theorem failed_calls_change_nothing g w0 calls c (Hstart : started g w0) :
  let w := run calls w0 in
  forall w' e, perform c w = (w', Err e) ->
    kernel w' = kernel w /\
    authority w' = ((authority w) <| AuthorityState.last_observed_at := AuthorityState.last_observed_at (authority w') |>)
      <| AuthorityState.clock_poisoned := AuthorityState.clock_poisoned (authority w') |>.
Proof.
  intros w w' e H. destruct (perform_step _ _ _ _ (run_kept g w0 Hstart calls) H) as [_ He].
  destruct (He e eq_refl) as [Ek [Ea _]]. done.
Qed.

(** ** Approvals and capabilities *)

(** The capability and the approval behind it are in force at a moment. *)
Definition in_force (a : Authorization.t) (ap : ReleaseApproval.t) (now : datetime) : Prop :=
  (instant (Authorization.issued_at a) <= instant now < instant (Authorization.expires_at a))%Z /\
  forall e, ReleaseApproval.expires_at ap = Some e -> (instant now < instant e)%Z.

Lemma trusted_in_force s a now ap : trusted s a now ap -> in_force a ap now.
Proof. intros H. split; [by eapply tr_time|]. intros e He. by apply (rep_fresh _ _ _ (tr_repeats _ _ _ _ H)). Qed.

(** A commit that returns was authorized at the clock's readings. *)
Lemma commit_authorized id a clock clock' w w' r :
  well_kept (kernel w) -> commit id a clock clock' w = (w', Ok r) ->
  exists t now ap, Kernel.transactions (kernel w) !! id = Some t /\ reading clock now /\
    authorized (authority w) t a now ap /\
    (DesignTransaction.state t <> TransactionState.COMMITTED -> exists now', reading clock' now' /\ in_force a ap now').
Proof.
  intros Hk Hc. destruct (commit_effect _ _ _ _ _ _ _ Hk Hc) as [[[e ?] _]|[(t & now & ap & rev & _ & _ & _ & Ht & Hs & Ha & _ & _ & _ & _ & Hn)
    |(t & now' & ap & rev & s' & _ & Ht & _ & _ & _ & [Htr _] & _ & _ & _ & _ & _ & Hn' & now & Hn & Ha)]]; [done| |].
  - by exists t, now, ap.
  - exists t, now, ap. split_and!; [done..|]. intros _. exists now'. split; [done|by eapply trusted_in_force].
Qed.

(** C4. No commit without approval: when a commit returns, the required
    principal's approval is in the registry at that moment, it approves the
    report and the preview of this transaction, the capability binds the
    transaction, its commands, its graph and its base, and a call of this run
    issued it, field by field - or the capability and an issued one are a
    collision of SHA-256.  At the moment that the clock gives to the
    verification neither the capability nor the approval has expired, and
    unless the transaction was committed before, neither has at the moment that
    the clock gives to the consumption. *)
Theorem commits_are_approved g w0 calls id a clock clock' r (Hstart : started g w0) :
  let w := run calls w0 in
  let moment c := normalize_time c "commit authority current time" in
  (commit id a clock clock' w).2 = Ok r ->
  exists t now ap, Kernel.transactions (kernel w) !! id = Some t /\ binds t a /\
    AuthorityState.approvals (authority w) !! ReleaseApproval.approval_id ap = Some ap /\
    ReleaseApproval.principal ap = AuthorityState.required_release_principal (authority w0) /\
    ReleaseApproval.kind ap = "release" /\
    DesignTransaction.verification_report_hash t = Some (ReleaseApproval.verification_report_hash ap) /\
    ReleaseApproval.verified_preview_digest ap = Authorization.verified_preview_digest a /\
    moment clock = Ok now /\ in_force a ap now /\
    (DesignTransaction.state t <> TransactionState.COMMITTED ->
      exists now', moment clock' = Ok now' /\ in_force a ap now') /\
    (issued_in calls w0 a \/ exists a', issued_in calls w0 a' /\ payload_collision a a').
Proof.
  intros w moment. subst w. intros Hr. destruct (commit id a clock clock' (run calls w0)) as [w' r'] eqn:Hc. cbn in Hr. subst r'.
  pose proof (run_ledger g w0 Hstart calls) as Hl.
  destruct (commit_authorized _ _ _ _ _ _ _ (run_kept g w0 Hstart calls) Hc) as (t & now & ap & Ht & Hnow & [Htr Hb] & Hlater).
  exists t, now, ap. pose proof (tr_repeats _ _ _ _ Htr) as Hrep. pose proof (tr_approval _ _ _ _ Htr) as Hap.
  destruct (li_approval _ Hl _ _ Hap) as (_ & _ & Hpr & Hnew).
  split_and!; [done|done|done| | | |by symmetry; eapply rep_preview|done|by eapply trusted_in_force|done|].
  - rewrite Hpr. apply (run_secret g w0 Hstart).
  - unfold ReleaseApproval.new in Hnew. do 3 apply seq_Ok in Hnew as [_ Hnew].
    apply seq_Ok in Hnew as [H%raise_if_Ok%negb_false_iff%bool_decide_eq_true _]. done.
  - rewrite <- (rep_report _ _ _ Hrep). by eapply bd_report.
  - destruct (run_issued g w0 Hstart calls _ _ (tr_issued _ _ _ _ Htr)) as (a' & Ed & Hs & Hin).
    pose proof (tr_sealed _ _ _ _ Htr) as Hs'. rewrite (proj1 (run_secret g w0 Hstart calls)) in Hs'.
    destruct (sealed_alike _ _ _ Hs' Hs (eq_sym Ed)) as [->|E]; [by left|right; by exists a'].
Qed.

(** C10. A capability commits once.  After a commit published a revision, no
    capability with the same nonce commits another transaction: a later commit
    that returns is a retry of the same transaction, returns the same revision
    and leaves the kernel as it is - or SHA-256 has a collision between two
    revisions of the run, or between the capability and one that was consumed. *)
Theorem capability_commits_once g w0 calls calls' id1 id2 a1 a2 c1 c1' c2 c2' w2 w4 r1 r2 (Hstart : started g w0) :
  let first := Commit id1 a1 c1 c1' in
  let w1 := run calls w0 in
  let w3 := run ((calls ++ [first]) ++ calls') w0 in
  commit id1 a1 c1 c1' w1 = (w2, Ok r1) -> kernel w2 <> kernel w1 ->
  commit id2 a2 c2 c2' w3 = (w4, Ok r2) -> Authorization.nonce a2 = Authorization.nonce a1 ->
  (id2 = id1 /\ r2 = r1 /\ kernel w4 = kernel w3) \/ run_collides w0 ((calls ++ [first]) ++ calls') \/
  exists ev, Kernel.committed_authorization_evidence (kernel w3) !! id2 = Some ev /\
    payload_collision (ConsumedAuthorization.claims ev) a1.
Proof.
  intros first w1 w3 H1 Hne H2 Hn. subst w1 w3. pose proof (run_kept g w0 Hstart calls) as Hk1.
  assert (run (calls ++ [first]) w0 = w2) as Ew2.
  { rewrite run_snoc. unfold first. cbn [perform]. unfold void. by rewrite run_bind, H1. }
  destruct (commit_effect _ _ _ _ _ _ _ Hk1 H1) as [[[e ?] _]|[(t & now & ap & rev & _ & E & _)|
    (t & now & ap & rev & s & [= <-] & Ht & Hs & Ek & Hp & _ & _ & _ & _ & _ & Ea & _)]]; [done|done|].
  destruct (Hk1 _ _ Ht) as [Eid _].
  set (t' := committed t (DesignRevision.revision_hash r1)).
  assert (Kernel.transactions (kernel w2) !! id1 = Some t' /\
    Kernel.committed_authorization_evidence (kernel w2) !! id1 = Some (ConsumedAuthorization.mk a1 ap now)) as [Ht2 Hev2].
  { rewrite Ek. cbn. rewrite Eid, !lookup_insert_eq. done. }
  assert (AuthorityState.consumed (authority w2) !! Authorization.nonce a1 = Some (Authorization.authorization_digest a1)) as Hc2.
  { rewrite Ea. apply lookup_insert_eq. }
  assert (Kernel.revisions (kernel w2) !! DesignRevision.revision_hash r1 = Some r1) as Hr2 by (rewrite Ek; apply lookup_insert_eq).
  set (w3 := run ((calls ++ [first]) ++ calls') w0) in *.
  assert (Kernel.transactions (kernel w3) !! id1 = Some t' /\
    Kernel.committed_authorization_evidence (kernel w3) !! id1 = Some (ConsumedAuthorization.mk a1 ap now) /\
    AuthorityState.consumed (authority w3) !! Authorization.nonce a1 = Some (Authorization.authorization_digest a1)) as (Ht3 & Hev3 & Hc3).
  { clear H2. unfold w3. clear w3. induction calls' as [|c calls' IH] using rev_ind; [by rewrite app_nil_r, Ew2|]. rewrite app_assoc.
    destruct IH as (I1 & I2 & I3). pose proof (run_step g w0 Hstart ((calls ++ [first]) ++ calls') c) as Hstep.
    destruct (world_step_committed _ _ id1 t' (run_ledger g w0 Hstart _) Hstep eq_refl I1) as [J1 J2].
    rewrite J2. split_and!; [done|done|by eapply world_step_consumed]. }
  pose proof (run_kept g w0 Hstart ((calls ++ [first]) ++ calls')) as Hk3.
  pose proof (run_ledger g w0 Hstart ((calls ++ [first]) ++ calls')) as Hl3. fold w3 in Hk3, Hl3.
  destruct (commit_effect _ _ _ _ _ _ _ Hk3 H2) as [[[e ?] _]|[(t2 & now2 & ap2 & rev & [= <-] & E4 & _ & Ht4 & Hs4 & [Htr _] & _ & Hau & Hco & (h & Hh & Hrev) & _)|
    (? & ? & ? & ? & ? & _ & _ & _ & _ & _ & _ & _ & _ & _ & Hfree & _)]]; [done| |congruence].
  assert (Authorization.authorization_digest a2 = Authorization.authorization_digest a1) as Ed by congruence.
  rewrite (li_authorization _ Hl3), fmap_Some in Hau. destruct Hau as (ev & Hev & Edv).
  destruct (li_evidence _ Hl3 _ _ Hev) as (_ & _ & _ & Hdv & _). destruct (li_evidence _ Hl3 _ _ Hev3) as (_ & _ & _ & Hd1 & _).
  rewrite <- Edv, Ed in Hdv. cbn [ConsumedAuthorization.claims] in Hd1.
  destruct (digest_commits_to_payload _ _ _ Hdv Hd1) as [E|E]; [|by right; right; exists ev].
  assert (id2 = id1) as ->.
  { eapply (li_once _ Hl3); [exact Hev|exact Hev3|]. by apply (f_equal Authorization.nonce) in E. }
  destruct (run_grows g w0 Hstart (calls ++ [first]) calls') as [[_ Hsub]|Hx]; [left|by right; left].
  split_and!; [done| |done]. rewrite Ht3 in Ht4. injection Ht4 as <-. cbn in Hh. injection Hh as <-.
  rewrite Ew2 in Hsub. fold w3 in Hsub. pose proof (lookup_weaken _ _ _ _ Hr2 Hsub). congruence.
Qed.

(** C19. A revocation is final: from then on no capability under that approval
    commits anything, not even a retry, and the identifier is never registered
    again. *)
Theorem revocation_is_final g w0 calls calls' approval_id clock (Hstart : started g w0) :
  (revoke_release_approval approval_id clock (authority (run calls w0))).2 = Ok tt ->
  let w := run ((calls ++ [RevokeApproval approval_id clock]) ++ calls') w0 in
  (forall id a c c' r, Authorization.human_approval_id a = approval_id -> (commit id a c c' w).2 <> Ok r) /\
  (forall ap c r, ReleaseApproval.approval_id ap = approval_id -> (register_release_approval ap c (authority w)).2 <> Ok r).
Proof.
  intros H w. destruct (revoke_release_approval approval_id clock (authority (run calls w0))) as [s' r'] eqn:E.
  cbn in H. subst r'. assert (authority (run (calls ++ [RevokeApproval approval_id clock]) w0) = s') as Es.
  { rewrite run_snoc. cbn [perform]. unfold on_authority. by rewrite run_zoom, E. }
  destruct (revoke_effect _ _ _ _ _ E) as [[[e ?] _]|(now & _ & _ & Er)]; [done|].
  assert (approval_id ∈ AuthorityState.approval_ids_seen (authority w) /\ AuthorityState.approvals (authority w) !! approval_id = None)
    as [Hseen Hno].
  { unfold w. clear w. induction calls' as [|c calls' IH] using rev_ind.
    - rewrite app_nil_r, Es, Er. cbn. split; [set_solver|apply lookup_delete_eq].
    - rewrite app_assoc. destruct IH as [I1 I2]. eapply world_step_revoked; [apply (run_step g w0 Hstart)|done..]. }
  split.
  - intros id a c c' r Ha Hr. destruct (commit id a c c' w) as [w' r'] eqn:Ec. cbn in Hr. subst r'.
    assert (exists t now ap, authorized (authority w) t a now ap) as (t & now1 & ap & Htr & _).
    { destruct (commit_effect _ _ _ _ _ _ _ (run_kept g w0 Hstart _) Ec) as [[[e ?] _]|[(t & now' & ap & rev & _ & _ & _ & _ & _ & Hx & _)
        |(t & now' & ap & rev & s & _ & _ & _ & _ & _ & Hx & _)]]; [done|by exists t, now', ap..]. }
    pose proof (tr_approval _ _ _ _ Htr) as Hap. rewrite <- (rep_id _ _ _ (tr_repeats _ _ _ _ Htr)), Ha in Hap. congruence.
  - intros ap c r Ha Hr. destruct (register_release_approval ap c (authority w)) as [s2 r'] eqn:Ec. cbn in Hr. subst r'.
    destruct (register_effect _ _ _ _ _ Ec) as [[[e ?] _]|(now' & _ & _ & _ & _ & Hx & _)]; [done|]. by rewrite Ha in Hx.
Qed.

(** C33. An authority that has seen its clock go backwards - it is poisoned - is
    stopped for good: whatever is called and whatever the clock says later, the
    authority stays as it is, so that nothing is registered, revoked, issued or
    consumed; no commit returns, not even a retry, and the history of the
    kernel stays as it is. *)
Theorem clock_rollback_is_final g w0 calls calls' (Hstart : started g w0) :
  AuthorityState.clock_poisoned (authority (run calls w0)) = true ->
  let w := run (calls ++ calls') w0 in
  authority w = authority (run calls w0) /\ same_history (kernel (run calls w0)) (kernel w) /\
  forall id a c c' r, (commit id a c c' w).2 <> Ok r.
Proof.
  intros Hp w. assert (authority w = authority (run calls w0) /\ same_history (kernel (run calls w0)) (kernel w)) as [Ea Eh].
  { unfold w. clear w. induction calls' as [|c calls' IH] using rev_ind; [by rewrite app_nil_r|]. rewrite app_assoc.
    destruct IH as [I1 I2]. pose proof (run_step g w0 Hstart (calls ++ calls') c) as Hs. rewrite <- I1 in Hp |- *.
    destruct Hs as [w' Ek (_ & Ho & _)|w' Ek Ea|w' ? ? ? ? ? ? ? ? ? ? ? ? ? Hnp|w' ? ? ? [Hnp _]|w' ? ? ? [Hnp _]
      |w' ? ? ? ? ? ? ? ? [Hnp _]|w' ? ? ? ? [Hnp _]]; try congruence.
    - rewrite Ek. split; [by apply Ho|done].
    - split; [done|]. etransitivity; [exact I2|by apply edits_history]. }
  split_and!; [done..|]. intros id a c c' r Hr. destruct (commit id a c c' w) as [w' r'] eqn:Ec. cbn in Hr. subst r'.
  rewrite <- Ea in Hp.
  destruct (commit_effect _ _ _ _ _ _ _ (run_kept g w0 Hstart _) Ec) as [[[e ?] _]|[(t & now' & ap & rev & _ & _ & _ & _ & _ & _ & Hx & _)
    |(t & now' & ap & rev & s & _ & _ & _ & _ & _ & _ & _ & _ & Hx & _)]]; [done|fold w in Hx; congruence..].
Qed.

(** ** Witnesses *)

Lemma head_is_replay_of_commits_witness :
  (exists graph r ts, DesignGraph.normalized kernel_graph = Ok graph /\ head_revision (kernel committed_world) = Ok r /\
    DesignRevision.sequence r = Z.of_nat (length ts) /\
    replay graph (concat (DesignTransaction.commands <$> ts)) = Ok (DesignRevision.graph r)) \/
  run_collides kernel_world committed_calls.
Proof.
  destruct (head_is_replay_of_commits kernel_graph kernel_world committed_calls kernel_world_started)
    as [(graph & r & ts & Hg & Hr & Hs & _ & Hp)|H]; [left|right; exact H].
  rewrite committed_run in Hr. exists graph, r, ts. repeat split; assumption.
Defined.

Lemma published_revisions_never_change_witness :
  get_revision (kernel committed_world) genesis_hash = get_revision (kernel kernel_world) genesis_hash \/
  run_collides kernel_world committed_calls.
Proof.
  destruct (get_revision (kernel kernel_world) genesis_hash) as [r|] eqn:E; [|vm_compute in E; discriminate].
  destruct (published_revisions_never_change kernel_graph kernel_world [] committed_calls genesis_hash r
    kernel_world_started E) as [H|H]; [left|right; exact H].
  cbn [app] in H. rewrite committed_run in H. exact H.
Defined.

Lemma kernel_keeps_its_invariant_witness :
  kernel_inv (kernel committed_world) \/ run_collides kernel_world committed_calls.
Proof.
  destruct (kernel_keeps_its_invariant kernel_graph kernel_world committed_calls kernel_world_started) as [H|H];
    [left|right; exact H]. rewrite committed_run in H. exact H.
Defined.

(** A commit under a capability that has expired. *)
Lemma failed_calls_change_nothing_witness :
  perform late_commit (run approved_calls kernel_world) = (late_world, Err late_error) /\
  kernel late_world = kernel (run approved_calls kernel_world).
Proof.
  assert (perform late_commit (run approved_calls kernel_world) = (late_world, Err late_error)) as E
    by (rewrite approved_run; exact late_commit_fails).
  split; [exact E|].
  exact (proj1 (failed_calls_change_nothing kernel_graph kernel_world approved_calls _ kernel_world_started _ _ E)).
Defined.

Lemma commits_are_approved_witness : exists t now ap,
  binds t kernel_authorization /\
  AuthorityState.approvals (authority approved_world) !! ReleaseApproval.approval_id ap = Some ap /\
  ReleaseApproval.principal ap = "user:owner" /\
  normalize_time (kernel_clock 1) "commit authority current time" = Ok now /\ in_force kernel_authorization ap now.
Proof.
  destruct (commits_are_approved kernel_graph kernel_world approved_calls "tx-1" kernel_authorization (kernel_clock 1)
    (kernel_clock 1) kernel_revision kernel_world_started) as (t & now & ap & _ & Hb & Hap & Hp & _ & _ & _ & Hn & Hf & _).
  - rewrite approved_run, kernel_commits. reflexivity.
  - rewrite approved_run in Hap. exists t, now, ap.
    split; [exact Hb|split; [exact Hap|split; [exact Hp|split; [exact Hn|exact Hf]]]].
Defined.

Lemma capability_commits_once_witness :
  let w3 := run ((approved_calls ++ [kernel_commit]) ++ []) kernel_world in
  kernel retried_world = kernel w3 \/
  run_collides kernel_world ((approved_calls ++ [kernel_commit]) ++ []) \/
  exists ev, Kernel.committed_authorization_evidence (kernel w3) !! "tx-1" = Some ev /\
    payload_collision (ConsumedAuthorization.claims ev) kernel_authorization.
Proof.
  destruct (capability_commits_once kernel_graph kernel_world approved_calls [] "tx-1" "tx-1" kernel_authorization
    kernel_authorization (kernel_clock 1) (kernel_clock 1) (kernel_clock 2) (kernel_clock 2) committed_world retried_world
    kernel_revision kernel_revision kernel_world_started) as [(_ & _ & H)|H].
  - rewrite approved_run. exact kernel_commits.
  - rewrite approved_run. exact committed_differs.
  - rewrite app_nil_r. change (approved_calls ++ [_])%list with committed_calls. rewrite committed_run. exact kernel_retries.
  - reflexivity.
  - left. exact H.
  - right. exact H.
Defined.

Lemma revocation_is_final_witness :
  let w := run ((approved_calls ++ [RevokeApproval "ap-1" (kernel_clock 1)]) ++ []) kernel_world in
  (forall r, (commit "tx-1" kernel_authorization (kernel_clock 2) (kernel_clock 2) w).2 <> Ok r) /\
  (forall r, (register_release_approval kernel_approval (kernel_clock 2) (authority w)).2 <> Ok r).
Proof.
  intros w. destruct (revocation_is_final kernel_graph kernel_world approved_calls [] "ap-1" (kernel_clock 1)
    kernel_world_started) as [Hc Hr]; [rewrite approved_run; vm_compute; reflexivity|].
  split; intros r; [apply Hc|apply Hr]; reflexivity.
Defined.

Lemma clock_rollback_is_final_witness :
  let calls := [RegisterApproval kernel_approval (kernel_clock 5); RevokeApproval "ap-1" (kernel_clock 0)] in
  let w := run (calls ++ [RevokeApproval "ap-1" (kernel_clock 9)]) kernel_world in
  AuthorityState.approvals (authority w) !! "ap-1" = Some kernel_approval /\
  forall r, (commit "tx-1" kernel_authorization (kernel_clock 9) (kernel_clock 9) w).2 <> Ok r.
Proof.
  intros calls w. destruct (clock_rollback_is_final kernel_graph kernel_world calls [RevokeApproval "ap-1" (kernel_clock 9)]
    kernel_world_started) as (Ha & _ & Hc); [vm_compute; reflexivity|]. split.
  - unfold w. rewrite Ha. vm_compute. reflexivity.
  - intros r. apply Hc.
Defined.

(** * What staging guarantees

    A batch is its commands one by one, or none of them, and an accepted
    command is accepted once. *)

(** ** Batches *)

(** C20. A batch is all of its commands or none: when [stage_batch] returns, the
    kernel is what staging the commands one after the other makes of it; when
    it raises, the kernel is unchanged, and either the batch is empty, mixes
    transactions or repeats an identifier or a key, or staging the commands one
    after the other raises an exception of the same class. *)
Theorem stage_batch_is_sequential k batch :
  match stage_batch batch k with
  | (k', Ok t) => stage_all batch k = (k', Ok tt) /\
      exists first, head batch = Some first /\ Kernel.transactions k' !! DesignCommand.transaction_id first = Some t
  | (k', Err e) => k' = k /\
      ((~ exists first, head batch = Some first /\
          one_batch (DesignCommand.transaction_id first) (DesignCommand.base_revision first) batch) /\
        exn_cls e = InvariantViolation \/
       exists k2 e', stage_all batch k = (k2, Err e') /\ exn_cls e' = exn_cls e)
  end.
Proof.
  destruct batch as [|first batch]; [split; [done|left; by split; [intros (? & ? & _)|]]|].
  pose proof (stage_batch_runs first batch k) as Hr. cbv zeta in Hr.
  destruct (stage_batch (first :: batch) k) as [k' r] eqn:H.
  match type of H with _ = _ => unfold stage_batch in H end. rewrite run_lift in H.
  match type of H with context [raise_first ?l] => destruct (raise_first l) as [[]|e] eqn:E end.
  - assert (one_batch (DesignCommand.transaction_id first) (DesignCommand.base_revision first) (first :: batch)) as Hb.
    { apply one_batch_checked. apply raise_first_Ok in E. rewrite !Forall_cons in E. cbn [fst] in E. tauto. }
    specialize (Hr Hb). destruct r as [t|e]; destruct Hr as [H1 H2]; split; try done; [by exists first|by right].
  - injection H as <- <-. split; [done|]. left. split.
    + intros (f & [= <-] & (C1 & C2 & C3)%one_batch_checked). cbn [raise_first] in E. by rewrite C1, C2, C3 in E.
    + cbn [raise_first] in E. repeat case_match; naive_solver.
Qed.

(** ** Retries *)

Lemma edit_key k k' id key h :
  edit k k' -> Kernel.idempotency k !! (id, key) = Some h -> Kernel.idempotency k' !! (id, key) = Some h.
Proof.
  intros [| | |] Hi; try done. cbn. rewrite lookup_insert_ne; [done|]. intros E. rewrite E in *. congruence.
Qed.

Lemma world_step_key w w' id key h :
  world_step w w' -> Kernel.idempotency (kernel w) !! (id, key) = Some h ->
  Kernel.idempotency (kernel w') !! (id, key) = Some h.
Proof.
  intros Hs Hi. destruct Hs; try match goal with H : kernel _ = kernel w |- _ => by rewrite H end.
  - match goal with H : rtc edit _ _ |- _ => revert Hi; induction H; eauto using edit_key end.
  - by match goal with H : kernel _ = published _ _ _ _ |- _ => rewrite H end.
Qed.

(** A transaction stays on its base. *)
Lemma edit_base k k' id t :
  edit k k' -> Kernel.transactions k !! id = Some t ->
  exists t', Kernel.transactions k' !! id = Some t' /\ DesignTransaction.base_revision t' = DesignTransaction.base_revision t.
Proof.
  intros Hs Ht. assert (forall id' t', (Kernel.transactions k !! id' = Some t -> id' = id ->
      DesignTransaction.base_revision t' = DesignTransaction.base_revision t) ->
    exists t0, <[id' := t']> (Kernel.transactions k) !! id = Some t0 /\
      DesignTransaction.base_revision t0 = DesignTransaction.base_revision t) as Hins.
  { intros id' t' H. destruct (decide (id' = id)) as [->|Hne]; [rewrite lookup_insert_eq; eauto|].
    rewrite lookup_insert_ne by done. eauto. }
  destruct Hs as [id' r digest t0 Hid Hr Hn Hd|t0 c graph digest hash t' Ht0 Hs Hi Hb Hkey Hcmd Hrep Hne Hh Hn Hd
    |t0 report passed t' Ht0 Hs Hn|t0 t' Ht0 Hs Hn]; apply Hins.
  - intros ? E. change (DesignTransaction.transaction_id t0) with id' in *. congruence.
  - intros H E. unfold present in Ht0. rewrite Hi, Ht0 in H. by injection H as <-.
  - intros H E. unfold present in Ht0. change (DesignTransaction.transaction_id t') with (DesignTransaction.transaction_id t0) in H.
    rewrite Ht0 in H. by injection H as <-.
  - intros H E. unfold present in Ht0. change (DesignTransaction.transaction_id t') with (DesignTransaction.transaction_id t0) in H.
    rewrite Ht0 in H. by injection H as <-.
Qed.

Lemma world_step_base w w' id t :
  world_step w w' -> Kernel.transactions (kernel w) !! id = Some t ->
  exists t', Kernel.transactions (kernel w') !! id = Some t' /\
    DesignTransaction.base_revision t' = DesignTransaction.base_revision t.
Proof.
  intros Hs Ht. destruct Hs as [w' Ek|w' Ek _|w' t0 ? ? ? ? ? Ht0 _ Ek|w' ? ? Ek|w' ? ? Ek|w' ? ? ? ? ? ? ? Ek|w' ? ? ? Ek];
    try (rewrite Ek; by exists t).
  - revert t Ht. induction Ek as [|k k1 k' Hs _ IH]; intros t Ht; [by exists t|].
    destruct (edit_base _ _ _ _ Hs Ht) as (t1 & H1 & E1). destruct (IH t1 H1) as (t2 & H2 & E2). exists t2. by rewrite E2.
  - rewrite Ek. cbn. destruct (decide (DesignTransaction.transaction_id t0 = id)) as [<-|Hne].
    + rewrite lookup_insert_eq. unfold present in Ht0. rewrite Ht0 in Ht. injection Ht as <-. by eexists.
    + rewrite lookup_insert_ne by done. by exists t.
Qed.

(** C31. A command is accepted once.  When it was staged, staging it again, at
    any later time, returns the transaction and changes nothing; and another
    command under its idempotency key is a conflict. *)
Theorem commands_are_accepted_once g w0 calls calls' c (Hstart : started g w0) :
  (exists t, (stage c (kernel (run calls w0))).2 = Ok t) ->
  let k := kernel (run ((calls ++ [Stage c]) ++ calls') w0) in
  (exists t, stage c k = (k, Ok t) /\ Kernel.transactions k !! DesignCommand.transaction_id c = Some t) /\
  forall c', DesignCommand.transaction_id c' = DesignCommand.transaction_id c ->
    DesignCommand.base_revision c' = DesignCommand.base_revision c ->
    DesignCommand.idempotency_key c' = DesignCommand.idempotency_key c -> command_hash c' <> command_hash c ->
    stage c' k = (k, Err (Exn CommandConflict "idempotency key was reused for a different command")).
Proof.
  intros [t Ht] k. destruct (stage c (kernel (run calls w0))) as [k1 r1] eqn:Hs. cbn in Ht. subst r1.
  assert (kernel (run (calls ++ [Stage c]) w0) = k1) as Ek1.
  { rewrite run_snoc. cbn [perform]. unfold void, on_kernel. by rewrite run_bind, run_zoom, Hs. }
  set (id := DesignCommand.transaction_id c). destruct (command_hash_total c) as [h Hh].
  assert (Kernel.idempotency k1 !! (id, DesignCommand.idempotency_key c) = Some h /\
    exists t1, Kernel.transactions k1 !! id = Some t1 /\ DesignTransaction.base_revision t1 = DesignCommand.base_revision c)
    as [Hk1 Ht1].
  { destruct (stage_effect _ _ _ _ (well_kept_keyed _ (run_kept g w0 Hstart calls)) Hs)
      as [[-> Ha]|(t' & _ & _ & h' & Hed & Hh')].
    - destruct (Ha t eq_refl) as (Hp & Hb & h' & Hh' & Hi). rewrite Hh in Hh'. injection Hh' as <-. split; [exact Hi|by exists t].
    - destruct Hh' as (-> & Hb). rewrite Hh in Hed. injection Hed as <-. split; [apply lookup_insert_eq|].
      exists t'. split; [apply lookup_insert_eq|done]. }
  assert (Kernel.idempotency k !! (id, DesignCommand.idempotency_key c) = Some h /\
    exists t1, Kernel.transactions k !! id = Some t1 /\ DesignTransaction.base_revision t1 = DesignCommand.base_revision c)
    as [Hk (t1 & Ht & Hb)].
  { unfold k. clear k. rewrite <- Ek1 in Hk1, Ht1. induction calls' as [|c1 calls' IH] using rev_ind; [by rewrite app_nil_r|].
    rewrite app_assoc. destruct IH as [I1 (t1 & I2 & I3)]. pose proof (run_step g w0 Hstart ((calls ++ [Stage c]) ++ calls') c1) as Hstep.
    split; [by eapply world_step_key|]. destruct (world_step_base _ _ _ _ Hstep I2) as (t2 & J1 & J2). exists t2. by rewrite J2. }
  split.
  - exists t1. split; [|done]. unfold stage. rewrite run_get, run_lift. unfold get_transaction. fold id.
    rewrite Ht, Hb, bool_decide_eq_true_2 by done. cbn [negb]. rewrite Hk, run_lift, Hh, bool_decide_eq_true_2 by done. done.
  - intros c' E1 E2 E3 Hne. unfold stage. rewrite run_get, run_lift. unfold get_transaction. rewrite E1, E2, E3. fold id.
    rewrite Ht, Hb, bool_decide_eq_true_2 by done. cbn [negb]. destruct (command_hash_total c') as [h' Hh'].
    rewrite Hk, run_lift, Hh', bool_decide_eq_false_2; [done|]. intros <-. congruence.
Qed.

(** ** Witness *)

Lemma commands_are_accepted_once_witness :
  let k := kernel (run (([Begin "tx-1" genesis_hash] ++ [Stage net_command]) ++ [Stage component_command]) kernel_world) in
  (exists t, stage net_command k = (k, Ok t)) /\
  stage other_net_command k = (k, Err (Exn CommandConflict "idempotency key was reused for a different command")).
Proof.
  destruct (commands_are_accepted_once kernel_graph kernel_world [Begin "tx-1" genesis_hash] [Stage component_command] net_command)
    as [(t & Ht & _) Hc].
  - apply kernel_world_started.
  - eexists. vm_compute. reflexivity.
  - split; [exists t; exact Ht|]. apply Hc; vm_compute; first [reflexivity|discriminate].
Defined.
