(* ===== verification/KernelPreview.v ===== *)
(** * What previews and locks guarantee

    A preview is empty exactly when the transaction changes nothing, and
    locked geometry survives every command. *)
From S2P Require Import Prelude PyDict PyStr Sha256 Json DateTime Models Geometry Board Canonical CanonicalFacts.
From S2P Require Import Effect KernelText KernelModel KernelGraph KernelCommand KernelLaws CommitAuthority Kernel.
From S2P Require Import AuthorityFacts KernelSteps KernelInv KernelRuns KernelLedger.

Local Open Scope string_scope.

(** ** What a valid graph looks like *)

(** A collection in the order of its identifiers, without repetitions. *)
Definition ordered {A} (key : A -> string) (l : list A) : Prop := NoDup (key <$> l) /\ sorted_on key l = l.

Record graph_order (g : DesignGraph.t) : Prop := {
  go_components : ordered Component.component_id (DesignGraph.components g);
  go_nets : ordered Net.net_id (DesignGraph.nets g);
  go_placements : ordered FootprintPlacement.component_id (DesignGraph.placements g);
  go_tracks : ordered Track.track_id (DesignGraph.tracks g);
  go_pads : ordered FootprintPad.pad_id (DesignGraph.pads g);
  go_holes : ordered FootprintHole.hole_id (DesignGraph.holes g);
  go_vias : ordered Via.via_id (DesignGraph.vias g);
  go_zones : ordered CopperZone.zone_id (DesignGraph.zones g);
  go_wires : ordered SchematicWire.wire_id (DesignGraph.schematic_wires g);
  go_junctions : ordered SchematicJunction.junction_id (DesignGraph.schematic_junctions g);
  go_layers : ordered id (DesignGraph.layers g);
  go_schema : DesignGraph.schema_version g = 1%Z;
}.

Lemma sorted_unique {A} (key : A -> string) l l' : NoDup (key <$> l) -> l = sorted_on key l' -> ordered key l.
Proof. intros Hn E. split; [done|]. rewrite E in *. by apply sorted_collection. Qed.

Lemma graph_valid_order g : graph_valid g -> graph_order g.
Proof.
  intros [Hn [Hh Hu]%validate_graph_header]. rewrite unique_identities_Ok in Hu.
  assert (forall i label values, Validate.identities g !! i = Some (label, values) -> NoDup values) as Hi.
  { intros i label values Hi. eapply Hu, list_elem_of_lookup_2, Hi. }
  assert (forall x y, DesignGraph.new x = Ok y -> y = x) as Hnew by returns_argument. unfold DesignGraph.normalized in Hn.
  apply bind_Ok in Hn as (cs & _ & Hn). apply bind_Ok in Hn as (ns & _ & Hn). apply bind_Ok in Hn as (ts & _ & Hn).
  apply bind_Ok in Hn as (ps & _ & Hn). apply bind_Ok in Hn as (hs & _ & Hn). apply bind_Ok in Hn as (vs & _ & Hn).
  apply bind_Ok in Hn as (zs & _ & Hn). apply bind_Ok in Hn as (ws & _ & Hn). apply Hnew in Hn.
  unfold Validate.header in Hh. apply seq_Ok in Hh as [Hs%raise_if_Ok%negb_false_iff%Z.eqb_eq Hh].
  apply seq_Ok in Hh as [_ Hh]. apply seq_Ok in Hh as [_ Hh]. apply seq_Ok in Hh as [Hl%raise_if_Ok%no_duplicates _].
  destruct g. cbn in Hn. injection Hn. intros. cbn in *.
  split; cbn; try done; (eapply sorted_unique; [|eassumption]).
  - exact (Hi 0%nat _ _ eq_refl).
  - exact (Hi 2%nat _ _ eq_refl).
  - exact (Hi 4%nat _ _ eq_refl).
  - exact (Hi 5%nat _ _ eq_refl).
  - exact (Hi 6%nat _ _ eq_refl).
  - exact (Hi 7%nat _ _ eq_refl).
  - exact (Hi 8%nat _ _ eq_refl).
  - exact (Hi 9%nat _ _ eq_refl).
  - exact (Hi 10%nat _ _ eq_refl).
  - exact (Hi 11%nat _ _ eq_refl).
  - by rewrite list_fmap_id.
Qed.

(** ** Differences *)

Lemma fmap_empty {A B} (f : A -> B) l : f <$> l = [] <-> l = [].
Proof. split; [by destruct l|by intros ->]. Qed.

Lemma sorted_on_nil {A} (key : A -> string) l : sorted_on key l = [] <-> l = [].
Proof.
  split; [|by intros ->]. intros E. apply (f_equal length) in E. rewrite length_sorted_on in E. by destruct l.
Qed.

Lemma diff_entities_nil {A} `{EqDecision A} prefix (key : A -> string) before after :
  ordered key before -> ordered key after ->
  diff_entities prefix key before after = ([], [], []) <-> before = after.
Proof.
  intros [N1 S1] [N2 S2]. unfold diff_entities. split.
  - intros [= Ha Hr Hm]. rewrite fmap_empty, sorted_on_nil, filter_nil_iff in Ha, Hr.
    rewrite fmap_empty, filter_nil_iff in Hm.
    rewrite <- S1, <- S2. apply sorted_on_perm; [intros x y Hx Hy; by apply (unique_by key before)|].
    rewrite <- (dict_by_values key before N1), <- (dict_by_values key after N2).
    apply (keyed_perm key); [by apply dict_by_keyed..|]. intros item.
    destruct (dict_by key before !! item) as [x|] eqn:Eb, (dict_by key after !! item) as [y|] eqn:Ea; [..|done].
    + destruct (decide (Some x = Some y)) as [|Hne]; [done|exfalso].
      eapply (Hm item); [|by rewrite Eb, Ea]. apply elem_of_sorted_on, list_elem_of_filter. split; [by rewrite Ea|].
      apply elem_of_dict_keys. by rewrite Eb.
    + exfalso. eapply (Hr item); [|done]. apply elem_of_dict_keys. by rewrite Eb.
    + exfalso. eapply (Ha item); [|done]. apply elem_of_dict_keys. by rewrite Ea.
  - intros <-. assert (forall l : list string, (forall x, x ∈ l -> False) -> l = []) as Hnil.
    { intros [|x l] H; [done|]. exfalso. apply (H x). by left. }
    assert (forall item, item ∈ dict_keys (dict_by key before) -> dict_by key before !! item <> None) as Hk.
    { intros item [v Hv]%elem_of_dict_keys. by rewrite Hv. }
    rewrite (Hnil (filter (fun item => dict_by key before !! item = None) (dict_keys (dict_by key before)))).
    + cbn. f_equal. rewrite (Hnil (filter (fun item => dict_by key before !! item <> dict_by key before !! item) _)); [done|].
      intros item [H _]%list_elem_of_filter. by apply H.
    + intros item [H Hin]%list_elem_of_filter. by eapply Hk.
Qed.

Lemma append_diffs_nil l p :
  foldl append_diffs p l = ([], [], []) <-> p = ([], [], []) /\ Forall (fun q => q = ([], [], [])) l.
Proof.
  revert p. induction l as [|q l IH]; intros p; cbn [foldl]; [by rewrite Forall_nil; split; [|intros [? _]]|].
  rewrite IH, Forall_cons. destruct p as [[a b] c], q as [[a' b'] c']. unfold append_diffs. cbn. split.
  - intros [[= E1 E2 E3] H]. apply app_nil in E1 as [-> ->], E2 as [-> ->], E3 as [-> ->]. done.
  - by intros ([= -> -> ->] & [= -> -> ->] & H).
Qed.

Lemma diff_outline_nil base staged :
  diff_outline base staged = ([], [], []) <-> DesignGraph.board_outline base = DesignGraph.board_outline staged.
Proof.
  unfold diff_outline. destruct (DesignGraph.board_outline base) as [|p l], (DesignGraph.board_outline staged) as [|q m]; cbn;
    try by split. case_bool_decide as E; cbn; by split.
Qed.

(** The layers of one graph that another does not have. *)
Definition layer_less (l m : list string) : list string :=
  (fun item => "layer:" +:+ item) <$> sorted_on id (remove_dups (filter (fun item => item ∉ m) l)).

Lemma layer_less_nil l m : layer_less l m = [] <-> forall x, x ∈ l -> x ∈ m.
Proof.
  unfold layer_less. rewrite fmap_empty, sorted_on_nil. split.
  - intros E x Hx. destruct (decide (x ∈ m)) as [|Hn]; [done|exfalso].
    assert (x ∈ remove_dups (filter (fun item => item ∉ m) l)) as Hin by (by apply elem_of_remove_dups, list_elem_of_filter).
    rewrite E in Hin. by apply elem_of_nil in Hin.
  - intros H. rewrite (proj2 (filter_nil_iff _ _)); [done|]. intros x Hx Hn. by apply Hn, H.
Qed.

Lemma layers_same l m :
  ordered id l -> ordered id m -> (forall x, x ∈ l -> x ∈ m) -> (forall x, x ∈ m -> x ∈ l) -> l = m.
Proof.
  intros [N1 S1] [N2 S2] H1 H2. rewrite list_fmap_id in N1, N2. rewrite <- S1, <- S2.
  apply sorted_on_perm; [done|]. apply NoDup_Permutation; [done..|]. naive_solver.
Qed.

Lemma diff_graphs_nil base staged :
  graph_valid base -> graph_valid staged -> DesignGraph.project_id staged = DesignGraph.project_id base ->
  diff_graphs base staged = ([], [], []) <-> staged = base.
Proof.
  intros [] %graph_valid_order []%graph_valid_order Hp.
  change (diff_graphs base staged) with (foldl append_diffs ([], [], []) [
    diff_entities "component" Component.component_id (DesignGraph.components base) (DesignGraph.components staged);
    diff_entities "net" Net.net_id (DesignGraph.nets base) (DesignGraph.nets staged);
    diff_entities "placement" FootprintPlacement.component_id (DesignGraph.placements base) (DesignGraph.placements staged);
    diff_entities "track" Track.track_id (DesignGraph.tracks base) (DesignGraph.tracks staged);
    diff_entities "pad" FootprintPad.pad_id (DesignGraph.pads base) (DesignGraph.pads staged);
    diff_entities "hole" FootprintHole.hole_id (DesignGraph.holes base) (DesignGraph.holes staged);
    diff_entities "via" Via.via_id (DesignGraph.vias base) (DesignGraph.vias staged);
    diff_entities "zone" CopperZone.zone_id (DesignGraph.zones base) (DesignGraph.zones staged);
    diff_entities "schematic-wire" SchematicWire.wire_id (DesignGraph.schematic_wires base) (DesignGraph.schematic_wires staged);
    diff_entities "schematic-junction" SchematicJunction.junction_id
      (DesignGraph.schematic_junctions base) (DesignGraph.schematic_junctions staged);
    (layer_less (DesignGraph.layers staged) (DesignGraph.layers base),
      layer_less (DesignGraph.layers base) (DesignGraph.layers staged), []);
    diff_outline base staged]).
  rewrite append_diffs_nil, !Forall_cons, !diff_entities_nil, diff_outline_nil by done.
  assert ((layer_less (DesignGraph.layers staged) (DesignGraph.layers base),
      layer_less (DesignGraph.layers base) (DesignGraph.layers staged), []) = ([], [], [] : list string) <->
    DesignGraph.layers base = DesignGraph.layers staged) as ->.
  { split.
    - intros [= H1 H2]. rewrite layer_less_nil in H1, H2. by apply layers_same.
    - intros ->. by rewrite (proj2 (layer_less_nil _ _)). }
  split.
  - intros (_ & E1 & E2 & E3 & E4 & E5 & E6 & E7 & E8 & E9 & E10 & E11 & E12 & _). destruct base, staged. cbn in *. by subst.
  - intros ->. done.
Qed.

(** ** Commands keep the project *)

Lemma graph_new_Ok x y : DesignGraph.new x = Ok y -> y = x.
Proof. revert x y. returns_argument. Qed.

(** The computation of a command up to the graph that it makes. *)
Ltac command_cases H :=
  repeat lazymatch type of H with
  | bind (raise_if _ _) _ = Ok _ => apply seq_Ok in H as [_ H]
  | bind (Payload.keys _ _ _) _ = Ok _ => apply seq_Ok in H as [_ H]
  | bind _ _ = Ok _ => let x := fresh "x" in apply bind_Ok in H as (x & _ & H)
  | DesignGraph.new _ = Ok _ => apply graph_new_Ok in H
  | Err _ = Ok _ => discriminate H
  | (match ?o with _ => _ end) = Ok _ => destruct o
  end.

Lemma apply_project graph c graph' :
  apply_command graph c = Ok graph' -> DesignGraph.project_id graph' = DesignGraph.project_id graph.
Proof.
  unfold apply_command. intros (payload & _ & H)%bind_Ok.
  destruct (DesignCommand.kind c); cbn [Apply.by_kind] in H;
    [unfold Apply.component_add in H|unfold Apply.component_remove in H|unfold Apply.net_create in H
    |unfold Apply.net_connect in H|unfold Apply.footprint_place in H|unfold Apply.footprint_pad_add in H
    |unfold Apply.footprint_pad_group_add in H|unfold Apply.footprint_hole_add in H|unfold Apply.track_add in H
    |unfold Apply.via_add in H|unfold Apply.zone_add in H|unfold Apply.schematic_wire_add in H
    |unfold Apply.schematic_junction_add in H|unfold Apply.board_set_outline in H]; cbv zeta in H; command_cases H; by rewrite H.
Qed.

Lemma normalized_project g g' : DesignGraph.normalized g = Ok g' -> DesignGraph.project_id g' = DesignGraph.project_id g.
Proof.
  unfold DesignGraph.normalized. intros H. do 8 (apply bind_Ok in H as (? & _ & H)). apply graph_new_Ok in H. by rewrite H.
Qed.

Lemma replay_project graph cs graph' : replay graph cs = Ok graph' -> DesignGraph.project_id graph' = DesignGraph.project_id graph.
Proof.
  unfold replay. revert graph. induction cs as [|c cs IH]; intros graph H; [by apply Ok_inj in H as <-|].
  apply bind_Ok in H as (g1 & (applied & Ha & (g2 & Hn & [_ <-%Ok_inj]%seq_Ok)%bind_Ok)%bind_Ok & H).
  by rewrite (IH _ H), (normalized_project _ _ Hn), (apply_project _ _ _ Ha).
Qed.

(** ** Locked geometry *)

(** What a command must keep: locked placements, pads and holes, and all of the
    copper and the schematic. *)
Record keeps (g g' : DesignGraph.t) : Prop := {
  kp_placements : forall x, x ∈ DesignGraph.placements g -> FootprintPlacement.locked x = true -> x ∈ DesignGraph.placements g';
  kp_pads : forall x, x ∈ DesignGraph.pads g -> FootprintPad.locked x = true -> x ∈ DesignGraph.pads g';
  kp_holes : forall x, x ∈ DesignGraph.holes g -> FootprintHole.locked x = true -> x ∈ DesignGraph.holes g';
  kp_tracks : forall x, x ∈ DesignGraph.tracks g -> x ∈ DesignGraph.tracks g';
  kp_vias : forall x, x ∈ DesignGraph.vias g -> x ∈ DesignGraph.vias g';
  kp_zones : forall x, x ∈ DesignGraph.zones g -> x ∈ DesignGraph.zones g';
  kp_wires : forall x, x ∈ DesignGraph.schematic_wires g -> x ∈ DesignGraph.schematic_wires g';
  kp_junctions : forall x, x ∈ DesignGraph.schematic_junctions g -> x ∈ DesignGraph.schematic_junctions g';
}.

Lemma placement_of_locked g id x :
  NoDup (FootprintPlacement.component_id <$> DesignGraph.placements g) ->
  match Apply.placement_of g id with Some item => FootprintPlacement.locked item | None => false end = false ->
  x ∈ DesignGraph.placements g -> FootprintPlacement.locked x = true -> FootprintPlacement.component_id x <> id.
Proof.
  intros Hn Hl Hx Hlx E. unfold Apply.placement_of in Hl.
  destruct (filter (fun item => FootprintPlacement.component_id item = id) (DesignGraph.placements g)) as [|y l] eqn:Ef.
  - rewrite filter_nil_iff in Ef. by eapply Ef.
  - assert (y ∈ filter (fun item => FootprintPlacement.component_id item = id) (DesignGraph.placements g)) as Hy by (rewrite Ef; by left).
    apply list_elem_of_filter in Hy as [Ey Hy]. cbn in Hl.
    rewrite (unique_by FootprintPlacement.component_id _ x y Hn Hx Hy) in Hlx; congruence.
Qed.

Lemma apply_keeps graph c graph' :
  NoDup (FootprintPlacement.component_id <$> DesignGraph.placements graph) -> apply_command graph c = Ok graph' -> keeps graph graph'.
Proof.
  unfold apply_command. intros Hn (payload & _ & H)%bind_Ok.
  destruct (DesignCommand.kind c); cbn [Apply.by_kind] in H;
    [unfold Apply.component_add in H|unfold Apply.component_remove in H|unfold Apply.net_create in H
    |unfold Apply.net_connect in H|unfold Apply.footprint_place in H|unfold Apply.footprint_pad_add in H
    |unfold Apply.footprint_pad_group_add in H|unfold Apply.footprint_hole_add in H|unfold Apply.track_add in H
    |unfold Apply.via_add in H|unfold Apply.zone_add in H|unfold Apply.schematic_wire_add in H
    |unfold Apply.schematic_junction_add in H|unfold Apply.board_set_outline in H]; cbv zeta in H.
  2:{ apply seq_Ok in H as [_ H]. apply bind_Ok in H as (id & _ & H). apply seq_Ok in H as [_ H]. apply seq_Ok in H as [_ H].
      apply seq_Ok in H as [Hp%raise_if_Ok H].
      apply seq_Ok in H as [[H1%existsb_Forall H2%existsb_Forall]%raise_if_Ok%orb_false_iff H]. rewrite Forall_forall in H1. rewrite Forall_forall in H2.
      apply graph_new_Ok in H as ->. split; cbn; try done; intros x Hx Hl; apply list_elem_of_filter; (split; [|done]).
      - by eapply placement_of_locked.
      - intros E. specialize (H1 x Hx). rewrite Hl, andb_true_r in H1. by apply bool_decide_eq_false in H1.
      - intros E. specialize (H2 x Hx). rewrite Hl, andb_true_r in H2. by apply bool_decide_eq_false in H2. }
  4:{ apply seq_Ok in H as [_ H]. apply bind_Ok in H as (id & _ & H). apply seq_Ok in H as [_ H].
      apply seq_Ok in H as [Hp%raise_if_Ok H]. command_cases H. subst graph'. split; cbn; try done.
      intros y Hy Hl. apply elem_of_app. left. apply list_elem_of_filter. split; [|done]. by eapply placement_of_locked. }
  all: command_cases H; subst graph'; split; cbn; try done; intros; apply elem_of_app; by left.
Qed.

(** The entities of a valid graph are in normal form. *)
Record graph_normal (g : DesignGraph.t) : Prop := {
  gn_pads : forall x, x ∈ DesignGraph.pads g -> FootprintPad.normalized x = Ok x;
  gn_holes : forall x, x ∈ DesignGraph.holes g -> FootprintHole.normalized x = Ok x;
  gn_tracks : forall x, x ∈ DesignGraph.tracks g -> Track.normalized x = Ok x;
  gn_vias : forall x, x ∈ DesignGraph.vias g -> Via.normalized x = Ok x;
  gn_zones : forall x, x ∈ DesignGraph.zones g -> CopperZone.normalized x = Ok x;
  gn_wires : forall x, x ∈ DesignGraph.schematic_wires g -> SchematicWire.normalized x = Ok x;
}.

Lemma normal_elements {A} make normalized (key : A -> string) l l' x :
  entity_laws make normalized -> mapM normalized l = Ok l' -> x ∈ sorted_on key l' -> normalized x = Ok x.
Proof.
  intros Hl Hm Hx. apply elem_of_sorted_on in Hx. apply (mapM_elem _ _ _ x) in Hm. apply Hm in Hx as (y & _ & Hy).
  by eapply normal_again.
Qed.

Lemma normal_stays {A} normalized (key : A -> string) l l' x :
  mapM normalized l = Ok l' -> x ∈ l -> normalized x = Ok x -> x ∈ sorted_on key l'.
Proof. intros Hm Hx Hn. apply elem_of_sorted_on. apply (mapM_elem _ _ _ x) in Hm. apply Hm. by exists x. Qed.

Lemma graph_valid_normal g : graph_valid g -> graph_normal g.
Proof.
  intros [Hn _]. unfold DesignGraph.normalized in Hn.
  apply bind_Ok in Hn as (cs & _ & Hn). apply bind_Ok in Hn as (ns & _ & Hn). apply bind_Ok in Hn as (ts & Ht & Hn).
  apply bind_Ok in Hn as (ps & Hp & Hn). apply bind_Ok in Hn as (hs & Hh & Hn). apply bind_Ok in Hn as (vs & Hv & Hn).
  apply bind_Ok in Hn as (zs & Hz & Hn). apply bind_Ok in Hn as (ws & Hw & Hn). apply graph_new_Ok in Hn.
  destruct g. cbn in *. injection Hn. intros. split; cbn; intros x Hx;
    match goal with H : ?l = sorted_on ?key _, Hx : x ∈ ?l |- _ => rewrite H in Hx end; (eapply normal_elements; [|done..]).
  - apply pad_entity.
  - apply hole_entity.
  - apply track_entity.
  - apply via_entity.
  - apply zone_entity.
  - apply wire_entity.
Qed.

(** C22. Locks hold, and nothing is erased: after any command that the kernel
    accepts on a valid graph, every locked placement, pad and hole, and every
    track, via, zone, wire and junction, is still there, unchanged - also when
    a component is removed or placed again. *)
Theorem locked_geometry_survives graph c graph' :
  graph_valid graph -> replay_command graph c = Ok graph' -> keeps graph graph'.
Proof.
  intros Hv (applied & Ha & (g2 & Hn & [_ <-%Ok_inj]%seq_Ok)%bind_Ok)%bind_Ok.
  destruct (go_placements _ (graph_valid_order _ Hv)) as [Hnd _].
  destruct (apply_keeps _ _ _ Hnd Ha) as [K1 K2 K3 K4 K5 K6 K7 K8]. destruct (graph_valid_normal _ Hv) as [G1 G2 G3 G4 G5 G6].
  unfold DesignGraph.normalized in Hn.
  apply bind_Ok in Hn as (cs & _ & Hn). apply bind_Ok in Hn as (ns & _ & Hn). apply bind_Ok in Hn as (ts & Ht & Hn).
  apply bind_Ok in Hn as (ps & Hp & Hn). apply bind_Ok in Hn as (hs & Hh & Hn). apply bind_Ok in Hn as (vs & Hvs & Hn).
  apply bind_Ok in Hn as (zs & Hz & Hn). apply bind_Ok in Hn as (ws & Hw & Hn). apply graph_new_Ok in Hn as ->.
  split; cbn; intros x Hx; try intros Hl; try (apply elem_of_sorted_on; by auto); eapply normal_stays; eauto.
Qed.

(** C30. A preview is exact: in a reachable kernel every transaction has one, it
    binds the staged graph, the commands and the digest of the transaction, and
    it lists no difference exactly when the transaction changes nothing. *)
Theorem previews_are_exact g w0 calls id t (Hstart : started g w0) :
  let k := kernel (run calls w0) in
  Kernel.transactions k !! id = Some t ->
  (exists base d, get_revision k (DesignTransaction.base_revision t) = Ok base /\ preview k id = Ok d /\
    SemanticDiff.preview_digest d = DesignTransaction.preview_digest t /\
    graph_hash (DesignTransaction.staged_graph t) = Ok (SemanticDiff.staged_graph_hash d) /\
    SemanticDiff.command_ids d = (DesignCommand.command_id <$> DesignTransaction.commands t) /\
    (SemanticDiff.added d = [] /\ SemanticDiff.removed d = [] /\ SemanticDiff.modified d = [] <->
      DesignTransaction.staged_graph t = DesignRevision.graph base)) \/
  run_collides w0 calls.
Proof.
  intros k Ht. destruct (run_inv g w0 Hstart calls) as [Hk|H]; [left|by right]. fold k in Hk.
  destruct (ki_transaction k Hk _ _ Ht) as [Hn Hp (base & Hb & Hr) _].
  assert (graph_valid (DesignRevision.graph base)) as Hvb by by eapply ri_valid, ki_revision.
  assert (graph_valid (DesignTransaction.staged_graph t)) as Hvs by by eapply replay_valid.
  destruct (graph_hash_total _ Hvs) as [gh Hgh].
  assert (is_sha256_hex gh = true) as Hgd by (eapply hash_is_digest; by apply (graph_hash_valid _ _ Hvs)).
  assert (is_sha256_hex (DesignTransaction.preview_digest t) = true) as Hpd.
  { unfold preview_of in Hp. apply bind_Ok in Hp as (? & _ & Hp). apply bind_Ok in Hp as (? & _ & Hp). by eapply hash_is_digest. }
  pose proof (wf_base _ (proj1 (transaction_new_wf t) Hn)) as Hbd.
  destruct (diff_graphs (DesignRevision.graph base) (DesignTransaction.staged_graph t)) as [[a r] m] eqn:Ed.
  exists base. eexists. split; [by apply get_revision_Ok|]. split.
  { unfold preview. rewrite (proj2 (get_transaction_Ok k id t) Ht). cbn [bind].
    rewrite (proj2 (get_revision_Ok k _ base) Hb). cbn [bind]. unfold diff. rewrite Ed, Hgh. cbn [bind].
    unfold SemanticDiff.new. cbn [SemanticDiff.base_revision SemanticDiff.staged_graph_hash SemanticDiff.preview_digest].
    unfold require_sha256. rewrite Hbd, Hgd, Hpd. reflexivity. }
  cbn. split_and!; [done..|]. rewrite !sorted_on_nil.
  rewrite <- (diff_graphs_nil _ _ Hvb Hvs (replay_project _ _ _ Hr)), Ed. split; [by intros (-> & -> & ->)|by intros [= -> -> ->]].
Qed.

(** ** Witnesses *)

Lemma locked_geometry_survives_witness : exists graph',
  replay_command shadowed_graph net_command = Ok graph' /\ kernel_pad "p1" 1000000 true ∈ DesignGraph.pads graph'.
Proof.
  destruct (replay_command shadowed_graph net_command) as [graph'|] eqn:E; [|vm_compute in E; discriminate].
  exists graph'. split; [done|]. apply (kp_pads _ _ (locked_geometry_survives shadowed_graph net_command graph'
    ltac:(split; vm_compute; reflexivity) E)); [by left|done].
Defined.

Lemma previews_are_exact_witness :
  (exists d, preview (kernel staged_world) "tx-1" = Ok d /\ SemanticDiff.command_ids d = ["cmd-1"; "cmd-2"]) \/
  run_collides kernel_world staged_calls.
Proof.
  destruct (previews_are_exact kernel_graph kernel_world staged_calls "tx-1" (kernel_transaction staged_world))
    as [(base & d & _ & Hp & _ & _ & Hc & _)|H].
  - apply kernel_world_started.
  - rewrite staged_run. vm_compute. reflexivity.
  - left. exists d. rewrite staged_run in Hp. split; [exact Hp|]. rewrite Hc. vm_compute. reflexivity.
  - right. exact H.
Defined.
