(* ===== verification/KernelHistory.v ===== *)
(** * What the hashes of a kernel commit to

    The hash of a revision commits to all that led to it: two kernels with the
    same head hash have the same genesis graph, the same commands in the same
    commits and the same evidence, unless SHA-256 has a collision among the
    values that they hashed.  The hash of a graph does not depend on the order
    in which its entities are listed. *)
From S2P Require Import Prelude PyDict PyStr Sha256 Json DateTime Models Geometry Board Canonical CanonicalFacts.
From S2P Require Import Effect KernelText KernelModel KernelGraph KernelCommand KernelLaws CommitAuthority Kernel.
From S2P Require Import AuthorityFacts KernelSteps KernelInv KernelRuns KernelLedger.

Local Open Scope string_scope.

(** ** Links *)

Lemma same_link_genesis r1 r2 :
  same_data (mapping (link r1)) (mapping (link r2)) -> DesignRevision.parent_revision r1 = None ->
  DesignRevision.parent_revision r2 = None /\ DesignRevision.graph_hash r1 = DesignRevision.graph_hash r2.
Proof.
  intros H E. pose proof (mapping_length _ _ H) as Hl. unfold link in *. rewrite E in *.
  destruct (DesignRevision.parent_revision r2) as [h|]; [done|]. split; [done|].
  apply mapping_same in H; [|apply (bool_decide_unpack _); vm_compute; reflexivity|done].
  repeat match goal with H : Forall2 _ (_ :: _) _ |- _ => apply Forall2_cons in H as [? H]; cbn [snd] in * end. by apply py_inj.
Qed.

Lemma same_link_commit r1 r2 h :
  same_data (mapping (link r1)) (mapping (link r2)) -> DesignRevision.parent_revision r1 = Some h ->
  DesignRevision.parent_revision r2 = Some h /\ DesignRevision.command_hashes r1 = DesignRevision.command_hashes r2 /\
  DesignRevision.verification_report_hash r1 = DesignRevision.verification_report_hash r2 /\
  DesignRevision.approval_preview_digest r1 = DesignRevision.approval_preview_digest r2.
Proof.
  intros H E. pose proof (mapping_length _ _ H) as Hl. unfold link in *. rewrite E in *.
  destruct (DesignRevision.parent_revision r2) as [h2|]; [|done].
  apply mapping_same in H; [|apply (bool_decide_unpack _); vm_compute; reflexivity|done].
  repeat match goal with H : Forall2 _ (_ :: _) _ |- _ => apply Forall2_cons in H as [? H]; cbn [snd] in * end.
  split_and!; [|by apply py_inj..]. f_equal. symmetry. by apply py_inj.
Qed.

Definition command_collision (c1 c2 : DesignCommand.t) : Prop :=
  hash_collision (py c1) "flux-clone-design-command-v1" (py c2) "flux-clone-design-command-v1".
Definition graph_collision (g1 g2 : DesignGraph.t) : Prop :=
  hash_collision (py g1) "flux-clone-design-graph-v1" (py g2) "flux-clone-design-graph-v1".

(** A collision of SHA-256 between a value of one kernel and one of the other. *)
Definition kernels_collide (k1 k2 : Kernel.t) : Prop :=
  (exists h r1 r2, Kernel.revisions k1 !! h = Some r1 /\ Kernel.revisions k2 !! h = Some r2 /\
    (revision_collision r1 r2 \/ graph_collision (DesignRevision.graph r1) (DesignRevision.graph r2))) \/
  exists t1 t2 c1 c2, staged_in k1 t1 c1 /\ staged_in k2 t2 c2 /\ command_collision c1 c2.

Lemma same_commands l1 l2 hs :
  mapM command_hash l1 = Ok hs -> mapM command_hash l2 = Ok hs ->
  l1 = l2 \/ exists c1 c2, c1 ∈ l1 /\ c2 ∈ l2 /\ command_collision c1 c2.
Proof.
  revert l2 hs. induction l1 as [|c1 l1 IH]; intros l2 hs H1 H2; rewrite mapM_Ok_Forall2 in H1, H2.
  - inversion H1; subst. inversion H2; subst. by left.
  - inversion H1 as [|? h ? hs' Hc1 Hl1]; subst. inversion H2 as [|c2 ? l2' ? Hc2 Hl2]; subst.
    destruct (same_hash_record _ _ _ _ Hc1 Hc2) as [->|E].
    + destruct (IH l2' hs') as [->|(c & c' & Hc & Hc' & E)]; [by apply mapM_Ok_Forall2..|by left|].
      right. exists c, c'. split_and!; [by right|by right|done].
    + right. exists c1, c2. split_and!; [by left|by left|done].
Qed.

Lemma revision_graph_hash r : DesignRevision.new r = Ok r -> graph_hash (DesignRevision.graph r) = Ok (DesignRevision.graph_hash r).
Proof.
  unfold DesignRevision.new. intros H. do 4 apply seq_Ok in H as [_ H]. apply bind_Ok in H as (gh & Hg & H).
  apply seq_Ok in H as [E%raise_if_Ok%negb_false_iff%bool_decide_eq_true _]. by rewrite E.
Qed.

Lemma same_graph r1 r2 :
  graph_valid (DesignRevision.graph r1) -> graph_valid (DesignRevision.graph r2) ->
  DesignRevision.new r1 = Ok r1 -> DesignRevision.new r2 = Ok r2 -> DesignRevision.graph_hash r1 = DesignRevision.graph_hash r2 ->
  DesignRevision.graph r1 = DesignRevision.graph r2 \/ graph_collision (DesignRevision.graph r1) (DesignRevision.graph r2).
Proof.
  intros V1 V2 H1%revision_graph_hash H2%revision_graph_hash E. rewrite E in H1.
  apply (graph_hash_valid _ _ V1) in H1. apply (graph_hash_valid _ _ V2) in H2. by eapply same_hash_record.
Qed.

(** Two commits with the same commands and the same evidence. *)
Definition same_commit (t1 t2 : DesignTransaction.t) : Prop :=
  DesignTransaction.commands t1 = DesignTransaction.commands t2 /\
  DesignTransaction.base_revision t1 = DesignTransaction.base_revision t2 /\
  DesignTransaction.verification_report_hash t1 = DesignTransaction.verification_report_hash t2 /\
  DesignTransaction.preview_digest t1 = DesignTransaction.preview_digest t2.

Lemma history_present k f r ts : history k f r ts -> Kernel.revisions k !! DesignRevision.revision_hash r = Some r.
Proof. by destruct 1. Qed.

Lemma same_histories k1 k2 f1 f2 r1 ts1 :
  kernel_inv k1 -> kernel_inv k2 -> DesignRevision.parent_revision f1 = None -> DesignRevision.parent_revision f2 = None ->
  history k1 f1 r1 ts1 -> forall r2 ts2, history k2 f2 r2 ts2 ->
  DesignRevision.revision_hash r1 = DesignRevision.revision_hash r2 ->
  (DesignRevision.graph f1 = DesignRevision.graph f2 /\ Forall2 same_commit ts1 ts2) \/ kernels_collide k1 k2.
Proof.
  intros K1 K2 G1 G2 H. induction H as [r R1|f p t r ts Hh IH Ht Hc R1]; intros r2 ts2 H2 Eh;
    pose proof (history_present _ _ _ _ H2) as R2;
    destruct (ki_revision _ K1 _ _ R1) as [N1 V1 L1 _ P1], (ki_revision _ K2 _ _ R2) as [N2 V2 L2 _ P2];
    (destruct (same_link _ _ L1 L2 Eh) as [E|E]; [|right; left; exists (DesignRevision.revision_hash r), r, r2; split; [exact R1|split; [rewrite Eh; exact R2|left; exact E]]]).
  - destruct (same_link_genesis _ _ E G1) as [E1 E2].
    destruct H2 as [r2 _|f2 p2 t2 r2 ts2 _ _ Hc2 _]; [|by rewrite (co_parent _ _ _ Hc2) in E1].
    destruct (same_graph _ _ V1 V2 N1 N2 E2) as [Eg|Eg]; [left; split; [done|constructor]|].
    right. left. exists (DesignRevision.revision_hash r), r, r2. split; [exact R1|split; [rewrite Eh; exact R2|right; exact Eg]].
  - destruct (same_link_commit _ _ _ E (co_parent _ _ _ Hc)) as (E1 & E2 & E3 & E4).
    destruct H2 as [r2 _|f2 p2 t2 r2 ts2 Hh2 Ht2 Hc2 _]; [congruence|]. rewrite (co_parent _ _ _ Hc2) in E1. injection E1 as Ep.
    destruct (IH G1 p2 ts2 Hh2 (eq_sym Ep)) as [[Eg Ets]|Hx]; [|by right].
    pose proof (co_hashes _ _ _ Hc) as C1. pose proof (co_hashes _ _ _ Hc2) as C2. rewrite <- E2 in C2.
    destruct (same_commands _ _ _ C1 C2) as [Ec|(c1 & c2 & I1 & I2 & Hx)].
    + left. split; [done|]. apply Forall2_app; [done|]. constructor; [|constructor]. split_and!; [done|..].
      * rewrite (co_base _ _ _ Hc), (co_base _ _ _ Hc2). done.
      * by rewrite <- (co_report _ _ _ Hc), <- (co_report _ _ _ Hc2).
      * rewrite (co_preview _ _ _ Hc), (co_preview _ _ _ Hc2) in E4. by injection E4.
    + right. right. exists t, t2, c1, c2. split; [by split|split; [by split|exact Hx]].
Qed.

(** C11. The hash of the head commits to the whole history: two kernels, however
    they were used, with the same head hash started from the same graph and
    committed the same commands, in the same order, on the same bases, with
    the same reports and previews - or SHA-256 has a collision, between two
    revisions of one run, or among the revisions, graphs and commands of the
    two. *)
Theorem head_hash_commits_to_history g1 g2 w1 w2 calls1 calls2 (H1 : started g1 w1) (H2 : started g2 w2) :
  let k1 := kernel (run calls1 w1) in
  let k2 := kernel (run calls2 w2) in
  Kernel.head k1 = Kernel.head k2 ->
  (exists f1 r1 ts1 f2 r2 ts2, head_revision k1 = Ok r1 /\ head_revision k2 = Ok r2 /\
    history k1 f1 r1 ts1 /\ history k2 f2 r2 ts2 /\
    DesignGraph.normalized g1 = Ok (DesignRevision.graph f1) /\ DesignGraph.normalized g2 = Ok (DesignRevision.graph f2) /\
    DesignRevision.graph f1 = DesignRevision.graph f2 /\ Forall2 same_commit ts1 ts2) \/
  run_collides w1 calls1 \/ run_collides w2 calls2 \/ kernels_collide k1 k2.
Proof.
  intros k1 k2 E. destruct (run_inv g1 w1 H1 calls1) as [K1|?]; [|auto]. destruct (run_inv g2 w2 H2 calls2) as [K2|?]; [|auto].
  destruct (run_genesis g1 w1 H1 calls1) as [(n1 & f1 & N1 & Eg1 & P1 & S1 & F1)|?]; [|auto].
  destruct (run_genesis g2 w2 H2 calls2) as [(n2 & f2 & N2 & Eg2 & P2 & S2 & F2)|?]; [|auto].
  fold k1 in K1, F1. fold k2 in K2, F2. destruct (ki_head _ K1) as [r1 R1], (ki_head _ K2) as [r2 R2].
  destruct (history_exists _ _ _ _ K1 R1 F1 S1) as (ts1 & Hh1 & _). destruct (history_exists _ _ _ _ K2 R2 F2 S2) as (ts2 & Hh2 & _).
  assert (DesignRevision.revision_hash r1 = DesignRevision.revision_hash r2) as Eh.
  { by rewrite (ki_hash _ K1 _ _ R1), (ki_hash _ K2 _ _ R2). }
  destruct (same_histories _ _ _ _ _ _ K1 K2 P1 P2 Hh1 _ _ Hh2 Eh) as [[Eg Ets]|Hx]; [|by auto].
  left. exists f1, r1, ts1, f2, r2, ts2. split_and!; try done; [by apply head_revision_Ok|by apply head_revision_Ok|by rewrite Eg1|by rewrite Eg2].
Qed.

(** ** The order of entities *)

(** Two graphs that list the same entities. *)
Record permuted (g1 g2 : DesignGraph.t) : Prop := {
  pm_schema : DesignGraph.schema_version g1 = DesignGraph.schema_version g2;
  pm_project : DesignGraph.project_id g1 = DesignGraph.project_id g2;
  pm_layers : DesignGraph.layers g1 ≡ₚ DesignGraph.layers g2;
  pm_outline : DesignGraph.board_outline g1 = DesignGraph.board_outline g2;
  pm_components : DesignGraph.components g1 ≡ₚ DesignGraph.components g2;
  pm_nets : DesignGraph.nets g1 ≡ₚ DesignGraph.nets g2;
  pm_placements : DesignGraph.placements g1 ≡ₚ DesignGraph.placements g2;
  pm_tracks : DesignGraph.tracks g1 ≡ₚ DesignGraph.tracks g2;
  pm_pads : DesignGraph.pads g1 ≡ₚ DesignGraph.pads g2;
  pm_holes : DesignGraph.holes g1 ≡ₚ DesignGraph.holes g2;
  pm_vias : DesignGraph.vias g1 ≡ₚ DesignGraph.vias g2;
  pm_zones : DesignGraph.zones g1 ≡ₚ DesignGraph.zones g2;
  pm_wires : DesignGraph.schematic_wires g1 ≡ₚ DesignGraph.schematic_wires g2;
  pm_junctions : DesignGraph.schematic_junctions g1 ≡ₚ DesignGraph.schematic_junctions g2;
}.

Lemma sorted_perm {A} (key : A -> string) l1 l2 :
  l1 ≡ₚ l2 -> NoDup (key <$> sorted_on key l1) -> sorted_on key l2 = sorted_on key l1.
Proof.
  intros Hp Hn. rewrite sorted_on_Permutation in Hn. symmetry. apply sorted_on_perm; [|done].
  intros x y Hx Hy. by apply (unique_by key l1).
Qed.

Lemma collection_perm {A} (normalized : A -> result A) (key : A -> string) l1 l2 l :
  l1 ≡ₚ l2 -> mapM normalized l1 = Ok l -> NoDup (key <$> sorted_on key l) ->
  exists l', mapM normalized l2 = Ok l' /\ sorted_on key l' = sorted_on key l.
Proof.
  intros Hp Hm Hn. destruct (mapM_perm _ _ _ _ Hp Hm) as (l' & Hm' & Hp'). exists l'. split; [done|]. by apply sorted_perm.
Qed.

Lemma normalized_perm g1 g2 n :
  permuted g1 g2 -> DesignGraph.normalized g1 = Ok n -> validate_graph n = Ok tt -> DesignGraph.normalized g2 = Ok n.
Proof.
  intros [] H [_ Hu]%validate_graph_header. rewrite unique_identities_Ok in Hu.
  assert (forall i label values, Validate.identities n !! i = Some (label, values) -> NoDup values) as Hi.
  { intros i label values Hi. eapply Hu, list_elem_of_lookup_2, Hi. }
  clear Hu. unfold DesignGraph.normalized in H.
  apply bind_Ok in H as (cs & E & H). apply bind_Ok in H as (ns & E0 & H). apply bind_Ok in H as (ts & E1 & H).
  apply bind_Ok in H as (ps & E2 & H). apply bind_Ok in H as (hs & E3 & H). apply bind_Ok in H as (vs & E4 & H).
  apply bind_Ok in H as (zs & E5 & H). apply bind_Ok in H as (ws & E6 & H).
  assert (forall x y, DesignGraph.new x = Ok y -> y = x) as Hnew by returns_argument. pose proof (Hnew _ _ H) as ->.
  unfold DesignGraph.normalized.
  destruct (collection_perm _ Component.component_id _ _ _ pm_components0 E (Hi 0%nat _ _ eq_refl)) as (? & -> & S0).
  destruct (collection_perm _ Net.net_id _ _ _ pm_nets0 E0 (Hi 2%nat _ _ eq_refl)) as (? & -> & S1).
  destruct (collection_perm _ Track.track_id _ _ _ pm_tracks0 E1 (Hi 5%nat _ _ eq_refl)) as (? & -> & S2).
  destruct (collection_perm _ FootprintPad.pad_id _ _ _ pm_pads0 E2 (Hi 6%nat _ _ eq_refl)) as (? & -> & S3).
  destruct (collection_perm _ FootprintHole.hole_id _ _ _ pm_holes0 E3 (Hi 7%nat _ _ eq_refl)) as (? & -> & S4).
  destruct (collection_perm _ Via.via_id _ _ _ pm_vias0 E4 (Hi 8%nat _ _ eq_refl)) as (? & -> & S5).
  destruct (collection_perm _ CopperZone.zone_id _ _ _ pm_zones0 E5 (Hi 9%nat _ _ eq_refl)) as (? & -> & S6).
  destruct (collection_perm _ SchematicWire.wire_id _ _ _ pm_wires0 E6 (Hi 10%nat _ _ eq_refl)) as (? & -> & S7).
  pose proof (sorted_perm FootprintPlacement.component_id _ _ pm_placements0 (Hi 4%nat _ _ eq_refl)) as S8.
  pose proof (sorted_perm SchematicJunction.junction_id _ _ pm_junctions0 (Hi 11%nat _ _ eq_refl)) as S9.
  assert (sorted_on id (DesignGraph.layers g2) = sorted_on id (DesignGraph.layers g1)) as S10.
  { symmetry. by apply sorted_on_perm. }
  cbn [bind]. rewrite S0, S1, S2, S3, S4, S5, S6, S7, S8, S9, S10, <- pm_schema0, <- pm_project0, <- pm_outline0. exact H.
Qed.

(** The hash of a graph does not depend on the order in which its layers
    and its entities are listed: any permutation of the collections of a graph
    has its hash. *)
Theorem graph_hash_ignores_order g1 g2 h : permuted g1 g2 -> graph_hash g1 = Ok h -> graph_hash g2 = Ok h.
Proof.
  unfold graph_hash. intros Hp (n & Hn & [Hv H]%seq_Ok)%bind_Ok. rewrite (normalized_perm _ _ _ Hp Hn Hv). cbn [bind].
  by rewrite Hv.
Qed.

(** ** Witnesses *)

(** A kernel that retried its commit has the history of the one that did not. *)
Lemma head_hash_commits_to_history_witness :
  let k1 := kernel (run committed_calls kernel_world) in
  let k2 := kernel (run (committed_calls ++ [kernel_commit]) kernel_world) in
  (exists f1 r1 ts1 f2 r2 ts2, history k1 f1 r1 ts1 /\ history k2 f2 r2 ts2 /\ Forall2 same_commit ts1 ts2) \/
  run_collides kernel_world committed_calls \/ run_collides kernel_world (committed_calls ++ [kernel_commit]) \/
  kernels_collide k1 k2.
Proof.
  destruct (head_hash_commits_to_history kernel_graph kernel_graph kernel_world kernel_world committed_calls
    (committed_calls ++ [kernel_commit])) as [(f1 & r1 & ts1 & f2 & r2 & ts2 & _ & _ & Hh1 & Hh2 & _ & _ & _ & Hs)|H].
  - apply kernel_world_started.
  - apply kernel_world_started.
  - rewrite run_app, committed_run. vm_compute. reflexivity.
  - left. exists f1, r1, ts1, f2, r2, ts2. split; [exact Hh1|split; [exact Hh2|exact Hs]].
  - right. exact H.
Defined.

Lemma graph_hash_ignores_order_witness :
  exists h, graph_hash shadowed_graph = Ok h /\ graph_hash reordered_graph = Ok h.
Proof.
  destruct (graph_hash shadowed_graph) as [h|] eqn:E; [|vm_compute in E; discriminate].
  exists h. split; [done|]. apply (graph_hash_ignores_order shadowed_graph); [|exact E].
  split; cbn; try reflexivity; constructor.
Defined.
