(* ===== verification/KernelLive.v ===== *)
(** * Approved transactions are committed

    The guards of a commit can be passed: the capability that the authority
    issues for a verified transaction commits it, as long as the clock does not
    go back and the capability has not expired. *)
From S2P Require Import Prelude PyDict PyStr Sha256 Json DateTime Models Canonical CanonicalFacts Effect KernelText.
From S2P Require Import KernelModel KernelGraph KernelCommand KernelLaws CommitAuthority Kernel AuthorityFacts.
From S2P Require Import KernelSteps KernelInv KernelRuns KernelLedger KernelHistory.

Local Open Scope string_scope.

(** ** Guards that pass *)

Lemma require_same_refl a e : is_sha256_hex a = true -> require_same a a e = Ok tt.
Proof. intros H%sha256_hex_ascii. unfold require_same. by rewrite (compare_digest_same _ H). Qed.

Lemma compare_hex a : is_sha256_hex a = true -> compare_digest a a = Ok true.
Proof. intros H%sha256_hex_ascii. by apply compare_digest_same. Qed.

Lemma require_sha256_Ok v label u : require_sha256 v label = Ok u -> is_sha256_hex v = true.
Proof. unfold require_sha256. intros H. destruct u. by apply raise_if_Ok, negb_false_iff in H. Qed.

Lemma str_forallb_substring p n s : str_forallb p s = true -> str_forallb p (String.substring 0 n s) = true.
Proof.
  revert n. induction s as [|c s IH]; intros [|n]; try done. cbn.
  rewrite !andb_true_iff. intros [? ?]. split; [done|by apply IH].
Qed.

Lemma id_of_digest_ascii d : is_sha256_hex d = true -> is_ascii_str (Authorization.id_of_digest d) = true.
Proof.
  intros H%sha256_hex_ascii. unfold Authorization.id_of_digest, is_ascii_str. rewrite str_forallb_app.
  apply andb_true_iff. split; [reflexivity|]. by apply str_forallb_substring.
Qed.

Lemma seal_is_digest secret id d p seal : Authorization.seal_of secret id d p = Ok seal -> is_sha256_hex seal = true.
Proof. intros (text & _ & [= <-])%bind_Ok. apply hmac_sha256_hex_is_digest. Qed.

Lemma observe_now_live clock s now :
  normalize_time clock "commit authority current time" = Ok now -> AuthorityState.clock_poisoned s = false ->
  (forall t, AuthorityState.last_observed_at s = Some t -> (instant t <= instant now)%Z) ->
  observe_now clock s = (at_time now s, Ok now).
Proof.
  intros Hn Hp Hl. unfold observe_now. rewrite run_get, Hp, run_lift, Hn. cbn [catch].
  assert (match AuthorityState.last_observed_at s with Some previous => dt_lt now previous | None => false end = false) as ->.
  { destruct (AuthorityState.last_observed_at s) as [t|]; [|done]. specialize (Hl t eq_refl). unfold dt_lt. lia. }
  by rewrite run_modify.
Qed.

(** ** What [issue] issues *)

Record issued_for (s : AuthorityState.t) (subject : commit_subject) (ap : ReleaseApproval.t) (nonce : string)
    (now : datetime) (a : Authorization.t) : Prop := {
  is_new : Authorization.new a = Ok a;
  is_sealed : sealed (AuthorityState.secret s) a;
  is_fields : exists cd expiry, unsealed a = draft_authorization (AuthorityState.key_id s) subject ap cd now expiry nonce;
  is_subject : release_subject (cs_base_revision subject) (cs_preview_digest subject)
    (Some (ReleaseApproval.verification_report_hash ap)) = Ok (ReleaseApproval.subject_digest ap);
  is_preview : ReleaseApproval.verified_preview_digest ap = cs_preview_digest subject;
  is_expiry : forall e, ReleaseApproval.expires_at ap = Some e -> (instant (Authorization.expires_at a) <= instant e)%Z;
}.

Lemma unsealed_draft d id digest seal :
  unsealed (((d <| Authorization.authorization_id := id |>) <| Authorization.authorization_digest := digest |>)
    <| Authorization.seal := seal |>) = unsealed d.
Proof. by destruct d. Qed.

Lemma expires_of_unsealed a d : unsealed a = d -> Authorization.expires_at a = Authorization.expires_at d.
Proof. intros <-. by destruct a. Qed.

Lemma authorize_issued s subject ap lifetime nonce now a :
  authorize s subject ap lifetime nonce now = Ok a -> issued_for s subject ap nonce now a.
Proof.
  intros H. pose proof (authorize_sealed _ _ _ _ _ _ _ H) as [Hsealed _]. unfold authorize in H.
  apply bind_Ok in H as (es & Hes & H). apply seq_Ok in H as [Es%require_same_Ok H].
  apply seq_Ok in H as [Ep%require_same_Ok H]. apply seq_Ok in H as [_ H].
  apply bind_Ok in H as (e0 & _ & H). cbv zeta in H. apply bind_Ok in H as (cd & _ & H). apply seq_Ok in H as [_ H].
  apply bind_Ok in H as (p & _ & H). apply bind_Ok in H as (d & _ & H). apply bind_Ok in H as (seal & _ & H).
  match type of H with context [draft_authorization _ _ _ _ _ ?e _] => set (expiry := e) in H end.
  assert (exists d, unsealed a = unsealed d /\ d = draft_authorization (AuthorityState.key_id s) subject ap cd now expiry nonce)
    as (draft & Eu & Ed).
  { eexists. split; [|reflexivity]. destruct (authorization_new_Ok _ _ H) as [-> _]. apply unsealed_draft. }
  assert (unsealed a = draft) as Ea by (rewrite Eu, Ed; reflexivity).
  split; try done.
  - destruct (authorization_new_Ok _ _ H) as [E _]. by rewrite <- E in H.
  - exists cd, expiry. by rewrite Ea.
  - by rewrite Es.
  - intros e He. rewrite (expires_of_unsealed _ _ Ea), Ed. change (instant expiry <= instant e)%Z. unfold expiry. rewrite He.
    destruct (dt_lt e e0) eqn:E; [done|]. unfold dt_lt in E. lia.
Qed.

(** Every field of the draft is a field of the capability. *)
Ltac of_draft E := lazymatch goal with |- ?f ?a = ?b => change (f (unsealed a) = b); rewrite E; try reflexivity end.

Lemma new_values a : Authorization.new a = Ok a -> Authorization.validate_values a = Ok tt.
Proof. unfold Authorization.new. by intros [H _]%seq_Ok. Qed.

Lemma values_hex a v : Authorization.new a = Ok a -> v ∈ (Authorization.digests a).*1 -> is_sha256_hex v = true.
Proof.
  intros H%new_values ([v' label] & -> & Hin)%list_elem_of_fmap. unfold Authorization.validate_values in H.
  do 3 apply seq_Ok in H as [_ H]. apply seq_Ok in H as [H _].
  rewrite forM_Ok, Forall_forall in H. specialize (H _ Hin). by apply require_sha256_Ok in H.
Qed.
(** A digest of the capability is one. *)
Ltac hex_of H := apply (values_hex _ _ H); cbn [Authorization.digests fmap list_fmap fst]; set_solver.

Lemma approval_values ap :
  ReleaseApproval.new ap = Ok ap ->
  ReleaseApproval.kind ap = "release" /\ is_sha256_hex (ReleaseApproval.subject_digest ap) = true /\
  is_sha256_hex (ReleaseApproval.approval_digest ap) = true /\
  is_sha256_hex (ReleaseApproval.verification_report_hash ap) = true /\
  is_sha256_hex (ReleaseApproval.verified_preview_digest ap) = true /\ ReleaseApproval.commit_gate_passed ap = true.
Proof.
  unfold ReleaseApproval.new. intros H. do 3 apply seq_Ok in H as [_ H].
  apply seq_Ok in H as [H1%raise_if_Ok%negb_false_iff%bool_decide_eq_true H].
  apply seq_Ok in H as [H2%require_sha256_Ok H]. apply seq_Ok in H as [H3%require_sha256_Ok H].
  do 3 apply seq_Ok in H as [_ H]. apply seq_Ok in H as [H4%require_sha256_Ok H].
  apply seq_Ok in H as [H5%require_sha256_Ok H]. apply seq_Ok in H as [H6%raise_if_Ok%negb_false_iff _]. done.
Qed.

Lemma same_instant_refl t : same_instant t t = true.
Proof. apply Z.eqb_refl. Qed.
Lemma same_instant_opt_refl t : same_instant_opt t t = true.
Proof. destruct t; [apply same_instant_refl|done]. Qed.

(** A capability that repeats its approval, with the same times. *)
Record mirrors (a : Authorization.t) (ap : ReleaseApproval.t) : Prop := {
  mr_decided : Authorization.human_approval_decided_at a = ReleaseApproval.decided_at ap;
  mr_expires : Authorization.human_approval_expires_at a = ReleaseApproval.expires_at ap;
}.

Lemma match_registered_live a ap now :
  repeats a ap now -> mirrors a ap -> ReleaseApproval.new ap = Ok ap -> match_registered_approval a ap ap now = Ok tt.
Proof.
  intros [R1 R2 R3 R4 R5 R6 R7 R8 R9 R10] [Ed Ee] (Hk & H2 & H3 & H4 & H5 & H6)%approval_values.
  unfold match_registered_approval. rewrite R1, R2, R3, R4, R5, R6, R7, R8, R9, Ed, Ee, Hk, H6.
  rewrite (compare_hex _ H2), (compare_hex _ H3), (compare_hex _ H4), (compare_hex _ H5).
  rewrite same_instant_refl, same_instant_opt_refl, !bool_decide_eq_true_2 by done. cbn [bind forallb id andb negb raise_if Bool.eqb].
  destruct (ReleaseApproval.expires_at ap) as [e|] eqn:E; [|done]. destruct (R10 e eq_refl).
  cbn [if_some]. unfold dt_le, dt_lt. rewrite (proj2 (Z.leb_gt _ _)), (proj2 (Z.ltb_ge _ _)) by lia. done.
Qed.

Lemma verify_locked_live s a now ap :
  trusted s a now ap -> mirrors a ap -> Authorization.new a = Ok a -> ReleaseApproval.new ap = Ok ap -> utc now ->
  (forall d, AuthorityState.consumed s !! Authorization.nonce a = Some d -> is_sha256_hex d = true) ->
  verify_locked s a now =
    Ok (VerifiedClaims.mk a ap now (AuthorityState.consumed s !! Authorization.nonce a) (AuthorityState.token s)).
Proof.
  intros [H1 H2 H3 [Hd Hi (p & Hp & Hs)] Ht Hiss Hap Hrep] Hm Hnew Hapn Hutc Hc. unfold verify_locked.
  assert (is_sha256_hex (Authorization.authorization_digest a) = true) as Hx by hex_of Hnew.
  assert (is_sha256_hex (Authorization.seal a) = true) as Hy by by eapply seal_is_digest.
  assert (forall e, require_same (Authorization.id_of_digest (Authorization.authorization_digest a))
    (Authorization.authorization_id a) e = Ok tt) as Hid.
  { intros e. unfold require_same. rewrite Hi. by rewrite (compare_digest_same _ (id_of_digest_ascii _ Hx)). }
  rewrite H1, H2, H3, !bool_decide_eq_true_2 by done. cbn [negb orb raise_if bind].
  rewrite Hp. unfold Authorization.digest_of in Hd. rewrite Hp in Hd. cbn [bind] in Hd |- *. rewrite Hd. cbn [bind].
  rewrite (require_same_refl _ _ Hx). cbn [bind]. rewrite Hid. cbn [bind]. rewrite Hs. cbn [bind].
  rewrite (require_same_refl _ _ Hy). cbn [bind]. unfold dt_lt, dt_le.
  rewrite (proj2 (Z.ltb_ge _ _)), (proj2 (Z.leb_gt _ _)) by lia. cbn [raise_if bind]. rewrite Hiss, Hap.
  rewrite bool_decide_eq_true_2 by done. cbn [negb raise_if bind].
  rewrite match_registered_live by done. cbn [bind]. rewrite Hapn. cbn [bind]. unfold VerifiedClaims.new.
  cbn [VerifiedClaims.verified_at VerifiedClaims.previously_consumed]. rewrite (utc_checked _ _ Hutc). cbn [bind].
  destruct (AuthorityState.consumed s !! Authorization.nonce a) as [d|] eqn:E; [|done].
  cbn [if_some]. unfold require_sha256. by rewrite (Hc d eq_refl).
Qed.

Lemma values_commands a :
  Authorization.new a = Ok a -> command_hashes_digest_of (Authorization.command_hashes a) = Ok (Authorization.command_hashes_digest a).
Proof.
  intros H%new_values. unfold Authorization.validate_values in H. do 5 apply seq_Ok in H as [_ H].
  apply bind_Ok in H as (decided & _ & H). apply seq_Ok in H as [_ H]. apply bind_Ok in H as (i & _ & H).
  apply bind_Ok in H as (e & _ & H). apply seq_Ok in H as [_ H]. apply bind_Ok in H as (cd & Hc & <-%require_same_Ok). done.
Qed.

Lemma match_commit_live t a ap now prev token :
  binds t a -> repeats a ap now -> mirrors a ap -> Authorization.verified_preview_digest a = DesignTransaction.preview_digest t ->
  Authorization.new a = Ok a -> ReleaseApproval.new ap = Ok ap ->
  match_commit_authorization t (VerifiedClaims.mk a ap now prev token) = Ok tt.
Proof.
  intros [B1 B2 B3 B4 B5 B6 B7 B8 B9 B10 B11] [R1 R2 R3 R4 R5 R6 R7 R8 R9 R10] [Ed Ee] Ev Hnew Hap.
  pose proof (approval_values _ Hap) as (Hk & _ & A3 & A4 & A5 & A6).
  assert (is_sha256_hex (Authorization.command_hashes_digest a) = true) as X1 by hex_of Hnew.
  assert (is_sha256_hex (Authorization.preview_digest a) = true) as X2 by hex_of Hnew.
  assert (is_sha256_hex (Authorization.prospective_graph_sha256 a) = true) as X3 by hex_of Hnew.
  assert (is_sha256_hex (Authorization.verification_report_hash a) = true) as X4 by hex_of Hnew.
  assert (is_sha256_hex (Authorization.release_subject_digest a) = true) as X6 by hex_of Hnew.
  assert (is_sha256_hex (Authorization.human_approval_digest a) = true) as X7 by hex_of Hnew.
  unfold match_commit_authorization. cbn [VerifiedClaims.claims VerifiedClaims.release_approval]. rewrite B5. cbn [bind].
  rewrite (values_commands _ Hnew). cbn [bind]. rewrite B10. cbn [bind]. rewrite (compare_hex _ X1). cbn [bind].
  rewrite B6 in X2 |- *. rewrite (compare_hex _ X2). cbn [bind]. rewrite B7. cbn [bind]. rewrite (compare_hex _ X3). cbn [bind].
  rewrite B8, (compare_hex _ X4). cbn [bind]. rewrite B9, Ev, (compare_hex _ X2). cbn [bind andM].
  rewrite (compare_hex _ X6). cbn [bind]. rewrite <- R4, (compare_hex _ X7). cbn [bind].
  rewrite B1, B2, B3, B4, R1, R2, R3, R5, R9, B11, Ed, Ee, Hk, A6, same_instant_refl, same_instant_opt_refl,
    !bool_decide_eq_true_2 by done.
  apply raise_first_Ok. rewrite Forall_fmap. repeat apply Forall_cons_2; try apply Forall_nil_2; reflexivity.
Qed.

(** ** The revision *)

Lemma command_hashes_hex hs cd :
  command_hashes_digest_of hs = Ok cd -> hs <> [] /\ Forall (fun h => is_sha256_hex h = true) hs.
Proof.
  unfold command_hashes_digest_of. intros [H1%raise_if_Ok%bool_decide_eq_false [H2 _]%seq_Ok]%seq_Ok. split; [done|].
  rewrite forM_Ok in H2. eapply Forall_impl; [exact H2|]. cbn. intros h. apply require_sha256_Ok.
Qed.

Lemma hex_list_ok hs label : Forall (fun h => is_sha256_hex h = true) hs -> forM_ (fun h => require_sha256 h label) hs = Ok tt.
Proof. intros H. apply forM_Ok. eapply Forall_impl; [exact H|]. intros h Hh. unfold require_sha256. by rewrite Hh. Qed.

Lemma revision_sequence r : DesignRevision.new r = Ok r -> (0 <= DesignRevision.sequence r)%Z.
Proof. unfold DesignRevision.new. intros H. do 2 apply seq_Ok in H as [_ H]. apply seq_Ok in H as [H%raise_if_Ok _]. lia. Qed.
Lemma revision_hex r : DesignRevision.new r = Ok r -> is_sha256_hex (DesignRevision.revision_hash r) = true.
Proof. unfold DesignRevision.new. by intros [H%require_sha256_Ok _]%seq_Ok. Qed.

Lemma next_revision_live parent t a :
  DesignRevision.new parent = Ok parent -> binds t a -> Authorization.new a = Ok a ->
  graph_valid (DesignTransaction.staged_graph t) -> exists r, next_revision parent t a = Ok r.
Proof.
  intros Hp Hb Ha Hg. destruct (command_hashes_hex _ _ (values_commands _ Ha)) as [Hne Hhs].
  assert (is_sha256_hex (Authorization.preview_digest a) = true) as X1 by hex_of Ha.
  assert (is_sha256_hex (Authorization.verification_report_hash a) = true) as X2 by hex_of Ha.
  assert (is_sha256_hex (Authorization.prospective_graph_sha256 a) = true) as X3 by hex_of Ha.
  pose proof (revision_sequence _ Hp) as Hseq. pose proof (revision_hex _ Hp) as Hhex.
  unfold next_revision. rewrite (bd_commands _ _ Hb). cbn [bind]. rewrite (proj1 Hg). cbn [bind].
  rewrite (bd_graph _ _ Hb). cbn [bind].
  match goal with |- context [stable_hash ?v ?d] => destruct (hash_total v d) as [h Hh] end.
  - match goal with |- canonical_value ?v => change v with (mapping [("parent", py (DesignRevision.revision_hash parent));
      ("sequence", py (DesignRevision.sequence parent + 1)%Z); ("graph_hash", py (Authorization.prospective_graph_sha256 a));
      ("commands", py (Authorization.command_hashes a));
      ("verification_report_hash", py (DesignTransaction.verification_report_hash t));
      ("approval_preview_digest", py (Authorization.preview_digest a))]) end.
    apply mapping_canonical.
    + apply (bool_decide_unpack _). vm_compute. reflexivity.
    + repeat constructor; simpl; apply py_canonical.
  - done.
  - done.
  - rewrite Hh. cbn [bind]. eexists. unfold DesignRevision.new.
    cbn [DesignRevision.revision_hash DesignRevision.parent_revision DesignRevision.sequence DesignRevision.graph_hash
      DesignRevision.graph DesignRevision.command_hashes DesignRevision.verification_report_hash
      DesignRevision.approval_preview_digest if_some].
    rewrite (bd_report _ _ Hb), (bd_graph _ _ Hb), (hex_list_ok _ _ Hhs). unfold require_sha256. cbn [if_some].
    rewrite (hash_is_digest _ _ _ Hh), Hhex, X1, X2, X3. cbn [negb raise_if bind if_some].
    rewrite (proj2 (Z.ltb_ge _ _)) by lia. rewrite (proj2 (Z.eqb_neq _ 0)) by lia.
    rewrite bool_decide_eq_true_2 by done. rewrite !bool_decide_eq_false_2 by done. reflexivity.
Qed.

Lemma prepare_commit_live k t a ap now token parent :
  kernel_inv k -> present k t -> DesignTransaction.state t = TransactionState.VERIFIED ->
  DesignTransaction.base_revision t = Kernel.head k -> Kernel.revisions k !! Kernel.head k = Some parent ->
  DesignRevision.graph_hash parent <> Authorization.prospective_graph_sha256 a ->
  binds t a -> repeats a ap now -> mirrors a ap -> Authorization.verified_preview_digest a = DesignTransaction.preview_digest t ->
  Authorization.new a = Ok a -> ReleaseApproval.new ap = Ok ap ->
  exists r, prepare_commit k t (VerifiedClaims.mk a ap now None token) = Ok r.
Proof.
  intros Hk Ht Hs Hbase Hp Hchange Hb Hr Hm Hv Ha Hap.
  destruct (next_revision_live parent t a) as [r Hn]; [by eapply ri_new, ki_revision|done|done|by eapply staged_valid|].
  exists r. unfold prepare_commit. cbn [VerifiedClaims.previously_consumed VerifiedClaims.claims].
  rewrite bool_decide_eq_false_2 by (by intros [? ?]). rewrite Hbase, Hs, (bd_gate _ _ Hb), !bool_decide_eq_true_2 by done.
  cbn [negb orb raise_if bind]. rewrite (match_commit_live _ _ _ _ _ _ Hb Hr Hm Hv Ha Hap). cbn [bind].
  rewrite (proj2 (head_revision_Ok _ _) Hp). cbn [bind]. rewrite (bd_graph _ _ Hb). cbn [bind].
  destruct (command_hashes_hex _ _ (values_commands _ Ha)) as [Hne _]. rewrite bool_decide_eq_false_2; [|].
  - rewrite bool_decide_eq_false_2 by congruence. exact Hn.
  - intros E. pose proof (bd_commands _ _ Hb) as Hc. unfold transaction_command_hashes in Hc. rewrite E in Hc.
    injection Hc as Hc. by rewrite <- Hc in Hne.
Qed.

(** ** The capability *)

Lemma verify_live s a ap clock now :
  trusted s a now ap -> mirrors a ap -> Authorization.new a = Ok a -> ReleaseApproval.new ap = Ok ap ->
  AuthorityState.consumed s !! Authorization.nonce a = None ->
  normalize_time clock "commit authority current time" = Ok now -> reads s now ->
  verify a clock s = (at_time now s, Ok (VerifiedClaims.mk a ap now None (AuthorityState.token s))).
Proof.
  intros Ht Hm Ha Hap Hc Hn Hr. unfold verify.
  assert (Authorization.snapshot a = Ok a) as Hs.
  { unfold Authorization.snapshot. by rewrite (new_values _ Ha). }
  rewrite run_lift, Hs, run_bind, (observe_now_live clock s now Hn) by apply Hr. cbn [fst snd]. rewrite run_get.
  unfold lift. f_equal. rewrite <- Hc. rewrite (verify_locked_clock s) by by apply reads_observed.
  apply verify_locked_live; try done; [apply Hr|]. by rewrite Hc.
Qed.

Lemma consume_live s a ap prev clock now verified_at :
  trusted s a now ap -> mirrors a ap -> Authorization.new a = Ok a -> ReleaseApproval.new ap = Ok ap ->
  AuthorityState.consumed s !! Authorization.nonce a = None ->
  normalize_time clock "commit authority current time" = Ok now -> reads s now ->
  consume (VerifiedClaims.mk a ap verified_at prev (AuthorityState.token s)) clock s =
    (consumed_by a (at_time now s), Ok (ConsumedAuthorization.mk a ap now)).
Proof.
  intros Ht Hm Ha Hap Hc Hn Hr. unfold consume. rewrite run_get. cbn [VerifiedClaims.authority_token VerifiedClaims.claims].
  rewrite Z.eqb_refl. cbn [negb]. rewrite run_bind.
  match goal with |- context [rethrow (rethrow ?m _ _) _ _ s] => assert (m s =
    (at_time now s, Ok (VerifiedClaims.mk a ap now None (AuthorityState.token s)))) as E end.
  { rewrite run_bind, (observe_now_live clock s now Hn) by apply Hr. cbn [fst snd]. rewrite run_get.
    unfold lift. f_equal. rewrite <- Hc. rewrite (verify_locked_clock s) by by apply reads_observed.
    apply verify_locked_live; try done; [apply Hr|]. by rewrite Hc. }
  unfold rethrow. rewrite E. cbn [fst snd VerifiedClaims.previously_consumed VerifiedClaims.claims
    VerifiedClaims.release_approval VerifiedClaims.verified_at].
  rewrite bool_decide_eq_false_2 by (by intros [? ?]). rewrite run_modify, Hap. cbn [bind]. unfold ConsumedAuthorization.new, lift.
  cbn [ConsumedAuthorization.consumed_at]. rewrite utc_checked by apply Hr. done.
Qed.

Lemma trusted_later s a ap now now' :
  trusted s a now ap -> (instant now <= instant now' < instant (Authorization.expires_at a))%Z -> trusted s a now' ap.
Proof.
  intros [H1 H2 H3 H4 H5 H6 H7 [R1 R2 R3 R4 R5 R6 R7 R8 R9 R10]] Ht. split; try done; [lia|].
  split; try done. intros e He. destruct (R10 e He). lia.
Qed.

Lemma authority_runs {A} (m : auth A) w :
  on_authority m w = (w <| authority := (m (authority w)).1 |>, (m (authority w)).2).
Proof. unfold on_authority. by rewrite run_zoom. Qed.
Lemma kernel_runs {A} (m : kern A) w : on_kernel m w = (w <| kernel := (m (kernel w)).1 |>, (m (kernel w)).2).
Proof. unfold on_kernel. by rewrite run_zoom. Qed.

Lemma commit_live w id t a ap clock clock' now now' parent :
  kernel_inv (kernel w) -> Kernel.transactions (kernel w) !! id = Some t -> Kernel.commit_verifier (kernel w) = true ->
  DesignTransaction.state t = TransactionState.VERIFIED -> DesignTransaction.base_revision t = Kernel.head (kernel w) ->
  Kernel.revisions (kernel w) !! Kernel.head (kernel w) = Some parent ->
  DesignRevision.graph_hash parent <> Authorization.prospective_graph_sha256 a ->
  binds t a -> trusted (authority w) a now ap -> mirrors a ap ->
  Authorization.verified_preview_digest a = DesignTransaction.preview_digest t ->
  Authorization.new a = Ok a -> ReleaseApproval.new ap = Ok ap ->
  AuthorityState.consumed (authority w) !! Authorization.nonce a = None ->
  normalize_time clock "commit authority current time" = Ok now -> reads (authority w) now ->
  normalize_time clock' "commit authority current time" = Ok now' ->
  (instant now <= instant now' < instant (Authorization.expires_at a))%Z ->
  exists w' r, commit id a clock clock' w = (w', Ok r) /\ next_revision parent t a = Ok r /\
    kernel w' = published (kernel w) t r (ConsumedAuthorization.mk a ap now').
Proof.
  intros Hk Ht Hver Hs Hbase Hp Hchange Hb Htr Hm Hv Ha Hap Hc Hn Hr Hn' Hnow.
  destruct (kernel_inv_kept _ Hk _ _ Ht) as [Hid Hwf]. assert (present (kernel w) t) as Hpres by (unfold present; by rewrite Hid).
  destruct (prepare_commit_live _ _ _ _ now (AuthorityState.token (authority w)) _ Hk Hpres Hs Hbase Hp Hchange Hb
    (tr_repeats _ _ _ _ Htr) Hm Hv Ha Hap) as [r Hprep].
  unfold commit. rewrite run_get. cbv zeta. rewrite run_lift, (proj2 (get_transaction_Ok _ _ _) Ht), Hver. cbn [negb].
  rewrite run_bind, (authority_runs (verify a clock)), (verify_live _ _ _ _ _ Htr Hm Ha Hap Hc Hn Hr).
  cbn [fst snd VerifiedClaims.claims]. rewrite bool_decide_eq_false_2 by congruence. rewrite run_lift, Hprep, run_bind.
  rewrite (authority_runs (consume _ _)).
  change (authority (w <| authority := at_time now (authority w) |>)) with (at_time now (authority w)).
  change (AuthorityState.token (authority w)) with (AuthorityState.token (at_time now (authority w))).
  assert (trusted (at_time now (authority w)) a now' ap) as Htr'.
  { apply (trusted_observed (authority w)); [by apply reads_observed|]. by apply (trusted_later _ _ _ now). }
  assert (reads (at_time now (authority w)) now') as Hr'.
  { destruct Hr as (Hp1 & _ & _). split_and!; [done|by eapply normalize_time_Ok|]. intros u [= <-]. lia. }
  rewrite (consume_live _ a ap _ clock' now' _ Htr' Hm Ha Hap Hc Hn' Hr'). cbn [fst snd].
  destruct (prepare_commit_Ok _ _ _ _ Hprep) as (_ & _ & _ & _ & _ & parent' & Hp' & Hnext).
  rewrite Hp in Hp'. injection Hp' as <-.
  destruct (next_revision_Ok _ _ _ _ Hnext) as [_ Hhex]. pose proof (committed_new _ _ Hwf Hs Hhex) as Hcom.
  unfold committed in Hcom. rewrite run_bind, kernel_runs, run_modify, run_lift, Hcom, <- Hid. cbn [fst snd].
  eexists _, r. by split_and!.
Qed.

(** ** From the issuer to the commit *)

Lemma next_revision_graph parent t a r :
  graph_valid (DesignTransaction.staged_graph t) -> next_revision parent t a = Ok r ->
  DesignRevision.graph r = DesignTransaction.staged_graph t.
Proof.
  intros [Hg _] H. unfold next_revision in H. apply bind_Ok in H as (hs & _ & H). rewrite Hg in H. cbn [bind] in H.
  apply bind_Ok in H as (gh & _ & H). apply bind_Ok in H as (h & _ & H). by rewrite (revision_new_Ok _ _ H).
Qed.

(** The subject of a commit of [t]. *)
Definition subject_of (t : DesignTransaction.t) (hs : list string) (gh : string) : commit_subject :=
  CommitSubject (DesignGraph.project_id (DesignTransaction.staged_graph t)) (DesignTransaction.base_revision t)
    (DesignTransaction.base_revision t) (DesignTransaction.transaction_id t) hs (DesignTransaction.preview_digest t) gh.

Lemma issued_binds s t hs gh ap nonce now a :
  issued_for s (subject_of t hs gh) ap nonce now a -> transaction_wf t -> DesignTransaction.state t = TransactionState.VERIFIED ->
  transaction_command_hashes t = Ok hs -> graph_hash (DesignTransaction.staged_graph t) = Ok gh ->
  DesignTransaction.verification_report_hash t = Some (ReleaseApproval.verification_report_hash ap) ->
  binds t a /\ Authorization.verified_preview_digest a = DesignTransaction.preview_digest t.
Proof.
  intros [_ _ (cd & expiry & E) Hsub Hprev _] Hwf Hs Hhs Hgh Hrep. destruct (wf_verified _ Hwf Hs) as (Hgate & _ & Hvp).
  cbn [subject_of cs_preview_digest cs_base_revision] in *.
  split; [|of_draft E; exact Hprev].
  split; try (of_draft E); try done.
  - rewrite Hhs. f_equal. symmetry. by of_draft E.
  - rewrite Hgh. f_equal. symmetry. by of_draft E.
  - rewrite Hrep. f_equal. symmetry. by of_draft E.
  - rewrite Hrep, Hsub. f_equal. symmetry. by of_draft E.
Qed.

Lemma issued_mirrors s subject ap nonce now a : issued_for s subject ap nonce now a -> mirrors a ap.
Proof. intros [_ _ (cd & expiry & E) _ _ _]. split; by of_draft E. Qed.

Lemma issued_repeats s subject ap nonce now a now' :
  issued_for s subject ap nonce now a -> ReleaseApproval.new ap = Ok ap ->
  (instant now' < instant (Authorization.expires_at a))%Z -> repeats a ap now'.
Proof.
  intros [_ _ (cd & expiry & E) _ _ He] (Hk & _ & _ & _ & _ & Hg)%approval_values Hn.
  split; try (of_draft E); try done. intros e Hx. specialize (He e Hx). lia.
Qed.

Lemma issued_trusted s subject ap nonce now a now' :
  issued_for s subject ap nonce now a -> ReleaseApproval.new ap = Ok ap ->
  AuthorityState.approvals s !! ReleaseApproval.approval_id ap = Some ap ->
  (instant (Authorization.issued_at a) <= instant now' < instant (Authorization.expires_at a))%Z ->
  trusted (issued_as (Authorization.authorization_digest a) ap (at_time now s)) a now' ap.
Proof.
  intros Hi Hap Hreg Ht. pose proof (issued_repeats _ _ _ _ _ _ now' Hi Hap (proj2 Ht)) as Hr.
  destruct Hi as [_ Hsealed (cd & expiry & E) _ _ _]. split; try done; try by of_draft E.
  apply lookup_insert_eq.
Qed.

Lemma changed_graph_hash k base t gh :
  kernel_inv k -> Kernel.revisions k !! Kernel.head k = Some base -> present k t ->
  DesignTransaction.staged_graph t <> DesignRevision.graph base -> graph_hash (DesignTransaction.staged_graph t) = Ok gh ->
  DesignRevision.graph_hash base <> gh \/ graph_collision (DesignTransaction.staged_graph t) (DesignRevision.graph base).
Proof.
  intros Hk Hb Ht Hne Hgh. destruct (decide (DesignRevision.graph_hash base = gh)) as [<-|]; [right|by left].
  destruct (ki_revision k Hk _ _ Hb) as [Hn Hv _ _ _]. pose proof (revision_graph_hash _ Hn) as Hbh.
  apply (graph_hash_valid _ _ Hv) in Hbh. apply (graph_hash_valid _ _ (staged_valid _ _ Hk Ht)) in Hgh.
  by destruct (same_hash_record _ _ _ _ Hgh Hbh) as [E|E].
Qed.

(** C9. An approved transaction is committed: when the authority issues a
    capability for a verified transaction on the current head that changes the
    graph, under an approval of its report, and the nonce is new, then the
    commit under that capability returns, publishes the revision and moves the
    head to it, at every moment before the capability expires at which the
    clock has not gone back - or SHA-256 has a collision. *)
Theorem issued_capability_commits g w0 calls id t base hs gh approval_id ap lifetime nonce a w1 clock clock1 clock2 now1 now2
    (Hstart : started g w0) :
  let w := run calls w0 in
  let k := kernel w in
  let subject := subject_of t hs gh in
  Kernel.transactions k !! id = Some t -> DesignTransaction.state t = TransactionState.VERIFIED ->
  DesignTransaction.base_revision t = Kernel.head k -> head_revision k = Ok base -> Kernel.commit_verifier k = true ->
  DesignTransaction.staged_graph t <> DesignRevision.graph base ->
  transaction_command_hashes t = Ok hs -> graph_hash (DesignTransaction.staged_graph t) = Ok gh ->
  AuthorityState.approvals (authority w) !! approval_id = Some ap ->
  DesignTransaction.verification_report_hash t = Some (ReleaseApproval.verification_report_hash ap) ->
  AuthorityState.consumed (authority w) !! nonce = None ->
  on_authority (issue subject approval_id lifetime nonce clock) w = (w1, Ok a) ->
  normalize_time clock1 "commit authority current time" = Ok now1 ->
  normalize_time clock2 "commit authority current time" = Ok now2 ->
  (instant (Authorization.issued_at a) <= instant now1 <= instant now2)%Z /\
  (instant now2 < instant (Authorization.expires_at a))%Z ->
  (exists w2 r, commit id a clock1 clock2 w1 = (w2, Ok r) /\ head_revision (kernel w2) = Ok r /\
    DesignRevision.graph r = DesignTransaction.staged_graph t) \/
  run_collides w0 calls \/ graph_collision (DesignTransaction.staged_graph t) (DesignRevision.graph base).
Proof.
  intros w k subject Ht Hs Hbase Hhead Hver Hne Hhs Hgh Hap Hrep Hnonce Hissue Hn1 Hn2 Htime.
  destruct (run_inv g w0 Hstart calls) as [Hk|?]; [|by right; left]. fold w in Hk. fold k in Hk.
  assert (present k t) as Hpres by (unfold present; by rewrite (ki_id k Hk _ _ Ht)). apply head_revision_Ok in Hhead.
  destruct (changed_graph_hash _ _ _ _ Hk Hhead Hpres Hne Hgh) as [Hchange|?]; [|by right; right]. left.
  rewrite authority_runs in Hissue. destruct (issue _ _ _ _ _ (authority w)) as [s1 ra] eqn:Ei. cbn [fst snd] in Hissue.
  injection Hissue as <- ->. destruct (issue_effect _ _ _ _ _ _ _ _ Ei) as [[[e ?] _]|(now & ap' & a' & Hreads & [= <-] & _ & Hap' & Hnew
    & Hau & _ & ->)]; [done|]. rewrite Hap in Hap'. injection Hap' as <-. apply authorize_issued in Hau.
  destruct (kernel_inv_kept _ Hk _ _ Ht) as [_ Hwf%transaction_new_wf].
  destruct (issued_binds _ _ _ _ _ _ _ _ Hau Hwf Hs Hhs Hgh Hrep) as [Hb Hv].
  assert (Authorization.nonce a = nonce) as En by (destruct (is_fields _ _ _ _ _ _ Hau) as (cd & expiry & E); by of_draft E).
  assert (Authorization.issued_at a = now) as Eis by (destruct (is_fields _ _ _ _ _ _ Hau) as (cd & expiry & E); by of_draft E).
  pose proof (li_approval _ (run_ledger g w0 Hstart calls) _ _ Hap) as (<- & _).
  set (w1 := w <| authority := _ |>).
  destruct (commit_live w1 id t a ap clock1 clock2 now1 now2 base) as (w2 & r & Hc & Hr & Ek); try done.
  - pose proof (bd_graph _ _ Hb). congruence.
  - eapply issued_trusted; [done..|lia].
  - by eapply issued_mirrors.
  - by eapply is_new.
  - by rewrite En.
  - destruct Hreads as [Hp _]. split_and!; [done|by eapply normalize_time_Ok|]. intros u [= <-]. rewrite <- Eis. lia.
  - lia.
  - exists w2, r. split_and!; [done| |by eapply next_revision_graph; [eapply staged_valid|]].
    apply head_revision_Ok. rewrite Ek. apply lookup_insert_eq.
Qed.

(** ** Witness *)

Lemma issued_capability_commits_witness :
  (exists w2 r, commit "tx-1" kernel_authorization (kernel_clock 1) (kernel_clock 2) approved_world = (w2, Ok r) /\
    head_revision (kernel w2) = Ok r) \/
  run_collides kernel_world registered_calls \/
  graph_collision (DesignTransaction.staged_graph (kernel_transaction staged_world)) (DesignRevision.graph genesis_revision).
Proof.
  destruct (issued_capability_commits kernel_graph kernel_world registered_calls "tx-1" (kernel_transaction staged_world)
    genesis_revision (cs_command_hashes kernel_subject) (cs_prospective_graph_sha256 kernel_subject) "ap-1" kernel_approval
    30000000 kernel_nonce kernel_authorization approved_world (kernel_clock 0) (kernel_clock 1) (kernel_clock 2)
    (kernel_clock 1) (kernel_clock 2) kernel_world_started) as [(w2 & r & Hc & Hh & _)|H];
    [rewrite ?registered_run..|left; exists w2, r; split; assumption|right; exact H].
  all: lazymatch goal with
    | |- on_authority _ _ = _ => exact kernel_issues
    | |- _ /\ _ => vm_compute; split; [split|]; first [discriminate|reflexivity]
    | |- _ <> _ => intros H; apply (f_equal (fun g => length (DesignGraph.nets g))) in H; vm_compute in H; discriminate
    | |- _ => vm_compute; reflexivity
    end.
Defined.
