(* ===== verification/BoardAdapter.v ===== *)
(** * From the design graph to the verified board (backend/design_kernel/adapter.py)

    [to_verification_board] gives the rules of the verification package the
    board of a revision.  The board carries the graph one to one; what it cannot
    represent is named in its unsupported features, and nothing else is. *)
From S2P Require Import Prelude PyDict PyStr Models Geometry Board OutlineFacts KernelText KernelModel KernelShape KernelGraph.
From S2P Require Import KernelCommand KernelLaws CommitAuthority Kernel KernelSteps KernelRuns KernelPreview.

Local Open Scope string_scope.

(** [_PIN_TYPES.get(value)] *)
Definition pin_type (value : string) : option PinElectricalType.t :=
  head (filter (fun item => PinElectricalType.value item = value)
    [PinElectricalType.INPUT; PinElectricalType.OUTPUT; PinElectricalType.BIDIRECTIONAL; PinElectricalType.PASSIVE;
     PinElectricalType.POWER_IN; PinElectricalType.POWER_OUT; PinElectricalType.OPEN_COLLECTOR;
     PinElectricalType.NO_CONNECT; PinElectricalType.UNSPECIFIED]).
(** [PadShape(value)] *)
Definition pad_shape (value : string) : result PadShape.t :=
  match filter (fun item => PadShape.value item = value) [PadShape.CIRCLE; PadShape.OVAL; PadShape.RECT; PadShape.ROUNDRECT] with
  | item :: _ => Ok item
  | [] => Err (Exn ValueError (repr_id value +:+ " is not a valid PadShape"))
  end.
Definition fill_state (x : KernelModel.ZoneFillState.t) : Board.ZoneFillState.t :=
  match x with
  | KernelModel.ZoneFillState.UNFILLED_INTENT => Board.ZoneFillState.UNFILLED_INTENT
  | KernelModel.ZoneFillState.VERIFIED_FILLED => Board.ZoneFillState.VERIFIED_FILLED
  end.

(** A dict comprehension: the last entry of a key wins. *)
Definition dict_from {K V} `{Countable K} (l : list (K * V)) : gmap K V :=
  foldl (fun m kv => <[kv.1 := kv.2]> m) ∅ l.
Definition pads_by_number (graph : DesignGraph.t) : gmap (string * string) FootprintPad.t :=
  dict_from ((fun item => ((FootprintPad.component_id item, FootprintPad.pad_number item), item)) <$> DesignGraph.pads graph).
Definition pin_memberships (graph : DesignGraph.t) : gmap (string * string) string :=
  dict_from (DesignGraph.nets graph ≫= fun net =>
    (fun member => ((PinRef.component_id member, PinRef.pin_number member), Net.net_id net)) <$> Net.members net).

(** [[feature]] when the condition holds. *)
Definition report (cond : bool) (feature : string) : list string := if cond then [feature] else [].

(** ** Components *)

Definition quarter_turn : Z := 90000000.
Definition off_grid (rotation : Z) : bool := negb (rotation mod quarter_turn =? 0)%Z.

Definition pad_features (graph : DesignGraph.t) (component_id pin_number : string) (pad : FootprintPad.t) : list string :=
  let pad_id := FootprintPad.pad_id pad in
  let shape := FootprintPad.shape pad in
  (report (bool_decide (shape = "circle") && negb (FootprintPad.size_x_nm pad =? FootprintPad.size_y_nm pad)%Z)
     ("exact-pad-circle-nonsquare-not-supported:" +:+ pad_id) ++
   report (bool_decide (shape = "roundrect")) ("exact-pad-roundrect-radius-not-represented:" +:+ pad_id) ++
   report (negb (bool_decide (shape = "circle")) && off_grid (FootprintPad.rotation_udeg pad))
     ("exact-pad-rotation-not-supported:" +:+ pad_id +:+ ":" +:+ str_of_int (FootprintPad.rotation_udeg pad)) ++
   report (negb (FootprintPad.drill_x_nm pad =? FootprintPad.drill_y_nm pad)%Z && off_grid (FootprintPad.drill_rotation_udeg pad))
     ("exact-drill-rotation-not-supported:pad:" +:+ pad_id +:+ ":" +:+ str_of_int (FootprintPad.drill_rotation_udeg pad)) ++
   report (FootprintPad.locked pad) ("locked-pad-metadata-unrepresented:" +:+ pad_id) ++
   report (bool_decide (is_Some (FootprintPad.net_id pad)) &&
       bool_decide (pin_memberships graph !! (component_id, pin_number) = None))
     ("pad-only-net-binding-unrepresented:" +:+ pad_id))%list.

Definition pin_features (graph : DesignGraph.t) (component_id : string) (pin : PinDefinition.t) : list string :=
  let number := PinDefinition.number pin in
  let electrical_type := PinDefinition.electrical_type pin in
  (report (bool_decide (pin_type electrical_type = None))
     ("pin-electrical-type-unsupported:" +:+ component_id +:+ ":" +:+ number +:+ ":" +:+ electrical_type) ++
   match pads_by_number graph !! (component_id, PinDefinition.pad_number pin) with
   | None => ["pin-pad-geometry-missing:" +:+ component_id +:+ ":" +:+ number]
   | Some pad => pad_features graph component_id number pad
   end)%list.

Definition board_pin (graph : DesignGraph.t) (component_id : string) (pin : PinDefinition.t) : Board.Pin.t :=
  let electrical_type := default PinElectricalType.UNSPECIFIED (pin_type (PinDefinition.electrical_type pin)) in
  match pads_by_number graph !! (component_id, PinDefinition.pad_number pin) with
  | None => Board.Pin.mk (PinDefinition.number pin) (PinDefinition.name pin) electrical_type (PinDefinition.required pin)
      None 0 [] 0 (PinDefinition.pad_number pin)
  | Some pad => Board.Pin.mk (PinDefinition.number pin) (PinDefinition.name pin) electrical_type (PinDefinition.required pin)
      (Some (FootprintPad.center pad)) (Z.min (FootprintPad.size_x_nm pad) (FootprintPad.size_y_nm pad))
      (FootprintPad.layers pad) (FootprintPad.pad_drill_nm pad) (PinDefinition.pad_number pin)
  end.

Definition component_features (graph : DesignGraph.t) (component : KernelModel.Component.t) : list string :=
  let component_id := KernelModel.Component.component_id component in
  (match dict_by FootprintPlacement.component_id (DesignGraph.placements graph) !! component_id with
   | None => ["footprint-placement-missing:" +:+ component_id]
   | Some placement => report (FootprintPlacement.locked placement)
       ("locked-placement-metadata-unrepresented:" +:+ component_id)
   end ++ (KernelModel.Component.pins component ≫= pin_features graph component_id))%list.

Definition board_component (graph : DesignGraph.t) (c : KernelModel.Component.t) : Board.Component.t :=
  Board.Component.mk (KernelModel.Component.component_id c) (KernelModel.Component.reference c)
    (KernelModel.Component.value c) (KernelModel.Component.footprint_id c)
    (KernelModel.Component.manufacturer_part_number c) (KernelModel.Component.datasheet_sha256 c)
    (KernelModel.Component.pin_map_sha256 c)
    (board_pin graph (KernelModel.Component.component_id c) <$> KernelModel.Component.pins c).

(** ** Copper and nets *)

Definition board_track (x : KernelModel.Track.t) : Board.Track.t :=
  Board.Track.mk (KernelModel.Track.track_id x) (KernelModel.Track.net_id x) (KernelModel.Track.layer x)
    (KernelModel.Track.start x) (KernelModel.Track.end_ x) (KernelModel.Track.width_nm x).
Definition board_via (x : KernelModel.Via.t) : Board.Via.t :=
  Board.Via.mk (KernelModel.Via.via_id x) (KernelModel.Via.net_id x) (KernelModel.Via.center x)
    (KernelModel.Via.diameter_nm x) (KernelModel.Via.drill_nm x) (KernelModel.Via.layers x).
Definition board_fill_evidence (e : KernelModel.ZoneFillEvidence.t) : Board.ZoneFillEvidence.t :=
  Board.ZoneFillEvidence.mk (KernelModel.ZoneFillEvidence.source_graph_hash e)
    (KernelModel.ZoneFillEvidence.source_revision e) (KernelModel.ZoneFillEvidence.fill_engine_id e)
    (KernelModel.ZoneFillEvidence.fill_engine_revision e) (KernelModel.ZoneFillEvidence.filled_geometry_hash e)
    (KernelModel.ZoneFillEvidence.evidence_hash e).
Definition board_zone (x : CopperZone.t) : Board.Zone.t :=
  Board.Zone.mk (CopperZone.zone_id x) (CopperZone.net_id x) (CopperZone.layer x) (CopperZone.outline x)
    (CopperZone.clearance_nm x) (fill_state (CopperZone.fill_state x)) (board_fill_evidence <$> CopperZone.fill_evidence x).
Definition zone_features (x : CopperZone.t) : list string :=
  (report (negb (CopperZone.min_thickness_nm x =? 100000)%Z) ("zone-minimum-thickness-unrepresented:" +:+ CopperZone.zone_id x) ++
   report (negb (CopperZone.priority x =? 0)%Z) ("zone-priority-unrepresented:" +:+ CopperZone.zone_id x) ++
   report (CopperZone.locked x) ("locked-zone-metadata-unrepresented:" +:+ CopperZone.zone_id x))%list.
Definition board_hole (x : FootprintHole.t) : Board.Hole.t :=
  Board.Hole.mk (FootprintHole.hole_id x) (FootprintHole.component_id x) (FootprintHole.center x)
    (FootprintHole.diameter_nm x) (FootprintHole.plated x) (FootprintHole.pad_id x) (FootprintHole.drill_x_nm x)
    (FootprintHole.drill_y_nm x) (FootprintHole.drill_rotation_udeg x).
Definition board_pad (x : FootprintPad.t) : result PhysicalPad.t :=
  let* shape := pad_shape (FootprintPad.shape x) in
  Ok (PhysicalPad.mk (FootprintPad.pad_id x) (FootprintPad.component_id x) (FootprintPad.pad_number x)
    (FootprintPad.net_id x) (FootprintPad.center x) (FootprintPad.size_x_nm x) (FootprintPad.size_y_nm x) shape
    (FootprintPad.rotation_udeg x) (FootprintPad.layers x) (FootprintPad.pad_drill_nm x) (FootprintPad.drill_x_nm x)
    (FootprintPad.drill_y_nm x) (FootprintPad.drill_rotation_udeg x) (FootprintPad.shared_land_group_id x)).
Definition board_net (x : KernelModel.Net.t) : Board.Net.t :=
  Board.Net.mk (KernelModel.Net.net_id x) (KernelModel.Net.name x)
    ((fun member => NetConnection.mk (PinRef.component_id member) (PinRef.pin_number member)) <$> KernelModel.Net.members x)
    false.

(** ** The board *)

(** The unsupported features in the order in which they are found. *)
Definition unsupported_features (graph : DesignGraph.t) : list string :=
  (report (bool_decide (DesignGraph.board_outline graph = [])) "board-outline-missing" ++
   (DesignGraph.components graph ≫= component_features graph) ++
   (DesignGraph.tracks graph ≫= fun x =>
     report (KernelModel.Track.locked x) ("locked-track-metadata-unrepresented:" +:+ KernelModel.Track.track_id x)) ++
   (DesignGraph.vias graph ≫= fun x =>
     report (KernelModel.Via.locked x) ("locked-via-metadata-unrepresented:" +:+ KernelModel.Via.via_id x)) ++
   (DesignGraph.zones graph ≫= zone_features) ++
   (DesignGraph.holes graph ≫= fun x =>
     report (FootprintHole.locked x) ("locked-hole-metadata-unrepresented:" +:+ FootprintHole.hole_id x)) ++
   ((fun x => "schematic-wire-unrepresented:" +:+ SchematicWire.wire_id x) <$> DesignGraph.schematic_wires graph) ++
   ((fun x => "schematic-junction-unrepresented:" +:+ SchematicJunction.junction_id x) <$>
     DesignGraph.schematic_junctions graph))%list.

Definition to_verification_board (graph : DesignGraph.t) (revision : string) : result BoardGraph.t :=
  raise_if (negb (is_sha256_hex revision))
    (invariant_err "verification subject revision must be a lowercase SHA-256 digest") ;;;
  let* normalized := DesignGraph.normalized graph in
  validate_graph normalized ;;;
  let* physical_pads := mapM board_pad (DesignGraph.pads normalized) in
  Ok (BoardGraph.normalized (BoardGraph.mk 3 (DesignGraph.project_id normalized) revision (DesignGraph.layers normalized)
    (DesignGraph.board_outline normalized)
    (board_component normalized <$> DesignGraph.components normalized)
    (board_net <$> DesignGraph.nets normalized)
    (board_track <$> DesignGraph.tracks normalized)
    (board_via <$> DesignGraph.vias normalized)
    (unsupported_features normalized)
    (board_zone <$> DesignGraph.zones normalized)
    (board_hole <$> DesignGraph.holes normalized)
    physical_pads)).

Definition revision_to_verification_board (revision : DesignRevision.t) : result BoardGraph.t :=
  to_verification_board (DesignRevision.graph revision) (DesignRevision.revision_hash revision).

(** * What the verified board says of a revision

    The adapter is total on valid graphs, and the board that it makes carries
    the graph one to one.  It has no unsupported feature exactly when the graph
    has nothing that the board cannot represent - as far as it looks at pads:
    it looks at the last pad of each number. *)

Lemma report_nil c f : report c f = [] <-> c = false.
Proof. by destruct c. Qed.

(** The pad that the adapter takes for a pin. *)
Definition pad_of (graph : DesignGraph.t) (c : KernelModel.Component.t) (pin : PinDefinition.t) : option FootprintPad.t :=
  pads_by_number graph !! (KernelModel.Component.component_id c, PinDefinition.pad_number pin).

(** A pad that the board can represent. *)
Record pad_represented (graph : DesignGraph.t) (c : KernelModel.Component.t) (pin : PinDefinition.t) (p : FootprintPad.t) : Prop := {
  pr_circle : FootprintPad.shape p = "circle" -> FootprintPad.size_x_nm p = FootprintPad.size_y_nm p;
  pr_corner : FootprintPad.shape p <> "roundrect";
  pr_rotation : FootprintPad.shape p <> "circle" -> (FootprintPad.rotation_udeg p mod quarter_turn = 0)%Z;
  pr_drill : FootprintPad.drill_x_nm p <> FootprintPad.drill_y_nm p ->
    (FootprintPad.drill_rotation_udeg p mod quarter_turn = 0)%Z;
  pr_lock : FootprintPad.locked p = false;
  pr_net : FootprintPad.net_id p <> None ->
    pin_memberships graph !! (KernelModel.Component.component_id c, PinDefinition.number pin) <> None;
}.

(** A graph without the features that the board has no place for: locks,
    rounded or turned pads, placements that are missing, priorities, drawings.
    Of several pads of one number only the last is looked at. *)
Record represented (graph : DesignGraph.t) : Prop := {
  rp_outline : DesignGraph.board_outline graph <> [];
  rp_placed : forall c, c ∈ DesignGraph.components graph -> exists p,
    dict_by FootprintPlacement.component_id (DesignGraph.placements graph) !! KernelModel.Component.component_id c = Some p /\
    FootprintPlacement.locked p = false;
  rp_pins : forall c pin, c ∈ DesignGraph.components graph -> pin ∈ KernelModel.Component.pins c ->
    pin_type (PinDefinition.electrical_type pin) <> None /\
    exists p, pad_of graph c pin = Some p /\ pad_represented graph c pin p;
  rp_tracks : forall x, x ∈ DesignGraph.tracks graph -> KernelModel.Track.locked x = false;
  rp_vias : forall x, x ∈ DesignGraph.vias graph -> KernelModel.Via.locked x = false;
  rp_zones : forall x, x ∈ DesignGraph.zones graph ->
    CopperZone.min_thickness_nm x = 100000%Z /\ CopperZone.priority x = 0%Z /\ CopperZone.locked x = false;
  rp_holes : forall x, x ∈ DesignGraph.holes graph -> FootprintHole.locked x = false;
  rp_wires : DesignGraph.schematic_wires graph = [];
  rp_junctions : DesignGraph.schematic_junctions graph = [];
}.

Lemma pad_features_nil graph c pin p :
  pad_features graph (KernelModel.Component.component_id c) (PinDefinition.number pin) p = [] <-> pad_represented graph c pin p.
Proof.
  unfold pad_features, off_grid. rewrite !app_nil, !report_nil, !andb_false_iff, !negb_false_iff, !bool_decide_eq_false,
    !bool_decide_eq_true, !Z.eqb_eq. split.
  - intros (H1 & H2 & H3 & H4 & H5 & H6). split; try tauto.
    intros Hn. destruct H6 as [H6|H6]; [|done]. destruct H6. by apply not_eq_None_Some.
  - intros []. split_and!; try done.
    + destruct (decide (FootprintPad.shape p = "circle")); tauto.
    + destruct (decide (FootprintPad.shape p = "circle")); tauto.
    + destruct (decide (FootprintPad.drill_x_nm p = FootprintPad.drill_y_nm p)); tauto.
    + destruct (FootprintPad.net_id p); [right; by apply pr_net0|left; by intros []].
Qed.

Lemma pin_features_nil graph c pin :
  pin_features graph (KernelModel.Component.component_id c) pin = [] <->
  pin_type (PinDefinition.electrical_type pin) <> None /\ exists p, pad_of graph c pin = Some p /\ pad_represented graph c pin p.
Proof.
  unfold pin_features, pad_of. rewrite app_nil, report_nil, bool_decide_eq_false.
  destruct (pads_by_number graph !! _) as [p|].
  - rewrite pad_features_nil. naive_solver.
  - naive_solver.
Qed.

Lemma component_features_nil graph c :
  component_features graph c = [] <->
  (exists p, dict_by FootprintPlacement.component_id (DesignGraph.placements graph) !! KernelModel.Component.component_id c = Some p /\
    FootprintPlacement.locked p = false) /\
  forall pin, pin ∈ KernelModel.Component.pins c ->
    pin_type (PinDefinition.electrical_type pin) <> None /\ exists p, pad_of graph c pin = Some p /\ pad_represented graph c pin p.
Proof.
  unfold component_features. rewrite app_nil, bind_nil. setoid_rewrite pin_features_nil.
  destruct (dict_by FootprintPlacement.component_id (DesignGraph.placements graph) !! _) as [p|].
  - rewrite report_nil. naive_solver.
  - naive_solver.
Qed.

Lemma unsupported_features_nil graph : unsupported_features graph = [] <-> represented graph.
Proof.
  unfold unsupported_features, zone_features. rewrite !app_nil, !bind_nil, report_nil, bool_decide_eq_false, !fmap_empty.
  setoid_rewrite component_features_nil. setoid_rewrite app_nil. setoid_rewrite app_nil. setoid_rewrite report_nil.
  setoid_rewrite negb_false_iff. setoid_rewrite Z.eqb_eq. split.
  - intros (H1 & H2 & H3 & H4 & H5 & H6 & H7 & H8). split; try done; [by intros c Hc; apply H2|]. intros c pin Hc. by apply H2.
  - intros []. split_and!; try done. intros c Hc. split; [by apply rp_placed0|]. intros pin. by apply rp_pins0.
Qed.

(** ** The board *)

Lemma pad_new_shape p q : FootprintPad.new p = Ok q -> str_in (FootprintPad.shape q) FootprintPad.shapes = true.
Proof.
  intros [_ H]%pad_new_Ok. unfold FootprintPad.new in H. do 6 apply seq_Ok in H as [_ H].
  by apply seq_Ok in H as [H%raise_if_Ok%negb_false_iff _].
Qed.

Lemma board_pad_total p : FootprintPad.normalized p = Ok p -> exists b, board_pad p = Ok b.
Proof.
  intros H%pad_new_shape%bool_decide_eq_true. unfold board_pad.
  repeat (apply elem_of_cons in H as [->|H]; [by eexists|]). by apply elem_of_nil in H.
Qed.

Lemma board_pads_total graph : graph_valid graph -> exists pads, Prelude.mapM board_pad (DesignGraph.pads graph) = Ok pads.
Proof. intros Hv. apply mapM_total. intros p Hp. by apply board_pad_total, (gn_pads _ (graph_valid_normal _ Hv)). Qed.

(** ** What the board carries

    One entity of the board for each entity of the graph, with the same fields:
    texts, numbers, points and outlines are the same, layers are the same set,
    and a track may have its ends swapped. *)

(** The elements of [l'] in some order are the partners of those of [l]. *)
Definition one_to_one {A B} (R : A -> B -> Prop) (l : list A) (l' : list B) : Prop :=
  exists m, Forall2 R l m /\ m ≡ₚ l'.

Definition same_layers (l l' : list string) : Prop := forall layer, layer ∈ l <-> layer ∈ l'.

(** A pin has the copper of the last pad of its number, or none. *)
Record pin_carried (graph : DesignGraph.t) (c : KernelModel.Component.t) (x : PinDefinition.t) (y : Board.Pin.t) : Prop := {
  pc_number : Board.Pin.number y = PinDefinition.number x;
  pc_name : Board.Pin.name y = PinDefinition.name x;
  pc_required : Board.Pin.required y = PinDefinition.required x;
  pc_pad_number : Board.Pin.pad_number y = PinDefinition.pad_number x;
  pc_type : pin_type (PinDefinition.electrical_type x) <> None ->
    PinElectricalType.value (Board.Pin.electrical_type y) = PinDefinition.electrical_type x;
  pc_pad : forall p, pad_of graph c x = Some p ->
    Board.Pin.pad_center y = Some (FootprintPad.center p) /\
    Board.Pin.pad_diameter_nm y = Z.min (FootprintPad.size_x_nm p) (FootprintPad.size_y_nm p) /\
    same_layers (FootprintPad.layers p) (Board.Pin.layers y) /\
    Board.Pin.pad_drill_nm y = FootprintPad.pad_drill_nm p;
  pc_bare : pad_of graph c x = None ->
    Board.Pin.pad_center y = None /\ Board.Pin.pad_diameter_nm y = 0%Z /\ Board.Pin.layers y = [] /\ Board.Pin.pad_drill_nm y = 0%Z;
}.

Record component_carried (graph : DesignGraph.t) (x : KernelModel.Component.t) (y : Board.Component.t) : Prop := {
  cc_id : Board.Component.component_id y = KernelModel.Component.component_id x;
  cc_reference : Board.Component.reference y = KernelModel.Component.reference x;
  cc_value : Board.Component.value y = KernelModel.Component.value x;
  cc_footprint : Board.Component.footprint y = KernelModel.Component.footprint_id x;
  cc_part : Board.Component.manufacturer_part_number y = KernelModel.Component.manufacturer_part_number x;
  cc_datasheet : Board.Component.datasheet_sha256 y = KernelModel.Component.datasheet_sha256 x;
  cc_pin_map : Board.Component.pin_map_sha256 y = KernelModel.Component.pin_map_sha256 x;
  cc_pins : one_to_one (pin_carried graph x) (KernelModel.Component.pins x) (Board.Component.pins y);
}.

Definition member_carried (x : PinRef.t) (y : NetConnection.t) : Prop :=
  NetConnection.component_id y = PinRef.component_id x /\ NetConnection.pin_number y = PinRef.pin_number x.
Record net_carried (x : KernelModel.Net.t) (y : Board.Net.t) : Prop := {
  nc_id : Board.Net.net_id y = KernelModel.Net.net_id x;
  nc_name : Board.Net.name y = KernelModel.Net.name x;
  nc_members : one_to_one member_carried (KernelModel.Net.members x) (Board.Net.connections y);
  nc_external : Board.Net.external_source y = false;
}.

Record track_carried (x : KernelModel.Track.t) (y : Board.Track.t) : Prop := {
  tc_id : Board.Track.track_id y = KernelModel.Track.track_id x;
  tc_net : Board.Track.net_id y = KernelModel.Track.net_id x;
  tc_layer : Board.Track.layer y = KernelModel.Track.layer x;
  tc_ends : Board.Track.start y = KernelModel.Track.start x /\ Board.Track.end_ y = KernelModel.Track.end_ x \/
    Board.Track.start y = KernelModel.Track.end_ x /\ Board.Track.end_ y = KernelModel.Track.start x;
  tc_width : Board.Track.width_nm y = KernelModel.Track.width_nm x;
}.

Record via_carried (x : KernelModel.Via.t) (y : Board.Via.t) : Prop := {
  vc_id : Board.Via.via_id y = KernelModel.Via.via_id x;
  vc_net : Board.Via.net_id y = KernelModel.Via.net_id x;
  vc_center : Board.Via.center y = KernelModel.Via.center x;
  vc_diameter : Board.Via.diameter_nm y = KernelModel.Via.diameter_nm x;
  vc_drill : Board.Via.drill_nm y = KernelModel.Via.drill_nm x;
  vc_layers : same_layers (KernelModel.Via.layers x) (Board.Via.layers y);
}.

Record fill_carried (x : KernelModel.ZoneFillEvidence.t) (y : Board.ZoneFillEvidence.t) : Prop := {
  fc_graph : Board.ZoneFillEvidence.source_graph_hash y = KernelModel.ZoneFillEvidence.source_graph_hash x;
  fc_revision : Board.ZoneFillEvidence.source_revision y = KernelModel.ZoneFillEvidence.source_revision x;
  fc_engine : Board.ZoneFillEvidence.fill_engine_id y = KernelModel.ZoneFillEvidence.fill_engine_id x;
  fc_engine_revision : Board.ZoneFillEvidence.fill_engine_revision y = KernelModel.ZoneFillEvidence.fill_engine_revision x;
  fc_geometry : Board.ZoneFillEvidence.filled_geometry_hash y = KernelModel.ZoneFillEvidence.filled_geometry_hash x;
  fc_evidence : Board.ZoneFillEvidence.evidence_hash y = KernelModel.ZoneFillEvidence.evidence_hash x;
}.

Record zone_carried (x : CopperZone.t) (y : Board.Zone.t) : Prop := {
  zc_id : Board.Zone.zone_id y = CopperZone.zone_id x;
  zc_net : Board.Zone.net_id y = CopperZone.net_id x;
  zc_layer : Board.Zone.layer y = CopperZone.layer x;
  zc_outline : Board.Zone.outline y = CopperZone.outline x;
  zc_clearance : Board.Zone.clearance_nm y = CopperZone.clearance_nm x;
  zc_state : Board.ZoneFillState.value (Board.Zone.fill_state y) = KernelModel.ZoneFillState.value (CopperZone.fill_state x);
  zc_fill : option_Forall2 fill_carried (CopperZone.fill_evidence x) (Board.Zone.fill_evidence y);
}.

Record hole_carried (x : FootprintHole.t) (y : Board.Hole.t) : Prop := {
  hc_id : Board.Hole.hole_id y = FootprintHole.hole_id x;
  hc_component : Board.Hole.component_id y = FootprintHole.component_id x;
  hc_center : Board.Hole.center y = FootprintHole.center x;
  hc_diameter : Board.Hole.diameter_nm y = FootprintHole.diameter_nm x;
  hc_plated : Board.Hole.plated y = FootprintHole.plated x;
  hc_pad : Board.Hole.pad_id y = FootprintHole.pad_id x;
  hc_drill : (Board.Hole.drill_x_nm y, Board.Hole.drill_y_nm y) = (FootprintHole.drill_x_nm x, FootprintHole.drill_y_nm x);
  hc_rotation : Board.Hole.drill_rotation_udeg y = FootprintHole.drill_rotation_udeg x;
}.

Record pad_carried (x : FootprintPad.t) (y : PhysicalPad.t) : Prop := {
  dc_id : PhysicalPad.pad_id y = FootprintPad.pad_id x;
  dc_component : PhysicalPad.component_id y = FootprintPad.component_id x;
  dc_number : PhysicalPad.pad_number y = FootprintPad.pad_number x;
  dc_net : PhysicalPad.net_id y = FootprintPad.net_id x;
  dc_center : PhysicalPad.center y = FootprintPad.center x;
  dc_size : (PhysicalPad.size_x_nm y, PhysicalPad.size_y_nm y) = (FootprintPad.size_x_nm x, FootprintPad.size_y_nm x);
  dc_shape : PadShape.value (PhysicalPad.shape y) = FootprintPad.shape x;
  dc_rotation : PhysicalPad.rotation_udeg y = FootprintPad.rotation_udeg x;
  dc_layers : same_layers (FootprintPad.layers x) (PhysicalPad.layers y);
  dc_drill : (PhysicalPad.drill_nm y, PhysicalPad.drill_x_nm y, PhysicalPad.drill_y_nm y) =
    (FootprintPad.pad_drill_nm x, FootprintPad.drill_x_nm x, FootprintPad.drill_y_nm x);
  dc_drill_rotation : PhysicalPad.drill_rotation_udeg y = FootprintPad.drill_rotation_udeg x;
  dc_group : PhysicalPad.shared_land_group_id y = FootprintPad.shared_land_group_id x;
}.

(** The board is the graph: nothing is left out and nothing is added. *)
Record carries (graph : DesignGraph.t) (board : BoardGraph.t) : Prop := {
  ca_layers : same_layers (DesignGraph.layers graph) (BoardGraph.layers board);
  ca_outline : BoardGraph.outline board = DesignGraph.board_outline graph;
  ca_components : one_to_one (component_carried graph) (DesignGraph.components graph) (BoardGraph.components board);
  ca_nets : one_to_one net_carried (DesignGraph.nets graph) (BoardGraph.nets board);
  ca_tracks : one_to_one track_carried (DesignGraph.tracks graph) (BoardGraph.tracks board);
  ca_vias : one_to_one via_carried (DesignGraph.vias graph) (BoardGraph.vias board);
  ca_zones : one_to_one zone_carried (DesignGraph.zones graph) (BoardGraph.zones board);
  ca_holes : one_to_one hole_carried (DesignGraph.holes graph) (BoardGraph.holes board);
  ca_pads : one_to_one pad_carried (DesignGraph.pads graph) (BoardGraph.pads board);
}.

(** *** The normal form of a board carries what the board carries *)

Lemma one_to_one_fmap {A B} (R : A -> B -> Prop) f l : (forall x, x ∈ l -> R x (f x)) -> one_to_one R l (f <$> l).
Proof.
  intros H. exists (f <$> l). split; [|done]. rewrite Forall2_fmap_r. apply Forall_Forall2_diag, Forall_forall. exact H.
Qed.

Lemma one_to_one_sorted {A B K} `{PyOrdLaws K} (R : A -> B -> Prop) (norm : B -> B) (key : B -> K) l l' :
  (forall x y, x ∈ l -> R x y -> R x (norm y)) -> one_to_one R l l' -> one_to_one R l (sorted_on key (norm <$> l')).
Proof.
  intros HR (m & Hm & Hp). exists (norm <$> m). split; [|by rewrite sorted_on_Permutation, Hp]. clear Hp l'.
  induction Hm as [|x y l m Hxy _ IH]; [constructor|]. constructor; [apply HR; [by left|done]|].
  apply IH. intros u v Hu. apply HR. by right.
Qed.

Lemma one_to_one_sorted_id {A B K} `{PyOrdLaws K} (R : A -> B -> Prop) (key : B -> K) l l' :
  one_to_one R l l' -> one_to_one R l (sorted_on key l').
Proof. intros (m & Hm & Hp). exists m. split; [done|]. by rewrite sorted_on_Permutation. Qed.

Lemma same_layers_sorted l l' : same_layers l l' -> same_layers l (sorted_set l').
Proof. intros Hl x. unfold sorted_set. by rewrite elem_of_sorted_on, elem_of_remove_dups. Qed.

(** The outlines of a valid graph are in normal form. *)
Definition normal_outlines (graph : DesignGraph.t) : Prop :=
  Outline.normalized (DesignGraph.board_outline graph) = DesignGraph.board_outline graph /\
  forall z, z ∈ DesignGraph.zones graph -> Outline.normalized (CopperZone.outline z) = CopperZone.outline z.

Lemma graph_valid_outlines graph : graph_valid graph -> normal_outlines graph.
Proof.
  intros Hv. pose proof (graph_valid_normal _ Hv) as Hn. destruct Hv as [Hg _]. split.
  - unfold DesignGraph.normalized in Hg. do 8 (apply bind_Ok in Hg as (? & _ & Hg)).
    apply graph_new_Ok in Hg. rewrite <- normalized_ring_kernel. rewrite Hg at 2. done.
  - intros z Hz. pose proof (gn_zones _ Hn z Hz) as Hz'. unfold CopperZone.normalized in Hz'.
    assert (forall x y, CopperZone.new x = Ok y -> y = x) as Hnew by returns_argument. apply Hnew in Hz'.
    rewrite <- normalized_ring_kernel. rewrite Hz' at 2. done.
Qed.

Create HintDb carried.
#[local] Hint Extern 2 (same_layers _ _) => apply same_layers_sorted : carried.

Lemma carries_normalized graph board :
  normal_outlines graph -> carries graph board -> carries graph (BoardGraph.normalized board).
Proof.
  intros [Ho Hz] []. split; cbn [BoardGraph.normalized BoardGraph.layers BoardGraph.outline BoardGraph.components BoardGraph.nets
    BoardGraph.tracks BoardGraph.vias BoardGraph.zones BoardGraph.holes BoardGraph.pads]; auto with carried.
  - by rewrite ca_outline0.
  - apply one_to_one_sorted; [|done]. intros x y _ []. split; try done. apply one_to_one_sorted; [|done].
    intros u v _ []. split; try done. 
    + intros p Hp. destruct (pc_pad0 p Hp) as (? & ? & ? & ?). split_and!; auto with carried.
    + intros Hp. destruct (pc_bare0 Hp) as (? & ? & E & ?). split_and!; try done. cbn. by rewrite E.
  - apply one_to_one_sorted; [|done]. intros x y _ []. split; try done. by apply one_to_one_sorted_id.
  - apply one_to_one_sorted; [|done]. intros x y _ []. unfold Board.Track.normalized.
    destruct (py_lt _ _); split; try done. cbn. tauto.
  - apply one_to_one_sorted; [|done]. intros x y _ []. split; auto with carried.
  - apply one_to_one_sorted; [|done]. intros x y Hin []. split; try done. cbn. by rewrite zc_outline0, Hz.
  - by apply one_to_one_sorted_id.
  - apply one_to_one_sorted; [|done]. intros x y _ []. split; auto with carried.
Qed.

(** *** The board of the adapter carries the graph *)

Lemma pin_type_value value item : pin_type value = Some item -> PinElectricalType.value item = value.
Proof.
  unfold pin_type. intros H. apply head_Some_elem_of, list_elem_of_filter in H. apply H.
Qed.

Lemma board_pin_carried graph c x : pin_carried graph c x (board_pin graph (KernelModel.Component.component_id c) x).
Proof.
  unfold board_pin. split; try (by destruct (_ !! _)).
  - intros Hne. destruct (pin_type _) as [item|] eqn:E; [|done]. apply pin_type_value in E. by destruct (_ !! _).
  - unfold pad_of. intros p ->. by split_and!.
  - unfold pad_of. by intros ->.
Qed.

Lemma board_pad_carried x y : board_pad x = Ok y -> pad_carried x y.
Proof.
  unfold board_pad. intros (shape & Hs & <-%Ok_inj)%bind_Ok. split; try done. unfold pad_shape in Hs.
  destruct (filter _ _) as [|item l] eqn:E; [done|]. injection Hs as ->.
  assert (shape ∈ filter (fun item => PadShape.value item = FootprintPad.shape x)
    [PadShape.CIRCLE; PadShape.OVAL; PadShape.RECT; PadShape.ROUNDRECT]) as Hin by (rewrite E; by left).
  by apply list_elem_of_filter in Hin as [? _].
Qed.

Lemma adapter_result graph rev :
  graph_valid graph -> is_sha256_hex rev = true ->
  exists board, to_verification_board graph rev = Ok board /\
    BoardGraph.revision board = rev /\ BoardGraph.design_id board = DesignGraph.project_id graph /\
    carries graph board /\ BoardGraph.unsupported_features board = sorted_set (unsupported_features graph).
Proof.
  intros Hv Hrev. destruct (board_pads_total _ Hv) as [pads Hp]. pose proof (graph_valid_outlines _ Hv) as Ho.
  destruct Hv as [Hn Hg]. unfold to_verification_board. rewrite Hrev, Hn. cbn [bind negb raise_if]. rewrite Hg. cbn [bind].
  rewrite Hp. cbn [bind]. eexists. split; [done|]. split_and!; [done..| |done]. apply carries_normalized; [done|].
  split; cbn [BoardGraph.layers BoardGraph.outline BoardGraph.components BoardGraph.nets BoardGraph.tracks BoardGraph.vias
    BoardGraph.zones BoardGraph.holes BoardGraph.pads]; try done.
  - apply one_to_one_fmap. intros c _. split; try done. apply one_to_one_fmap. intros x _. apply board_pin_carried.
  - apply one_to_one_fmap. intros x _. split; try done. by apply one_to_one_fmap.
  - apply one_to_one_fmap. intros x _. split; try done. by left.
  - apply one_to_one_fmap. by intros x _.
  - apply one_to_one_fmap. intros x _. split; try done; [by destruct x as [? ? ? ? ? ? ? ? [] ?]|].
    unfold board_zone. cbn. destruct (CopperZone.fill_evidence x); by constructor.
  - apply one_to_one_fmap. by intros x _.
  - exists pads. split; [|done]. apply mapM_Ok_Forall2 in Hp. eapply Forall2_impl; [exact Hp|]. apply board_pad_carried.
Qed.

(** C32. The board of a revision is the revision's design: on a valid graph the
    adapter returns a board of that design at that revision, and the board
    carries the graph one to one - its components are those of the graph with
    their pins, its nets those with their members, its tracks, vias, zones,
    holes and physical pads those of the graph, with the values of the graph in
    every field that the board has; a pin has the copper of the last pad of its
    number, or none when there is no such pad.  The board has no unsupported
    feature exactly when the graph has an outline; every component has a
    placement, not locked; every pin has a known type and a pad, of which the
    last is not locked, a circle only when its axes are equal, not a rounded
    rectangle, turned by quarters unless it is a circle, with a drill turned by
    quarters unless its axes are equal, and with a net only when the pin is a
    member of one; no track, via, zone or hole is locked; every zone has
    priority 0 and a least thickness of 100 micrometres; and the schematic has
    no wires and no junctions. *)
Theorem board_is_honest graph rev :
  graph_valid graph -> is_sha256_hex rev = true ->
  exists board, to_verification_board graph rev = Ok board /\
    BoardGraph.revision board = rev /\ BoardGraph.design_id board = DesignGraph.project_id graph /\
    carries graph board /\ (BoardGraph.unsupported_features board = [] <-> represented graph).
Proof.
  intros Hv Hrev. destruct (adapter_result _ _ Hv Hrev) as (board & Hb & Hr & Hd & Hc & Hu). exists board.
  split_and!; [done..|]. by rewrite Hu, sorted_set_nil, unsupported_features_nil.
Qed.

(** ** Witnesses *)

Lemma board_is_honest_witness : exists board,
  to_verification_board (DesignRevision.graph kernel_revision) (DesignRevision.revision_hash kernel_revision) = Ok board /\
  carries (DesignRevision.graph kernel_revision) board /\ BoardGraph.unsupported_features board <> [].
Proof.
  destruct (board_is_honest (DesignRevision.graph kernel_revision) (DesignRevision.revision_hash kernel_revision))
    as (board & Hb & _ & _ & Hc & Hu).
  - split; vm_compute; reflexivity.
  - vm_compute. reflexivity.
  - exists board. split; [exact Hb|]. split; [exact Hc|]. intros H. apply Hu in H. apply (rp_outline _ H). reflexivity.
Defined.

(** What the board leaves out without a word: of two physical pads of one
    pin the adapter looks at the last one, so that a valid graph in which the
    other is locked has a board without unsupported features. *)
Theorem shadowed_pad_lock_is_dropped :
  graph_valid shadowed_graph /\
  exists pad board, pad ∈ DesignGraph.pads shadowed_graph /\ FootprintPad.locked pad = true /\
    to_verification_board shadowed_graph kernel_report = Ok board /\ BoardGraph.unsupported_features board = [].
Proof.
  split; [split; vm_compute; reflexivity|]. exists (kernel_pad "p1" 1000000 true).
  destruct (to_verification_board shadowed_graph kernel_report) as [board|] eqn:E; [|vm_compute in E; discriminate].
  exists board. split_and!; [by left|done..|].
  apply (f_equal (fun r => let* b := r in Ok (BoardGraph.unsupported_features b))) in E. vm_compute in E. injection E as E. symmetry. exact E.
Qed.
