(* ===== verification/KernelVerified.v ===== *)
(** * Verified revisions

    The kernel, the adapter and the verification engine together: what a report
    on the board of a published revision says of the graph of the revision. *)
From S2P Require Import Prelude PyDict PyStr Geometry Board Rule BoardFixtures Canonical BoardValues Policy.
From S2P Require Import CanonicalFacts Engine EngineGuarantees KernelText KernelModel KernelGraph KernelCommand.
From S2P Require Import CommitAuthority Kernel KernelSteps KernelInv KernelRuns KernelLedger KernelLive BoardAdapter.

Local Open Scope string_scope.

(** ** A design that passes *)

Definition whole_pad (component number net : string) (x y : Z) : FootprintPad.t :=
  FootprintPad.mk (component +:+ "-" +:+ number) component number (PointNm.mk x y) 600000 600000 "circle" 0 ["F.Cu"] 0 (Some net)
    false 0 0 0 None.
Definition whole_component (id reference : string) : KernelModel.Component.t :=
  KernelModel.Component.mk id reference "10k" "RC0603-10K" "0603" "R" "R_0603" demo_digest demo_digest
    [PinDefinition.mk "1" "A" "passive" "1" true; PinDefinition.mk "2" "B" "passive" "2" true].
Definition whole_net (id name pin : string) : KernelModel.Net.t :=
  KernelModel.Net.mk id name [PinRef.mk "c1" pin; PinRef.mk "c2" pin].
Definition whole_track (id net : string) (y : Z) : KernelModel.Track.t :=
  KernelModel.Track.mk id net "F.Cu" (PointNm.mk 0 y) (PointNm.mk 5000000 y) 400000 false.
(** The clean board as a graph: two resistors, two nets and a track of each. *)
Definition whole_graph : DesignGraph.t :=
  DesignGraph.mk 1 "clean" ["B.Cu"; "F.Cu"] demo_outline [whole_component "c1" "R1"; whole_component "c2" "R2"]
    [whole_net "n1" "IN" "1"; whole_net "n2" "OUT" "2"]
    [FootprintPlacement.mk "c1" (PointNm.mk 0 0) 0 "front" false; FootprintPlacement.mk "c2" (PointNm.mk 5000000 0) 0 "front" false]
    [whole_track "t1" "n1" 0; whole_track "t2" "n2" 2000000]
    [whole_pad "c1" "1" "n1" 0 0; whole_pad "c1" "2" "n2" 0 2000000; whole_pad "c2" "1" "n1" 5000000 0;
     whole_pad "c2" "2" "n2" 5000000 2000000] [] [] [] [] [].
Definition whole_world : world := Eval vm_compute in
  World (value_or no_kernel (Kernel.init whole_graph true)) (authority kernel_world).
Definition whole_revision : DesignRevision.t := Eval vm_compute in
  value_or no_revision (head_revision (kernel whole_world)).
Definition whole_board : BoardGraph.t := Eval vm_compute in
  value_or clean_board (revision_to_verification_board whole_revision).

Lemma whole_world_started : started whole_graph whole_world.
Proof.
  split; [exists true; vm_compute; reflexivity|].
  exists "key", kernel_secret, "user:owner", 1%Z. vm_compute. reflexivity.
Qed.
Lemma whole_board_made : revision_to_verification_board whole_revision = Ok whole_board.
Proof. vm_compute. reflexivity. Qed.

Lemma whole_run : exists report,
  VerificationEngine.verify constant_identity (Ok "code") 0 default_engine whole_board None = Ok report /\
  gate_passed report "commit".
Proof.
  destruct (default_run constant_identity (fun s => PStr (match s with Engine.Kernel => "kernel" | Rule id => id end)) "code" 0
    whole_board) as (report & Hr & _ & _ & Hg); [done| |by vm_compute|done| |].
  - intros s. apply (py_canonical (A := string)).
  - apply silent_tested. by vm_compute.
  - exists report. split; [done|]. apply Hg. right; left.
Qed.

(** ** The composition *)

(** C21. A revision passes as a whole or not at all: every revision that a run
    publishes has a board that carries its graph one to one - components with
    their pins, nets, tracks, vias, zones, holes and physical pads.  When a
    required gate passes in a report on that board - under any policy, by any
    implementation with the default rules and the exact kernel - what the gate
    examined, the normalized board, carries the graph as well and is sound, and
    the graph has nothing that the adapter reports as unrepresented: no lock,
    drawing, missing placement or shape that the board has no place for, where
    of several pads of one number only the last is examined.  Under the default
    policy a passed commit gate also means that the normalized board is clear:
    connected, apart and wide enough, as [clear_board] lists.  Otherwise two
    revisions of the run are a collision of SHA-256. *)
Theorem verified_revision_is_whole g w0 calls h r (Hstart : started g w0) :
  get_revision (kernel (run calls w0)) h = Ok r ->
  (exists board, revision_to_verification_board r = Ok board /\
    BoardGraph.revision board = h /\ carries (DesignRevision.graph r) board /\
    forall identity code now engine policy report id,
      EngineGuarantees.registered engine -> VerificationEngine.geometry engine = ExactGeometryKernel.kernel ->
      VerificationEngine.verify identity code now engine board policy = Ok report ->
      id ∈ REQUIRED_GATE_IDS -> gate_passed report id ->
      carries (DesignRevision.graph r) (BoardGraph.normalized board) /\
      sound_board (BoardGraph.normalized board) /\ represented (DesignRevision.graph r) /\
      (policy = None -> id = "commit" -> clear_board (BoardGraph.normalized board))) \/
  run_collides w0 calls.
Proof.
  intros Hr%get_revision_Ok. destruct (run_inv g w0 Hstart calls) as [Hk|H]; [left|by right].
  destruct (ki_revision _ Hk _ _ Hr) as [Hnew Hvalid _ _ _]. pose proof (ki_hash _ Hk _ _ Hr) as Eh.
  destruct (adapter_result _ (DesignRevision.revision_hash r) Hvalid) as (board & Hb & Hrev & _ & Hc & Hu);
    [by eapply revision_hex|].
  exists board. split; [done|]. split; [by rewrite Hrev|]. split; [done|].
  intros identity code now engine policy report id Hreg Hgeo Hv Hid Hp.
  assert (sound_board (BoardGraph.normalized board)) as Hs by (by eapply cleared_sound; [eapply gate_clears|..]).
  split_and!; [apply carries_normalized; [by apply graph_valid_outlines|done]|done| |].
  - apply unsupported_features_nil. apply (sorted_set_nil (unsupported_features _)). rewrite <- Hu.
    apply (sorted_set_nil (BoardGraph.unsupported_features board)), (sound_features _ Hs).
  - intros -> ->. eapply (cleared_clear "commit" _ (VerificationEngine.geometry engine) Severity.ERROR);
      [by eapply gate_clears|done..|apply normalized_tracks].
Qed.

Lemma verified_revision_is_whole_witness :
  (exists report, VerificationEngine.verify constant_identity (Ok "code") 0 default_engine whole_board None = Ok report /\
    gate_passed report "commit" /\ carries (DesignRevision.graph whole_revision) (BoardGraph.normalized whole_board) /\
    represented (DesignRevision.graph whole_revision) /\ clear_board (BoardGraph.normalized whole_board)) \/
  run_collides whole_world [].
Proof.
  destruct (verified_revision_is_whole whole_graph whole_world [] (DesignRevision.revision_hash whole_revision) whole_revision
    whole_world_started) as [(board & Hb & _ & _ & H)|H]; [vm_compute; reflexivity|left|right; exact H].
  rewrite whole_board_made in Hb. apply Ok_inj in Hb. subst board. destruct whole_run as (report & Hr & Hp).
  destruct (H constant_identity (Ok "code") 0%nat default_engine None report "commit" default_registered eq_refl Hr)
    as (Hw & _ & Hg & Hc); [right; left|exact Hp|].
  exists report. split; [exact Hr|]. split; [exact Hp|]. split; [exact Hw|]. split; [exact Hg|]. apply Hc; reflexivity.
Defined.
